(* ===== verification/_CoqProject ===== *)
-Q . S2P
Prelude.v
Queue.v
Lwmem.v
Clocks.v
Kernel.v
Frame.v
Waits.v
Veil.v
Lwsem.v
Mutex.v
Lwmsgq.v
Lwevent.v
Heap.v
Lwlog.v
Lwtimer.v
Mfsio.v
Fat.v
