(* ===== verification/Prelude.v ===== *)
(** * Verification of the core of the Freescale MQX RTOS 4.1.1 sources

    MQX is a real-time kernel for Cortex-M processors with a FAT file system
    (MFS), a TCP/IP stack and USB stacks on top.  This development models the
    kernel's data structures, its memory manager, its clock, its scheduler,
    the objects that tasks wait for, its lightweight timers and logs, and the
    lowest layers of the file system.

    ** Files

    Data structures and memory:
    - [Prelude]: wrap-around of machine integers, the state monad with faults
      and its rules, lemmas on lists, options and maps, tactics, hints.
    - [Queue] (mqx/source/kernel/queue.c, the queue macros of mqx_prv.h): a
      store of NEXT, PREV, SIZE and MAX fields indexed by address.  The
      abstract queue is a list; [queue_trace_refines] is the refinement.
    - [Lwmem] (kernel/lwmem.c): a pool is a memory of 32-bit words holding
      the block headers; allocation, freeing, testing, and the pool's
      creation.  The invariant says that the blocks tile the pool and that
      the free list is the sorted list of the free blocks.
    - [Heap] (the allocator option of mqx.h): the interface [SystemHeap] of
      the system's memory, its laws [HeapLaws], and the instance [Lwmem] is.

    Time:
    - [Clocks] (kernel/time.c, psp/cortex_m/psp_*.c): calendar conversion
      and tick arithmetic at the widths the code uses.
    - [Lwtimer] (kernel/lwtimer.c): periodic queues of timers, over [Queue].
      The functions of the timers are the class [Functions], with what is
      asked of them in [FunctionLaws].
    - [Lwlog] (kernel/lwlog.c): logs in memory of [Heap], with time stamps of
      [Clocks].

    Scheduling and what tasks wait for:
    - [Kernel] (kernel/sched.c, task.c, time.c, taskq.c, the dispatcher in
      psp/cortex_m/core/M4/dispatch.S): task descriptors, ready queues, the
      timeout queue, task queues, priorities, boosting, the tick and the
      pending switch.  Calls by the active task, interrupts and the
      dispatcher are steps of one relation.
    - [Frame]: what the operations of [Kernel] leave alone for a task that
      waits for one of the objects below.
    - [Waits]: blocking on a queue through a task's auxiliary link, waking
      and timing out, shared by the lightweight objects.
    - [Veil]: kernels in which tasks that wait have the state READY, as the
      loop of [_lwmsgq_send] leaves them, and that the operations on queues
      of waiting tasks do the same there.
    - [Lwsem] (kernel/lwsem.c), [Lwmsgq] (kernel/lwmsgq.c), [Lwevent]
      (kernel/lwevent.c): lightweight semaphores, message queues and events.
      A task that is blocked within a call has a program counter.
    - [Mutex] (kernel/mutex.c): mutexes with their waiting protocols,
      priority inheritance and priority protection.

    File system:
    - [Mfsio] (mfs/source/generic/mfs_rw.c, mfs_data_sector.c): transfers
      of sectors with retries and read-back, and the two sector buffers,
      over an abstract block device.
    - [Fat] (mfs_fat.c, mfs_cluster.c): the FAT cache, entries of 12, 16
      and 32 bits, and cluster chains over [Mfsio].

    ** How the parts interact

    [Kernel] uses lists for the queues that [Queue] relates to linked
    structures: an enqueue appends, a dequeue takes the head, an unlink
    removes the element.  [Lwsem], [Lwmsgq], [Lwevent] and [Mutex] call
    [Kernel]'s blocking and waking operations; their states contain a
    [kernel], and [ACall] is a call of [Kernel] by another part of the program,
    an interrupt or a tick, so their invariants hold whatever these do in
    between.  [ACall] is limited to [Frame.quiet]: delays without a limit,
    changes of a priority or a policy by the program and the task queues are
    steps of [Kernel] only, proved there.  A call over another object counts as
    a correct use under the conditions of [can], in which every file says what
    it asks of the program: a task does not start a call before its last one
    has returned, an object is not created while it exists or tasks wait on it,
    and the buffers of messages lie in memory of the program.  A task that was
    switched away may go on whenever it runs, whatever has happened to the
    object in the meantime.  In [Lwmsgq] the boosts that only mutexes make are
    not applied to a sender that waits in the state READY: there the scheduler's
    invariant is broken ([lwmsgq_sender_waits_ready]), and [winv] says that it
    holds but for such tasks.
    [Lwtimer] works on the store of [Queue] itself, since its loops follow
    links that a timer function may change; the kernel's tick calls it.
    [Lwlog] is proved against [HeapLaws] only, for any allocator; the
    instance for [Lwmem] shows that blocks the pool gives out, and memory of
    the application outside the pool, keep their contents while the allocator
    works.  [Fat] calls [Mfsio], whose device is a type class ([Device], with
    its laws in [DeviceLaws]); a device that keeps sectors in a map is the
    concrete instance the examples use.

    Definitions have the names of the C functions.  A C function that returns
    a code and changes structures is a function from the state to the new
    state and the code; one that can be caught in an endless loop or in a
    wild access returns an option.

    ** What the theorems show

    - Queues: refinement of lists, exactness of [_queue_test], traversal, and
      the 16-bit wrap of the element count.
    - Pools: first fit, coalescing, round trip of allocation and freeing,
      the exact verdict of the consistency check, and the arithmetic overflow
      of very large requests.
    - Time: round trip of dates, agreement with the civil calendar, exact
      conversions, termination of the normalisation loops.
    - Timers: programs of timer operations and ticks refine a specification
      on lists; a timer is called exactly at the ticks at which it is due.
    - Logs: programs of log operations refine lists of entries; what was
      written is read back in order; a reader that has caught up with a full
      log gets nothing more.
    - Scheduler: an invariant of every reachable state (every task is in
      exactly one place, the ready queue pointer names the best non-empty
      queue), no call fails in a reachable state, order and times of waking,
      round robin, boosting, wake-up order of task queues.
    - Semaphores: every execution, creations and destructions included, is a
      history of a ledger of tokens ([ledger_step]) that agrees with the
      counts; no lost wake-up, order of waiters, time-outs, destruction.
    - Mutexes: exclusion in every reachable state, hand-over to the head of
      the queue, no lost wake-up, inheritance of priorities.
    - Message queues: refinement of bounded FIFOs, with senders and receivers
      that are woken and have to wait again; no lost wake-up of readers or
      senders, what deinitialisation does to tasks that wait.
    - Events: setting bits refines a specification of who is released and
      what stays set; waits that return with an automatic bit are counted
      against its sets, over creations and destructions; no lost wake-up.
    - File system: the cache and the entry encodings refine a plain map from
      clusters to links, flushes reach every copy of the table, chains are
      extended, released and counted exactly, and what device errors and full
      disks do instead.

    Some theorems state behaviour that differs from what the comments or the
    other code say; their own comments say so.

    ** Fuel

    Loops whose end depends on the data take fuel.  A traversal of a pool or
    of a queue gets one unit per element, a walk of the allocator behind
    [Heap] one per word of memory, the calendar loops one per month or year,
    the loops over timers the sizes of the tables of queues and timers, the
    cluster loops one per cluster; for each the theorem says that this is
    enough.  [MFS_Extend_chain] takes its fuel as an argument because the C
    loop itself does not end on a chain that runs into itself.

    ** Not modelled

    Register headers, assembly other than the dispatcher's steps, drivers and
    board support: their behaviour is that of the hardware.  Logging of
    kernel calls and user-mode calls, which the configuration turns off or
    which do not change results.  Creation and destruction of tasks.  The
    named objects (events, semaphores, the name table), messages and the
    timer task, which need task creation and the handles of the component
    framework.  The upper file system, the TCP/IP and USB stacks.

    ** Plan

    Partitions and the full log component as further clients of [Heap]; the
    named objects over [Kernel] and [Heap]; then directories and files over
    the cluster chains. *)

From stdpp Require Export base tactics option list gmap fin_maps.
From Stdlib Require Export ZArith Lia.

Open Scope Z_scope.

(** ** Scope and notations of the development *)

Declare Scope mqx_scope.
Delimit Scope mqx_scope with mqx.

(** ** Machine integers

    A [w]-bit unsigned C integer is a [Z]; every place where the C code can
    wrap writes the wrap out with [wrap w]. *)

Definition wrap (w z : Z) : Z := z mod 2 ^ w.

Abbreviation w8 := (wrap 8).
Abbreviation w16 := (wrap 16).
Abbreviation w32 := (wrap 32).

(** The value of a [w]-bit two's complement integer with bit pattern [z]. *)
Definition to_signed (w z : Z) : Z :=
  let u := wrap w z in if u <? 2 ^ (w - 1) then u else u - 2 ^ w.

Lemma wrap_small w z : 0 <= z < 2 ^ w -> wrap w z = z.
Proof. intros H. unfold wrap. by apply Z.mod_small. Qed.

Lemma wrap_range w z : 0 <= w -> 0 <= wrap w z < 2 ^ w.
Proof. intros H. unfold wrap. apply Z.mod_pos_bound. lia. Qed.

Lemma wrap_wrap w z : 0 <= w -> wrap w (wrap w z) = wrap w z.
Proof. intros H. apply wrap_small, wrap_range, H. Qed.

Lemma wrap_add_l w a b : wrap w (wrap w a + b) = wrap w (a + b).
Proof. unfold wrap. by rewrite Zplus_mod_idemp_l. Qed.

Lemma wrap_add_r w a b : wrap w (a + wrap w b) = wrap w (a + b).
Proof. unfold wrap. by rewrite Zplus_mod_idemp_r. Qed.

Lemma to_signed_small w z : 0 < w -> - 2 ^ (w - 1) <= z < 2 ^ (w - 1) -> to_signed w z = z.
Proof.
  intros Hw H. unfold to_signed, wrap.
  assert (2 ^ w = 2 * 2 ^ (w - 1)) as Hp by (rewrite <-Z.pow_succ_r by lia; f_equal; lia).
  destruct (Z.leb_spec 0 z).
  - rewrite Z.mod_small by lia. by rewrite (proj2 (Z.ltb_lt _ _)) by lia.
  - rewrite <-(Z_mod_plus_full z 1), Z.mod_small by lia.
    rewrite (proj2 (Z.ltb_ge _ _)) by lia. lia.
Qed.

Lemma to_signed_range w z : 0 < w -> - 2 ^ (w - 1) <= to_signed w z < 2 ^ (w - 1).
Proof.
  intros Hw. unfold to_signed. pose proof (wrap_range w z ltac:(lia)).
  assert (2 ^ w = 2 * 2 ^ (w - 1)) as Hp by (rewrite <-Z.pow_succ_r by lia; f_equal; lia).
  destruct (Z.ltb_spec (wrap w z) (2 ^ (w - 1))); lia.
Qed.

(** Rounding up to a multiple of a power of two, the way the C macros do it:
    [(v + (a - 1)) & ~(a - 1)]. *)
Lemma land_lnot_low v k :
  0 <= k -> Z.land v (Z.lnot (2 ^ k - 1)) = v - v mod 2 ^ k.
Proof.
  intros Hk.
  rewrite Z.sub_1_r, <- Z.ones_equiv, <- Z.ldiff_land, Z.ldiff_ones_r by lia.
  rewrite Z.shiftr_div_pow2, Z.shiftl_mul_pow2 by lia.
  pose proof (Z.div_mod v (2 ^ k)). nia.
Qed.

(** ** The state-and-fault monad

    C functions become computations that thread the part of memory they use.
    [None] is a fault: the C code dereferenced a pointer to memory that holds
    no object of the type it expects (undefined behaviour in C). *)

Definition M (S A : Type) : Type := S -> option (A * S).

#[export] Instance M_ret {S} : MRet (M S) := fun A a s => Some (a, s).
#[export] Instance M_bind {S} : MBind (M S) := fun A B k m s =>
  match m s with
  | Some (a, s') => k a s'
  | None => None
  end.

Definition fault {S A} : M S A := fun _ => None.
Definition gets {S A} (f : S -> A) : M S A := fun s => Some (f s, s).
Definition modify {S} (f : S -> S) : M S unit := fun s => Some (tt, f s).
Definition lift_opt {S A} (o : option A) : M S A :=
  fun s => match o with Some a => Some (a, s) | None => None end.

(** A computation on a component of the state, run on the whole state. *)
Definition zoom {S T A} (get : S -> T) (set : T -> S -> S) (m : M T A) : M S A :=
  fun s => match m (get s) with
           | Some (a, t) => Some (a, set t s)
           | None => None
           end.

Lemma zoom_run {S T A} {get : S -> T} {set : T -> S -> S} (m : M T A) s a t :
  m (get s) = Some (a, t) -> zoom get set m s = Some (a, set t s).
Proof. intros H. unfold zoom. by rewrite H. Qed.

(** Putting back what is there changes nothing. *)
Class ZoomLaw {S T} (get : S -> T) (set : T -> S -> S) := zoom_same : forall s, set (get s) s = s.

Lemma zoom_read {S T A} {get : S -> T} {set : T -> S -> S} `{!ZoomLaw get set} (m : M T A) s a :
  m (get s) = Some (a, get s) -> zoom get set m s = Some (a, s).
Proof. intros H. erewrite zoom_run by done. by rewrite zoom_same. Qed.

Lemma bind_run {S A B} (m : M S A) (k : A -> M S B) s a s' :
  m s = Some (a, s') -> (m ≫= k) s = k a s'.
Proof. intros H. unfold mbind, M_bind. by rewrite H. Qed.

Lemma bind_inv {S A B} (m : M S A) (k : A -> M S B) s r :
  (m ≫= k) s = Some r -> exists a s', m s = Some (a, s') /\ k a s' = Some r.
Proof.
  unfold mbind, M_bind. destruct (m s) as [[a s']|]; [eauto | done].
Qed.

Lemma ret_run {S A} (a : A) (s : S) : (mret a : M S A) s = Some (a, s).
Proof. done. Qed.

Lemma ret_inv {S A} (a b : A) (s s' : S) :
  (mret a : M S A) s = Some (b, s') -> a = b /\ s = s'.
Proof. unfold mret, M_ret. by intros [= -> ->]. Qed.

(** The monad laws, up to pointwise equality of computations. *)
Lemma bind_ret_l {S A B} (a : A) (k : A -> M S B) s : (mret a ≫= k) s = k a s.
Proof. done. Qed.

Lemma bind_assoc {S A B C} (m : M S A) (k : A -> M S B) (h : B -> M S C) s :
  ((m ≫= k) ≫= h) s = (m ≫= (fun a => k a ≫= h)) s.
Proof. unfold mbind, M_bind. by destruct (m s) as [[a s']|]. Qed.

(** [wp bad m s P]: [m] run from [s] ends in a state and a result with [P], or
    it faults and [bad] holds.  With [bad := False] it is total correctness. *)
Definition wp {S A} (bad : Prop) (m : M S A) (s : S) (P : A -> S -> Prop) : Prop :=
  match m s with Some (a, s') => P a s' | None => bad end.

Section wp.
Context {S : Type} (bad : Prop).

Lemma wp_ret {A} (a : A) (s : S) (P : A -> S -> Prop) : P a s -> wp bad (mret a) s P.
Proof. done. Qed.

Lemma wp_bind {A B} (m : M S A) (f : A -> M S B) s P :
  wp bad m s (fun a s' => wp bad (f a) s' P) -> wp bad (m ≫= f) s P.
Proof. unfold wp, mbind, M_bind. by destruct (m s) as [[a s']|]. Qed.

Lemma wp_run {A B} (m : M S A) (f : A -> M S B) s a s' P :
  m s = Some (a, s') -> wp bad (f a) s' P -> wp bad (m ≫= f) s P.
Proof. intros E H. apply wp_bind. unfold wp. by rewrite E. Qed.

Lemma wp_end {A} (m : M S A) s a s' (P : A -> S -> Prop) :
  m s = Some (a, s') -> P a s' -> wp bad m s P.
Proof. unfold wp. by intros ->. Qed.

Lemma wp_gets {A B} (g : S -> A) (f : A -> M S B) s P : wp bad (f (g s)) s P -> wp bad (gets g ≫= f) s P.
Proof. done. Qed.

Lemma wp_modify {B} (g : S -> S) (f : unit -> M S B) s P : wp bad (f tt) (g s) P -> wp bad (modify g ≫= f) s P.
Proof. done. Qed.

Lemma wp_mono {A} (m : M S A) s (P Q : A -> S -> Prop) :
  (forall a s', P a s' -> Q a s') -> wp bad m s P -> wp bad m s Q.
Proof. unfold wp. destruct (m s) as [[a s']|]; auto. Qed.

Lemma wp_total {A} (m : M S A) s P :
  wp bad m s P -> ~ bad -> exists a s', m s = Some (a, s') /\ P a s'.
Proof. unfold wp. destruct (m s) as [[a s']|]; [eauto|done]. Qed.
End wp.

(** ** Hint databases and tactics

    [mqx] holds the lemmas that run one primitive step of a computation and
    the closing facts about representation predicates. *)

Create HintDb mqx discriminated.
#[export] Hint Constants Opaque : mqx.

#[export] Hint Resolve wrap_small wrap_range : mqx.

(** Run the first computation of a bind with a lemma from the database. *)
Ltac mstep := erewrite bind_run; [| solve [eauto with mqx]].
Ltac msteps := repeat mstep.

(** Split a successful run into its parts. *)
Ltac minv :=
  repeat match goal with
  | H : (_ ≫= _) _ = Some _ |- _ =>
      let a := fresh "a" in let s := fresh "s" in let E := fresh "E" in
      apply bind_inv in H as (a & s & E & H)
  | H : mret _ _ = Some (_, _) |- _ => apply ret_inv in H as [? ?]; simplify_eq
  | H : Some _ = Some _ |- _ => simplify_eq
  end.

(** Reflect the boolean comparisons of a hypothesis or the goal. *)
Ltac zreflect :=
  repeat match goal with
  | H : (_ =? _) = true |- _ => apply Z.eqb_eq in H
  | H : (_ =? _) = false |- _ => apply Z.eqb_neq in H
  | H : (_ <? _) = true |- _ => apply Z.ltb_lt in H
  | H : (_ <? _) = false |- _ => apply Z.ltb_ge in H
  | H : (_ <=? _) = true |- _ => apply Z.leb_le in H
  | H : (_ <=? _) = false |- _ => apply Z.leb_gt in H
  | H : (_ >=? _) = true |- _ => apply Z.geb_le in H
  | H : (_ >=? _) = false |- _ => rewrite Z.geb_leb in H; apply Z.leb_gt in H
  | H : (_ >? _) = true |- _ => apply Z.gtb_lt in H
  | H : (_ >? _) = false |- _ => rewrite Z.gtb_ltb in H; apply Z.ltb_ge in H
  | H : (_ && _)%bool = true |- _ => apply andb_prop in H as [? ?]
  | H : (_ || _)%bool = false |- _ => apply orb_false_elim in H as [? ?]
  | H : negb _ = true |- _ => apply negb_true_iff in H
  | H : negb _ = false |- _ => apply negb_false_iff in H
  end.

(** Case analysis on the condition of the outermost [if] of the goal. *)
Ltac case_if :=
  match goal with
  | |- context [if ?b then _ else _] =>
      let E := fresh "Hif" in destruct b eqn:E; zreflect
  end.

(** Linear arithmetic with [/] and [mod] by constants. *)
Ltac zdm := Z.div_mod_to_equations; lia.

(** ** Generic lemmas on lists and on lengths as [Z] *)

Abbreviation zlen l := (Z.of_nat (length l)).

(** Linear arithmetic over lengths of appended lists. *)
Ltac zlia := rewrite ?length_app in *; simpl length in *; lia.

Lemma zlen_nonneg {A} (l : list A) : 0 <= zlen l.
Proof. lia. Qed.

(** The last element of [x :: l]. *)
Fixpoint last_from {A} (x : A) (l : list A) : A :=
  match l with
  | [] => x
  | y :: l' => last_from y l'
  end.

Lemma last_from_app {A} (x : A) l1 y l2 :
  last_from x (l1 ++ y :: l2) = last_from y l2.
Proof. revert x. induction l1 as [|z l1 IH]; intros x; simpl; auto. Qed.

Lemma last_from_elem {A} (x : A) l : last_from x l = x \/ last_from x l ∈ l.
Proof.
  revert x. induction l as [|y l IH]; intros x; simpl; [by left|].
  right. destruct (IH y) as [->|H]; set_solver.
Qed.

Lemma last_from_in {A} (x : A) l : last_from x l ∈ x :: l.
Proof. destruct (last_from_elem x l) as [->|H]; set_solver. Qed.

Lemma NoDup_head_app {A} (q : A) l1 l2 :
  NoDup (q :: l1 ++ l2) <->
  q ∉ l1 /\ q ∉ l2 /\ NoDup l1 /\ NoDup l2 /\ (forall x, x ∈ l1 -> x ∈ l2 -> False).
Proof.
  rewrite NoDup_cons, NoDup_app, elem_of_app. split.
  - intros (H1 & H2 & H3 & H4). split_and!; [tauto|tauto|done..|eauto].
  - intros (H1 & H2 & H3 & H4 & H5). split_and!; [tauto|done|by intros x ? ?; eapply H5|done].
Qed.

Lemma filter_ext_in {A} (P Q : A -> Prop) `{!forall x, Decision (P x), !forall x, Decision (Q x)} (l : list A) :
  (forall x, x ∈ l -> P x <-> Q x) -> filter P l = filter Q l.
Proof.
  induction l as [|x l IH]; intros He; [done|]. rewrite !filter_cons.
  assert (filter P l = filter Q l) as -> by (apply IH; intros y Hy; apply He; by right).
  destruct (He x ltac:(by left)). repeat case_decide; tauto.
Qed.
