(* ===== verification/Queue.v ===== *)
(** * Queues: [kernel/queue.c] and the queue macros of [include/mqx_prv.h]

    The store is the part of memory that queue code touches: the [NEXT] and
    [PREV] fields of every queue header and element, and the [SIZE] and [MAX]
    fields of every header, each a finite map from the object's address.  The
    code runs in the state-and-fault monad over it.  [queue_repr] relates a
    header to the list of its elements, in order; each operation is proved to
    implement the corresponding function on that list, and to leave every
    queue that shares no node with the operands as it was.

    Interrupts are masked during each body ([_int_disable] ...
    [_int_enable]), so each operation is one atomic step of the model. *)

From S2P Require Import Prelude.

Module Queue.

(** ** The store *)

Record store := Store {
  NEXT : gmap Z Z;   (* next element, of a header or an element *)
  PREV : gmap Z Z;   (* previous element *)
  SIZE : gmap Z Z;   (* uint16_t, of a header *)
  MAX  : gmap Z Z    (* uint16_t, of a header *)
}.

Definition NULL : Z := 0.
Definition MQX_OK : Z := 0.
Definition MQX_CORRUPT_QUEUE : Z := 29.   (* MQX_ERROR_BASE | 0x1D *)

Definition get_NEXT (p : Z) : M store Z := fun s =>
  match NEXT s !! p with Some v => Some (v, s) | None => None end.
Definition get_PREV (p : Z) : M store Z := fun s =>
  match PREV s !! p with Some v => Some (v, s) | None => None end.
Definition get_SIZE (p : Z) : M store Z := fun s =>
  match SIZE s !! p with Some v => Some (v, s) | None => None end.
Definition get_MAX (p : Z) : M store Z := fun s =>
  match MAX s !! p with Some v => Some (v, s) | None => None end.

Definition set_NEXT (p v : Z) : M store unit := fun s =>
  match NEXT s !! p with
  | Some _ => Some (tt, Store (<[p:=v]> (NEXT s)) (PREV s) (SIZE s) (MAX s))
  | None => None
  end.
Definition set_PREV (p v : Z) : M store unit := fun s =>
  match PREV s !! p with
  | Some _ => Some (tt, Store (NEXT s) (<[p:=v]> (PREV s)) (SIZE s) (MAX s))
  | None => None
  end.
Definition set_SIZE (p v : Z) : M store unit := fun s =>
  match SIZE s !! p with
  | Some _ => Some (tt, Store (NEXT s) (PREV s) (<[p:=v]> (SIZE s)) (MAX s))
  | None => None
  end.
Definition set_MAX (p v : Z) : M store unit := fun s =>
  match MAX s !! p with
  | Some _ => Some (tt, Store (NEXT s) (PREV s) (SIZE s) (<[p:=v]> (MAX s)))
  | None => None
  end.

(** ** The macros of [mqx_prv.h] *)

Definition _QUEUE_INIT (queue max : Z) : M store unit :=
  set_NEXT queue queue;;
  set_PREV queue queue;;
  set_SIZE queue 0;;
  set_MAX queue (w16 max).

Definition _QUEUE_GET_SIZE (queue : Z) : M store Z := get_SIZE queue.

Definition _QUEUE_IS_EMPTY (queue : Z) : M store bool :=
  size ← get_SIZE queue; mret (size =? 0).

Definition _QUEUE_LINK (queue_member element : Z) : M store unit :=
  nxt ← get_NEXT queue_member;
  set_NEXT element nxt;;
  set_NEXT queue_member element;;
  set_PREV element queue_member;;
  set_PREV nxt element.

Definition _QUEUE_INSERT (queue queue_member element : Z) : M store unit :=
  _QUEUE_LINK queue_member element;;
  size ← get_SIZE queue;
  set_SIZE queue (w16 (size + 1)).

Definition _QUEUE_ENQUEUE (queue element : Z) : M store unit :=
  prev ← get_PREV queue;
  _QUEUE_INSERT queue prev element.

Definition _QUEUE_UNLINK (queue_member : Z) : M store unit :=
  prev_ptr ← get_PREV queue_member;
  next_ptr ← get_NEXT queue_member;
  set_NEXT prev_ptr next_ptr;;
  set_PREV next_ptr prev_ptr.

Definition _QUEUE_REMOVE (queue element : Z) : M store unit :=
  _QUEUE_UNLINK element;;
  size ← get_SIZE queue;
  set_SIZE queue (w16 (size - 1)).

Definition _QUEUE_DEQUEUE (queue : Z) : M store Z :=
  element ← get_NEXT queue;
  _QUEUE_REMOVE queue element;;
  mret element.

(** ** The functions of [queue.c] *)

Definition _queue_init (q_ptr size : Z) : M store unit := _QUEUE_INIT q_ptr size.

(** The guard shared by [_queue_enqueue] and [_queue_insert]:
    [(q_ptr->MAX != 0) && (q_ptr->SIZE >= q_ptr->MAX)]. *)
Definition queue_full (q_ptr : Z) : M store bool :=
  max ← get_MAX q_ptr;
  size ← get_SIZE q_ptr;
  mret (negb (max =? 0) && (max <=? size)).

Definition _queue_enqueue (q_ptr e_ptr : Z) : M store bool :=
  full ← queue_full q_ptr;
  if (full : bool) then mret false else
  _QUEUE_ENQUEUE q_ptr e_ptr;;
  mret true.

Definition _queue_dequeue (q_ptr : Z) : M store Z :=
  size ← get_SIZE q_ptr;
  if size =? 0 then mret NULL else
  _QUEUE_DEQUEUE q_ptr.

Definition _queue_head (q_ptr : Z) : M store Z :=
  size ← get_SIZE q_ptr;
  if size =? 0 then mret NULL else
  get_NEXT q_ptr.

Definition _queue_insert (q_ptr qe_ptr e_ptr : Z) : M store bool :=
  let qe_ptr := if qe_ptr =? NULL then q_ptr else qe_ptr in
  full ← queue_full q_ptr;
  if (full : bool) then mret false else
  _QUEUE_INSERT q_ptr qe_ptr e_ptr;;
  mret true.

Definition _queue_next (q_ptr e_ptr : Z) : M store Z :=
  if e_ptr =? NULL then mret NULL else
  next_ptr ← get_NEXT e_ptr;
  mret (if next_ptr =? q_ptr then NULL else next_ptr).

(** The [while (--size)] loop of [_queue_test], [n] being the value of [SIZE]
    on entry.  The result is [inl e] when the loop returns
    [MQX_CORRUPT_QUEUE] with [*element_in_error_ptr = e], else the final
    values of [element_ptr] and [prev_ptr]. *)
Fixpoint queue_test_loop (q_ptr : Z) (n : nat) (element_ptr prev_ptr : Z)
  : M store (Z + Z * Z) :=
  match n with
  | O => mret (inr (element_ptr, prev_ptr))
  | S n =>
      if element_ptr =? q_ptr then mret (inl element_ptr) else
      prev ← get_PREV element_ptr;
      if negb (prev =? prev_ptr) then mret (inl element_ptr) else
      next ← get_NEXT element_ptr;
      queue_test_loop q_ptr n next element_ptr
  end.

(** The second component of the result is what is stored through
    [element_in_error_ptr], which is written only when an error is found. *)
Definition _queue_test (q_ptr : Z) : M store (Z * option Z) :=
  size ← _QUEUE_GET_SIZE q_ptr;
  element_ptr ← get_NEXT q_ptr;
  r ← queue_test_loop q_ptr (Z.to_nat size) element_ptr q_ptr;
  match r with
  | inl e => mret (MQX_CORRUPT_QUEUE, Some e)
  | inr (element_ptr, prev_ptr) =>
      if negb (element_ptr =? q_ptr)
      then mret (MQX_CORRUPT_QUEUE, Some element_ptr) else
      prev ← get_PREV q_ptr;
      if negb (prev =? prev_ptr)
      then mret (MQX_CORRUPT_QUEUE, Some element_ptr) else
      mret (MQX_OK, None)
  end.

Definition _queue_unlink (q_ptr e_ptr : Z) : M store unit :=
  _QUEUE_REMOVE q_ptr e_ptr.

Definition _queue_get_size (q_ptr : Z) : M store Z := _QUEUE_GET_SIZE q_ptr.

Definition _queue_is_empty (q_ptr : Z) : M store bool := _QUEUE_IS_EMPTY q_ptr.

(** ** Representation of a queue as a list *)

(** [a]'s [NEXT] is [b] and [b]'s [PREV] is [a]. *)
Definition edge (s : store) (a b : Z) : Prop :=
  NEXT s !! a = Some b /\ PREV s !! b = Some a.

(** The nodes of [l] are linked in order between [p] and [n]. *)
Fixpoint lseg (s : store) (p : Z) (l : list Z) (n : Z) : Prop :=
  match l with
  | [] => edge s p n
  | x :: l' => edge s p x /\ lseg s x l' n
  end.

(** [q] heads a well-formed queue holding [l], bounded by [max] (0: no bound). *)
Record queue_repr (s : store) (q : Z) (l : list Z) (max : Z) : Prop := {
  repr_lseg : lseg s q l q;
  repr_nodup : NoDup (q :: l);
  repr_null : NULL ∉ q :: l;
  repr_size : SIZE s !! q = Some (zlen l);
  repr_max : MAX s !! q = Some max;
  repr_size_range : zlen l < 65536;
  repr_max_range : 0 <= max < 65536
}.

(** [p] is the address of a queue element that is in no queue of interest. *)
Definition has_links (s : store) (p : Z) : Prop :=
  is_Some (NEXT s !! p) /\ is_Some (PREV s !! p).

(** [s] and [s'] agree outside the nodes [X]. *)
Record same_outside (X : list Z) (s s' : store) : Prop := {
  so_next : forall p, p ∉ X -> NEXT s' !! p = NEXT s !! p;
  so_prev : forall p, p ∉ X -> PREV s' !! p = PREV s !! p;
  so_size : forall p, p ∉ X -> SIZE s' !! p = SIZE s !! p;
  so_max : forall p, MAX s' !! p = MAX s !! p
}.

(** ** The abstract operations *)

Definition afull (l : list Z) (max : Z) : bool := negb (max =? 0) && (max <=? zlen l).

Definition aenqueue (e : Z) (l : list Z) (max : Z) : bool * list Z :=
  if afull l max then (false, l) else (true, l ++ [e]).

Definition adequeue (l : list Z) : Z * list Z :=
  match l with [] => (NULL, []) | x :: l' => (x, l') end.

(** Insert [e] after the first occurrence of [x], at the front for [NULL]. *)
Fixpoint insert_after (x e : Z) (l : list Z) : list Z :=
  match l with
  | [] => []
  | y :: l' => if y =? x then y :: e :: l' else y :: insert_after x e l'
  end.

Definition ainsert (qe e : Z) (l : list Z) (max : Z) : bool * list Z :=
  if afull l max then (false, l)
  else (true, if qe =? NULL then e :: l else insert_after qe e l).

Definition aremove (e : Z) (l : list Z) : list Z := filter (fun x => x <> e) l.

(** ** One-step rules of the store primitives *)

Lemma get_NEXT_run s p v : NEXT s !! p = Some v -> get_NEXT p s = Some (v, s).
Proof. intros H. unfold get_NEXT. by rewrite H. Qed.
Lemma get_PREV_run s p v : PREV s !! p = Some v -> get_PREV p s = Some (v, s).
Proof. intros H. unfold get_PREV. by rewrite H. Qed.
Lemma get_SIZE_run s p v : SIZE s !! p = Some v -> get_SIZE p s = Some (v, s).
Proof. intros H. unfold get_SIZE. by rewrite H. Qed.
Lemma get_MAX_run s p v : MAX s !! p = Some v -> get_MAX p s = Some (v, s).
Proof. intros H. unfold get_MAX. by rewrite H. Qed.
Lemma set_NEXT_run s p v : is_Some (NEXT s !! p) ->
  set_NEXT p v s = Some (tt, Store (<[p:=v]> (NEXT s)) (PREV s) (SIZE s) (MAX s)).
Proof. intros [w H]. unfold set_NEXT. by rewrite H. Qed.
Lemma set_PREV_run s p v : is_Some (PREV s !! p) ->
  set_PREV p v s = Some (tt, Store (NEXT s) (<[p:=v]> (PREV s)) (SIZE s) (MAX s)).
Proof. intros [w H]. unfold set_PREV. by rewrite H. Qed.
Lemma set_SIZE_run s p v : is_Some (SIZE s !! p) ->
  set_SIZE p v s = Some (tt, Store (NEXT s) (PREV s) (<[p:=v]> (SIZE s)) (MAX s)).
Proof. intros [w H]. unfold set_SIZE. by rewrite H. Qed.
Lemma set_MAX_run s p v : is_Some (MAX s !! p) ->
  set_MAX p v s = Some (tt, Store (NEXT s) (PREV s) (SIZE s) (<[p:=v]> (MAX s))).
Proof. intros [w H]. unfold set_MAX. by rewrite H. Qed.

#[export] Hint Resolve get_NEXT_run get_PREV_run get_SIZE_run get_MAX_run
  set_NEXT_run set_PREV_run set_SIZE_run set_MAX_run : mqx.

(** Run straight-line store code, every lookup being determined by the
    hypotheses. *)
Ltac qrun :=
  unfold get_NEXT, get_PREV, get_SIZE, get_MAX, set_NEXT, set_PREV, set_SIZE,
    set_MAX, mbind, M_bind, mret, M_ret; simpl;
  repeat (progress (simplify_map_eq; simpl)); try done.

(** A lookup in a map after insertions: decide the keys. *)
Ltac lookups :=
  repeat (rewrite lookup_insert; case_decide; subst); try done; eauto;
  try (exfalso; set_solver).

(** ** Segments *)

Lemma edge_next s a b : edge s a b -> NEXT s !! a = Some b.
Proof. by intros [? ?]. Qed.
Lemma edge_prev s a b : edge s a b -> PREV s !! b = Some a.
Proof. by intros [? ?]. Qed.

Lemma lseg_cons_app s p l1 x l2 n :
  lseg s p (l1 ++ x :: l2) n <-> lseg s p l1 x /\ lseg s x l2 n.
Proof.
  revert p. induction l1 as [|y l1 IH]; intros p; simpl; [done|].
  rewrite IH. tauto.
Qed.

Lemma lseg_first s p l n : lseg s p l n -> edge s p (hd n l).
Proof. destruct l as [|x l]; simpl; tauto. Qed.

Lemma lseg_last s p l n : lseg s p l n -> edge s (last_from p l) n.
Proof. revert p. induction l as [|x l IH]; intros p; simpl; [done|]. intros [_ H]; auto. Qed.

(** A segment only depends on the [NEXT]s of its sources and the [PREV]s of
    its targets. *)
Lemma lseg_frame s s' p l n :
  (forall a, a ∈ p :: l -> NEXT s' !! a = NEXT s !! a) ->
  (forall b, b ∈ l ++ [n] -> PREV s' !! b = PREV s !! b) ->
  lseg s p l n -> lseg s' p l n.
Proof.
  revert p. induction l as [|x l IH]; intros p Hn Hp; simpl.
  - intros [H1 H2]. split; [rewrite Hn by set_solver | rewrite Hp by set_solver]; done.
  - intros [[H1 H2] H3]. split.
    + split; [rewrite Hn by set_solver | rewrite Hp by set_solver]; done.
    + apply IH; [intros a Ha; apply Hn; set_solver | intros b Hb; apply Hp; set_solver | done].
Qed.

Lemma lseg_links s p l n a : lseg s p l n -> a ∈ l -> has_links s a.
Proof.
  revert p. induction l as [|x l IH]; intros p; simpl; [set_solver|].
  intros [[H1 H2] H3] Ha. apply elem_of_cons in Ha as [->|Ha]; [|eauto].
  split; [|eauto]. destruct (lseg_first _ _ _ _ H3); eauto.
Qed.

(** The nodes of a chain that does not revisit its header are distinct: two
    predecessors of a repeated node would have to be equal. *)
Lemma lseg_nodup s q l n : lseg s q l n -> q ∉ l -> NoDup l.
Proof.
  revert n. induction l as [|x l IH] using rev_ind; intros n Hs Hq; [constructor|].
  apply lseg_cons_app in Hs as [Hs _].
  assert (NoDup l) as Hl by (eapply IH; [done | set_solver]).
  apply NoDup_app. split_and!; [done | | apply NoDup_singleton].
  intros z Hz Hzx. apply list_elem_of_singleton in Hzx as ->.
  apply list_elem_of_split in Hz as (a & b & ->).
  apply lseg_cons_app in Hs as [Ha Hb].
  apply lseg_last, edge_prev in Ha, Hb. rewrite Ha in Hb. simplify_eq.
  pose proof (last_from_in x b) as Hin. rewrite <-Hb in Hin.
  destruct (last_from_elem q a) as [He|He]; [rewrite He in Hin; set_solver|].
  apply NoDup_app in Hl as (_ & Hd & _). by apply (Hd (last_from q a)).
Qed.

Lemma lseg_app s p l1 l2 n :
  lseg s p (l1 ++ l2) n -> lseg s p l1 (hd n l2) /\ lseg s (last_from p l1) l2 n.
Proof.
  revert p. induction l1 as [|x l1 IH]; intros p; simpl.
  - intros H. split; [by apply lseg_first | done].
  - intros [He H]. apply IH in H as [? ?]. done.
Qed.

(** Redirect the last edge of a segment to [n']. *)
Lemma lseg_retarget s s' p l n n' :
  lseg s p l n -> NoDup (p :: l) -> edge s' (last_from p l) n' ->
  (forall a, a ∈ p :: l -> a <> last_from p l -> NEXT s' !! a = NEXT s !! a) ->
  (forall b, b ∈ l -> PREV s' !! b = PREV s !! b) ->
  lseg s' p l n'.
Proof.
  revert p. induction l as [|x l IH]; intros p Hs Hnd He Hn Hp; simpl in *; [done|].
  destruct Hs as [[H1 H2] Hs]. apply NoDup_cons in Hnd as [Hp' Hnd]. split.
  - split; [|rewrite Hp by set_solver; done].
    rewrite Hn; [done|set_solver|]. intros ->. apply Hp', last_from_in.
  - apply IH; [done..| |]; intros a Ha; [intros; apply Hn | apply Hp]; set_solver.
Qed.

(** Redirect the first edge of a segment to start at [p']. *)
Lemma lseg_resource s s' p p' l n :
  lseg s p l n -> edge s' p' (hd n l) ->
  (forall a, a ∈ l -> NEXT s' !! a = NEXT s !! a) ->
  (forall b, b ∈ tail (l ++ [n]) -> PREV s' !! b = PREV s !! b) ->
  lseg s' p' l n.
Proof.
  destruct l as [|x l]; intros Hs He Hn Hp; simpl in *; [done|].
  destruct Hs as [_ Hs]. split; [done|]. by apply (lseg_frame s).
Qed.

(** ** [_QUEUE_LINK] and [_QUEUE_UNLINK] on segments *)

(** Only the links of the nodes [X] may differ between [s] and [s']. *)
Definition links_outside (X : list Z) (s s' : store) : Prop :=
  (forall p, p ∉ X -> NEXT s' !! p = NEXT s !! p) /\
  (forall p, p ∉ X -> PREV s' !! p = PREV s !! p) /\
  SIZE s' = SIZE s /\ MAX s' = MAX s.

Lemma QUEUE_LINK_run s p e n :
  edge s p n -> has_links s e -> p <> e -> n <> e ->
  _QUEUE_LINK p e s =
  Some (tt, Store (<[p:=e]> (<[e:=n]> (NEXT s))) (<[n:=e]> (<[e:=p]> (PREV s)))
              (SIZE s) (MAX s)).
Proof.
  intros [Hn Hp] [[e1 He1] [e2 He2]] Hpe Hne. unfold _QUEUE_LINK. qrun.
Qed.

Lemma QUEUE_LINK_spec s q l1 l2 e :
  lseg s q (l1 ++ l2) q -> NoDup (q :: l1 ++ l2) -> has_links s e -> e ∉ q :: l1 ++ l2 ->
  exists s', _QUEUE_LINK (last_from q l1) e s = Some (tt, s') /\
    lseg s' q (l1 ++ e :: l2) q /\ links_outside (q :: e :: l1 ++ l2) s s'.
Proof.
  intros Hs Hnd He Hnin. apply lseg_app in Hs as [H1 H2].
  apply NoDup_head_app in Hnd as (Hq1 & Hq2 & Hnd1 & Hnd2 & Hd).
  pose proof (lseg_first _ _ _ _ H2) as Hpn.
  pose proof (last_from_in q l1) as Hp.
  assert (hd q l2 ∈ q :: l2) as Hn by (destruct l2; set_solver).
  assert (hd q l2 ∉ l1) as Hn1 by (destruct l2; set_solver).
  assert (last_from q l1 ∉ l2) as Hp2.
  { intros Hin. apply elem_of_cons in Hp as [Hp|Hp]; [by rewrite Hp in Hin | by eapply Hd]. }
  assert (hd q l2 ∉ tail (l2 ++ [q])) as Hn2.
  { destruct l2 as [|x l2]; simpl; [set_solver|]. apply NoDup_cons in Hnd2. set_solver. }
  remember (hd q l2) as n eqn:En. eexists.
  split; [apply QUEUE_LINK_run; [done..|set_solver|set_solver]|].
  split; [rewrite lseg_cons_app; split|].
  - apply (lseg_retarget s _ _ _ n); [done| by apply NoDup_cons| | |].
    + split; simpl; lookups.
    + intros a Ha Hap. simpl. lookups.
    + intros b Hb. simpl. lookups.
  - apply (lseg_resource s _ (last_from q l1)); [done| rewrite <-En | |].
    + split; simpl; lookups.
    + intros a Ha. simpl. lookups.
    + intros b Hb. simpl. rewrite !lookup_insert_ne; [done| |].
      * intros <-. apply Hnin. destruct l2; set_solver.
      * intros <-. done.
  - split_and!; simpl; intros; lookups.
Qed.

Lemma QUEUE_UNLINK_spec s q l1 e l2 :
  lseg s q (l1 ++ e :: l2) q -> NoDup (q :: l1 ++ e :: l2) ->
  exists s', _QUEUE_UNLINK e s = Some (tt, s') /\
    lseg s' q (l1 ++ l2) q /\ links_outside (q :: l1 ++ l2) s s'.
Proof.
  intros Hs Hnd. apply lseg_cons_app in Hs as [H1 H2].
  apply NoDup_head_app in Hnd as (Hq1 & Hq2 & Hnd1 & Hnd2 & Hd).
  apply NoDup_cons in Hnd2 as [He2 Hnd2].
  pose proof (lseg_first _ _ _ _ H2) as [He Hn'].
  pose proof (lseg_last _ _ _ _ H1) as [Hn Hp'].
  pose proof (last_from_in q l1) as Hp.
  assert (hd q l2 ∈ q :: l2) as Hh by (destruct l2; set_solver).
  assert (hd q l2 ∉ l1) as Hh1 by (destruct l2; set_solver).
  assert (last_from q l1 ∉ l2) as Hp2.
  { intros Hin. apply elem_of_cons in Hp as [Hp|Hp]; [rewrite Hp in Hin|eapply Hd]; set_solver. }
  assert (hd q l2 ∉ tail (l2 ++ [q])) as Hh2.
  { destruct l2 as [|x l2]; simpl; [set_solver|]. apply NoDup_cons in Hnd2. set_solver. }
  remember (hd q l2) as n eqn:En. remember (last_from q l1) as p eqn:Ep.
  exists (Store (<[p:=n]> (NEXT s)) (<[n:=p]> (PREV s)) (SIZE s) (MAX s)).
  split; [unfold _QUEUE_UNLINK; qrun|]. split.
  - destruct l2 as [|x l2]; [rewrite app_nil_r|].
    + apply (lseg_retarget s _ _ _ e); simpl in *; subst n; [done|by apply NoDup_cons| | |].
      * split; simpl; rewrite <-Ep; lookups.
      * intros a Ha Hap. simpl. rewrite <-Ep in Hap. lookups.
      * intros b Hb. simpl. lookups.
    + simpl in *. subst n. destruct H2 as [_ H2]. rewrite lseg_cons_app. split.
      * apply (lseg_retarget s _ _ _ e); [done|by apply NoDup_cons| | |].
        -- split; simpl; rewrite <-Ep; lookups.
        -- intros a Ha Hap. simpl. rewrite <-Ep in Hap. lookups.
        -- intros b Hb. simpl. lookups.
      * apply (lseg_frame s); [| |done]; intros a Ha; simpl; lookups.
  - split_and!; simpl; intros; lookups.
Qed.

(** ** The macros on represented queues *)

Lemma links_outside_same X s s' q v :
  links_outside (q :: X) s s' ->
  same_outside (q :: X) s (Store (NEXT s') (PREV s') (<[q:=v]> (SIZE s')) (MAX s')).
Proof.
  intros (H1 & H2 & H3 & H4). split; simpl; [done|done| |by rewrite H4].
  intros p Hp. rewrite H3. rewrite lookup_insert_ne; [done|set_solver].
Qed.

Lemma QUEUE_INSERT_spec s q l1 l2 e max :
  queue_repr s q (l1 ++ l2) max -> has_links s e -> e ∉ NULL :: q :: l1 ++ l2 ->
  zlen (l1 ++ l2) + 1 < 65536 ->
  exists s', _QUEUE_INSERT q (last_from q l1) e s = Some (tt, s') /\
    queue_repr s' q (l1 ++ e :: l2) max /\ same_outside (q :: e :: l1 ++ l2) s s'.
Proof.
  intros [Hs Hnd Hnull Hsz Hmax Hr Hmr] He Hnin Hlen.
  destruct (QUEUE_LINK_spec s q l1 l2 e) as (s1 & Hrun & Hs1 & Hout); [done..|set_solver|].
  pose proof Hout as (_ & _ & HS & HM).
  eexists. split; [|split; [split|by apply links_outside_same]].
  - unfold _QUEUE_INSERT. rewrite (bind_run _ _ _ _ _ Hrun).
    rewrite <-HS in Hsz. mstep. apply set_SIZE_run. eauto.
  - apply (lseg_frame s1); done.
  - apply NoDup_head_app in Hnd as (? & ? & ? & ? & Hd). apply NoDup_head_app.
    rewrite NoDup_cons. set_solver.
  - set_solver.
  - simpl. rewrite lookup_insert_eq. f_equal.
    rewrite wrap_small; zlia.
  - simpl. by rewrite HM.
  - zlia.
  - done.
Qed.

Lemma QUEUE_REMOVE_spec s q l1 e l2 max :
  queue_repr s q (l1 ++ e :: l2) max ->
  exists s', _QUEUE_REMOVE q e s = Some (tt, s') /\
    queue_repr s' q (l1 ++ l2) max /\ same_outside (q :: l1 ++ l2) s s' /\
    has_links s' e.
Proof.
  intros [Hs Hnd Hnull Hsz Hmax Hr Hmr].
  destruct (QUEUE_UNLINK_spec s q l1 e l2) as (s1 & Hrun & Hs1 & Hout); [done..|].
  pose proof Hout as (HN & HP & HS & HM).
  assert (e ∉ q :: l1 ++ l2) as He.
  { apply NoDup_head_app in Hnd as (? & ? & ? & Hnd & Hd). apply NoDup_cons in Hnd. set_solver. }
  eexists. split; [|split_and!; [split|by apply links_outside_same|]].
  - unfold _QUEUE_REMOVE. rewrite (bind_run _ _ _ _ _ Hrun).
    rewrite <-HS in Hsz. mstep. apply set_SIZE_run. eauto.
  - apply (lseg_frame s1); done.
  - apply NoDup_head_app in Hnd as (? & ? & ? & Hnd & Hd). apply NoDup_cons in Hnd.
    apply NoDup_head_app. set_solver.
  - set_solver.
  - simpl. rewrite lookup_insert_eq. f_equal.
    rewrite wrap_small; zlia.
  - simpl. by rewrite HM.
  - zlia.
  - done.
  - assert (has_links s e) as [? ?] by (eapply lseg_links; [done|set_solver]).
    split; simpl; [rewrite HN by done | rewrite HP by done]; done.
Qed.

(** A queue none of whose nodes was touched is unchanged. *)
Lemma repr_frame X s s' q l max :
  same_outside X s s' -> (forall x, x ∈ q :: l -> x ∉ X) ->
  queue_repr s q l max -> queue_repr s' q l max.
Proof.
  intros [HN HP HS HM] HX [Hs Hnd Hnull Hsz Hmax Hr Hmr]. split; try done.
  - apply (lseg_frame s); [| |done]; intros a Ha; [apply HN|apply HP]; apply HX; set_solver.
  - rewrite HS by (apply HX; set_solver). done.
  - by rewrite HM.
Qed.

Lemma queue_full_run s q l max :
  queue_repr s q l max -> queue_full q s = Some (afull l max, s).
Proof. intros []. unfold queue_full. msteps. done. Qed.

Lemma afull_false l max : 0 <= max < 65536 -> afull l max = false ->
  (max = 0 -> zlen l < 65535) -> zlen l + 1 < 65536.
Proof. unfold afull. intros Hm Hf H0. destruct (Z.eqb_spec max 0); simpl in Hf; zreflect; lia. Qed.

#[export] Hint Resolve queue_full_run repr_size repr_max : mqx.

Lemma repr_next s q l max : queue_repr s q l max -> NEXT s !! q = Some (hd q l).
Proof. intros H. eapply edge_next, lseg_first, repr_lseg, H. Qed.

Lemma repr_prev s q l max : queue_repr s q l max -> PREV s !! q = Some (last_from q l).
Proof. intros H. eapply edge_prev, lseg_last, repr_lseg, H. Qed.

#[export] Hint Resolve repr_next repr_prev : mqx.

Lemma same_outside_refl X s : same_outside X s s.
Proof. by split. Qed.

Lemma same_outside_trans X s1 s2 s3 :
  same_outside X s1 s2 -> same_outside X s2 s3 -> same_outside X s1 s3.
Proof.
  intros [A1 A2 A3 A4] [B1 B2 B3 B4].
  split; intros; [rewrite B1, A1|rewrite B2, A2|rewrite B3, A3|rewrite B4, A4]; done.
Qed.

Lemma same_outside_sub X Y s s' : X ⊆ Y -> same_outside X s s' -> same_outside Y s s'.
Proof. intros HXY [H1 H2 H3 H4]. split; auto. Qed.

Lemma QUEUE_ENQUEUE_spec s q l e max :
  queue_repr s q l max -> has_links s e -> e ∉ NULL :: q :: l -> zlen l + 1 < 65536 ->
  exists s', _QUEUE_ENQUEUE q e s = Some (tt, s') /\
    queue_repr s' q (l ++ [e]) max /\ same_outside (q :: e :: l) s s'.
Proof.
  intros Hr He Hnin Hlen.
  destruct (QUEUE_INSERT_spec s q l [] e max) as (s' & H1 & H2 & H3);
    rewrite ?app_nil_r; [done..|].
  rewrite app_nil_r in H3. exists s'. split_and!; [|done..].
  unfold _QUEUE_ENQUEUE. mstep. done.
Qed.

Lemma QUEUE_DEQUEUE_spec s q x l max :
  queue_repr s q (x :: l) max ->
  exists s', _QUEUE_DEQUEUE q s = Some (x, s') /\
    queue_repr s' q l max /\ same_outside (q :: l) s s' /\ has_links s' x.
Proof.
  intros Hr. destruct (QUEUE_REMOVE_spec s q [] x l max Hr) as (s' & H1 & H2).
  exists s'. split; [|done]. unfold _QUEUE_DEQUEUE.
  erewrite bind_run by (apply get_NEXT_run; eauto using repr_next). simpl.
  by rewrite (bind_run _ _ _ _ _ H1).
Qed.

(** The list functions in terms of a split at the element. *)
Lemma insert_after_split l1 x l2 e :
  x ∉ l1 -> insert_after x e (l1 ++ x :: l2) = l1 ++ x :: e :: l2.
Proof.
  induction l1 as [|y l1 IH]; simpl; intros Hx.
  - by rewrite Z.eqb_refl.
  - destruct (Z.eqb_spec y x) as [->|]; [set_solver|]. rewrite IH; set_solver.
Qed.

Lemma aremove_absent e l : e ∉ l -> aremove e l = l.
Proof.
  unfold aremove. induction l as [|y l IH]; intros He; [done|].
  rewrite filter_cons_True by set_solver. rewrite IH; set_solver.
Qed.

Lemma aremove_split l1 e l2 : e ∉ l1 -> e ∉ l2 -> aremove e (l1 ++ e :: l2) = l1 ++ l2.
Proof.
  intros H1 H2. unfold aremove. rewrite filter_app, filter_cons_False by naive_solver.
  fold (aremove e l1). fold (aremove e l2). by rewrite !aremove_absent.
Qed.

(** ** No operation creates or destroys a node *)

Definition stable (s s' : store) : Prop :=
  dom (NEXT s') = dom (NEXT s) /\ dom (PREV s') = dom (PREV s).

Definition keeps_nodes {A} (m : M store A) : Prop :=
  forall s a s', m s = Some (a, s') -> stable s s'.

Lemma kn_ret {A} (a : A) : keeps_nodes (mret a).
Proof. intros s b s' H. unfold mret, M_ret in H. simplify_eq. done. Qed.

Lemma kn_bind {A B} (m : M store A) (k : A -> M store B) :
  keeps_nodes m -> (forall a, keeps_nodes (k a)) -> keeps_nodes (m ≫= k).
Proof.
  intros Hm Hk s b s' H. apply bind_inv in H as (a & s1 & H1 & H2).
  destruct (Hm _ _ _ H1), (Hk _ _ _ _ H2). split; congruence.
Qed.

Lemma kn_if {A} (b : bool) (m1 m2 : M store A) :
  keeps_nodes m1 -> keeps_nodes m2 -> keeps_nodes (if b then m1 else m2).
Proof. by destruct b. Qed.

Ltac kn_prim :=
  intros ???; unfold get_NEXT, get_PREV, get_SIZE, get_MAX, set_NEXT, set_PREV,
    set_SIZE, set_MAX; intros; repeat case_match; simplify_eq/=; split; simpl;
  rewrite ?dom_insert_lookup_L by eauto; done.

Lemma kn_get_NEXT p : keeps_nodes (get_NEXT p). Proof. kn_prim. Qed.
Lemma kn_get_PREV p : keeps_nodes (get_PREV p). Proof. kn_prim. Qed.
Lemma kn_get_SIZE p : keeps_nodes (get_SIZE p). Proof. kn_prim. Qed.
Lemma kn_get_MAX p : keeps_nodes (get_MAX p). Proof. kn_prim. Qed.
Lemma kn_set_NEXT p v : keeps_nodes (set_NEXT p v). Proof. kn_prim. Qed.
Lemma kn_set_PREV p v : keeps_nodes (set_PREV p v). Proof. kn_prim. Qed.
Lemma kn_set_SIZE p v : keeps_nodes (set_SIZE p v). Proof. kn_prim. Qed.
Lemma kn_set_MAX p v : keeps_nodes (set_MAX p v). Proof. kn_prim. Qed.

Create HintDb nodes discriminated.
#[export] Hint Resolve kn_ret kn_bind kn_if kn_get_NEXT kn_get_PREV kn_get_SIZE
  kn_get_MAX kn_set_NEXT kn_set_PREV kn_set_SIZE kn_set_MAX : nodes.

Lemma kn_insert q m e : keeps_nodes (_QUEUE_INSERT q m e).
Proof. unfold _QUEUE_INSERT, _QUEUE_LINK. auto 20 with nodes. Qed.
Lemma kn_remove q e : keeps_nodes (_QUEUE_REMOVE q e).
Proof. unfold _QUEUE_REMOVE, _QUEUE_UNLINK. auto 20 with nodes. Qed.
#[export] Hint Resolve kn_insert kn_remove : nodes.

Lemma kn_enqueue q e : keeps_nodes (_QUEUE_ENQUEUE q e).
Proof. unfold _QUEUE_ENQUEUE. auto 20 with nodes. Qed.

Lemma kn_queue_full q : keeps_nodes (queue_full q).
Proof. unfold queue_full. auto 20 with nodes. Qed.
#[export] Hint Resolve kn_queue_full : nodes.

Lemma stable_links s s' p : stable s s' -> has_links s p -> has_links s' p.
Proof. intros [H1 H2]. unfold has_links. rewrite <-!elem_of_dom, H1, H2. done. Qed.

(** ** The functions on represented queues *)

(** [_queue_enqueue] implements bounded FIFO insertion: on a full queue it
    returns [FALSE] and leaves the store unchanged, otherwise it returns
    [TRUE] and appends the element; memory outside the queue and the element
    is untouched. *)
Lemma queue_enqueue_refines s q l e max :
  queue_repr s q l max -> has_links s e -> e ∉ NULL :: q :: l ->
  (max = 0 -> zlen l < 65535) ->
  exists s', _queue_enqueue q e s = Some (fst (aenqueue e l max), s') /\
    queue_repr s' q (snd (aenqueue e l max)) max /\ same_outside (q :: e :: l) s s'.
Proof.
  intros Hr He Hnin H0. unfold _queue_enqueue, aenqueue. mstep. case_if.
  - exists s. split_and!; [done..|apply same_outside_refl].
  - destruct (QUEUE_ENQUEUE_spec s q l e max) as (s' & H1 & H2 & H3); [done..| |].
    { eapply afull_false; [apply Hr|done|done]. }
    exists s'. rewrite (bind_run _ _ _ _ _ H1). done.
Qed.

(** [_queue_dequeue] removes and returns the oldest element, and returns
    [NULL] without changing anything exactly when the queue is empty. *)
Lemma queue_dequeue_refines s q l max :
  queue_repr s q l max ->
  exists s', _queue_dequeue q s = Some (fst (adequeue l), s') /\
    queue_repr s' q (snd (adequeue l)) max /\ same_outside (q :: tail l) s s' /\
    (fst (adequeue l) = NULL <-> l = []).
Proof.
  intros Hr. unfold _queue_dequeue. mstep. destruct l as [|x l]; simpl.
  - exists s. split_and!; [done..|apply same_outside_refl|done].
  - destruct (QUEUE_DEQUEUE_spec _ _ _ _ _ Hr) as (s' & H1 & H2 & H3 & _).
    exists s'. split_and!; [done..|]. split; [|done]. intros ->. destruct Hr. set_solver.
Qed.

(** [_queue_insert] inserts after the given member, or at the front for
    [NULL], under the same bound check as [_queue_enqueue]. *)
Lemma queue_insert_refines s q l qe e max :
  queue_repr s q l max -> has_links s e -> e ∉ NULL :: q :: l -> qe ∈ NULL :: l ->
  (max = 0 -> zlen l < 65535) ->
  exists s', _queue_insert q qe e s = Some (fst (ainsert qe e l max), s') /\
    queue_repr s' q (snd (ainsert qe e l max)) max /\ same_outside (q :: e :: l) s s'.
Proof.
  intros Hr He Hnin Hqe H0. unfold _queue_insert, ainsert. mstep.
  destruct (afull l max) eqn:Hf.
  { exists s. split_and!; [done..|apply same_outside_refl]. }
  assert (zlen l + 1 < 65536) as Hlen by (eapply afull_false; [apply Hr|done|done]).
  assert (exists l1 l2, l = l1 ++ l2 /\ last_from q l1 = (if qe =? NULL then q else qe) /\
    (if qe =? NULL then e :: l else insert_after qe e l) = l1 ++ e :: l2)
    as (l1 & l2 & -> & Hl & ->).
  { destruct (Z.eqb_spec qe NULL) as [->|Hqn]; [by exists [], l|].
    apply elem_of_cons in Hqe as [?|Hqe]; [done|].
    apply list_elem_of_split in Hqe as (l1 & l2 & ->).
    exists (l1 ++ [qe]), l2. rewrite last_from_app, <-!app_assoc. split_and!; [done..|].
    apply insert_after_split. destruct Hr as [_ Hnd _ _ _ _ _].
    apply NoDup_head_app in Hnd as (_ & _ & _ & _ & Hd). intros Hin.
    eapply Hd; [done|set_solver]. }
  destruct (QUEUE_INSERT_spec s q l1 l2 e max) as (s' & H1 & H2 & H3); [done..|].
  exists s'. simpl. rewrite <-Hl, (bind_run _ _ _ _ _ H1). done.
Qed.

(** [_queue_unlink] removes exactly the given member and keeps the order
    of the others; the element can be enqueued again. *)
Lemma queue_unlink_refines s q l e max :
  queue_repr s q l max -> e ∈ l ->
  exists s', _queue_unlink q e s = Some (tt, s') /\
    queue_repr s' q (aremove e l) max /\ same_outside (q :: aremove e l) s s' /\
    has_links s' e.
Proof.
  intros Hr He. apply list_elem_of_split in He as (l1 & l2 & ->).
  pose proof (repr_nodup _ _ _ _ Hr) as Hnd.
  apply NoDup_head_app in Hnd as (_ & _ & _ & Hnd & Hd). apply NoDup_cons in Hnd as [Hn _].
  rewrite aremove_split; [|intros Hin; eapply Hd; set_solver|done].
  by apply QUEUE_REMOVE_spec.
Qed.

(** ** [_queue_test] *)

(** The part of a segment the loop of [_queue_test] has walked. *)
Fixpoint walked (s : store) (p : Z) (l : list Z) : Prop :=
  match l with
  | [] => True
  | x :: l' => edge s p x /\ walked s x l'
  end.

Lemma lseg_walked s p l n : lseg s p l n <-> walked s p l /\ edge s (last_from p l) n.
Proof. revert p. induction l as [|x l IH]; intros p; simpl; [tauto|]. rewrite IH. tauto. Qed.

Lemma queue_test_loop_complete s q l p e :
  walked s p l -> q ∉ l -> NEXT s !! last_from p l = Some e ->
  queue_test_loop q (length l) (hd e l) p s = Some (inr (e, last_from p l), s).
Proof.
  revert p. induction l as [|x l IH]; intros p Hw Hq He; simpl in *; [done|].
  destruct Hw as [[Hn Hp] Hw].
  rewrite (proj2 (Z.eqb_neq _ _)) by set_solver. mstep. rewrite Z.eqb_refl. simpl.
  assert (NEXT s !! x = Some (hd e l)) as Hx.
  { destruct l as [|y l]; simpl in *; [done|]. apply Hw. }
  mstep. apply IH; [done|set_solver|done].
Qed.

Lemma queue_test_loop_sound s q n e p r s' :
  NEXT s !! p = Some e -> queue_test_loop q n e p s = Some (inr r, s') ->
  s' = s /\ exists l, length l = n /\ q ∉ l /\ walked s p l /\
    snd r = last_from p l /\ NEXT s !! snd r = Some (fst r).
Proof.
  revert e p. induction n as [|n IH]; intros e p He H; simpl in H.
  - apply ret_inv in H as [[= <-] <-]. split; [done|]. exists []. split_and!; [done|set_solver|done..].
  - destruct (Z.eqb_spec e q) as [->|Hne]; [by minv|].
    apply bind_inv in H as (pv & s1 & H1 & H).
    unfold get_PREV in H1. destruct (PREV s !! e) as [v|] eqn:Hpv; [|done]. simplify_eq.
    destruct (Z.eqb_spec pv p) as [->|]; simpl in H; [|by minv].
    apply bind_inv in H as (nx & s2 & H1 & H).
    unfold get_NEXT in H1. destruct (NEXT s1 !! e) as [w|] eqn:Hnx; [|done]. simplify_eq.
    destruct (IH _ _ Hnx H) as (-> & l & <- & Hq & Hw & Hl & Hr). split; [done|].
    exists (e :: l). simpl. split_and!; [done|set_solver|done..].
Qed.

(** C22: [_queue_test] is a decision procedure: it reports [MQX_OK] exactly when
    [NEXT] and [PREV] form a circular doubly linked list of [SIZE] distinct
    elements through the header, whatever state the store is in. *)
Theorem queue_test_correct s q n :
  SIZE s !! q = Some n -> 0 <= n ->
  (exists s', _queue_test q s = Some ((MQX_OK, None), s')) <->
  (exists l, zlen l = n /\ NoDup (q :: l) /\ lseg s q l q).
Proof.
  intros Hn Hn0. split.
  - intros (s' & H). unfold _queue_test, _QUEUE_GET_SIZE in H.
    erewrite bind_run in H by (by apply get_SIZE_run).
    apply bind_inv in H as (e & s1 & H1 & H). unfold get_NEXT in H1.
    destruct (NEXT s !! q) as [e'|] eqn:He; simplify_eq.
    apply bind_inv in H as (r & s2 & H1 & H). destruct r as [|[e2 p2]]; [by minv|].
    destruct (queue_test_loop_sound _ _ _ _ _ _ _ He H1) as (-> & l & Hl & Hq & Hw & Hp & Hx).
    simpl in *. destruct (Z.eqb_spec e2 q) as [->|]; simpl in H; [|by minv].
    apply bind_inv in H as (pv & s3 & H2 & H). unfold get_PREV in H2.
    destruct (PREV s1 !! q) as [pv'|] eqn:Hpv; simplify_eq.
    destruct (Z.eqb_spec pv (last_from q l)) as [->|]; simpl in H; [|by minv].
    assert (lseg s3 q l q) as Hs by (by apply lseg_walked).
    exists l. split_and!; [lia|apply NoDup_cons; split; [done|by eapply lseg_nodup]|done].
  - intros (l & <- & Hnd & Hs). apply NoDup_cons in Hnd as [Hq _].
    pose proof (lseg_first _ _ _ _ Hs) as [Hx _].
    apply lseg_walked in Hs as [Hw [Hnx Hpv]].
    exists s. unfold _queue_test, _QUEUE_GET_SIZE. mstep. mstep.
    rewrite Nat2Z.id.
    erewrite bind_run by (apply queue_test_loop_complete; done).
    simpl. rewrite Z.eqb_refl. simpl. mstep. by rewrite Z.eqb_refl.
Qed.

(** ** Traversal *)

(** A client loop: follow [_queue_next] from [e] until it returns [NULL]. *)
Fixpoint walk (q : Z) (fuel : nat) (e : Z) : M store (list Z) :=
  match fuel with
  | O => mret []
  | S fuel =>
      if e =? NULL then mret [] else
      n ← _queue_next q e;
      l ← walk q fuel n;
      mret (e :: l)
  end.

Lemma walk_suffix s q l1 l2 max fuel :
  queue_repr s q (l1 ++ l2) max -> (length l2 <= fuel)%nat ->
  walk q fuel (hd NULL l2) s = Some (l2, s).
Proof.
  intros Hr. revert l1 fuel Hr. induction l2 as [|x l2 IH]; intros l1 fuel Hr Hf.
  - by destruct fuel.
  - destruct fuel as [|fuel]; simpl in *; [lia|].
    pose proof Hr as [Hs Hnd Hnull _ _ _ _].
    rewrite (proj2 (Z.eqb_neq _ _)) by set_solver.
    apply lseg_cons_app in Hs as [_ Hs]. pose proof (lseg_first _ _ _ _ Hs) as [Hn _].
    unfold _queue_next at 1. rewrite (proj2 (Z.eqb_neq _ _)) by set_solver.
    rewrite bind_assoc. mstep. rewrite bind_ret_l.
    replace (if hd q l2 =? q then NULL else hd q l2) with (hd NULL l2).
    + rewrite (bind_run _ _ _ l2 s); [done|]. apply (IH (l1 ++ [x])); [|lia].
      by rewrite <-app_assoc.
    + apply NoDup_head_app in Hnd as (_ & Hq & _).
      destruct l2 as [|y l2]; simpl; [by rewrite Z.eqb_refl|].
      rewrite (proj2 (Z.eqb_neq _ _)); [done|set_solver].
Qed.

(** starting from [_queue_head] and following [_queue_next] visits every
    element once, in order, and ends with [NULL]. *)
Theorem queue_traversal s q l max fuel :
  queue_repr s q l max -> (length l <= fuel)%nat ->
  (e ← _queue_head q; walk q fuel e) s = Some (l, s).
Proof.
  intros Hr Hf. unfold _queue_head. rewrite bind_assoc. mstep. destruct l as [|x l].
  - simpl. rewrite bind_ret_l. by apply (walk_suffix s q [] []) with (max := max).
  - rewrite (proj2 (Z.eqb_neq _ _)) by (simpl; lia). mstep.
    by apply (walk_suffix s q [] (x :: l)) with (max := max).
Qed.

(** [_queue_init] makes any header an empty queue, with the maximum
    truncated to 16 bits. *)
Lemma queue_init_repr s q size :
  has_links s q -> is_Some (SIZE s !! q) -> is_Some (MAX s !! q) -> q <> NULL ->
  exists s', _queue_init q size s = Some (tt, s') /\
    queue_repr s' q [] (w16 size) /\ stable s s'.
Proof.
  intros [[? Hn] [? Hp]] [? Hs] [? Hm] Hq.
  eexists. split; [unfold _queue_init, _QUEUE_INIT; qrun|]. split.
  - pose proof (wrap_range 16 size ltac:(lia)) as Hw.
    split; simpl; rewrite ?lookup_insert_eq; try done.
    + split; simpl; by rewrite lookup_insert_eq.
    + apply NoDup_singleton.
    + set_solver.
  - split; simpl; rewrite dom_insert_lookup_L; eauto.
Qed.

(** ** Traces of operations *)

Inductive op :=
  | OEnqueue (e : Z) | ODequeue | OInsert (qe e : Z) | OUnlink (e : Z)
  | OHead | OSize | OEmpty.

Inductive res := RBool (b : bool) | RPtr (p : Z) | RUnit | RSize (n : Z).

Definition exec (q : Z) (o : op) : M store res :=
  match o with
  | OEnqueue e => b ← _queue_enqueue q e; mret (RBool b)
  | ODequeue => p ← _queue_dequeue q; mret (RPtr p)
  | OInsert qe e => b ← _queue_insert q qe e; mret (RBool b)
  | OUnlink e => _queue_unlink q e;; mret RUnit
  | OHead => p ← _queue_head q; mret (RPtr p)
  | OSize => n ← _queue_get_size q; mret (RSize n)
  | OEmpty => b ← _queue_is_empty q; mret (RBool b)
  end.

Fixpoint run (q : Z) (ops : list op) : M store (list res) :=
  match ops with
  | [] => mret []
  | o :: ops => r ← exec q o; rs ← run q ops; mret (r :: rs)
  end.

(** The same operations on the list of elements. *)
Definition aexec (max : Z) (o : op) (l : list Z) : res * list Z :=
  match o with
  | OEnqueue e => let (b, l') := aenqueue e l max in (RBool b, l')
  | ODequeue => let (p, l') := adequeue l in (RPtr p, l')
  | OInsert qe e => let (b, l') := ainsert qe e l max in (RBool b, l')
  | OUnlink e => (RUnit, aremove e l)
  | OHead => (RPtr (hd NULL l), l)
  | OSize => (RSize (zlen l), l)
  | OEmpty => (RBool (bool_decide (l = [])), l)
  end.

Fixpoint arun (max : Z) (ops : list op) (l : list Z) : list res * list Z :=
  match ops with
  | [] => ([], l)
  | o :: ops =>
      let (r, l1) := aexec max o l in
      let (rs, l2) := arun max ops l1 in (r :: rs, l2)
  end.

(** What the callers of the queue functions must respect: only elements of
    the pool [P] that are not queued are added, only members are unlinked, and
    an unbounded queue stays within its 16-bit size. *)
Definition op_ok (P : list Z) (max : Z) (l : list Z) (o : op) : Prop :=
  match o with
  | OEnqueue e => e ∈ P /\ e ∉ l /\ (max = 0 -> zlen l < 65535)
  | OInsert qe e => e ∈ P /\ e ∉ l /\ qe ∈ NULL :: l /\ (max = 0 -> zlen l < 65535)
  | OUnlink e => e ∈ l
  | _ => True
  end.

Fixpoint ops_ok (P : list Z) (max : Z) (l : list Z) (ops : list op) : Prop :=
  match ops with
  | [] => True
  | o :: ops => op_ok P max l o /\ ops_ok P max (snd (aexec max o l)) ops
  end.

Lemma kn_exec q o : keeps_nodes (exec q o).
Proof.
  destruct o; unfold exec, _queue_enqueue, _queue_dequeue, _queue_insert, _queue_unlink,
    _queue_head, _queue_get_size, _queue_is_empty, _QUEUE_IS_EMPTY, _QUEUE_GET_SIZE,
    _QUEUE_ENQUEUE, _QUEUE_DEQUEUE; auto 20 with nodes.
Qed.

Lemma exec_refines P s q l max o :
  queue_repr s q l max -> (forall e, e ∈ P -> has_links s e) -> NULL ∉ P -> q ∉ P ->
  l ⊆ P -> op_ok P max l o ->
  exists s', exec q o s = Some (fst (aexec max o l), s') /\
    queue_repr s' q (snd (aexec max o l)) max /\ same_outside (q :: P) s s'.
Proof.
  intros Hr HP Hnull Hq HlP Hok. destruct o as [e| |qe e|e| | |]; simpl in *.
  - destruct Hok as (He & Hl & H0).
    destruct (queue_enqueue_refines s q l e max) as (s' & H1 & H2 & H3);
      [done|auto|set_solver|done|].
    exists s'. rewrite (bind_run _ _ _ _ _ H1). destruct (aenqueue e l max).
    split_and!; [done..|eapply same_outside_sub; [|done]; set_solver].
  - destruct (queue_dequeue_refines s q l max Hr) as (s' & H1 & H2 & H3 & _).
    exists s'. rewrite (bind_run _ _ _ _ _ H1). destruct l; simpl in *;
    (split_and!; [done|done|]; eapply same_outside_sub; [|done]; set_solver).
  - destruct Hok as (He & Hl & Hqe & H0).
    destruct (queue_insert_refines s q l qe e max) as (s' & H1 & H2 & H3);
      [done|auto|set_solver|done|done|].
    exists s'. rewrite (bind_run _ _ _ _ _ H1). destruct (ainsert qe e l max).
    split_and!; [done..|eapply same_outside_sub; [|done]; set_solver].
  - destruct (queue_unlink_refines s q l e max) as (s' & H1 & H2 & H3 & _); [done|done|].
    exists s'. rewrite (bind_run _ _ _ _ _ H1).
    split_and!; [done..|eapply same_outside_sub; [|done]].
    intros x Hx. unfold aremove in Hx. apply elem_of_cons in Hx as [->|Hx]; [set_solver|].
    apply list_elem_of_filter in Hx. set_solver.
  - exists s. unfold _queue_head. rewrite bind_assoc. mstep. split_and!;
      [|done|apply same_outside_refl]. destruct l as [|x l]; simpl; [done|]. mstep. done.
  - exists s. unfold _queue_get_size, _QUEUE_GET_SIZE. mstep.
    split_and!; [done..|apply same_outside_refl].
  - exists s. unfold _queue_is_empty, _QUEUE_IS_EMPTY. rewrite bind_assoc. mstep.
    split_and!; [by destruct l|done|apply same_outside_refl].
Qed.

Lemma aexec_members P max o l :
  l ⊆ P -> op_ok P max l o -> snd (aexec max o l) ⊆ P.
Proof.
  intros HlP Hok. destruct o as [e| |qe e|e| | |]; simpl in *; try done.
  - unfold aenqueue. destruct (afull l max); simpl; set_solver.
  - destruct l; set_solver.
  - unfold ainsert. destruct (afull l max); simpl; [done|].
    destruct (qe =? NULL); [set_solver|]. destruct Hok as (He & _). clear -HlP He.
    induction l as [|y l IH]; simpl; [done|]. destruct (y =? qe); set_solver.
  - unfold aremove. intros x Hx. apply list_elem_of_filter in Hx. set_solver.
Qed.

Lemma run_refines P q max ops : forall s l,
  queue_repr s q l max -> (forall e, e ∈ P -> has_links s e) -> NULL ∉ P -> q ∉ P ->
  l ⊆ P -> ops_ok P max l ops ->
  exists s', run q ops s = Some (fst (arun max ops l), s') /\
    queue_repr s' q (snd (arun max ops l)) max /\ same_outside (q :: P) s s'.
Proof.
  induction ops as [|o ops IH]; intros s l Hr HP Hnull Hq HlP Hok; simpl in *.
  - exists s. split_and!; [done..|apply same_outside_refl].
  - destruct Hok as [Ho Hok].
    destruct (exec_refines P s q l max o) as (s1 & H1 & H2 & H3); [done..|].
    pose proof (aexec_members _ _ _ _ HlP Ho) as HlP1.
    rewrite (bind_run _ _ _ _ _ H1). destruct (aexec max o l) as [r l1]; simpl in *.
    destruct (IH s1 l1) as (s2 & H4 & H5 & H6); [done| |done..|].
    { intros e He. eapply stable_links; [eapply kn_exec, H1|auto]. }
    exists s2. rewrite (bind_run _ _ _ _ _ H4). destruct (arun max ops l1); simpl in *.
    split_and!; [done..|]. by eapply same_outside_trans.
Qed.

(** ** Properties *)

(** C6: Any sequence of enqueues, dequeues, inserts, unlinks, head, size and
    emptiness queries on an initialised queue returns exactly what the same
    sequence returns on a list (FIFO order, the bound [MAX] enforced), ends
    with the header representing that list, and leaves every other queue that
    shares no node with it unchanged. *)
Theorem queue_trace_refines P q max ops s l :
  queue_repr s q l max -> (forall e, e ∈ P -> has_links s e) -> NULL ∉ P -> q ∉ P ->
  l ⊆ P -> ops_ok P max l ops ->
  exists s', run q ops s = Some (fst (arun max ops l), s') /\
    queue_repr s' q (snd (arun max ops l)) max /\
    (forall q2 l2 m2, (forall x, x ∈ q2 :: l2 -> x ∉ q :: P) ->
       queue_repr s q2 l2 m2 -> queue_repr s' q2 l2 m2).
Proof.
  intros Hr HP Hnull Hq HlP Hok.
  destruct (run_refines P q max ops s l) as (s' & H1 & H2 & H3); [done..|].
  exists s'. split_and!; [done..|]. intros q2 l2 m2 Hd H. by eapply repr_frame.
Qed.

(** [SIZE] is 16 bits wide: an unbounded queue ([MAX = 0]) that holds
    65535 elements accepts one more, after which [SIZE] is 0 and
    [_queue_dequeue], [_queue_head] and [_queue_is_empty] treat the queue as
    empty although [NEXT] still leads to its 65536 elements. *)
Theorem queue_size_wraps s q l e :
  queue_repr s q l 0 -> zlen l = 65535 -> has_links s e -> e ∉ NULL :: q :: l ->
  exists s', _queue_enqueue q e s = Some (true, s') /\
    lseg s' q (l ++ [e]) q /\
    _queue_dequeue q s' = Some (NULL, s') /\ _queue_head q s' = Some (NULL, s') /\
    _queue_is_empty q s' = Some (true, s').
Proof.
  intros Hr Hlen He Hnin. destruct Hr as [Hs Hnd Hnull Hsz Hmax Hlr Hmr].
  destruct (QUEUE_LINK_spec s q l [] e) as (s1 & Hrun & Hs1 & _ & _ & HS & HM);
    rewrite ?app_nil_r; [done|done|done|set_solver|].
  set (s' := Store (NEXT s1) (PREV s1) (<[q:=0]> (SIZE s1)) (MAX s1)).
  assert (SIZE s' !! q = Some 0) as H0 by (simpl; by rewrite lookup_insert_eq).
  exists s'. split_and!.
  - unfold _queue_enqueue, queue_full, _QUEUE_ENQUEUE, _QUEUE_INSERT.
    rewrite !bind_assoc. mstep. rewrite bind_assoc. mstep. rewrite bind_ret_l. simpl.
    rewrite bind_assoc.
    erewrite bind_run by (apply get_PREV_run; eapply edge_prev, lseg_last, Hs).
    rewrite bind_assoc, (bind_run _ _ _ _ _ Hrun), <-HS in *. rewrite bind_assoc. mstep.
    rewrite Hlen. erewrite bind_run by (apply set_SIZE_run; eauto). done.
  - apply (lseg_frame s1); done.
  - unfold _queue_dequeue. by mstep.
  - unfold _queue_head. by mstep.
  - unfold _queue_is_empty, _QUEUE_IS_EMPTY. by mstep.
Qed.

(** ** Concrete instances *)

(** Two headers (100, 200) and four elements (1 to 4). *)
Definition demo_pool : list Z := [1; 2; 3; 4].
Definition demo_store : store :=
  Store (list_to_map ((fun p => (p, 0)) <$> [100; 200; 1; 2; 3; 4]))
        (list_to_map ((fun p => (p, 0)) <$> [100; 200; 1; 2; 3; 4]))
        (list_to_map [(100, 7); (200, 7)]) (list_to_map [(100, 7); (200, 7)]).

(** The store after initialising header 100 with maximum 3 and 200 without. *)
Definition demo_init : store :=
  match (_queue_init 100 3;; _queue_init 200 0) demo_store with
  | Some (_, s) => s
  | None => demo_store
  end.

(** Header 100 holding 1, 2, 3. *)
Definition demo_full : store :=
  match run 100 [OEnqueue 1; OEnqueue 2; OEnqueue 3] demo_init with
  | Some (_, s) => s
  | None => demo_store
  end.

Ltac solve_repr :=
  split; [vm_compute; tauto | | | vm_compute; done | vm_compute; done
         | vm_compute; done | lia];
  apply (bool_decide_eq_true_1 _); vm_compute; reflexivity.

Lemma demo_init_repr : queue_repr demo_init 100 [] 3 /\ queue_repr demo_init 200 [] 0.
Proof. split; solve_repr. Qed.

Lemma demo_full_repr : queue_repr demo_full 100 [1; 2; 3] 3.
Proof. solve_repr. Qed.

Example demo_trace :
  option_map fst (run 100 [OEnqueue 1; OInsert 0 2; OInsert 2 3; OEnqueue 4; OUnlink 3;
                   ODequeue; OSize; OHead; ODequeue; ODequeue; OEmpty] demo_init) =
  Some [RBool true; RBool true; RBool true; RBool false; RUnit; RPtr 2; RSize 1;
        RPtr 1; RPtr 1; RPtr 0; RBool true].
Proof. vm_compute. reflexivity. Qed.

Lemma queue_trace_refines_witness :
  exists s', run 100 [OEnqueue 1; OEnqueue 2; ODequeue; OUnlink 2; OHead] demo_init =
      Some ([RBool true; RBool true; RPtr 1; RUnit; RPtr 0], s') /\
    queue_repr s' 100 [] 3 /\ queue_repr s' 200 [] 0.
Proof.
  destruct (queue_trace_refines demo_pool 100 3
              [OEnqueue 1; OEnqueue 2; ODequeue; OUnlink 2; OHead] demo_init [])
    as (s' & H1 & H2 & H3).
  - apply demo_init_repr.
  - intros e He. unfold demo_pool in He.
    repeat (apply elem_of_cons in He as [->|He]); [split; vm_compute; eauto ..|set_solver].
  - set_solver.
  - set_solver.
  - set_solver.
  - simpl. unfold demo_pool. set_solver by lia.
  - exists s'. split_and!; [exact H1|exact H2|].
    apply H3; [|apply demo_init_repr].
    intros x Hx. apply list_elem_of_singleton in Hx as ->.
    apply (bool_decide_eq_true_1 _). reflexivity.
Defined.

Lemma queue_test_correct_witness :
  SIZE demo_full !! 100 = Some 3 /\
  exists s', _queue_test 100 demo_full = Some ((MQX_OK, None), s').
Proof.
  split; [vm_compute; reflexivity|].
  apply (queue_test_correct demo_full 100 3); [vm_compute; reflexivity|lia|].
  exists [1; 2; 3]. split_and!; [reflexivity|apply demo_full_repr|apply demo_full_repr].
Defined.

Lemma queue_traversal_witness :
  (e ← _queue_head 100; walk 100 10 e) demo_full = Some ([1; 2; 3], demo_full).
Proof. apply (queue_traversal demo_full 100 [1; 2; 3] 3 10); [apply demo_full_repr|simpl; lia]. Defined.

(** A store with [65540] nodes, and queues of any length below 65536 in it. *)
Definition big_nodes : gmap Z Z := gset_to_gmap 0 (list_to_set (seqZ 1 65540)).
Definition big_store : store := Store big_nodes big_nodes {[1 := 0]} {[1 := 0]}.

Lemma big_store_links e : 1 <= e < 65540 -> has_links big_store e.
Proof.
  intros He. assert (is_Some (big_nodes !! e)) as H; [|by split].
  exists 0. unfold big_nodes. apply lookup_gset_to_gmap_Some.
  split; [|done]. apply elem_of_list_to_set, elem_of_seqZ. lia.
Qed.

Lemma long_queue (n : nat) : Z.of_nat n <= 65535 ->
  exists s l, queue_repr s 1 l 0 /\ zlen l = Z.of_nat n /\
    (forall x, x ∈ l -> 2 <= x < 2 + Z.of_nat n) /\ stable big_store s.
Proof.
  induction n as [|n IH]; intros Hn.
  - destruct (queue_init_repr big_store 1 0) as (s & _ & Hr & Hst);
      [by apply big_store_links|exists 0; apply lookup_singleton_eq..|done|].
    exists s, []. split_and!; [exact Hr|done|set_solver|done].
  - destruct IH as (s & l & Hr & Hl & Hb & Hst); [lia|].
    destruct (QUEUE_ENQUEUE_spec s 1 l (2 + Z.of_nat n) 0) as (s' & H1 & H2 & _).
    + done.
    + eapply stable_links, big_store_links; [done|lia].
    + rewrite !elem_of_cons. intros [?|[?|Hin]]; [unfold NULL in *; lia..|].
      apply Hb in Hin. lia.
    + lia.
    + exists s', (l ++ [2 + Z.of_nat n]). split_and!; [done|zlia| |].
      * intros x Hx. apply elem_of_app in Hx as [Hx%Hb|Hx%list_elem_of_singleton]; lia.
      * assert (stable s s') as [? ?] by (eapply kn_enqueue; exact H1).
        destruct Hst. split; congruence.
Qed.

Lemma queue_size_wraps_witness :
  exists s l e s', zlen l = 65535 /\ lseg s' 1 (l ++ [e]) 1 /\
    _queue_enqueue 1 e s = Some (true, s') /\ _queue_dequeue 1 s' = Some (NULL, s').
Proof.
  destruct (long_queue (Z.to_nat 65535)) as (s & l & Hr & Hl & Hb & Hst); [lia|].
  destruct (queue_size_wraps s 1 l 65538) as (s' & H1 & H2 & H3 & _); [done|lia| | |].
  - eapply stable_links, big_store_links; [done|lia].
  - rewrite !elem_of_cons. intros [?|[?|Hin]]; [unfold NULL in *; lia..|].
    apply Hb in Hin. lia.
  - exists s, l, 65538, s'. split_and!; [lia|done..].
Defined.

End Queue.
