(* ===== verification/Lwmem.v ===== *)
(** * The lightweight memory manager: [kernel/lwmem.c]

    Memory is a finite map from word-aligned addresses to 32-bit words.  A
    block is a header of three words ([BLOCKSIZE], [POOL], and the union [U]
    that holds [NEXTBLOCK] in a free block and [TASK_NUMBER]/[MEM_TYPE] in an
    allocated one) followed by its payload, so writing a header anywhere in a
    pool overwrites whatever words were there, as in the C code.  Accesses
    that are not word aligned, or outside mapped memory, fault.  The pool
    structures are records of their own: they lie outside the memory they
    manage.

    The loops briefly enable interrupts; [window] is what may run there, a
    parameter of the definitions.  Loops take a fuel: with a window that keeps
    restarting them they need not end.

    [heap] describes a pool as a list of adjacent free and used blocks; the
    theorems relate allocation, release, the accounting and the self test to
    that list. *)

From S2P Require Import Prelude.

Module Lwmem.

(** ** Constants (Kinetis configuration) *)

Definition NULL : Z := 0.
Definition MQX_OK : Z := 0.
Definition MQX_INVALID_POINTER : Z := 1.
Definition MQX_NOT_RESOURCE_OWNER : Z := 3.
Definition MQX_OUT_OF_MEMORY : Z := 4.
Definition MQX_CORRUPT_STORAGE_POOL : Z := 6.
Definition MQX_CORRUPT_STORAGE_POOL_FREE_LIST : Z := 7.
Definition MQX_INVALID_PARAMETER : Z := 12.
Definition MQX_LWMEM_POOL_INVALID : Z := 56.
Definition SYSTEM_TASK_NUMBER : Z := 65535.

Definition LWMEM_POOL_VALID : Z := 1819108720.      (* 0x6C6D6570 *)
Definition PSP_MEMORY_ALIGNMENT : Z := 15.          (* PSP_CACHE_LINE_SIZE - 1 *)
Definition sizeof_BLOCK : Z := 12.                  (* sizeof(LWMEM_BLOCK_STRUCT) *)

(** [(sizeof(LWMEM_BLOCK_STRUCT) + PSP_MEMORY_ALIGNMENT) & PSP_MEMORY_ALIGNMENT_MASK] *)
Definition LWMEM_MIN_MEMORY_STORAGE_SIZE : Z :=
  Z.land (sizeof_BLOCK + PSP_MEMORY_ALIGNMENT) (Z.lnot PSP_MEMORY_ALIGNMENT).

Definition _MEMORY_ALIGN_VAL_LARGER (val : Z) : Z :=
  Z.land (w32 (val + PSP_MEMORY_ALIGNMENT)) (Z.lnot PSP_MEMORY_ALIGNMENT).
Definition _ALIGN_ADDR_TO_HIGHER_MEM (val : Z) : Z :=
  Z.land (w32 (val + PSP_MEMORY_ALIGNMENT)) (Z.lnot PSP_MEMORY_ALIGNMENT).
Definition _ALIGN_ADDR_TO_LOWER_MEM (val : Z) : Z :=
  Z.land val (Z.lnot PSP_MEMORY_ALIGNMENT).

Definition TASK_NUMBER_FROM_TASKID (taskid : Z) : Z := Z.land taskid 65535.
Definition GET_LWMEMBLOCK_PTR (addr : Z) : Z := w32 (addr - sizeof_BLOCK).

(** ** State *)

Record pool := Pool {
  VALID : Z;
  POOL_ALLOC_START_PTR : Z;
  POOL_ALLOC_END_PTR : Z;
  POOL_FREE_LIST_PTR : Z;
  POOL_ALLOC_PTR : Z;
  POOL_FREE_PTR : Z;
  POOL_TEST_PTR : Z;
  POOL_TEST2_PTR : Z;
  POOL_DESTROY_PTR : Z;
  HIGHWATER : Z
}.

Record state := State {
  mem : gmap Z Z;               (* word-aligned address -> 32-bit word *)
  pools : gmap Z pool;          (* pool id -> LWMEM_POOL_STRUCT *)
  LWMEM_POOLS : option (list Z); (* kernel_data->LWMEM_POOLS; None: NEXT == NULL *)
  KERNEL_LWMEM_POOL : Z;        (* kernel_data->KERNEL_LWMEM_POOL *)
  ACTIVE_TASK_ID : Z;           (* kernel_data->ACTIVE_PTR->TASK_ID *)
  SYSTEM_TASK_ID : Z;           (* SYSTEM_TD_PTR(kernel_data)->TASK_ID *)
  TASK_ERROR_CODE : Z           (* error code of the running context *)
}.

Definition set_mem (f : gmap Z Z -> gmap Z Z) (s : state) : state :=
  State (f (mem s)) (pools s) (LWMEM_POOLS s) (KERNEL_LWMEM_POOL s)
        (ACTIVE_TASK_ID s) (SYSTEM_TASK_ID s) (TASK_ERROR_CODE s).
Definition set_pools (f : gmap Z pool -> gmap Z pool) (s : state) : state :=
  State (mem s) (f (pools s)) (LWMEM_POOLS s) (KERNEL_LWMEM_POOL s)
        (ACTIVE_TASK_ID s) (SYSTEM_TASK_ID s) (TASK_ERROR_CODE s).
Definition set_POOLS (l : option (list Z)) (s : state) : state :=
  State (mem s) (pools s) l (KERNEL_LWMEM_POOL s)
        (ACTIVE_TASK_ID s) (SYSTEM_TASK_ID s) (TASK_ERROR_CODE s).
Definition set_KERNEL_POOL (p : Z) (s : state) : state :=
  State (mem s) (pools s) (LWMEM_POOLS s) p
        (ACTIVE_TASK_ID s) (SYSTEM_TASK_ID s) (TASK_ERROR_CODE s).
Definition set_error (e : Z) (s : state) : state :=
  State (mem s) (pools s) (LWMEM_POOLS s) (KERNEL_LWMEM_POOL s)
        (ACTIVE_TASK_ID s) (SYSTEM_TASK_ID s) e.

(** Word access. *)
Definition load (a : Z) : M state Z := fun s =>
  match mem s !! a with Some v => Some (v, s) | None => None end.
Definition store (a v : Z) : M state unit := fun s =>
  match mem s !! a with
  | Some _ => Some (tt, set_mem (<[a:=v]>) s)
  | None => None
  end.

(** Pool fields. *)
Definition get_pool (p : Z) : M state pool := fun s =>
  match pools s !! p with Some x => Some (x, s) | None => None end.
Definition upd_pool (p : Z) (f : pool -> pool) : M state unit := fun s =>
  match pools s !! p with
  | Some x => Some (tt, set_pools (<[p:=f x]>) s)
  | None => None
  end.

Definition with_FREE_LIST (v : Z) (x : pool) : pool :=
  Pool (VALID x) (POOL_ALLOC_START_PTR x) (POOL_ALLOC_END_PTR x) v (POOL_ALLOC_PTR x)
       (POOL_FREE_PTR x) (POOL_TEST_PTR x) (POOL_TEST2_PTR x) (POOL_DESTROY_PTR x) (HIGHWATER x).
Definition with_ALLOC (v : Z) (x : pool) : pool :=
  Pool (VALID x) (POOL_ALLOC_START_PTR x) (POOL_ALLOC_END_PTR x) (POOL_FREE_LIST_PTR x) v
       (POOL_FREE_PTR x) (POOL_TEST_PTR x) (POOL_TEST2_PTR x) (POOL_DESTROY_PTR x) (HIGHWATER x).
Definition with_FREE (v : Z) (x : pool) : pool :=
  Pool (VALID x) (POOL_ALLOC_START_PTR x) (POOL_ALLOC_END_PTR x) (POOL_FREE_LIST_PTR x)
       (POOL_ALLOC_PTR x) v (POOL_TEST_PTR x) (POOL_TEST2_PTR x) (POOL_DESTROY_PTR x) (HIGHWATER x).
Definition with_TEST (v : Z) (x : pool) : pool :=
  Pool (VALID x) (POOL_ALLOC_START_PTR x) (POOL_ALLOC_END_PTR x) (POOL_FREE_LIST_PTR x)
       (POOL_ALLOC_PTR x) (POOL_FREE_PTR x) v (POOL_TEST2_PTR x) (POOL_DESTROY_PTR x) (HIGHWATER x).
Definition with_TEST2 (v : Z) (x : pool) : pool :=
  Pool (VALID x) (POOL_ALLOC_START_PTR x) (POOL_ALLOC_END_PTR x) (POOL_FREE_LIST_PTR x)
       (POOL_ALLOC_PTR x) (POOL_FREE_PTR x) (POOL_TEST_PTR x) v (POOL_DESTROY_PTR x) (HIGHWATER x).
Definition with_HIGHWATER (v : Z) (x : pool) : pool :=
  Pool (VALID x) (POOL_ALLOC_START_PTR x) (POOL_ALLOC_END_PTR x) (POOL_FREE_LIST_PTR x)
       (POOL_ALLOC_PTR x) (POOL_FREE_PTR x) (POOL_TEST_PTR x) (POOL_TEST2_PTR x)
       (POOL_DESTROY_PTR x) v.

(** Block header fields. *)
Definition get_BLOCKSIZE (b : Z) : M state Z := load b.
Definition set_BLOCKSIZE (b v : Z) : M state unit := store b v.
Definition get_POOL (b : Z) : M state Z := load (b + 4).
Definition set_POOL (b v : Z) : M state unit := store (b + 4) v.
Definition get_NEXTBLOCK (b : Z) : M state Z := load (b + 8).
Definition set_NEXTBLOCK (b v : Z) : M state unit := store (b + 8) v.
(** [U.S.TASK_NUMBER] is the low half word of the union, [U.S.MEM_TYPE] the high one. *)
Definition get_TASK_NUMBER (b : Z) : M state Z := u ← load (b + 8); mret (w16 u).
Definition set_TASK_NUMBER (b v : Z) : M state unit :=
  u ← load (b + 8); store (b + 8) (u / 65536 * 65536 + w16 v).
Definition get_MEM_TYPE (b : Z) : M state Z := u ← load (b + 8); mret (u / 65536).
Definition set_MEM_TYPE (b v : Z) : M state unit :=
  u ← load (b + 8); store (b + 8) (w16 v * 65536 + w16 u).

(** [_task_set_error] of task.c: an error is kept until it is read. *)
Definition _task_set_error (new_error_code : Z) : M state Z :=
  old_error_code ← gets TASK_ERROR_CODE;
  if (new_error_code =? MQX_OK) || (old_error_code =? MQX_OK)
  then modify (set_error new_error_code);; mret old_error_code
  else mret old_error_code.

(** [_mem_zero] on a word-aligned area of a multiple of four bytes, which is
    how this component calls it: [n] words. *)
Fixpoint zero_words (from32_ptr : Z) (n : nat) : M state unit :=
  match n with
  | O => mret tt
  | S n => store from32_ptr 0;; zero_words (from32_ptr + 4) n
  end.
Definition _mem_zero (from_ptr number_of_bytes : Z) : M state unit :=
  zero_words from_ptr (Z.to_nat (Z.shiftr number_of_bytes 2)).

(** ** Allocation *)

(** Size adjustment common to the three allocators: header, minimum, alignment. *)
Definition adjust_size (requested_size : Z) : Z :=
  let requested_size := w32 (requested_size + sizeof_BLOCK) in
  let requested_size :=
    if requested_size <? LWMEM_MIN_MEMORY_STORAGE_SIZE
    then LWMEM_MIN_MEMORY_STORAGE_SIZE else requested_size in
  _MEMORY_ALIGN_VAL_LARGER requested_size.

(** Restart every walk of the pool that was interrupted. *)
Definition reset_walks (pool_id : Z) : M state unit :=
  upd_pool pool_id (fun x =>
    Pool (VALID x) (POOL_ALLOC_START_PTR x) (POOL_ALLOC_END_PTR x) (POOL_FREE_LIST_PTR x)
         (POOL_FREE_LIST_PTR x) (POOL_FREE_LIST_PTR x) (POOL_FREE_LIST_PTR x)
         (POOL_ALLOC_START_PTR x) (POOL_ALLOC_START_PTR x) (HIGHWATER x)).

(** [block_ptr] becomes an allocated block of the task; [wm_ptr] is the block
    the high water mark is computed from. *)
Definition mark_used (pool_id block_ptr wm_ptr task_id : Z) : M state unit :=
  set_TASK_NUMBER block_ptr (TASK_NUMBER_FROM_TASKID task_id);;
  set_MEM_TYPE block_ptr 0;;
  set_POOL block_ptr pool_id;;
  wm_size ← get_BLOCKSIZE wm_ptr;
  let highwater := w32 (wm_ptr + wm_size - 1) in
  x ← get_pool pool_id;
  if HIGHWATER x <? highwater then upd_pool pool_id (with_HIGHWATER highwater) else mret tt.

Definition prepare_free (pool_id next_block_ptr next_block_size next : Z) : M state unit :=
  set_BLOCKSIZE next_block_ptr next_block_size;;
  set_POOL next_block_ptr pool_id;;
  set_NEXTBLOCK next_block_ptr next.

(** The end of a successful allocation, the same text in
    [_lwmem_alloc_internal] (lines 151 to 178) and
    [_lwmem_alloc_align_internal] (lines 528 to 556): unlink the block, mark it
    used, clear its payload if asked to. *)
Definition alloc_finish (pool_id requested_size task_id : Z) (zero : bool)
    (block_ptr prev_block_ptr next_block_ptr : Z) : M state Z :=
  x ← get_pool pool_id;
  (if block_ptr =? POOL_FREE_LIST_PTR x
   then upd_pool pool_id (with_FREE_LIST next_block_ptr)
   else set_NEXTBLOCK prev_block_ptr next_block_ptr);;
  mark_used pool_id block_ptr block_ptr task_id;;
  (if zero then _mem_zero (w32 (block_ptr + sizeof_BLOCK)) (w32 (requested_size - sizeof_BLOCK))
   else mret tt);;
  mret (w32 (block_ptr + sizeof_BLOCK)).

(** The body of the successful branch of [_lwmem_alloc_internal]'s loop:
    split the block if the rest can be a block, unlink it, mark it used. *)
Definition alloc_carve (pool_id requested_size task_id : Z) (zero : bool)
    (block_ptr prev_block_ptr block_size : Z) : M state Z :=
  let next_block_size := block_size - requested_size in
  '(requested_size, next_block_ptr) ←
    (if LWMEM_MIN_MEMORY_STORAGE_SIZE <=? next_block_size then
       let next_block_ptr := w32 (block_ptr + requested_size) in
       next ← get_NEXTBLOCK block_ptr;
       prepare_free pool_id next_block_ptr next_block_size next;;
       set_BLOCKSIZE block_ptr requested_size;;
       mret (requested_size, next_block_ptr)
     else
       next_block_ptr ← get_NEXTBLOCK block_ptr;
       mret (block_size, next_block_ptr));
  alloc_finish pool_id requested_size task_id zero block_ptr prev_block_ptr next_block_ptr.

Section Walks.

(** What runs while a walk has interrupts enabled. *)
Variable window : M state unit.

(** Lines 94 to 186. *)
Fixpoint alloc_loop (fuel : nat) (pool_id requested_size task_id : Z) (zero : bool)
    (block_ptr prev_block_ptr : Z) : M state Z :=
  match fuel with
  | O => fault
  | S fuel =>
      if block_ptr =? NULL then mret NULL else
      upd_pool pool_id (with_ALLOC block_ptr);;
      window;;
      x ← get_pool pool_id;
      let '(block_ptr, prev_block_ptr) :=
        if negb (block_ptr =? POOL_ALLOC_PTR x)
        then (POOL_FREE_LIST_PTR x, POOL_FREE_LIST_PTR x)
        else (block_ptr, prev_block_ptr) in
      if block_ptr =? NULL then mret NULL else
      block_size ← get_BLOCKSIZE block_ptr;
      if requested_size <=? block_size
      then alloc_carve pool_id requested_size task_id zero block_ptr prev_block_ptr block_size
      else
        next ← get_NEXTBLOCK block_ptr;
        alloc_loop fuel pool_id requested_size task_id zero next block_ptr
  end.

Definition out_of_memory (retval : Z) : M state Z :=
  (if retval =? NULL then _task_set_error MQX_OUT_OF_MEMORY;; mret tt else mret tt);;
  mret retval.

Definition _lwmem_alloc_internal (fuel : nat) (requested_size task_id pool_id : Z)
    (zero : bool) : M state Z :=
  x ← get_pool pool_id;
  if negb (VALID x =? LWMEM_POOL_VALID)
  then _task_set_error MQX_LWMEM_POOL_INVALID;; mret NULL else
  let requested_size := adjust_size requested_size in
  retval ← alloc_loop fuel pool_id requested_size task_id zero
             (POOL_FREE_LIST_PTR x) (POOL_FREE_LIST_PTR x);
  reset_walks pool_id;;
  out_of_memory retval.

(** Lines 294 to 358: cut [requested_addr]'s block out of a free block, which
    keeps the part in front of it. *)
Definition alloc_at_carve (pool_id requested_size requested_addr task_id : Z) (zero : bool)
    (block_ptr block_size : Z) : M state Z :=
  let requested_block_ptr := w32 (requested_addr - sizeof_BLOCK) in
  let free_block_size := w32 (requested_block_ptr - block_ptr) in
  let next_block_size := w32 (block_size - requested_size - free_block_size) in
  set_BLOCKSIZE block_ptr free_block_size;;
  '(requested_size, next_block_ptr) ←
    (if LWMEM_MIN_MEMORY_STORAGE_SIZE <=? next_block_size then
       let next_block_ptr := w32 (requested_block_ptr + requested_size) in
       next ← get_NEXTBLOCK block_ptr;
       prepare_free pool_id next_block_ptr next_block_size next;;
       set_NEXTBLOCK block_ptr next_block_ptr;;
       mret (requested_size, next_block_ptr)
     else
       next_block_ptr ← get_NEXTBLOCK block_ptr;
       mret (w32 (requested_size + next_block_size), next_block_ptr));
  set_BLOCKSIZE requested_block_ptr requested_size;;
  set_NEXTBLOCK requested_block_ptr next_block_ptr;;
  mark_used pool_id requested_block_ptr block_ptr task_id;;
  (if zero then _mem_zero requested_addr (w32 (requested_size - sizeof_BLOCK)) else mret tt);;
  mret requested_addr.

Fixpoint alloc_at_loop (fuel : nat) (pool_id requested_size requested_addr task_id : Z)
    (zero : bool) (block_ptr : Z) : M state Z :=
  match fuel with
  | O => fault
  | S fuel =>
      if block_ptr =? NULL then mret NULL else
      upd_pool pool_id (with_ALLOC block_ptr);;
      window;;
      x ← get_pool pool_id;
      let block_ptr :=
        if negb (block_ptr =? POOL_ALLOC_PTR x) then POOL_FREE_LIST_PTR x else block_ptr in
      if block_ptr =? NULL then mret NULL else
      block_size ← get_BLOCKSIZE block_ptr;
      let requested_block := w32 (requested_addr - sizeof_BLOCK) in
      if (w32 (block_ptr + LWMEM_MIN_MEMORY_STORAGE_SIZE) <=? requested_block)
         && (w32 (requested_block + requested_size) <=? w32 (block_ptr + block_size))
      then alloc_at_carve pool_id requested_size requested_addr task_id zero block_ptr block_size
      else
        next ← get_NEXTBLOCK block_ptr;
        alloc_at_loop fuel pool_id requested_size requested_addr task_id zero next
  end.

Definition _lwmem_alloc_at_internal (fuel : nat) (requested_size requested_addr task_id pool_id : Z)
    (zero : bool) : M state Z :=
  x ← get_pool pool_id;
  if negb (VALID x =? LWMEM_POOL_VALID)
  then _task_set_error MQX_LWMEM_POOL_INVALID;; mret NULL else
  let requested_size := adjust_size requested_size in
  retval ← alloc_at_loop fuel pool_id requested_size requested_addr task_id zero
             (POOL_FREE_LIST_PTR x);
  reset_walks pool_id;;
  out_of_memory retval.

(** How far behind [block_ptr] the aligned block starts (lines 482 to 489). *)
Definition align_shift (block_ptr req_align : Z) : Z :=
  let mask := w32 (Z.lnot (w32 (req_align - 1))) in
  let base := w32 (block_ptr + sizeof_BLOCK) in
  let shift := w32 (Z.land (w32 (base + req_align)) mask - base) in
  if shift <? 2 * LWMEM_MIN_MEMORY_STORAGE_SIZE
  then w32 (Z.land (w32 (base + 3 * LWMEM_MIN_MEMORY_STORAGE_SIZE + req_align)) mask - base)
  else shift.

(** Lines 496 to 557: leave [shift] bytes of the free block in front. *)
Definition alloc_align_carve (pool_id requested_size task_id : Z) (zero : bool)
    (block_ptr shift block_size : Z) : M state Z :=
  let prev_block_ptr := block_ptr in
  let block_ptr := w32 (block_ptr + shift) in
  let block_size := block_size - shift in
  set_BLOCKSIZE prev_block_ptr shift;;
  pnext ← get_NEXTBLOCK prev_block_ptr;
  set_NEXTBLOCK block_ptr pnext;;
  let next_block_size := block_size - requested_size in
  '(requested_size, next_block_ptr) ←
    (if LWMEM_MIN_MEMORY_STORAGE_SIZE <=? next_block_size then
       let next_block_ptr := w32 (block_ptr + requested_size) in
       next ← get_NEXTBLOCK block_ptr;
       prepare_free pool_id next_block_ptr next_block_size next;;
       set_NEXTBLOCK block_ptr next_block_ptr;;
       mret (requested_size, next_block_ptr)
     else
       next_block_ptr ← get_NEXTBLOCK block_ptr;
       mret (block_size, next_block_ptr));
  set_BLOCKSIZE block_ptr requested_size;;
  alloc_finish pool_id requested_size task_id zero block_ptr prev_block_ptr next_block_ptr.

Fixpoint alloc_align_loop (fuel : nat) (pool_id requested_size req_align task_id : Z)
    (zero : bool) (block_ptr : Z) : M state Z :=
  match fuel with
  | O => fault
  | S fuel =>
      if block_ptr =? NULL then mret NULL else
      upd_pool pool_id (with_ALLOC block_ptr);;
      window;;
      x ← get_pool pool_id;
      let block_ptr :=
        if negb (block_ptr =? POOL_ALLOC_PTR x) then POOL_FREE_LIST_PTR x else block_ptr in
      if block_ptr =? NULL then mret NULL else
      let shift := align_shift block_ptr req_align in
      block_size ← get_BLOCKSIZE block_ptr;
      if w32 (requested_size + shift) <=? block_size
      then alloc_align_carve pool_id requested_size task_id zero block_ptr shift block_size
      else
        next ← get_NEXTBLOCK block_ptr;
        alloc_align_loop fuel pool_id requested_size req_align task_id zero next
  end.

Definition _lwmem_alloc_align_internal (fuel : nat) (requested_size req_align task_id pool_id : Z)
    (zero : bool) : M state Z :=
  let requested_size :=
    if requested_size <? LWMEM_MIN_MEMORY_STORAGE_SIZE
    then LWMEM_MIN_MEMORY_STORAGE_SIZE else requested_size in
  if negb (req_align =? 0) && negb (Z.land req_align (w32 (req_align - 1)) =? 0)
  then _task_set_error MQX_INVALID_PARAMETER;; mret NULL else
  let req_align :=
    if req_align <=? PSP_MEMORY_ALIGNMENT then PSP_MEMORY_ALIGNMENT + 1 else req_align in
  x ← get_pool pool_id;
  if negb (VALID x =? LWMEM_POOL_VALID)
  then _task_set_error MQX_LWMEM_POOL_INVALID;; mret NULL else
  let requested_size := adjust_size requested_size in
  retval ← alloc_align_loop fuel pool_id requested_size req_align task_id zero
             (POOL_FREE_LIST_PTR x);
  reset_walks pool_id;;
  out_of_memory retval.

(** ** Release *)

(** The same text at lines 1518 to 1529 and 1558 to 1570: link the released
    block to the next free block, or join the two when they are adjacent. *)
Definition merge_next (block_ptr next : Z) : M state unit :=
  size ← get_BLOCKSIZE block_ptr;
  if w32 (block_ptr + size) =? next then
    nsize ← get_BLOCKSIZE next;
    set_BLOCKSIZE block_ptr (w32 (size + nsize));;
    nnext ← get_NEXTBLOCK next;
    set_NEXTBLOCK block_ptr nnext;;
    _mem_zero next sizeof_BLOCK
  else set_NEXTBLOCK block_ptr next.

(** Lines 1512 to 1549: find the free block after which [block_ptr] belongs.
    The result is [None] when the block became the head of the free list,
    else the block to insert after. *)
Fixpoint free_loop (fuel : nat) (pool_id block_ptr free_list_ptr : Z) : M state (option Z) :=
  match fuel with
  | O => fault
  | S fuel =>
      x ← get_pool pool_id;
      if (POOL_FREE_LIST_PTR x =? NULL) || (block_ptr <? POOL_FREE_LIST_PTR x) then
        let free_list_ptr := POOL_FREE_LIST_PTR x in
        merge_next block_ptr free_list_ptr;;
        upd_pool pool_id (with_FREE_LIST block_ptr);;
        mret None
      else
        next ← get_NEXTBLOCK free_list_ptr;
        if (block_ptr <? next) || (next =? NULL) then mret (Some free_list_ptr) else
        upd_pool pool_id (with_FREE next);;
        window;;
        x ← get_pool pool_id;
        let free_list_ptr :=
          if negb (next =? POOL_FREE_PTR x) then POOL_FREE_LIST_PTR x else next in
        free_loop fuel pool_id block_ptr free_list_ptr
  end.

(** Lines 1572 to 1582: join with the previous free block where adjacent. *)
Definition merge_prev (free_list_ptr block_ptr : Z) : M state unit :=
  fsize ← get_BLOCKSIZE free_list_ptr;
  if w32 (free_list_ptr + fsize) =? block_ptr then
    size ← get_BLOCKSIZE block_ptr;
    set_BLOCKSIZE free_list_ptr (w32 (fsize + size));;
    next ← get_NEXTBLOCK block_ptr;
    set_NEXTBLOCK free_list_ptr next;;
    _mem_zero block_ptr sizeof_BLOCK
  else set_NEXTBLOCK free_list_ptr block_ptr.

(** Lines 1558 to 1582: link after [free_list_ptr]. *)
Definition free_insert (block_ptr free_list_ptr : Z) : M state unit :=
  next ← get_NEXTBLOCK free_list_ptr;
  merge_next block_ptr next;;
  merge_prev free_list_ptr block_ptr.

(** Lines 1510 to 1584. *)
Definition free_place (fuel : nat) (pool_id block_ptr free_list_ptr : Z) : M state unit :=
  insert ← free_loop fuel pool_id block_ptr free_list_ptr;
  match insert with
  | Some free_list_ptr => free_insert block_ptr free_list_ptr
  | None => mret tt
  end.

Definition _lwmem_free (fuel : nat) (mem_ptr : Z) : M state Z :=
  if mem_ptr =? NULL
  then _task_set_error MQX_INVALID_POINTER;; mret MQX_INVALID_POINTER else
  let block_ptr := GET_LWMEMBLOCK_PTR mem_ptr in
  pool_id ← get_POOL block_ptr;
  x ← get_pool pool_id;
  if negb (VALID x =? LWMEM_POOL_VALID)
  then _task_set_error MQX_LWMEM_POOL_INVALID;; mret MQX_LWMEM_POOL_INVALID else
  tn ← get_TASK_NUMBER block_ptr;
  active ← gets ACTIVE_TASK_ID;
  if negb ((tn =? TASK_NUMBER_FROM_TASKID active) || (tn =? SYSTEM_TASK_NUMBER))
  then _task_set_error MQX_NOT_RESOURCE_OWNER;; mret MQX_NOT_RESOURCE_OWNER else
  free_place fuel pool_id block_ptr (POOL_FREE_LIST_PTR x);;
  reset_walks pool_id;;
  mret MQX_OK.

(** ** Accounting *)

(** Lines 1726 to 1746. *)
Fixpoint get_free_loop (fuel : nat) (pool_id block_ptr total_size : Z) : M state Z :=
  match fuel with
  | O => fault
  | S fuel =>
      if block_ptr =? NULL then mret total_size else
      upd_pool pool_id (with_ALLOC block_ptr);;
      window;;
      x ← get_pool pool_id;
      if negb (block_ptr =? POOL_ALLOC_PTR x)
      then get_free_loop fuel pool_id (POOL_FREE_LIST_PTR x) 0 else
      size ← get_BLOCKSIZE block_ptr;
      next ← get_NEXTBLOCK block_ptr;
      get_free_loop fuel pool_id next (w32 (total_size + size))
  end.

Definition _lwmem_get_free_internal (fuel : nat) (pool_id : Z) : M state Z :=
  x ← get_pool pool_id;
  if negb (VALID x =? LWMEM_POOL_VALID)
  then _task_set_error MQX_LWMEM_POOL_INVALID;; mret 0 else
  get_free_loop fuel pool_id (POOL_FREE_LIST_PTR x) 0.

Definition _lwmem_get_free_from (fuel : nat) (pool_id : Z) : M state Z :=
  _lwmem_get_free_internal fuel pool_id.

Definition _lwmem_get_free (fuel : nat) : M state Z :=
  pool_id ← gets KERNEL_LWMEM_POOL; _lwmem_get_free_internal fuel pool_id.

(** ** Self test *)

(** Lines 2330 to 2344: every block of the pool carries the pool's id.
    [Some b]: the block in error. *)
Fixpoint test_blocks (fuel : nat) (pool_id block_ptr : Z) : M state (option Z) :=
  match fuel with
  | O => fault
  | S fuel =>
      x ← get_pool pool_id;
      if negb (block_ptr <? POOL_ALLOC_END_PTR x) then mret None else
      upd_pool pool_id (with_TEST2 block_ptr);;
      window;;
      x ← get_pool pool_id;
      let block_ptr := POOL_TEST2_PTR x in
      p ← get_POOL block_ptr;
      if negb (p =? pool_id) then mret (Some block_ptr) else
      size ← get_BLOCKSIZE block_ptr;
      test_blocks fuel pool_id (w32 (block_ptr + size))
  end.

(** Lines 2348 to 2367: the free list stays in the pool and is ascending. *)
Fixpoint test_free_list (fuel : nat) (pool_id block_ptr : Z) : M state (option Z) :=
  match fuel with
  | O => fault
  | S fuel =>
      if block_ptr =? NULL then mret None else
      upd_pool pool_id (with_TEST block_ptr);;
      window;;
      x ← get_pool pool_id;
      let block_ptr := POOL_TEST_PTR x in
      if (block_ptr <? POOL_ALLOC_START_PTR x) || (POOL_ALLOC_END_PTR x <? block_ptr)
      then mret (Some block_ptr) else
      p ← get_POOL block_ptr;
      if negb (p =? pool_id) then mret (Some block_ptr) else
      next ← get_NEXTBLOCK block_ptr;
      size ← get_BLOCKSIZE block_ptr;
      if negb (next =? NULL) && (next <=? w32 (block_ptr + size))
      then mret (Some block_ptr) else
      test_free_list fuel pool_id next
  end.

(** The loop over the pools; the result is the error code with
    [*pool_error_ptr] and [*block_error_ptr]. *)
Fixpoint test_pools (fuel : nat) (ids : list Z) : M state (Z * Z * Z) :=
  match ids with
  | [] => mret (MQX_OK, NULL, NULL)
  | id :: ids =>
      x ← get_pool id;
      if negb (VALID x =? LWMEM_POOL_VALID)
      then mret (MQX_LWMEM_POOL_INVALID, id, NULL) else
      e ← test_blocks fuel id (POOL_ALLOC_START_PTR x);
      match e with
      | Some b => mret (MQX_CORRUPT_STORAGE_POOL, id, b)
      | None =>
          x ← get_pool id;
          e ← test_free_list fuel id (POOL_FREE_LIST_PTR x);
          match e with
          | Some b => mret (MQX_CORRUPT_STORAGE_POOL_FREE_LIST, id, b)
          | None => test_pools fuel ids
          end
      end
  end.

(** The queue of pools is kept as the list it represents (see [Queue]), on
    which [_queue_test] succeeds.  [None] is returned for the error pointers
    when they are not written. *)
Definition _lwmem_test (fuel : nat) : M state (Z * option (Z * Z)) :=
  ps ← gets LWMEM_POOLS;
  match ps with
  | None => mret (MQX_OK, None)
  | Some ids =>
      '(r, pe, be) ← test_pools fuel ids;
      mret (r, Some (pe, be))
  end.

(** ** The public allocation functions *)

Definition _lwmem_alloc (fuel : nat) (requested_size : Z) : M state Z :=
  t ← gets ACTIVE_TASK_ID; p ← gets KERNEL_LWMEM_POOL;
  _lwmem_alloc_internal fuel requested_size t p false.
Definition _lwmem_alloc_at (fuel : nat) (requested_size requested_addr : Z) : M state Z :=
  t ← gets ACTIVE_TASK_ID; p ← gets KERNEL_LWMEM_POOL;
  _lwmem_alloc_at_internal fuel requested_size requested_addr t p false.
Definition _lwmem_alloc_align (fuel : nat) (requested_size req_align : Z) : M state Z :=
  t ← gets ACTIVE_TASK_ID; p ← gets KERNEL_LWMEM_POOL;
  _lwmem_alloc_align_internal fuel requested_size req_align t p false.
Definition _lwmem_alloc_from (fuel : nat) (pool_id requested_size : Z) : M state Z :=
  t ← gets ACTIVE_TASK_ID; _lwmem_alloc_internal fuel requested_size t pool_id false.
Definition _lwmem_alloc_align_from (fuel : nat) (pool_id requested_size req_align : Z) : M state Z :=
  t ← gets ACTIVE_TASK_ID;
  _lwmem_alloc_align_internal fuel requested_size req_align t pool_id false.
Definition _lwmem_alloc_zero (fuel : nat) (size : Z) : M state Z :=
  t ← gets ACTIVE_TASK_ID; p ← gets KERNEL_LWMEM_POOL;
  _lwmem_alloc_internal fuel size t p true.
Definition _lwmem_alloc_zero_from (fuel : nat) (pool_id size : Z) : M state Z :=
  t ← gets ACTIVE_TASK_ID; _lwmem_alloc_internal fuel size t pool_id true.
Definition _lwmem_alloc_system_from (fuel : nat) (pool_id size : Z) : M state Z :=
  t ← gets SYSTEM_TASK_ID; _lwmem_alloc_internal fuel size t pool_id false.
Definition _lwmem_alloc_system (fuel : nat) (size : Z) : M state Z :=
  t ← gets SYSTEM_TASK_ID; p ← gets KERNEL_LWMEM_POOL;
  _lwmem_alloc_internal fuel size t p false.
Definition _lwmem_alloc_system_align (fuel : nat) (size req_align : Z) : M state Z :=
  t ← gets SYSTEM_TASK_ID; p ← gets KERNEL_LWMEM_POOL;
  _lwmem_alloc_align_internal fuel size req_align t p false.
Definition _lwmem_alloc_system_align_from (fuel : nat) (pool_id requested_size req_align : Z)
  : M state Z :=
  t ← gets SYSTEM_TASK_ID;
  _lwmem_alloc_align_internal fuel requested_size req_align t pool_id false.

Definition _lwmem_alloc_system_zero_from (fuel : nat) (pool_id size : Z) : M state Z :=
  t ← gets SYSTEM_TASK_ID; _lwmem_alloc_internal fuel size t pool_id true.
Definition _lwmem_alloc_system_zero (fuel : nat) (size : Z) : M state Z :=
  t ← gets SYSTEM_TASK_ID; p ← gets KERNEL_LWMEM_POOL;
  _lwmem_alloc_internal fuel size t p true.

End Walks.

(** ** Pools and single-block operations *)

Definition _lwmem_create_pool (mem_pool_ptr start size : Z) : M state Z :=
  let stop := w32 (start + size) in
  let POOL_END := _ALIGN_ADDR_TO_LOWER_MEM stop in
  let block_ptr := _ALIGN_ADDR_TO_HIGHER_MEM start in
  set_BLOCKSIZE block_ptr (w32 (POOL_END - block_ptr));;
  set_NEXTBLOCK block_ptr NULL;;
  set_POOL block_ptr mem_pool_ptr;;
  x ← get_pool mem_pool_ptr;
  upd_pool mem_pool_ptr (fun x =>
    Pool (VALID x) block_ptr POOL_END block_ptr block_ptr block_ptr block_ptr
         (POOL_TEST2_PTR x) (POOL_DESTROY_PTR x) block_ptr);;
  ps ← gets LWMEM_POOLS;
  modify (set_POOLS (Some (default [] ps ++ [mem_pool_ptr])));;
  upd_pool mem_pool_ptr (fun x =>
    Pool LWMEM_POOL_VALID (POOL_ALLOC_START_PTR x) (POOL_ALLOC_END_PTR x)
         (POOL_FREE_LIST_PTR x) (POOL_ALLOC_PTR x) (POOL_FREE_PTR x) (POOL_TEST_PTR x)
         (POOL_TEST2_PTR x) (POOL_DESTROY_PTR x) (HIGHWATER x));;
  mret mem_pool_ptr.

Definition _lwmem_get_system_pool_id : M state Z := gets KERNEL_LWMEM_POOL.

Definition _lwmem_set_default_pool (pool_id : Z) : M state Z :=
  old_pool_id ← gets KERNEL_LWMEM_POOL;
  modify (set_KERNEL_POOL pool_id);;
  mret old_pool_id.

Definition _lwmem_get_size (mem_ptr : Z) : M state Z :=
  if mem_ptr =? NULL then _task_set_error MQX_INVALID_POINTER;; mret 0 else
  let block_ptr := GET_LWMEMBLOCK_PTR mem_ptr in
  size ← get_BLOCKSIZE block_ptr;
  if size <=? sizeof_BLOCK then _task_set_error MQX_INVALID_POINTER;; mret 0 else
  mret (size - sizeof_BLOCK).

Definition _lwmem_get_type (mem_ptr : Z) : M state Z :=
  get_MEM_TYPE (GET_LWMEMBLOCK_PTR mem_ptr).

Definition _lwmem_set_type (mem_ptr mem_type : Z) : M state bool :=
  if negb (mem_ptr =? NULL)
  then set_MEM_TYPE (GET_LWMEMBLOCK_PTR mem_ptr) mem_type;; mret true
  else mret false.

Definition _lwmem_get_highwater : M state Z :=
  p ← gets KERNEL_LWMEM_POOL; x ← get_pool p; mret (HIGHWATER x).

Definition _lwmem_transfer_internal (memory_ptr target_task_id : Z) : M state unit :=
  set_TASK_NUMBER (GET_LWMEMBLOCK_PTR memory_ptr) (TASK_NUMBER_FROM_TASKID target_task_id).

Definition _lwmem_transfer_td_internal (memory_ptr target_task_id : Z) : M state Z :=
  set_TASK_NUMBER (GET_LWMEMBLOCK_PTR memory_ptr) (TASK_NUMBER_FROM_TASKID target_task_id);;
  mret MQX_OK.

(** ** The pool as a list of adjacent blocks *)

Inductive kind := Free | Used (u : Z).

(** Size and kind of each block, in address order; [u] is the word [U]. *)
Abbreviation blocks := (list (Z * kind)).

Fixpoint endof (a : Z) (l : blocks) : Z :=
  match l with [] => a | (sz, _) :: l' => sz + endof a l' end.

(** Address of the first free block of [l], which starts at [a]; [n] if none. *)
Fixpoint first_free (a : Z) (l : blocks) (n : Z) : Z :=
  match l with
  | [] => n
  | (sz, Free) :: _ => a
  | (sz, Used _) :: l' => first_free (a + sz) l' n
  end.

(** Address of the last free block of [l]. *)
Fixpoint last_free (a : Z) (l : blocks) : option Z :=
  match l with
  | [] => None
  | (sz, k) :: l' =>
      match last_free (a + sz) l' with
      | Some b => Some b
      | None => match k with Free => Some a | Used _ => None end
      end
  end.

(** The words of [m] from [a] to [e] are the blocks [l] of pool [p]; the free
    blocks are linked in order and the last one's [NEXTBLOCK] is [n]. *)
Fixpoint heap (m : gmap Z Z) (p a : Z) (l : blocks) (e n : Z) : Prop :=
  match l with
  | [] => a = e
  | (sz, k) :: l' =>
      16 <= sz /\ sz mod 4 = 0 /\
      m !! a = Some sz /\ m !! (a + 4) = Some p /\
      m !! (a + 8) = Some (match k with Free => first_free (a + sz) l' n | Used u => u end) /\
      heap m p (a + sz) l' e n
  end.

Definition mapped (m : gmap Z Z) (lo hi : Z) : Prop :=
  forall a, lo <= a < hi -> a mod 4 = 0 -> is_Some (m !! a).

Definition agree (m m' : gmap Z Z) (lo hi : Z) : Prop :=
  forall a, lo <= a < hi -> m' !! a = m !! a.

(** Pool [p] is valid and consists of the blocks [l]. *)
Record pool_wf (s : state) (p : Z) (x : pool) (l : blocks) : Prop := {
  wf_pool : pools s !! p = Some x;
  wf_valid : VALID x = LWMEM_POOL_VALID;
  wf_start : 0 < POOL_ALLOC_START_PTR x;
  wf_start_aligned : POOL_ALLOC_START_PTR x mod 4 = 0;
  wf_end : POOL_ALLOC_END_PTR x < 4294967296;
  wf_mapped : mapped (mem s) (POOL_ALLOC_START_PTR x) (POOL_ALLOC_END_PTR x);
  wf_heap : heap (mem s) p (POOL_ALLOC_START_PTR x) l (POOL_ALLOC_END_PTR x) 0;
  wf_free : POOL_FREE_LIST_PTR x = first_free (POOL_ALLOC_START_PTR x) l 0
}.

(** The position of every block. *)
Fixpoint layout (a : Z) (l : blocks) : list (Z * Z * kind) :=
  match l with
  | [] => []
  | (sz, k) :: l' => (a, sz, k) :: layout (a + sz) l'
  end.

(** No two free blocks are adjacent. *)
Fixpoint coalesced (l : blocks) : Prop :=
  match l with
  | (_, Free) :: (((_, k) :: _) as l') => k <> Free /\ coalesced l'
  | _ :: l' => coalesced l'
  | [] => True
  end.

(** ** List facts *)

Lemma endof_shift a l d : endof (a + d) l = endof a l + d.
Proof. induction l as [|[sz k] l IH]; simpl; [done|]. rewrite IH. lia. Qed.

Lemma first_free_app a l1 l2 n :
  first_free a (l1 ++ l2) n = first_free a l1 (first_free (endof a l1) l2 n).
Proof.
  revert a. induction l1 as [|[sz [|u]] l1 IH]; intros a; simpl; [done..|].
  rewrite IH, endof_shift, (Z.add_comm (endof a l1)). done.
Qed.

Lemma endof_cons a sz k l : endof (a + sz) l = endof a ((sz, k) :: l).
Proof. simpl. rewrite endof_shift. lia. Qed.

Lemma endof_app a l1 l2 : endof a (l1 ++ l2) = endof (endof a l1) l2.
Proof.
  induction l1 as [|[sz k] l1 IH]; simpl; [done|].
  rewrite IH, (Z.add_comm sz (endof a l1)), endof_shift. lia.
Qed.

Lemma last_free_app a l1 l2 :
  last_free a (l1 ++ l2) =
  match last_free (endof a l1) l2 with Some b => Some b | None => last_free a l1 end.
Proof.
  revert a. induction l1 as [|[sz k] l1 IH]; intros a; simpl.
  - by destruct (last_free a l2).
  - rewrite IH, endof_shift, (Z.add_comm (endof a l1)). by destruct (last_free _ l2).
Qed.

Lemma first_free_none a l n : last_free a l = None -> first_free a l n = n.
Proof.
  revert a. induction l as [|[sz k] l IH]; intros a H; simpl in *; [done|].
  destruct (last_free (a + sz) l) eqn:E; [done|]. destruct k; [done|]. by apply IH.
Qed.

Lemma first_free_some a l b n n' :
  last_free a l = Some b -> first_free a l n = first_free a l n'.
Proof.
  revert a. induction l as [|[sz k] l IH]; intros a H; simpl in *; [done|].
  destruct k; [done|]. destruct (last_free (a + sz) l) eqn:E; simplify_eq. by apply IH.
Qed.

(** ** Heap facts *)

Lemma heap_end m p a l e n : heap m p a l e n -> e = endof a l.
Proof.
  revert a. induction l as [|[sz k] l IH]; intros a; simpl; [by intros ->|].
  intros (_ & _ & _ & _ & _ & H). apply IH in H as ->. rewrite endof_shift. lia.
Qed.

Lemma heap_le m p a l e n : heap m p a l e n -> a <= e.
Proof.
  revert a. induction l as [|[sz k] l IH]; intros a; simpl; [lia|].
  intros (? & _ & _ & _ & _ & H). apply IH in H. lia.
Qed.

Lemma heap_aligned m p a l e n : heap m p a l e n -> a mod 4 = 0 -> e mod 4 = 0.
Proof.
  revert a. induction l as [|[sz k] l IH]; intros a; simpl; [by intros ->|].
  intros (_ & Hs & _ & _ & _ & H) Ha. eapply IH; [done|]. zdm.
Qed.

Lemma heap_app m p a l1 l2 e n :
  heap m p a (l1 ++ l2) e n <->
  heap m p a l1 (endof a l1) (first_free (endof a l1) l2 n) /\ heap m p (endof a l1) l2 e n.
Proof.
  revert a. induction l1 as [|[sz k] l1 IH]; intros a; simpl; [tauto|].
  rewrite IH, endof_shift, (Z.add_comm (endof a l1)).
  assert (first_free (a + sz) (l1 ++ l2) n =
          first_free (a + sz) l1 (first_free (sz + endof a l1) l2 n)) as ->; [|tauto].
  rewrite first_free_app, endof_shift. by rewrite (Z.add_comm sz (endof a l1)).
Qed.

Lemma heap_frame m m' p a l e n :
  heap m p a l e n -> agree m m' a e -> heap m' p a l e n.
Proof.
  revert a. induction l as [|[sz k] l IH]; intros a; simpl; [done|].
  intros (H1 & H2 & H3 & H4 & H5 & H6) Hag. pose proof (heap_le _ _ _ _ _ _ H6).
  split_and!; [done|done|rewrite Hag by lia; done|rewrite Hag by lia; done
              |rewrite Hag by lia; done|].
  apply IH; [done|]. intros x Hx. apply Hag. lia.
Qed.

Lemma last_free_range m p a l e n b :
  heap m p a l e n -> last_free a l = Some b -> a <= b /\ b + 16 <= e.
Proof.
  revert a. induction l as [|[sz k] l IH]; intros a; simpl; [done|].
  intros (H1 & _ & _ & _ & _ & H6) Hb. pose proof (heap_le _ _ _ _ _ _ H6).
  destruct (last_free (a + sz) l) eqn:E.
  - simplify_eq. destruct (IH _ H6 E). lia.
  - destruct k; simplify_eq. lia.
Qed.

Lemma last_free_aligned m p a l e n b :
  heap m p a l e n -> a mod 4 = 0 -> last_free a l = Some b -> b mod 4 = 0.
Proof.
  revert a. induction l as [|[sz k] l IH]; intros a; simpl; [done|].
  intros (_ & H2 & _ & _ & _ & H6) Ha Hb.
  destruct (last_free (a + sz) l) eqn:E.
  - simplify_eq. eapply IH; [done| |done]. zdm.
  - by destruct k; simplify_eq.
Qed.

(** Redirect the last free block of a segment. *)
Lemma heap_relink m p a l e n b n' :
  heap m p a l e n -> last_free a l = Some b ->
  heap (<[b + 8 := n']> m) p a l e n'.
Proof.
  revert a. induction l as [|[sz k] l IH]; intros a; simpl; [done|].
  intros (H1 & H2 & H3 & H4 & H5 & H6) Hb. pose proof (heap_le _ _ _ _ _ _ H6).
  destruct (last_free (a + sz) l) eqn:E.
  - simplify_eq. destruct (last_free_range _ _ _ _ _ _ _ H6 E).
    rewrite !lookup_insert_ne by lia.
    rewrite (first_free_some _ _ b n' n) by done.
    split_and!; [done..|]. by apply IH.
  - destruct k; [|done]. simplify_eq.
    rewrite !lookup_insert_ne by lia. rewrite lookup_insert_eq.
    rewrite first_free_none by done. split_and!; [done..|].
    apply (heap_frame m).
    + clear -H6 E. revert H6 E. generalize (b + sz). induction l as [|[z k] l IH];
        intros a H6 E; simpl in *; [done|].
      destruct H6 as (? & ? & ? & ? & ? & ?).
      destruct (last_free (a + z) l) eqn:E'; [done|]. destruct k; [done|].
      split_and!; [done..|]. by apply IH.
    + intros x Hx. rewrite lookup_insert_ne by lia. done.
Qed.

Lemma heap_retarget m p a l e n n' :
  heap m p a l e n -> last_free a l = None -> heap m p a l e n'.
Proof.
  revert a. induction l as [|[z k] l IH]; intros a H6 E; simpl in *; [done|].
  destruct H6 as (? & ? & ? & ? & ? & ?).
  destruct (last_free (a + z) l) eqn:E'; [done|]. destruct k; [done|].
  split_and!; [done..|]. by apply IH.
Qed.

(** ** One-step rules *)

Lemma load_run s a v : mem s !! a = Some v -> load a s = Some (v, s).
Proof. intros H. unfold load. by rewrite H. Qed.

Lemma store_run s a v : is_Some (mem s !! a) ->
  store a v s = Some (tt, set_mem (<[a:=v]>) s).
Proof. intros [w H]. unfold store. by rewrite H. Qed.

Lemma get_pool_run s p x : pools s !! p = Some x -> get_pool p s = Some (x, s).
Proof. intros H. unfold get_pool. by rewrite H. Qed.

Lemma upd_pool_run s p x f : pools s !! p = Some x ->
  upd_pool p f s = Some (tt, set_pools (<[p:=f x]>) s).
Proof. intros H. unfold upd_pool. by rewrite H. Qed.

(** Resolve lookups in updated memories, addresses being compared by [lia]. *)
Ltac mlook := simpl; repeat first [rewrite lookup_insert_eq | rewrite lookup_insert_ne by lia].

Ltac mgo :=
  first [ erewrite bind_run by (apply get_pool_run; mlook; first [eassumption | reflexivity])
        | erewrite bind_run by (eapply upd_pool_run; mlook; first [eassumption | reflexivity])
        | erewrite bind_run by (apply load_run; mlook; first [eassumption | reflexivity])
        | erewrite bind_run by (eapply store_run; mlook; eauto) ].

Lemma prepare_free_run s p nb sz nx :
  is_Some (mem s !! nb) -> is_Some (mem s !! (nb + 4)) -> is_Some (mem s !! (nb + 8)) ->
  prepare_free p nb sz nx s =
  Some (tt, set_mem (fun m => <[nb + 8 := nx]> (<[nb + 4 := p]> (<[nb := sz]> m))) s).
Proof.
  intros H1 H2 H3. unfold prepare_free, set_BLOCKSIZE, set_POOL, set_NEXTBLOCK.
  mgo. mgo. erewrite store_run by (mlook; eauto). done.
Qed.

Lemma TASK_NUMBER_range t : 0 <= TASK_NUMBER_FROM_TASKID t < 65536.
Proof.
  unfold TASK_NUMBER_FROM_TASKID. change 65535 with (Z.ones 16).
  rewrite Z.land_ones by lia. apply (Z.mod_pos_bound t (2 ^ 16)). lia.
Qed.

Lemma with_HIGHWATER_id x : with_HIGHWATER (HIGHWATER x) x = x.
Proof. by destruct x. Qed.

Lemma mark_used_run s p x b wm t szw :
  pools s !! p = Some x -> is_Some (mem s !! (b + 4)) -> is_Some (mem s !! (b + 8)) ->
  mem s !! wm = Some szw -> wm <> b + 4 -> wm <> b + 8 ->
  mark_used p b wm t s =
  Some (tt, set_pools (<[p := with_HIGHWATER (Z.max (HIGHWATER x) (w32 (wm + szw - 1))) x]>)
              (set_mem (fun m => <[b + 4 := p]> (<[b + 8 := TASK_NUMBER_FROM_TASKID t]> m)) s)).
Proof.
  intros Hx H4 [u H8] Hwm Hn4 Hn8. pose proof (TASK_NUMBER_range t) as Ht.
  unfold mark_used, set_TASK_NUMBER, set_MEM_TYPE, set_POOL, get_BLOCKSIZE.
  rewrite bind_assoc. mgo. mgo. rewrite bind_assoc. mgo. mgo. mgo. mgo. mgo.
  assert (w16 0 * 65536 + w16 (u / 65536 * 65536 + w16 (TASK_NUMBER_FROM_TASKID t)) =
          TASK_NUMBER_FROM_TASKID t) as ->.
  { rewrite (wrap_small 16 (TASK_NUMBER_FROM_TASKID t)) by lia. unfold wrap.
    change (2 ^ 16) with 65536. rewrite (Z.add_comm (u / 65536 * 65536)), Z_mod_plus_full, !Z.mod_small by lia. lia. }
  set (h := w32 (wm + szw - 1)).
  destruct (HIGHWATER x <? h) eqn:E; zreflect.
  - erewrite upd_pool_run by (mlook; eassumption). rewrite Z.max_r by lia.
    unfold set_pools, set_mem; simpl. by rewrite insert_insert_eq.
  - rewrite Z.max_l, with_HIGHWATER_id by lia. unfold mret, M_ret.
    unfold set_pools, set_mem; simpl. rewrite insert_insert_eq.
    by rewrite (insert_id (pools s) p x).
Qed.

Lemma zero_words_run n : forall s a,
  (forall i, 0 <= i < Z.of_nat n -> is_Some (mem s !! (a + 4 * i))) ->
  exists m', zero_words a n s = Some (tt, set_mem (fun _ => m') s) /\
    (forall i, 0 <= i < Z.of_nat n -> m' !! (a + 4 * i) = Some 0) /\
    (forall y, (forall i, 0 <= i < Z.of_nat n -> y <> a + 4 * i) -> m' !! y = mem s !! y).
Proof.
  induction n as [|n IH]; intros s a Hm; simpl.
  - exists (mem s). split_and!; [by destruct s|lia|done].
  - destruct (IH (set_mem (<[a:=0]>) s) (a + 4)) as (m' & H1 & H2 & H3).
    { intros i Hi. mlook. replace (a + 4 + 4 * i) with (a + 4 * (i + 1)) by lia. apply Hm. lia. }
    exists m'. split_and!.
    + erewrite bind_run; [exact H1|]. apply store_run.
      replace a with (a + 4 * 0) by lia. apply Hm. lia.
    + intros i Hi. destruct (decide (i = 0)) as [->|].
      * rewrite H3 by lia. simpl. rewrite Z.add_0_r. apply lookup_insert_eq.
      * replace (a + 4 * i) with (a + 4 + 4 * (i - 1)) by lia. apply H2. lia.
    + intros y Hy. rewrite H3.
      * simpl. rewrite lookup_insert_ne; [done|]. specialize (Hy 0). lia.
      * intros i Hi Heq. apply (Hy (i + 1)); lia.
Qed.

Lemma mem_zero_run s a n :
  0 <= n -> n mod 4 = 0 -> a mod 4 = 0 -> mapped (mem s) a (a + n) ->
  exists m', _mem_zero a n s = Some (tt, set_mem (fun _ => m') s) /\
    (forall y, a <= y < a + n -> y mod 4 = 0 -> m' !! y = Some 0) /\
    (forall y, y < a \/ a + n <= y -> m' !! y = mem s !! y) /\
    (forall lo hi, mapped (mem s) lo hi -> mapped m' lo hi).
Proof.
  intros Hn Hn4 Ha Hm. unfold _mem_zero.
  rewrite Z.shiftr_div_pow2 by lia. change (2 ^ 2) with 4.
  destruct (zero_words_run (Z.to_nat (n / 4)) s a) as (m' & H1 & H2 & H3).
  { intros i Hi. apply Hm; zdm. }
  assert (forall y, a <= y < a + n -> y mod 4 = 0 -> m' !! y = Some 0) as Hz.
  { intros y Hy Hy4. replace y with (a + 4 * ((y - a) / 4)) by zdm. apply H2. zdm. }
  exists m'. split_and!; [done|done| |].
  - intros y Hy. apply H3. intros i Hi. zdm.
  - intros lo hi Hlh y Hy Hy4. destruct (decide (a <= y < a + n)) as [Hin|Hout].
    + rewrite Hz by done. eauto.
    + rewrite H3; [by apply Hlh|]. intros i Hi. zdm.
Qed.

(** ** Replacing the middle of a pool *)

(** [m] with the last free block of [l] redirected to [n]. *)
Definition relink (a : Z) (l : blocks) (n : Z) (m : gmap Z Z) : gmap Z Z :=
  match last_free a l with Some b => <[b + 8 := n]> m | None => m end.

Lemma heap_relinked m p a l e n n' :
  heap m p a l e n -> heap (relink a l n' m) p a l e n'.
Proof.
  intros H. unfold relink. destruct (last_free a l) eqn:E.
  - by eapply heap_relink.
  - by eapply heap_retarget.
Qed.

Record same_pool (x x' : pool) : Prop := {
  sp_valid : VALID x' = VALID x;
  sp_start : POOL_ALLOC_START_PTR x' = POOL_ALLOC_START_PTR x;
  sp_end : POOL_ALLOC_END_PTR x' = POOL_ALLOC_END_PTR x
}.

Lemma wf_replace s s' p x x' l1 mid mid' l2 :
  let a := POOL_ALLOC_START_PTR x in
  let b := endof a l1 in
  let c := endof b mid in
  let n := first_free c l2 0 in
  pool_wf s p x (l1 ++ mid ++ l2) ->
  endof b mid' = c ->
  heap (mem s') p b mid' c n ->
  agree (mem s) (mem s') c (POOL_ALLOC_END_PTR x) ->
  agree (relink a l1 (first_free b mid' n) (mem s)) (mem s') a b ->
  pools s' !! p = Some x' -> same_pool x x' ->
  POOL_FREE_LIST_PTR x' = match last_free a l1 with
                          | Some _ => POOL_FREE_LIST_PTR x
                          | None => first_free b mid' n
                          end ->
  mapped (mem s') a (POOL_ALLOC_END_PTR x) ->
  pool_wf s' p x' (l1 ++ mid' ++ l2).
Proof.
  intros a b c n [H1 H2 H3 H4 H5 H6 H7 H8] Hc Hmid Hag2 Hag1 Hp [S1 S2 S3] Hfl Hm.
  apply heap_app in H7 as [Ha Hb]. apply heap_app in Hb as [Hb Hd].
  split; rewrite ?S1, ?S2, ?S3; try done.
  - apply heap_app. fold a b. split.
    + rewrite first_free_app, Hc. eapply heap_frame; [|done]. by eapply heap_relinked.
    + apply heap_app. rewrite Hc. split; [done|]. by eapply heap_frame.
  - rewrite Hfl, first_free_app, first_free_app. fold a b. rewrite Hc. fold n.
    destruct (last_free a l1) eqn:E.
    + rewrite H8, first_free_app. by eapply first_free_some.
    + symmetry. by apply first_free_none.
Qed.

(** ** Allocation on a pool *)

Definition updated (s : state) (m : gmap Z Z) (p : Z) (x : pool) : state :=
  State m (<[p:=x]> (pools s)) (LWMEM_POOLS s) (KERNEL_LWMEM_POOL s)
        (ACTIVE_TASK_ID s) (SYSTEM_TASK_ID s) (TASK_ERROR_CODE s).


(** Everything in use keeps its contents. *)
Definition keeps_used (m m' : gmap Z Z) (a : Z) (l : blocks) : Prop :=
  forall ad sz u, (ad, sz, Used u) ∈ layout a l -> agree m m' ad (ad + sz).

Lemma layout_app a l1 l2 : layout a (l1 ++ l2) = layout a l1 ++ layout (endof a l1) l2.
Proof.
  revert a. induction l1 as [|[sz k] l1 IH]; intros a; simpl; [done|].
  by rewrite IH, endof_shift, (Z.add_comm sz).
Qed.

Lemma layout_range m p a l e n ad sz k :
  heap m p a l e n -> (ad, sz, k) ∈ layout a l -> a <= ad /\ ad + sz <= e.
Proof.
  revert a. induction l as [|[z k'] l IH]; intros a; simpl; [set_solver|].
  intros (H1 & _ & _ & _ & _ & H6) Hin. pose proof (heap_le _ _ _ _ _ _ H6).
  apply elem_of_cons in Hin as [[= -> -> ->]|Hin]; [lia|]. apply IH in Hin; [lia|done].
Qed.

Lemma relink_used m p a l e n n' : heap m p a l e n -> keeps_used m (relink a l n' m) a l.
Proof.
  intros Hh ad sz u Hin y Hy. unfold relink. destruct (last_free a l) as [b|] eqn:E; [|done].
  rewrite lookup_insert_ne; [done|]. intros <-.
  revert a Hh E Hin. induction l as [|[z k] l IH]; intros a Hh E Hin; simpl in *; [done|].
  destruct Hh as (H1 & _ & _ & _ & _ & H6).
  destruct (last_free (a + z) l) as [b'|] eqn:E'; simplify_eq.
  - pose proof (last_free_range _ _ _ _ _ _ _ H6 E').
    apply elem_of_cons in Hin as [?|Hin]; [simplify_eq; lia|]. by eapply (IH (a + z)).
  - destruct k; [|done]. simplify_eq. apply elem_of_cons in Hin as [?|Hin]; [done|].
    pose proof (layout_range _ _ _ _ _ _ _ _ _ H6 Hin). lia.
Qed.

(** Consistency between the block to take and the pointers the code follows:
    either it heads the free list or [prev] is the free block before it. *)
Definition prev_ok (a : Z) (l1 : blocks) (b fl prev : Z) : Prop :=
  match last_free a l1 with
  | Some b0 => prev = b0 /\ b <> fl
  | None => b = fl
  end.

Lemma alloc_finish_run s p x a l1 b req t zero prev nx :
  pools s !! p = Some x -> prev_ok a l1 b (POOL_FREE_LIST_PTR x) prev ->
  (forall b0, last_free a l1 = Some b0 -> is_Some (mem s !! (b0 + 8)) /\ b0 + 16 <= b) ->
  mem s !! b = Some req -> 16 <= req -> req mod 4 = 0 -> b mod 4 = 0 -> 0 < b ->
  b + req < 4294967296 -> mapped (mem s) b (b + req) ->
  exists m' x', alloc_finish p req t zero b prev nx s = Some (b + 12, updated s m' p x') /\
    same_pool x x' /\
    POOL_FREE_LIST_PTR x' = (match last_free a l1 with
                             | Some _ => POOL_FREE_LIST_PTR x | None => nx end) /\
    HIGHWATER x' = Z.max (HIGHWATER x) (b + req - 1) /\
    m' !! b = Some req /\ m' !! (b + 4) = Some p /\
    m' !! (b + 8) = Some (TASK_NUMBER_FROM_TASKID t) /\
    (forall y, y < b -> m' !! y = relink a l1 nx (mem s) !! y) /\
    (forall y, b + req <= y -> m' !! y = mem s !! y) /\
    (zero = true -> forall y, b + 12 <= y < b + req -> y mod 4 = 0 -> m' !! y = Some 0) /\
    (forall lo hi, mapped (mem s) lo hi -> mapped m' lo hi).
Proof.
  intros Hp Hprev Hb0 Hb Hreq Hr4 Hb4 Hbpos Hbound Hm.
  set (m1 := relink a l1 nx (mem s)).
  set (x1 := match last_free a l1 with Some _ => x | None => with_FREE_LIST nx x end).
  assert (forall y, b <= y -> m1 !! y = mem s !! y) as Hm1.
  { intros y Hy. unfold m1, relink. destruct (last_free a l1) as [b0|] eqn:E; [|done].
    destruct (Hb0 b0 eq_refl). by rewrite lookup_insert_ne by lia. }
  set (s1 := updated s m1 p x1).
  assert ((if b =? POOL_FREE_LIST_PTR x then upd_pool p (with_FREE_LIST nx)
           else set_NEXTBLOCK prev nx) s = Some (tt, s1)) as Hrun1.
  { unfold prev_ok in Hprev. unfold s1, m1, x1, relink.
    destruct (last_free a l1) as [b0|] eqn:E.
    - destruct Hprev as [-> Hne]. rewrite (proj2 (Z.eqb_neq _ _)) by done.
      unfold set_NEXTBLOCK. rewrite store_run by (by apply Hb0).
      unfold set_mem, updated. by rewrite (insert_id (pools s) p x).
    - subst b. rewrite Z.eqb_refl. by rewrite (upd_pool_run s p x). }
  unfold alloc_finish. erewrite bind_run by (by apply get_pool_run).
  rewrite (bind_run _ _ _ _ _ Hrun1).
  pose proof (mark_used_run s1 p x1 b b t req) as Hmark.
  rewrite (wrap_small 32 (b + req - 1)) in Hmark by lia.
  assert (HIGHWATER x1 = HIGHWATER x) as Hhw by (unfold x1; by destruct (last_free a l1)).
  assert (same_pool x x1) as Hsp by (unfold x1; by destruct (last_free a l1)).
  rewrite (bind_run _ _ _ _ _ (Hmark
    ltac:(simpl; apply lookup_insert_eq)
    ltac:(simpl; rewrite Hm1 by lia; apply Hm; [lia|zdm])
    ltac:(simpl; rewrite Hm1 by lia; apply Hm; [lia|zdm])
    ltac:(simpl; rewrite Hm1 by lia; done) ltac:(lia) ltac:(lia))).
  clear Hmark Hrun1.
  set (m2 := <[b + 4 := p]> (<[b + 8 := TASK_NUMBER_FROM_TASKID t]> m1)).
  set (x2 := with_HIGHWATER (Z.max (HIGHWATER x1) (b + req - 1)) x1).
  set (s2 := set_pools _ _).
  assert (s2 = updated s m2 p x2) as ->.
  { unfold s2, s1, set_pools, set_mem, updated; simpl. by rewrite insert_insert_eq. }
  assert (forall lo hi, mapped (mem s) lo hi -> mapped m2 lo hi) as Hmap2.
  { assert (forall k v (m : gmap Z Z) lo hi, mapped m lo hi -> mapped (<[k:=v]> m) lo hi) as Hi.
    { intros k v m lo hi Hlh y Hy Hy4. rewrite lookup_insert. case_decide; eauto. }
    intros lo hi Hlh. unfold m2, m1, relink. destruct (last_free a l1); auto. }
  unfold sizeof_BLOCK. rewrite (wrap_small 32 (b + 12)), (wrap_small 32 (req - 12)) by lia.
  assert (exists m3, (if zero then _mem_zero (b + 12) (req - 12) else mret tt) (updated s m2 p x2)
            = Some (tt, updated s m3 p x2) /\
    (zero = true -> forall y, b + 12 <= y < b + req -> y mod 4 = 0 -> m3 !! y = Some 0) /\
    (forall y, y < b + 12 \/ b + req <= y -> m3 !! y = m2 !! y) /\
    (forall lo hi, mapped (mem s) lo hi -> mapped m3 lo hi)) as (m3 & Hrun3 & Hz & Hout & Hmap3).
  { destruct zero.
    - destruct (mem_zero_run (updated s m2 p x2) (b + 12) (req - 12)) as (m3 & R1 & R2 & R3 & R4);
        [lia|zdm|zdm| |].
      { simpl. intros y Hy Hy4. apply (Hmap2 b (b + req) Hm); [lia|done]. }
      exists m3. split_and!; [exact R1| | |]; simpl in *.
      + intros _ y Hy. apply R2. lia.
      + intros y Hy. apply R3. lia.
      + intros lo hi Hlh. by apply R4, Hmap2.
    - exists m2. by split_and!. }
  rewrite (bind_run _ _ _ _ _ Hrun3).
  exists m3, x2. unfold m2 in Hout.
  split_and!; [done|by destruct Hsp; split| | | | | | | |done|done].
  - unfold x2, x1. by destruct (last_free a l1).
  - simpl. by rewrite Hhw.
  - rewrite Hout by lia. mlook. by rewrite Hm1 by lia.
  - rewrite Hout by lia. by mlook.
  - rewrite Hout by lia. by mlook.
  - intros y Hy. rewrite Hout by lia. by mlook.
  - intros y Hy. rewrite Hout by lia. mlook. by apply Hm1; lia.
Qed.

(** The parts of [pool_wf] that do not depend on the blocks. *)
Record pool_base (s : state) (p : Z) (x : pool) : Prop := {
  pb_pool : pools s !! p = Some x;
  pb_valid : VALID x = LWMEM_POOL_VALID;
  pb_start : 0 < POOL_ALLOC_START_PTR x;
  pb_start_aligned : POOL_ALLOC_START_PTR x mod 4 = 0;
  pb_end : POOL_ALLOC_END_PTR x < 4294967296;
  pb_mapped : mapped (mem s) (POOL_ALLOC_START_PTR x) (POOL_ALLOC_END_PTR x)
}.

Lemma wf_base s p x l : pool_wf s p x l -> pool_base s p x.
Proof. by intros []. Qed.

Lemma first_free_range m p a l e n b n' :
  heap m p a l e n -> last_free a l = Some b ->
  a <= first_free a l n' /\ first_free a l n' + 16 <= e.
Proof.
  revert a. induction l as [|[sz k] l IH]; intros a; simpl; [done|].
  intros (H1 & _ & _ & _ & _ & H6) Hb. pose proof (heap_le _ _ _ _ _ _ H6).
  destruct k; [lia|]. destruct (last_free (a + sz) l) eqn:E; simplify_eq.
  destruct (IH _ H6 E). lia.
Qed.

(** What an operation on pool [p] may change: nothing outside the pool's
    memory, no block in use, and no other pool. *)
Record frame (s s' : state) (p : Z) (x : pool) (l : blocks) : Prop := {
  fr_used : keeps_used (mem s) (mem s') (POOL_ALLOC_START_PTR x) l;
  fr_out : forall y, y < POOL_ALLOC_START_PTR x \/ POOL_ALLOC_END_PTR x <= y ->
           mem s' !! y = mem s !! y;
  fr_pools : forall q, q <> p -> pools s' !! q = pools s !! q;
  fr_list : LWMEM_POOLS s' = LWMEM_POOLS s;
  fr_kernel : KERNEL_LWMEM_POOL s' = KERNEL_LWMEM_POOL s;
  fr_active : ACTIVE_TASK_ID s' = ACTIVE_TASK_ID s;
  fr_system : SYSTEM_TASK_ID s' = SYSTEM_TASK_ID s
}.

Lemma alloc_finish_wf s p x l1 n0 rest b req t zero prev :
  pool_base s p x ->
  heap (mem s) p (POOL_ALLOC_START_PTR x) l1 b n0 ->
  heap (mem s) p (b + req) rest (POOL_ALLOC_END_PTR x) 0 ->
  mem s !! b = Some req -> 16 <= req -> req mod 4 = 0 ->
  prev_ok (POOL_ALLOC_START_PTR x) l1 b (POOL_FREE_LIST_PTR x) prev ->
  (is_Some (last_free (POOL_ALLOC_START_PTR x) l1) ->
   POOL_FREE_LIST_PTR x = first_free (POOL_ALLOC_START_PTR x) l1 0) ->
  exists m' x',
    alloc_finish p req t zero b prev (first_free (b + req) rest 0) s =
      Some (b + 12, updated s m' p x') /\
    pool_wf (updated s m' p x') p x' (l1 ++ (req, Used (TASK_NUMBER_FROM_TASKID t)) :: rest) /\
    same_pool x x' /\ HIGHWATER x' = Z.max (HIGHWATER x) (b + req - 1) /\
    keeps_used (mem s) m' (POOL_ALLOC_START_PTR x) l1 /\
    (forall y, y < POOL_ALLOC_START_PTR x \/ b + req <= y -> m' !! y = mem s !! y) /\
    (zero = true -> forall y, b + 12 <= y < b + req -> y mod 4 = 0 -> m' !! y = Some 0).
Proof.
  intros [Hp Hv Hst Hst4 Hend Hmap] Hl1 Hrest Hb Hreq Hreq4 Hprev Hfl.
  set (a := POOL_ALLOC_START_PTR x) in *. set (e := POOL_ALLOC_END_PTR x) in *.
  pose proof (heap_le _ _ _ _ _ _ Hl1) as Hab. pose proof (heap_le _ _ _ _ _ _ Hrest) as Hbe.
  pose proof (heap_aligned _ _ _ _ _ _ Hl1 Hst4) as Hb4.
  destruct (alloc_finish_run s p x a l1 b req t zero prev (first_free (b + req) rest 0))
    as (m' & x' & Hrun & Hsp & Hfl' & Hhw & M0 & M4 & M8 & Mlo & Mhi & Mz & Mmap); try done; try lia.
  { intros b0 Hb0. destruct (last_free_range _ _ _ _ _ _ _ Hl1 Hb0).
    pose proof (last_free_aligned _ _ _ _ _ _ _ Hl1 Hst4 Hb0).
    split; [apply Hmap; [lia|zdm]|lia]. }
  { intros y Hy Hy4. apply Hmap; [lia|done]. }
  pose proof Hsp as [S1 S2 S3].
  exists m', x'. split_and!; [done| |done|done| | |done].
  - split; simpl; rewrite ?S1, ?S2, ?S3; try done.
    + by rewrite lookup_insert_eq.
    + by apply Mmap.
    + fold a e. apply heap_app. rewrite <-(heap_end _ _ _ _ _ _ Hl1). split.
      * eapply heap_frame; [by eapply heap_relinked|].
        intros y Hy. rewrite Mlo by lia. simpl. done.
      * simpl. split_and!; [done..|]. eapply heap_frame; [done|].
        intros y Hy. apply Mhi. lia.
    + fold a. rewrite Hfl', first_free_app, <-(heap_end _ _ _ _ _ _ Hl1). simpl.
      destruct (last_free a l1) eqn:E.
      * rewrite Hfl by eauto. by eapply first_free_some.
      * symmetry. by apply first_free_none.
  - intros ad sz u Hin y Hy. pose proof (layout_range _ _ _ _ _ _ _ _ _ Hl1 Hin).
    rewrite Mlo by lia. by eapply relink_used.
  - intros y [Hy|Hy]; [|by apply Mhi]. rewrite Mlo by lia. unfold relink.
    destruct (last_free a l1) as [b0|] eqn:E; [|done].
    destruct (last_free_range _ _ _ _ _ _ _ Hl1 E). by rewrite lookup_insert_ne by lia.
Qed.

(** The outcome of taking [req] bytes from a free block of [sz] bytes. *)
Definition carve (req sz u : Z) : blocks :=
  if 16 <=? sz - req then [(req, Used u); (sz - req, Free)] else [(sz, Used u)].

Definition carved_size (req sz : Z) : Z := if 16 <=? sz - req then req else sz.

Lemma LWMEM_MIN_val : LWMEM_MIN_MEMORY_STORAGE_SIZE = 16.
Proof. reflexivity. Qed.

Lemma prev_ok_first s p x l1 sz l2 :
  pool_wf s p x (l1 ++ (sz, Free) :: l2) ->
  forall prev, (forall b0, last_free (POOL_ALLOC_START_PTR x) l1 = Some b0 -> prev = b0) ->
  prev_ok (POOL_ALLOC_START_PTR x) l1 (endof (POOL_ALLOC_START_PTR x) l1)
    (POOL_FREE_LIST_PTR x) prev.
Proof.
  intros Hwf prev Hprev. pose proof (wf_heap _ _ _ _ Hwf) as Hh.
  apply heap_app in Hh as [Hh _]. unfold prev_ok. rewrite (wf_free _ _ _ _ Hwf).
  rewrite first_free_app. simpl. destruct (last_free _ l1) as [b0|] eqn:E.
  - split; [auto|]. pose proof (first_free_range _ _ _ _ _ _ _
      (endof (POOL_ALLOC_START_PTR x) l1) Hh E). lia.
  - symmetry. by apply first_free_none.
Qed.

Lemma keeps_used_mid m m' a l1 sz l2 :
  keeps_used m m' a l1 ->
  (forall y, endof a l1 + sz <= y -> m' !! y = m !! y) ->
  (forall ad z u, (ad, z, Used u) ∈ layout (endof a l1 + sz) l2 -> endof a l1 + sz <= ad) ->
  keeps_used m m' a (l1 ++ (sz, Free) :: l2).
Proof.
  intros H1 H2 H3 ad z u Hin. rewrite layout_app in Hin. simpl in Hin.
  apply elem_of_app in Hin as [Hin|Hin]; [by eapply H1|].
  apply elem_of_cons in Hin as [?|Hin]; [done|].
  intros y Hy. apply H3 in Hin. apply H2. lia.
Qed.

(** State after splitting block [b] of [sz] bytes at [req]. *)
Lemma alloc_carve_spec s p x l1 sz l2 req t zero prev :
  let a := POOL_ALLOC_START_PTR x in
  let b := endof a l1 in
  pool_wf s p x (l1 ++ (sz, Free) :: l2) -> 16 <= req <= sz -> req mod 4 = 0 ->
  (forall b0, last_free a l1 = Some b0 -> prev = b0) ->
  exists m' x',
    alloc_carve p req t zero b prev sz s = Some (b + 12, updated s m' p x') /\
    pool_wf (updated s m' p x') p x' (l1 ++ carve req sz (TASK_NUMBER_FROM_TASKID t) ++ l2) /\
    same_pool x x' /\ HIGHWATER x' = Z.max (HIGHWATER x) (b + carved_size req sz - 1) /\
    frame s (updated s m' p x') p x (l1 ++ (sz, Free) :: l2) /\
    (zero = true -> forall y, b + 12 <= y < b + carved_size req sz -> y mod 4 = 0 ->
       m' !! y = Some 0).
Proof.
  intros a b Hwf Hreq Hreq4 Hprev.
  pose proof (wf_base _ _ _ _ Hwf) as Hbase.
  pose proof (prev_ok_first _ _ _ _ _ _ Hwf prev Hprev) as Hpo.
  pose proof Hwf as [Hp Hv Hst Hst4 Hend Hmap Hh Hfl].
  fold a in Hst, Hst4, Hmap, Hh, Hfl, Hpo. set (e := POOL_ALLOC_END_PTR x) in *.
  apply heap_app in Hh as [Hl1 Hh]. fold b in Hl1, Hh, Hpo. simpl in Hh.
  destruct Hh as (Hsz & Hsz4 & Hb0 & Hb4 & Hb8 & Hl2).
  pose proof (heap_le _ _ _ _ _ _ Hl1) as Hab. pose proof (heap_le _ _ _ _ _ _ Hl2) as Hbe.
  pose proof (heap_aligned _ _ _ _ _ _ Hl1 Hst4) as Hbal.
  set (nx := first_free (b + sz) l2 0) in *.
  assert (is_Some (last_free a l1) -> POOL_FREE_LIST_PTR x = first_free a l1 0) as Hfl1.
  { intros [b0 Hb']. rewrite Hfl, first_free_app. by eapply first_free_some. }
  assert (forall ad z u, (ad, z, Used u) ∈ layout (b + sz) l2 -> b + sz <= ad) as Hlay.
  { intros ad z u Hin. apply (layout_range _ _ _ _ _ _ _ _ _ Hl2) in Hin. lia. }
  unfold alloc_carve, carve, carved_size. rewrite LWMEM_MIN_val.
  destruct (16 <=? sz - req) eqn:Hsplit; zreflect.
  - (* split *)
    set (nb := b + req). rewrite (wrap_small 32) by (fold nb; lia). fold nb.
    set (m1 := <[b := req]> (<[nb + 8 := nx]> (<[nb + 4 := p]> (<[nb := sz - req]> (mem s))))).
    set (s1 := set_mem (fun _ => m1) s).
    assert (forall y, y < b \/ b < y < nb \/ nb + 12 <= y -> m1 !! y = mem s !! y) as Hm1.
    { intros y Hy. unfold m1. by mlook. }
    assert (mapped m1 a e) as Hmap1.
    { intros y Hy Hy4. unfold m1. rewrite !lookup_insert. repeat case_decide; eauto. }
    rewrite !bind_assoc. unfold get_NEXTBLOCK at 1. mgo. rewrite bind_assoc.
    erewrite bind_run by (apply prepare_free_run; apply Hmap; zdm).
    rewrite bind_assoc. unfold set_BLOCKSIZE at 1.
    erewrite bind_run by (apply store_run; mlook; eauto). rewrite bind_ret_l.
    change (set_mem _ (set_mem _ s)) with s1.
    destruct (alloc_finish_wf s1 p x l1 b ((sz - req, Free) :: l2) b req t zero prev)
      as (m' & x' & Hrun & Hwf' & Hsp & Hhw & Hku & Hout & Hz).
    + destruct Hbase. split; try done.
    + eapply heap_frame; [done|]. intros y Hy. apply Hm1. lia.
    + fold a e nb. simpl. split_and!; [lia|zdm|unfold m1; by mlook..| |].
      * unfold m1. mlook. unfold nx, nb. do 2 f_equal. lia.
      * replace (nb + (sz - req)) with (b + sz) by (unfold nb; lia).
        eapply heap_frame; [done|]. intros y Hy. apply Hm1. unfold nb. lia.
    + simpl. unfold m1. by mlook.
    + lia.
    + done.
    + done.
    + done.
    + exists m', x'. simpl in Hrun. fold nb in Hrun.
      split_and!; [done|done|done|done| |done].
      split; simpl; try done.
      * apply keeps_used_mid.
        -- intros ad z u Hin y Hy. rewrite (Hku ad z u Hin y Hy). simpl. apply Hm1.
           apply (layout_range _ _ _ _ _ _ _ _ _ Hl1) in Hin. lia.
        -- fold a b. intros y Hy. rewrite Hout by lia. simpl. apply Hm1. unfold nb. lia.
        -- done.
      * fold a e. intros y Hy. rewrite Hout by lia. simpl. apply Hm1. unfold nb. lia.
      * intros q Hq. by rewrite lookup_insert_ne.
  - (* whole block *)
    rewrite bind_assoc. unfold get_NEXTBLOCK at 1. mgo. rewrite bind_ret_l.
    destruct (alloc_finish_wf s p x l1 b l2 b sz t zero prev)
      as (m' & x' & Hrun & Hwf' & Hsp & Hhw & Hku & Hout & Hz); try done.
    exists m', x'. fold nx in Hrun. split_and!; [done|done|done|done| |done].
    split; simpl; try done.
    + apply keeps_used_mid; [done| |done]. intros y Hy. apply Hout. fold a b in Hy. lia.
    + fold a e. intros y Hy. apply Hout. lia.
    + intros q Hq. by rewrite lookup_insert_ne.
Qed.

(** ** First fit *)

(** The first free block of at least [req] bytes gives [req] bytes to a block
    with the word [u]: its address, its size, and the blocks afterwards. *)
Fixpoint first_fit (req u a : Z) (l : blocks) : option (Z * Z * blocks) :=
  match l with
  | [] => None
  | (sz, k) :: l' =>
      match k, req <=? sz with
      | Free, true => Some (a, carved_size req sz, carve req sz u ++ l')
      | _, _ =>
          match first_fit req u (a + sz) l' with
          | Some (r, z, l'') => Some (r, z, (sz, k) :: l'')
          | None => None
          end
      end
  end.

(** A walk only moves the walk pointers of the pool. *)
Definition only_walk (x x' : pool) : Prop :=
  same_pool x x' /\ POOL_FREE_LIST_PTR x' = POOL_FREE_LIST_PTR x /\ HIGHWATER x' = HIGHWATER x.

Lemma updated_updated s m p x m' x' : updated (updated s m p x) m' p x' = updated s m' p x'.
Proof. unfold updated. simpl. by rewrite insert_insert_eq. Qed.

Lemma wf_walk s p x x' l :
  pool_wf s p x l -> only_walk x x' -> pool_wf (updated s (mem s) p x') p x' l.
Proof.
  intros [] ([S1 S2 S3] & Hf & _). split; simpl; rewrite ?S1, ?S2, ?S3, ?Hf; try done.
  by rewrite lookup_insert_eq.
Qed.

Lemma frame_refl s p x x' l : frame s (updated s (mem s) p x') p x l.
Proof.
  split; simpl; try done. intros q Hq. by rewrite lookup_insert_ne.
Qed.

Lemma frame_walk s s' p b x l :
  frame (updated s (mem s) p (with_ALLOC b x)) s' p (with_ALLOC b x) l -> frame s s' p x l.
Proof.
  intros [F1 F2 F3 F4 F5 F6 F7]. split; simpl in *; try done.
  intros q Hq. rewrite F3 by done. by rewrite lookup_insert_ne.
Qed.

(** The loop without interference, standing at the blocks [l2]. *)
Lemma alloc_loop_spec p req t zero a l2 : 16 <= req -> req mod 4 = 0 ->
  forall l1 fuel s x prev,
  a = POOL_ALLOC_START_PTR x -> pool_wf s p x (l1 ++ l2) -> (length l2 < fuel)%nat ->
  (forall b0, last_free a l1 = Some b0 -> prev = b0) ->
  exists m' x',
    alloc_loop (mret tt) fuel p req t zero (first_free (endof a l1) l2 0) prev s =
      Some (match first_fit req (TASK_NUMBER_FROM_TASKID t) (endof a l1) l2 with
            | Some (r, _, _) => r + 12 | None => NULL end, updated s m' p x') /\
    pool_wf (updated s m' p x') p x'
      (match first_fit req (TASK_NUMBER_FROM_TASKID t) (endof a l1) l2 with
       | Some (_, _, l2') => l1 ++ l2' | None => l1 ++ l2 end) /\
    same_pool x x' /\ frame s (updated s m' p x') p x (l1 ++ l2) /\
    match first_fit req (TASK_NUMBER_FROM_TASKID t) (endof a l1) l2 with
    | Some (r, z, _) =>
        HIGHWATER x' = Z.max (HIGHWATER x) (r + z - 1) /\
        (zero = true -> forall y, r + 12 <= y < r + z -> y mod 4 = 0 -> m' !! y = Some 0)
    | None => m' = mem s /\ HIGHWATER x' = HIGHWATER x
    end.
Proof.
  intros Hreq Hreq4. induction l2 as [|[sz k] l2 IH]; intros l1 fuel s x prev -> Hwf Hf Hprev.
  - destruct fuel as [|fuel]; [simpl in Hf; lia|].
    exists (mem s), x. simpl. split_and!; try done.
    + unfold updated. rewrite (insert_id (pools s)) by apply Hwf. by destruct s.
    + apply (wf_walk s p x); [done|by repeat split].
    + apply frame_refl.
  - destruct k as [|u].
    + (* a free block *)
      destruct fuel as [|fuel]; [simpl in Hf; lia|]. cbn [first_free first_fit alloc_loop].
      pose proof (wf_pool _ _ _ _ Hwf) as Hp.
      pose proof (wf_heap _ _ _ _ Hwf) as Hh. pose proof (wf_start _ _ _ _ Hwf) as Hst.
      apply heap_app in Hh as [Hh1 Hh2]. pose proof (heap_le _ _ _ _ _ _ Hh1) as Hle.
      simpl in Hh2. destruct Hh2 as (Hsz & _ & Hb & _ & Hb8 & _).
      set (b := endof (POOL_ALLOC_START_PTR x) l1) in *.
      rewrite (proj2 (Z.eqb_neq b NULL)) by (unfold NULL; lia).
      erewrite bind_run by (by eapply upd_pool_run).
      change (set_pools _ s) with (updated s (mem s) p (with_ALLOC b x)).
      set (s1 := updated s (mem s) p (with_ALLOC b x)).
      assert (only_walk x (with_ALLOC b x)) as Hwalk by (by repeat split).
      pose proof (wf_walk _ _ _ _ _ Hwf Hwalk) as Hwf1. fold s1 in Hwf1.
      rewrite bind_ret_l. erewrite bind_run by (apply get_pool_run, Hwf1).
      cbn [POOL_ALLOC_PTR with_ALLOC]. rewrite Z.eqb_refl. cbn [negb].
      rewrite (proj2 (Z.eqb_neq b NULL)) by (unfold NULL; lia).
      unfold get_BLOCKSIZE. erewrite bind_run by (by apply load_run).
      destruct (req <=? sz) eqn:Hfit; zreflect.
      * destruct (alloc_carve_spec s1 p (with_ALLOC b x) l1 sz l2 req t zero prev)
          as (m' & x' & Hrun & Hwf' & Hsp & Hhw & Hfr & Hz); [done|lia|done|done|].
        exists m', x'. unfold s1 in Hrun, Hwf', Hfr. rewrite updated_updated in *.
        split_and!; [exact Hrun|done|by destruct Hsp; split| |exact Hhw|exact Hz].
        by eapply frame_walk.
      * unfold get_NEXTBLOCK. erewrite bind_run by (by apply load_run).
        destruct (IH (l1 ++ [(sz, Free)]) fuel s1 (with_ALLOC b x) b)
          as (m' & x' & Hrun & Hwf' & Hsp & Hfr & Hres); [done| |simpl in Hf; lia| |].
        { by rewrite <-app_assoc. }
        { intros b0. rewrite last_free_app. simpl. by intros [= <-]. }
        rewrite endof_app in *. cbn [endof] in *. fold b in Hrun, Hwf', Hres.
        rewrite <-app_assoc in Hfr. rewrite (Z.add_comm sz b) in *.
        exists m', x'. unfold s1 in Hrun, Hwf', Hfr, Hres. rewrite updated_updated in *.
        destruct (first_fit req (TASK_NUMBER_FROM_TASKID t) (b + sz) l2) as [[[r z] l2']|];
          rewrite <-?app_assoc in Hwf';
          (split; [exact Hrun|split; [done|split; [by destruct Hsp; split|]]]);
          (split; [by eapply frame_walk|exact Hres]).
    + (* a used block: not on the free list *)
      cbn [first_free first_fit].
      destruct (IH (l1 ++ [(sz, Used u)]) fuel s x prev)
        as (m' & x' & Hrun & Hwf' & Hsp & Hfr & Hres); [done| |simpl in Hf; lia| |].
      { by rewrite <-app_assoc. }
      { intros b0. rewrite last_free_app. simpl. apply Hprev. }
      rewrite endof_app in *. cbn [endof] in *. rewrite <-app_assoc in Hfr.
      rewrite (Z.add_comm sz) in *.
      exists m', x'.
      destruct (first_fit req (TASK_NUMBER_FROM_TASKID t) _ l2) as [[[r z] l2']|];
        rewrite <-?app_assoc in Hwf'; eauto 6 using conj.
Qed.

(** ** The allocator on a well-formed pool *)

Lemma align16 v : Z.land v (Z.lnot PSP_MEMORY_ALIGNMENT) = v - v mod 16.
Proof. apply (land_lnot_low v 4). lia. Qed.

Lemma adjust_size_val rs : 0 <= rs -> rs + 27 < 4294967296 ->
  adjust_size rs = (rs + 27) / 16 * 16.
Proof.
  intros H1 H2. unfold adjust_size, sizeof_BLOCK, _MEMORY_ALIGN_VAL_LARGER.
  rewrite LWMEM_MIN_val, align16, (wrap_small 32 (rs + 12)) by lia.
  change PSP_MEMORY_ALIGNMENT with 15. case_if.
  - change (w32 (16 + 15)) with 31. zdm.
  - rewrite wrap_small by lia. zdm.
Qed.

Lemma adjust_size_overflow rs : 4294967284 <= rs < 4294967296 -> adjust_size rs = 16.
Proof.
  intros H. unfold adjust_size, sizeof_BLOCK. rewrite LWMEM_MIN_val.
  assert (w32 (rs + 12) = rs + 12 - 4294967296) as ->.
  { unfold wrap. change (2 ^ 32) with 4294967296. zdm. }
  case_if; [|lia]. reflexivity.
Qed.

Lemma pool_wf_ext s s' p x l :
  pool_wf s p x l -> mem s' = mem s -> pools s' = pools s -> pool_wf s' p x l.
Proof. intros [] E1 E2. split; rewrite ?E1, ?E2; done. Qed.

Definition walks_reset (x : pool) : pool :=
  Pool (VALID x) (POOL_ALLOC_START_PTR x) (POOL_ALLOC_END_PTR x) (POOL_FREE_LIST_PTR x)
       (POOL_FREE_LIST_PTR x) (POOL_FREE_LIST_PTR x) (POOL_FREE_LIST_PTR x)
       (POOL_ALLOC_START_PTR x) (POOL_ALLOC_START_PTR x) (HIGHWATER x).

Lemma reset_walks_run s p x : pools s !! p = Some x ->
  reset_walks p s = Some (tt, updated s (mem s) p (walks_reset x)).
Proof. intros H. unfold reset_walks. by rewrite (upd_pool_run s p x). Qed.

Lemma walks_reset_only x : only_walk x (walks_reset x).
Proof. by repeat split. Qed.

Lemma task_set_error_run e s :
  exists o, _task_set_error e s =
    Some (o, if (e =? MQX_OK) || (TASK_ERROR_CODE s =? MQX_OK) then set_error e s else s).
Proof.
  unfold _task_set_error, gets, mbind, M_bind, modify, mret, M_ret.
  exists (TASK_ERROR_CODE s). by destruct (_ || _).
Qed.

Lemma frame_updated s m' p x x' x'' l :
  frame s (updated s m' p x') p x l -> frame s (updated s m' p x'') p x l.
Proof.
  intros [F1 F2 F3 F4 F5 F6 F7]. split; simpl in *; try done.
  intros q Hq. by rewrite lookup_insert_ne.
Qed.

Lemma frame_error s s' p x l e : frame s s' p x l -> frame s (set_error e s') p x l.
Proof. by intros []. Qed.

(** What [_lwmem_alloc_internal] does on a pool of blocks [l]. *)
Definition alloc_result (s : state) (req t p : Z) (zero : bool) (x : pool) (l : blocks)
    (r : Z) (s' : state) : Prop :=
  exists x', same_pool x x' /\ walks_reset x' = x' /\ frame s s' p x l /\
  match first_fit req (TASK_NUMBER_FROM_TASKID t) (POOL_ALLOC_START_PTR x) l with
  | Some (b, z, l') =>
      r = b + sizeof_BLOCK /\ pool_wf s' p x' l' /\ TASK_ERROR_CODE s' = TASK_ERROR_CODE s /\
      HIGHWATER x' = Z.max (HIGHWATER x) (b + z - 1) /\
      (zero = true -> forall y, r <= y < b + z -> y mod 4 = 0 -> mem s' !! y = Some 0)
  | None =>
      r = NULL /\ pool_wf s' p x' l /\ mem s' = mem s /\ HIGHWATER x' = HIGHWATER x /\
      TASK_ERROR_CODE s' = (if TASK_ERROR_CODE s =? MQX_OK then MQX_OUT_OF_MEMORY
                            else TASK_ERROR_CODE s)
  end.

Lemma first_fit_full req u a l : (forall sz, (sz, Free) ∉ l) -> first_fit req u a l = None.
Proof.
  revert a. induction l as [|[sz k] l IH]; intros a Hn; simpl; [done|].
  rewrite IH by (intros z Hz; apply (Hn z); by right). destruct k; [destruct (Hn sz); by left|done].
Qed.

(** The lowest free block is taken when it is large enough. *)
Lemma first_fit_lowest req u a l1 sz l2 : (forall z, (z, Free) ∉ l1) -> req <= sz ->
  first_fit req u a (l1 ++ (sz, Free) :: l2) =
    Some (endof a l1, carved_size req sz, l1 ++ carve req sz u ++ l2).
Proof.
  intros Hn Hr. revert a. induction l1 as [|[z k] l1 IH]; intros a; simpl.
  - by rewrite (proj2 (Z.leb_le _ _) Hr).
  - rewrite IH by (intros y Hy; apply (Hn y); by right). rewrite endof_shift, (Z.add_comm (endof a l1)).
    destruct k; [destruct (Hn z); by left|done].
Qed.

Lemma first_fit_range req u m p a l e n b z l' :
  heap m p a l e n -> first_fit req u a l = Some (b, z, l') -> a <= b.
Proof.
  revert a l'. induction l as [|[sz k] l IH]; intros a l'; simpl; [done|].
  intros (H1 & _ & _ & _ & _ & Hl).
  assert (forall r, match first_fit req u (a + sz) l with
            | Some (r, z, l'') => Some (r, z, (sz, k) :: l'') | None => None end = r ->
            r = Some (b, z, l') -> a <= b) as Hrec.
  { intros r <-. destruct (first_fit req u (a + sz) l) as [[[r' z'] l'']|] eqn:E; [|done].
    intros [= -> -> _]. pose proof (IH _ _ Hl E). lia. }
  destruct k; [|by eapply Hrec]. destruct (req <=? sz); [by intros [= -> _ _]|].
  by eapply Hrec.
Qed.

Lemma alloc_internal_run s p x l rs req t zero fuel :
  pool_wf s p x l -> adjust_size rs = req -> 16 <= req -> req mod 4 = 0 ->
  (length l < fuel)%nat ->
  exists r s', _lwmem_alloc_internal (mret tt) fuel rs t p zero s = Some (r, s') /\
    alloc_result s req t p zero x l r s'.
Proof.
  intros Hwf Hadj Hreq Hreq4 Hf.
  unfold _lwmem_alloc_internal. erewrite bind_run by (apply get_pool_run, Hwf).
  rewrite (wf_valid _ _ _ _ Hwf). cbn [negb Z.eqb].
  change (negb (LWMEM_POOL_VALID =? LWMEM_POOL_VALID)) with false. cbn iota. rewrite Hadj.
  destruct (alloc_loop_spec p req t zero (POOL_ALLOC_START_PTR x) l Hreq Hreq4 [] fuel s x
    (POOL_FREE_LIST_PTR x)) as (m' & x' & Hrun & Hwf' & Hsp & Hfr & Hres); [done..|].
  cbn [endof app] in *. rewrite <-(wf_free _ _ _ _ Hwf) in Hrun.
  rewrite (bind_run _ _ _ _ _ Hrun).
  erewrite bind_run by (apply reset_walks_run, Hwf'). cbn [mem updated].
  rewrite updated_updated.
  pose proof (wf_walk _ _ _ _ _ Hwf' (walks_reset_only x')) as Hwf2.
  cbn [mem updated] in Hwf2. rewrite updated_updated in Hwf2.
  assert (frame s (updated s m' p (walks_reset x')) p x l) as Hfr2 by (by eapply frame_updated).
  assert (same_pool x (walks_reset x')) as Hsp2 by (destruct Hsp; by split).
  pose proof (wf_start _ _ _ _ Hwf) as Hst.
  unfold alloc_result, out_of_memory.
  destruct (first_fit req _ _ l) as [[[b z] l']|] eqn:Hff.
  - pose proof (first_fit_range _ _ _ _ _ _ _ _ _ _ _ (wf_heap _ _ _ _ Hwf) Hff).
    rewrite (proj2 (Z.eqb_neq (b + 12) NULL)) by (unfold NULL; lia). rewrite bind_ret_l.
    destruct Hres as [Hhw Hz].
    eexists _, _. split; [reflexivity|]. exists (walks_reset x'). by split_and!.
  - destruct Hres as [-> Hhw]. change (NULL =? NULL) with true. cbn iota.
    rewrite bind_assoc. destruct (task_set_error_run MQX_OUT_OF_MEMORY
      (updated s (mem s) p (walks_reset x'))) as [o Ho].
    rewrite (bind_run _ _ _ _ _ Ho). rewrite bind_ret_l.
    change (MQX_OUT_OF_MEMORY =? MQX_OK) with false. cbn [orb TASK_ERROR_CODE updated].
    eexists _, _. split; [reflexivity|]. exists (walks_reset x').
    destruct (TASK_ERROR_CODE s =? MQX_OK) eqn:E; split_and!; try done; [|by eapply pool_wf_ext].
    by apply frame_error.
Qed.

(** ** Release *)

Definition absorb_next (sz : Z) (l2 : blocks) : Z * blocks :=
  match l2 with
  | (fz, Free) :: l2' => (sz + fz, l2')
  | _ => (sz, l2)
  end.

(** Append a free block, joining it with a free block just before it. *)
Fixpoint absorb_prev (l1 : blocks) (sz : Z) (l2 : blocks) : blocks :=
  match l1 with
  | [] => (sz, Free) :: l2
  | [(fz, Free)] => (fz + sz, Free) :: l2
  | x :: l1' => x :: absorb_prev l1' sz l2
  end.

(** The blocks after the release of the block of [sz] bytes between [l1] and [l2]. *)
Definition release (l1 : blocks) (sz : Z) (l2 : blocks) : blocks :=
  let '(sz', l2') := absorb_next sz l2 in absorb_prev l1 sz' l2'.

Lemma absorb_prev_used l1 z u sz l2 :
  absorb_prev (l1 ++ [(z, Used u)]) sz l2 = l1 ++ (z, Used u) :: (sz, Free) :: l2.
Proof.
  induction l1 as [|[z' k] l1 IH]; [done|]. simpl. rewrite IH.
  destruct l1; [|by destruct k]. by destruct k.
Qed.

Lemma absorb_prev_free l1 fz sz l2 :
  absorb_prev (l1 ++ [(fz, Free)]) sz l2 = l1 ++ (fz + sz, Free) :: l2.
Proof.
  induction l1 as [|[z' k] l1 IH]; [done|]. simpl. rewrite IH.
  destruct l1; by destruct k.
Qed.

Lemma last_free_split a l f : last_free a l = Some f ->
  exists l1 fz l2, l = l1 ++ (fz, Free) :: l2 /\ f = endof a l1 /\
    last_free (f + fz) l2 = None.
Proof.
  revert a. induction l as [|[z k] l IH]; intros a; simpl; [done|].
  destruct (last_free (a + z) l) eqn:E.
  - intros [= ->]. destruct (IH _ E) as (l1 & fz & l2 & -> & -> & H).
    exists ((z, k) :: l1), fz, l2. split_and!; [done| |done]. by rewrite (endof_cons a z k).
  - destruct k; [|done]. intros [= ->]. by exists [], z, l.
Qed.

Lemma first_free_split a l n : last_free a l <> None ->
  exists l1 fz l2, l = l1 ++ (fz, Free) :: l2 /\ first_free a l n = endof a l1 /\
    last_free a l1 = None.
Proof.
  revert a. induction l as [|[z k] l IH]; intros a H; [done|]. destruct k as [|u].
  - by exists [], z, l.
  - simpl in H. destruct (last_free (a + z) l) eqn:E; [|done].
    destruct (IH (a + z)) as (l1 & fz & l2 & -> & H1 & H2); [by rewrite E|].
    exists ((z, Used u) :: l1), fz, l2. cbn [first_free last_free app].
    rewrite H1, H2. split_and!; [done|by rewrite (endof_cons a z (Used u))|done].
Qed.

(** The next free block lies behind, or there is none. *)
Lemma first_free_after m p a l e : heap m p a l e 0 ->
  first_free a l 0 = 0 \/ a <= first_free a l 0 /\ first_free a l 0 + 16 <= e.
Proof.
  intros H. destruct (last_free a l) as [b|] eqn:E.
  - right. by eapply first_free_range.
  - left. by apply first_free_none.
Qed.

Lemma mapped_ext (m m' : gmap Z Z) lo hi :
  (forall y, is_Some (m !! y) -> is_Some (m' !! y)) -> mapped m lo hi -> mapped m' lo hi.
Proof. intros H H' y Hy Hy4. auto. Qed.

Lemma insert_keeps_some (m : gmap Z Z) k v y : is_Some (m !! y) -> is_Some (<[k:=v]> m !! y).
Proof. intros H. rewrite lookup_insert. case_decide; eauto. Qed.

(** Clearing a block header. *)
Lemma clear_header_run s b : b mod 4 = 0 -> mapped (mem s) b (b + 12) ->
  exists m', _mem_zero b sizeof_BLOCK s = Some (tt, set_mem (fun _ => m') s) /\
    (forall y, y < b \/ b + 12 <= y -> m' !! y = mem s !! y) /\
    (forall y, is_Some (mem s !! y) -> is_Some (m' !! y)).
Proof.
  intros Hb Hm. unfold _mem_zero, sizeof_BLOCK.
  change (Z.to_nat (Z.shiftr 12 2)) with 3%nat.
  destruct (zero_words_run 3 s b) as (m' & H1 & H2 & H3).
  { intros i Hi. apply Hm; zdm. }
  exists m'. split_and!; [done| |].
  - intros y Hy. apply H3. intros i Hi. lia.
  - intros y Hy. destruct (decide (y = b \/ y = b + 4 \/ y = b + 8)) as [Hyes|Hno].
    + replace y with (b + 4 * ((y - b) / 4)) by zdm. rewrite H2 by zdm. eauto.
    + rewrite H3; [done|]. intros i Hi. lia.
Qed.

(** Memory around a block being released: it may only change from [lo] on,
    inside the pool, and not under the used blocks of [l]. *)
Record released (m m' : gmap Z Z) (lo e a : Z) (l : blocks) : Prop := {
  rl_low : forall y, y < lo -> m' !! y = m !! y;
  rl_high : forall y, e <= y -> m' !! y = m !! y;
  rl_used : keeps_used m m' a l;
  rl_some : forall y, is_Some (m !! y) -> is_Some (m' !! y)
}.

Lemma link_next_run s p b sz l2 e :
  heap (mem s) p (b + sz) l2 e 0 -> is_Some (mem s !! (b + 8)) -> 16 <= sz ->
  sz mod 4 = 0 -> mem s !! b = Some sz -> mem s !! (b + 4) = Some p ->
  let m' := <[b + 8 := first_free (b + sz) l2 0]> (mem s) in
  heap m' p b ((sz, Free) :: l2) e 0 /\ released (mem s) m' b e (b + sz) l2.
Proof.
  intros Hl2 H8 Hsz Hsz4 H0 H4 m'. pose proof (heap_le _ _ _ _ _ _ Hl2). unfold m'. split.
  - simpl. split_and!; [done|done|by mlook..|]. eapply heap_frame; [done|].
    intros y Hy. by mlook.
  - split.
    + intros y Hy. by mlook.
    + intros y Hy. by mlook.
    + intros ad z u Hin y Hy. pose proof (layout_range _ _ _ _ _ _ _ _ _ Hl2 Hin). by mlook.
    + intros y Hy. by apply insert_keeps_some.
Qed.

Lemma merge_next_run s p b sz l2 e :
  heap (mem s) p (b + sz) l2 e 0 -> mapped (mem s) b e -> 0 < b -> b mod 4 = 0 ->
  16 <= sz -> sz mod 4 = 0 -> e < 4294967296 ->
  mem s !! b = Some sz -> mem s !! (b + 4) = Some p ->
  exists m',
    merge_next b (first_free (b + sz) l2 0) s = Some (tt, set_mem (fun _ => m') s) /\
    heap m' p b (((absorb_next sz l2).1, Free) :: (absorb_next sz l2).2) e 0 /\
    released (mem s) m' b e (b + sz) l2.
Proof.
  intros Hl2 Hm Hb Hb4 Hsz Hsz4 He H0 H4.
  pose proof (heap_le _ _ _ _ _ _ Hl2) as Hle.
  assert (is_Some (mem s !! (b + 8))) as H8 by (apply Hm; zdm).
  unfold merge_next, get_BLOCKSIZE, set_NEXTBLOCK, set_BLOCKSIZE, get_NEXTBLOCK.
  mgo. rewrite (wrap_small 32) by lia.
  destruct (link_next_run s p b sz l2 e) as [Hk1 Hk2]; [done..|].
  destruct l2 as [|[fz [|u]] l2].
  - cbn [first_free]. rewrite (proj2 (Z.eqb_neq _ _)) by lia. rewrite store_run by done. eauto.
  - cbn [first_free absorb_next fst snd]. rewrite Z.eqb_refl. clear Hk1 Hk2.
    simpl in Hl2. destruct Hl2 as (Hf & Hf4 & F0 & F4 & F8 & Hl2).
    pose proof (heap_le _ _ _ _ _ _ Hl2) as Hle2. mgo. mgo. mgo. mgo.
    rewrite (wrap_small 32) by lia.
    set (nx := first_free (b + sz + fz) l2 0) in *.
    set (m1 := <[b + 8 := nx]> (<[b := sz + fz]> (mem s))).
    destruct (clear_header_run (set_mem (fun _ => m1) s) (b + sz)) as (m' & R & Hout & Hsome).
    { zdm. }
    { intros y Hy Hy4. unfold m1. simpl. mlook. apply Hm; [lia|done]. }
    change (set_mem _ (set_mem _ s)) with (set_mem (fun _ => m1) s).
    exists m'. simpl in Hout, Hsome.
    assert (forall y, y < b \/ b + sz + 12 <= y -> m' !! y = mem s !! y) as Hout'.
    { intros y Hy. rewrite Hout by lia. unfold m1. by mlook. }
    split_and!; [done| |].
    + simpl. split_and!; [lia|zdm|rewrite Hout by lia; unfold m1; by mlook..| |].
      * rewrite Hout by lia. unfold m1. mlook. unfold nx. do 2 f_equal. lia.
      * rewrite Z.add_assoc. eapply heap_frame; [done|]. intros y Hy. apply Hout'. lia.
    + split.
      * intros y Hy. apply Hout'. lia.
      * intros y Hy. apply Hout'. lia.
      * intros ad z u Hin y Hy. simpl in Hin. apply elem_of_cons in Hin as [?|Hin]; [done|].
        pose proof (layout_range _ _ _ _ _ _ _ _ _ Hl2 Hin). apply Hout'. lia.
      * intros y Hy. apply Hsome. unfold m1. by do 2 apply insert_keeps_some.
  - cbn [absorb_next fst snd].
    rewrite (proj2 (Z.eqb_neq _ _)); [rewrite store_run by done; eauto|].
    simpl in Hl2. destruct Hl2 as (Hu & _ & _ & _ & _ & Hl2). cbn [first_free].
    destruct (first_free_after _ _ _ _ _ Hl2) as [->|]; lia.
Qed.

Lemma absorb_prev_gap c l1 x l12 sz l2 : last_free c (x :: l12) = None ->
  absorb_prev (l1 ++ x :: l12) sz l2 = (l1 ++ x :: l12) ++ (sz, Free) :: l2.
Proof.
  intros H. destruct (exists_last (l := x :: l12)) as (l' & [z k] & E); [done|].
  rewrite E in *. rewrite last_free_app in H. simpl in H. destruct k as [|u]; [done|].
  by rewrite app_assoc, absorb_prev_used, <-!app_assoc.
Qed.

Lemma first_free_absorb a l1 sz l2 n f : last_free a l1 = Some f ->
  first_free a (absorb_prev l1 sz l2) n = first_free a l1 n.
Proof.
  intros H. destruct (last_free_split _ _ _ H) as (l11 & fz & [|x l12] & -> & -> & Hn).
  - rewrite absorb_prev_free, !first_free_app. done.
  - change ((fz, Free) :: x :: l12) with ([(fz, Free)] ++ (x :: l12)).
    rewrite app_assoc, (absorb_prev_gap (endof a l11 + fz)) by done.
    by rewrite <-app_assoc, !first_free_app.
Qed.

(** What the release of a block changes besides the block itself. *)
Record merged (m m' : gmap Z Z) (a b e : Z) (l1 l2 : blocks) (c : Z) : Prop := {
  mg_out : forall y, y < a \/ e <= y -> m' !! y = m !! y;
  mg_used1 : keeps_used m m' a l1;
  mg_used2 : keeps_used m m' c l2;
  mg_some : forall y, is_Some (m !! y) -> is_Some (m' !! y)
}.

Lemma merge_prev_run s p a l1 b n0 sz l2 e f :
  heap (mem s) p a l1 b n0 -> heap (mem s) p b ((sz, Free) :: l2) e 0 ->
  mapped (mem s) a e -> 0 < a -> a mod 4 = 0 -> e < 4294967296 -> last_free a l1 = Some f ->
  exists m',
    merge_prev f b s = Some (tt, set_mem (fun _ => m') s) /\
    heap m' p a (absorb_prev l1 sz l2) e 0 /\
    merged (mem s) m' a b e l1 l2 (b + sz).
Proof.
  intros Hl1 Hl2 Hm Ha Ha4 He Hlast.
  pose proof (heap_le _ _ _ _ _ _ Hl1) as Hab.
  pose proof (heap_aligned _ _ _ _ _ _ Hl1 Ha4) as Hb4.
  destruct (last_free_range _ _ _ _ _ _ _ Hl1 Hlast) as [Hf1 Hf2].
  pose proof (last_free_aligned _ _ _ _ _ _ _ Hl1 Ha4 Hlast) as Hf4.
  pose proof Hl2 as Hl2'. simpl in Hl2'. destruct Hl2' as (Hsz & Hsz4 & B0 & B4 & B8 & Hl2').
  pose proof (heap_le _ _ _ _ _ _ Hl2') as Hle2.
  destruct (last_free_split _ _ _ Hlast) as (l11 & fz & l12 & El1 & Ef & Hn).
  pose proof Hl1 as Hl1'. rewrite El1 in Hl1'. apply heap_app in Hl1' as [Hl11 Hl12].
  rewrite <-Ef in *. simpl in Hl12. destruct Hl12 as (Hfz & Hfz4 & F0 & F4 & F8 & Hl12).
  pose proof (heap_le _ _ _ _ _ _ Hl12) as Hle12.
  unfold merge_prev, get_BLOCKSIZE, set_BLOCKSIZE, get_NEXTBLOCK, set_NEXTBLOCK.
  mgo. rewrite (wrap_small 32) by lia.
  destruct l12 as [|x l12].
  - simpl in Hl12. subst b. rewrite Z.eqb_refl. mgo. mgo. mgo. mgo.
    rewrite (wrap_small 32) by lia. set (nx := first_free (f + fz + sz) l2 0) in *.
    set (m1 := <[f + 8 := nx]> (<[f := fz + sz]> (mem s))).
    destruct (clear_header_run (set_mem (fun _ => m1) s) (f + fz)) as (m' & R & Hout & Hsome);
      [zdm| |].
    { intros y Hy Hy4. unfold m1. simpl. mlook. apply Hm; [lia|done]. }
    change (set_mem _ (set_mem _ s)) with (set_mem (fun _ => m1) s).
    simpl in Hout, Hsome.
    assert (forall y, y < f \/ f + fz + 12 <= y \/ f + 12 <= y < f + fz -> m' !! y = mem s !! y)
      as Hout'.
    { intros y Hy. rewrite Hout by lia. unfold m1. by mlook. }
    exists m'. split_and!; [done| |].
    + rewrite El1, absorb_prev_free. apply heap_app. rewrite <-Ef. split.
      * eapply heap_frame; [done|]. intros y Hy. apply Hout'. lia.
      * simpl. split_and!; [lia|zdm|rewrite Hout by lia; unfold m1; by mlook..| |].
        -- rewrite Hout by lia. unfold m1. mlook. unfold nx. do 2 f_equal. lia.
        -- rewrite Z.add_assoc. eapply heap_frame; [done|]. intros y Hy. apply Hout'. lia.
    + split.
      * intros y Hy. apply Hout'. lia.
      * intros ad z u Hin y Hy. rewrite El1, layout_app in Hin. simpl in Hin.
        apply elem_of_app in Hin as [Hin|Hin].
        -- pose proof (layout_range _ _ _ _ _ _ _ _ _ Hl11 Hin). apply Hout'. lia.
        -- by apply list_elem_of_singleton in Hin.
      * intros ad z u Hin y Hy.
        pose proof (layout_range _ _ _ _ _ _ _ _ _ Hl2' Hin). apply Hout'. lia.
      * intros y Hy. apply Hsome. unfold m1. by do 2 apply insert_keeps_some.
  - rewrite (proj2 (Z.eqb_neq _ _)).
    2:{ destruct x as [z k]. simpl in Hl12. destruct Hl12 as (? & _ & _ & _ & _ & Hr).
        apply heap_le in Hr. lia. }
    rewrite store_run by (apply Hm; [lia|zdm]). eexists. split; [reflexivity|].
    change ((fz, Free) :: x :: l12) with ([(fz, Free)] ++ (x :: l12)) in El1.
    split.
    + assert (absorb_prev l1 sz l2 = l1 ++ (sz, Free) :: l2) as ->.
      { by rewrite El1, app_assoc, (absorb_prev_gap (f + fz)). }
      apply heap_app. rewrite <-(heap_end _ _ _ _ _ _ Hl1). split.
      * simpl. by eapply heap_relink.
      * eapply heap_frame; [done|]. intros y Hy. by mlook.
    + split.
      * intros y Hy. by mlook.
      * intros ad z u Hin y Hy. eapply (relink_used _ p a l1 b n0) in Hin; [|done..].
        unfold relink in Hin. rewrite Hlast in Hin. by apply Hin.
      * intros ad z u Hin y Hy. pose proof (layout_range _ _ _ _ _ _ _ _ _ Hl2' Hin). by mlook.
      * intros y Hy. by apply insert_keeps_some.
Qed.

Lemma heap_last_next m p a l e n f : heap m p a l e n -> last_free a l = Some f ->
  m !! (f + 8) = Some n.
Proof.
  intros H Hf. destruct (last_free_split _ _ _ Hf) as (l1 & fz & l2 & -> & -> & Hn).
  apply heap_app in H as [_ H]. simpl in H. destruct H as (_ & _ & _ & _ & H & _).
  rewrite H. by rewrite first_free_none.
Qed.

Lemma updated_id s p x : pools s !! p = Some x -> updated s (mem s) p x = s.
Proof. intros H. unfold updated. rewrite (insert_id (pools s)) by done. by destruct s. Qed.

Lemma only_walk_trans x y z : only_walk x y -> only_walk y z -> only_walk x z.
Proof.
  intros ([A1 A2 A3] & A4 & A5) ([B1 B2 B3] & B4 & B5).
  split; [split|split]; congruence.
Qed.

(** The walk to the block's place in the free list, without interference. *)
Lemma free_loop_walk p sz u l2 l1 fuel : forall la fz lb s x,
  pool_wf s p x (l1 ++ (sz, Used u) :: l2) -> l1 = la ++ (fz, Free) :: lb ->
  (length lb < fuel)%nat ->
  exists x',
    free_loop (mret tt) fuel p (endof (POOL_ALLOC_START_PTR x) l1)
      (endof (POOL_ALLOC_START_PTR x) la) s =
      Some (last_free (POOL_ALLOC_START_PTR x) l1, updated s (mem s) p x') /\
    only_walk x x'.
Proof.
  induction fuel as [|fuel IH]; intros la fz lb s x Hwf Hl1 Hf; [lia|].
  set (a := POOL_ALLOC_START_PTR x). set (b := endof a l1). set (f := endof a la).
  pose proof (wf_heap _ _ _ _ Hwf) as Hh. fold a in Hh. set (e := POOL_ALLOC_END_PTR x) in *.
  apply heap_app in Hh as [Hh1 Hh2]. fold b in Hh1, Hh2.
  simpl in Hh2. destruct Hh2 as (Hsz & _ & _ & _ & _ & Hh2).
  pose proof (wf_start _ _ _ _ Hwf) as Hst. fold a in Hst.
  pose proof Hh1 as Hla. rewrite Hl1 in Hla. apply heap_app in Hla as [Hla Hlb].
  fold f in Hla, Hlb. simpl in Hlb. destruct Hlb as (Hfz & _ & _ & _ & F8 & Hlb).
  pose proof (heap_le _ _ _ _ _ _ Hla). pose proof (heap_le _ _ _ _ _ _ Hlb).
  assert (last_free a l1 = match last_free (f + fz) lb with Some c => Some c | None => Some f end)
    as Hlast.
  { rewrite Hl1, last_free_app. fold f. simpl. by destruct (last_free (f + fz) lb). }
  cbn [free_loop]. erewrite bind_run by (apply get_pool_run, Hwf).
  assert (a <= POOL_FREE_LIST_PTR x /\ POOL_FREE_LIST_PTR x + 16 <= b) as Hfl.
  { rewrite (wf_free _ _ _ _ Hwf), first_free_app. fold a b.
    destruct (last_free a l1) as [c|] eqn:E; [by eapply first_free_range|].
    by destruct (last_free (f + fz) lb). }
  rewrite (proj2 (Z.eqb_neq _ _)) by (unfold NULL; lia).
  rewrite (proj2 (Z.ltb_ge _ _)) by lia. cbn [orb].
  unfold get_NEXTBLOCK. erewrite bind_run by (by apply load_run).
  destruct (last_free (f + fz) lb) as [c|] eqn:E.
  - destruct (first_free_split (f + fz) lb (first_free (b + sz) l2 0))
      as (l3 & z & l4 & El & En & _); [by rewrite E|].
    assert (first_free (f + fz) lb (first_free (b + sz) l2 0) =
            endof a (la ++ (fz, Free) :: l3)) as Hnx.
    { rewrite En, endof_app. fold f. by rewrite (endof_cons f fz Free). }
    destruct (first_free_range _ _ _ _ _ _ _ (first_free (b + sz) l2 0) Hlb E)
      as [Hn1 Hn2].
    rewrite Hnx in Hn1, Hn2. rewrite Hnx. set (nx := endof a (la ++ (fz, Free) :: l3)) in *.
    rewrite (proj2 (Z.ltb_ge _ _)) by lia.
    rewrite (proj2 (Z.eqb_neq nx NULL)) by (unfold NULL; lia). cbn [orb].
    erewrite bind_run by (eapply upd_pool_run, Hwf). rewrite bind_ret_l.
    change (set_pools _ s) with (updated s (mem s) p (with_FREE nx x)).
    assert (only_walk x (with_FREE nx x)) as Hw by (by repeat split).
    pose proof (wf_walk _ _ _ _ _ Hwf Hw) as Hwf1.
    erewrite bind_run by (apply get_pool_run, Hwf1). cbn [POOL_FREE_PTR with_FREE].
    rewrite Z.eqb_refl. cbn [negb].
    destruct (IH (la ++ (fz, Free) :: l3) z l4 _ _ Hwf1) as (x' & Hrun & Hx').
    { rewrite Hl1, El, <-app_assoc. done. }
    { rewrite El in Hf. zlia. }
    exists x'. cbn [POOL_ALLOC_START_PTR with_FREE] in Hrun. fold a b nx in Hrun.
    rewrite updated_updated in Hrun. split; [done|]. by eapply only_walk_trans.
  - rewrite first_free_none by done. cbn [first_free].
    assert ((b <? first_free (b + sz) l2 0) || (first_free (b + sz) l2 0 =? NULL) = true) as ->.
    { destruct (first_free_after _ _ _ _ _ Hh2) as [->|?]; [by rewrite orb_true_r|].
      rewrite (proj2 (Z.ltb_lt _ _)) by lia. done. }
    exists x. rewrite updated_id by apply Hwf. rewrite Hlast. by repeat split.
Qed.

Lemma free_place_none s p x l1 sz u l2 fuel :
  let a := POOL_ALLOC_START_PTR x in
  pool_wf s p x (l1 ++ (sz, Used u) :: l2) -> last_free a l1 = None -> (0 < fuel)%nat ->
  exists m',
    free_place (mret tt) fuel p (endof a l1) (POOL_FREE_LIST_PTR x) s =
      Some (tt, updated s m' p (with_FREE_LIST (endof a l1) x)) /\
    heap m' p a (release l1 sz l2) (POOL_ALLOC_END_PTR x) 0 /\
    merged (mem s) m' a (endof a l1) (POOL_ALLOC_END_PTR x) l1 l2 (endof a l1 + sz) /\
    first_free a (release l1 sz l2) 0 = endof a l1.
Proof.
  intros a Hwf Hn Hf. destruct fuel as [|fuel]; [lia|]. clear Hf.
  pose proof Hwf as [Hp Hv Hst Hst4 Hend Hmap Hh Hfl]. fold a in Hst, Hst4, Hmap, Hh, Hfl.
  set (b := endof a l1) in *. set (e := POOL_ALLOC_END_PTR x) in *.
  pose proof (heap_aligned _ _ _ _ _ _ Hh Hst4) as He4.
  apply heap_app in Hh as [Hh1 Hh2]. fold b in Hh1, Hh2. simpl in Hh2.
  destruct Hh2 as (Hsz & Hsz4 & B0 & B4 & B8 & Hh2).
  pose proof (heap_le _ _ _ _ _ _ Hh1). pose proof (heap_le _ _ _ _ _ _ Hh2).
  pose proof (heap_aligned _ _ _ _ _ _ Hh1 Hst4) as Hb4.
  rewrite first_free_app, (first_free_none a l1) in Hfl by done. fold b in Hfl. simpl in Hfl.
  destruct (merge_next_run s p b sz l2 e) as (m' & Hrun & Hheap & [R1 R2 R3 R4]);
    [done|intros y Hy; apply Hmap; lia|lia|done..|].
  assert (release l1 sz l2 = l1 ++ ((absorb_next sz l2).1, Free) :: (absorb_next sz l2).2) as Hrel.
  { unfold release. destruct (absorb_next sz l2) as [sz' l2']. cbn [fst snd].
    destruct l1 as [|x1 l1]; [done|]. by apply (absorb_prev_gap a [] x1 l1). }
  exists m'. split_and!.
  - unfold free_place, mbind, M_bind. cbn [free_loop].
    erewrite bind_run by (by apply get_pool_run). rewrite Hfl.
    assert ((first_free (b + sz) l2 0 =? NULL) || (b <? first_free (b + sz) l2 0) = true) as ->.
    { destruct (first_free_after _ _ _ _ _ Hh2) as [->|?]; [done|].
      rewrite orb_comm, (proj2 (Z.ltb_lt _ _)) by lia. done. }
    rewrite (bind_run _ _ _ _ _ Hrun). erewrite bind_run by (by apply (upd_pool_run _ _ x)).
    done.
  - rewrite Hrel. apply heap_app. fold b. split; [|done]. cbn [first_free].
    eapply heap_frame; [by eapply heap_retarget|]. intros y Hy. apply R1. lia.
  - split; [intros y Hy; destruct Hy; [apply R1; lia|by apply R2]| |done|done].
    intros ad z v Hin y Hy. pose proof (layout_range _ _ _ _ _ _ _ _ _ Hh1 Hin). apply R1. lia.
  - rewrite Hrel, first_free_app, (first_free_none a l1) by done. done.
Qed.

Lemma merged_trans m0 m1 m2 a b e l1 sz l2 :
  a <= b -> b + sz <= e ->
  (forall ad z u, (ad, z, Used u) ∈ layout a l1 -> a <= ad /\ ad + z <= b) ->
  released m0 m1 b e (b + sz) l2 ->
  merged m1 m2 a b e l1 (absorb_next sz l2).2 (b + (absorb_next sz l2).1) ->
  merged m0 m2 a b e l1 l2 (b + sz).
Proof.
  intros Hab Hbe Hl1 [R1 R2 R3 R4] [M1 M2 M3 M4]. split.
  - intros y Hy. rewrite M1 by done. destruct Hy; [apply R1; lia|by apply R2].
  - intros ad z u Hin y Hy. rewrite (M2 _ _ _ Hin y Hy). apply R1.
    destruct (Hl1 _ _ _ Hin). lia.
  - intros ad z u Hin y Hy. rewrite <-(R3 _ _ _ Hin y Hy).
    destruct l2 as [|[fz [|v]] l2]; cbn [absorb_next fst snd] in M3; [by eapply M3| |by eapply M3].
    simpl in Hin. apply elem_of_cons in Hin as [?|Hin]; [done|].
    apply (M3 ad z u); [|done]. by rewrite Z.add_assoc.
  - auto.
Qed.

Lemma free_place_some s p x l1 sz u l2 fuel f :
  let a := POOL_ALLOC_START_PTR x in
  pool_wf s p x (l1 ++ (sz, Used u) :: l2) -> last_free a l1 = Some f ->
  (length l1 < fuel)%nat ->
  exists m' x',
    free_place (mret tt) fuel p (endof a l1) (POOL_FREE_LIST_PTR x) s =
      Some (tt, updated s m' p x') /\
    heap m' p a (release l1 sz l2) (POOL_ALLOC_END_PTR x) 0 /\
    merged (mem s) m' a (endof a l1) (POOL_ALLOC_END_PTR x) l1 l2 (endof a l1 + sz) /\
    first_free a (release l1 sz l2) 0 = POOL_FREE_LIST_PTR x /\ only_walk x x'.
Proof.
  intros a Hwf Hlast Hf.
  pose proof Hwf as [Hp Hv Hst Hst4 Hend Hmap Hh Hfl]. fold a in Hst, Hst4, Hmap, Hh, Hfl.
  set (b := endof a l1) in *. set (e := POOL_ALLOC_END_PTR x) in *.
  apply heap_app in Hh as [Hh1 Hh2]. fold b in Hh1, Hh2. simpl in Hh2.
  destruct Hh2 as (Hsz & Hsz4 & B0 & B4 & B8 & Hh2).
  pose proof (heap_le _ _ _ _ _ _ Hh1). pose proof (heap_le _ _ _ _ _ _ Hh2).
  pose proof (heap_aligned _ _ _ _ _ _ Hh1 Hst4) as Hb4.
  destruct (first_free_split a l1 b) as (la & fz & lb & El1 & Eff & _); [by rewrite Hlast|].
  assert (POOL_FREE_LIST_PTR x = endof a la) as Hfa.
  { rewrite Hfl, first_free_app, <-Eff. by eapply first_free_some. }
  destruct (free_loop_walk p sz u l2 l1 fuel la fz lb s x Hwf El1) as (x' & Hrun & Hw).
  { rewrite El1 in Hf. rewrite length_app in Hf. simpl in Hf. lia. }
  fold a b in Hrun. rewrite <-Hfa, Hlast in Hrun.
  set (s1 := updated s (mem s) p x') in *.
  destruct (merge_next_run s1 p b sz l2 e) as (m1 & Hrun1 & Hheap1 & HR1);
    [done|intros y Hy; apply Hmap; lia|lia|done..|].
  pose proof HR1 as [R1 R2 R3 R4].
  destruct (merge_prev_run (set_mem (fun _ => m1) s1) p a l1 b (first_free (b + sz) l2 0)
    (absorb_next sz l2).1 (absorb_next sz l2).2 e f) as (m2 & Hrun2 & Hheap2 & HM); try done.
  { eapply heap_frame; [done|]. intros y Hy. apply R1. lia. }
  { eapply mapped_ext; [apply R4|done]. }
  exists m2, x'. split_and!; [|unfold release; by destruct (absorb_next sz l2)| | |done].
  - unfold free_place. rewrite (bind_run _ _ _ _ _ Hrun). unfold free_insert, get_NEXTBLOCK.
    erewrite bind_run by (apply load_run, (heap_last_next _ _ _ _ _ _ _ Hh1 Hlast)).
    rewrite (bind_run _ _ _ _ _ Hrun1). rewrite Hrun2. done.
  - eapply merged_trans; [lia..| |done|done]. intros ad z v Hin. by eapply layout_range.
  - unfold release. destruct (absorb_next sz l2) as [sz' l2'].
    rewrite (first_free_absorb _ _ _ _ _ f) by done. rewrite Hfl, first_free_app.
    by eapply first_free_some.
Qed.

(** The state of pool [p] after the release of the block between [l1] and [l2]. *)
Definition free_result (s : state) (p : Z) (x : pool) (l1 : blocks) (sz : Z) (l2 : blocks)
    (s' : state) : Prop :=
  exists x', same_pool x x' /\ HIGHWATER x' = HIGHWATER x /\
    TASK_ERROR_CODE s' = TASK_ERROR_CODE s /\
    pool_wf s' p x' (release l1 sz l2) /\ frame s s' p x (l1 ++ (sz, Free) :: l2).

Lemma free_finish s p x l1 sz u l2 m' x1 :
  let a := POOL_ALLOC_START_PTR x in
  pool_wf s p x (l1 ++ (sz, Used u) :: l2) ->
  heap m' p a (release l1 sz l2) (POOL_ALLOC_END_PTR x) 0 ->
  merged (mem s) m' a (endof a l1) (POOL_ALLOC_END_PTR x) l1 l2 (endof a l1 + sz) ->
  same_pool x x1 -> HIGHWATER x1 = HIGHWATER x ->
  POOL_FREE_LIST_PTR x1 = first_free a (release l1 sz l2) 0 ->
  exists s', reset_walks p (updated s m' p x1) = Some (tt, s') /\ free_result s p x l1 sz l2 s'.
Proof.
  intros a Hwf Hh [M1 M2 M3 M4] [S1 S2 S3] Hhw Hfl.
  eexists. split; [apply (reset_walks_run _ _ x1); simpl; apply lookup_insert_eq|].
  rewrite updated_updated. cbn [mem updated].
  exists (walks_reset x1). destruct Hwf. split_and!; [by split|done|done| |].
  - split; simpl; rewrite ?S1, ?S2, ?S3; try done.
    + by rewrite lookup_insert_eq.
    + by eapply mapped_ext.
  - split; simpl; try done.
    + fold a. intros ad z v Hin. rewrite layout_app in Hin. simpl in Hin.
      apply elem_of_app in Hin as [Hin|Hin]; [by eapply M2|].
      apply elem_of_cons in Hin as [?|Hin]; [done|by eapply M3].
    + intros q Hq. by rewrite lookup_insert_ne.
Qed.

Lemma lwmem_free_run s p x l1 sz u l2 fuel :
  let a := POOL_ALLOC_START_PTR x in
  pool_wf s p x (l1 ++ (sz, Used u) :: l2) -> (length l1 < fuel)%nat ->
  w16 u = TASK_NUMBER_FROM_TASKID (ACTIVE_TASK_ID s) \/ w16 u = SYSTEM_TASK_NUMBER ->
  exists s', _lwmem_free (mret tt) fuel (endof a l1 + sizeof_BLOCK) s = Some (MQX_OK, s') /\
    free_result s p x l1 sz l2 s'.
Proof.
  intros a Hwf Hf Hown.
  pose proof Hwf as [Hp Hv Hst _ Hend _ Hh _]. fold a in Hst, Hh.
  set (b := endof a l1) in *. set (e := POOL_ALLOC_END_PTR x) in *.
  apply heap_app in Hh as [Hh1 Hh2]. fold b in Hh1, Hh2. simpl in Hh2.
  destruct Hh2 as (Hsz & Hsz4 & B0 & B4 & B8 & Hh2).
  pose proof (heap_le _ _ _ _ _ _ Hh1). pose proof (heap_le _ _ _ _ _ _ Hh2).
  unfold _lwmem_free, sizeof_BLOCK, GET_LWMEMBLOCK_PTR, sizeof_BLOCK.
  rewrite (proj2 (Z.eqb_neq _ _)) by (unfold NULL; lia).
  replace (b + 12 - 12) with b by lia. rewrite wrap_small by lia.
  unfold get_POOL, get_TASK_NUMBER. erewrite bind_run by (by apply load_run).
  erewrite bind_run by (by apply get_pool_run).
  rewrite Hv, Z.eqb_refl. cbn [negb]. rewrite bind_assoc.
  erewrite bind_run by (by apply load_run). rewrite bind_ret_l.
  erewrite bind_run by reflexivity.
  assert ((w16 u =? TASK_NUMBER_FROM_TASKID (ACTIVE_TASK_ID s)) || (w16 u =? SYSTEM_TASK_NUMBER)
          = true) as ->.
  { apply orb_true_iff. rewrite !Z.eqb_eq. tauto. }
  cbn [negb].
  destruct (last_free a l1) as [f|] eqn:E.
  - destruct (free_place_some s p x l1 sz u l2 fuel f)
      as (m' & x' & Hrun & Hheap & HM & Hff & Hsp & Hfl & Hhw); [done..|].
    rewrite (bind_run _ _ _ _ _ Hrun).
    destruct (free_finish s p x l1 sz u l2 m' x') as (s' & R & HR); [done..|by rewrite Hff|].
    rewrite (bind_run _ _ _ _ _ R). eauto.
  - destruct (free_place_none s p x l1 sz u l2 fuel) as (m' & Hrun & Hheap & HM & Hff);
      [done..|lia|].
    rewrite (bind_run _ _ _ _ _ Hrun).
    destruct (free_finish s p x l1 sz u l2 m' (with_FREE_LIST b x)) as (s' & R & HR);
      try done.
    rewrite (bind_run _ _ _ _ _ R). eauto.
Qed.

(** ** Coalescing *)

(** Join all runs of adjacent free blocks. *)
Fixpoint coalesce (l : blocks) : blocks :=
  match l with
  | [] => []
  | (z, Free) :: l' =>
      match coalesce l' with
      | (z', Free) :: r => (z + z', Free) :: r
      | r => (z, Free) :: r
      end
  | x :: l' => x :: coalesce l'
  end.

Lemma coalesced_tail x l : coalesced (x :: l) -> coalesced l.
Proof. destruct x as [z [|u]]; [|done]. destruct l as [|[z' k] l]; [done|]. by intros [_ H]. Qed.

Lemma coalesced_app_r l1 l2 : coalesced (l1 ++ l2) -> coalesced l2.
Proof. induction l1 as [|x l1 IH]; [done|]. intros H. by eapply IH, coalesced_tail. Qed.

Lemma coalesce_id l : coalesced l -> coalesce l = l.
Proof.
  induction l as [|[z [|u]] l IH]; intros H; [done| |].
  - simpl. rewrite IH by (by eapply coalesced_tail).
    destruct l as [|[z' [|v]] l]; [done| |done]. by destruct H.
  - simpl. by rewrite IH.
Qed.

Lemma release_coalesce l1 sz u l2 : coalesced (l1 ++ (sz, Used u) :: l2) ->
  release l1 sz l2 = coalesce (l1 ++ (sz, Free) :: l2).
Proof.
  induction l1 as [|x l1 IH]; intros H.
  - simpl. rewrite coalesce_id by (by eapply coalesced_tail).
    by destruct l2 as [|[z [|v]] l2].
  - specialize (IH (coalesced_tail _ _ H)). cbn [app coalesce].
    rewrite <-IH. unfold release. destruct (absorb_next sz l2) as [sz' l2'] eqn:E.
    destruct x as [z [|v]]; [|by destruct l1].
    destruct l1 as [|[z' [|v]] l1]; [done|by destruct H|]. by destruct l1.
Qed.

Lemma coalesced_coalesce l : coalesced (coalesce l).
Proof.
  induction l as [|[z [|u]] l IH]; [done| |done].
  simpl. destruct (coalesce l) as [|[z' [|v]] r]; [done| |done].
  destruct r as [|[z2 k] r]; done.
Qed.

Lemma absorb_prev_id l1 sz l2 : coalesced (l1 ++ (sz, Free) :: l2) ->
  absorb_prev l1 sz l2 = l1 ++ (sz, Free) :: l2.
Proof.
  induction l1 as [|[z k] l1 IH]; intros H; [done|].
  pose proof (IH (coalesced_tail _ _ H)) as E.
  destruct l1 as [|y l1]; [|cbn [app absorb_prev] in *; by rewrite <-E; destruct k].
  destruct k; [by destruct H|done].
Qed.

(** Where first fit allocates, and that releasing the block undoes it. *)
Lemma first_fit_split req u a l b z l' :
  first_fit req u a l = Some (b, z, l') ->
  exists l1 l2, l' = l1 ++ (z, Used u) :: l2 /\ b = endof a l1 /\ (length l1 <= length l)%nat /\
    (coalesced l -> release l1 z l2 = l /\ coalesced l').
Proof.
  revert a l'. induction l as [|[sz k] l IH]; intros a l'; simpl; [done|].
  assert (match first_fit req u (a + sz) l with
          | Some (r, z, l'') => Some (r, z, (sz, k) :: l'') | None => None end = Some (b, z, l') ->
    exists l1 l2, l' = l1 ++ (z, Used u) :: l2 /\ b = endof a l1 /\
      (length l1 <= S (length l))%nat /\
      (coalesced ((sz, k) :: l) -> release l1 z l2 = (sz, k) :: l /\ coalesced l')) as Hrec.
  { destruct (first_fit req u (a + sz) l) as [[[r' z'] l'']|] eqn:E; [|done].
    intros [= -> -> <-]. destruct (IH _ _ E) as (l1 & l2 & -> & -> & Hlen & Hc).
    exists ((sz, k) :: l1), l2. split_and!; [done|by rewrite (endof_cons a sz k)|simpl; lia|].
    intros Hco. destruct (Hc (coalesced_tail _ _ Hco)) as [Hr Hl].
    unfold release in *. destruct (absorb_next z l2) as [z2 l3].
    destruct k.
    - destruct l1 as [|[z1 k1] l1].
      + simpl in Hr. subst l. by destruct Hco.
      + split; [cbn [absorb_prev app]; rewrite <-Hr; done|].
        assert (exists r, absorb_prev ((z1, k1) :: l1) z2 l3 = (z1, k1) :: r \/ k1 = Free) as [r Hr'].
        { destruct l1; [destruct k1; [by exists []; right|]|]; eexists; left; [done|].
          by destruct k1. }
        destruct Hr' as [Hr'| ->].
        * rewrite Hr' in Hr. subst l. cbn [app coalesced]. by destruct Hco.
        * exfalso. destruct l1; simpl in Hr; subst l; by destruct Hco.
    - split; [|done]. destruct l1; [simpl in Hr; by rewrite <-Hr|].
      cbn [absorb_prev]. by rewrite <-Hr. }
  destruct k; [|by apply Hrec]. destruct (req <=? sz) eqn:E; [|by apply Hrec].
  intros [= <- <- <-]. clear Hrec IH. unfold carve, carved_size.
  destruct (16 <=? sz - req).
  - exists [], ((sz - req, Free) :: l). split_and!; [done|done|simpl; lia|].
    intros Hco. split; [|done]. unfold release. simpl. do 2 f_equal. lia.
  - exists [], l. split_and!; [done|done|simpl; lia|]. intros Hco. unfold release. simpl.
    destruct l as [|[z [|v]] l]; [done|by destruct Hco|by destruct Hco].
Qed.

(** ** Accounting *)

Fixpoint free_bytes (l : blocks) : Z :=
  match l with
  | [] => 0
  | (z, Free) :: l' => z + free_bytes l'
  | (_, Used _) :: l' => free_bytes l'
  end.

Lemma free_bytes_bound m p a l e n : heap m p a l e n -> 0 <= free_bytes l <= e - a.
Proof.
  revert a. induction l as [|[z k] l IH]; intros a; simpl; [lia|].
  intros (? & _ & _ & _ & _ & H). apply IH in H. destruct k; lia.
Qed.

Lemma get_free_loop_spec p x0 l2 : forall l1 fuel s x acc,
  pool_wf s p x (l1 ++ l2) -> only_walk x0 x -> (length l2 < fuel)%nat ->
  0 <= acc -> acc + free_bytes l2 < 4294967296 ->
  exists x', get_free_loop (mret tt) fuel p
      (first_free (endof (POOL_ALLOC_START_PTR x) l1) l2 0) acc s =
    Some (acc + free_bytes l2, updated s (mem s) p x') /\ only_walk x0 x'.
Proof.
  induction l2 as [|[sz k] l2 IH]; intros l1 fuel s x acc Hwf Hw Hf Ha0 Hacc.
  - destruct fuel as [|fuel]; [simpl in Hf; lia|]. exists x. simpl.
    rewrite updated_id by apply Hwf. by rewrite Z.add_0_r.
  - pose proof (wf_heap _ _ _ _ Hwf) as Hh. apply heap_app in Hh as [Hh1 Hh2].
    pose proof (heap_le _ _ _ _ _ _ Hh1) as Hle. pose proof (wf_start _ _ _ _ Hwf) as Hst.
    pose proof (free_bytes_bound _ _ _ _ _ _ Hh2) as Hfb.
    simpl in Hh2. destruct Hh2 as (Hsz & _ & Hb & _ & Hb8 & Hh2).
    pose proof (free_bytes_bound _ _ _ _ _ _ Hh2) as Hfb2.
    set (b := endof (POOL_ALLOC_START_PTR x) l1) in *.
    assert (endof (POOL_ALLOC_START_PTR x) (l1 ++ [(sz, k)]) = b + sz) as Eb.
    { rewrite endof_app. fold b. simpl. lia. }
    destruct k as [|u].
    + destruct fuel as [|fuel]; [simpl in Hf; lia|]. cbn [first_free get_free_loop free_bytes] in *.
      rewrite (proj2 (Z.eqb_neq b NULL)) by (unfold NULL; lia).
      erewrite bind_run by (by eapply upd_pool_run, Hwf).
      change (set_pools _ s) with (updated s (mem s) p (with_ALLOC b x)).
      assert (only_walk x (with_ALLOC b x)) as Hw1 by (by repeat split).
      pose proof (wf_walk _ _ _ _ _ Hwf Hw1) as Hwf1. rewrite bind_ret_l.
      erewrite bind_run by (apply get_pool_run, Hwf1). cbn [POOL_ALLOC_PTR with_ALLOC].
      rewrite Z.eqb_refl. cbn [negb]. unfold get_BLOCKSIZE, get_NEXTBLOCK.
      erewrite bind_run by (by apply load_run). erewrite bind_run by (by apply load_run).
      destruct (IH (l1 ++ [(sz, Free)]) fuel (updated s (mem s) p (with_ALLOC b x))
        (with_ALLOC b x) (w32 (acc + sz)))
        as (x' & Hrun & Hx').
      * rewrite <-app_assoc. exact Hwf1.
      * by eapply only_walk_trans.
      * simpl in Hf. lia.
      * apply wrap_range. lia.
      * rewrite wrap_small by lia. lia.
      * exists x'. cbn [POOL_ALLOC_START_PTR with_ALLOC] in Hrun. rewrite Eb in Hrun.
        cbn [mem updated] in Hrun. rewrite updated_updated in Hrun.
        rewrite Hrun, wrap_small by lia. by rewrite Z.add_assoc.
    + destruct (IH (l1 ++ [(sz, Used u)]) fuel s x acc) as (x' & Hrun & Hx');
        [by rewrite <-app_assoc|done|simpl in Hf; lia|done|done|].
      rewrite Eb in Hrun. eauto.
Qed.

(** ** Self test *)

(** The first free block that has a free block right behind it. *)
Fixpoint bad_block (a : Z) (l : blocks) : option Z :=
  match l with
  | (z, Free) :: (((_, Free) :: _) as l') => Some a
  | (z, _) :: l' => bad_block (a + z) l'
  | [] => None
  end.

Lemma bad_block_coalesced a l : bad_block a l = None <-> coalesced l.
Proof.
  revert a. induction l as [|[z [|u]] l IH]; intros a; [done| |apply IH].
  destruct l as [|[z' [|v]] l].
  - done.
  - simpl. split; [done|]. by intros [H _].
  - change (bad_block (a + z) ((z', Used v) :: l) = None <->
      Used v <> Free /\ coalesced ((z', Used v) :: l)). rewrite IH. naive_solver.
Qed.

Lemma test_blocks_spec p x0 l2 : forall l1 fuel s x,
  pool_wf s p x (l1 ++ l2) -> only_walk x0 x -> (length l2 < fuel)%nat ->
  exists x', test_blocks (mret tt) fuel p (endof (POOL_ALLOC_START_PTR x) l1) s =
    Some (None, updated s (mem s) p x') /\ only_walk x0 x'.
Proof.
  induction l2 as [|[sz k] l2 IH]; intros l1 fuel s x Hwf Hw Hf;
    (destruct fuel as [|fuel]; [simpl in Hf; lia|]);
    pose proof (wf_heap _ _ _ _ Hwf) as Hh; apply heap_app in Hh as [Hh1 Hh2];
    cbn [test_blocks]; erewrite bind_run by (apply get_pool_run, Hwf).
  - simpl in Hh2. rewrite Hh2, Z.ltb_irrefl. cbn [negb]. exists x.
    by rewrite updated_id by apply Hwf.
  - simpl in Hh2. destruct Hh2 as (Hsz & _ & Hb & Hb4 & _ & Hh2).
    pose proof (heap_le _ _ _ _ _ _ Hh1). pose proof (heap_le _ _ _ _ _ _ Hh2).
    pose proof (wf_start _ _ _ _ Hwf). pose proof (wf_end _ _ _ _ Hwf).
    set (b := endof (POOL_ALLOC_START_PTR x) l1) in *.
    rewrite (proj2 (Z.ltb_lt _ _)) by lia. cbn [negb].
    erewrite bind_run by (by eapply upd_pool_run, Hwf).
    change (set_pools _ s) with (updated s (mem s) p (with_TEST2 b x)).
    assert (only_walk x (with_TEST2 b x)) as Hw1 by (by repeat split).
    pose proof (wf_walk _ _ _ _ _ Hwf Hw1) as Hwf1. rewrite bind_ret_l.
    erewrite bind_run by (apply get_pool_run, Hwf1). cbn [POOL_TEST2_PTR with_TEST2].
    unfold get_POOL, get_BLOCKSIZE. erewrite bind_run by (by apply load_run).
    rewrite Z.eqb_refl. cbn [negb]. erewrite bind_run by (by apply load_run).
    destruct (IH (l1 ++ [(sz, k)]) fuel (updated s (mem s) p (with_TEST2 b x)) (with_TEST2 b x))
      as (x' & Hrun & Hx');
      [rewrite <-app_assoc; exact Hwf1|by eapply only_walk_trans|simpl in Hf; lia|].
    exists x'. rewrite endof_app in Hrun. cbn [POOL_ALLOC_START_PTR with_TEST2 endof mem updated] in Hrun.
    fold b in Hrun. rewrite updated_updated in Hrun. rewrite wrap_small by lia.
    by rewrite (Z.add_comm b sz).
Qed.

Lemma bad_block_free a z l : bad_block a ((z, Free) :: l) =
  match l with (_, Free) :: _ => Some a | _ => bad_block (a + z) l end.
Proof. by destruct l as [|[z' [|v]] l]. Qed.

Lemma test_free_list_spec p x0 l2 : forall l1 fuel s x,
  pool_wf s p x (l1 ++ l2) -> only_walk x0 x -> (length l2 < fuel)%nat ->
  exists x', test_free_list (mret tt) fuel p
      (first_free (endof (POOL_ALLOC_START_PTR x) l1) l2 0) s =
    Some (bad_block (endof (POOL_ALLOC_START_PTR x) l1) l2, updated s (mem s) p x') /\
    only_walk x0 x'.
Proof.
  induction l2 as [|[sz k] l2 IH]; intros l1 fuel s x Hwf Hw Hf;
    (destruct fuel as [|fuel]; [simpl in Hf; lia|]).
  - exists x. by rewrite updated_id by apply Hwf.
  - pose proof (wf_heap _ _ _ _ Hwf) as Hh; apply heap_app in Hh as [Hh1 Hh2].
    simpl in Hh2. destruct Hh2 as (Hsz & _ & Hb & Hb4 & Hb8 & Hh2).
    pose proof (heap_le _ _ _ _ _ _ Hh1). pose proof (heap_le _ _ _ _ _ _ Hh2).
    pose proof (wf_start _ _ _ _ Hwf). pose proof (wf_end _ _ _ _ Hwf).
    set (b := endof (POOL_ALLOC_START_PTR x) l1) in *.
    assert (endof (POOL_ALLOC_START_PTR x) (l1 ++ [(sz, k)]) = b + sz) as Eb.
    { rewrite endof_app. fold b. simpl. lia. }
    destruct k as [|u].
    + cbn [first_free test_free_list].
      rewrite (proj2 (Z.eqb_neq b NULL)) by (unfold NULL; lia).
      erewrite bind_run by (by eapply upd_pool_run, Hwf).
      change (set_pools _ s) with (updated s (mem s) p (with_TEST b x)).
      assert (only_walk x (with_TEST b x)) as Hw1 by (by repeat split).
      pose proof (wf_walk _ _ _ _ _ Hwf Hw1) as Hwf1. rewrite bind_ret_l.
      erewrite bind_run by (apply get_pool_run, Hwf1).
      cbn [POOL_TEST_PTR POOL_ALLOC_START_PTR POOL_ALLOC_END_PTR with_TEST].
      rewrite (proj2 (Z.ltb_ge b _)), (proj2 (Z.ltb_ge _ b)) by lia. cbn [orb].
      unfold get_POOL, get_BLOCKSIZE, get_NEXTBLOCK. erewrite bind_run by (by apply load_run).
      rewrite Z.eqb_refl. cbn [negb]. erewrite bind_run by (by apply load_run).
      erewrite bind_run by (by apply load_run). rewrite wrap_small by lia.
      rewrite bad_block_free.
      destruct (IH (l1 ++ [(sz, Free)]) fuel (updated s (mem s) p (with_TEST b x)) (with_TEST b x))
        as (x' & Hrun & Hx');
        [rewrite <-app_assoc; exact Hwf1|by eapply only_walk_trans|simpl in Hf; lia|].
      cbn [POOL_ALLOC_START_PTR with_TEST] in Hrun. rewrite Eb in Hrun.
      cbn [mem updated] in Hrun. rewrite updated_updated in Hrun.
      destruct l2 as [|[z' [|v]] l2].
      * exists x'. done.
      * cbn [first_free]. rewrite (proj2 (Z.eqb_neq (b + sz) NULL)) by (unfold NULL; lia).
        rewrite Z.leb_refl. cbn [negb andb]. exists (with_TEST b x). split; [done|].
        by apply (only_walk_trans _ x).
      * assert (negb (first_free (b + sz) ((z', Used v) :: l2) 0 =? NULL) &&
          (first_free (b + sz) ((z', Used v) :: l2) 0 <=? b + sz) = false) as ->; [|by exists x'].
        simpl in Hh2. destruct Hh2 as (Hz' & _ & _ & _ & _ & Hh2). cbn [first_free].
        destruct (first_free_after _ _ _ _ _ Hh2) as [->|?]; [done|].
        rewrite (proj2 (Z.leb_gt _ _)) by lia. apply andb_false_r.
    + destruct (IH (l1 ++ [(sz, Used u)]) (S fuel) s x) as (x' & Hrun & Hx');
        [by rewrite <-app_assoc|done|simpl in Hf; lia|].
      rewrite Eb in Hrun. exists x'. split; [exact Hrun|done].
Qed.


(** Pool [id] consists of the blocks [l]. *)
Definition has_blocks (s : state) (id : Z) (l : blocks) : Prop := exists x, pool_wf s id x l.

Lemma has_blocks_walk s p x x' q l :
  pools s !! p = Some x -> only_walk x x' -> has_blocks s q l ->
  has_blocks (updated s (mem s) p x') q l.
Proof.
  intros Hp Hw [y Hy]. destruct (decide (q = p)) as [->|Hne].
  - assert (y = x) as -> by (pose proof (wf_pool _ _ _ _ Hy); congruence).
    exists x'. by eapply wf_walk.
  - exists y. destruct Hy. split; simpl; rewrite ?lookup_insert_ne by done; done.
Qed.

Lemma test_pools_spec fuel ids ls : forall s,
  Forall2 (has_blocks s) ids ls -> Forall (fun l => (length l < fuel)%nat) ls ->
  exists r pe be s', test_pools (mret tt) fuel ids s = Some ((r, pe, be), s') /\
    mem s' = mem s /\
    (r = MQX_OK /\ Forall coalesced ls \/
     r = MQX_CORRUPT_STORAGE_POOL_FREE_LIST /\ ~ Forall coalesced ls).
Proof.
  revert ls. induction ids as [|id ids IH]; intros ls s Hwf Hf.
  - inversion Hwf; subst. do 4 eexists. split; [reflexivity|]. split; [done|]. by left.
  - inversion Hwf as [|? l ? ls' [x Hx] Hrest]; subst. inversion Hf as [|? ? Hfl Hfr]; subst.
    cbn [test_pools]. erewrite bind_run by (apply get_pool_run, Hx).
    rewrite (wf_valid _ _ _ _ Hx), Z.eqb_refl. cbn [negb].
    assert (only_walk x x) as Hxx by (by repeat split).
    destruct (test_blocks_spec id x l [] fuel s x) as (x1 & R1 & W1); [done..|].
    cbn [endof] in R1. rewrite (bind_run _ _ _ _ _ R1).
    pose proof (wf_walk _ _ _ _ _ Hx W1) as Hx1.
    erewrite bind_run by (apply get_pool_run, Hx1).
    destruct (test_free_list_spec id x1 l [] fuel (updated s (mem s) id x1) x1) as (x2 & R2 & W2);
      [done|by repeat split|done|].
    cbn [endof mem updated] in R2. rewrite updated_updated in R2.
    rewrite (wf_free _ _ _ _ Hx1). rewrite (bind_run _ _ _ _ _ R2).
    pose proof (bad_block_coalesced (POOL_ALLOC_START_PTR x1) l) as Hbad.
    destruct (bad_block (POOL_ALLOC_START_PTR x1) l) as [b|].
    + do 4 eexists. split; [reflexivity|]. split; [done|]. right. split; [done|].
      intros Hc. inversion Hc; subst. by destruct Hbad as [_ Hbad]; specialize (Hbad H1).
    + destruct (IH ls' (updated s (mem s) id x2)) as (r & pe & be & s' & R & Hm & Hr).
      * eapply Forall2_impl; [exact Hrest|]. intros q k. eapply (has_blocks_walk s id x); [apply Hx|].
        by eapply only_walk_trans.
      * done.
      * exists r, pe, be, s'. split; [done|]. split; [done|].
        destruct Hr as [[-> Hr]|[-> Hr]]; [left|right]; split; try done.
        -- constructor; [by apply Hbad|done].
        -- intros Hc. by inversion Hc.
Qed.

(** ** Creating a pool *)

Lemma align_up_val v : 0 <= v -> v + 15 < 4294967296 ->
  _ALIGN_ADDR_TO_HIGHER_MEM v = (v + 15) / 16 * 16.
Proof.
  intros H1 H2. unfold _ALIGN_ADDR_TO_HIGHER_MEM. rewrite align16.
  change PSP_MEMORY_ALIGNMENT with 15. rewrite wrap_small by lia. zdm.
Qed.

Lemma align_down_val v : _ALIGN_ADDR_TO_LOWER_MEM v = v / 16 * 16.
Proof. unfold _ALIGN_ADDR_TO_LOWER_MEM. rewrite align16. zdm. Qed.

Lemma create_pool_run s p x0 start size :
  let lo := (start + 15) / 16 * 16 in
  let hi := (start + size) / 16 * 16 in
  pools s !! p = Some x0 -> 0 < start -> start + 15 < 4294967296 -> start + size < 4294967296 ->
  lo + 16 <= hi -> mapped (mem s) lo hi ->
  exists s' x, _lwmem_create_pool p start size s = Some (p, s') /\
    pool_wf s' p x [(hi - lo, Free)] /\ POOL_ALLOC_START_PTR x = lo /\ HIGHWATER x = lo /\
    LWMEM_POOLS s' = Some (default [] (LWMEM_POOLS s) ++ [p]) /\
    (forall y, y < lo \/ hi <= y -> mem s' !! y = mem s !! y) /\
    (forall q, q <> p -> pools s' !! q = pools s !! q).
Proof.
  intros lo hi Hp Hst Hov He Hlh Hm.
  assert (lo mod 16 = 0) as Hlo by (unfold lo; zdm).
  assert (hi mod 16 = 0) as Hhi by (unfold hi; zdm).
  assert (start <= lo) as Hlo2 by (unfold lo; zdm).
  assert (hi <= start + size) as Hhi2 by (unfold hi; zdm).
  assert (lo mod 4 = 0 /\ (hi - lo) mod 4 = 0) as [Hlo4 Hd4] by (split; zdm).
  unfold _lwmem_create_pool. rewrite align_up_val, align_down_val by lia.
  destruct (decide (0 <= size)) as [Hs|Hs]; [|zdm].
  rewrite (wrap_small 32 (start + size)) by lia. fold lo hi.
  rewrite (wrap_small 32 (hi - lo)) by lia. clearbody lo hi.
  unfold set_BLOCKSIZE, set_NEXTBLOCK, set_POOL.
  erewrite bind_run by (apply store_run, Hm; [lia|zdm]).
  erewrite bind_run by (apply store_run; mlook; apply Hm; [lia|zdm]).
  erewrite bind_run by (apply store_run; mlook; apply Hm; [lia|zdm]).
  erewrite bind_run by (by apply get_pool_run).
  erewrite bind_run by (by eapply upd_pool_run).
  erewrite bind_run by reflexivity. erewrite bind_run by reflexivity.
  erewrite bind_run by (eapply upd_pool_run; simpl; apply lookup_insert_eq).
  unfold mret, M_ret.
  eexists _, (Pool LWMEM_POOL_VALID lo hi lo lo lo lo (POOL_TEST2_PTR x0) (POOL_DESTROY_PTR x0) lo).
  split; [reflexivity|]. simpl. rewrite insert_insert_eq.
  split_and!; [|done|done|done| |].
  - split; simpl; [by rewrite lookup_insert_eq|done|lia|done|lia| | |done].
    + intros y Hy Hy4. do 3 apply insert_keeps_some. by apply Hm.
    + split_and!; [lia|done|by mlook..|lia].
  - intros y Hy. by mlook.
  - intros q Hq. by rewrite lookup_insert_ne.
Qed.

(** ** Alignment *)

Lemma pow2_of_land v : 0 < v -> Z.land v (v - 1) = 0 -> v = 2 ^ Z.log2 v.
Proof.
  intros Hv Hl. destruct (Z.log2_spec v Hv) as [H1 H2].
  destruct (decide (v = 2 ^ Z.log2 v)) as [|Hne]; [done|]. exfalso.
  assert (Z.log2 (v - 1) = Z.log2 v) as Hlog.
  { apply Z.log2_unique; [apply Z.log2_nonneg|lia]. }
  pose proof (Z.log2_nonneg v) as Hn.
  assert (Z.testbit (Z.land v (v - 1)) (Z.log2 v) = true) as Hb.
  { rewrite Z.land_spec, Z.bit_log2 by done. rewrite <-Hlog, Z.bit_log2; [done|].
    assert (0 < 2 ^ Z.log2 v) by (by apply Z.pow_pos_nonneg). lia. }
  by rewrite Hl, Z.bits_0 in Hb.
Qed.

Lemma land_mask32 v k : 0 <= v < 2 ^ 32 -> 0 <= k < 32 ->
  Z.land v (w32 (Z.lnot (w32 (2 ^ k - 1)))) = v - v mod 2 ^ k.
Proof.
  intros Hv Hk. assert (0 < 2 ^ k) by (apply Z.pow_pos_nonneg; lia).
  assert (2 ^ k < 2 ^ 32) by (apply Z.pow_lt_mono_r; lia).
  rewrite (wrap_small 32 (2 ^ k - 1)) by lia. rewrite <-land_lnot_low by lia.
  unfold wrap. rewrite <-Z.land_ones, (Z.land_comm _ (Z.ones 32)), Z.land_assoc by lia.
  f_equal. rewrite Z.land_ones by lia. by apply Z.mod_small.
Qed.

(** Whatever happens in the windows, the block starts where the caller asked. *)
Lemma align_shift_aligned b k : 0 <= k < 32 ->
  w32 (w32 (b + align_shift b (2 ^ k)) + sizeof_BLOCK) mod 2 ^ k = 0.
Proof.
  intros Hk. assert (0 < 2 ^ k) by (apply Z.pow_pos_nonneg; lia).
  assert (2 ^ 32 = 2 ^ k * 2 ^ (32 - k)) as Hsplit by (rewrite <-Z.pow_add_r; [f_equal; lia|lia..]).
  assert (forall v, 0 <= v < 2 ^ 32 ->
    w32 (w32 (b + w32 (Z.land v (w32 (Z.lnot (w32 (2 ^ k - 1)))) - w32 (b + sizeof_BLOCK)))
      + sizeof_BLOCK) mod 2 ^ k = 0) as Hgo.
  { intros v Hv. rewrite land_mask32 by done.
    set (u := v - v mod 2 ^ k).
    assert (u mod 2 ^ k = 0) as Hu.
    { unfold u. rewrite Zminus_mod_idemp_r. by rewrite Z.sub_diag. }
    rewrite wrap_add_l. replace (b + w32 (u - w32 (b + sizeof_BLOCK)) + sizeof_BLOCK)
      with (w32 (u - w32 (b + sizeof_BLOCK)) + (b + sizeof_BLOCK)) by lia.
    rewrite wrap_add_l, <-wrap_add_r. replace (u - w32 (b + sizeof_BLOCK) + w32 (b + sizeof_BLOCK))
      with u by lia.
    unfold wrap. rewrite Hsplit at 1. rewrite Z.rem_mul_r by (try apply Z.pow_pos_nonneg; lia).
    rewrite Hu, Z.mul_comm. simpl. apply Z.mod_mul. lia. }
  unfold align_shift. case_if; apply Hgo; apply wrap_range; lia.
Qed.

Lemma alloc_finish_value p req t zero b prev nx s r s' :
  alloc_finish p req t zero b prev nx s = Some (r, s') -> r = w32 (b + sizeof_BLOCK).
Proof. unfold alloc_finish. intros H. by minv. Qed.

Lemma alloc_align_loop_value window fuel p req al t zero b s r s' :
  alloc_align_loop window fuel p req al t zero b s = Some (r, s') ->
  r = NULL \/ exists b', r = w32 (w32 (b' + align_shift b' al) + sizeof_BLOCK).
Proof.
  revert b s. induction fuel as [|fuel IH]; intros b s H; [done|].
  cbn [alloc_align_loop] in H. destruct (b =? NULL); [minv; by left|].
  minv. set (b' := if negb _ then _ else _) in *. destruct (b' =? NULL); [minv; by left|].
  minv. destruct (_ <=? _).
  - right. exists b'. unfold alloc_align_carve in H. minv.
    match type of H with (let '(_, _) := ?q in _) _ = _ => destruct q end.
    minv. by eapply alloc_finish_value.
  - minv. by eapply IH.
Qed.

(** ** Properties *)

(** C7: Allocation from a pool of blocks is first fit: the allocator returns
    the payload of the first free block that holds the rounded-up request,
    split when 16 bytes or more are left, clears it when asked to, moves the
    high water mark past it and touches no block in use and no other pool; when
    no block is large enough it returns NULL with MQX_OUT_OF_MEMORY and the
    blocks are as before. *)
Theorem lwmem_alloc_first_fit s p x l rs t zero fuel
  (Hwf : pool_wf s p x l) (Hrs : 0 <= rs) (Hov : rs + 27 < 4294967296)
  (Hfuel : (length l < fuel)%nat) :
  exists r s', _lwmem_alloc_internal (mret tt) fuel rs t p zero s = Some (r, s') /\
    alloc_result s ((rs + 27) / 16 * 16) t p zero x l r s'.
Proof. apply alloc_internal_run; [done|by apply adjust_size_val|zdm|zdm|done]. Qed.

(** C20: Releasing a block the active task owns succeeds and leaves the pool as
    the maximally coalesced list of its blocks, with every other used block and
    every other pool untouched. *)
Theorem lwmem_free_coalesces s p x l1 sz u l2 fuel
  (Hwf : pool_wf s p x (l1 ++ (sz, Used u) :: l2)) (Hfuel : (length l1 < fuel)%nat)
  (Hc : coalesced (l1 ++ (sz, Used u) :: l2))
  (Hown : w16 u = TASK_NUMBER_FROM_TASKID (ACTIVE_TASK_ID s) \/ w16 u = SYSTEM_TASK_NUMBER) :
  exists s', _lwmem_free (mret tt) fuel (endof (POOL_ALLOC_START_PTR x) l1 + sizeof_BLOCK) s =
      Some (MQX_OK, s') /\
    has_blocks s' p (coalesce (l1 ++ (sz, Free) :: l2)) /\
    coalesced (coalesce (l1 ++ (sz, Free) :: l2)) /\
    frame s s' p x (l1 ++ (sz, Free) :: l2).
Proof.
  destruct (lwmem_free_run s p x l1 sz u l2 fuel) as (s' & R & x' & _ & _ & _ & Hwf' & Hfr);
    [done..|].
  rewrite (release_coalesce _ _ u) in Hwf' by done.
  exists s'. split_and!; [done|by exists x'|apply coalesced_coalesce|done].
Qed.

(** C23: A block that is allocated and then released leaves the pool with the
    blocks it had before. *)
Theorem lwmem_alloc_free_roundtrip s p x l rs zero fuel
  (Hwf : pool_wf s p x l) (Hc : coalesced l) (Hrs : 0 <= rs) (Hov : rs + 27 < 4294967296)
  (Hfuel : (length l < fuel)%nat) :
  exists r s1, _lwmem_alloc_internal (mret tt) fuel rs (ACTIVE_TASK_ID s) p zero s = Some (r, s1) /\
    (r = NULL /\ has_blocks s1 p l \/
     r <> NULL /\ exists s2, _lwmem_free (mret tt) fuel r s1 = Some (MQX_OK, s2) /\
       has_blocks s2 p l).
Proof.
  destruct (alloc_internal_run s p x l rs ((rs + 27) / 16 * 16) (ACTIVE_TASK_ID s) zero fuel)
    as (r & s1 & R1 & x1 & [S1 S2 S3] & _ & Hfr & Hres); [done|by apply adjust_size_val|zdm|zdm|done|].
  exists r, s1. split; [done|].
  destruct (first_fit _ _ _ l) as [[[b z] l']|] eqn:Hff.
  - right. destruct Hres as (-> & Hwf1 & _).
    pose proof (first_fit_range _ _ _ _ _ _ _ _ _ _ _ (wf_heap _ _ _ _ Hwf) Hff).
    pose proof (wf_start _ _ _ _ Hwf).
    destruct (first_fit_split _ _ _ _ _ _ _ Hff) as (l1 & l2 & -> & -> & Hlen & Hco).
    destruct (Hco Hc) as [Hrel _]. split; [unfold NULL, sizeof_BLOCK; lia|].
    destruct (lwmem_free_run s1 p x1 l1 z (TASK_NUMBER_FROM_TASKID (ACTIVE_TASK_ID s)) l2 fuel)
      as (s2 & R2 & x2 & _ & _ & _ & Hwf2 & _); [done|lia| |].
    + left. rewrite (fr_active _ _ _ _ _ Hfr). apply wrap_small.
      apply TASK_NUMBER_range.
    + exists s2. rewrite S2 in R2. split; [done|]. exists x2. by rewrite Hrel in Hwf2.
  - left. destruct Hres as (-> & Hwf1 & _). split; [done|]. by exists x1.
Qed.

(** The free space reported for a pool is the sum of the sizes of its free
    blocks, and asking leaves memory alone. *)
Theorem lwmem_get_free_sum s p x l fuel (Hwf : pool_wf s p x l) (Hfuel : (length l < fuel)%nat) :
  exists s', _lwmem_get_free_from (mret tt) fuel p s = Some (free_bytes l, s') /\
    has_blocks s' p l /\ mem s' = mem s.
Proof.
  unfold _lwmem_get_free_from, _lwmem_get_free_internal.
  erewrite bind_run by (apply get_pool_run, Hwf).
  rewrite (wf_valid _ _ _ _ Hwf), Z.eqb_refl. cbn [negb].
  pose proof (free_bytes_bound _ _ _ _ _ _ (wf_heap _ _ _ _ Hwf)).
  pose proof (wf_start _ _ _ _ Hwf). pose proof (wf_end _ _ _ _ Hwf).
  destruct (get_free_loop_spec p x l [] fuel s x 0) as (x' & R & Hw);
    [done|by repeat split|done|lia|lia|].
  cbn [endof] in R. rewrite <-(wf_free _ _ _ _ Hwf) in R.
  exists (updated s (mem s) p x'). split_and!; [exact R| |done].
  exists x'. by eapply wf_walk.
Qed.

(** C24: The self test of well-formed pools answers MQX_OK exactly when no pool
    holds two adjacent free blocks, and otherwise reports a corrupt free list;
    it changes no memory. *)
Theorem lwmem_test_coalesced s ids ls fuel
  (Hids : LWMEM_POOLS s = Some ids) (Hwf : Forall2 (has_blocks s) ids ls)
  (Hfuel : Forall (fun l => (length l < fuel)%nat) ls) :
  exists r errs s', _lwmem_test (mret tt) fuel s = Some ((r, errs), s') /\ mem s' = mem s /\
    (r = MQX_OK /\ Forall coalesced ls \/
     r = MQX_CORRUPT_STORAGE_POOL_FREE_LIST /\ ~ Forall coalesced ls).
Proof.
  destruct (test_pools_spec fuel ids ls s Hwf Hfuel) as (r & pe & be & s' & R & Hm & Hr).
  exists r, (Some (pe, be)), s'. split; [|done].
  unfold _lwmem_test. erewrite bind_run by reflexivity. rewrite Hids.
  by rewrite (bind_run _ _ _ _ _ R).
Qed.

(** While the self test has interrupts enabled, a task that allocates the
    last free block resets the test's position to NULL, and the test reports a
    corrupt free list although the pool is well formed before and after. *)
Theorem lwmem_test_false_alarm s p x sz l2 rs t zero fuel fuel'
  (Hwf : pool_wf s p x ((sz, Free) :: l2))
  (Hn : last_free (POOL_ALLOC_START_PTR x + sz) l2 = None)
  (Hrs : 0 <= rs) (Hfit : (rs + 27) / 16 * 16 <= sz < (rs + 27) / 16 * 16 + 16)
  (Hov : rs + 27 < 4294967296) (Hf : (length l2 + 1 < fuel)%nat) (Hf' : (0 < fuel')%nat) :
  exists s', test_free_list
      (_lwmem_alloc_internal (mret tt) fuel rs t p zero;; mret tt) fuel' p (POOL_FREE_LIST_PTR x) s =
    Some (Some NULL, s') /\
    has_blocks s' p ((sz, Used (TASK_NUMBER_FROM_TASKID t)) :: l2).
Proof.
  destruct fuel' as [|fuel']; [lia|]. cbn [test_free_list].
  pose proof (wf_start _ _ _ _ Hwf) as Hst. pose proof (wf_free _ _ _ _ Hwf) as Hfl. simpl in Hfl.
  rewrite Hfl. rewrite (proj2 (Z.eqb_neq _ NULL)) by (unfold NULL; lia).
  erewrite bind_run by (by eapply upd_pool_run, Hwf).
  set (x1 := with_TEST (POOL_ALLOC_START_PTR x) x).
  change (set_pools _ s) with (updated s (mem s) p x1).
  assert (only_walk x x1) as Hw by (by repeat split).
  destruct (alloc_internal_run (updated s (mem s) p x1) p x1 ((sz, Free) :: l2) rs
    ((rs + 27) / 16 * 16) t zero fuel) as (r & s' & R & Hres);
    [by eapply wf_walk|by apply adjust_size_val|zdm|zdm|simpl; lia|].
  rewrite bind_assoc. rewrite (bind_run _ _ _ _ _ R), bind_ret_l.
  destruct Hres as (x2 & Hsp & Hreset & _ & Hres). cbn [first_fit] in Hres.
  rewrite (proj2 (Z.leb_le _ _)) in Hres by lia.
  destruct Hres as (_ & Hwf2 & _). unfold carve in Hwf2.
  rewrite (proj2 (Z.leb_gt _ _)) in Hwf2 by lia. cbn [app] in Hwf2.
  erewrite bind_run by (apply get_pool_run, Hwf2).
  assert (pools s' !! p = Some x2) by apply Hwf2.
  assert (POOL_TEST_PTR x2 = NULL) as ->.
  { rewrite <-Hreset. cbn [POOL_TEST_PTR walks_reset]. rewrite (wf_free _ _ _ _ Hwf2).
    apply first_free_none. cbn [last_free].
    rewrite (sp_start _ _ Hsp). change (POOL_ALLOC_START_PTR x1) with (POOL_ALLOC_START_PTR x).
    by rewrite Hn. }
  pose proof (wf_start _ _ _ _ Hwf2).
  rewrite (proj2 (Z.ltb_lt NULL _)) by (unfold NULL; lia). cbn [orb].
  exists s'. split; [done|]. by exists x2.
Qed.

(** A fresh pool over a mapped area is the aligned part of the area as
    one free block, is appended to the list of pools, and nothing outside the
    area changes. *)
Theorem lwmem_create_pool_wf s p x0 start size
  (Hp : pools s !! p = Some x0) (Hst : 0 < start) (Hst' : start + 15 < 4294967296)
  (Hend : start + size < 4294967296)
  (Hroom : (start + 15) / 16 * 16 + 16 <= (start + size) / 16 * 16)
  (Hmap : mapped (mem s) ((start + 15) / 16 * 16) ((start + size) / 16 * 16)) :
  exists s', _lwmem_create_pool p start size s = Some (p, s') /\
    has_blocks s' p [((start + size) / 16 * 16 - (start + 15) / 16 * 16, Free)] /\
    LWMEM_POOLS s' = Some (default [] (LWMEM_POOLS s) ++ [p]) /\
    (forall y, y < start \/ start + size <= y -> mem s' !! y = mem s !! y).
Proof.
  destruct (create_pool_run s p x0 start size) as (s' & x & R & Hwf & _ & _ & Hl & Hm & _);
    [done..|].
  exists s'. split_and!; [done|by exists x|done|]. intros y Hy. apply Hm. zdm.
Qed.

(** The size that [_lwmem_get_size] reports for a block in use. *)
Lemma wf_size s p x l1 sz u l2 : pool_wf s p x (l1 ++ (sz, Used u) :: l2) ->
  _lwmem_get_size (endof (POOL_ALLOC_START_PTR x) l1 + sizeof_BLOCK) s = Some (sz - sizeof_BLOCK, s).
Proof.
  intros Hwf. pose proof (wf_start _ _ _ _ Hwf). pose proof (wf_end _ _ _ _ Hwf).
  pose proof (wf_heap _ _ _ _ Hwf) as Hh. apply heap_app in Hh as [H1 (H16 & _ & Hb & _ & _ & H2)].
  pose proof (heap_le _ _ _ _ _ _ H1). pose proof (heap_le _ _ _ _ _ _ H2).
  unfold _lwmem_get_size, GET_LWMEMBLOCK_PTR, get_BLOCKSIZE, sizeof_BLOCK in *.
  rewrite (proj2 (Z.eqb_neq _ _)) by (unfold NULL; lia). rewrite Z.add_simpl_r, wrap_small by lia.
  erewrite bind_run by (by apply load_run). by rewrite (proj2 (Z.leb_gt sz 12)) by lia.
Qed.

(** C25: A request within twelve bytes of 2^32 wraps around, in any pool: it is
    served as a request of zero bytes is.  When a block is free, the lowest one
    is handed out whatever its size, with a payload of four bytes when it has 32
    bytes or more and whole otherwise; NULL is returned only when none is free. *)
Theorem lwmem_alloc_overflow s p x l rs t zero fuel
  (Hwf : pool_wf s p x l) (Hrs : 4294967284 <= rs < 4294967296) (Hfuel : (length l < fuel)%nat) :
  exists r s', _lwmem_alloc_internal (mret tt) fuel rs t p zero s = Some (r, s') /\
    _lwmem_alloc_internal (mret tt) fuel 0 t p zero s = Some (r, s') /\
    ((forall sz, (sz, Free) ∉ l) -> r = NULL) /\
    (forall l1 sz l2, l = l1 ++ (sz, Free) :: l2 -> (forall z, (z, Free) ∉ l1) ->
       r = endof (POOL_ALLOC_START_PTR x) l1 + sizeof_BLOCK /\
       _lwmem_get_size r s' = Some (if 32 <=? sz then 4 else sz - sizeof_BLOCK, s')).
Proof.
  destruct (alloc_internal_run s p x l rs 16 t zero fuel) as (r & s' & R & x' & Hsp & _ & _ & Hres);
    [done|by apply adjust_size_overflow|lia|done|done|].
  exists r, s'. split_and!; [done| | |].
  - rewrite <-R. unfold _lwmem_alloc_internal. by rewrite (adjust_size_overflow rs Hrs).
  - intros Hn. rewrite (first_fit_full _ _ _ _ Hn) in Hres. apply Hres.
  - intros l1 sz l2 -> Hn. pose proof (wf_heap _ _ _ _ Hwf) as Hh.
    apply heap_app in Hh as [_ (H16 & _)].
    rewrite (first_fit_lowest 16 _ _ l1 sz l2 Hn H16) in Hres. destruct Hres as (-> & Hwf' & _).
    split; [done|]. rewrite <-(sp_start _ _ Hsp). unfold carve, carved_size in Hwf'. repeat case_match; try lia;
      [eapply (wf_size s' p x' l1 16)|eapply (wf_size s' p x' l1 sz)]; done.
Qed.

(** The address returned by the aligning allocator is NULL or a multiple
    of the alignment asked for, whatever other tasks do to the pool in the
    windows of the walk; an alignment that is no power of two is refused. *)
Theorem lwmem_alloc_align_aligned window fuel rs al t p zero s r s'
  (Hal : 0 < al < 4294967296)
  (Hrun : _lwmem_alloc_align_internal window fuel rs al t p zero s = Some (r, s')) :
  r mod al = 0 /\ (al <> 2 ^ Z.log2 al -> r = NULL).
Proof.
  unfold _lwmem_alloc_align_internal in Hrun.
  rewrite (proj2 (Z.eqb_neq al 0)) in Hrun by lia. cbn [negb andb] in Hrun.
  rewrite (wrap_small 32 (al - 1)) in Hrun by lia.
  destruct (Z.land al (al - 1) =? 0) eqn:Hl; cbn [negb] in Hrun; zreflect.
  2:{ minv. by rewrite Zmod_0_l. }
  pose proof (pow2_of_land al ltac:(lia) Hl) as Hp. split; [|done].
  minv. destruct (negb _); [minv; by apply Zmod_0_l|]. minv. unfold out_of_memory in Hrun. minv.
  match goal with E : alloc_align_loop _ _ _ _ _ _ _ _ _ = Some (?v, _) |- _ =>
    destruct (alloc_align_loop_value _ _ _ _ _ _ _ _ _ _ _ E) as [->|[b' ->]]; clear E end;
    [by apply Zmod_0_l|].
  pose proof (Z.log2_nonneg al) as Hn. set (k := Z.log2 al) in *.
  case_if; change (PSP_MEMORY_ALIGNMENT) with 15 in *.
  - pose proof (align_shift_aligned b' 4 ltac:(lia)) as Ha. change (2 ^ 4) with 16 in Ha.
    change (15 + 1) with 16. assert (k <= 3) as Hk.
    { apply Z.lt_succ_r, (Z.pow_lt_mono_r_iff 2); [lia..|]. change (2 ^ Z.succ 3) with 16. lia. }
    rewrite Hp. assert (k = 0 \/ k = 1 \/ k = 2 \/ k = 3) as [->|[->|[->| ->]]] by lia; zdm.
  - rewrite Hp. apply align_shift_aligned.
    split; [lia|]. apply (Z.pow_lt_mono_r_iff 2); lia.
Qed.

(** ** Witnesses *)

(** A pool of 64 bytes at address 16, and a pool record not created yet. *)
Definition demo_mem : gmap Z Z :=
  list_to_map [(16, 64); (20, 7); (24, 0); (28, 0); (32, 0); (36, 0); (40, 0); (44, 0); (48, 0);
               (52, 0); (56, 0); (60, 0); (64, 0); (68, 0); (72, 0); (76, 0)].
Definition demo_pool : pool := Pool LWMEM_POOL_VALID 16 80 16 16 16 16 16 16 16.
Definition demo : state := State demo_mem {[7 := demo_pool]} (Some [7]) 7 65538 131072 0.

Lemma demo_mapped : mapped demo_mem 16 80.
Proof.
  intros y Hy Hy4. replace y with (4 * (y / 4)) by zdm.
  assert (4 <= y / 4 < 20) as H by (split; zdm). revert H. generalize (y / 4). intros k Hk.
  assert (k = 4 \/ k = 5 \/ k = 6 \/ k = 7 \/ k = 8 \/ k = 9 \/ k = 10 \/ k = 11 \/ k = 12 \/
    k = 13 \/ k = 14 \/ k = 15 \/ k = 16 \/ k = 17 \/ k = 18 \/ k = 19) as Hc by lia.
  repeat destruct Hc as [->|Hc]; try (eexists; reflexivity). subst k. eexists; reflexivity.
Qed.

Lemma demo_wf : pool_wf demo 7 demo_pool [(64, Free)].
Proof. split; try done. apply demo_mapped. Qed.

Example lwmem_alloc_first_fit_witness : exists r s',
  _lwmem_alloc_internal (mret tt) 5 20 65538 7 true demo = Some (r, s') /\
  alloc_result demo 32 65538 7 true demo_pool [(64, Free)] r s'.
Proof. apply (lwmem_alloc_first_fit demo 7 demo_pool [(64, Free)] 20 65538 true 5);
  [apply demo_wf|lia|lia|simpl; lia]. Defined.

(** The pool with its first half in use. *)
Definition demo2_mem : gmap Z Z :=
  <[16 := 32]> (<[24 := 2]> (<[48 := 32]> (<[52 := 7]> (<[56 := 0]> demo_mem)))).
Definition demo2_pool : pool := Pool LWMEM_POOL_VALID 16 80 48 48 48 48 16 16 47.
Definition demo2 : state := State demo2_mem {[7 := demo2_pool]} (Some [7]) 7 65538 131072 0.

Lemma demo2_wf : pool_wf demo2 7 demo2_pool ([] ++ (32, Used 2) :: [(32, Free)]).
Proof.
  split; try done.
  intros y Hy Hy4. simpl. unfold demo2_mem. do 5 apply insert_keeps_some.
  by apply demo_mapped.
Qed.

Example lwmem_free_coalesces_witness : exists s',
  _lwmem_free (mret tt) 5 28 demo2 = Some (MQX_OK, s') /\
  has_blocks s' 7 [(64, Free)] /\ coalesced [(64, Free)] /\
  frame demo2 s' 7 demo2_pool [(32, Free); (32, Free)].
Proof.
  apply (lwmem_free_coalesces demo2 7 demo2_pool [] 32 2 [(32, Free)] 5 demo2_wf);
    [simpl; lia|simpl; tauto|left; reflexivity].
Defined.

Example lwmem_alloc_free_roundtrip_witness : exists r s1,
  _lwmem_alloc_internal (mret tt) 5 20 65538 7 false demo = Some (r, s1) /\
  (r = NULL /\ has_blocks s1 7 [(64, Free)] \/
   r <> NULL /\ exists s2, _lwmem_free (mret tt) 5 r s1 = Some (MQX_OK, s2) /\
     has_blocks s2 7 [(64, Free)]).
Proof.
  apply (lwmem_alloc_free_roundtrip demo 7 demo_pool [(64, Free)] 20 false 5 demo_wf);
    [simpl; tauto|lia|lia|simpl; lia].
Defined.

Example lwmem_get_free_sum_witness : exists s',
  _lwmem_get_free_from (mret tt) 5 7 demo2 = Some (32, s') /\
  has_blocks s' 7 ([] ++ (32, Used 2) :: [(32, Free)]) /\ mem s' = mem demo2.
Proof. apply (lwmem_get_free_sum demo2 7 demo2_pool _ 5 demo2_wf). simpl; lia. Defined.

Example lwmem_test_coalesced_witness : exists r errs s',
  _lwmem_test (mret tt) 5 demo2 = Some ((r, errs), s') /\ mem s' = mem demo2 /\
  (r = MQX_OK /\ Forall coalesced [[] ++ (32, Used 2) :: [(32, Free)]] \/
   r = MQX_CORRUPT_STORAGE_POOL_FREE_LIST /\
     ~ Forall coalesced [[] ++ (32, Used 2) :: [(32, Free)]]).
Proof.
  apply (lwmem_test_coalesced demo2 [7] [[] ++ (32, Used 2) :: [(32, Free)]] 5); [done| |].
  - constructor; [exists demo2_pool; apply demo2_wf|constructor].
  - constructor; [simpl; lia|constructor].
Defined.

Example lwmem_test_false_alarm_witness : exists s',
  test_free_list (_lwmem_alloc_internal (mret tt) 5 48 65538 7 false;; mret tt) 5 7 16 demo =
    Some (Some NULL, s') /\ has_blocks s' 7 [(64, Used 2)].
Proof.
  apply (lwmem_test_false_alarm demo 7 demo_pool 64 [] 48 65538 false 5 5 demo_wf);
    [done|lia|split; vm_compute; congruence|lia|simpl; lia|lia].
Defined.

Example lwmem_create_pool_wf_witness : exists s',
  _lwmem_create_pool 7 16 64 demo = Some (7, s') /\ has_blocks s' 7 [(64, Free)] /\
  LWMEM_POOLS s' = Some [7; 7] /\ (forall y, y < 16 \/ 80 <= y -> mem s' !! y = mem demo !! y).
Proof.
  apply (lwmem_create_pool_wf demo 7 demo_pool 16 64);
    [done|lia|lia|lia|vm_compute; congruence|exact demo_mapped].
Defined.

Example lwmem_alloc_overflow_witness : exists r s',
  _lwmem_alloc_internal (mret tt) 5 4294967290 65538 7 false demo = Some (r, s') /\
  r = POOL_ALLOC_START_PTR demo_pool + 12 /\ _lwmem_get_size r s' = Some (4, s').
Proof.
  destruct (lwmem_alloc_overflow demo 7 demo_pool [(64, Free)] 4294967290 65538 false 5 demo_wf)
    as (r & s' & E & _ & _ & H); [lia|simpl; lia|].
  exists r, s'. split; [exact E|]. apply (H [] 64 []); [reflexivity|intros z; apply not_elem_of_nil].
Defined.

(** A pool of 128 bytes. *)
Definition demo3 : state :=
  State (<[16 := 128]> (<[20 := 7]> (list_to_map ((fun i => (16 + 4 * i, 0)) <$> seqZ 0 32))))
        {[7 := Pool LWMEM_POOL_VALID 16 144 16 16 16 16 16 16 16]} (Some [7]) 7 65538 131072 0.

Example lwmem_alloc_align_aligned_witness :
  match _lwmem_alloc_align_internal (mret tt) 5 4 32 65538 7 false demo3 with
  | Some (r, _) => r = 96 /\ r mod 32 = 0
  | None => False
  end.
Proof.
  destruct (_lwmem_alloc_align_internal (mret tt) 5 4 32 65538 7 false demo3) as [[r s']|] eqn:E.
  - split; [vm_compute in E; by injection E as <- <-|].
    by apply (lwmem_alloc_align_aligned (mret tt) 5 4 32 65538 7 false demo3 r s').
  - vm_compute in E. discriminate.
Defined.

(** [_lwmem_alloc_at] takes the high water mark from the free block that stays
    in front of the allocated one: the block at 88 ends at 119, and the mark
    says 87. *)
Example lwmem_alloc_at_highwater :
  match _lwmem_alloc_at_internal (mret tt) 5 20 100 65538 7 false demo3 with
  | Some (r, s') => r = 100 /\ mem s' !! 88 = Some 32 /\
      HIGHWATER <$> (pools s' !! 7) = Some 87
  | None => False
  end.
Proof. vm_compute. auto. Qed.

End Lwmem.
