(* ===== verification/Clocks.v ===== *)
(** * Time: [kernel/time.c] and the tick arithmetic of [psp/cortex_m/psp_*.c]

    [Section Ticks] models the tick structure (64-bit tick count and 32-bit
    hardware ticks) and its conversions; the two kernel fields they read,
    [TICKS_PER_SECOND] and [HW_TICKS_PER_TICK], are section variables.  The
    conversions to sub-second units go through the 128-bit helpers of
    [psp_mat1.c], [psp_mat2.c] and [psp_mat3.c], modelled on 32-bit words.

    The calendar functions work on [DATE_STRUCT], whose fields are 16-bit
    signed integers, and normalise it in place, so they return the new
    structure too.  [clock] is the part of the kernel data the functions that
    read or set the time use; the hardware timer's counter is supplied by the
    board support package, so its value is an argument ([None]: no function
    installed). *)

From S2P Require Import Prelude.

Module Clocks.

Definition MAX_UINT_32 : Z := 4294967295.
Definition MAX_UINT_64 : Z := 18446744073709551615.
Definition MAX_INT_32 : Z := 2147483647.
Definition MQX_OK : Z := 0.
Definition MQX_INVALID_PARAMETER : Z := 12.

Abbreviation w64 := (wrap 64).
Abbreviation s16 := (to_signed 16).

(** ** 128-bit helpers *)

(** [PSP_128_BIT_UNION] as its four words, the least significant first. *)
Record u128 := U128 { LW0 : Z; LW1 : Z; LW2 : Z; LW3 : Z }.

Definition val128 (x : u128) : Z :=
  LW0 x + 2 ^ 32 * LW1 x + 2 ^ 64 * LW2 x + 2 ^ 96 * LW3 x.

Definition ok128 (x : u128) : Prop :=
  0 <= LW0 x < 2 ^ 32 /\ 0 <= LW1 x < 2 ^ 32 /\ 0 <= LW2 x < 2 ^ 32 /\ 0 <= LW3 x < 2 ^ 32.

(** [LLW[0]] and [LLW[1]] of the little-endian union. *)
Definition LLW0 (x : u128) : Z := LW0 x + 2 ^ 32 * LW1 x.
Definition LLW1 (x : u128) : Z := LW2 x + 2 ^ 32 * LW3 x.
Definition of_LLW0 (v : Z) : u128 := U128 (v mod 2 ^ 32) (v / 2 ^ 32) 0 0.

(** One step of the multiplication: the word to store and the next carry word. *)
Definition mul_step (mul m t : Z) : Z * Z :=
  let w := mul * m in
  let w0 := w32 w in
  let t' := w32 (t + w0) in
  (t', w32 (w / 2 ^ 32 + (if t' <? w0 then 1 else 0))).

(** The result is stored through [r_ptr]; the returned value is the carry. *)
Definition _psp_mul_128_by_32 (m : u128) (mul : Z) : Z * u128 :=
  if (mul =? 0) || ((LLW0 m =? 0) && (LLW1 m =? 0)) then (0, U128 0 0 0 0)
  else if mul =? 1 then (0, m)
  else
    let '(t0, c1) := mul_step mul (LW0 m) 0 in
    let '(t1, c2) := mul_step mul (LW1 m) c1 in
    let '(t2, c3) := mul_step mul (LW2 m) c2 in
    let '(t3, r) := mul_step mul (LW3 m) c3 in
    (r, U128 t0 t1 t2 t3).

(** Remainder and quotient. *)
Definition _psp_div_128_by_32 (n : u128) (div : Z) : Z * u128 :=
  if div =? 0 then (MAX_UINT_32, n)
  else if div =? 1 then (0, n)
  else if negb (LLW0 n =? 0) || negb (LLW1 n =? 0) then
    let wa := LW3 n * 2 ^ 32 + LW2 n in
    let ra := wa mod div in
    let da := wa / div in
    let wb := ra * 2 ^ 32 + LW1 n in
    let rb := wb mod div in
    let db := wb / div in
    let wc := rb * 2 ^ 32 + LW0 n in
    let rc := wc mod div in
    let dc := wc / div in
    let t3 := w32 (0 + da / 2 ^ 32) in
    let t2 := w32 (w32 (0 + w32 da) + db / 2 ^ 32) in
    let t1 := w32 (w32 (0 + w32 db) + dc / 2 ^ 32) in
    let t0 := w32 (0 + w32 dc) in
    (w32 rc, U128 t0 t1 t2 t3)
  else (0, n).

(** [_psp_add_element_to_array] on the four words of a union. *)
Definition _psp_add_element_to_array (s : u128) (val : Z) : Z * u128 :=
  let y := w32 (LW0 s + val) in
  let cy := if y <? val then 1 else 0 in
  let x1 := w32 (LW1 s + cy) in
  let cy := if x1 <? LW1 s then 1 else 0 in
  let x2 := w32 (LW2 s + cy) in
  let cy := if x2 <? LW2 s then 1 else 0 in
  let x3 := w32 (LW3 s + cy) in
  let cy := if x3 <? LW3 s then 1 else 0 in
  (cy, U128 y x1 x2 x3).

(** ** Ticks *)

Record ticks := Ticks { TICKS : Z; HW_TICKS : Z }.
Record time := Time { SECONDS : Z; MILLISECONDS : Z }.

Definition _mqx_zero_tick_struct : ticks := Ticks 0 0.

(** Only the tick counts are compared. *)
Definition PSP_CMP_TICKS (a b : ticks) : Z :=
  if TICKS b <? TICKS a then 1 else if TICKS a <? TICKS b then -1 else 0.

Definition PSP_INC_TICKS (t : ticks) : ticks := Ticks (w64 (TICKS t + 1)) (HW_TICKS t).

(** [r_ptr->TICKS] is assigned; [r_ptr->HW_TICKS] stays that of [r]. *)
Definition PSP_ADD_TICKS_TO_TICK_STRUCT (a : ticks) (v : Z) (r : ticks) : ticks :=
  Ticks (w64 (TICKS a + v)) (HW_TICKS r).

Section Ticks.

Variable TICKS_PER_SECOND : Z.
Variable HW_TICKS_PER_TICK : Z.

Definition _psp_add_ticks (a b : ticks) : ticks :=
  let t := w64 (TICKS a + TICKS b) in
  if w32 (HW_TICKS_PER_TICK - HW_TICKS b) <=? HW_TICKS a
  then Ticks (w64 (t + 1)) (w32 (HW_TICKS a + w32 (HW_TICKS b - HW_TICKS_PER_TICK)))
  else Ticks t (w32 (HW_TICKS a + HW_TICKS b)).

Definition _psp_subtract_ticks (a b : ticks) : ticks :=
  let t := w64 (TICKS a - TICKS b) in
  if HW_TICKS a <? HW_TICKS b
  then Ticks (w64 (t - 1)) (w32 (w32 (HW_TICKS a + HW_TICKS_PER_TICK) - HW_TICKS b))
  else Ticks t (w32 (HW_TICKS a - HW_TICKS b)).

(** The difference clamped to 32 bits, and the overflow flag. *)
Definition _psp_subtract_ticks_int32 (a b : ticks) : Z * bool :=
  let r := w64 (TICKS a - TICKS b) in
  let r := if HW_TICKS a <? HW_TICKS b then w64 (r - 1) else r in
  let hi := r / 2 ^ 32 in
  let lo := w32 r in
  let a_hw := Z.lor (Z.land hi (Z.lxor MAX_UINT_32 MAX_INT_32)) (Z.land lo MAX_INT_32) in
  let b_hw := Z.lor (Z.land lo (Z.lxor MAX_UINT_32 MAX_INT_32)) (Z.land hi MAX_INT_32) in
  if negb (w32 (Z.shiftr a_hw 31 * MAX_UINT_32) =? b_hw)
  then (to_signed 32 (w32 (MAX_INT_32 + Z.shiftr a_hw 31)), true)
  else (to_signed 32 a_hw, false).

Definition _psp_normalize_ticks (t : ticks) : ticks :=
  if HW_TICKS_PER_TICK <=? HW_TICKS t then
    let n := HW_TICKS t / HW_TICKS_PER_TICK in
    Ticks (w64 (TICKS t + n)) (w32 (HW_TICKS t - n * HW_TICKS_PER_TICK))
  else t.

Definition _psp_days_to_ticks (days : Z) : ticks :=
  Ticks (w64 (w64 (days * TICKS_PER_SECOND) * (3600 * 24))) 0.
Definition _psp_hours_to_ticks (hours : Z) : ticks :=
  Ticks (w64 (w64 (hours * TICKS_PER_SECOND) * 3600)) 0.
Definition _psp_minutes_to_ticks (minutes : Z) : ticks :=
  Ticks (w64 (w64 (minutes * TICKS_PER_SECOND) * 60)) 0.
Definition _psp_seconds_to_ticks (seconds : Z) : ticks :=
  Ticks (w64 (seconds * TICKS_PER_SECOND)) 0.
Definition _psp_msecs_to_ticks (msecs : Z) : ticks :=
  let tmp := w64 (msecs * TICKS_PER_SECOND) in
  Ticks (tmp / 1000) (w32 (w64 (w64 (tmp mod 1000 * HW_TICKS_PER_TICK) + 500) / 1000)).
Definition _psp_usecs_to_ticks (usecs : Z) : ticks :=
  let tmp := w64 (usecs * TICKS_PER_SECOND) in
  Ticks (tmp / 1000000) (w32 (w64 (w64 (tmp mod 1000000 * HW_TICKS_PER_TICK) + 500000) / 1000000)).
Definition _psp_nsecs_to_ticks (nsecs : Z) : ticks :=
  let tmp := w64 (nsecs * TICKS_PER_SECOND) in
  Ticks (tmp / 1000000000)
        (w32 (w64 (w64 (tmp mod 1000000000 * HW_TICKS_PER_TICK) + 500000000) / 1000000000)).
Definition _psp_psecs_to_ticks (psecs : Z) : ticks :=
  let llw0 := w64 (psecs * TICKS_PER_SECOND) in
  let tmp := of_LLW0 (llw0 mod 1000000000000) in
  let tmp := (_psp_mul_128_by_32 tmp HW_TICKS_PER_TICK).2 in
  let tmp := (_psp_div_128_by_32 tmp 1000000000).2 in
  let tmp := (_psp_div_128_by_32 tmp 1000).2 in
  Ticks (llw0 / 1000000000000) (LW0 tmp).

(** Both branches of the heuristic; the static variables only cache which one
    applies.  [HW_TICKS] is cleared. *)
Definition _psp_msecs_to_ticks_quick (msecs : Z) : ticks :=
  let ms_per_tick := 1000 / TICKS_PER_SECOND in
  if w32 (ms_per_tick * TICKS_PER_SECOND) =? 1000
  then Ticks (msecs / ms_per_tick) 0
  else Ticks (w64 (msecs * TICKS_PER_SECOND) / 1000) 0.

(** The number of units and the overflow flag. *)
Definition ticks_to_unit (secs_per_unit : Z) (t : ticks) : Z * bool :=
  let tmp := TICKS t in
  let tmp := if negb (tmp =? MAX_UINT_64) && (HW_TICKS_PER_TICK / 2 <? HW_TICKS t)
             then tmp + 1 else tmp in
  let tmp := tmp / TICKS_PER_SECOND / secs_per_unit in
  (w32 tmp, MAX_UINT_32 <? tmp).

Definition _psp_ticks_to_days : ticks -> Z * bool := ticks_to_unit (60 * 60 * 24).
Definition _psp_ticks_to_hours : ticks -> Z * bool := ticks_to_unit (60 * 60).
Definition _psp_ticks_to_minutes : ticks -> Z * bool := ticks_to_unit 60.
Definition _psp_ticks_to_seconds : ticks -> Z * bool := ticks_to_unit 1.

(** The common text of [__psp_ticks_to_milliseconds] and its siblings;
    [muls] are the factors that scale the value to tenths of the unit. *)
Definition ticks_to_subunit (muls : list Z) (t : ticks) (round : bool) : Z * bool :=
  let tmp := of_LLW0 (TICKS t) in
  let tmp := (_psp_mul_128_by_32 tmp HW_TICKS_PER_TICK).2 in
  let tmp := (_psp_add_element_to_array tmp (HW_TICKS t)).2 in
  let tmp := fold_left (fun tmp m => (_psp_mul_128_by_32 tmp m).2) muls tmp in
  let tmp := (_psp_div_128_by_32 tmp TICKS_PER_SECOND).2 in
  let tmp := (_psp_div_128_by_32 tmp HW_TICKS_PER_TICK).2 in
  let tmp := if round then (_psp_add_element_to_array tmp 5).2 else tmp in
  let tmp := (_psp_div_128_by_32 tmp 10).2 in
  (LW0 tmp, negb (LLW1 tmp =? 0) || negb (LW1 tmp =? 0)).

Definition __psp_ticks_to_milliseconds : ticks -> bool -> Z * bool := ticks_to_subunit [10000].
Definition __psp_ticks_to_microseconds : ticks -> bool -> Z * bool :=
  ticks_to_subunit [10 * 1000 * 1000].
Definition __psp_ticks_to_nanoseconds : ticks -> bool -> Z * bool :=
  ticks_to_subunit [1000000000; 10].
Definition __psp_ticks_to_picoseconds : ticks -> bool -> Z * bool :=
  ticks_to_subunit [1000000000; 10000].

Definition _psp_ticks_to_milliseconds (t : ticks) := __psp_ticks_to_milliseconds t true.
Definition _psp_ticks_to_milliseconds_truncate (t : ticks) := __psp_ticks_to_milliseconds t false.
Definition _psp_ticks_to_microseconds (t : ticks) := __psp_ticks_to_microseconds t true.
Definition _psp_ticks_to_microseconds_truncate (t : ticks) := __psp_ticks_to_microseconds t false.
Definition _psp_ticks_to_nanoseconds (t : ticks) := __psp_ticks_to_nanoseconds t true.
Definition _psp_ticks_to_nanoseconds_truncate (t : ticks) := __psp_ticks_to_nanoseconds t false.
Definition _psp_ticks_to_picoseconds (t : ticks) := __psp_ticks_to_picoseconds t true.
Definition _psp_ticks_to_picoseconds_truncate (t : ticks) := __psp_ticks_to_picoseconds t false.

Definition _psp_time_to_ticks (ts : time) : ticks :=
  _psp_add_ticks (_psp_seconds_to_ticks (SECONDS ts)) (_psp_msecs_to_ticks (MILLISECONDS ts)).

Definition _psp_ticks_to_time (t : ticks) : bool * time :=
  if MAX_UINT_32 <? TICKS t / TICKS_PER_SECOND then (false, Time MAX_UINT_32 999)
  else
    let tmp := w64 (w64 (TICKS t * 1000) + w32 (HW_TICKS t * 1000) / HW_TICKS_PER_TICK) in
    let tmp := tmp / TICKS_PER_SECOND in
    let s := w32 (tmp / 1000) in
    (true, Time s (w32 (w64 (tmp - w32 (s * 1000))))).

(** ** [_time_add_*_to_ticks], [_time_diff*] *)

Definition add_unit (to_ticks : Z -> ticks) (t : ticks) (n : Z) : ticks :=
  if negb (n =? 0) then _psp_add_ticks t (to_ticks n) else t.

Definition _time_add_day_to_ticks := add_unit _psp_days_to_ticks.
Definition _time_add_hour_to_ticks := add_unit _psp_hours_to_ticks.
Definition _time_add_min_to_ticks := add_unit _psp_minutes_to_ticks.
Definition _time_add_sec_to_ticks := add_unit _psp_seconds_to_ticks.
Definition _time_add_msec_to_ticks := add_unit _psp_msecs_to_ticks.
Definition _time_add_usec_to_ticks := add_unit _psp_usecs_to_ticks.
Definition _time_add_nsec_to_ticks := add_unit _psp_nsecs_to_ticks.
Definition _time_add_psec_to_ticks := add_unit _psp_psecs_to_ticks.

(** [None] is a null pointer. *)
Definition _time_diff_ticks (end_tick start_tick : option ticks) : Z * option ticks :=
  match end_tick, start_tick with
  | Some e, Some s => (MQX_OK, Some (_psp_subtract_ticks e s))
  | _, _ => (MQX_INVALID_PARAMETER, None)
  end.

Definition _time_diff_ticks_int32 (end_tick start_tick : option ticks) : Z * bool :=
  match end_tick, start_tick with
  | Some e, Some s => _psp_subtract_ticks_int32 e s
  | _, _ => (MAX_INT_32, true)
  end.

(** The difference in a unit; the unsigned result is returned as [int32_t]. *)
Definition diff_unit (of_ticks : ticks -> Z * bool) (e s : ticks) : Z * bool :=
  let '(v, o) := of_ticks (_psp_subtract_ticks e s) in (to_signed 32 v, o).

(** Null pointers are reported as [MAX_INT_32], and the flag is not written. *)
Definition _time_diff_days (e s : option ticks) : Z * option bool :=
  match e, s with
  | Some e, Some s => let '(v, o) := diff_unit _psp_ticks_to_days e s in (v, Some o)
  | _, _ => (MAX_INT_32, None)
  end.
Definition _time_diff_hours := diff_unit _psp_ticks_to_hours.
Definition _time_diff_minutes := diff_unit _psp_ticks_to_minutes.
Definition _time_diff_seconds := diff_unit _psp_ticks_to_seconds.
Definition _time_diff_milliseconds := diff_unit _psp_ticks_to_milliseconds.
Definition _time_diff_microseconds := diff_unit _psp_ticks_to_microseconds.
Definition _time_diff_nanoseconds := diff_unit _psp_ticks_to_nanoseconds.
Definition _time_diff_picoseconds := diff_unit _psp_ticks_to_picoseconds.

Definition MAXIMUM_SECONDS_IN_TIME : Z := 4102444799.

Definition _time_to_ticks (ts : option time) : bool * option ticks :=
  match ts with
  | None => (false, None)
  | Some ts =>
      if (MAXIMUM_SECONDS_IN_TIME <? SECONDS ts) || (999 <? MILLISECONDS ts) then (false, None)
      else (true, Some (_psp_time_to_ticks ts))
  end.

Definition _ticks_to_time (t : option ticks) : bool * option time :=
  match t with
  | None => (false, None)
  | Some t => let '(b, ts) := _psp_ticks_to_time t in (b, Some ts)
  end.

End Ticks.

Definition _time_diff (start_time end_time : time) : time :=
  let ms := MILLISECONDS end_time in
  let s := SECONDS end_time in
  let '(ms, s) := if ms <? MILLISECONDS start_time then (w32 (ms + 1000), w32 (s - 1)) else (ms, s) in
  let s := w32 (s - SECONDS start_time) in
  let ms := w32 (ms - MILLISECONDS start_time) in
  if 1000 <? ms then Time (w32 (s + ms / 1000)) (ms mod 1000) else Time s ms.

Definition _time_init_ticks (tick : option ticks) (n : Z) : Z * option ticks :=
  match tick with
  | None => (MQX_INVALID_PARAMETER, None)
  | Some t =>
      (MQX_OK, Some (if negb (n =? 0)
                     then PSP_ADD_TICKS_TO_TICK_STRUCT _mqx_zero_tick_struct n (Ticks (TICKS t) 0)
                     else _mqx_zero_tick_struct))
  end.

(** ** The system clock *)

Record clock := Clock {
  TIME : ticks;
  TIME_OFFSET : ticks;
  TICKS_PER_SECOND : Z;
  HW_TICKS_PER_TICK : Z;
  SYSTEM_CLOCK_INT_NUMBER : Z
}.

Definition set_OFFSET (t : ticks) (c : clock) : clock :=
  Clock (TIME c) t (TICKS_PER_SECOND c) (HW_TICKS_PER_TICK c) (SYSTEM_CLOCK_INT_NUMBER c).

Definition with_hw (hw : option Z) (t : ticks) : ticks :=
  match hw with Some h => Ticks (TICKS t) h | None => t end.

Definition _time_get_elapsed_ticks (c : clock) (hw : option Z) : ticks :=
  _psp_normalize_ticks (HW_TICKS_PER_TICK c) (with_hw hw (TIME c)).
Definition _time_get_elapsed_ticks_fast (c : clock) (hw : option Z) : ticks :=
  _psp_normalize_ticks (HW_TICKS_PER_TICK c) (with_hw hw (TIME c)).
Definition _time_get_elapsed (c : clock) (hw : option Z) : bool * time :=
  _psp_ticks_to_time (TICKS_PER_SECOND c) (HW_TICKS_PER_TICK c) (_time_get_elapsed_ticks c hw).
Definition _time_get_ticks (c : clock) (hw : option Z) : ticks :=
  _psp_normalize_ticks (HW_TICKS_PER_TICK c)
    (_psp_add_ticks (HW_TICKS_PER_TICK c) (with_hw hw (TIME c)) (TIME_OFFSET c)).
Definition _time_get (c : clock) (hw : option Z) : bool * time :=
  _psp_ticks_to_time (TICKS_PER_SECOND c) (HW_TICKS_PER_TICK c) (_time_get_ticks c hw).

Definition MQX_NORMALIZE_TIME_STRUCT (ts : time) : time :=
  if 1000 <=? MILLISECONDS ts
  then Time (w32 (SECONDS ts + MILLISECONDS ts / 1000)) (MILLISECONDS ts mod 1000) else ts.

Definition _time_set_ticks (t : ticks) (c : clock) : clock :=
  set_OFFSET (_psp_subtract_ticks (HW_TICKS_PER_TICK c) t (TIME c)) c.
Definition _time_set (ts : time) (c : clock) : clock :=
  let t := _psp_time_to_ticks (TICKS_PER_SECOND c) (HW_TICKS_PER_TICK c)
             (MQX_NORMALIZE_TIME_STRUCT ts) in
  set_OFFSET (_psp_subtract_ticks (HW_TICKS_PER_TICK c) t (TIME c)) c.

Definition _time_get_hwticks (hw : option Z) : Z := default 0 hw.
Definition _time_get_nanoseconds (c : clock) (hw : option Z) : Z :=
  match hw with
  | None => 0
  | Some h => w32 (w64 (h * (1000000000 / TICKS_PER_SECOND c)) / HW_TICKS_PER_TICK c)
  end.
Definition _time_get_microseconds (c : clock) (hw : option Z) : Z :=
  match hw with
  | None => 0
  | Some h => w16 (w32 (h * (1000000 / TICKS_PER_SECOND c)) / HW_TICKS_PER_TICK c)
  end.
Definition _time_get_ticks_per_sec (c : clock) : Z := TICKS_PER_SECOND c.
Definition _time_get_resolution (c : clock) : Z := 1000 / TICKS_PER_SECOND c.
Definition _time_get_hwticks_per_tick (c : clock) : Z := HW_TICKS_PER_TICK c.
Definition _time_set_resolution (resolution : Z) (c : clock) : Z * clock :=
  if (resolution =? 0) || (1000 <? resolution) then (MQX_INVALID_PARAMETER, c)
  else (MQX_OK, Clock (TIME c) (TIME_OFFSET c) (1000 / resolution) (w32 (resolution * 1000))
                      (SYSTEM_CLOCK_INT_NUMBER c)).
Definition _time_set_ticks_per_sec (n : Z) (c : clock) : clock :=
  Clock (TIME c) (TIME_OFFSET c) n (HW_TICKS_PER_TICK c) (SYSTEM_CLOCK_INT_NUMBER c).
Definition _time_set_hwticks_per_tick (n : Z) (c : clock) : clock :=
  Clock (TIME c) (TIME_OFFSET c) (TICKS_PER_SECOND c) n (SYSTEM_CLOCK_INT_NUMBER c).
Definition _time_set_timer_vector (v : Z) (c : clock) : clock :=
  Clock (TIME c) (TIME_OFFSET c) (TICKS_PER_SECOND c) (HW_TICKS_PER_TICK c) v.

(** ** The calendar *)

Record date := Date {
  YEAR : Z; MONTH : Z; DAY : Z; HOUR : Z; MINUTE : Z; SECOND : Z; MILLISEC : Z;
  WDAY : Z; YDAY : Z
}.

Definition CLK_FIRST_YEAR : Z := 1970.
Definition NUM_LEAP_YEAR_SINCE_FIRST_YEAR : Z :=
  CLK_FIRST_YEAR / 4 - CLK_FIRST_YEAR / 100 + CLK_FIRST_YEAR / 400.

Definition _time_days_in_month_internal (leap month : Z) : Z :=
  nth (Z.to_nat month)
    (if leap =? 0 then [0; 31; 28; 31; 30; 31; 30; 31; 31; 30; 31; 30; 31]
     else [0; 31; 29; 31; 30; 31; 30; 31; 31; 30; 31; 30; 31]) 0.

(** The argument is a [uint16_t]. *)
Definition _time_check_if_leap (year : Z) : bool :=
  if year mod 100 =? 0 then (if year mod 400 =? 0 then true else false)
  else (if year mod 4 =? 0 then true else false).

Definition leap_index (year : Z) : Z := if _time_check_if_leap (w16 year) then 1 else 0.

(** [normalize]: the result, [*norm_value] and [*high_order]. *)
Definition normalize (norm_value boundary high_order : Z) : bool * Z * Z :=
  let tmp := s16 (Z.quot norm_value boundary) in
  let norm_value := s16 (norm_value - tmp * boundary) in
  let '(norm_value, tmp) :=
    if norm_value <? 0 then (s16 (norm_value + boundary), s16 (tmp - 1)) else (norm_value, tmp) in
  if (if tmp <? 0 then (high_order <? 0) && (tmp <? 4096 - high_order)
      else (0 <? high_order) && (32767 - high_order <? tmp))
  then (false, norm_value, high_order)
  else (true, norm_value, s16 (high_order + tmp)).

(** The loop at lines 1699 to 1723; [DAY] is compared with [1U], so as an
    unsigned number. *)
Fixpoint date_loop (fuel : nat) (year month day : Z) : option (Z * Z * Z) :=
  match fuel with
  | O => None
  | S fuel =>
      let dim := _time_days_in_month_internal (leap_index year) month in
      if dim <? day then
        let day := s16 (day - dim) in
        let month := s16 (month + 1) in
        if month =? 13 then date_loop fuel (s16 (year + 1)) 1 day
        else if month =? 0 then date_loop fuel (s16 (year - 1)) 12 day
        else date_loop fuel year month day
      else if w32 day <? 1 then
        let day := s16 (day + dim) in
        let month := s16 (month - 1) in
        if month =? 13 then date_loop fuel (s16 (year + 1)) 1 day
        else if month =? 0 then date_loop fuel (s16 (year - 1)) 12 day
        else date_loop fuel year month day
      else Some (year, month, day)
  end.

(** Days before the first of [month], and the loop that finds the month. *)
Fixpoint days_before (n : nat) (leap month : Z) : Z :=
  match n with
  | O => 0
  | S n => if 0 <? month - 1
           then _time_days_in_month_internal leap (month - 1) + days_before n leap (month - 1)
           else 0
  end.

(** The fields are normalised in place; [None] is a loop that did not end. *)
Definition _time_from_date (fuel : nat) (d : date) : option (bool * date * option time) :=
  let '(ok, ms, s) := normalize (MILLISEC d) 1000 (SECOND d) in
  let d := Date (YEAR d) (MONTH d) (DAY d) (HOUR d) (MINUTE d) s ms (WDAY d) (YDAY d) in
  if negb ok then Some (false, d, None) else
  let '(ok, s, mi) := normalize (SECOND d) 60 (MINUTE d) in
  let d := Date (YEAR d) (MONTH d) (DAY d) (HOUR d) mi s (MILLISEC d) (WDAY d) (YDAY d) in
  if negb ok then Some (false, d, None) else
  let '(ok, mi, h) := normalize (MINUTE d) 60 (HOUR d) in
  let d := Date (YEAR d) (MONTH d) (DAY d) h mi (SECOND d) (MILLISEC d) (WDAY d) (YDAY d) in
  if negb ok then Some (false, d, None) else
  let '(ok, h, da) := normalize (HOUR d) 24 (DAY d) in
  let d := Date (YEAR d) (MONTH d) da h (MINUTE d) (SECOND d) (MILLISEC d) (WDAY d) (YDAY d) in
  if negb ok then Some (false, d, None) else
  let '(ok, mo, y) := normalize (s16 (MONTH d - 1)) 12 (YEAR d) in
  if negb ok
  then Some (false, Date y mo (DAY d) (HOUR d) (MINUTE d) (SECOND d) (MILLISEC d) (WDAY d) (YDAY d), None)
  else
  match date_loop fuel y (s16 (mo + 1)) (DAY d) with
  | None => None
  | Some (y, mo, da) =>
      let d := Date y mo da (HOUR d) (MINUTE d) (SECOND d) (MILLISEC d) (WDAY d) (YDAY d) in
      if y <? CLK_FIRST_YEAR then Some (false, d, None) else
      let day := w32 ((y - CLK_FIRST_YEAR) * 365) in
      let day := w32 (day + (Z.quot y 4 - Z.quot y 100 + Z.quot y 400
                             - NUM_LEAP_YEAR_SINCE_FIRST_YEAR)) in
      let leap := leap_index y in
      let day := if negb (leap =? 0) then w32 (day - 1) else day in
      let yday := days_before 12 leap mo in
      let yday := w32 (yday + w32 (da - 1)) in
      let day := w32 (day + yday) in
      let t := w32 (HOUR d * 3600) in
      let t := w32 (t + w32 (MINUTE d * 60)) in
      let t := w32 (t + SECOND d) in
      if w32 (MAXIMUM_SECONDS_IN_TIME - t) / 86400 <? day then Some (false, d, None) else
      let t := w32 (t + w32 (day * 86400)) in
      Some (true, Date y mo da (HOUR d) (MINUTE d) (SECOND d) (MILLISEC d)
                       (w32 (day + 4) mod 7) (s16 yday),
            Some (Time t (w32 (MILLISEC d))))
  end.

Fixpoint month_loop (n : nat) (leap month day : Z) : Z * Z :=
  match n with
  | O => (month, day)
  | S n =>
      let dim := _time_days_in_month_internal leap month in
      if dim <=? day then month_loop n leap (s16 (month + 1)) (w32 (day - dim)) else (month, day)
  end.

(** The time is normalised in place.  The month loop ends within the table:
    twelve rounds. *)
Definition _time_to_date (ts : time) : bool * time * option date :=
  if w32 (MAXIMUM_SECONDS_IN_TIME - MILLISECONDS ts / 1000) <? SECONDS ts
  then (false, ts, None) else
  let ts := Time (w32 (SECONDS ts + MILLISECONDS ts / 1000)) (MILLISECONDS ts mod 1000) in
  let t := SECONDS ts in
  let day := t / 86400 in
  let t := w32 (t - w32 (day * 86400)) in
  let hour := w16 (t / 3600) in
  let t := w32 (t - w32 (hour * 3600)) in
  let minute := w16 (t / 60) in
  let t := w32 (t - w32 (minute * 60)) in
  let second := w16 t in
  let millisec := w16 (MILLISECONDS ts) in
  let wday := w16 (w32 (day + 4) mod 7) in
  let day := w32 (day + 365) in
  let year := w32 (4 * (day / 1461)) in
  let day := w32 (day - w32 (year * 1461) / 4) in
  let tmp := day / 365 in
  let tmp := if tmp =? 4 then 3 else tmp in
  let day := w32 (day - w32 (tmp * 365)) in
  let y := s16 (year + tmp + CLK_FIRST_YEAR - 1) in
  let yday := s16 day in
  let '(month, day) := month_loop 12 (leap_index y) 1 day in
  (true, ts, Some (Date y month (s16 (s16 day + 1)) (s16 hour) (s16 minute) (s16 second)
                        (s16 millisec) (s16 wday) yday)).

(** ** The standard time functions *)

Record tm := Tm {
  tm_sec : Z; tm_min : Z; tm_hour : Z; tm_mday : Z; tm_mon : Z; tm_year : Z;
  tm_wday : Z; tm_yday : Z; tm_isdst : Z
}.

Definition _timezone : Z := 0.

(** The day and week fields are written back. *)
Definition tm_to_date (x : tm) : date :=
  Date (s16 (tm_year x + 1900)) (s16 (tm_mon x + 1)) (s16 (tm_mday x + 1)) (s16 (tm_hour x))
       (s16 (tm_min x)) (s16 (tm_sec x)) 0 0 0.

Definition mktime (fuel : nat) (x : tm) : option (Z * tm) :=
  match _time_from_date fuel (tm_to_date x) with
  | None => None
  | Some (true, d, Some ts) =>
      if w32 (MAXIMUM_SECONDS_IN_TIME - _timezone) <? SECONDS ts then Some (0, x) else
      Some (w32 (SECONDS ts + _timezone),
            Tm (tm_sec x) (tm_min x) (tm_hour x) (tm_mday x) (tm_mon x) (tm_year x)
               (WDAY d) (YDAY d) (tm_isdst x))
  | Some (_, _, _) => Some (0, x)
  end.

Definition timegm (fuel : nat) (x : tm) : option Z :=
  match _time_from_date fuel (tm_to_date x) with
  | None => None
  | Some (true, _, Some ts) => Some (SECONDS ts)
  | Some (_, _, _) => Some 0
  end.

(** [tm_isdst] of the result structure is not written. *)
Definition gmtime_r (timep : Z) (isdst : Z) : option tm :=
  match _time_to_date (Time timep 0) with
  | (true, _, Some d) =>
      Some (Tm (SECOND d) (MINUTE d) (HOUR d) (DAY d - 1) (MONTH d - 1) (YEAR d - 1900)
               (WDAY d) (YDAY d) isdst)
  | _ => None
  end.

Definition localtime_r (timep : Z) (isdst : Z) : option tm :=
  if (0 <? _timezone) && (timep <? _timezone)
     || (_timezone <? 0) && (MAXIMUM_SECONDS_IN_TIME + _timezone <? timep)
  then None else gmtime_r (w32 (timep - _timezone)) isdst.

(** ** The 128-bit helpers compute on the number the words stand for *)

Lemma LLW_zero m : ok128 m -> (LLW0 m =? 0) && (LLW1 m =? 0) = true -> val128 m = 0.
Proof.
  unfold ok128, LLW0, LLW1, val128. change (2 ^ 32) with 4294967296.
  intros H Hz. zreflect. change (2 ^ 64) with 18446744073709551616.
  change (2 ^ 96) with 79228162514264337593543950336. lia.
Qed.

Lemma mul_step_spec mul m t : 0 <= mul < 2 ^ 32 -> 0 <= m < 2 ^ 32 -> 0 <= t < 2 ^ 32 ->
  exists t' c, mul_step mul m t = (t', c) /\ t' + 2 ^ 32 * c = mul * m + t /\
    0 <= t' < 2 ^ 32 /\ 0 <= c < 2 ^ 32.
Proof.
  intros Hmul Hm Ht. unfold mul_step. do 2 eexists. split; [reflexivity|].
  assert (0 <= mul * m <= (2 ^ 32 - 1) * (2 ^ 32 - 1)) as Hw by nia.
  revert Hw. generalize (mul * m). intros w Hw. clear Hmul Hm.
  unfold wrap. change (2 ^ 32) with 4294967296 in *.
  destruct (_ <? _) eqn:E; zreflect; revert E; zdm.
Qed.

Lemma mul_128_spec m mul : ok128 m -> 0 <= mul < 2 ^ 32 ->
  exists r x, _psp_mul_128_by_32 m mul = (r, x) /\ ok128 x /\
    val128 x + 2 ^ 128 * r = val128 m * mul /\ 0 <= r.
Proof.
  intros Hm Hmul. unfold _psp_mul_128_by_32.
  destruct ((mul =? 0) || _) eqn:E0.
  - exists 0, (U128 0 0 0 0). split_and!; [done|unfold ok128; simpl; lia| |lia].
    apply orb_true_iff in E0 as [E0|E0].
    + zreflect. subst mul. unfold val128. simpl. lia.
    + rewrite (LLW_zero m) by done.
      unfold val128. simpl. lia.
  - destruct (mul =? 1) eqn:E1; zreflect.
    + subst mul. exists 0, m. split_and!; [done|done|lia|lia].
    + destruct Hm as (? & ? & ? & ?).
      destruct (mul_step_spec mul (LW0 m) 0) as (t0 & c1 & -> & E01 & T0 & C1); [lia..|].
      destruct (mul_step_spec mul (LW1 m) c1) as (t1 & c2 & -> & E12 & T1 & C2); [lia..|].
      destruct (mul_step_spec mul (LW2 m) c2) as (t2 & c3 & -> & E23 & T2 & C3); [lia..|].
      destruct (mul_step_spec mul (LW3 m) c3) as (t3 & r & -> & E34 & T3 & C4); [lia..|].
      exists r, (U128 t0 t1 t2 t3). split_and!; [done|unfold ok128; cbn [LW0 LW1 LW2 LW3]; tauto| |lia].
      unfold val128. simpl LW0. simpl LW1. simpl LW2. simpl LW3.
      change (2 ^ 64) with (2 ^ 32 * 2 ^ 32). change (2 ^ 96) with (2 ^ 32 * (2 ^ 32 * 2 ^ 32)).
      change (2 ^ 128) with (2 ^ 32 * (2 ^ 32 * (2 ^ 32 * 2 ^ 32))).
      nia.
Qed.

Lemma div_128_spec n div : ok128 n -> 0 < div < 2 ^ 32 ->
  ok128 (_psp_div_128_by_32 n div).2 /\
  val128 (_psp_div_128_by_32 n div).2 = val128 n / div.
Proof.
  intros Hn Hd. unfold _psp_div_128_by_32.
  rewrite (proj2 (Z.eqb_neq div 0)) by lia.
  destruct (div =? 1) eqn:E1; zreflect.
  { subst div. simpl. by rewrite Z.div_1_r. }
  destruct (negb (LLW0 n =? 0) || negb (LLW1 n =? 0)) eqn:E0.
  2:{ zreflect. assert (val128 n = 0) as Hz by (apply LLW_zero; [done|]; by rewrite !(proj2 (Z.eqb_eq _ _))).
      simpl. rewrite Hz. split; [done|]. by rewrite Z.div_0_l by lia. }
  destruct Hn as (H0 & H1 & H2 & H3). clear E0.
  set (wa := LW3 n * 2 ^ 32 + LW2 n). set (wb := wa mod div * 2 ^ 32 + LW1 n).
  set (wc := wb mod div * 2 ^ 32 + LW0 n).
  pose proof (Z.mod_pos_bound wa div ltac:(lia)) as Ra.
  pose proof (Z.mod_pos_bound wb div ltac:(lia)) as Rb.
  pose proof (Z.mod_pos_bound wc div ltac:(lia)) as Rc.
  pose proof (Z.div_mod wa div ltac:(lia)) as Da. pose proof (Z.div_mod wb div ltac:(lia)) as Db.
  pose proof (Z.div_mod wc div ltac:(lia)) as Dc.
  assert (0 <= wb / div < 2 ^ 32) as Qb.
  { split; [apply Z.div_pos; unfold wb; lia|]. apply Z.div_lt_upper_bound; [lia|]. unfold wb. nia. }
  assert (0 <= wc / div < 2 ^ 32) as Qc.
  { split; [apply Z.div_pos; unfold wc; lia|]. apply Z.div_lt_upper_bound; [lia|]. unfold wc. nia. }
  assert (0 <= wa / div < 2 ^ 64) as Qa.
  { split; [apply Z.div_pos; unfold wa; lia|]. apply Z.div_lt_upper_bound; [lia|]. unfold wa. nia. }
  cbn [snd].
  rewrite (Z.div_small (wb / div)), (Z.div_small (wc / div)), !Z.add_0_l, !Z.add_0_r by lia.
  rewrite !wrap_wrap by lia. rewrite (wrap_small 32 (wb / div)), (wrap_small 32 (wc / div)) by lia.
  assert (0 <= wa / div / 2 ^ 32 < 2 ^ 32) as Qa2.
  { split; [apply Z.div_pos; lia|]. apply Z.div_lt_upper_bound; lia. }
  rewrite (wrap_small 32 (wa / div / 2 ^ 32)) by lia.
  pose proof (wrap_range 32 (wa / div) ltac:(lia)) as Wa.
  split; [unfold ok128; cbn [LW0 LW1 LW2 LW3]; tauto|].
  apply (Z.div_unique_pos _ _ _ (wc mod div)); [lia|].
  unfold val128. cbn [LW0 LW1 LW2 LW3].
  assert (wa / div = 2 ^ 32 * (wa / div / 2 ^ 32) + w32 (wa / div)) as Hsplit.
  { unfold wrap. apply Z.div_mod. lia. }
  change (2 ^ 96) with (2 ^ 64 * 2 ^ 32).
  assert (LW0 n + 2 ^ 32 * LW1 n + 2 ^ 64 * LW2 n + 2 ^ 64 * 2 ^ 32 * LW3 n =
    2 ^ 64 * wa + 2 ^ 32 * LW1 n + LW0 n) as -> by (unfold wa; lia).
  assert (div * (wc / div + 2 ^ 32 * (wb / div) + 2 ^ 64 * w32 (wa / div) +
    2 ^ 64 * 2 ^ 32 * (wa / div / 2 ^ 32)) =
    div * (wc / div) + 2 ^ 32 * (div * (wb / div)) + 2 ^ 64 * (div * (wa / div))) as ->.
  { rewrite Hsplit at 3. ring. }
  assert (wb = wa mod div * 2 ^ 32 + LW1 n) as Eb by done.
  assert (wc = wb mod div * 2 ^ 32 + LW0 n) as Ec by done.
  change (2 ^ 64) with (2 ^ 32 * 2 ^ 32). nia.
Qed.

Lemma add_128_spec s v : ok128 s -> 0 <= v < 2 ^ 32 -> val128 s + v < 2 ^ 128 ->
  ok128 (_psp_add_element_to_array s v).2 /\
  val128 (_psp_add_element_to_array s v).2 = val128 s + v.
Proof.
  intros (H0 & H1 & H2 & H3) Hv Hb. unfold _psp_add_element_to_array, ok128, val128 in *.
  cbn [snd LW0 LW1 LW2 LW3].
  change (2 ^ 128) with (79228162514264337593543950336 * 4294967296) in *.
  change (2 ^ 96) with 79228162514264337593543950336 in *.
  change (2 ^ 64) with 18446744073709551616 in *. unfold wrap.
  change (2 ^ 32) with 4294967296 in *.
  assert (forall z cy, 0 <= z < 4294967296 -> 0 <= cy <= 1 ->
    (z + cy) mod 4294967296 + 4294967296 * (if (z + cy) mod 4294967296 <? z then 1 else 0) = z + cy
    /\ 0 <= (z + cy) mod 4294967296 < 4294967296
    /\ 0 <= (if (z + cy) mod 4294967296 <? z then 1 else 0) <= 1) as Hstep.
  { intros z cy Hz Hcy. destruct (_ <? _) eqn:E; zreflect; revert E; zdm. }
  assert ((LW0 s + v) mod 4294967296 +
    4294967296 * (if (LW0 s + v) mod 4294967296 <? v then 1 else 0) = LW0 s + v
    /\ 0 <= (LW0 s + v) mod 4294967296 < 4294967296
    /\ 0 <= (if (LW0 s + v) mod 4294967296 <? v then 1 else 0) <= 1) as (E0 & R0 & C0).
  { destruct (_ <? _) eqn:E; zreflect; revert E; zdm. }
  set (c0 := if (LW0 s + v) mod _ <? v then 1 else 0) in *.
  destruct (Hstep (LW1 s) c0 H1 C0) as (E1 & R1 & C1).
  set (c1 := if (LW1 s + c0) mod _ <? LW1 s then 1 else 0) in *.
  destruct (Hstep (LW2 s) c1 H2 C1) as (E2 & R2 & C2).
  set (c2 := if (LW2 s + c1) mod _ <? LW2 s then 1 else 0) in *.
  destruct (Hstep (LW3 s) c2 H3 C2) as (E3 & R3 & C3).
  split; [tauto|]. lia.
Qed.

(** ** Conversions of ticks *)

Lemma of_LLW0_val v : 0 <= v < 2 ^ 64 -> ok128 (of_LLW0 v) /\ val128 (of_LLW0 v) = v.
Proof.
  intros H. unfold ok128, val128, of_LLW0. cbn [LW0 LW1 LW2 LW3].
  change (2 ^ 64) with 18446744073709551616 in *. change (2 ^ 32) with 4294967296 in *.
  split; [split_and!|]; zdm.
Qed.

Lemma val128_nonneg x : ok128 x -> 0 <= val128 x.
Proof. unfold ok128, val128. lia. Qed.

Lemma mul_128_exact m mul : ok128 m -> 0 <= mul < 2 ^ 32 -> val128 m * mul < 2 ^ 128 ->
  ok128 (_psp_mul_128_by_32 m mul).2 /\ val128 (_psp_mul_128_by_32 m mul).2 = val128 m * mul.
Proof.
  intros Hm Hmul Hb. destruct (mul_128_spec m mul Hm Hmul) as (r & x & -> & Hx & E & Hr).
  cbn [snd]. split; [done|]. pose proof (val128_nonneg x Hx). nia.
Qed.

Fixpoint product (l : list Z) : Z :=
  match l with [] => 1 | m :: l' => m * product l' end.

Lemma product_pos l : Forall (fun m => 0 < m < 2 ^ 32) l -> 0 < product l.
Proof. induction 1; simpl; nia. Qed.

Lemma fold_mul_exact l : forall x, ok128 x -> Forall (fun m => 0 < m < 2 ^ 32) l ->
  val128 x * product l < 2 ^ 128 ->
  ok128 (fold_left (fun tmp m => (_psp_mul_128_by_32 tmp m).2) l x) /\
  val128 (fold_left (fun tmp m => (_psp_mul_128_by_32 tmp m).2) l x) = val128 x * product l.
Proof.
  induction l as [|m l IH]; intros x Hx Hl Hb; simpl in *; [split; [done|lia]|].
  inversion Hl; subst. pose proof (product_pos l ltac:(done)). pose proof (val128_nonneg x Hx).
  destruct (mul_128_exact x m) as [Hy Ey]; [done|lia|nia|].
  destruct (IH (_psp_mul_128_by_32 x m).2) as [Hz Ez]; [done|done|rewrite Ey; lia|].
  split; [done|]. rewrite Ez, Ey. lia.
Qed.

Lemma low_high x : ok128 x ->
  LW0 x = val128 x mod 2 ^ 32 /\
  negb (LLW1 x =? 0) || negb (LW1 x =? 0) = (2 ^ 32 <=? val128 x).
Proof.
  intros (H0 & H1 & H2 & H3). unfold val128, LLW1.
  change (2 ^ 96) with 79228162514264337593543950336 in *.
  change (2 ^ 64) with 18446744073709551616 in *. change (2 ^ 32) with 4294967296 in *.
  split; [zdm|]. destruct (_ <=? _) eqn:E; zreflect.
  - rewrite orb_true_iff, !negb_true_iff, !Z.eqb_neq. lia.
  - rewrite orb_false_iff, !negb_false_iff, !Z.eqb_eq. lia.
Qed.

(** The value of a time of [t] ticks in tenths of a unit, and rounded to units. *)
Definition unit_value (tps hwtpt : Z) (m : Z) (t : ticks) (round : bool) : Z :=
  ((TICKS t * hwtpt + HW_TICKS t) * m / tps / hwtpt + if round then 5 else 0) / 10.

Lemma subunit_val tps hwtpt muls t round :
  0 < tps < 2 ^ 32 -> 0 < hwtpt < 2 ^ 32 -> 0 <= TICKS t < 2 ^ 64 -> 0 <= HW_TICKS t < 2 ^ 32 ->
  Forall (fun m => 0 < m < 2 ^ 32) muls ->
  (TICKS t * hwtpt + HW_TICKS t) * product muls < 2 ^ 128 - 5 ->
  ticks_to_subunit tps hwtpt muls t round =
  (unit_value tps hwtpt (product muls) t round mod 2 ^ 32,
   2 ^ 32 <=? unit_value tps hwtpt (product muls) t round).
Proof.
  intros Htps Hh Ht Hhw Hmuls Hb. unfold ticks_to_subunit, unit_value.
  pose proof (product_pos muls Hmuls) as Hpos.
  destruct (of_LLW0_val (TICKS t) Ht) as [O0 V0].
  destruct (mul_128_exact (of_LLW0 (TICKS t)) hwtpt O0) as [O1 V1]; [lia|rewrite V0; nia|].
  rewrite V0 in V1. set (x1 := (_psp_mul_128_by_32 (of_LLW0 (TICKS t)) hwtpt).2) in *.
  destruct (add_128_spec x1 (HW_TICKS t) O1) as [O2 V2]; [lia|rewrite V1; nia|].
  set (x2 := (_psp_add_element_to_array x1 (HW_TICKS t)).2) in *. rewrite V1 in V2.
  destruct (fold_mul_exact muls x2 O2 Hmuls) as [O3 V3]; [rewrite V2; lia|].
  set (x3 := fold_left _ muls x2) in *. rewrite V2 in V3.
  destruct (div_128_spec x3 tps O3) as [O4 V4]; [lia|].
  set (x4 := (_psp_div_128_by_32 x3 tps).2) in *. rewrite V3 in V4.
  destruct (div_128_spec x4 hwtpt O4) as [O5 V5]; [lia|].
  set (x5 := (_psp_div_128_by_32 x4 hwtpt).2) in *. rewrite V4 in V5.
  set (v := (TICKS t * hwtpt + HW_TICKS t) * product muls) in *.
  assert (0 <= v) as Hv by (unfold v; nia).
  assert (0 <= v / tps / hwtpt <= v) as Hvb.
  { assert (0 <= v / tps <= v) as [? ?].
    { split; [apply Z.div_pos; lia|]. apply Z.div_le_upper_bound; nia. }
    split; [apply Z.div_pos; lia|]. transitivity (v / tps); [|done].
    apply Z.div_le_upper_bound; nia. }
  assert (ok128 (if round then (_psp_add_element_to_array x5 5).2 else x5) /\
    val128 (if round then (_psp_add_element_to_array x5 5).2 else x5) =
    v / tps / hwtpt + if round then 5 else 0) as [O6 V6].
  { destruct round; [|split; [done|lia]].
    destruct (add_128_spec x5 5 O5) as [? ->]; [lia|rewrite V5; lia|]. split; [done|lia]. }
  set (x6 := if round then _ else x5) in *.
  destruct (div_128_spec x6 10 O6) as [O7 V7]; [lia|].
  destruct (low_high _ O7) as [-> ->]. rewrite V7, V6. done.
Qed.

(** Normalised ticks add and subtract without losing anything. *)
Lemma add_ticks_val hwtpt a b : 0 < hwtpt < 2 ^ 32 ->
  0 <= HW_TICKS a < hwtpt -> 0 <= HW_TICKS b < hwtpt ->
  exists t h, _psp_add_ticks hwtpt a b = Ticks (w64 t) h /\ 0 <= h < hwtpt /\
    t * hwtpt + h = (TICKS a + TICKS b) * hwtpt + (HW_TICKS a + HW_TICKS b).
Proof.
  intros Hh Ha Hb. unfold _psp_add_ticks. change (2 ^ 32) with 4294967296 in *.
  rewrite (wrap_small 32 (hwtpt - HW_TICKS b)) by (change (2 ^ 32) with 4294967296; lia).
  case_if.
  - exists (TICKS a + TICKS b + 1), (HW_TICKS a + HW_TICKS b - hwtpt).
    rewrite wrap_add_l, wrap_add_r. split; [|lia]. f_equal.
    rewrite <-wrap_small with (w := 32) (z := HW_TICKS a + HW_TICKS b - hwtpt)
      by (change (2 ^ 32) with 4294967296; lia). f_equal. lia.
  - exists (TICKS a + TICKS b), (HW_TICKS a + HW_TICKS b). split; [|lia]. f_equal.
    apply wrap_small. change (2 ^ 32) with 4294967296. lia.
Qed.

Lemma subtract_ticks_val hwtpt a b : 0 < hwtpt < 2 ^ 31 ->
  0 <= HW_TICKS a < hwtpt -> 0 <= HW_TICKS b < hwtpt ->
  exists t h, _psp_subtract_ticks hwtpt a b = Ticks (w64 t) h /\ 0 <= h < hwtpt /\
    t * hwtpt + h = (TICKS a - TICKS b) * hwtpt + (HW_TICKS a - HW_TICKS b).
Proof.
  intros Hh Ha Hb. unfold _psp_subtract_ticks. change (2 ^ 31) with 2147483648 in *.
  case_if.
  - exists (TICKS a - TICKS b - 1), (HW_TICKS a + hwtpt - HW_TICKS b). split; [|lia].
    rewrite (wrap_small 32 (HW_TICKS a + hwtpt)) by (change (2 ^ 32) with 4294967296; lia).
    rewrite (wrap_small 32) by (change (2 ^ 32) with 4294967296; lia).
    f_equal. unfold wrap. by rewrite Zminus_mod_idemp_l.
  - exists (TICKS a - TICKS b), (HW_TICKS a - HW_TICKS b). split; [|lia]. f_equal.
    apply wrap_small. change (2 ^ 32) with 4294967296. lia.
Qed.

(** ** The calendar: reference definitions *)

Definition leap_year (y : Z) : Prop := y mod 4 = 0 /\ (y mod 100 <> 0 \/ y mod 400 = 0).

Definition leap_day (y : Z) : Z := if _time_check_if_leap y then 1 else 0.

Lemma leap_spec y : _time_check_if_leap y = true <-> leap_year y.
Proof.
  unfold _time_check_if_leap, leap_year.
  destruct (y mod 100 =? 0) eqn:E1; zreflect.
  - destruct (y mod 400 =? 0) eqn:E2; zreflect;
      (split; [intros ?; try done; zdm|intros ?; try done; exfalso; zdm]).
  - destruct (y mod 4 =? 0) eqn:E2; zreflect;
      (split; [intros ?; try done; zdm|intros ?; try done; exfalso; zdm]).
Qed.

(** Days in the [n] years from [y] on. *)
Fixpoint days_in_years (n : nat) (y : Z) : Z :=
  match n with
  | O => 0
  | S n => 365 + leap_day y + days_in_years n (y + 1)
  end.

(** Days from 1 January 1970 to the date. *)
Definition days_civil (y m d : Z) : Z :=
  days_in_years (Z.to_nat (y - 1970)) 1970 + days_before 12 (leap_day y) m + (d - 1).

Record valid_date (d : date) : Prop := {
  vd_year : 1970 <= YEAR d <= 2099;
  vd_month : 1 <= MONTH d <= 12;
  vd_day : 1 <= DAY d <= _time_days_in_month_internal (leap_day (YEAR d)) (MONTH d);
  vd_hour : 0 <= HOUR d < 24;
  vd_minute : 0 <= MINUTE d < 60;
  vd_second : 0 <= SECOND d < 60;
  vd_ms : 0 <= MILLISEC d < 1000
}.

(** ** Calendar lemmas *)

Lemma s16_small z : -32768 <= z < 32768 -> s16 z = z.
Proof. intros H. apply to_signed_small; [lia|]. change (2 ^ (16 - 1)) with 32768. lia. Qed.

Lemma w16_small z : 0 <= z < 65536 -> w16 z = z.
Proof. intros H. apply wrap_small. change (2 ^ 16) with 65536. lia. Qed.

Lemma w32_small z : 0 <= z < 4294967296 -> w32 z = z.
Proof. intros H. apply wrap_small. change (2 ^ 32) with 4294967296. lia. Qed.

(** Evaluate the wraps of small terms. *)
Ltac wsmall := repeat first
  [ rewrite s16_small by first [lia | zdm]
  | rewrite w16_small by first [lia | zdm]
  | rewrite w32_small by first [lia | zdm] ].

Lemma days_in_years_snoc n y : days_in_years (S n) y = days_in_years n y + 365 + leap_day (y + Z.of_nat n).
Proof.
  revert y. induction n as [|n IH]; intros y.
  - cbn [days_in_years]. change (Z.of_nat 0) with 0. rewrite !Z.add_0_r. lia.
  - change (days_in_years (S (S n)) y) with (365 + leap_day y + days_in_years (S n) (y + 1)).
    rewrite IH. cbn [days_in_years]. replace (y + 1 + Z.of_nat n) with (y + Z.of_nat (S n)) by lia.
    lia.
Qed.

Lemma div_succ z k : 0 < k -> (z + 1) / k = z / k + if (z + 1) mod k =? 0 then 1 else 0.
Proof.
  intros Hk. pose proof (Z.div_mod z k ltac:(lia)). pose proof (Z.mod_pos_bound z k Hk).
  pose proof (Z.div_mod (z + 1) k ltac:(lia)). pose proof (Z.mod_pos_bound (z + 1) k Hk).
  set (q := z / k) in *. set (q' := (z + 1) / k) in *. set (r := z mod k) in *.
  destruct (_ =? 0) eqn:E; zreflect.
  - assert (k * (q' - q) = r + 1) by lia. assert (q' - q = 1) by nia. lia.
  - assert (k * (q' - q) = r + 1 - (z + 1) mod k) by lia. assert (q' - q = 0) by nia. lia.
Qed.

(** The closed form the code uses. *)
Lemma days_in_years_val y : 1970 <= y ->
  days_in_years (Z.to_nat (y - 1970)) 1970 =
  (y - 1970) * 365 + (y / 4 - y / 100 + y / 400 - NUM_LEAP_YEAR_SINCE_FIRST_YEAR) - leap_day y.
Proof.
  intros H. replace y with (1970 + Z.of_nat (Z.to_nat (y - 1970))) at 2 3 4 5 6 by lia.
  generalize (Z.to_nat (y - 1970)). change NUM_LEAP_YEAR_SINCE_FIRST_YEAR with 477.
  induction n as [|n IH]; [done|].
  rewrite days_in_years_snoc, IH. clear. set (z := 1970 + Z.of_nat n).
  replace (1970 + Z.of_nat (S n)) with (z + 1) by (unfold z; lia).
  rewrite !div_succ by lia. unfold leap_day at 3. unfold _time_check_if_leap.
  generalize (leap_day z). intros ld. clearbody z. clear n.
  destruct ((z + 1) mod 100 =? 0) eqn:E1; destruct ((z + 1) mod 400 =? 0) eqn:E2;
    destruct ((z + 1) mod 4 =? 0) eqn:E3; zreflect; first [lia|exfalso; zdm].
Qed.

Lemma leap_index_val y : 0 <= y < 65536 -> leap_index y = leap_day y.
Proof. intros H. unfold leap_index, leap_day. by rewrite w16_small. Qed.

Lemma leap_day_range y : leap_day y = 0 \/ leap_day y = 1.
Proof. unfold leap_day. destruct (_time_check_if_leap y); auto. Qed.

Lemma month_cases m : 1 <= m <= 12 ->
  m = 1 \/ m = 2 \/ m = 3 \/ m = 4 \/ m = 5 \/ m = 6 \/ m = 7 \/ m = 8 \/ m = 9 \/ m = 10 \/
  m = 11 \/ m = 12.
Proof. lia. Qed.

Lemma dim_range leap m : (leap = 0 \/ leap = 1) -> 1 <= m <= 12 ->
  28 <= _time_days_in_month_internal leap m <= 31.
Proof.
  intros [-> | ->] H;
    destruct (month_cases m H) as [->|[->|[->|[->|[->|[->|[->|[->|[->|[->|[->| ->]]]]]]]]]]];
    vm_compute; split; congruence.
Qed.

Lemma days_before_step leap m : (leap = 0 \/ leap = 1) -> 1 <= m <= 12 ->
  days_before 12 leap (m + 1) = days_before 12 leap m + _time_days_in_month_internal leap m.
Proof.
  intros [-> | ->] H;
    destruct (month_cases m H) as [->|[->|[->|[->|[->|[->|[->|[->|[->|[->|[->| ->]]]]]]]]]]];
    reflexivity.
Qed.

Lemma days_before_range leap m : (leap = 0 \/ leap = 1) -> 1 <= m <= 13 ->
  0 <= days_before 12 leap m <= 365 + leap /\ (m <= 12 -> days_before 12 leap m + 28 <= 365 + leap).
Proof.
  intros [-> | ->] H; (assert (1 <= m <= 12 \/ m = 13) as [Hm| ->] by lia;
    [destruct (month_cases m Hm) as [->|[->|[->|[->|[->|[->|[->|[->|[->|[->|[->| ->]]]]]]]]]]]|]);
    (split; [split|intros]; first [lia|vm_compute; congruence]).
Qed.

(** The month loop of [_time_to_date] finds the month of a day of the year. *)
Lemma month_loop_spec leap n : (leap = 0 \/ leap = 1) -> forall m day,
  1 <= m -> m + Z.of_nat n = 13 -> 0 <= day < 366 ->
  days_before 12 leap m + day < 365 + leap ->
  exists m' day', month_loop n leap m day = (m', day') /\ 1 <= m' <= 12 /\
    0 <= day' < _time_days_in_month_internal leap m' /\
    days_before 12 leap m' + day' = days_before 12 leap m + day.
Proof.
  intros Hleap. induction n as [|n IH]; intros m day Hm Hn Hd Hb.
  - assert (m = 13) as -> by lia. destruct Hleap as [-> | ->].
    + change (days_before 12 0 13) with 365 in Hb. lia.
    + change (days_before 12 1 13) with 366 in Hb. lia.
  - simpl month_loop. pose proof (dim_range leap m Hleap ltac:(lia)).
    destruct (_ <=? day) eqn:E; zreflect.
    + wsmall. pose proof (days_before_step leap m Hleap ltac:(lia)).
      destruct (IH (m + 1) (day - _time_days_in_month_internal leap m))
        as (m' & day' & -> & H1 & H2 & H3); [lia..|].
      exists m', day'. split_and!; [done|lia..].
    + exists m, day. split_and!; [done|lia..].
Qed.

(** ** Dates to times *)

Lemma normalize_id v b h : 0 <= v < b -> b <= 1000 -> -32768 <= h < 32768 ->
  normalize v b h = (true, v, h).
Proof.
  intros Hv Hb Hh. unfold normalize. rewrite Z.quot_small by lia.
  rewrite (s16_small 0) by lia. wsmall. rewrite Z.mul_0_l, Z.sub_0_r. wsmall.
  rewrite (proj2 (Z.ltb_ge v 0)) by lia. cbn [Z.ltb Z.compare].
  rewrite Z.add_0_r. wsmall. change (0 <? 0) with false. cbn iota.
  assert ((0 <? h) && (32767 - h <? 0) = false) as ->; [|done].
  apply andb_false_iff. rewrite !Z.ltb_ge. lia.
Qed.

Lemma date_loop_valid fuel y m d : (0 < fuel)%nat -> 0 <= y < 65536 ->
  1 <= d <= _time_days_in_month_internal (leap_day y) m -> d < 65536 ->
  date_loop fuel y m d = Some (y, m, d).
Proof.
  intros Hf Hy Hd Hd'. destruct fuel as [|fuel]; [lia|]. cbn [date_loop].
  rewrite leap_index_val by done. rewrite (proj2 (Z.ltb_ge _ _)) by lia.
  wsmall. rewrite (proj2 (Z.ltb_ge _ _)) by lia. done.
Qed.

Lemma leap_day_2099 y : 1970 <= y <= 2099 -> leap_day y = if y mod 4 =? 0 then 1 else 0.
Proof.
  intros H. unfold leap_day, _time_check_if_leap.
  destruct (y mod 100 =? 0) eqn:E1; [|by destruct (y mod 4 =? 0)].
  destruct (y mod 400 =? 0) eqn:E2; destruct (y mod 4 =? 0) eqn:E3; zreflect; try done;
    exfalso; zdm.
Qed.

Lemma days_civil_bound d : valid_date d ->
  0 <= days_civil (YEAR d) (MONTH d) (DAY d) <= 47481.
Proof.
  intros []. unfold days_civil. rewrite days_in_years_val by lia.
  change NUM_LEAP_YEAR_SINCE_FIRST_YEAR with 477.
  pose proof (leap_day_range (YEAR d)) as Hl.
  pose proof (days_before_step _ (MONTH d) Hl ltac:(lia)) as Hs.
  pose proof (days_before_range _ (MONTH d) Hl ltac:(lia)) as [? _].
  pose proof (days_before_range _ (MONTH d + 1) Hl ltac:(lia)) as [? _].
  rewrite leap_day_2099 in * by lia. destruct (YEAR d mod 4 =? 0) eqn:E; zreflect; zdm.
Qed.

Lemma days_in_years_nonneg n y : 0 <= days_in_years n y.
Proof.
  revert y. induction n as [|n IH]; intros y; [done|]. cbn [days_in_years].
  specialize (IH (y + 1)). destruct (leap_day_range y); lia.
Qed.

(** What [_time_from_date] makes of a valid date. *)
Definition seconds_of (d : date) : Z :=
  days_civil (YEAR d) (MONTH d) (DAY d) * 86400 + HOUR d * 3600 + MINUTE d * 60 + SECOND d.

Definition with_days (d : date) : date :=
  Date (YEAR d) (MONTH d) (DAY d) (HOUR d) (MINUTE d) (SECOND d) (MILLISEC d)
       ((days_civil (YEAR d) (MONTH d) (DAY d) + 4) mod 7)
       (days_before 12 (leap_day (YEAR d)) (MONTH d) + DAY d - 1).

Lemma from_date_valid fuel d : valid_date d -> (0 < fuel)%nat ->
  _time_from_date fuel d = Some (true, with_days d, Some (Time (seconds_of d) (MILLISEC d))).
Proof.
  intros Hd Hf. pose proof (days_civil_bound d Hd) as Hb. destruct Hd as [V1 V2 V3 V4 V5 V6 V7].
  pose proof (leap_day_range (YEAR d)) as Hl. pose proof (dim_range _ _ Hl V2) as Hdim.
  pose proof (days_before_range _ (MONTH d) Hl ltac:(lia)) as [Hdb _].
  unfold _time_from_date.
  rewrite (normalize_id (MILLISEC d)) by lia. cbn [negb MILLISEC SECOND MINUTE HOUR DAY MONTH YEAR WDAY YDAY].
  rewrite (normalize_id (SECOND d)) by lia. cbn [negb MILLISEC SECOND MINUTE HOUR DAY MONTH YEAR WDAY YDAY].
  rewrite (normalize_id (MINUTE d)) by lia. cbn [negb MILLISEC SECOND MINUTE HOUR DAY MONTH YEAR WDAY YDAY].
  rewrite (normalize_id (HOUR d)) by lia. cbn [negb MILLISEC SECOND MINUTE HOUR DAY MONTH YEAR WDAY YDAY].
  rewrite (s16_small (MONTH d - 1)) by lia. rewrite (normalize_id (MONTH d - 1)) by lia. cbn [negb].
  rewrite (s16_small (MONTH d - 1 + 1)) by lia. replace (MONTH d - 1 + 1) with (MONTH d) by lia.
  rewrite date_loop_valid by lia. change CLK_FIRST_YEAR with 1970.
  rewrite (proj2 (Z.ltb_ge _ _)) by lia. rewrite leap_index_val by lia.
  rewrite !Z.quot_div_nonneg by lia.
  set (dy := days_in_years (Z.to_nat (YEAR d - 1970)) 1970).
  pose proof (days_in_years_nonneg (Z.to_nat (YEAR d - 1970)) 1970) as Hdy0. fold dy in Hdy0.
  pose proof (days_in_years_val (YEAR d) ltac:(lia)) as Hdy. fold dy in Hdy.
  change NUM_LEAP_YEAR_SINCE_FIRST_YEAR with 477 in *.
  unfold seconds_of, with_days. unfold days_civil in *. fold dy in Hb |- *.
  set (db := days_before 12 (leap_day (YEAR d)) (MONTH d)) in *.
  set (ld := leap_day (YEAR d)) in *. clearbody ld.
  rewrite (w32_small ((YEAR d - 1970) * 365)) by lia. rewrite (w32_small (DAY d - 1)) by lia.
  rewrite (w32_small (db + (DAY d - 1))) by lia.
  assert (w32 ((YEAR d - 1970) * 365 +
    (YEAR d / 4 - YEAR d / 100 + YEAR d / 400 - 477)) = dy + ld) as ->.
  { rewrite w32_small; lia. }
  assert ((if negb (ld =? 0) then w32 (dy + ld - 1) else dy + ld) = dy) as ->.
  { destruct Hl as [-> | ->]; cbn; [lia|]. rewrite w32_small; lia. }
  rewrite (w32_small (dy + _)) by lia.
  rewrite (w32_small (HOUR d * 3600)), (w32_small (MINUTE d * 60)) by lia.
  rewrite (w32_small (HOUR d * 3600 + _)) by lia. rewrite (w32_small (_ + SECOND d)) by lia.
  set (t := HOUR d * 3600 + MINUTE d * 60 + SECOND d). change MAXIMUM_SECONDS_IN_TIME with 4102444799.
  rewrite (w32_small (4102444799 - t)) by lia.
  rewrite (proj2 (Z.ltb_ge _ _)) by zdm.
  rewrite (w32_small (_ * 86400)) by lia. rewrite (w32_small (t + _)) by lia.
  rewrite (w32_small (_ + 4)), (w32_small (MILLISEC d)) by lia. wsmall.
  assert (t + (dy + (db + (DAY d - 1))) * 86400 =
    (dy + db + (DAY d - 1)) * 86400 + HOUR d * 3600 + MINUTE d * 60 + SECOND d) as ->
    by (unfold t; lia).
  replace (dy + (db + (DAY d - 1)) + 4) with (dy + db + (DAY d - 1) + 4) by lia.
  replace (db + (DAY d - 1)) with (db + DAY d - 1) by lia. done.
Qed.

(** ** Times to dates *)

(** The year arithmetic of [_time_to_date]. *)
Lemma year_of_day day : 0 <= day <= 47481 ->
  let year := 4 * ((day + 365) / 1461) in
  let r := day + 365 - year * 1461 / 4 in
  let tmp := if r / 365 =? 4 then 3 else r / 365 in
  let y := year + tmp + 1970 - 1 in
  1970 <= y <= 2099 /\ 0 <= r < 1461 /\ 0 <= tmp <= 3 /\
  0 <= r - tmp * 365 < 365 + leap_day y /\
  days_in_years (Z.to_nat (y - 1970)) 1970 + (r - tmp * 365) = day.
Proof.
  intros H year r tmp y.
  set (c := (day + 365) / 1461). assert (day + 365 = 1461 * c + (day + 365) mod 1461) as Hc.
  { apply Z.div_mod. lia. }
  pose proof (Z.mod_pos_bound (day + 365) 1461 ltac:(lia)) as Hm.
  assert (r = (day + 365) mod 1461) as Hr.
  { unfold r, year. fold c. replace (4 * c * 1461) with (1461 * c * 4) by lia.
    rewrite Z.div_mul by lia. lia. }
  assert (0 <= c <= 32) as Hcb by (unfold c; zdm).
  assert (0 <= tmp <= 3 /\ 0 <= r - tmp * 365 /\ (tmp <= 2 -> r - tmp * 365 < 365) /\
    r - tmp * 365 <= 365) as (Ht & Hr0 & Hr1 & Hr2).
  { unfold tmp. destruct (r / 365 =? 4) eqn:E; zreflect; zdm. }
  assert (y = 1969 + 4 * c + tmp) as Hy by (unfold y, year; fold c; lia).
  assert (1970 <= y <= 2099) as Hyb.
  { split; [|unfold tmp in *; destruct (r / 365 =? 4) eqn:E; zreflect; zdm].
    destruct (decide (c = 0)); [|lia]. unfold tmp. destruct (r / 365 =? 4); [lia|]. zdm. }
  assert (leap_day y = if tmp =? 3 then 1 else 0) as Hleap.
  { rewrite leap_day_2099 by done. destruct (y mod 4 =? 0) eqn:E1; destruct (tmp =? 3) eqn:E2;
      zreflect; try done; exfalso; zdm. }
  split_and!; [lia..| |].
  - rewrite Hleap. destruct (tmp =? 3) eqn:E; zreflect; lia.
  - rewrite days_in_years_val by lia. rewrite Hleap.
    change NUM_LEAP_YEAR_SINCE_FIRST_YEAR with 477.
    destruct (tmp =? 3) eqn:E; zreflect; zdm.
Qed.

Lemma to_date_spec s ms : 0 <= s <= MAXIMUM_SECONDS_IN_TIME -> 0 <= ms < 1000 ->
  exists d, _time_to_date (Time s ms) = (true, Time s ms, Some d) /\ valid_date d /\
    seconds_of d = s /\ MILLISEC d = ms /\ with_days d = d.
Proof.
  intros Hs Hms. unfold _time_to_date. cbn [SECONDS MILLISECONDS].
  change MAXIMUM_SECONDS_IN_TIME with 4102444799 in *.
  rewrite (Z.div_small ms), (Z.mod_small ms), (w32_small (4102444799 - 0)) by lia.
  rewrite (proj2 (Z.ltb_ge _ _)) by lia. rewrite Z.add_0_r.
  rewrite (w32_small s), (w16_small ms) by lia.
  set (day := s / 86400). assert (0 <= day <= 47481) as Hday by (unfold day; zdm).
  rewrite (w32_small (day * 86400)) by lia.
  set (t := s - day * 86400). assert (0 <= t < 86400) as Ht by (unfold t, day; zdm).
  rewrite (w32_small t) by lia.
  set (hour := t / 3600). assert (0 <= hour < 24) as Hh by (unfold hour; zdm).
  rewrite (w16_small hour), (w32_small (hour * 3600)) by lia.
  set (t1 := t - hour * 3600). assert (0 <= t1 < 3600) as Ht1 by (unfold t1, hour; zdm).
  rewrite (w32_small t1) by lia.
  set (minute := t1 / 60). assert (0 <= minute < 60) as Hmi by (unfold minute; zdm).
  rewrite (w16_small minute), (w32_small (minute * 60)) by lia.
  set (sec := t1 - minute * 60). assert (0 <= sec < 60) as Hsec by (unfold sec, minute; zdm).
  rewrite (w32_small sec), (w16_small sec) by lia.
  rewrite (w32_small (day + 4)), (w32_small (day + 365)) by lia.
  rewrite (w16_small ((day + 4) mod 7)) by zdm.
  destruct (year_of_day day Hday) as (Y1 & Y2 & Y3 & Y4 & Y5).
  set (year := 4 * ((day + 365) / 1461)) in *. assert (0 <= year <= 132) by (unfold year; zdm).
  rewrite (w32_small year), (w32_small (year * 1461)) by lia.
  set (r := day + 365 - year * 1461 / 4) in *. rewrite (w32_small r) by lia.
  set (tmp := if r / 365 =? 4 then 3 else r / 365) in *.
  rewrite (w32_small (tmp * 365)), (w32_small (r - tmp * 365)) by lia.
  change CLK_FIRST_YEAR with 1970.
  set (y := year + tmp + 1970 - 1) in *. set (yday := r - tmp * 365) in *.
  pose proof (leap_day_range y) as Hl.
  rewrite (s16_small y), (s16_small yday), leap_index_val by lia.
  destruct (month_loop_spec (leap_day y) 12 Hl 1 yday) as (m & d & -> & M1 & M2 & M3);
    [lia|lia|lia|simpl; lia|].
  pose proof (dim_range _ _ Hl M1). change (days_before 12 (leap_day y) 1) with 0 in M3.
  rewrite (s16_small d), (s16_small (d + 1)), (s16_small hour), (s16_small minute), (s16_small sec),
    (s16_small ms), (s16_small ((day + 4) mod 7)) by zdm.
  eexists. split; [reflexivity|].
  assert (days_civil y m (d + 1) = day) as Hciv by (unfold days_civil; lia).
  split_and!.
  - split; simpl; lia.
  - unfold seconds_of. simpl. rewrite Hciv. unfold sec, t1, t. lia.
  - done.
  - unfold with_days. cbn [YEAR MONTH DAY HOUR MINUTE SECOND MILLISEC]. rewrite Hciv. f_equal. lia.
Qed.

(** ** The date loop ends *)

Lemma date_loop_total fuel : forall y m d, 1 <= m <= 12 -> -32768 <= d < 32768 ->
  (d <= 0 -> (4 <= fuel)%nat) -> d <= 28 * Z.of_nat fuel ->
  exists r, date_loop fuel y m d = Some r.
Proof.
  assert (forall y, leap_index y = 0 \/ leap_index y = 1) as Hl.
  { intros y. unfold leap_index. destruct (_time_check_if_leap (w16 y)); auto. }
  induction fuel as [|fuel IH]; intros y m d Hm Hd H0 Hb; [lia|].
  cbn [date_loop]. pose proof (dim_range _ m (Hl y) Hm) as Hdim.
  set (dim := _time_days_in_month_internal (leap_index y) m) in *.
  destruct (dim <? d) eqn:E; zreflect.
  - rewrite (s16_small (d - dim)), (s16_small (m + 1)) by lia.
    destruct (m + 1 =? 13) eqn:E13; [|destruct (m + 1 =? 0) eqn:E0; zreflect; [lia|]];
      apply IH; zreflect; lia.
  - destruct (w32 d <? 1) eqn:E1; zreflect; [|eauto].
    assert (d = 0) as ->.
    { destruct (decide (0 <= d)); [rewrite w32_small in E1 by lia; lia|].
      exfalso. unfold wrap in E1. change (2 ^ 32) with 4294967296 in E1. revert E1. zdm. }
    rewrite (s16_small (0 + dim)), (s16_small (m - 1)) by lia.
    destruct (m - 1 =? 13) eqn:E13; [zreflect; lia|].
    destruct (m - 1 =? 0) eqn:E0; apply IH; zreflect; lia.
Qed.

(** ** Milliseconds *)

Lemma msecs_to_ticks_val tps hwtpt m : 0 < tps < 2 ^ 32 -> 0 < hwtpt < 2 ^ 32 -> 0 <= m < 2 ^ 32 ->
  exists T h, _psp_msecs_to_ticks tps hwtpt m = Ticks T h /\ 0 <= T < 2 ^ 64 /\ 0 <= h < 2 ^ 32 /\
    T * hwtpt + h = (m * (tps * hwtpt) + 500) / 1000.
Proof.
  intros Ht Hh Hm. unfold _psp_msecs_to_ticks.
  change (2 ^ 32) with 4294967296 in *. change (2 ^ 64) with 18446744073709551616.
  assert (0 <= m * tps <= 4294967295 * 4294967295) as Hp by nia.
  rewrite (wrap_small 64 (m * tps)) by (change (2 ^ 64) with 18446744073709551616; lia).
  pose proof (Z.mod_pos_bound (m * tps) 1000 ltac:(lia)) as Hr.
  set (r := (m * tps) mod 1000) in *. set (q := m * tps / 1000).
  assert (m * tps = 1000 * q + r) as Hqr by (apply Z.div_mod; lia).
  rewrite (wrap_small 64 (r * hwtpt)) by (change (2 ^ 64) with 18446744073709551616; nia).
  rewrite (wrap_small 64) by (change (2 ^ 64) with 18446744073709551616; nia).
  assert (0 <= r * hwtpt <= 999 * 4294967296) as Hb by nia.
  assert ((r * hwtpt + 500) / 1000 < 4294967296) as Hlt.
  { apply Z.div_lt_upper_bound; [lia|]. nia. }
  rewrite (wrap_small 32) by (change (2 ^ 32) with 4294967296; split; [apply Z.div_pos; lia|lia]).
  exists q, ((r * hwtpt + 500) / 1000). split_and!; [done|unfold q; zdm..|].
  replace (m * (tps * hwtpt) + 500) with (r * hwtpt + 500 + q * hwtpt * 1000).
  - rewrite Z.div_add by lia. lia.
  - rewrite Z.mul_assoc, Hqr. lia.
Qed.

(** The rounded value is within half a millisecond. *)
Lemma round_trip_val m k : 0 <= m -> 1000 < k ->
  ((m * k + 500) / 1000 * 10000 / k + 5) / 10 = m.
Proof.
  intros Hm Hk. set (n := (m * k + 500) / 1000).
  assert (1000 * n <= m * k + 500 < 1000 * n + 1000) as Hn.
  { unfold n. pose proof (Z.div_mod (m * k + 500) 1000 ltac:(lia)).
    pose proof (Z.mod_pos_bound (m * k + 500) 1000 ltac:(lia)). lia. }
  set (v := n * 10000 / k).
  assert (k * v <= n * 10000 < k * v + k) as Hv.
  { unfold v. pose proof (Z.div_mod (n * 10000) k ltac:(lia)).
    pose proof (Z.mod_pos_bound (n * 10000) k ltac:(lia)). lia. }
  assert (10 * m - 5 <= v < 10 * m + 5) as Hb by nia.
  symmetry. apply (Z.div_unique_pos _ _ _ (v + 5 - 10 * m)); lia.
Qed.

(** ** Setting and reading the clock *)

Record normal_ticks (hwtpt : Z) (t : ticks) : Prop := {
  nt_ticks : 0 <= TICKS t < 2 ^ 64;
  nt_hw : 0 <= HW_TICKS t < hwtpt
}.

Lemma ticks_unique hwtpt t h t' h' : 0 < hwtpt -> 0 <= h < hwtpt -> 0 <= h' < hwtpt ->
  t * hwtpt + h = t' * hwtpt + h' -> t = t' /\ h = h'.
Proof. intros. assert (t = t') by nia. subst. lia. Qed.

Lemma add_subtract_ticks hwtpt a b : 0 < hwtpt < 2 ^ 31 ->
  normal_ticks hwtpt a -> normal_ticks hwtpt b ->
  _psp_add_ticks hwtpt b (_psp_subtract_ticks hwtpt a b) = a.
Proof.
  intros Hh [A1 A2] [B1 B2].
  assert (0 < hwtpt < 2 ^ 32) by (change (2 ^ 32) with (2 * 2 ^ 31); lia).
  destruct (subtract_ticks_val hwtpt a b) as (t & h & -> & Hhr & Ht); [done..|].
  destruct (add_ticks_val hwtpt b (Ticks (w64 t) h)) as (t2 & h2 & -> & Hh2 & Ht2); [done..|].
  cbn [TICKS HW_TICKS] in Ht2.
  assert (w64 t = t - t / 2 ^ 64 * 2 ^ 64) as Hw.
  { unfold wrap. pose proof (Z.div_mod t (2 ^ 64) ltac:(done)). lia. }
  destruct (ticks_unique hwtpt t2 h2 (TICKS a - t / 2 ^ 64 * 2 ^ 64) (HW_TICKS a))
    as [-> ->]; [lia|done|done|rewrite Ht2, Hw; nia|].
  destruct a as [ta ha]. f_equal. cbn [TICKS] in *. unfold wrap.
  rewrite <-(Z_mod_plus_full _ (t / 2 ^ 64)). rewrite Z.mod_small; lia.
Qed.

Lemma normalize_ticks_id hwtpt t : HW_TICKS t < hwtpt -> _psp_normalize_ticks hwtpt t = t.
Proof. intros H. unfold _psp_normalize_ticks. by rewrite (proj2 (Z.leb_gt _ _)) by lia. Qed.

(** ** The borrow into day zero *)

Lemma normalize_borrow h : 0 <= h < 24 -> normalize (h - 24) 24 1 = (true, h, 0).
Proof.
  intros H. unfold normalize.
  assert (Z.quot (h - 24) 24 = if h =? 0 then -1 else 0) as ->.
  { destruct (h =? 0) eqn:E; zreflect; [by subst|].
    replace (h - 24) with (- (24 - h)) by lia. rewrite Z.quot_opp_l by lia.
    rewrite Z.quot_small by lia. done. }
  destruct (h =? 0) eqn:E; zreflect.
  - subst. reflexivity.
  - rewrite (s16_small 0), Z.mul_0_l, Z.sub_0_r, (s16_small (h - 24)) by lia.
    rewrite (proj2 (Z.ltb_lt (h - 24) 0)) by lia. rewrite (s16_small (h - 24 + 24)) by lia.
    change (s16 (0 - 1)) with (-1). cbn. do 2 f_equal. lia.
Qed.

Lemma date_loop_march y fuel : 0 <= y < 65536 -> leap_day y = 0 -> (2 < fuel)%nat ->
  date_loop fuel y 3 0 = Some (y, 3, 3).
Proof.
  intros Hy Hl Hf. destruct fuel as [|[|[|fuel]]]; [lia..|].
  cbn [date_loop]. rewrite leap_index_val, Hl by done. reflexivity.
Qed.

Lemma normalize_high v b h ok v' h' : normalize v b h = (ok, v', h') -> ok = true ->
  -32768 <= h' < 32768.
Proof.
  unfold normalize. intros H ->. destruct (if _ <? 0 then _ else _) as [nv tmp].
  destruct (if tmp <? 0 then _ else _); [done|]. injection H as _ <-.
  pose proof (to_signed_range 16 (h + tmp) ltac:(lia)) as Hr. exact Hr.
Qed.

Lemma normalize_low v h : -32768 <= v < 32768 -> 0 <= (normalize v 12 h).1.2 < 12.
Proof.
  intros Hv. unfold normalize.
  assert (-2731 <= Z.quot v 12 <= 2731 /\ v - Z.quot v 12 * 12 = Z.rem v 12) as [Hq Hr].
  { pose proof (Z.quot_rem' v 12). pose proof (Z.rem_bound_abs v 12 ltac:(lia)). lia. }
  pose proof (Z.rem_bound_abs v 12 ltac:(lia)) as Hb.
  rewrite (s16_small (Z.quot v 12)), Hr, (s16_small (Z.rem v 12)) by lia.
  destruct (Z.rem v 12 <? 0) eqn:E; zreflect.
  - rewrite (s16_small (Z.rem v 12 + 12)) by lia. destruct (if _ <? 0 then _ else _); cbn; lia.
  - destruct (if _ <? 0 then _ else _); cbn; lia.
Qed.

(** ** Properties *)

(** C18: Every time up to the end of 2099 converts to a valid calendar date
    that converts back to the same time, with the date left as it was. *)
Theorem time_date_roundtrip s ms fuel (Hs : 0 <= s <= MAXIMUM_SECONDS_IN_TIME)
  (Hms : 0 <= ms < 1000) (Hfuel : (0 < fuel)%nat) :
  exists d, _time_to_date (Time s ms) = (true, Time s ms, Some d) /\ valid_date d /\
    _time_from_date fuel d = Some (true, d, Some (Time s ms)).
Proof.
  destruct (to_date_spec s ms Hs Hms) as (d & H1 & H2 & H3 & H4 & H5).
  exists d. split_and!; [done|done|]. rewrite from_date_valid by done. by rewrite H3, H4, H5.
Qed.

(** C26: A valid date converts to the number of seconds that counting days year
    by year from 1 January 1970 gives, is not changed apart from the day of the
    week and of the year, and converts back to itself. *)
Theorem time_from_date_civil d fuel (Hd : valid_date d) (Hfuel : (0 < fuel)%nat) :
  _time_from_date fuel d = Some (true, with_days d, Some (Time (seconds_of d) (MILLISEC d))) /\
  exists d', _time_to_date (Time (seconds_of d) (MILLISEC d)) =
    (true, Time (seconds_of d) (MILLISEC d), Some d') /\
    seconds_of d' = seconds_of d.
Proof.
  split; [by apply from_date_valid|].
  pose proof (days_civil_bound d Hd). destruct Hd.
  destruct (to_date_spec (seconds_of d) (MILLISEC d)) as (d' & H1 & H2 & H3 & H4 & H5).
  - unfold seconds_of. change MAXIMUM_SECONDS_IN_TIME with 4102444799. lia.
  - done.
  - by exists d'.
Qed.

(** Conversion to a sub-second unit through the 128-bit word arithmetic is
    the exact quotient, rounded to the unit or truncated; the overflow flag says
    whether it exceeds 32 bits. *)
Theorem time_subunit_exact tps hwtpt muls t round
  (Htps : 0 < tps < 2 ^ 32) (Hhw : 0 < hwtpt < 2 ^ 32) (Ht : 0 <= TICKS t < 2 ^ 64)
  (Hh : 0 <= HW_TICKS t < 2 ^ 32) (Hm : Forall (fun m => 0 < m < 2 ^ 32) muls)
  (Hb : (TICKS t * hwtpt + HW_TICKS t) * product muls < 2 ^ 128 - 5) :
  ticks_to_subunit tps hwtpt muls t round =
  (unit_value tps hwtpt (product muls) t round mod 2 ^ 32,
   2 ^ 32 <=? unit_value tps hwtpt (product muls) t round).
Proof. by apply subunit_val. Qed.

(** With a hardware clock of more than 1000 counts a second, a number of
    milliseconds survives the conversion to ticks and back. *)
Theorem time_msecs_roundtrip tps hwtpt m
  (Htps : 0 < tps < 2 ^ 32) (Hhw : 0 < hwtpt < 2 ^ 32) (Hm : 0 <= m < 2 ^ 32)
  (Hk : 1000 < tps * hwtpt) :
  _psp_ticks_to_milliseconds tps hwtpt (_psp_msecs_to_ticks tps hwtpt m) = (m, false).
Proof.
  destruct (msecs_to_ticks_val tps hwtpt m) as (T & h & -> & HT & Hh & Hv); [done..|].
  unfold _psp_ticks_to_milliseconds, __psp_ticks_to_milliseconds.
  rewrite subunit_val; [|done|done|done|done|by repeat constructor|].
  - unfold unit_value. cbn [TICKS HW_TICKS product]. rewrite Z.mul_1_r, Hv.
    rewrite Z.div_div by lia. rewrite round_trip_val by lia.
    rewrite Z.mod_small by done. by rewrite (proj2 (Z.leb_gt _ _)) by lia.
  - cbn [TICKS HW_TICKS product].
    change (2 ^ 128) with (2 ^ 64 * (2 ^ 32 * 2 ^ 32)).
    change (2 ^ 64) with (2 ^ 32 * 2 ^ 32) in *. change (2 ^ 32) with 4294967296 in *. nia.
Qed.

(** Reading the clock right after setting it gives the time it was set to. *)
Theorem time_set_get c t (Hhw : 0 < HW_TICKS_PER_TICK c < 2 ^ 31)
  (Hc : normal_ticks (HW_TICKS_PER_TICK c) (TIME c))
  (Ht : normal_ticks (HW_TICKS_PER_TICK c) t) :
  _time_get_ticks (_time_set_ticks t c) None = t /\
  _time_get_elapsed_ticks (_time_set_ticks t c) None = TIME c.
Proof.
  unfold _time_get_ticks, _time_get_elapsed_ticks, _time_set_ticks. cbn.
  rewrite add_subtract_ticks by done. rewrite !normalize_ticks_id; [done|apply Hc|apply Ht].
Qed.

(** C27: The conversion from a date always ends: 1200 rounds of its loop are
    enough for every content of the structure with a month that can be
    normalised. *)
Theorem time_from_date_total d
  (Hd : forall n, n ∈ [YEAR d; MONTH d; DAY d; HOUR d; MINUTE d; SECOND d; MILLISEC d] ->
    -32768 <= n < 32768) :
  exists r, _time_from_date 1200 d = Some r.
Proof.
  unfold _time_from_date.
  destruct (normalize (MILLISEC d) 1000 (SECOND d)) as [[[|] ms] s]; cbn [negb]; [|eauto].
  cbn [YEAR MONTH DAY HOUR MINUTE SECOND MILLISEC].
  destruct (normalize s 60 (MINUTE d)) as [[[|] s'] mi]; cbn [negb]; [|eauto].
  cbn [YEAR MONTH DAY HOUR MINUTE SECOND MILLISEC].
  destruct (normalize mi 60 (HOUR d)) as [[[|] mi'] h]; cbn [negb]; [|eauto].
  cbn [YEAR MONTH DAY HOUR MINUTE SECOND MILLISEC].
  destruct (normalize h 24 (DAY d)) as [[[|] h'] da] eqn:Eda; cbn [negb]; [|eauto].
  cbn [YEAR MONTH DAY HOUR MINUTE SECOND MILLISEC].
  destruct (normalize (s16 (MONTH d - 1)) 12 (YEAR d)) as [[[|] mo] y] eqn:Emo; cbn [negb]; [|eauto].
  apply normalize_high in Eda; [|done].

  pose proof (to_signed_range 16 (MONTH d - 1) ltac:(lia)) as Hr.
  change (2 ^ (16 - 1)) with 32768 in Hr.
  pose proof (normalize_low (s16 (MONTH d - 1)) (YEAR d) Hr) as Hlow.
  rewrite Emo in Hlow. cbn [fst snd] in Hlow.
  destruct (date_loop_total 1200 y (s16 (mo + 1)) da) as [[[y' mo'] da'] ->];
    [rewrite s16_small by lia; lia|lia|lia|lia|].
  destruct (y' <? CLK_FIRST_YEAR); [eauto|]. destruct (_ <? _); eauto.
Qed.

(** A date one day too early in hours, on the first of March of a common
    year, is converted to the third of March instead of the last of February:
    the borrow into day 0 adds the days of March, not of February. *)
Theorem time_from_date_march_borrow d fuel (Hd : valid_date d) (Hm : MONTH d = 3)
  (Hday : DAY d = 1) (Hl : leap_day (YEAR d) = 0) (Hfuel : (2 < fuel)%nat) :
  exists d', _time_from_date fuel
    (Date (YEAR d) 3 1 (HOUR d - 24) (MINUTE d) (SECOND d) (MILLISEC d) (WDAY d) (YDAY d)) =
    Some (true, d', Some (Time (seconds_of d + 2 * 86400) (MILLISEC d))).
Proof.
  set (d3 := Date (YEAR d) 3 3 (HOUR d) (MINUTE d) (SECOND d) (MILLISEC d) (WDAY d) (YDAY d)).
  assert (valid_date d3) as Hd3.
  { destruct Hd. split; unfold d3; cbn [YEAR MONTH DAY HOUR MINUTE SECOND MILLISEC]; try lia.
    rewrite Hl. vm_compute. split; congruence. }
  exists (with_days d3).
  assert (seconds_of d + 2 * 86400 = seconds_of d3) as ->.
  { unfold seconds_of, days_civil. cbn [YEAR MONTH DAY HOUR MINUTE SECOND d3]. rewrite Hm, Hday. lia. }
  change (MILLISEC d) with (MILLISEC d3) at 2. rewrite <-(from_date_valid fuel d3) by (done || lia).
  unfold _time_from_date. destruct Hd as [V1 V2 V3 V4 V5 V6 V7].
  cbn [YEAR MONTH DAY HOUR MINUTE SECOND MILLISEC WDAY YDAY d3].
  rewrite (normalize_id (MILLISEC d)) by lia. cbn [negb YEAR MONTH DAY HOUR MINUTE SECOND MILLISEC WDAY YDAY].
  rewrite (normalize_id (SECOND d)) by lia. cbn [negb YEAR MONTH DAY HOUR MINUTE SECOND MILLISEC WDAY YDAY].
  rewrite (normalize_id (MINUTE d) 60 (HOUR d)), (normalize_id (MINUTE d) 60 (HOUR d - 24)) by lia.
  cbn [negb YEAR MONTH DAY HOUR MINUTE SECOND MILLISEC WDAY YDAY].
  rewrite normalize_borrow, (normalize_id (HOUR d)) by lia.
  cbn [negb YEAR MONTH DAY HOUR MINUTE SECOND MILLISEC WDAY YDAY].
  change (s16 (3 - 1)) with 2. rewrite (normalize_id 2) by lia. cbn [negb].
  change (s16 (2 + 1)) with 3. rewrite date_loop_march by lia.
  rewrite (date_loop_valid fuel (YEAR d) 3 3); [done|lia|lia| |lia]. rewrite Hl. vm_compute. split; congruence.
Qed.

(** [gmtime_r] and [mktime] are inverse on every time up to the end of
    2099. *)
Theorem time_gmtime_mktime s isdst fuel (Hs : 0 <= s <= MAXIMUM_SECONDS_IN_TIME)
  (Hfuel : (0 < fuel)%nat) :
  exists x, gmtime_r s isdst = Some x /\ mktime fuel x = Some (s, x).
Proof.
  destruct (to_date_spec s 0 Hs ltac:(lia)) as (d & H1 & H2 & H3 & H4 & H5).
  unfold gmtime_r. rewrite H1. eexists. split; [reflexivity|].
  pose proof H2 as [V1 V2 V3 V4 V5 V6 V7].
  pose proof (dim_range _ _ (leap_day_range (YEAR d)) V2).
  set (d0 := Date (YEAR d) (MONTH d) (DAY d) (HOUR d) (MINUTE d) (SECOND d) 0 0 0).
  assert (valid_date d0) as Hv by (by split).
  unfold mktime, tm_to_date. cbn [tm_sec tm_min tm_hour tm_mday tm_mon tm_year tm_isdst].
  rewrite !s16_small by lia.
  replace (YEAR d - 1900 + 1900) with (YEAR d) by lia.
  replace (MONTH d - 1 + 1) with (MONTH d) by lia.
  replace (DAY d - 1 + 1) with (DAY d) by lia. fold d0.
  rewrite from_date_valid by done. change (seconds_of d0) with (seconds_of d). rewrite H3.
  cbn [SECONDS]. change _timezone with 0. change MAXIMUM_SECONDS_IN_TIME with 4102444799 in *.
  rewrite !w32_small by lia. rewrite (proj2 (Z.ltb_ge _ _)) by lia.
  rewrite Z.add_0_r. do 3 f_equal.
  - exact (f_equal WDAY H5).
  - exact (f_equal YDAY H5).
Qed.

(** ** Witnesses *)

Definition demo_date : date := Date 2010 3 1 5 30 15 250 0 0.

Lemma demo_valid : valid_date demo_date.
Proof. split; vm_compute; split; congruence. Qed.

Example time_date_roundtrip_witness : exists d,
  _time_to_date (Time 1267421415 250) = (true, Time 1267421415 250, Some d) /\ valid_date d /\
  _time_from_date 1 d = Some (true, d, Some (Time 1267421415 250)).
Proof. apply (time_date_roundtrip 1267421415 250 1); [vm_compute; split; congruence|lia|lia]. Defined.

Example time_from_date_civil_witness :
  _time_from_date 1 demo_date = Some (true, with_days demo_date, Some (Time 1267421415 250)) /\
  exists d', _time_to_date (Time 1267421415 250) = (true, Time 1267421415 250, Some d') /\
    seconds_of d' = 1267421415.
Proof. exact (time_from_date_civil demo_date 1 demo_valid ltac:(lia)). Defined.

Example time_subunit_exact_witness :
  ticks_to_subunit 200 60000 [10000] (Ticks 12345 30000) true = (61728, false).
Proof.
  etransitivity; [apply time_subunit_exact|reflexivity];
    first [by repeat constructor|vm_compute; split; congruence|vm_compute; congruence].
Defined.

Example time_msecs_roundtrip_witness :
  _psp_ticks_to_milliseconds 200 60000 (_psp_msecs_to_ticks 200 60000 1234567) = (1234567, false).
Proof.
  apply time_msecs_roundtrip;
    first [vm_compute; split; congruence|vm_compute; congruence].
Defined.

Definition demo_clock : clock := Clock (Ticks 1000 17) (Ticks 0 0) 200 60000 15.

Example time_set_get_witness :
  _time_get_ticks (_time_set_ticks (Ticks 987654321 59999) demo_clock) None = Ticks 987654321 59999 /\
  _time_get_elapsed_ticks (_time_set_ticks (Ticks 987654321 59999) demo_clock) None = Ticks 1000 17.
Proof.
  apply (time_set_get demo_clock (Ticks 987654321 59999));
    [vm_compute; split; congruence|split; vm_compute; split; congruence..].
Defined.

Example time_from_date_total_witness : exists r,
  _time_from_date 1200 (Date 32767 (-32768) (-1) 32767 (-5) 9 (-32768) 0 0) = Some r.
Proof.
  apply time_from_date_total. intros n Hn. cbn in Hn.
  repeat (apply elem_of_cons in Hn as [->|Hn]; [lia|]). by apply not_elem_of_nil in Hn.
Defined.

Example time_from_date_march_borrow_witness : exists d',
  _time_from_date 3 (Date 2010 3 1 (-19) 30 15 250 0 0) =
  Some (true, d', Some (Time (1267421415 + 172800) 250)).
Proof.
  apply (time_from_date_march_borrow demo_date 3 demo_valid); [reflexivity..|lia].
Defined.

Example time_gmtime_mktime_witness : exists x,
  gmtime_r 1267421415 0 = Some x /\ mktime 1 x = Some (1267421415, x).
Proof. apply (time_gmtime_mktime 1267421415 0 1); [vm_compute; split; congruence|lia]. Defined.

End Clocks.
