(* ===== verification/Kernel.v ===== *)
(** * The scheduler: [kernel/sched.c], the timeout queue of [kernel/time.c],
      and the task-state parts of [kernel/task.c]

    A task is identified with its task id.  The queues of task descriptors are
    lists of task ids, as [Queue] shows the linked queues to represent; a task
    descriptor is in the queues through two links: its own ([TD_NEXT]), which
    puts it on a ready queue, the timeout queue or a queue of an object, and
    [AUX_QUEUE], which puts it on a second one while it waits with a timeout.
    A ready queue is named by its priority number (the code compares the
    addresses of the ready queue structures, which [_psp_init_readyqs] lays out
    from the lowest priority to the highest), and the queue of an object by the
    address that [INFO] holds.

    The context switch itself is in [dispatch.S]; [dispatch] is its choice of
    the next task.  A function that switches away ends there in the model, and
    what the code does after the switch is a definition of its own, run when
    the task is active again. *)

From stdpp Require Import sorting.
From S2P Require Import Prelude Clocks.

Module Kernel.

Export Clocks.

(** ** Constants *)

(** The bits of a task state that say which queues the task is on. *)
Definition IS_BLOCKED : Z := 1.
Definition IS_ON_TIMEOUT_Q : Z := 256.
Definition TD_IS_ON_QUEUE : Z := 512.
Definition TD_IS_ON_AUX_QUEUE : Z := 1024.
Definition READY : Z := 2.
Definition BLOCKED : Z := Z.lor 2 IS_BLOCKED.
Definition TASK_QUEUE_BLOCKED : Z := Z.lor (Z.lor 40 IS_BLOCKED) TD_IS_ON_QUEUE.
Definition LWSEM_BLOCKED : Z := Z.lor 42 (Z.lor TD_IS_ON_AUX_QUEUE IS_BLOCKED).

Definition MQX_TIME_SLICE_TASK : Z := 4.
Definition TASK_PREEMPTION_DISABLED : Z := 4096.
Definition TASK_PRIORITY_BOOSTED : Z := 32768.
Definition MQX_SCHED_FIFO : Z := 1.
Definition MQX_SCHED_RR : Z := 2.
Definition MQX_TASK_QUEUE_FIFO : Z := 0.
Definition MQX_TASK_QUEUE_BY_PRIORITY : Z := 8.
Definition TASK_QUEUE_VALID : Z := 1953721201.
Definition MQX_NULL_TASK_ID : Z := 0.
Definition MQX_DEFAULT_TASK_ID : Z := 4294967295.
Definition MAX_MQX_UINT : Z := 4294967295.

Definition MQX_CANNOT_CALL_FUNCTION_FROM_ISR : Z := 13.
Definition MQX_TASK_QUEUE_EMPTY : Z := 15.
Definition MQX_INVALID_TASK_STATE : Z := 17.
Definition MQX_INVALID_TASK_ID : Z := 18.
Definition MQX_INVALID_TASK_QUEUE : Z := 30.
Definition MQX_SCHED_INVALID_POLICY : Z := 39.
Definition MQX_SCHED_INVALID_PARAMETER_PTR : Z := 40.
Definition MQX_SCHED_INVALID_TASK_ID : Z := 42.

(** ** State *)

Record td := Td {
  STATE : Z;
  PRIORITY : Z;               (* MY_QUEUE->PRIORITY *)
  HOME_PRIORITY : Z;          (* HOME_QUEUE->PRIORITY *)
  FLAGS : Z;
  BOOSTED : Z;
  INFO : Z;
  TIMEOUT : ticks;
  TIME_SLICE : ticks;
  CURRENT_TIME_SLICE : ticks;
  TASK_ERROR_CODE : Z
}.

(** A task queue; its [TD_QUEUE] is in [QUEUES] under the same key. *)
Record taskq := Taskq { POLICY : Z; VALID : Z }.

Record kernel := Kernel {
  TD : gmap Z td;
  READY_Q_LIST : gmap Z (list Z);      (* priority -> tasks, head first *)
  CURRENT_READY_Q : Z;                 (* a priority *)
  ACTIVE_PTR : Z;
  TIMEOUT_QUEUE : list Z;
  QUEUES : gmap Z (list Z);            (* queues of objects, on the own link *)
  AUX_QUEUES : gmap Z (list Z);        (* queues of objects, on [AUX_QUEUE] *)
  TASKQ : gmap Z taskq;                (* the task queues that are allocated *)
  KERNEL_TASK_QUEUES : list Z;
  IN_ISR : Z;
  PENDSV : bool;                       (* a switch is pending *)
  INTERRUPT_CONTEXT : list Z;          (* error codes, innermost first *)
  LOWEST_TASK_PRIORITY : Z;
  SCHED_POLICY : Z;
  SCHED_TIME_SLICE : ticks;
  CLOCK : clock
}.

Definition set_TD (f : gmap Z td -> gmap Z td) (k : kernel) : kernel :=
  Kernel (f (TD k)) (READY_Q_LIST k) (CURRENT_READY_Q k) (ACTIVE_PTR k) (TIMEOUT_QUEUE k)
    (QUEUES k) (AUX_QUEUES k) (TASKQ k) (KERNEL_TASK_QUEUES k) (IN_ISR k) (PENDSV k)
    (INTERRUPT_CONTEXT k) (LOWEST_TASK_PRIORITY k) (SCHED_POLICY k)
    (SCHED_TIME_SLICE k) (CLOCK k).
Definition set_READY_Q_LIST (f : gmap Z (list Z) -> gmap Z (list Z)) (k : kernel) : kernel :=
  Kernel (TD k) (f (READY_Q_LIST k)) (CURRENT_READY_Q k) (ACTIVE_PTR k) (TIMEOUT_QUEUE k)
    (QUEUES k) (AUX_QUEUES k) (TASKQ k) (KERNEL_TASK_QUEUES k) (IN_ISR k) (PENDSV k)
    (INTERRUPT_CONTEXT k) (LOWEST_TASK_PRIORITY k) (SCHED_POLICY k)
    (SCHED_TIME_SLICE k) (CLOCK k).
Definition set_CURRENT (p : Z) (k : kernel) : kernel :=
  Kernel (TD k) (READY_Q_LIST k) p (ACTIVE_PTR k) (TIMEOUT_QUEUE k) (QUEUES k)
    (AUX_QUEUES k) (TASKQ k) (KERNEL_TASK_QUEUES k) (IN_ISR k) (PENDSV k)
    (INTERRUPT_CONTEXT k) (LOWEST_TASK_PRIORITY k) (SCHED_POLICY k)
    (SCHED_TIME_SLICE k) (CLOCK k).
Definition set_ACTIVE (p t : Z) (k : kernel) : kernel :=
  Kernel (TD k) (READY_Q_LIST k) p t (TIMEOUT_QUEUE k) (QUEUES k) (AUX_QUEUES k) (TASKQ k)
    (KERNEL_TASK_QUEUES k) (IN_ISR k) false (INTERRUPT_CONTEXT k)
    (LOWEST_TASK_PRIORITY k) (SCHED_POLICY k) (SCHED_TIME_SLICE k) (CLOCK k).
Definition set_TIMEOUT_QUEUE (f : list Z -> list Z) (k : kernel) : kernel :=
  Kernel (TD k) (READY_Q_LIST k) (CURRENT_READY_Q k) (ACTIVE_PTR k) (f (TIMEOUT_QUEUE k))
    (QUEUES k) (AUX_QUEUES k) (TASKQ k) (KERNEL_TASK_QUEUES k) (IN_ISR k) (PENDSV k)
    (INTERRUPT_CONTEXT k) (LOWEST_TASK_PRIORITY k) (SCHED_POLICY k)
    (SCHED_TIME_SLICE k) (CLOCK k).
Definition set_QUEUES (f : gmap Z (list Z) -> gmap Z (list Z)) (k : kernel) : kernel :=
  Kernel (TD k) (READY_Q_LIST k) (CURRENT_READY_Q k) (ACTIVE_PTR k) (TIMEOUT_QUEUE k)
    (f (QUEUES k)) (AUX_QUEUES k) (TASKQ k) (KERNEL_TASK_QUEUES k) (IN_ISR k)
    (PENDSV k) (INTERRUPT_CONTEXT k) (LOWEST_TASK_PRIORITY k) (SCHED_POLICY k)
    (SCHED_TIME_SLICE k) (CLOCK k).
Definition set_AUX_QUEUES (f : gmap Z (list Z) -> gmap Z (list Z)) (k : kernel) : kernel :=
  Kernel (TD k) (READY_Q_LIST k) (CURRENT_READY_Q k) (ACTIVE_PTR k) (TIMEOUT_QUEUE k)
    (QUEUES k) (f (AUX_QUEUES k)) (TASKQ k) (KERNEL_TASK_QUEUES k) (IN_ISR k)
    (PENDSV k) (INTERRUPT_CONTEXT k) (LOWEST_TASK_PRIORITY k) (SCHED_POLICY k)
    (SCHED_TIME_SLICE k) (CLOCK k).
Definition set_TASKQ (f : gmap Z taskq -> gmap Z taskq) (k : kernel) : kernel :=
  Kernel (TD k) (READY_Q_LIST k) (CURRENT_READY_Q k) (ACTIVE_PTR k) (TIMEOUT_QUEUE k)
    (QUEUES k) (AUX_QUEUES k) (f (TASKQ k)) (KERNEL_TASK_QUEUES k) (IN_ISR k)
    (PENDSV k) (INTERRUPT_CONTEXT k) (LOWEST_TASK_PRIORITY k) (SCHED_POLICY k)
    (SCHED_TIME_SLICE k) (CLOCK k).
Definition set_TASK_QUEUES (f : list Z -> list Z) (k : kernel) : kernel :=
  Kernel (TD k) (READY_Q_LIST k) (CURRENT_READY_Q k) (ACTIVE_PTR k) (TIMEOUT_QUEUE k)
    (QUEUES k) (AUX_QUEUES k) (TASKQ k) (f (KERNEL_TASK_QUEUES k)) (IN_ISR k)
    (PENDSV k) (INTERRUPT_CONTEXT k) (LOWEST_TASK_PRIORITY k) (SCHED_POLICY k)
    (SCHED_TIME_SLICE k) (CLOCK k).
Definition set_ISR (n : Z) (l : list Z) (k : kernel) : kernel :=
  Kernel (TD k) (READY_Q_LIST k) (CURRENT_READY_Q k) (ACTIVE_PTR k) (TIMEOUT_QUEUE k)
    (QUEUES k) (AUX_QUEUES k) (TASKQ k) (KERNEL_TASK_QUEUES k) n (PENDSV k) l
    (LOWEST_TASK_PRIORITY k) (SCHED_POLICY k) (SCHED_TIME_SLICE k) (CLOCK k).
Definition set_PENDSV (b : bool) (k : kernel) : kernel :=
  Kernel (TD k) (READY_Q_LIST k) (CURRENT_READY_Q k) (ACTIVE_PTR k) (TIMEOUT_QUEUE k)
    (QUEUES k) (AUX_QUEUES k) (TASKQ k) (KERNEL_TASK_QUEUES k) (IN_ISR k) b
    (INTERRUPT_CONTEXT k) (LOWEST_TASK_PRIORITY k) (SCHED_POLICY k)
    (SCHED_TIME_SLICE k) (CLOCK k).
Definition set_POLICY (v : Z) (k : kernel) : kernel :=
  Kernel (TD k) (READY_Q_LIST k) (CURRENT_READY_Q k) (ACTIVE_PTR k) (TIMEOUT_QUEUE k)
    (QUEUES k) (AUX_QUEUES k) (TASKQ k) (KERNEL_TASK_QUEUES k) (IN_ISR k) (PENDSV k)
    (INTERRUPT_CONTEXT k) (LOWEST_TASK_PRIORITY k) v (SCHED_TIME_SLICE k) (CLOCK k).
Definition set_SLICE (v : ticks) (k : kernel) : kernel :=
  Kernel (TD k) (READY_Q_LIST k) (CURRENT_READY_Q k) (ACTIVE_PTR k) (TIMEOUT_QUEUE k)
    (QUEUES k) (AUX_QUEUES k) (TASKQ k) (KERNEL_TASK_QUEUES k) (IN_ISR k) (PENDSV k)
    (INTERRUPT_CONTEXT k) (LOWEST_TASK_PRIORITY k) (SCHED_POLICY k) v (CLOCK k).
Definition set_CLOCK (c : clock) (k : kernel) : kernel :=
  Kernel (TD k) (READY_Q_LIST k) (CURRENT_READY_Q k) (ACTIVE_PTR k) (TIMEOUT_QUEUE k)
    (QUEUES k) (AUX_QUEUES k) (TASKQ k) (KERNEL_TASK_QUEUES k) (IN_ISR k) (PENDSV k)
    (INTERRUPT_CONTEXT k) (LOWEST_TASK_PRIORITY k) (SCHED_POLICY k)
    (SCHED_TIME_SLICE k) c.

Definition with_STATE (v : Z) (d : td) : td :=
  Td v (PRIORITY d) (HOME_PRIORITY d) (FLAGS d) (BOOSTED d) (INFO d) (TIMEOUT d)
     (TIME_SLICE d) (CURRENT_TIME_SLICE d) (TASK_ERROR_CODE d).
Definition with_PRIORITY (v : Z) (d : td) : td :=
  Td (STATE d) v (HOME_PRIORITY d) (FLAGS d) (BOOSTED d) (INFO d) (TIMEOUT d)
     (TIME_SLICE d) (CURRENT_TIME_SLICE d) (TASK_ERROR_CODE d).
Definition with_HOME (v : Z) (d : td) : td :=
  Td (STATE d) (PRIORITY d) v (FLAGS d) (BOOSTED d) (INFO d) (TIMEOUT d) (TIME_SLICE d)
     (CURRENT_TIME_SLICE d) (TASK_ERROR_CODE d).
Definition with_FLAGS (v : Z) (d : td) : td :=
  Td (STATE d) (PRIORITY d) (HOME_PRIORITY d) v (BOOSTED d) (INFO d) (TIMEOUT d)
     (TIME_SLICE d) (CURRENT_TIME_SLICE d) (TASK_ERROR_CODE d).
Definition with_BOOSTED (v : Z) (d : td) : td :=
  Td (STATE d) (PRIORITY d) (HOME_PRIORITY d) (FLAGS d) v (INFO d) (TIMEOUT d)
     (TIME_SLICE d) (CURRENT_TIME_SLICE d) (TASK_ERROR_CODE d).
Definition with_INFO (v : Z) (d : td) : td :=
  Td (STATE d) (PRIORITY d) (HOME_PRIORITY d) (FLAGS d) (BOOSTED d) v (TIMEOUT d)
     (TIME_SLICE d) (CURRENT_TIME_SLICE d) (TASK_ERROR_CODE d).
Definition with_TIMEOUT (v : ticks) (d : td) : td :=
  Td (STATE d) (PRIORITY d) (HOME_PRIORITY d) (FLAGS d) (BOOSTED d) (INFO d) v
     (TIME_SLICE d) (CURRENT_TIME_SLICE d) (TASK_ERROR_CODE d).
Definition with_TIME_SLICE (v : ticks) (d : td) : td :=
  Td (STATE d) (PRIORITY d) (HOME_PRIORITY d) (FLAGS d) (BOOSTED d) (INFO d)
     (TIMEOUT d) v (CURRENT_TIME_SLICE d) (TASK_ERROR_CODE d).
Definition with_CURRENT_SLICE (v : ticks) (d : td) : td :=
  Td (STATE d) (PRIORITY d) (HOME_PRIORITY d) (FLAGS d) (BOOSTED d) (INFO d)
     (TIMEOUT d) (TIME_SLICE d) v (TASK_ERROR_CODE d).
Definition with_ERROR (v : Z) (d : td) : td :=
  Td (STATE d) (PRIORITY d) (HOME_PRIORITY d) (FLAGS d) (BOOSTED d) (INFO d)
     (TIMEOUT d) (TIME_SLICE d) (CURRENT_TIME_SLICE d) v.

Definition get_td (t : Z) : M kernel td := fun k =>
  match TD k !! t with Some d => Some (d, k) | None => None end.
Definition upd_td (t : Z) (f : td -> td) : M kernel unit := fun k =>
  match TD k !! t with
  | Some d => Some (tt, set_TD (<[t:=f d]>) k)
  | None => None
  end.

(** The tasks on a queue of a map of queues. *)
Definition on (m : gmap Z (list Z)) (q : Z) : list Z := default [] (m !! q).
Definition without (t : Z) (l : list Z) : list Z := filter (fun u => u <> t) l.

(** [_QUEUE_UNLINK] on the own link of a task that is on no queue or on a ready
    queue: the only uses the kernel makes of the bare macro. *)
Definition _QUEUE_UNLINK (t : Z) : M kernel unit :=
  modify (set_READY_Q_LIST (fmap (without t))).

Definition queue_enqueue (q t : Z) : M kernel unit :=
  modify (set_QUEUES (fun m => <[q := on m q ++ [t]]> m)).
Definition queue_remove (q t : Z) : M kernel unit :=
  modify (set_QUEUES (fun m => <[q := without t (on m q)]> m)).
Definition aux_enqueue (q t : Z) : M kernel unit :=
  modify (set_AUX_QUEUES (fun m => <[q := on m q ++ [t]]> m)).
Definition aux_remove (q t : Z) : M kernel unit :=
  modify (set_AUX_QUEUES (fun m => <[q := without t (on m q)]> m)).

(** ** Tasks *)

Definition active : M kernel Z := gets ACTIVE_PTR.

(** A task id to the descriptor with that id; [MQX_NULL_TASK_ID] is the active
    task, [None] the null pointer.  The system task, which never runs, is left
    out. *)
Definition _task_get_td (task_id : Z) : M kernel (option Z) :=
  if task_id =? MQX_NULL_TASK_ID then t ← active; mret (Some t)
  else m ← gets TD; mret (match m !! task_id with Some _ => Some task_id | None => None end).

(** The error code of the innermost interrupt context, or of the active task. *)
Definition _task_get_error : M kernel Z :=
  n ← gets IN_ISR;
  if negb (n =? 0) then l ← gets INTERRUPT_CONTEXT; lift_opt (head l)
  else t ← active; d ← get_td t; mret (TASK_ERROR_CODE d).

(** Returns the old code; a code is kept until it is reset to [MQX_OK]. *)
Definition _task_set_error (new_error_code : Z) : M kernel Z :=
  old ← _task_get_error;
  (if (new_error_code =? MQX_OK) || (old =? MQX_OK) then
     n ← gets IN_ISR;
     if negb (n =? 0)
     then modify (fun k => set_ISR (IN_ISR k) (new_error_code :: tail (INTERRUPT_CONTEXT k)) k)
     else t ← active; upd_td t (with_ERROR new_error_code)
   else mret tt);;
  mret old.

(** [_TASK_READY]: the task goes to the tail of the ready queue of its
    priority. *)
Definition _task_ready_internal (t : Z) : M kernel unit :=
  d ← get_td t;
  cur ← gets CURRENT_READY_Q;
  (if PRIORITY d <? cur then modify (set_CURRENT (PRIORITY d)) else mret tt);;
  modify (set_READY_Q_LIST (fun m => <[PRIORITY d := on m (PRIORITY d) ++ [t]]> m));;
  upd_td t (fun d => with_CURRENT_SLICE _mqx_zero_tick_struct (with_STATE READY d)).

Definition _TIME_DEQUEUE (t : Z) : M kernel unit :=
  d ← get_td t;
  if negb (Z.land (STATE d) IS_ON_TIMEOUT_Q =? 0) then
    modify (set_TIMEOUT_QUEUE (without t));;
    upd_td t (fun d => with_STATE (Z.lor (Z.land (STATE d) (Z.lnot IS_ON_TIMEOUT_Q)) BLOCKED) d)
  else mret tt.

(** ** Dispatching ([dispatch.S]) *)

(** [find_noempty_que]: the first ready queue that is not empty, from [p] on;
    [n] queues follow that of [p]. *)
Fixpoint find_noempty_que (n : nat) (m : gmap Z (list Z)) (p : Z) : option (Z * Z) :=
  match on m p with
  | t :: _ => Some (p, t)
  | [] => match n with O => None | S n' => find_noempty_que n' m (p + 1) end
  end.

(** The ready queues are those of the priorities [0] to
    [LOWEST_TASK_PRIORITY + 2]; with none to run the code loops forever. *)
Definition _pend_svc : M kernel unit := fun k =>
  let n := Z.to_nat (LOWEST_TASK_PRIORITY k + 2 - CURRENT_READY_Q k) in
  match find_noempty_que n (READY_Q_LIST k) (CURRENT_READY_Q k) with
  | Some (p, t) => Some (tt, set_ACTIVE p t k)
  | None => None
  end.

(** A software interrupt that makes [_pend_svc] pending: it runs at once in a
    task, and in an interrupt after the last nested one has returned. *)
Definition _sched_execute_scheduler_internal : M kernel unit :=
  n ← gets IN_ISR;
  if n =? 0 then _pend_svc else modify (set_PENDSV true).

Definition _sched_check_scheduler_internal : M kernel unit :=
  n ← gets IN_ISR;
  if negb (n =? 0) then mret tt
  else
    cur ← gets CURRENT_READY_Q;
    t ← active; d ← get_td t;
    if cur =? PRIORITY d then mret tt else _pend_svc.

(** [_task_block]: [svc_task_block] of the handler. *)
Definition _task_block : M kernel unit :=
  t ← active;
  upd_td t (fun d => with_STATE (Z.lor (STATE d) IS_BLOCKED) d);;
  _QUEUE_UNLINK t;;
  n ← gets IN_ISR;
  if n =? 0 then _pend_svc else modify (set_PENDSV true).

(** [_int_kernel_isr] up to the call of the interrupt function, and from
    [_int_kernel_isr_epilog] on. *)
Definition isr_enter : M kernel unit :=
  modify (fun k => set_ISR (w16 (IN_ISR k + 1)) (MQX_OK :: INTERRUPT_CONTEXT k) k).
Definition isr_exit : M kernel unit :=
  modify (fun k => set_ISR (w16 (IN_ISR k - 1)) (tail (INTERRUPT_CONTEXT k)) k);;
  t ← active; d ← get_td t;
  n ← gets IN_ISR;
  (if negb (Z.land (FLAGS d) TASK_PREEMPTION_DISABLED =? 0) then mret tt
   else if negb (n =? 0) then mret tt
   else
     k ← gets id;
     if decide (head (on (READY_Q_LIST k) (CURRENT_READY_Q k)) = Some t) then mret tt
     else modify (set_PENDSV true));;
  pend ← gets PENDSV;
  if (n =? 0) && pend then _pend_svc else mret tt.

(** ** Delays ([time.c]) *)

(** The queue with [t] before the first task that does not time out earlier:
    the default [MQX_DELAY_ENQUEUE_POLICY]. *)
Fixpoint timeout_insert (m : gmap Z td) (t : Z) (d : td) (l : list Z) : option (list Z) :=
  match l with
  | [] => Some [t]
  | t2 :: l' =>
      d2 ← m !! t2;
      if 0 <=? PSP_CMP_TICKS (TIMEOUT d2) (TIMEOUT d) then Some (t :: l)
      else l'' ← timeout_insert m t d l'; Some (t2 :: l'')
  end.

Definition _time_delay_internal (t : Z) : M kernel unit :=
  d ← get_td t;
  k ← gets id;
  l ← lift_opt (timeout_insert (TD k) t d (TIMEOUT_QUEUE k));
  _QUEUE_UNLINK t;;
  modify (set_TIMEOUT_QUEUE (fun _ => l));;
  upd_td t (fun d => with_STATE (Z.lor (STATE d) IS_ON_TIMEOUT_Q) d);;
  _sched_execute_scheduler_internal.

Definition _sched_yield : M kernel unit :=
  t ← active;
  _QUEUE_UNLINK t;;
  _task_ready_internal t;;
  _sched_execute_scheduler_internal.

Definition _time_delay (milliseconds : Z) : M kernel unit :=
  if milliseconds =? 0 then _sched_yield
  else
    t ← active;
    c ← gets CLOCK;
    upd_td t (fun d =>
      let q := _psp_msecs_to_ticks_quick (TICKS_PER_SECOND c) (milliseconds - 1) in
      let q := PSP_ADD_TICKS_TO_TICK_STRUCT q 2 q in
      with_TIMEOUT (_psp_add_ticks (HW_TICKS_PER_TICK c) q (TIME c)) d);;
    _time_delay_internal t.

Definition _time_delay_for (ticks_ptr : option ticks) : M kernel unit :=
  match ticks_ptr with
  | None => _task_set_error MQX_INVALID_PARAMETER;; mret tt
  | Some n =>
      t ← active;
      c ← gets CLOCK;
      upd_td t (with_TIMEOUT (_psp_add_ticks (HW_TICKS_PER_TICK c) n (TIME c)));;
      _time_delay_internal t
  end.

Definition _time_delay_ticks (time_in_ticks : Z) : M kernel unit :=
  if time_in_ticks =? 0 then _sched_yield
  else
    t ← active;
    c ← gets CLOCK;
    upd_td t (fun d =>
      with_TIMEOUT (PSP_ADD_TICKS_TO_TICK_STRUCT (TIME c) time_in_ticks (TIMEOUT d)) d);;
    _time_delay_internal t.

Definition _time_delay_until (ticks_ptr : option ticks) : M kernel unit :=
  match ticks_ptr with
  | None => _task_set_error MQX_INVALID_PARAMETER;; mret tt
  | Some n =>
      t ← active;
      upd_td t (with_TIMEOUT n);;
      _time_delay_internal t
  end.

Definition _time_dequeue (tid : Z) : M kernel unit :=
  td_ptr ← _task_get_td tid;
  match td_ptr with None => mret tt | Some t => _TIME_DEQUEUE t end.
Definition _time_dequeue_td (td_ptr : option Z) : M kernel unit :=
  match td_ptr with None => mret tt | Some t => _TIME_DEQUEUE t end.

(** The loop of [_time_notify_kernel] over the timeout queue: [l] is what the
    loop has still to visit. *)
Fixpoint wake_loop (l : list Z) : M kernel unit :=
  match l with
  | [] => mret tt
  | t :: l' =>
      c ← gets CLOCK;
      d ← get_td t;
      if 0 <=? PSP_CMP_TICKS (TIME c) (TIMEOUT d) then
        modify (set_TIMEOUT_QUEUE (without t));;
        (if negb (Z.land (STATE d) TD_IS_ON_AUX_QUEUE =? 0)
         then aux_remove (INFO d) t else mret tt);;
        _task_ready_internal t;;
        wake_loop l'
      else mret tt
  end.

Definition time_slice_tick : M kernel unit :=
  t ← active; d ← get_td t;
  if negb (Z.land (FLAGS d) MQX_TIME_SLICE_TASK =? 0) then
    upd_td t (fun d => with_CURRENT_SLICE (PSP_INC_TICKS (CURRENT_TIME_SLICE d)) d);;
    d ← get_td t;
    if (Z.land (FLAGS d) TASK_PREEMPTION_DISABLED =? 0) &&
       (0 <=? PSP_CMP_TICKS (CURRENT_TIME_SLICE d) (TIME_SLICE d))
    then _QUEUE_UNLINK t;; _task_ready_internal t
    else mret tt
  else mret tt.

(** [hw] is what the installed [GET_HWTICKS] returns; [timer_isr] and
    [lwtimer_isr] are the functions the timer components have installed. *)
Definition _time_notify_kernel (hw : option Z) (timer_isr lwtimer_isr : option (M kernel unit))
  : M kernel unit :=
  modify (fun k =>
    let c := CLOCK k in
    let now := _psp_normalize_ticks (HW_TICKS_PER_TICK c) (with_hw hw (PSP_INC_TICKS (TIME c))) in
    set_CLOCK (Clock now (TIME_OFFSET c) (TICKS_PER_SECOND c) (HW_TICKS_PER_TICK c)
                     (SYSTEM_CLOCK_INT_NUMBER c)) k);;
  l ← gets TIMEOUT_QUEUE;
  wake_loop l;;
  time_slice_tick;;
  default (mret tt) timer_isr;;
  default (mret tt) lwtimer_isr.

(** ** Scheduling policy ([sched.c]) *)

Definition _sched_get_max_priority (policy : Z) : M kernel Z := mret 0.
Definition _sched_get_min_priority (policy : Z) : M kernel Z := gets LOWEST_TASK_PRIORITY.

Definition policy_of (d : td) : Z :=
  if negb (Z.land (FLAGS d) MQX_TIME_SLICE_TASK =? 0) then MQX_SCHED_RR else MQX_SCHED_FIFO.

Definition _sched_set_policy (task_id policy : Z) : M kernel Z :=
  if negb ((policy =? MQX_SCHED_FIFO) || (policy =? MQX_SCHED_RR))
  then _task_set_error MQX_SCHED_INVALID_POLICY;; mret MAX_MQX_UINT
  else if task_id =? MQX_DEFAULT_TASK_ID then
    old_policy ← gets SCHED_POLICY;
    modify (set_POLICY policy);;
    mret old_policy
  else
    td_ptr ← _task_get_td task_id;
    match td_ptr with
    | None => _task_set_error MQX_SCHED_INVALID_TASK_ID;; mret MAX_MQX_UINT
    | Some t =>
        d ← get_td t;
        upd_td t (fun d => with_FLAGS
          (if policy =? MQX_SCHED_RR then Z.lor (FLAGS d) MQX_TIME_SLICE_TASK
           else Z.land (FLAGS d) (Z.lnot MQX_TIME_SLICE_TASK)) d);;
        mret (policy_of d)
    end.

(** The result and what is stored through [policy_ptr]. *)
Definition _sched_get_policy (task_id : Z) : M kernel (Z * option Z) :=
  if task_id =? MQX_DEFAULT_TASK_ID then p ← gets SCHED_POLICY; mret (MQX_OK, Some p)
  else
    td_ptr ← _task_get_td task_id;
    match td_ptr with
    | None => mret (MQX_SCHED_INVALID_TASK_ID, None)
    | Some t => d ← get_td t; mret (MQX_OK, Some (policy_of d))
    end.

(** [null]: the pointer for the result is NULL. *)
Definition _sched_get_rr_interval_ticks (task_id : Z) (null : bool) : M kernel (Z * option ticks) :=
  if null then _task_set_error MQX_SCHED_INVALID_PARAMETER_PTR;;
               mret (MQX_SCHED_INVALID_PARAMETER_PTR, None)
  else if task_id =? MQX_DEFAULT_TASK_ID
  then s ← gets SCHED_TIME_SLICE; mret (MQX_OK, Some s)
  else
    td_ptr ← _task_get_td task_id;
    match td_ptr with
    | None => _task_set_error MQX_SCHED_INVALID_TASK_ID;; mret (MQX_SCHED_INVALID_TASK_ID, None)
    | Some t => d ← get_td t; mret (MQX_OK, Some (TIME_SLICE d))
    end.

(** A copy of [_sched_get_rr_interval_ticks] in the source too. *)
Definition _sched_get_rr_interval_internal := _sched_get_rr_interval_ticks.

(** The result and [*ms_ptr]. *)
Definition _sched_get_rr_interval (task_id : Z) : M kernel (Z * Z) :=
  r ← _sched_get_rr_interval_ticks task_id false;
  match r with
  | (_, None) => mret (MAX_UINT_32, MAX_UINT_32)
  | (_, Some tick) =>
      c ← gets CLOCK;
      let ts := (_psp_ticks_to_time (TICKS_PER_SECOND c) (HW_TICKS_PER_TICK c) tick).2 in
      if MAX_UINT_32 / 1000 <=? SECONDS ts then mret (MAX_UINT_32, MAX_UINT_32)
      else
        let slice := w32 (SECONDS ts * 1000) in
        if w32 (MAX_UINT_32 - MILLISECONDS ts) <=? slice then mret (MAX_UINT_32, MAX_UINT_32)
        else mret (MQX_OK, w32 (slice + MILLISECONDS ts))
  end.

(** The result and the old interval. *)
Definition _sched_set_rr_interval_internal (task_id : Z) (new_rr : ticks)
  : M kernel (Z * option ticks) :=
  if task_id =? MQX_DEFAULT_TASK_ID then
    old ← gets SCHED_TIME_SLICE;
    modify (set_SLICE new_rr);;
    mret (MQX_OK, Some old)
  else
    td_ptr ← _task_get_td task_id;
    match td_ptr with
    | None => mret (MQX_SCHED_INVALID_TASK_ID, None)
    | Some t =>
        d ← get_td t;
        upd_td t (with_TIME_SLICE new_rr);;
        mret (MQX_OK, Some (TIME_SLICE d))
    end.

Definition _sched_set_rr_interval_ticks (task_id : Z) (new_rr : ticks)
  : M kernel (Z * option ticks) :=
  r ← _sched_set_rr_interval_internal task_id new_rr;
  (if negb (r.1 =? MQX_OK) then _task_set_error r.1;; mret tt else mret tt);;
  mret r.

Definition _sched_set_rr_interval (task_id rr_interval : Z) : M kernel Z :=
  if rr_interval =? 0
  then _task_set_error MQX_SCHED_INVALID_PARAMETER_PTR;; mret MAX_UINT_32
  else
    c ← gets CLOCK;
    let q := _psp_msecs_to_ticks_quick (TICKS_PER_SECOND c) (rr_interval - 1) in
    r ← _sched_set_rr_interval_internal task_id (PSP_ADD_TICKS_TO_TICK_STRUCT q 1 q);
    match r with
    | (_, Some old) =>
        mret (_psp_ticks_to_milliseconds (TICKS_PER_SECOND c) (HW_TICKS_PER_TICK c) old).1
    | (e, None) => _task_set_error e;; mret MAX_UINT_32
    end.

(** ** Priorities *)

Definition _sched_set_priority_internal (t new_priority : Z) : M kernel unit :=
  d ← get_td t;
  upd_td t (with_PRIORITY new_priority);;
  if STATE d =? READY then
    _QUEUE_UNLINK t;;
    _task_ready_internal t;;
    a ← active;
    if (a =? t) && (PRIORITY d <? new_priority) then _sched_execute_scheduler_internal
    else mret tt
  else mret tt.

Definition _sched_boost_priority_internal (t priority : Z) : M kernel unit :=
  upd_td t (fun d => with_BOOSTED (w32 (BOOSTED d + 1))
                       (with_FLAGS (Z.lor (FLAGS d) TASK_PRIORITY_BOOSTED) d));;
  _sched_set_priority_internal t priority;;
  _sched_check_scheduler_internal.

Definition _sched_unboost_priority_internal (t number_of_boosts : Z) : M kernel unit :=
  d ← get_td t;
  if negb (Z.land (FLAGS d) TASK_PRIORITY_BOOSTED =? 0) then
    if number_of_boosts <? BOOSTED d
    then upd_td t (with_BOOSTED (BOOSTED d - number_of_boosts))
    else
      upd_td t (fun d => with_FLAGS (Z.land (FLAGS d) (Z.lnot TASK_PRIORITY_BOOSTED))
                           (with_BOOSTED 0 d));;
      _sched_set_priority_internal t (HOME_PRIORITY d);;
      _sched_check_scheduler_internal
  else mret tt.

(** [l] with [t] before the first task of a lower priority. *)
Fixpoint priorityq_insert (m : gmap Z td) (t priority : Z) (l : list Z) : option (list Z) :=
  match l with
  | [] => Some [t]
  | t2 :: l' =>
      d2 ← m !! t2;
      if priority <? PRIORITY d2 then Some (t :: l)
      else l'' ← priorityq_insert m t priority l'; Some (t2 :: l'')
  end.

Definition _sched_insert_priorityq_internal (q t : Z) : M kernel unit :=
  d ← get_td t;
  k ← gets id;
  l ← lift_opt (priorityq_insert (TD k) t (PRIORITY d) (on (QUEUES k) q));
  modify (set_QUEUES (<[q := l]>)).

Definition _sched_get_max_priority_on_q_internal (q : Z) : M kernel Z :=
  k ← gets id;
  lift_opt (foldl (fun acc t => p ← acc; d ← TD k !! t;
                     Some (if PRIORITY d <? p then PRIORITY d else p))
                  (Some MAX_MQX_UINT) (on (QUEUES k) q)).

(** The result and [*priority_ptr]. *)
Definition _task_get_priority (task_id : Z) : M kernel (Z * option Z) :=
  td_ptr ← _task_get_td task_id;
  match td_ptr with
  | None => mret (MQX_INVALID_TASK_ID, None)
  | Some t => d ← get_td t; mret (MQX_OK, Some (HOME_PRIORITY d))
  end.

Definition _task_set_priority (task_id new_priority : Z) : M kernel (Z * option Z) :=
  low ← gets LOWEST_TASK_PRIORITY;
  if low <? new_priority then mret (MQX_INVALID_PARAMETER, None)
  else
    td_ptr ← _task_get_td task_id;
    match td_ptr with
    | None => mret (MQX_INVALID_TASK_ID, None)
    | Some t =>
        d ← get_td t;
        upd_td t (with_HOME new_priority);;
        (if negb (BOOSTED d =? 0) then
           if new_priority <? PRIORITY d then _sched_set_priority_internal t new_priority
           else mret tt
         else _sched_set_priority_internal t new_priority);;
        d' ← get_td t;
        (if STATE d' =? TASK_QUEUE_BLOCKED then
           qs ← gets TASKQ;
           tq ← lift_opt (qs !! INFO d');
           if negb (Z.land (POLICY tq) MQX_TASK_QUEUE_BY_PRIORITY =? 0) then
             queue_remove (INFO d') t;;
             _sched_insert_priorityq_internal (INFO d') t
           else mret tt
         else mret tt);;
        _sched_check_scheduler_internal;;
        mret (MQX_OK, Some (HOME_PRIORITY d))
    end.

(** ** Readying and preemption ([task.c]) *)

Definition _task_ready (td_ptr : option Z) : M kernel unit :=
  match td_ptr with
  | None => _task_set_error MQX_INVALID_TASK_ID;; mret tt
  | Some t =>
      d ← get_td t;
      if STATE d =? READY then _task_set_error MQX_INVALID_TASK_STATE;; mret tt
      else _task_ready_internal t;; _sched_check_scheduler_internal
  end.

Definition _task_stop_preemption : M kernel unit :=
  t ← active;
  upd_td t (fun d => with_FLAGS (Z.lor (FLAGS d) TASK_PREEMPTION_DISABLED) d).

Definition _task_start_preemption : M kernel unit :=
  t ← active;
  upd_td t (fun d => with_FLAGS (Z.land (FLAGS d) (Z.lnot TASK_PREEMPTION_DISABLED)) d);;
  _sched_check_scheduler_internal.

(** ** Task queues ([taskq.c]) *)

(** [mem] is what [_mem_alloc_system] returns. *)
Definition _taskq_create (policy : Z) (mem : option Z) : M kernel (option Z) :=
  n ← gets IN_ISR;
  if negb ((policy =? MQX_TASK_QUEUE_FIFO) || (policy =? MQX_TASK_QUEUE_BY_PRIORITY))
  then _task_set_error MQX_INVALID_PARAMETER;; mret None
  else if negb (n =? 0) then _task_set_error MQX_CANNOT_CALL_FUNCTION_FROM_ISR;; mret None
  else match mem with
  | None => mret None
  | Some q =>
      modify (set_TASKQ (<[q := Taskq policy TASK_QUEUE_VALID]>));;
      modify (set_QUEUES (<[q := []]>));;
      modify (set_TASK_QUEUES (fun l => l ++ [q]));;
      mret (Some q)
  end.

Definition get_taskq (q : Z) : M kernel taskq := k ← gets id; lift_opt (TASKQ k !! q).

Fixpoint ready_all (l : list Z) (q : Z) : M kernel unit :=
  match l with
  | [] => mret tt
  | t :: l' =>
      modify (set_QUEUES (fun m => <[q := tail (on m q)]> m));;
      _task_ready_internal t;;
      ready_all l' q
  end.

(** [taskq_free] is the [_mem_free] after the call of the scheduler, done when
    the caller runs again. *)
Definition _taskq_destroy (task_queue_ptr : option Z) : M kernel Z :=
  match task_queue_ptr with
  | None => mret MQX_INVALID_PARAMETER
  | Some q =>
      n ← gets IN_ISR;
      if negb (n =? 0) then mret MQX_CANNOT_CALL_FUNCTION_FROM_ISR
      else
        tq ← get_taskq q;
        if negb (VALID tq =? TASK_QUEUE_VALID) then mret MQX_INVALID_TASK_QUEUE
        else
          modify (set_TASKQ (<[q := Taskq (POLICY tq) 0]>));;
          m ← gets QUEUES;
          ready_all (on m q) q;;
          modify (set_TASK_QUEUES (without q));;
          _sched_check_scheduler_internal;;
          mret MQX_OK
  end.
Definition taskq_free (q : Z) : M kernel unit := modify (set_TASKQ (delete q)).

(** What [_taskq_suspend] and [_taskq_suspend_task] have in common. *)
Definition taskq_block (q : Z) (tq : taskq) (t : Z) : M kernel unit :=
  upd_td t (with_STATE TASK_QUEUE_BLOCKED);;
  _QUEUE_UNLINK t;;
  upd_td t (with_INFO q);;
  if negb (Z.land (POLICY tq) MQX_TASK_QUEUE_BY_PRIORITY =? 0)
  then _sched_insert_priorityq_internal q t
  else queue_enqueue q t.

Definition _taskq_suspend (task_queue_ptr : option Z) : M kernel Z :=
  match task_queue_ptr with
  | None => mret MQX_INVALID_PARAMETER
  | Some q =>
      n ← gets IN_ISR;
      if negb (n =? 0) then mret MQX_CANNOT_CALL_FUNCTION_FROM_ISR
      else
        t ← active;
        tq ← get_taskq q;
        if negb (VALID tq =? TASK_QUEUE_VALID) then mret MQX_INVALID_TASK_QUEUE
        else
          taskq_block q tq t;;
          _sched_execute_scheduler_internal;;
          mret MQX_OK
  end.

Definition _taskq_resume (task_queue_ptr : option Z) (all_tasks : bool) : M kernel Z :=
  match task_queue_ptr with
  | None => mret MQX_INVALID_TASK_QUEUE
  | Some q =>
      tq ← get_taskq q;
      if negb (VALID tq =? TASK_QUEUE_VALID) then mret MQX_INVALID_TASK_QUEUE
      else
        m ← gets QUEUES;
        match on m q with
        | [] => mret MQX_TASK_QUEUE_EMPTY
        | t :: l =>
            ready_all (if all_tasks then t :: l else [t]) q;;
            _sched_check_scheduler_internal;;
            mret MQX_OK
        end
  end.

Definition _taskq_suspend_task (task_id : Z) (task_queue_ptr : option Z) : M kernel Z :=
  td_ptr ← _task_get_td task_id;
  a ← active;
  n ← gets IN_ISR;
  match td_ptr, task_queue_ptr with
  | None, _ => mret MQX_INVALID_TASK_ID
  | _, None => mret MQX_INVALID_PARAMETER
  | Some t, Some q =>
      if (t =? a) && negb (n =? 0) then mret MQX_CANNOT_CALL_FUNCTION_FROM_ISR
      else
        tq ← get_taskq q;
        if negb (VALID tq =? TASK_QUEUE_VALID) then mret MQX_INVALID_TASK_QUEUE
        else
          d ← get_td t;
          if negb (STATE d =? READY) then mret MQX_INVALID_TASK_STATE
          else
            taskq_block q tq t;;
            (if (t =? a) && (n =? 0) then _sched_execute_scheduler_internal else mret tt);;
            mret MQX_OK
  end.

Definition _taskq_get_value (task_queue_ptr : option Z) : M kernel Z :=
  match task_queue_ptr with
  | None => _task_set_error MQX_INVALID_PARAMETER;; mret MAX_MQX_UINT
  | Some q =>
      tq ← get_taskq q;
      if negb (VALID tq =? TASK_QUEUE_VALID)
      then _task_set_error MQX_INVALID_TASK_QUEUE;; mret MAX_MQX_UINT
      else m ← gets QUEUES; mret (zlen (on m q))
  end.

(** ** Where a task is

    [place] says on which queues a task is; [place_of] is what its descriptor
    says about that. *)

#[local] Arguments Z.testbit : simpl never.
#[local] Arguments Z.land : simpl never.
#[local] Arguments Z.lor : simpl never.

Record place := Place {
  rdy : option Z;      (* the ready queue, by priority *)
  tmo : bool;          (* the timeout queue *)
  own : option Z;      (* an object's queue, on the own link *)
  aux : option Z       (* an object's queue, on the auxiliary link *)
}.

Definition nowhere : place := Place None false None None.

Definition place_of (d : td) : place :=
  Place (if STATE d =? READY then Some (PRIORITY d) else None)
        (Z.testbit (STATE d) 8)
        (if Z.testbit (STATE d) 9 then Some (INFO d) else None)
        (if Z.testbit (STATE d) 10 then Some (INFO d) else None).

Definition at_place (k : kernel) (t : Z) (L : place) : Prop :=
  (forall p, t ∈ on (READY_Q_LIST k) p <-> rdy L = Some p) /\
  (t ∈ TIMEOUT_QUEUE k <-> tmo L = true) /\
  (forall q, t ∈ on (QUEUES k) q <-> own L = Some q) /\
  (forall q, t ∈ on (AUX_QUEUES k) q <-> aux L = Some q).

Definition home (k : kernel) (t : Z) : Prop :=
  at_place k t (match TD k !! t with Some d => place_of d | None => nowhere end).

(** The tick at which a task times out. *)
Definition tmo_of (m : gmap Z td) (t : Z) : Z :=
  match m !! t with Some d => TICKS (TIMEOUT d) | None => 0 end.

Abbreviation sorted m := (StronglySorted (fun t u => tmo_of m t <= tmo_of m u)).

(** The timeout queue and the queues of objects share the own link, and [INFO]
    names one queue. *)
Definition wf_td (low : Z) (d : td) : Prop :=
  PRIORITY d <= low + 2 /\ HOME_PRIORITY d <= low + 2 /\
  (Z.testbit (STATE d) 9 = true -> Z.testbit (STATE d) 8 = false /\ Z.testbit (STATE d) 10 = false).

Record shape (k : kernel) : Prop := {
  sh_ready : forall p, NoDup (on (READY_Q_LIST k) p);
  sh_own : forall q, NoDup (on (QUEUES k) q);
  sh_aux : forall q, NoDup (on (AUX_QUEUES k) q);
  sh_tmo : NoDup (TIMEOUT_QUEUE k);
  sh_sorted : sorted (TD k) (TIMEOUT_QUEUE k);
  sh_cur : forall p t, t ∈ on (READY_Q_LIST k) p -> CURRENT_READY_Q k <= p;
  sh_td : forall t d, TD k !! t = Some d -> wf_td (LOWEST_TASK_PRIORITY k) d
}.

(** The invariant of the scheduler: every task is on exactly the queues its
    descriptor names, and the queues are as the code keeps them. *)
Definition kinv (k : kernel) : Prop := shape k /\ forall u, home k u.

(** The invariant while an operation moves [t], which is at [L]. *)
Definition limbo (t : Z) (L : place) (k : kernel) : Prop :=
  shape k /\ (forall u, u <> t -> home k u) /\ at_place k t L.

(** ** Lemmas on queues *)

Lemma on_insert m q l p : on (<[q:=l]> m) p = if decide (q = p) then l else on m p.
Proof.
  unfold on. case_decide; [subst; by rewrite lookup_insert, decide_True|by rewrite lookup_insert_ne].
Qed.

Lemma on_fmap (f : list Z -> list Z) m p : f [] = [] -> on (f <$> m) p = f (on m p).
Proof. intros Hf. unfold on. rewrite lookup_fmap. by destruct (m !! p). Qed.

Lemma elem_of_without t u l : u ∈ without t l <-> u <> t /\ u ∈ l.
Proof. unfold without. by rewrite list_elem_of_filter. Qed.

Lemma NoDup_without t l : NoDup l -> NoDup (without t l).
Proof. apply NoDup_filter. Qed.

Lemma without_none t l : t ∉ l -> without t l = l.
Proof.
  unfold without. induction l as [|u l IH]; [done|]. intros Ht. rewrite filter_cons.
  rewrite decide_True by (intros ->; set_solver). f_equal. apply IH. set_solver.
Qed.

Lemma without_cons t l : t ∉ l -> without t (t :: l) = l.
Proof.
  intros H. unfold without. rewrite filter_cons, decide_False by tauto. by apply without_none.
Qed.

Lemma sorted_without m t l : sorted m l -> sorted m (without t l).
Proof.
  unfold without. induction 1 as [|u l Hs IH Hu]; [constructor|]. rewrite filter_cons.
  case_decide; [|done]. constructor; [done|].
  apply Forall_forall. intros v Hv. apply list_elem_of_filter in Hv as [_ Hv].
  by eapply Forall_forall in Hu.
Qed.

Lemma tmo_of_insert m t d u : tmo_of (<[t:=d]> m) u = if decide (t = u) then TICKS (TIMEOUT d) else tmo_of m u.
Proof.
  unfold tmo_of. case_decide; [subst; by rewrite lookup_insert, decide_True|by rewrite lookup_insert_ne].
Qed.

Lemma sorted_ext m m' l : (forall t, t ∈ l -> tmo_of m t = tmo_of m' t) -> sorted m l -> sorted m' l.
Proof.
  intros He. induction 1 as [|u l Hs IH Hu]; constructor.
  - apply IH. set_solver.
  - apply Forall_forall. intros v Hv. rewrite <-!He by set_solver.
    by eapply Forall_forall in Hu.
Qed.

(** ** Moving a task *)

Lemma kinv_limbo t k : kinv k ->
  limbo t (match TD k !! t with Some d => place_of d | None => nowhere end) k.
Proof. intros [H1 H2]. split; [done|split; [by intros|apply H2]]. Qed.

Lemma limbo_kinv t k :
  limbo t (match TD k !! t with Some d => place_of d | None => nowhere end) k -> kinv k.
Proof.
  intros (H1 & H2 & H3). split; [done|]. intros u. destruct (decide (u = t)) as [->|]; [done|by apply H2].
Qed.

(** Changing other fields of the kernel data. *)
Definition same_queues (k k' : kernel) : Prop :=
  TD k' = TD k /\ READY_Q_LIST k' = READY_Q_LIST k /\ TIMEOUT_QUEUE k' = TIMEOUT_QUEUE k /\
  QUEUES k' = QUEUES k /\ AUX_QUEUES k' = AUX_QUEUES k /\
  LOWEST_TASK_PRIORITY k' = LOWEST_TASK_PRIORITY k.

Lemma limbo_same t L k k' :
  same_queues k k' ->
  (CURRENT_READY_Q k' <= CURRENT_READY_Q k \/
   forall p u, u ∈ on (READY_Q_LIST k) p -> CURRENT_READY_Q k' <= p) ->
  limbo t L k -> limbo t L k'.
Proof.
  intros (E1 & E2 & E3 & E4 & E5 & E6) Hc ([] & H2 & H3).
  split; [|split].
  - split; rewrite ?E1, ?E2, ?E3, ?E4, ?E5, ?E6; try done.
    intros p u Hu. destruct Hc as [Hc|Hc]; [|by eapply Hc].
    pose proof (sh_cur0 p u Hu). lia.
  - unfold home, at_place. rewrite ?E1, ?E2, ?E3, ?E4, ?E5. done.
  - unfold at_place. by rewrite ?E2, ?E3, ?E4, ?E5.
Qed.

(** A new descriptor for the task that moves. *)
Lemma limbo_td t L k d d' :
  limbo t L k -> TD k !! t = Some d ->
  (tmo L = false \/ TIMEOUT d' = TIMEOUT d) ->
  wf_td (LOWEST_TASK_PRIORITY k) d' ->
  limbo t L (set_TD (<[t:=d']>) k).
Proof.
  intros ([] & H2 & (P1 & P2 & P3 & P4)) Hd Ht Hp. split; [split; cbn; try done|split].
  - eapply sorted_ext; [|done]. intros u Hu. rewrite tmo_of_insert. case_decide; [subst u|done].
    destruct Ht as [Ht| ->]; [apply P2 in Hu; congruence|]. unfold tmo_of. by rewrite Hd.
  - intros u e. destruct (decide (t = u)) as [->|].
    + rewrite lookup_insert, decide_True by done. by intros [= <-].
    + rewrite lookup_insert_ne by done. apply sh_td0.
  - intros u Hu. specialize (H2 u Hu). unfold home, at_place in *. cbn.
    by rewrite lookup_insert_ne by done.
  - done.
Qed.

(** The bare unlinking of a task on a ready queue. *)
Lemma limbo_unlink t L k :
  limbo t L k ->
  limbo t (Place None (tmo L) (own L) (aux L)) (set_READY_Q_LIST (fmap (without t)) k).
Proof.
  intros ([] & H2 & (P1 & P2 & P3 & P4)).
  assert (forall p, on (without t <$> READY_Q_LIST k) p = without t (on (READY_Q_LIST k) p)) as E
    by (intros p; by apply on_fmap).
  split; [split; cbn; try done|split].
  - intros p. rewrite E. by apply NoDup_without.
  - intros p u. rewrite E, elem_of_without. intros [_ Hu]. by eapply sh_cur0.
  - intros u Hu. specialize (H2 u Hu). unfold home, at_place in *. cbn.
    destruct H2 as (Q1 & Q2 & Q3 & Q4). split_and!; try done.
    intros p. rewrite E, elem_of_without, <-Q1. tauto.
  - split_and!; try done. cbn. intros p. rewrite E, elem_of_without. cbn. split; [tauto|done].
Qed.

(** The queue [q] of a map of queues replaced by [l], which differs from it in
    [t] only. *)
Definition only_t (t : Z) (l l0 : list Z) : Prop := forall u, u <> t -> u ∈ l <-> u ∈ l0.

Lemma only_t_snoc t l : only_t t (l ++ [t]) l.
Proof. intros u Hu. set_solver. Qed.
Lemma only_t_without t l : only_t t (without t l) l.
Proof. intros u Hu. rewrite elem_of_without. tauto. Qed.

Lemma queue_frame t q l m u p : u <> t -> only_t t l (on m q) ->
  (u ∈ on (<[q:=l]> m) p <-> u ∈ on m p).
Proof. intros Hu Hl. rewrite on_insert. case_decide; [subst; by apply Hl|done]. Qed.

Lemma queue_here t q l m (o : option Z) p :
  (forall p, t ∈ on m p <-> o = Some p) -> o = None \/ o = Some q ->
  (t ∈ on (<[q:=l]> m) p <-> (if decide (t ∈ l) then Some q else None) = Some p).
Proof.
  intros Ho Hq. rewrite on_insert. case_decide as Hp; case_decide as Ht; subst.
  - tauto.
  - split; [done|congruence].
  - rewrite Ho. split; [|congruence]. destruct Hq as [->| ->]; congruence.
  - rewrite Ho. split; [|done]. destruct Hq as [->| ->]; congruence.
Qed.

Lemma limbo_own t L k q l :
  limbo t L k -> NoDup l -> only_t t l (on (QUEUES k) q) -> own L = None \/ own L = Some q ->
  limbo t (Place (rdy L) (tmo L) (if decide (t ∈ l) then Some q else None) (aux L))
        (set_QUEUES (<[q:=l]>) k).
Proof.
  intros ([] & H2 & (P1 & P2 & P3 & P4)) Hl Hu Hq. split; [split; cbn; try done|split].
  - intros p. rewrite on_insert. by case_decide.
  - intros u Hut. destruct (H2 u Hut) as (Q1 & Q2 & Q3 & Q4). split_and!; try done.
    intros p. cbn. rewrite (queue_frame t) by done. apply Q3.
  - split_and!; try done. intros p. cbn. by apply (queue_here t q l _ (own L)).
Qed.

Lemma limbo_aux t L k q l :
  limbo t L k -> NoDup l -> only_t t l (on (AUX_QUEUES k) q) -> aux L = None \/ aux L = Some q ->
  limbo t (Place (rdy L) (tmo L) (own L) (if decide (t ∈ l) then Some q else None))
        (set_AUX_QUEUES (<[q:=l]>) k).
Proof.
  intros ([] & H2 & (P1 & P2 & P3 & P4)) Hl Hu Hq. split; [split; cbn; try done|split].
  - intros p. rewrite on_insert. by case_decide.
  - intros u Hut. destruct (H2 u Hut) as (Q1 & Q2 & Q3 & Q4). split_and!; try done.
    intros p. cbn. rewrite (queue_frame t) by done. apply Q4.
  - split_and!; try done. intros p. cbn. by apply (queue_here t q l _ (aux L)).
Qed.

Lemma limbo_tmo t L k l :
  limbo t L k -> NoDup l -> only_t t l (TIMEOUT_QUEUE k) -> sorted (TD k) l ->
  limbo t (Place (rdy L) (bool_decide (t ∈ l)) (own L) (aux L)) (set_TIMEOUT_QUEUE (fun _ => l) k).
Proof.
  intros ([] & H2 & (P1 & P2 & P3 & P4)) Hl Hu Hs. split; [split; cbn; try done|split].
  - intros u Hut. destruct (H2 u Hut) as (Q1 & Q2 & Q3 & Q4). split_and!; try done.
    cbn. rewrite (Hu u) by done. apply Q2.
  - split_and!; try done. cbn. by rewrite bool_decide_eq_true.
Qed.

(** The pure function [_task_ready_internal] computes. *)
Definition ready_k (t : Z) (d : td) (k : kernel) : kernel :=
  let k := set_CURRENT (Z.min (PRIORITY d) (CURRENT_READY_Q k)) k in
  let k := set_READY_Q_LIST (fun m => <[PRIORITY d := on m (PRIORITY d) ++ [t]]> m) k in
  set_TD (<[t := with_CURRENT_SLICE _mqx_zero_tick_struct (with_STATE READY d)]>) k.

Lemma get_td_run t d k : TD k !! t = Some d -> get_td t k = Some (d, k).
Proof. intros H. unfold get_td. by rewrite H. Qed.
Lemma upd_td_run t f d k : TD k !! t = Some d -> upd_td t f k = Some (tt, set_TD (<[t:=f d]>) k).
Proof. intros H. unfold upd_td. by rewrite H. Qed.

Lemma set_CURRENT_same k : set_CURRENT (CURRENT_READY_Q k) k = k.
Proof. by destruct k. Qed.

Lemma task_ready_run t d k :
  TD k !! t = Some d -> _task_ready_internal t k = Some (tt, ready_k t d k).
Proof.
  intros H. unfold _task_ready_internal, ready_k.
  rewrite (bind_run _ _ _ _ _ (get_td_run t d k H)).
  unfold gets, modify. unfold mbind, M_bind. cbn.
  case_if; [rewrite Z.min_l by lia|rewrite Z.min_r, ?set_CURRENT_same by lia];
    cbn; by erewrite upd_td_run by done.
Qed.

Lemma limbo_ready t L k d :
  limbo t L k -> TD k !! t = Some d -> L = nowhere -> kinv (ready_k t d k).
Proof.
  intros ([] & H2 & (P1 & P2 & P3 & P4)) Hd ->. cbn in *.
  apply (limbo_kinv t). cbn. rewrite lookup_insert, decide_True by done. cbn.
  split; [split; cbn; try done|split].
  - intros p. rewrite on_insert. case_decide; [|done]. subst p.
    apply NoDup_app. split_and!; [done| |by apply NoDup_singleton].
    intros u Hu ->%list_elem_of_singleton. by apply P1 in Hu.
  - eapply sorted_ext; [|done]. intros u Hu. rewrite tmo_of_insert. case_decide; [|done].
    subst u. unfold tmo_of. by rewrite Hd.
  - intros p u. rewrite on_insert. case_decide; [subst; lia|].
    intros Hu. specialize (sh_cur0 _ _ Hu). lia.
  - intros u e. destruct (decide (t = u)) as [->|].
    + rewrite lookup_insert, decide_True by done. intros [= <-]. apply sh_td0 in Hd as (W1 & W2 & W3). by split_and!.
    + rewrite lookup_insert_ne by done. apply sh_td0.
  - intros u Hu. specialize (H2 u Hu). unfold home, at_place in *. cbn.
    rewrite lookup_insert_ne by done. destruct H2 as (Q1 & Q2 & Q3 & Q4). split_and!; try done.
    intros p. rewrite <-Q1. rewrite on_insert. case_decide; [subst|done]. set_solver.
  - split_and!; cbn; try done. intros p. rewrite on_insert. case_decide.
    + subst. set_solver.
    + rewrite P1. split; congruence.
Qed.

(** ** Dispatching *)

Lemma find_some n m p p' t : find_noempty_que n m p = Some (p', t) ->
  p <= p' /\ head (on m p') = Some t /\ forall r, p <= r < p' -> on m r = [].
Proof.
  revert p. induction n as [|n IH]; intros p; cbn [find_noempty_que]; destruct (on m p) as [|u l] eqn:E;
    try (intros [= <- <-]; split_and!; [lia|by rewrite E|lia]); [done|].
  intros (H1 & H2 & H3)%IH. split_and!; [lia|done|]. intros r Hr.
  destruct (decide (r = p)) as [->|]; [done|]. apply H3. lia.
Qed.

Lemma find_total n m p r : on m r <> [] -> p <= r <= p + Z.of_nat n ->
  exists x, find_noempty_que n m p = Some x.
Proof.
  revert p. induction n as [|n IH]; intros p Hr Hp; cbn [find_noempty_que];
    destruct (on m p) as [|u l] eqn:E; try (by eexists).
  - assert (r = p) as -> by lia. done.
  - apply IH; [done|]. assert (r <> p) by congruence. lia.
Qed.

Definition is_ready (k : kernel) (t : Z) : Prop :=
  exists d, TD k !! t = Some d /\ STATE d = READY.

(** [t] is ready, and no ready task has a higher priority. *)
Definition highest (k : kernel) (t : Z) : Prop :=
  exists d, TD k !! t = Some d /\ STATE d = READY /\
    forall u e, TD k !! u = Some e -> STATE e = READY -> PRIORITY d <= PRIORITY e.

Lemma home_td k t d : home k t -> TD k !! t = Some d -> at_place k t (place_of d).
Proof. unfold home. intros H E. by rewrite E in H. Qed.

Lemma home_in k t : home k t ->
  (exists p, t ∈ on (READY_Q_LIST k) p) \/ t ∈ TIMEOUT_QUEUE k \/
  (exists q, t ∈ on (QUEUES k) q) \/ (exists q, t ∈ on (AUX_QUEUES k) q) ->
  exists d, TD k !! t = Some d.
Proof.
  unfold home. destruct (TD k !! t) as [d|]; [by eauto|].
  intros (P1 & P2 & P3 & P4) [[p H%P1]|[H%P2|[[q H%P3]|[q H%P4]]]]; done.
Qed.

Lemma in_ready k p t : kinv k ->
  t ∈ on (READY_Q_LIST k) p <-> exists d, TD k !! t = Some d /\ STATE d = READY /\ PRIORITY d = p.
Proof.
  intros [_ H]. specialize (H t). split.
  - intros Hi. destruct (home_in k t H) as [d Hd]; [by eauto|]. exists d. split; [done|].
    apply (home_td _ _ _ H Hd) in Hi. cbn in Hi.
    destruct (STATE d =? READY) eqn:E; [|done]. zreflect. by simplify_eq.
  - intros (d & Hd & Hs & Hp). apply (home_td _ _ _ H Hd). cbn. rewrite Hs. cbn. congruence.
Qed.

Lemma in_timeout k t : kinv k ->
  t ∈ TIMEOUT_QUEUE k <-> exists d, TD k !! t = Some d /\ Z.testbit (STATE d) 8 = true.
Proof.
  intros [_ H]. specialize (H t). split.
  - intros Hi. destruct (home_in k t H) as [d Hd]; [by eauto|]. exists d. split; [done|].
    by apply (home_td _ _ _ H Hd) in Hi.
  - intros (d & Hd & Hs). by apply (home_td _ _ _ H Hd).
Qed.

Lemma in_aux k q t : kinv k ->
  t ∈ on (AUX_QUEUES k) q <->
  exists d, TD k !! t = Some d /\ Z.testbit (STATE d) 10 = true /\ INFO d = q.
Proof.
  intros [_ H]. specialize (H t). split.
  - intros Hi. destruct (home_in k t H) as [d Hd]; [by eauto 6|]. exists d. split; [done|].
    apply (home_td _ _ _ H Hd) in Hi. cbn in Hi.
    destruct (Z.testbit (STATE d) 10) eqn:E; [|done]. zreflect. by simplify_eq.
  - intros (d & Hd & Hs & Hp). apply (home_td _ _ _ H Hd). cbn. rewrite Hs. congruence.
Qed.

Lemma in_own k q t : kinv k ->
  t ∈ on (QUEUES k) q <->
  exists d, TD k !! t = Some d /\ Z.testbit (STATE d) 9 = true /\ INFO d = q.
Proof.
  intros [_ H]. specialize (H t). split.
  - intros Hi. destruct (home_in k t H) as [d Hd]; [by eauto 6|]. exists d. split; [done|].
    apply (home_td _ _ _ H Hd) in Hi. cbn in Hi.
    destruct (Z.testbit (STATE d) 9) eqn:E; [|done]. zreflect. by simplify_eq.
  - intros (d & Hd & Hs & Hp). apply (home_td _ _ _ H Hd). cbn. rewrite Hs. congruence.
Qed.

Lemma kinv_same k k' : same_queues k k' ->
  (CURRENT_READY_Q k' <= CURRENT_READY_Q k \/
   forall p u, u ∈ on (READY_Q_LIST k) p -> CURRENT_READY_Q k' <= p) ->
  kinv k -> kinv k'.
Proof.
  intros Hs Hc Hk. apply (limbo_kinv 0). destruct Hs as (E & Hs).
  rewrite E. eapply limbo_same; [by split|done|]. by apply kinv_limbo.
Qed.

(** The state in which the scheduler leaves a task running: the first task of
    the first ready queue that is not empty. *)
Record dispatched (k : kernel) : Prop := {
  dp_head : head (on (READY_Q_LIST k) (CURRENT_READY_Q k)) = Some (ACTIVE_PTR k);
  dp_first : forall p, p < CURRENT_READY_Q k -> on (READY_Q_LIST k) p = []
}.

Lemma pend_svc_run k i : kinv k -> is_ready k i ->
  exists p t, _pend_svc k = Some (tt, set_ACTIVE p t k) /\
    kinv (set_ACTIVE p t k) /\ dispatched (set_ACTIVE p t k).
Proof.
  intros Hk (d & Hd & Hs).
  assert (i ∈ on (READY_Q_LIST k) (PRIORITY d)) as Hi by (apply in_ready; eauto).
  pose proof (sh_cur _ (proj1 Hk) _ _ Hi) as Hc.
  pose proof (proj1 (sh_td _ (proj1 Hk) _ _ Hd)) as Hp.
  destruct (find_total (Z.to_nat (LOWEST_TASK_PRIORITY k + 2 - CURRENT_READY_Q k))
              (READY_Q_LIST k) (CURRENT_READY_Q k) (PRIORITY d)) as [[p t] E];
    [by intros E; rewrite E in Hi; apply elem_of_nil in Hi|lia|].
  exists p, t. unfold _pend_svc. rewrite E. split; [done|].
  apply find_some in E as (E1 & E2 & E3).
  assert (forall r, r < p -> on (READY_Q_LIST k) r = []) as Hlow.
  { intros r Hr. destruct (decide (CURRENT_READY_Q k <= r)); [apply E3; lia|].
    destruct (on (READY_Q_LIST k) r) as [|u l] eqn:Er; [done|]. exfalso.
    assert (u ∈ on (READY_Q_LIST k) r) as Hu by (rewrite Er; set_solver).
    apply (sh_cur _ (proj1 Hk)) in Hu. lia. }
  split.
  - apply (kinv_same k); [by split_and!| |exact Hk]. right. cbn. intros r u Hu.
    destruct (decide (r < p)) as [Hr|]; [|lia]. rewrite Hlow in Hu by done. by apply elem_of_nil in Hu.
  - by split.
Qed.

Lemma dispatched_td k : kinv k -> dispatched k ->
  exists d, TD k !! ACTIVE_PTR k = Some d /\ STATE d = READY /\ PRIORITY d = CURRENT_READY_Q k.
Proof.
  intros Hk []. apply in_ready; [done|]. by apply head_Some_elem_of.
Qed.

(** [CURRENT_READY_Q] is that of the running task: no ready task is better. *)
Lemma current_highest k d : kinv k -> TD k !! ACTIVE_PTR k = Some d -> STATE d = READY ->
  PRIORITY d = CURRENT_READY_Q k -> highest k (ACTIVE_PTR k).
Proof.
  intros Hk Hd Hs Hp. exists d. split_and!; [done..|]. intros u e Hu He. rewrite Hp.
  apply (sh_cur _ (proj1 Hk) _ u), in_ready; eauto.
Qed.

(** ** The timeout queue *)

Lemma cmp_ticks_ge a b : (0 <=? PSP_CMP_TICKS a b) = true <-> TICKS b <= TICKS a.
Proof.
  unfold PSP_CMP_TICKS. destruct (Z.ltb_spec (TICKS b) (TICKS a)); [cbn; lia|].
  destruct (Z.ltb_spec (TICKS a) (TICKS b)); cbn; lia.
Qed.

Lemma timeout_insert_spec m t d l :
  (forall u, u ∈ l -> is_Some (m !! u)) -> sorted m l ->
  exists l1 l2, timeout_insert m t d l = Some (l1 ++ t :: l2) /\ l = l1 ++ l2 /\
    (forall u, u ∈ l1 -> tmo_of m u < TICKS (TIMEOUT d)) /\
    (forall u, u ∈ l2 -> TICKS (TIMEOUT d) <= tmo_of m u).
Proof.
  intros Hm Hs. revert Hm. induction Hs as [|u l Hs IH Hu]; intros Hm.
  { exists [], []. split_and!; [done..|by intros u ?%elem_of_nil|by intros u ?%elem_of_nil]. }
  destruct (Hm u) as [e He]; [set_solver|]. cbn. rewrite He. cbn.
  assert (tmo_of m u = TICKS (TIMEOUT e)) as Eu by (unfold tmo_of; by rewrite He).
  destruct (0 <=? PSP_CMP_TICKS (TIMEOUT e) (TIMEOUT d)) eqn:E.
  - apply cmp_ticks_ge in E. exists [], (u :: l).
    split_and!; [done..|by intros v ?%elem_of_nil|].
    intros v [->|Hv]%elem_of_cons; [lia|].
    eapply Forall_forall in Hu; [|done]. cbn in Hu. lia.
  - assert (TICKS (TIMEOUT e) < TICKS (TIMEOUT d)) as E'.
    { destruct (Z.ltb_spec (TICKS (TIMEOUT e)) (TICKS (TIMEOUT d))); [done|].
      apply cmp_ticks_ge in H. congruence. }
    destruct IH as (l1 & l2 & H1 & -> & H2 & H3); [intros v Hv; apply Hm; set_solver|].
    rewrite H1. cbn. exists (u :: l1), l2. split_and!; [done..| |done].
    intros v [->|Hv]%elem_of_cons; [lia|by apply H2].
Qed.

Lemma sorted_middle m t l1 l2 : sorted m (l1 ++ l2) ->
  (forall u, u ∈ l1 -> tmo_of m u <= tmo_of m t) ->
  (forall u, u ∈ l2 -> tmo_of m t <= tmo_of m u) -> sorted m (l1 ++ t :: l2).
Proof.
  induction l1 as [|v l1 IH]; cbn; intros Hs H1 H2.
  - constructor; [done|]. by apply Forall_forall.
  - apply StronglySorted_inv in Hs as [Hs Hv]. constructor.
    + apply IH; [done| |done]. intros u Hu. apply H1. set_solver.
    + rewrite Forall_app in Hv |- *. destruct Hv as [Hv1 Hv2]. split; [done|].
      constructor; [|done]. apply H1. set_solver.
Qed.

(** The kernel with [t] off the ready queues and on the timeout queue [l]. *)
Definition delay_k (t : Z) (d : td) (l : list Z) (k : kernel) : kernel :=
  set_TD (<[t := with_STATE (Z.lor (STATE d) IS_ON_TIMEOUT_Q) d]>)
    (set_TIMEOUT_QUEUE (fun _ => l) (set_READY_Q_LIST (fmap (without t)) k)).

Lemma limbo_delay t L k d :
  limbo t L k -> tmo L = false -> TD k !! t = Some d -> Z.testbit (STATE d) 9 = false ->
  exists l1 l2, TIMEOUT_QUEUE k = l1 ++ l2 /\
    (forall u, u ∈ l1 -> tmo_of (TD k) u < TICKS (TIMEOUT d)) /\
    (forall u, u ∈ l2 -> TICKS (TIMEOUT d) <= tmo_of (TD k) u) /\
    limbo t (Place None true (own L) (aux L)) (delay_k t d (l1 ++ t :: l2) k) /\
    _time_delay_internal t k = _sched_execute_scheduler_internal (delay_k t d (l1 ++ t :: l2) k).
Proof.
  intros Hl Ht Hd H9. pose proof Hl as (Hsh & Hu & Hp).
  assert (t ∉ TIMEOUT_QUEUE k) as Hn.
  { intros Hi. apply Hp in Hi. congruence. }
  destruct (timeout_insert_spec (TD k) t d (TIMEOUT_QUEUE k)) as (l1 & l2 & E & El & H1 & H2);
    [|by apply (sh_sorted _ Hsh)|].
  { intros u Hi. destruct (decide (u = t)) as [->|Hut]; [done|].
    destruct (home_in k u (Hu u Hut)) as [e He]; [by eauto|done]. }
  exists l1, l2. split_and!; [done..| |].
  - apply limbo_unlink in Hl.
    eapply limbo_tmo with (l := l1 ++ t :: l2) in Hl.
    + cbn in Hl. rewrite bool_decide_true in Hl by set_solver.
      eapply limbo_td in Hl; [exact Hl|done|by right|].
      destruct (sh_td _ Hsh _ _ Hd) as (W1 & W2 & W3). split_and!; [done..|]. cbn.
      by rewrite Z.lor_spec, H9.
    + cbn. pose proof (sh_tmo _ Hsh) as Hnd. rewrite El in Hnd, Hn.
      apply NoDup_app in Hnd as (N1 & N2 & N3). apply NoDup_app. split_and!; [done| |].
      * set_solver.
      * apply NoDup_cons. set_solver.
    + intros u Hut. cbn. rewrite El. set_solver.
    + pose proof (sh_sorted _ Hsh) as Hso. rewrite El in Hso.
      assert (tmo_of (TD k) t = TICKS (TIMEOUT d)) as Et by (unfold tmo_of; by rewrite Hd).
      apply sorted_middle; [done|..]; cbn; intros u Hi; rewrite Et;
        [specialize (H1 u Hi)|specialize (H2 u Hi)]; lia.
  - unfold _time_delay_internal. rewrite (bind_run _ _ _ _ _ (get_td_run t d k Hd)).
    unfold mbind, M_bind, gets, lift_opt, modify. cbn. rewrite E. cbn.
    by erewrite upd_td_run by done.
Qed.

(** ** The whole scheduler

    [pre] is what holds while a kernel function runs, up to its call of the
    scheduler; [sys] is what holds between kernel functions. *)

Definition preemptible (d : td) : Prop := Z.land (FLAGS d) TASK_PREEMPTION_DISABLED = 0.

Record pre (idle : Z) (k : kernel) : Prop := {
  pre_inv : kinv k;
  pre_idle : is_ready k idle;
  pre_ctx : zlen (INTERRUPT_CONTEXT k) = IN_ISR k;
  pre_range : IN_ISR k < 65536;
  pre_pend : IN_ISR k = 0 -> PENDSV k = false
}.

Record sys (idle : Z) (k : kernel) : Prop := {
  sys_pre : pre idle k;
  sys_run : is_ready k (ACTIVE_PTR k);
  sys_cur : forall d, IN_ISR k = 0 -> TD k !! ACTIVE_PTR k = Some d -> preemptible d ->
    PRIORITY d = CURRENT_READY_Q k
}.

Lemma sys_highest idle k d : sys idle k -> IN_ISR k = 0 ->
  TD k !! ACTIVE_PTR k = Some d -> preemptible d -> highest k (ACTIVE_PTR k).
Proof.
  intros [Hp (e & He & Hs) Hc] Hi Hd Hf. simplify_eq.
  eapply current_highest; [by apply Hp|done..|by apply Hc].
Qed.

(** A switch leaves the tasks and the queues as they are. *)
Definition switched (k k' : kernel) : Prop := k' = k \/ k' = set_PENDSV true k \/
  exists p t, k' = set_ACTIVE p t k /\ dispatched k'.

Lemma pre_switch idle k p t : pre idle k -> kinv (set_ACTIVE p t k) ->
  dispatched (set_ACTIVE p t k) -> sys idle (set_ACTIVE p t k).
Proof.
  intros [] Hk Hd. destruct (dispatched_td _ Hk Hd) as (d & H1 & H2 & H3).
  split; [by split| |].
  - by exists d.
  - intros e _ He _. cbn in *. by simplify_eq.
Qed.

Lemma pend_svc_sys idle k : pre idle k ->
  exists p t, _pend_svc k = Some (tt, set_ACTIVE p t k) /\ sys idle (set_ACTIVE p t k) /\
    dispatched (set_ACTIVE p t k).
Proof.
  intros H. destruct (pend_svc_run k idle) as (p & t & E & Hk & Hd); [apply H..|].
  exists p, t. split_and!; [done|by apply pre_switch|done].
Qed.

(** In a task the scheduler runs at once. *)
Lemma exec_task idle k : pre idle k -> IN_ISR k = 0 ->
  exists k', _sched_execute_scheduler_internal k = Some (tt, k') /\ sys idle k' /\
    dispatched k' /\ switched k k'.
Proof.
  intros H Hi. destruct (pend_svc_sys idle k H) as (p & t & E & Hs & Hd).
  exists (set_ACTIVE p t k). unfold _sched_execute_scheduler_internal, mbind, M_bind, gets.
  rewrite Hi. cbn. split_and!; [done..|]. right. right. eauto.
Qed.

(** In an interrupt it is left pending. *)
Lemma exec_isr idle k : pre idle k -> IN_ISR k <> 0 -> is_ready k (ACTIVE_PTR k) ->
  _sched_execute_scheduler_internal k = Some (tt, set_PENDSV true k) /\
  sys idle (set_PENDSV true k).
Proof.
  intros [] Hi Hr. unfold _sched_execute_scheduler_internal, mbind, M_bind, gets.
  rewrite (proj2 (Z.eqb_neq _ _) Hi). split; [done|]. split; [split; cbn; try done..|done|done].
  by apply (kinv_same k); [by split_and!|left; cbn; lia|].
Qed.

Lemma exec_sys idle k : pre idle k -> is_ready k (ACTIVE_PTR k) ->
  exists k', _sched_execute_scheduler_internal k = Some (tt, k') /\ sys idle k' /\ switched k k'.
Proof.
  intros H Hr. destruct (decide (IN_ISR k = 0)) as [Hi|Hi].
  - destruct (exec_task idle k H Hi) as (k' & E & Hs & _ & Hw). eauto.
  - destruct (exec_isr idle k H Hi Hr) as [E Hs]. eexists. split_and!; [done..|].
    right. by left.
Qed.

Lemma check_sys idle k : pre idle k -> is_ready k (ACTIVE_PTR k) ->
  exists k', _sched_check_scheduler_internal k = Some (tt, k') /\ sys idle k' /\ switched k k'.
Proof.
  intros H (d0 & Hd & Hs). unfold _sched_check_scheduler_internal, mbind, M_bind, gets, active, gets.
  destruct (Z.eqb_spec (IN_ISR k) 0) as [Hi|Hi]; cbn.
  - rewrite (get_td_run _ _ _ Hd). destruct (Z.eqb_spec (CURRENT_READY_Q k) (PRIORITY d0)).
    + exists k. split_and!; [done| |by left]. split; [done|by exists d0|].
      intros e' _ He' _. by simplify_eq.
    + destruct (pend_svc_sys idle k H) as (p & t & E & Hy & Hw).
      exists (set_ACTIVE p t k). split_and!; [done..|]. right. right. eauto.
  - exists k. split_and!; [done| |by left]. split; [done|by exists d0|done].
Qed.

(** What an operation that changes descriptors and queues has to show. *)
Lemma pre_intro idle k k' : pre idle k -> kinv k' -> is_ready k' idle ->
  IN_ISR k' = IN_ISR k -> INTERRUPT_CONTEXT k' = INTERRUPT_CONTEXT k -> PENDSV k' = PENDSV k ->
  pre idle k'.
Proof. intros [] Hk Hi E1 E2 E3. split; rewrite ?E1, ?E2, ?E3; done. Qed.

(** ** Delays *)

Lemma is_ready_insert k k' t d u : TD k' = <[t:=d]> (TD k) -> u <> t ->
  is_ready k u -> is_ready k' u.
Proof. intros E Hu (e & He & Hs). exists e. by rewrite E, lookup_insert_ne. Qed.

(** A task that is not on the timeout queue goes there; if it calls from a
    task, the scheduler then picks the next one. *)
Lemma delay_sys idle t L k d :
  limbo t L k -> tmo L = false -> TD k !! t = Some d -> Z.testbit (STATE d) 9 = false ->
  place_of (with_STATE (Z.lor (STATE d) IS_ON_TIMEOUT_Q) d) = Place None true (own L) (aux L) ->
  is_ready k idle -> t <> idle -> IN_ISR k = 0 -> INTERRUPT_CONTEXT k = [] -> PENDSV k = false ->
  exists l1 l2 k', TIMEOUT_QUEUE k = l1 ++ l2 /\
    (forall u, u ∈ l1 -> tmo_of (TD k) u < TICKS (TIMEOUT d)) /\
    (forall u, u ∈ l2 -> TICKS (TIMEOUT d) <= tmo_of (TD k) u) /\
    _time_delay_internal t k = Some (tt, k') /\
    sys idle k' /\ dispatched k' /\ switched (delay_k t d (l1 ++ t :: l2) k) k'.
Proof.
  intros Hl Ht Hd H9 Hpl Hid Hne Hi Hx Hp.
  destruct (limbo_delay t L k d Hl Ht Hd H9) as (l1 & l2 & E1 & H1 & H2 & Hl' & E).
  set (k1 := delay_k t d (l1 ++ t :: l2) k) in *.
  assert (pre idle k1) as Hpre.
  { split; cbn; try done; [|by eapply is_ready_insert|rewrite Hi, Hx; done|lia].
    apply (limbo_kinv t). cbn. by rewrite lookup_insert, decide_True, Hpl by done. }
  destruct (exec_task idle k1 Hpre Hi) as (k' & E' & Hs & Hdp & Hw).
  exists l1, l2, k'. split_and!; [done|done|done|by rewrite E|done|done|done].
Qed.

(** ** The clock tick *)

Lemma land_pow2_eqb x n : 0 <= n -> (Z.land x (2 ^ n) =? 0) = negb (Z.testbit x n).
Proof.
  intros Hn. destruct (Z.testbit x n) eqn:E; cbn.
  - apply Z.eqb_neq. intros H. assert (Z.testbit (Z.land x (2 ^ n)) n = true) as Hb
      by (by rewrite Z.land_spec, E, Z.pow2_bits_true).
    by rewrite H, Z.bits_0 in Hb.
  - apply Z.eqb_eq, Z.bits_inj'. intros m Hm. rewrite Z.land_spec, Z.bits_0.
    rewrite Z.pow2_bits_eqb by done. destruct (Z.eqb_spec n m); [subst; by rewrite E|].
    apply andb_false_r.
Qed.

Lemma on_timeout_bit x : negb (Z.land x IS_ON_TIMEOUT_Q =? 0) = Z.testbit x 8.
Proof. pose proof (land_pow2_eqb x 8 ltac:(lia)) as E. change (2 ^ 8) with 256 in E. unfold IS_ON_TIMEOUT_Q, TD_IS_ON_AUX_QUEUE. rewrite E. apply negb_involutive. Qed.
Lemma on_aux_bit x : negb (Z.land x TD_IS_ON_AUX_QUEUE =? 0) = Z.testbit x 10.
Proof. pose proof (land_pow2_eqb x 10 ltac:(lia)) as E. change (2 ^ 10) with 1024 in E. unfold IS_ON_TIMEOUT_Q, TD_IS_ON_AUX_QUEUE. rewrite E. apply negb_involutive. Qed.

Definition readied (d : td) : td := with_CURRENT_SLICE _mqx_zero_tick_struct (with_STATE READY d).

(** The task waits with a timeout that is over at [now]. *)
Definition due (now : ticks) (d : td) : bool :=
  Z.testbit (STATE d) 8 && (TICKS (TIMEOUT d) <=? TICKS now).

(** What the tick does to a descriptor. *)
Definition wake (now : ticks) (d : td) : td := if due now d then readied d else d.

(** The fields no scheduling operation changes. *)
Definition same_control (k k' : kernel) : Prop :=
  ACTIVE_PTR k' = ACTIVE_PTR k /\ IN_ISR k' = IN_ISR k /\ PENDSV k' = PENDSV k /\
  INTERRUPT_CONTEXT k' = INTERRUPT_CONTEXT k /\ CLOCK k' = CLOCK k /\
  LOWEST_TASK_PRIORITY k' = LOWEST_TASK_PRIORITY k /\ TASKQ k' = TASKQ k.

#[export] Instance same_control_preorder : PreOrder same_control.
Proof.
  split; [by intros k; repeat split|]. unfold same_control. intros k1 k2 k3 H1 H2.
  destruct_and!. repeat split; congruence.
Qed.

Lemma wake_place k t d : kinv k -> TD k !! t = Some d -> Z.testbit (STATE d) 8 = true ->
  limbo t (Place None true None (if Z.testbit (STATE d) 10 then Some (INFO d) else None)) k.
Proof.
  intros Hk Hd H8. pose proof (kinv_limbo t k Hk) as Hl. rewrite Hd in Hl.
  destruct (sh_td _ (proj1 Hk) _ _ Hd) as (_ & _ & W). unfold place_of in Hl.
  rewrite H8 in Hl, W.
  destruct (Z.testbit (STATE d) 9); [by destruct W|].
  destruct (STATE d =? READY) eqn:E; [|done]. zreflect. rewrite E in H8. discriminate.
Qed.

(** One turn of the loop. *)
Lemma wake_one k t l d : kinv k -> TIMEOUT_QUEUE k = t :: l -> TD k !! t = Some d ->
  (0 <=? PSP_CMP_TICKS (TIME (CLOCK k)) (TIMEOUT d)) = true ->
  exists k', wake_loop (t :: l) k = wake_loop l k' /\ kinv k' /\ TIMEOUT_QUEUE k' = l /\
    TD k' = <[t := readied d]> (TD k) /\ same_control k k'.
Proof.
  intros Hk Hq Hd Hdue.
  assert (Z.testbit (STATE d) 8 = true) as H8.
  { assert (t ∈ TIMEOUT_QUEUE k) as Hi by (rewrite Hq; set_solver).
    apply in_timeout in Hi as (e & He & Hb); [|done]. congruence. }
  pose proof (wake_place k t d Hk Hd H8) as Hl.
  pose proof (sh_tmo _ (proj1 Hk)) as Hnd. rewrite Hq in Hnd. apply NoDup_cons in Hnd as [Htl Hnd].
  assert (without t (TIMEOUT_QUEUE k) = l) as Ew by (rewrite Hq; by apply without_cons).
  eapply limbo_tmo with (l := without t (TIMEOUT_QUEUE k)) in Hl;
    [|by rewrite Ew|by apply only_t_without|by apply sorted_without, (sh_sorted _ (proj1 Hk))].
  cbn in Hl. rewrite bool_decide_false in Hl by (rewrite elem_of_without; tauto).
  set (k1 := set_TIMEOUT_QUEUE _ k) in Hl.
  set (k2 := if Z.testbit (STATE d) 10
             then set_AUX_QUEUES (<[INFO d := without t (on (AUX_QUEUES k1) (INFO d))]>) k1 else k1).
  assert (limbo t nowhere k2) as Hl2.
  { unfold k2. destruct (Z.testbit (STATE d) 10); [|done].
    eapply limbo_aux with (l := without t (on (AUX_QUEUES k1) (INFO d))) in Hl;
      [|by apply NoDup_without, (sh_aux _ (proj1 Hl))|by apply only_t_without|by right].
    rewrite decide_False in Hl by (rewrite elem_of_without; tauto). done. }
  assert (TD k2 = TD k /\ TIMEOUT_QUEUE k2 = l /\ same_control k k2) as (E1 & E2 & E3).
  { unfold k2. destruct (Z.testbit (STATE d) 10); cbn; by repeat split. }
  exists (ready_k t d k2). split_and!.
  - cbn [wake_loop]. unfold mbind, M_bind, gets, modify. rewrite (get_td_run t d k Hd), Hdue, on_aux_bit.
    assert (_task_ready_internal t k2 = Some (tt, ready_k t d k2)) as Hr
      by (apply task_ready_run; by rewrite E1).
    transitivity ((_task_ready_internal t ≫= fun _ => wake_loop l) k2);
      [unfold k2; by destruct (Z.testbit (STATE d) 10)|].
    unfold mbind, M_bind. by rewrite Hr.
  - eapply limbo_ready; [done|by rewrite E1|done].
  - done.
  - cbn. by rewrite E1.
  - etrans; [done|]. by repeat split.
Qed.

Lemma sorted_head_all (m : gmap Z td) t l u : sorted m (t :: l) -> u ∈ t :: l -> tmo_of m t <= tmo_of m u.
Proof.
  intros [_ H]%StronglySorted_inv [->|Hu]%elem_of_cons; [lia|]. by eapply Forall_forall in H.
Qed.

Lemma readied_not_due now d : due now (readied d) = false.
Proof. done. Qed.

Lemma wake_idem now d : wake now (readied d) = readied d.
Proof. done. Qed.

(** The whole loop: exactly the tasks that are due are readied. *)
Lemma wake_loop_run l k : kinv k -> TIMEOUT_QUEUE k = l ->
  exists k', wake_loop l k = Some (tt, k') /\ kinv k' /\ TD k' = wake (TIME (CLOCK k)) <$> TD k /\
    same_control k k'.
Proof.
  revert k. induction l as [|t l IH]; intros k Hk Hq.
  - exists k. split_and!; [done..| |done]. apply map_eq. intros u. rewrite lookup_fmap.
    destruct (TD k !! u) as [d|] eqn:E; [|done]. cbn. f_equal. unfold wake, due.
    destruct (Z.testbit (STATE d) 8) eqn:E8; [|done]. exfalso.
    assert (u ∈ TIMEOUT_QUEUE k) as Hi by (apply in_timeout; eauto). rewrite Hq in Hi.
    by apply elem_of_nil in Hi.
  - assert (t ∈ TIMEOUT_QUEUE k) as Hi by (rewrite Hq; set_solver).
    apply in_timeout in Hi as (d & Hd & H8); [|done].
    destruct (0 <=? PSP_CMP_TICKS (TIME (CLOCK k)) (TIMEOUT d)) eqn:Hdue.
    + destruct (wake_one k t l d Hk Hq Hd Hdue) as (k1 & E & Hk1 & Hq1 & Ht1 & Hc).
      destruct (IH k1 Hk1 Hq1) as (k' & E' & Hk' & Ht' & Hc').
      exists k'. rewrite E. split_and!; [done..| |by etrans].
      rewrite Ht', Ht1, fmap_insert, wake_idem.
      replace (TIME (CLOCK k1)) with (TIME (CLOCK k)) by (by destruct Hc as (_&_&_&_&->&_)).
      apply map_eq. intros u. rewrite lookup_insert, lookup_fmap. case_decide; [|done].
      subst u. rewrite Hd. cbn. unfold wake, due. apply cmp_ticks_ge in Hdue.
      by rewrite H8, (proj2 (Z.leb_le _ _) Hdue).
    + exists k. split_and!; [|done| |done].
      * cbn [wake_loop]. unfold mbind, M_bind, gets. by rewrite (get_td_run t d k Hd), Hdue.
      * apply map_eq. intros u. rewrite lookup_fmap.
        destruct (TD k !! u) as [e|] eqn:E; [|done]. cbn. f_equal. unfold wake, due.
        destruct (Z.testbit (STATE e) 8) eqn:E8; [|done].
        assert (u ∈ t :: l) as Hu by (rewrite <-Hq; apply in_timeout; eauto).
        pose proof (sh_sorted _ (proj1 Hk)) as Hs. rewrite Hq in Hs.
        apply (sorted_head_all _ _ _ u) in Hs; [|done]. unfold tmo_of in Hs. rewrite Hd, E in Hs.
        destruct (Z.leb_spec (TICKS (TIMEOUT e)) (TICKS (TIME (CLOCK k)))) as [Hle|]; [|done].
        assert ((0 <=? PSP_CMP_TICKS (TIME (CLOCK k)) (TIMEOUT d)) = true) by (apply cmp_ticks_ge; lia).
        congruence.
Qed.

(** ** Ready tasks: yielding, time slices, priorities *)

Lemma place_ready d : STATE d = READY -> place_of d = Place (Some (PRIORITY d)) false None None.
Proof. intros H. unfold place_of. by rewrite H. Qed.

Lemma unlink_ready t d k : kinv k -> TD k !! t = Some d -> STATE d = READY ->
  limbo t nowhere (set_READY_Q_LIST (fmap (without t)) k).
Proof.
  intros Hk Hd Hs. pose proof (kinv_limbo t k Hk) as Hl. rewrite Hd, place_ready in Hl by done.
  by apply limbo_unlink in Hl.
Qed.

(** The kernel after [_QUEUE_UNLINK] and [_TASK_READY] of a ready task. *)
Definition requeue_k (t : Z) (d : td) (k : kernel) : kernel :=
  ready_k t d (set_READY_Q_LIST (fmap (without t)) k).

Lemma requeue_run t d k : kinv k -> TD k !! t = Some d -> STATE d = READY ->
  (_QUEUE_UNLINK t;; _task_ready_internal t) k = Some (tt, requeue_k t d k) /\
  kinv (requeue_k t d k) /\ same_control k (requeue_k t d k).
Proof.
  intros Hk Hd Hs. split_and!; [| |by repeat split].
  - unfold mbind, M_bind, _QUEUE_UNLINK, modify. by rewrite (task_ready_run t d).
  - eapply limbo_ready; [by eapply unlink_ready|done|done].
Qed.

Lemma requeue_td t d k u : is_ready k u -> TD k !! t = Some d -> is_ready (requeue_k t d k) u.
Proof.
  intros (e & He & Hs) Hd. unfold is_ready. cbn. rewrite lookup_insert.
  case_decide; [subst; by eexists|]. eauto.
Qed.

Lemma on_requeue t d k : kinv k -> TD k !! t = Some d -> STATE d = READY ->
  on (READY_Q_LIST (requeue_k t d k)) (PRIORITY d) =
  without t (on (READY_Q_LIST k) (PRIORITY d)) ++ [t].
Proof. intros Hk Hd Hs. cbn. rewrite on_insert, decide_True, on_fmap by done. done. Qed.

Lemma on_requeue_ne t d k p : kinv k -> TD k !! t = Some d -> STATE d = READY ->
  p <> PRIORITY d -> on (READY_Q_LIST (requeue_k t d k)) p = on (READY_Q_LIST k) p.
Proof.
  intros Hk Hd Hs Hp. cbn. rewrite on_insert, decide_False, on_fmap by done.
  apply without_none. intros Hi. apply in_ready in Hi as (e & He & _ & Hpe); [|done]. congruence.
Qed.

Lemma pre_ctl idle k k' : pre idle k -> kinv k' -> is_ready k' idle -> same_control k k' ->
  pre idle k'.
Proof. intros Hp Hk Hi (E1 & E2 & E3 & E4 & _). by eapply pre_intro. Qed.

Lemma bind_assoc_tt {A B C} (m : M kernel A) (f : A -> M kernel B) (h : M kernel C) :
  forall k, (m ≫= (fun a => f a;; h)) k = ((m ≫= f);; h) k.
Proof. intros k. unfold mbind, M_bind. by destruct (m k) as [[a s]|]. Qed.

Lemma yield_sys idle k : sys idle k ->
  exists d k', TD k !! ACTIVE_PTR k = Some d /\
    _sched_yield k = Some (tt, k') /\ sys idle k' /\
    switched (requeue_k (ACTIVE_PTR k) d k) k'.
Proof.
  intros [Hp (d & Hd & Hs) _].
  destruct (requeue_run _ d k (pre_inv _ _ Hp) Hd Hs) as (E & Hk & Hc).
  set (k1 := requeue_k _ d k) in *.
  assert (pre idle k1) as Hp1.
  { eapply pre_ctl; [done..| |done]. apply requeue_td; [apply Hp|done]. }
  destruct (exec_sys idle k1 Hp1) as (k' & E' & Hs' & Hw).
  { apply requeue_td; [by exists d|done]. }
  exists d, k'. split_and!; [done| |done|done]. unfold _sched_yield, active.
  rewrite (bind_run _ _ _ _ _ (eq_refl : gets ACTIVE_PTR k = Some (ACTIVE_PTR k, k))).
  rewrite bind_assoc_tt, (bind_run _ _ _ _ _ E). done.
Qed.

Lemma kinv_td t k d d' : kinv k -> TD k !! t = Some d -> place_of d' = place_of d ->
  TIMEOUT d' = TIMEOUT d -> wf_td (LOWEST_TASK_PRIORITY k) d' ->
  kinv (set_TD (<[t:=d']>) k).
Proof.
  intros Hk Hd Hp Ht Hw. apply (limbo_kinv t). cbn. rewrite lookup_insert, decide_True, Hp by done.
  eapply limbo_td; [|done|by right|done]. pose proof (kinv_limbo t k Hk) as Hl. by rewrite Hd in Hl.
Qed.

(** Operations on a descriptor that leave its place alone. *)
Definition same_place (d d' : td) : Prop :=
  STATE d' = STATE d /\ PRIORITY d' = PRIORITY d /\ HOME_PRIORITY d' = HOME_PRIORITY d /\
  INFO d' = INFO d /\ TIMEOUT d' = TIMEOUT d.

Lemma kinv_upd t k d d' : kinv k -> TD k !! t = Some d -> same_place d d' ->
  kinv (set_TD (<[t:=d']>) k).
Proof.
  intros Hk Hd (E1 & E2 & E3 & E4 & E5). eapply kinv_td; [done..| |done|].
  - unfold place_of. by rewrite E1, E2, E4.
  - destruct (sh_td _ (proj1 Hk) _ _ Hd) as (W1 & W2 & W3). unfold wf_td. by rewrite E1, E2, E3.
Qed.

Lemma upd_ready t d d' k u : TD k !! t = Some d -> STATE d' = STATE d ->
  is_ready k u -> is_ready (set_TD (<[t:=d']>) k) u.
Proof.
  intros Hd Es (e & He & Hs). unfold is_ready. cbn. rewrite lookup_insert.
  case_decide; [subst; exists d'; split; [done|congruence]|eauto].
Qed.

Lemma time_slice_run idle k : pre idle k -> is_ready k (ACTIVE_PTR k) ->
  exists k', time_slice_tick k = Some (tt, k') /\ pre idle k' /\ is_ready k' (ACTIVE_PTR k') /\
    same_control k k' /\
    (exists d d', TD k !! ACTIVE_PTR k = Some d /\ TD k' !! ACTIVE_PTR k = Some d' /\
       STATE d' = STATE d /\ INFO d' = INFO d) /\
    (forall u, u <> ACTIVE_PTR k -> TD k' !! u = TD k !! u).
Proof.
  intros Hp (d & Hd & Hs). unfold time_slice_tick, active, mbind, M_bind, gets.
  rewrite (get_td_run _ _ _ Hd). destruct (negb (Z.land (FLAGS d) MQX_TIME_SLICE_TASK =? 0)).
  2:{ exists k. split_and!; [done|done|by exists d|by repeat split|by exists d, d|done]. }
  erewrite upd_td_run by done.
  set (d1 := with_CURRENT_SLICE _ d). set (k1 := set_TD _ k).
  assert (TD k1 !! ACTIVE_PTR k = Some d1) as Hd1 by (cbn; by rewrite lookup_insert, decide_True).
  rewrite (get_td_run _ _ _ Hd1).
  assert (kinv k1) as Hk1 by (eapply kinv_upd; [apply Hp|done|by repeat split]).
  assert (pre idle k1) as Hp1.
  { eapply pre_ctl; [done..| |by repeat split]. eapply upd_ready; [done|done|apply Hp]. }
  destruct ((Z.land (FLAGS d1) TASK_PREEMPTION_DISABLED =? 0) && _).
  - destruct (requeue_run _ d1 k1 Hk1 Hd1 Hs) as (E & Hk2 & Hc).
    unfold mbind, M_bind in E. rewrite E. eexists. split_and!; [done| | | | |].
    + eapply pre_ctl; [done..| |done]. apply requeue_td; [apply Hp1|done].
    + apply requeue_td; [by exists d1|done].
    + etrans; [|done]. by repeat split.
    + exists d, (readied d1). cbn. rewrite lookup_insert, decide_True by done. by rewrite Hs.
    + intros u Hu. cbn. rewrite !lookup_insert_ne by done. done.
  - exists k1. split_and!; [done|done|by exists d1|by repeat split|by exists d, d1|].
    intros u Hu. cbn. by rewrite lookup_insert_ne.
Qed.

(** ** Interrupts *)

Lemma isr_enter_sys idle k : sys idle k -> IN_ISR k < 65535 ->
  exists k', isr_enter k = Some (tt, k') /\ sys idle k' /\ IN_ISR k' = IN_ISR k + 1 /\
    TD k' = TD k /\ ACTIVE_PTR k' = ACTIVE_PTR k.
Proof.
  intros [[Hk Hi Hx Hr Hp] Hrun Hcur] Hn. eexists. split; [done|]. cbn.
  assert (w16 (IN_ISR k + 1) = IN_ISR k + 1) as E by (apply wrap_small; lia).
  rewrite E. split_and!; [|done..].
  split; [split; cbn; try done; try lia|done|cbn; intros; lia].
  apply (kinv_same k); [by split_and!|left; cbn; lia|done].
Qed.

Lemma isr_exit_sys idle k : sys idle k -> 0 < IN_ISR k ->
  exists k', isr_exit k = Some (tt, k') /\ sys idle k' /\ IN_ISR k' = IN_ISR k - 1 /\
    TD k' = TD k /\ switched (set_ISR (IN_ISR k - 1) (tail (INTERRUPT_CONTEXT k)) k) k'.
Proof.
  intros [[Hk Hi Hx Hr Hp] (d & Hd & Hs) Hcur] Hn.
  assert (w16 (IN_ISR k - 1) = IN_ISR k - 1) as E by (apply wrap_small; lia).
  set (k1 := set_ISR (IN_ISR k - 1) (tail (INTERRUPT_CONTEXT k)) k).
  assert (kinv k1) as Hk1 by (apply (kinv_same k); [by split_and!|left; cbn; lia|done]).
  assert (zlen (INTERRUPT_CONTEXT k1) = IN_ISR k1) as Hx1.
  { cbn. destruct (INTERRUPT_CONTEXT k) as [|e l]; cbn in *; lia. }
  assert (forall b, (IN_ISR k1 = 0 -> b = false) -> pre idle (set_PENDSV b k1)) as Hpre.
  { intros b Hb. split; cbn; try done; [|lia].
    apply (kinv_same k1); [by split_and!|left; cbn; lia|done]. }
  assert (PENDSV k = false \/ IN_ISR k - 1 <> 0 -> pre idle k1) as Hpre1
    by (intros Hor; split; cbn; try done; [lia|intros; destruct Hor; [done|lia]]).
  unfold isr_exit, active, mbind, M_bind, gets, modify. cbn. rewrite E. fold k1.
  assert (get_td (ACTIVE_PTR k) k1 = Some (d, k1)) as Hg by (by apply get_td_run).
  rewrite Hg. cbn. clear Hg. destruct (Z.eqb_spec (IN_ISR k - 1) 0) as [E0|E0]; cbn.
  - (* the outermost interrupt *)
    set (k2 := set_PENDSV false k1).
    assert (pre idle k2) as Hp2 by (by apply Hpre).
    destruct (pend_svc_sys idle k2 Hp2) as (p & t & Ep & Hs2 & Hd2).
    assert (_pend_svc k1 = Some (tt, set_ACTIVE p t k1)) as Ep1.
    { clear - Ep. unfold _pend_svc in *. cbn in *.
      destruct (find_noempty_que _ _ _) as [[p' t']|]; [|done]. by simplify_eq/=. }
    assert (_pend_svc (set_PENDSV true k1) = Some (tt, set_ACTIVE p t k1)) as Ep2.
    { clear - Ep. unfold _pend_svc in *. cbn in *.
      destruct (find_noempty_que _ _ _) as [[p' t']|]; [|done]. by simplify_eq/=. }
    assert (sys idle k1 -> exists k', Some (tt, k1) = Some (tt, k') /\ sys idle k' /\
              IN_ISR k' = IN_ISR k - 1 /\ TD k' = TD k /\ switched k1 k') as Hstay.
    { intros Hy. exists k1. split_and!; [done|done|done|done|by left]. }
    assert (exists k', Some (tt, set_ACTIVE p t k1) = Some (tt, k') /\ sys idle k' /\
              IN_ISR k' = IN_ISR k - 1 /\ TD k' = TD k /\ switched k1 k') as Hgo.
    { eexists. split_and!; [done|done|done|done|]. right. right. eauto. }
    destruct (negb (Z.land (FLAGS d) TASK_PREEMPTION_DISABLED =? 0)) eqn:Ef; cbn.
    + destruct (PENDSV k) eqn:Epend; cbn; [by rewrite Ep1|]. apply Hstay. split.
      * apply Hpre1. by left.
      * by exists d.
      * intros e _ He Hf. cbn in He. simplify_eq. unfold preemptible in Hf. by rewrite Hf in Ef.
    + case_decide as Eh; cbn; [|by rewrite Ep2].
      destruct (PENDSV k) eqn:Epend; cbn; [by rewrite Ep1|]. apply Hstay. split.
      * apply Hpre1. by left.
      * by exists d.
      * intros e _ He _. cbn in He, Eh |- *. simplify_eq.
        apply head_Some_elem_of, in_ready in Eh as (e & He & _ & Hpe); [|done]. cbn in *. congruence.
  - (* a nested one *)
    destruct (negb (Z.land (FLAGS d) TASK_PREEMPTION_DISABLED =? 0)) eqn:Ef; cbn;
      (exists k1; split_and!; [done| |done|done|by left]; split; [apply Hpre1; by right|by exists d|done]).
Qed.

Lemma sys_td idle k t d d' : sys idle k -> TD k !! t = Some d -> same_place d d' ->
  (t = ACTIVE_PTR k -> preemptible d' -> preemptible d) -> sys idle (set_TD (<[t:=d']>) k).
Proof.
  intros [Hp Hr Hc] Hd Hsp Hf. split.
  - eapply pre_ctl; [done| | |by repeat split]; [by eapply kinv_upd; [apply Hp|done|done]|].
    eapply upd_ready; [done|apply Hsp|apply Hp].
  - eapply upd_ready; [done|apply Hsp|done].
  - intros e Hi He Hpe. cbn in *. rewrite lookup_insert in He. case_decide.
    + subst t. simplify_eq. destruct Hsp as (_ & -> & _). apply Hc; [done|done|]. by apply Hf.
    + by apply Hc.
Qed.

(** ** The tick *)

Definition tick_clock (hw : option Z) (k : kernel) : ticks :=
  _psp_normalize_ticks (HW_TICKS_PER_TICK (CLOCK k)) (with_hw hw (PSP_INC_TICKS (TIME (CLOCK k)))).

Lemma tick_run idle hw k : sys idle k -> 0 < IN_ISR k ->
  exists k1, (forall ti lw, _time_notify_kernel hw ti lw k =
                (default (mret tt) ti;; default (mret tt) lw) k1) /\
    sys idle k1 /\ ACTIVE_PTR k1 = ACTIVE_PTR k /\ IN_ISR k1 = IN_ISR k /\
    TIME (CLOCK k1) = tick_clock hw k /\
    (exists d d', TD k !! ACTIVE_PTR k = Some d /\ TD k1 !! ACTIVE_PTR k = Some d' /\
       STATE d' = STATE d /\ INFO d' = INFO d) /\
    forall u, u <> ACTIVE_PTR k -> TD k1 !! u = wake (tick_clock hw k) <$> TD k !! u.
Proof.
  intros [Hp (d & Hd & Hs) Hc] Hn.
  set (c := CLOCK k). set (now := tick_clock hw k).
  set (k0 := set_CLOCK (Clock now (TIME_OFFSET c) (TICKS_PER_SECOND c) (HW_TICKS_PER_TICK c)
                              (SYSTEM_CLOCK_INT_NUMBER c)) k).
  assert (kinv k0) as Hk0 by (apply (kinv_same k); [by split_and!|left; cbn; lia|apply Hp]).
  destruct (wake_loop_run _ k0 Hk0 eq_refl) as (k2 & E2 & Hk2 & Ht2 & Hc2).
  assert (forall u, is_ready k u -> is_ready k2 u) as Hrd.
  { intros u (e & He & Hse). exists e. rewrite Ht2, lookup_fmap. cbn. rewrite He. cbn.
    split; [|done]. f_equal. unfold wake, due. by rewrite Hse. }
  assert (pre idle k2) as Hp2.
  { destruct Hc2 as (E3 & E4 & E5 & E6 & _).
    eapply pre_intro; [exact Hp|done|apply Hrd, Hp|done|done|done]. }
  destruct (time_slice_run idle k2 Hp2) as (k3 & E3 & Hp3 & Hr3 & Hc3 & (e2 & e3 & Ha2 & Ha3 & Hsa & Hia) & Hf3).
  { destruct Hc2 as (-> & _). cbn. apply Hrd. by exists d. }
  assert (ACTIVE_PTR k3 = ACTIVE_PTR k /\ IN_ISR k3 = IN_ISR k /\ TIME (CLOCK k3) = now) as (F1&F2&F3).
  { destruct Hc2 as (A1&A2&_&_&A3&_), Hc3 as (B1&B2&_&_&B3&_). rewrite B1, B2, B3, A1, A2, A3. done. }
  exists k3. split_and!; [|split; [done|done|lia]|done|done|done| |].
  - intros ti lw.
    transitivity ((wake_loop (TIMEOUT_QUEUE k0);; time_slice_tick;; default (mret tt) ti;;
                   default (mret tt) lw) k0); [reflexivity|].
    by rewrite (bind_run _ _ _ _ _ E2), (bind_run _ _ _ _ _ E3).
  - assert (ACTIVE_PTR k2 = ACTIVE_PTR k) as Ea by (destruct Hc2 as (-> & _); done).
    rewrite Ea in Ha2, Ha3. rewrite Ht2, lookup_fmap in Ha2. cbn in Ha2. rewrite Hd in Ha2. cbn in Ha2.
    assert (wake (TIME (CLOCK k0)) d = d) as Ew by (unfold wake, due; by rewrite Hs).
    change (TIME (CLOCK k0)) with now in Ew. rewrite Ew in Ha2. injection Ha2 as <-. by exists d, e3.
  - intros u Hu. rewrite Hf3, Ht2, lookup_fmap; [done|]. destruct Hc2 as (-> & _). done.
Qed.

(** ** Priorities *)

(** The descriptors of [k'] are those of [k] but for [t], whose is [d']. *)
Definition same_but (t : Z) (d' : td) (k k' : kernel) : Prop :=
  TD k' = <[t:=d']> (TD k) /\ QUEUES k' = QUEUES k /\ AUX_QUEUES k' = AUX_QUEUES k /\
  TIMEOUT_QUEUE k' = TIMEOUT_QUEUE k /\ TASKQ k' = TASKQ k /\ IN_ISR k' = IN_ISR k /\
  LOWEST_TASK_PRIORITY k' = LOWEST_TASK_PRIORITY k.

(** The descriptor after [_sched_set_priority_internal]. *)
Definition reprio (p : Z) (d : td) : td :=
  if STATE d =? READY then readied (with_PRIORITY p d) else with_PRIORITY p d.

Lemma is_ready_same t d d' k k' u : same_but t d' k k' -> TD k !! t = Some d -> STATE d' = STATE d ->
  is_ready k u -> is_ready k' u.
Proof.
  intros (E & _) Hd Hs (e & He & Hse). unfold is_ready. rewrite E, lookup_insert.
  case_decide; [subst; exists d'; split; [done|congruence]|eauto].
Qed.

Lemma reprio_state p d : STATE (reprio p d) = STATE d.
Proof. unfold reprio. by destruct (Z.eqb_spec (STATE d) READY). Qed.

Lemma reprio_prio p d : PRIORITY (reprio p d) = p.
Proof. unfold reprio. by destruct (STATE d =? READY). Qed.

Lemma set_priority_internal_run idle t p d k :
  pre idle k -> is_ready k (ACTIVE_PTR k) -> TD k !! t = Some d -> p <= LOWEST_TASK_PRIORITY k + 2 ->
  exists k', _sched_set_priority_internal t p k = Some (tt, k') /\ pre idle k' /\
    is_ready k' (ACTIVE_PTR k') /\ same_but t (reprio p d) k k'.
Proof.
  intros Hp Hr Hd Hlow. pose proof (pre_inv _ _ Hp) as Hk.
  destruct (sh_td _ (proj1 Hk) _ _ Hd) as (W1 & W2 & W3).
  set (d1 := with_PRIORITY p d). set (k1 := set_TD (<[t:=d1]>) k).
  assert (TD k1 !! t = Some d1) as Hd1 by (cbn; by rewrite lookup_insert, decide_True).
  unfold _sched_set_priority_internal. rewrite (bind_run _ _ _ _ _ (get_td_run _ _ _ Hd)).
  rewrite (bind_run _ _ _ _ _ (upd_td_run t (with_PRIORITY p) d k Hd)). fold d1 k1.
  unfold reprio. destruct (Z.eqb_spec (STATE d) READY) as [Hs|Hs].
  - set (k2 := requeue_k t d1 k1).
    assert (kinv k2) as Hk2.
    { pose proof (unlink_ready t d k Hk Hd Hs) as Hl.
      eapply (limbo_td _ _ _ d d1) in Hl; [|done|by left|by split_and!].
      eapply limbo_ready; [exact Hl|exact Hd1|done]. }
    assert (same_but t (readied d1) k k2) as Hsb.
    { repeat split. cbn. apply map_eq. intros u. rewrite !lookup_insert. by case_decide. }
    assert (pre idle k2) as Hp2.
    { eapply pre_ctl; [exact Hp|done| |by repeat split]. eapply is_ready_same; [done..| |apply Hp]. done. }
    assert (is_ready k2 (ACTIVE_PTR k2)) as Hr2 by (eapply is_ready_same; [done..| |exact Hr]; done).
    rewrite bind_assoc_tt.
    assert ((_QUEUE_UNLINK t;; _task_ready_internal t) k1 = Some (tt, k2)) as E.
    { unfold mbind, M_bind, _QUEUE_UNLINK, modify. by rewrite (task_ready_run t d1). }
    rewrite (bind_run _ _ _ _ _ E).
    rewrite (bind_run _ _ _ _ _ (eq_refl : active k2 = Some (ACTIVE_PTR k2, k2))).
    destruct ((ACTIVE_PTR k2 =? t) && (PRIORITY d <? p)).
    + destruct (exec_sys idle k2 Hp2 Hr2) as (k' & E' & Hs' & Hw).
      exists k'. split_and!; [done|apply Hs'|apply Hs'|].
      destruct Hw as [->|[->|(q & u & -> & _)]]; done.
    + exists k2. done.
  - exists k1. split_and!; [done| | |by repeat split].
    + eapply pre_ctl; [exact Hp| | |by repeat split].
      * eapply kinv_td; [done..| |done|by split_and!]. unfold place_of. cbn.
        by rewrite (proj2 (Z.eqb_neq _ _) Hs).
      * eapply is_ready_same; [by repeat split|done|done|apply Hp].
    + eapply is_ready_same; [by repeat split|done|done|exact Hr].
Qed.

Lemma get_td_self (t : Z) k d : t <> 0 -> TD k !! t = Some d -> _task_get_td t k = Some (Some t, k).
Proof.
  intros Ht Hd. unfold _task_get_td, MQX_NULL_TASK_ID. rewrite (proj2 (Z.eqb_neq _ _) Ht).
  unfold mbind, M_bind, gets. by rewrite Hd.
Qed.

(** The task a task id stands for. *)
Definition resolve (k : kernel) (id : Z) : option Z :=
  if id =? MQX_NULL_TASK_ID then Some (ACTIVE_PTR k)
  else match TD k !! id with Some _ => Some id | None => None end.

Lemma task_get_td_run id k : _task_get_td id k = Some (resolve k id, k).
Proof.
  unfold _task_get_td, resolve. destruct (id =? MQX_NULL_TASK_ID); [done|].
  unfold mbind, M_bind, gets, mret, M_ret. done.
Qed.

(** *** Boosts *)

Lemma boost_pre idle t p d k :
  pre idle k -> is_ready k (ACTIVE_PTR k) -> TD k !! t = Some d -> p <= LOWEST_TASK_PRIORITY k + 2 ->
  exists k', _sched_boost_priority_internal t p k = Some (tt, k') /\ sys idle k' /\
    same_but t (reprio p (with_BOOSTED (w32 (BOOSTED d + 1))
                            (with_FLAGS (Z.lor (FLAGS d) TASK_PRIORITY_BOOSTED) d))) k k'.
Proof.
  intros Hp Hr Hd Hlow. unfold _sched_boost_priority_internal.
  rewrite (bind_run _ _ _ _ _ (upd_td_run t _ d k Hd)).
  set (d1 := with_BOOSTED _ _). set (k1 := set_TD _ k).
  assert (TD k1 !! t = Some d1) as Hd1 by (cbn; by rewrite lookup_insert, decide_True).
  assert (pre idle k1) as Hp1.
  { eapply pre_ctl; [done| | |by repeat split].
    - eapply kinv_upd; [apply Hp|done|by repeat split].
    - eapply upd_ready; [done|done|apply Hp]. }
  destruct (set_priority_internal_run idle t p d1 k1 Hp1) as (k2 & E2 & Hp2 & Hr2 & Hs2);
    [by eapply upd_ready|done|done|].
  rewrite (bind_run _ _ _ _ _ E2).
  destruct (check_sys idle k2 Hp2 Hr2) as (k' & E' & Hs' & Hw).
  exists k'. split_and!; [done..|].
  assert (same_but t (reprio p d1) k k2) as Hsb.
  { destruct Hs2 as (Et & Hs2). split; [|done]. rewrite Et. cbn. apply map_eq. intros u.
    rewrite !lookup_insert. by case_decide. }
  destruct Hw as [->|[->|(q & u & -> & _)]]; done.
Qed.

Lemma boost_run idle t p d k :
  sys idle k -> TD k !! t = Some d -> p <= LOWEST_TASK_PRIORITY k + 2 ->
  exists k', _sched_boost_priority_internal t p k = Some (tt, k') /\ sys idle k' /\
    same_but t (reprio p (with_BOOSTED (w32 (BOOSTED d + 1))
                            (with_FLAGS (Z.lor (FLAGS d) TASK_PRIORITY_BOOSTED) d))) k k'.
Proof. intros [Hp Hr _]. by apply boost_pre. Qed.

(** The descriptor after [_sched_unboost_priority_internal]. *)
Definition unboosted (n : Z) (d : td) : td :=
  if Z.land (FLAGS d) TASK_PRIORITY_BOOSTED =? 0 then d
  else if n <? BOOSTED d then with_BOOSTED (BOOSTED d - n) d
  else reprio (HOME_PRIORITY d)
         (with_FLAGS (Z.land (FLAGS d) (Z.lnot TASK_PRIORITY_BOOSTED)) (with_BOOSTED 0 d)).

Lemma unboost_pre idle t n d k :
  pre idle k -> is_ready k (ACTIVE_PTR k) -> TD k !! t = Some d ->
  exists k', _sched_unboost_priority_internal t n k = Some (tt, k') /\
    (pre idle k' /\ is_ready k' (ACTIVE_PTR k')) /\ (sys idle k -> sys idle k') /\
    same_but t (unboosted n d) k k'.
Proof.
  intros Hp Hr Hd. unfold _sched_unboost_priority_internal, unboosted.
  rewrite (bind_run _ _ _ _ _ (get_td_run _ _ _ Hd)).
  destruct (Z.land (FLAGS d) TASK_PRIORITY_BOOSTED =? 0) eqn:Ef; cbn [negb].
  { exists k. split_and!; [done..|]. split; [|done]. by rewrite insert_id. }
  destruct (n <? BOOSTED d) eqn:En.
  { rewrite (upd_td_run t _ d k Hd). eexists.
    split_and!; [done| |by eapply upd_ready| |by repeat split].
    - eapply pre_ctl; [done| | |by repeat split].
      + eapply kinv_upd; [apply Hp|done|by repeat split].
      + eapply upd_ready; [done|done|apply Hp].
    - intros Hs. eapply sys_td; [done..|by repeat split|done]. }
  rewrite (bind_run _ _ _ _ _ (upd_td_run t _ d k Hd)).
  set (d1 := with_FLAGS _ _). set (k1 := set_TD _ k).
  assert (TD k1 !! t = Some d1) as Hd1 by (cbn; by rewrite lookup_insert, decide_True).
  assert (pre idle k1) as Hp1.
  { eapply pre_ctl; [done| | |by repeat split].
    - eapply kinv_upd; [apply Hp|done|by repeat split].
    - eapply upd_ready; [done|done|apply Hp]. }
  destruct (set_priority_internal_run idle t (HOME_PRIORITY d) d1 k1 Hp1) as (k2 & E2 & Hp2 & Hr2 & Hs2);
    [by eapply upd_ready|done|by apply (sh_td _ (proj1 (pre_inv _ _ Hp)) _ _ Hd)|].
  rewrite (bind_run _ _ _ _ _ E2).
  destruct (check_sys idle k2 Hp2 Hr2) as (k' & E' & Hs' & Hw).
  exists k'. split_and!; [done|apply Hs'|apply Hs'|done|].
  assert (same_but t (reprio (HOME_PRIORITY d) d1) k k2) as Hsb.
  { destruct Hs2 as (Et & Hs2). split; [|done]. rewrite Et. cbn. apply map_eq. intros u.
    rewrite !lookup_insert. by case_decide. }
  destruct Hw as [->|[->|(q & u & -> & _)]]; done.
Qed.

Lemma unboost_run idle t n d k :
  sys idle k -> TD k !! t = Some d ->
  exists k', _sched_unboost_priority_internal t n k = Some (tt, k') /\ sys idle k' /\
    same_but t (unboosted n d) k k'.
Proof.
  intros Hs Hd. pose proof Hs as [Hp Hr _].
  destruct (unboost_pre idle t n d k Hp Hr Hd) as (k' & E & _ & Hs' & Hsb). eauto.
Qed.

(** *** Queues by priority *)

Definition prio_of (m : gmap Z td) (t : Z) : Z :=
  match m !! t with Some d => PRIORITY d | None => 0 end.

Lemma priorityq_insert_spec m t p l : (forall u, u ∈ l -> is_Some (m !! u)) ->
  exists l1 l2, priorityq_insert m t p l = Some (l1 ++ t :: l2) /\ l = l1 ++ l2 /\
    (forall u, u ∈ l1 -> prio_of m u <= p) /\
    (match l2 with [] => True | u :: _ => p < prio_of m u end).
Proof.
  induction l as [|u l IH]; intros Hm.
  { exists [], []. split_and!; [done|done|by intros u ?%elem_of_nil|done]. }
  destruct (Hm u) as [e He]; [set_solver|]. cbn. rewrite He. cbn.
  assert (prio_of m u = PRIORITY e) as Eu by (unfold prio_of; by rewrite He).
  destruct (Z.ltb_spec p (PRIORITY e)).
  - exists [], (u :: l). split_and!; [done|done|by intros v ?%elem_of_nil|lia].
  - destruct IH as (l1 & l2 & -> & -> & H1 & H2); [intros v Hv; apply Hm; set_solver|].
    exists (u :: l1), l2. split_and!; [done|done| |done].
    intros v [->|Hv]%elem_of_cons; [lia|by apply H1].
Qed.

Lemma NoDup_middle {A} (t : A) l1 l2 : t ∉ l1 ++ l2 -> NoDup (l1 ++ l2) -> NoDup (l1 ++ t :: l2).
Proof.
  intros Ht (N1 & N2 & N3)%NoDup_app. apply NoDup_app. split_and!; [done| |].
  - set_solver.
  - apply NoDup_cons. set_solver.
Qed.

(** Inserting by priority a task that is on no queue. *)
Lemma insert_priorityq_run t k q d : limbo t nowhere k -> TD k !! t = Some d ->
  exists l1 l2, on (QUEUES k) q = l1 ++ l2 /\
    (forall u, u ∈ l1 -> prio_of (TD k) u <= PRIORITY d) /\
    (match l2 with [] => True | u :: _ => PRIORITY d < prio_of (TD k) u end) /\
    _sched_insert_priorityq_internal q t k = Some (tt, set_QUEUES (<[q := l1 ++ t :: l2]>) k) /\
    limbo t (Place None false (Some q) None) (set_QUEUES (<[q := l1 ++ t :: l2]>) k).
Proof.
  intros Hl Hd. pose proof Hl as (Hsh & Hu & Hp).
  assert (t ∉ on (QUEUES k) q) as Hn by (intros Hi; apply Hp in Hi; done).
  destruct (priorityq_insert_spec (TD k) t (PRIORITY d) (on (QUEUES k) q)) as (l1 & l2 & E & El & H1 & H2).
  { intros u Hi. destruct (decide (u = t)) as [->|Hut]; [done|].
    destruct (home_in k u (Hu u Hut)) as [e He]; [by eauto 6|done]. }
  exists l1, l2. split_and!; [done|done|done| |].
  - unfold _sched_insert_priorityq_internal. rewrite (bind_run _ _ _ _ _ (get_td_run _ _ _ Hd)).
    unfold mbind, M_bind, gets, lift_opt, modify. cbn. by rewrite E.
  - eapply limbo_own with (q := q) (l := l1 ++ t :: l2) in Hl.
    + cbn in Hl. rewrite decide_True in Hl by set_solver. exact Hl.
    + pose proof (sh_own _ Hsh q) as Hnd. rewrite El in Hnd, Hn. by apply NoDup_middle.
    + intros u Hut. rewrite El. set_solver.
    + by left.
Qed.

Definition tq_blocked (q : Z) (d : td) : td := with_INFO q (with_STATE TASK_QUEUE_BLOCKED d).

(** Suspending a ready task on a task queue. *)
Lemma taskq_block_run t k q tq d : kinv k -> TD k !! t = Some d -> STATE d = READY ->
  exists l1 l2 k', on (QUEUES k) q = l1 ++ l2 /\
    (if Z.land (POLICY tq) MQX_TASK_QUEUE_BY_PRIORITY =? 0 then l2 = []
     else (forall u, u ∈ l1 -> prio_of (TD k) u <= PRIORITY d) /\
          (match l2 with [] => True | u :: _ => PRIORITY d < prio_of (TD k) u end)) /\
    taskq_block q tq t k = Some (tt, k') /\ kinv k' /\ same_control k k' /\
    TD k' = <[t := tq_blocked q d]> (TD k) /\ QUEUES k' = <[q := l1 ++ t :: l2]> (QUEUES k).
Proof.
  intros Hk Hd Hs. pose proof (unlink_ready t d k Hk Hd Hs) as Hl.
  destruct (sh_td _ (proj1 Hk) _ _ Hd) as (W1 & W2 & W3).
  set (d2 := tq_blocked q d).
  eapply (limbo_td _ _ _ d d2) in Hl; [|done|by left|by split_and!].
  set (k2 := set_TD _ _) in Hl.
  assert (TD k2 !! t = Some d2) as Hd2 by (cbn; by rewrite lookup_insert, decide_True).
  assert (forall u, u ∈ on (QUEUES k) q -> prio_of (TD k2) u = prio_of (TD k) u) as Hpr.
  { intros u Hi. unfold prio_of. cbn. rewrite lookup_insert. case_decide; [|done]. subst u.
    by rewrite Hd. }
  set (tail := if negb (Z.land (POLICY tq) MQX_TASK_QUEUE_BY_PRIORITY =? 0)
               then _sched_insert_priorityq_internal q t else queue_enqueue q t).
  assert (taskq_block q tq t k = tail k2) as E.
  { unfold taskq_block, mbind, M_bind, _QUEUE_UNLINK, modify.
    rewrite (upd_td_run t _ d k Hd).
    rewrite (upd_td_run t (with_INFO q) (with_STATE TASK_QUEUE_BLOCKED d))
      by (cbn; by rewrite lookup_insert, decide_True).
    unfold tail. f_equal. unfold k2, set_TD, set_READY_Q_LIST. cbn. f_equal.
    by rewrite insert_insert, decide_True by done. }
  assert (forall l, limbo t (Place None false (Some q) None) (set_QUEUES (<[q:=l]>) k2) ->
            kinv (set_QUEUES (<[q:=l]>) k2)) as Hend.
  { intros l Hy. apply (limbo_kinv t). cbn. by rewrite lookup_insert, decide_True. }
  unfold tail in E. destruct (Z.land (POLICY tq) MQX_TASK_QUEUE_BY_PRIORITY =? 0) eqn:Ep; cbn [negb] in E.
  - exists (on (QUEUES k) q), [], (set_QUEUES (<[q := on (QUEUES k) q ++ [t]]>) k2).
    split_and!; [by rewrite app_nil_r|done|done| |by repeat split|done|done].
    apply Hend. pose proof Hl as (Hsh & _ & Hpl).
    assert (t ∉ on (QUEUES k2) q) as Hn by (intros Hi; apply Hpl in Hi; done).
    eapply limbo_own with (q := q) (l := on (QUEUES k) q ++ [t]) in Hl.
    + cbn in Hl. rewrite decide_True in Hl by set_solver. exact Hl.
    + apply NoDup_app. split_and!; [apply (sh_own _ Hsh q)| |apply NoDup_singleton]. set_solver.
    + apply only_t_snoc.
    + by left.
  - destruct (insert_priorityq_run t k2 q d2 Hl Hd2) as (l1 & l2 & E1 & H1 & H2 & E2 & Hl2).
    exists l1, l2, (set_QUEUES (<[q := l1 ++ t :: l2]>) k2).
    cbn in E1. split_and!; [done| | |by rewrite E|by apply Hend|by repeat split|done|done].
    + intros u Hi. rewrite <-Hpr by (rewrite E1; set_solver). by apply H1.
    + destruct l2 as [|u l2]; [done|]. rewrite <-Hpr by (rewrite E1; set_solver). done.
Qed.

(** Resuming the first tasks of a task queue. *)
Lemma ready_all_run q l l2 k : kinv k -> on (QUEUES k) q = l ++ l2 ->
  exists k', ready_all l q k = Some (tt, k') /\ kinv k' /\ on (QUEUES k') q = l2 /\
    TD k' = map_imap (fun u d => Some (if decide (u ∈ l) then readied d else d)) (TD k) /\
    same_control k k'.
Proof.
  revert k. induction l as [|t l IH]; intros k Hk Hq.
  { exists k. split_and!; [done|done|done| |done]. apply map_eq. intros u. rewrite map_lookup_imap.
    by destruct (TD k !! u). }
  assert (t ∈ on (QUEUES k) q) as Hi by (rewrite Hq; set_solver).
  apply in_own in Hi as (d & Hd & H9 & HI); [|done].
  pose proof (kinv_limbo t k Hk) as Hl. rewrite Hd in Hl.
  assert (place_of d = Place None false (Some q) None) as Hpl.
  { unfold place_of. rewrite H9, HI. destruct (sh_td _ (proj1 Hk) _ _ Hd) as (_ & _ & W).
    destruct (W H9) as [-> ->].
    destruct (Z.eqb_spec (STATE d) READY) as [E|]; [by rewrite E in H9|done]. }
  rewrite Hpl in Hl.
  pose proof (sh_own _ (proj1 Hk) q) as Hnd. rewrite Hq in Hnd.
  change (NoDup (t :: (l ++ l2))) in Hnd. apply NoDup_cons in Hnd as [Hn Hnd].
  eapply (limbo_own t _ k q (tail (on (QUEUES k) q))) in Hl;
    [|by rewrite Hq|rewrite Hq; intros u Hu; set_solver|by right].
  cbn in Hl. rewrite decide_False in Hl by (by rewrite Hq).
  set (k1 := set_QUEUES _ k) in Hl.
  assert (_task_ready_internal t k1 = Some (tt, ready_k t d k1)) as Er by (by apply task_ready_run).
  destruct (IH (ready_k t d k1)) as (k' & E' & Hk' & Hq' & Ht' & Hc').
  { eapply limbo_ready; [exact Hl|done|done]. }
  { cbn. by rewrite on_insert, decide_True, Hq by done. }
  exists k'. split_and!; [|done|done| |].
  - transitivity ((_task_ready_internal t;; ready_all l q) k1); [done|].
    by rewrite (bind_run _ _ _ _ _ Er).
  - rewrite Ht'. cbn. apply map_eq. intros u. rewrite !map_lookup_imap, lookup_insert.
    destruct (decide (t = u)) as [->|Hut].
    + rewrite Hd. cbn. rewrite (decide_True (P := u ∈ u :: l)) by set_solver.
      rewrite decide_False by set_solver. done.
    + destruct (TD k !! u); [|done]. cbn. do 2 f_equal. repeat case_decide; set_solver.
  - etrans; [|done]. by repeat split.
Qed.

(** ** The operations preserve the invariant *)

(** [m] runs without a fault and leads to a state with [P]. *)
Definition runs {A} (m : M kernel A) (k : kernel) (P : A -> kernel -> Prop) : Prop :=
  exists a k', m k = Some (a, k') /\ P a k'.

Lemma runs_ret {A} (a : A) k (P : A -> kernel -> Prop) : P a k -> runs (mret a) k P.
Proof. intros H. by exists a, k. Qed.

Lemma runs_bind {A B} (m : M kernel A) (f : A -> M kernel B) k (Q : A -> kernel -> Prop) P :
  runs m k Q -> (forall a k', Q a k' -> runs (f a) k' P) -> runs (m ≫= f) k P.
Proof.
  intros (a & k1 & E & HQ) Hf. destruct (Hf a k1 HQ) as (b & k2 & E2 & HP).
  exists b, k2. by rewrite (bind_run _ _ _ _ _ E).
Qed.

Lemma runs_eq {A B} (m : M kernel A) (f : A -> M kernel B) k a k' P :
  m k = Some (a, k') -> runs (f a) k' P -> runs (m ≫= f) k P.
Proof. intros E (b & k2 & E2 & HP). exists b, k2. by rewrite (bind_run _ _ _ _ _ E). Qed.

Lemma set_error_sys idle k e : sys idle k ->
  runs (_task_set_error e) k (fun _ k' => sys idle k').
Proof.
  intros Hs. pose proof Hs as [[Hk Hi Hx Hr Hp] (d & Hd & Hsd) Hcur].
  assert (exists old, _task_get_error k = Some (old, k)) as [old E].
  { unfold _task_get_error, active, mbind, M_bind, gets, lift_opt.
    destruct (Z.eqb_spec (IN_ISR k) 0); cbn.
    - rewrite (get_td_run _ _ _ Hd). by eexists.
    - destruct (INTERRUPT_CONTEXT k); [cbn in Hx; lia|by eexists]. }
  unfold _task_set_error. eapply runs_eq; [done|].
  eapply (runs_bind _ _ _ (fun _ => sys idle)); [|intros _ k' Hk'; by apply runs_ret].
  case_if; [|by apply runs_ret].
  unfold runs, active, mbind, M_bind, gets, modify. destruct (Z.eqb_spec (IN_ISR k) 0); cbn.
  - rewrite (upd_td_run _ _ _ _ Hd). eexists _, _. split; [done|]. eapply sys_td; [done|done|by repeat split|done].
  - eexists _, _. split; [done|]. split; [split; cbn; try done| |done].
    + apply (kinv_same k); [by split_and!|left; cbn; lia|done].
    + destruct (INTERRUPT_CONTEXT k); cbn in *; lia.
    + by exists d.
Qed.

Lemma sys_ctx idle k : sys idle k -> IN_ISR k = 0 -> INTERRUPT_CONTEXT k = [].
Proof. intros [[? ? H _ _] _ _] E. rewrite E in H. by destruct (INTERRUPT_CONTEXT k). Qed.

(** The running task delays itself until [TIMEOUT] of [f d]. *)
Lemma delay_active_sys idle k f d :
  sys idle k -> IN_ISR k = 0 -> ACTIVE_PTR k <> idle -> TD k !! ACTIVE_PTR k = Some d ->
  (forall e, exists n, f e = with_TIMEOUT n e) ->
  exists k1 l1 l2 k', TD k1 = <[ACTIVE_PTR k := f d]> (TD k) /\
    TIMEOUT_QUEUE k = l1 ++ l2 /\
    (forall u, u ∈ l1 -> tmo_of (TD k1) u < TICKS (TIMEOUT (f d))) /\
    (forall u, u ∈ l2 -> TICKS (TIMEOUT (f d)) <= tmo_of (TD k1) u) /\
    (upd_td (ACTIVE_PTR k) f;; _time_delay_internal (ACTIVE_PTR k)) k = Some (tt, k') /\
    sys idle k' /\ dispatched k' /\
    switched (delay_k (ACTIVE_PTR k) (f d) (l1 ++ ACTIVE_PTR k :: l2) k1) k'.
Proof.
  intros Hsys Hi Hne Hd Hf. pose proof Hsys as [Hp (d0 & Hd0 & Hs) _]. simplify_eq.
  destruct (Hf d) as [n Hn]. pose proof (pre_inv _ _ Hp) as Hk.
  set (k1 := set_TD (<[ACTIVE_PTR k := f d]>) k).
  assert (TD k1 !! ACTIVE_PTR k = Some (f d)) as Hd1 by (cbn; by rewrite lookup_insert, decide_True).
  assert (limbo (ACTIVE_PTR k) (Place (Some (PRIORITY d)) false None None) k1) as Hl.
  { eapply limbo_td; [|done|by left|rewrite Hn; apply (sh_td _ (proj1 Hk) _ _ Hd)].
    rewrite <-(place_ready d Hs). pose proof (kinv_limbo (ACTIVE_PTR k) k Hk) as H. by rewrite Hd in H. }
  destruct (delay_sys idle _ _ k1 (f d) Hl) as (l1 & l2 & k' & E1 & H1 & H2 & E & Hs' & Hdp & Hw).
  - done.
  - done.
  - rewrite Hn. cbn. by rewrite Hs.
  - rewrite Hn. unfold place_of. cbn. by rewrite Hs.
  - destruct Hp as [_ (e & He & Hse) _ _ _]. exists e. split; [|done]. cbn.
    by rewrite lookup_insert_ne.
  - done.
  - done.
  - exact (sys_ctx idle k Hsys Hi).
  - exact (pre_pend _ _ Hp Hi).
  - exists k1, l1, l2, k'. split_and!; [done|done|done|done| |done|done|done].
    by rewrite (bind_run _ _ _ _ _ (upd_td_run _ f d k Hd)).
Qed.

(** ** Calls, and the states they reach *)

Inductive kcall :=
  | Yield
  | Delay (milliseconds : Z) | DelayTicks (n : Z)
  | DelayFor (n : option ticks) | DelayUntil (n : option ticks)
  | SetPriority (task_id new_priority : Z)
  | Boost (t priority : Z) | Unboost (t number_of_boosts : Z)
  | SetPolicy (task_id policy : Z)
  | StopPreemption | StartPreemption
  | Ready (t : Z)
  | TaskqCreate (policy : Z) (mem : option Z)
  | TaskqSuspend (q : option Z) | TaskqResume (q : option Z) (all_tasks : bool)
  | IsrEnter | IsrExit | Tick (hw : option Z).

Definition run {A} (m : M kernel A) : M kernel unit := m;; mret tt.

Definition run_call (c : kcall) : M kernel unit :=
  match c with
  | Yield => _sched_yield
  | Delay ms => _time_delay ms
  | DelayTicks n => _time_delay_ticks n
  | DelayFor n => _time_delay_for n
  | DelayUntil n => _time_delay_until n
  | SetPriority id p => run (_task_set_priority id p)
  | Boost t p => _sched_boost_priority_internal t p
  | Unboost t n => _sched_unboost_priority_internal t n
  | SetPolicy id p => run (_sched_set_policy id p)
  | StopPreemption => _task_stop_preemption
  | StartPreemption => _task_start_preemption
  | Ready t => _task_ready (Some t)
  | TaskqCreate p mem => run (_taskq_create p mem)
  | TaskqSuspend q => run (_taskq_suspend q)
  | TaskqResume q b => run (_taskq_resume q b)
  | IsrEnter => isr_enter
  | IsrExit => isr_exit
  | Tick hw => _time_notify_kernel hw None None
  end.

(** When a call is a correct use of the kernel: a function that blocks is
    called by a task other than the idle task, a pointer is to an object that
    exists, and [_task_ready] is given a task that is on no queue. *)
Definition allowed (idle : Z) (k : kernel) (c : kcall) : Prop :=
  match c with
  | Yield | StopPreemption | StartPreemption | SetPolicy _ _ => True
  | Delay _ | DelayTicks _ | DelayFor _ | DelayUntil _ =>
      IN_ISR k = 0 /\ ACTIVE_PTR k <> idle
  | SetPriority id _ => forall t d, resolve k id = Some t -> TD k !! t = Some d ->
      STATE d = TASK_QUEUE_BLOCKED -> is_Some (TASKQ k !! INFO d)
  | Boost t p => is_Some (TD k !! t) /\ p <= LOWEST_TASK_PRIORITY k
  | Unboost t _ => is_Some (TD k !! t)
  | Ready t => exists d, TD k !! t = Some d /\ (STATE d = READY \/ place_of d = nowhere)
  | TaskqCreate _ mem => forall q, mem = Some q -> on (QUEUES k) q = []
  | TaskqSuspend q => ACTIVE_PTR k <> idle /\ forall q', q = Some q' -> is_Some (TASKQ k !! q')
  | TaskqResume q _ => forall q', q = Some q' -> is_Some (TASKQ k !! q')
  | IsrEnter => IN_ISR k < 65535
  | IsrExit | Tick _ => 0 < IN_ISR k
  end.

Lemma runs_sys_ret {A} idle k (m : M kernel A) : runs m k (fun _ k' => sys idle k') ->
  runs (run m) k (fun _ k' => sys idle k').
Proof. intros H. unfold run. eapply runs_bind; [done|]. intros. by apply runs_ret. Qed.

Lemma err_then {A} idle k e (a : A) : sys idle k ->
  runs (_task_set_error e;; mret a) k (fun _ k' => sys idle k').
Proof. intros H. eapply runs_bind; [by apply set_error_sys|]. intros. by apply runs_ret. Qed.

Lemma delay_call_sys idle k (f : td -> td) :
  sys idle k -> IN_ISR k = 0 -> ACTIVE_PTR k <> idle ->
  (forall e, exists n, f e = with_TIMEOUT n e) ->
  runs (upd_td (ACTIVE_PTR k) f;; _time_delay_internal (ACTIVE_PTR k)) k (fun _ k' => sys idle k').
Proof.
  intros Hs Hi Hne Hf. pose proof Hs as [_ (d & Hd & _) _].
  destruct (delay_active_sys idle k f d Hs Hi Hne Hd Hf) as (k1 & l1 & l2 & k' & _ & _ & _ & _ & E & H & _).
  by exists tt, k'.
Qed.

Lemma resolve_td idle k id t : sys idle k -> resolve k id = Some t -> exists d, TD k !! t = Some d.
Proof.
  intros [_ (d & Hd & _) _]. unfold resolve. destruct (id =? MQX_NULL_TASK_ID); [naive_solver|].
  destruct (TD k !! id) eqn:E; naive_solver.
Qed.

Lemma taskq_requeue_kinv k t d q : kinv k -> TD k !! t = Some d -> STATE d = TASK_QUEUE_BLOCKED ->
  INFO d = q ->
  exists k', (queue_remove q t;; _sched_insert_priorityq_internal q t) k = Some (tt, k') /\
    kinv k' /\ same_control k k' /\ TD k' = TD k.
Proof.
  intros Hk Hd Hs Hq. pose proof (kinv_limbo t k Hk) as Hl. rewrite Hd in Hl.
  assert (place_of d = Place None false (Some q) None) as Hpl
    by (unfold place_of; by rewrite Hs, Hq).
  rewrite Hpl in Hl.
  eapply limbo_own with (q := q) (l := without t (on (QUEUES k) q)) in Hl;
    [|by apply NoDup_without, (sh_own _ (proj1 Hk))|by apply only_t_without|by right].
  rewrite decide_False in Hl by (rewrite elem_of_without; tauto).
  set (k1 := set_QUEUES _ k) in Hl.
  destruct (insert_priorityq_run t k1 q d Hl Hd) as (l1 & l2 & _ & _ & _ & E & Hl2).
  exists (set_QUEUES (<[q := l1 ++ t :: l2]>) k1). split_and!; [by rewrite <-E| |by repeat split|done].
  apply (limbo_kinv t). cbn. rewrite Hd, Hpl. exact Hl2.
Qed.

Lemma set_priority_sys idle k id p :
  sys idle k -> allowed idle k (SetPriority id p) ->
  runs (_task_set_priority id p) k (fun _ k' => sys idle k').
Proof.
  intros Hs Ha. pose proof Hs as [Hp Hr _]. unfold _task_set_priority.
  eapply runs_eq; [done|]. cbn beta. destruct (Z.ltb_spec (LOWEST_TASK_PRIORITY k) p) as [|Hlow];
    [by apply runs_ret|].
  eapply runs_eq; [apply task_get_td_run|]. destruct (resolve k id) as [t|] eqn:Et; [|by apply runs_ret].
  destruct (resolve_td _ _ _ _ Hs Et) as [d Hd]. specialize (Ha t d Et Hd).
  eapply runs_eq; [by apply get_td_run|]. eapply runs_eq; [by apply upd_td_run|].
  set (d1 := with_HOME p d). set (k1 := set_TD _ k).
  assert (TD k1 !! t = Some d1) as Hd1 by (cbn; by rewrite lookup_insert, decide_True).
  assert (pre idle k1 /\ is_ready k1 (ACTIVE_PTR k1)) as [Hp1 Hr1].
  { split; [|by eapply upd_ready]. eapply pre_ctl; [done| | |by repeat split].
    - eapply kinv_td; [apply Hp|done..|].
      destruct (sh_td _ (proj1 (pre_inv _ _ Hp)) _ _ Hd) as (W1 & W2 & W3). split_and!; [done|cbn; lia|done].
    - eapply upd_ready; [done|done|apply Hp]. }
  eapply (runs_bind _ _ _ (fun _ k2 => pre idle k2 /\ is_ready k2 (ACTIVE_PTR k2) /\
            TASKQ k2 = TASKQ k /\ exists d2, TD k2 !! t = Some d2 /\ STATE d2 = STATE d /\ INFO d2 = INFO d)).
  { destruct (set_priority_internal_run idle t p d1 k1 Hp1 Hr1 Hd1) as (k2 & E2 & Hp2 & Hr2 & Hs2);
      [cbn; lia|].
    assert (runs (_sched_set_priority_internal t p) k1 (fun _ k2 => pre idle k2 /\
      is_ready k2 (ACTIVE_PTR k2) /\ TASKQ k2 = TASKQ k /\
      exists d2, TD k2 !! t = Some d2 /\ STATE d2 = STATE d /\ INFO d2 = INFO d)).
    { exists tt, k2. destruct Hs2 as (Et2 & _ & _ & _ & Eq & _). split_and!; [done..|].
      exists (reprio p d1). rewrite Et2, lookup_insert, decide_True by done. split_and!; [done| |].
      - by rewrite reprio_state.
      - unfold reprio. by destruct (STATE d1 =? READY). }
    case_if; [case_if; [done|]|done]. apply runs_ret. split_and!; [done..|]. by exists d1. }
  intros _ k2 (Hp2 & Hr2 & Eq & d2 & Hd2 & Es & Ei).
  eapply runs_eq; [by apply get_td_run|].
  eapply (runs_bind _ _ _ (fun _ k3 => pre idle k3 /\ is_ready k3 (ACTIVE_PTR k3))).
  { case_if; [|by apply runs_ret]. rewrite Es in Hif. destruct (Ha Hif) as [tq Htq].
    eapply runs_eq; [done|]. rewrite <-Ei, <-Eq in Htq. eapply runs_eq; [unfold lift_opt; by rewrite Htq|].
    case_if; [|by apply runs_ret].
    destruct (taskq_requeue_kinv k2 t d2 (INFO d2)) as (k3 & E3 & Hk3 & Hc3 & Ht3);
      [apply Hp2|done|congruence|done|].
    exists tt, k3. split; [done|]. pose proof (proj1 Hc3) as A1. split.
    - eapply pre_ctl; [done|done| |done]. unfold is_ready. rewrite Ht3. apply Hp2.
    - unfold is_ready. by rewrite Ht3, A1. }
  intros _ k3 [Hp3 Hr3]. destruct (check_sys idle k3 Hp3 Hr3) as (k' & E & Hs' & _).
  eapply runs_eq; [done|]. by apply runs_ret.
Qed.

Lemma set_policy_sys idle k id p : sys idle k ->
  runs (_sched_set_policy id p) k (fun _ k' => sys idle k').
Proof.
  intros Hs. unfold _sched_set_policy. case_if; [by apply err_then|].
  case_if.
  - unfold runs. eexists _, _. split; [done|]. pose proof Hs as [[? ? ? ? ?] ? ?].
    split; [split; try done|done|done]. apply (kinv_same k); [by split_and!|left; cbn; lia|done].
  - eapply runs_eq; [apply task_get_td_run|].
    destruct (resolve k id) as [t|] eqn:Et; [|by apply err_then].
    destruct (resolve_td _ _ _ _ Hs Et) as [d Hd].
    eapply runs_eq; [by apply get_td_run|]. eapply runs_eq; [by apply upd_td_run|]. apply runs_ret.
    eapply sys_td; [done|done|by repeat split|]. intros _. unfold preemptible. cbn. intros Hp.
    apply Z.eqb_eq in Hp. apply Z.eqb_eq.
    change TASK_PREEMPTION_DISABLED with (2 ^ 12) in *. rewrite (land_pow2_eqb _ 12) in * by lia.
    rewrite <-Hp. clear Hp. case_if; rewrite (land_pow2_eqb _ 12) by lia; f_equal.
    + rewrite Z.lor_spec. change (Z.testbit MQX_TIME_SLICE_TASK 12) with false. by rewrite orb_false_r.
    + rewrite Z.land_spec. change (Z.testbit (Z.lnot MQX_TIME_SLICE_TASK) 12) with true.
      by rewrite andb_true_r.
Qed.

Lemma stop_preemption_sys idle k : sys idle k -> runs _task_stop_preemption k (fun _ k' => sys idle k').
Proof.
  intros Hs. pose proof Hs as [_ (d & Hd & _) _]. unfold _task_stop_preemption.
  eapply runs_eq; [done|]. unfold runs. eexists _, _. split; [by apply upd_td_run|].
  eapply sys_td; [done|done|by repeat split|]. unfold preemptible. cbn. intros _ Hp. exfalso.
  apply Z.eqb_eq in Hp. change TASK_PREEMPTION_DISABLED with (2 ^ 12) in Hp.
  rewrite (land_pow2_eqb _ 12) in Hp by lia. rewrite Z.lor_spec in Hp.
  change (Z.testbit (2 ^ 12) 12) with true in Hp. by rewrite orb_true_r in Hp.
Qed.

(** The end of an operation that may have made a better task ready. *)
Lemma check_runs {A} idle k (a : A) : pre idle k -> is_ready k (ACTIVE_PTR k) ->
  runs (_sched_check_scheduler_internal;; mret a) k (fun _ k' => sys idle k').
Proof.
  intros Hp Hr. destruct (check_sys idle k Hp Hr) as (k' & E & Hs & _).
  eapply runs_eq; [done|]. by apply runs_ret.
Qed.

Lemma start_preemption_sys idle k : sys idle k -> runs _task_start_preemption k (fun _ k' => sys idle k').
Proof.
  intros Hs. pose proof Hs as [Hp (d & Hd & Hsd) _]. unfold _task_start_preemption.
  eapply runs_eq; [done|]. eapply runs_eq; [by apply upd_td_run|].
  edestruct check_sys as (k' & E & Hs' & _).
  3:{ exists tt, k'. split; [exact E|exact Hs']. }
  - eapply pre_ctl; [done| | |by repeat split].
    + eapply kinv_upd; [apply Hp|done|by repeat split].
    + eapply upd_ready; [done|done|apply Hp].
  - eapply upd_ready; [done|done|by exists d].
Qed.

Lemma task_ready_sys idle k t : sys idle k -> allowed idle k (Ready t) ->
  runs (_task_ready (Some t)) k (fun _ k' => sys idle k').
Proof.
  intros Hs (d & Hd & Hor). pose proof Hs as [Hp Hr _]. cbn [_task_ready].
  eapply runs_eq; [by apply get_td_run|]. case_if; [by apply err_then|].
  destruct Hor as [|Hpl]; [done|].
  eapply runs_eq; [by apply task_ready_run|].
  assert (forall u, is_ready k u -> is_ready (ready_k t d k) u) as Hrd.
  { intros u (e & He & Hse). unfold is_ready. cbn. rewrite lookup_insert.
    case_decide; [by eexists|eauto]. }
  edestruct (check_sys idle (ready_k t d k)) as (k' & E & Hs' & _).
  - eapply pre_ctl; [done| |by apply Hrd, Hp|by repeat split].
    eapply limbo_ready; [|done|exact Hpl]. pose proof (kinv_limbo t k (pre_inv _ _ Hp)) as H.
    by rewrite Hd in H.
  - apply Hrd, Hr.
  - exists tt, k'. done.
Qed.

Lemma taskq_create_sys idle k p mem : sys idle k -> allowed idle k (TaskqCreate p mem) ->
  runs (_taskq_create p mem) k (fun _ k' => sys idle k').
Proof.
  intros Hs Ha. unfold _taskq_create. eapply runs_eq; [done|].
  case_if; [by apply err_then|]. case_if; [by apply err_then|].
  destruct mem as [q|]; [|by apply runs_ret]. specialize (Ha q eq_refl).
  unfold runs. eexists _, _. split; [done|]. pose proof Hs as [[Hk ? ? ? ?] ? ?].
  set (k1 := set_QUEUES (<[q:=[]]>) k).
  assert (kinv k1) as Hk1.
  { pose proof (kinv_limbo 0 k Hk) as Hl.
    assert (forall p, on (<[q:=[]]> (QUEUES k)) p = on (QUEUES k) p) as Eon
      by (intros p'; rewrite on_insert; case_decide; [by subst|done]).
    destruct Hk as [[] Hh]. split; [split; cbn; try done; intros q'; by rewrite Eon|].
    intros u. specialize (Hh u). unfold home, at_place in *. cbn.
    destruct Hh as (P1 & P2 & P3 & P4). split_and!; [done|done| |done]. intros q'. by rewrite Eon. }
  split; [split; cbn; try done|done|done].
  by apply (kinv_same k1); [split_and!|left; cbn; lia|].
Qed.

Lemma taskq_suspend_sys idle k q : sys idle k -> allowed idle k (TaskqSuspend q) ->
  runs (_taskq_suspend q) k (fun _ k' => sys idle k').
Proof.
  intros Hs [Hne Ha]. pose proof Hs as [Hp (d & Hd & Hsd) _].
  destruct q as [q|]; [|by apply runs_ret]. destruct (Ha q eq_refl) as [tq Htq]. unfold _taskq_suspend.
  eapply runs_eq; [done|]. case_if; [by apply runs_ret|].
  eapply runs_eq; [done|].
  eapply runs_eq; [by unfold get_taskq, mbind, M_bind, gets, lift_opt, id; rewrite Htq|].
  case_if; [by apply runs_ret|].
  destruct (taskq_block_run (ACTIVE_PTR k) k q tq d (pre_inv _ _ Hp) Hd Hsd)
    as (l1 & l2 & k1 & _ & _ & E & Hk1 & Hc & Ht & _).
  eapply runs_eq; [done|].
  destruct (exec_task idle k1) as (k' & E' & Hs' & _).
  - eapply pre_ctl; [done|done| |done]. destruct Hp as [_ (e & He & Hse) _ _ _]. exists e.
    by rewrite Ht, lookup_insert_ne.
  - destruct Hc as (_ & -> & _). done.
  - eapply runs_eq; [done|]. by apply runs_ret.
Qed.

Lemma ready_all_sys idle q l l2 k : pre idle k -> is_ready k (ACTIVE_PTR k) ->
  on (QUEUES k) q = l ++ l2 ->
  exists k', ready_all l q k = Some (tt, k') /\ pre idle k' /\ is_ready k' (ACTIVE_PTR k') /\
    on (QUEUES k') q = l2 /\
    TD k' = map_imap (fun u d => Some (if decide (u ∈ l) then readied d else d)) (TD k).
Proof.
  intros Hp Hr Hq. destruct (ready_all_run q l l2 k (pre_inv _ _ Hp) Hq) as (k' & E & Hk' & Hq' & Ht & Hc).
  assert (forall u, is_ready k u -> is_ready k' u) as Hrd.
  { intros u (e & He & Hse). unfold is_ready. rewrite Ht, map_lookup_imap, He. cbn.
    case_decide; by eexists. }
  exists k'. split_and!; [done| | |done|done].
  - eapply pre_ctl; [done|done|apply Hrd, Hp|done].
  - destruct Hc as (-> & _). by apply Hrd.
Qed.

Lemma taskq_resume_sys idle k q b : sys idle k -> allowed idle k (TaskqResume q b) ->
  runs (_taskq_resume q b) k (fun _ k' => sys idle k').
Proof.
  intros Hs Ha. pose proof Hs as [Hp Hr _].
  destruct q as [q|]; [|by apply runs_ret]. destruct (Ha q eq_refl) as [tq Htq]. unfold _taskq_resume.
  eapply runs_eq; [by unfold get_taskq, mbind, M_bind, gets, lift_opt, id; rewrite Htq|].
  case_if; [by apply runs_ret|]. eapply runs_eq; [done|].
  destruct (on (QUEUES k) q) as [|t l] eqn:Eq; [by apply runs_ret|].
  destruct (ready_all_sys idle q (if b then t :: l else [t]) (if b then [] else l) k Hp Hr)
    as (k' & E & Hp' & Hr' & _).
  { rewrite Eq. destruct b; [by rewrite app_nil_r|done]. }
  eapply runs_eq; [done|]. by apply check_runs.
Qed.

(** Every correct call of the kernel keeps the invariant, and none faults. *)
Lemma call_sys idle k c : sys idle k -> allowed idle k c ->
  exists k', run_call c k = Some (tt, k') /\ sys idle k'.
Proof.
  intros Hs Ha. cut (runs (run_call c) k (fun _ k' => sys idle k')).
  { intros ([] & k' & E & H). eauto. }
  pose proof Hs as [Hp (d & Hd & Hsd) _].
  destruct c; cbn [run_call]; try apply runs_sys_ret.
  - destruct (yield_sys idle k Hs) as (d' & k' & _ & E & Hs' & _). by exists tt, k'.
  - destruct Ha as [Hi Hne]. unfold _time_delay. case_if.
    + destruct (yield_sys idle k Hs) as (d' & k' & _ & E & Hs' & _). by exists tt, k'.
    + eapply runs_eq; [done|]. eapply runs_eq; [done|]. apply delay_call_sys; eauto.
  - destruct Ha as [Hi Hne]. unfold _time_delay_ticks. case_if.
    + destruct (yield_sys idle k Hs) as (d' & k' & _ & E & Hs' & _). by exists tt, k'.
    + eapply runs_eq; [done|]. eapply runs_eq; [done|]. apply delay_call_sys; eauto.
  - destruct Ha as [Hi Hne], n as [n|]; [|by apply err_then].
    eapply runs_eq; [done|]. eapply runs_eq; [done|]. apply delay_call_sys; eauto.
  - destruct Ha as [Hi Hne], n as [n|]; [|by apply err_then].
    eapply runs_eq; [done|]. apply delay_call_sys; eauto.
  - by apply set_priority_sys.
  - destruct Ha as [[e He] Hl].
    destruct (boost_run idle t priority e k Hs He) as (k' & E & H & _); [lia|by exists tt, k'].
  - destruct Ha as [e He].
    destruct (unboost_run idle t number_of_boosts e k Hs He) as (k' & E & H & _). by exists tt, k'.
  - by apply set_policy_sys.
  - by apply stop_preemption_sys.
  - by apply start_preemption_sys.
  - by apply task_ready_sys.
  - by apply taskq_create_sys.
  - by apply taskq_suspend_sys.
  - by apply taskq_resume_sys.
  - destruct (isr_enter_sys idle k Hs Ha) as (k' & E & H & _). by exists tt, k'.
  - destruct (isr_exit_sys idle k Hs Ha) as (k' & E & H & _). by exists tt, k'.
  - destruct (tick_run idle hw k Hs Ha) as (k' & E & H & _). exists tt, k'. by rewrite E.
Qed.

(** The states of the kernel that calls reach. *)
Inductive kreach (idle : Z) (k0 : kernel) : kernel -> Prop :=
  | kreach_start : kreach idle k0 k0
  | kreach_call k c k' : kreach idle k0 k -> allowed idle k c -> run_call c k = Some (tt, k') ->
      kreach idle k0 k'.

Lemma kreach_sys idle k0 k : sys idle k0 -> kreach idle k0 k -> sys idle k.
Proof.
  intros Hs. induction 1 as [|k c k' _ IH Ha E]; [done|].
  destruct (call_sys idle k c IH Ha) as (k'' & E' & H). congruence.
Qed.

(** ** The state after initialisation

    The idle task runs, the other tasks are on no queue yet. *)

Definition boot (tasks : gmap Z td) (idle p low : Z) (c : clock) : kernel :=
  Kernel tasks {[p := [idle]]} p idle [] ∅ ∅ ∅ [] 0 false [] low MQX_SCHED_FIFO
         _mqx_zero_tick_struct c.

Lemma boot_sys tasks idle p low c :
  (forall t d, tasks !! t = Some d ->
    PRIORITY d <= low + 2 /\ HOME_PRIORITY d <= low + 2 /\
    if decide (t = idle) then STATE d = READY /\ PRIORITY d = p else place_of d = nowhere) ->
  is_Some (tasks !! idle) -> sys idle (boot tasks idle p low c).
Proof.
  intros Ht [di Hdi]. pose proof (Ht idle di Hdi) as (Wi & Wi' & Hidle).
  rewrite decide_True in Hidle by done. destruct Hidle as [Hsi Hpi].
  assert (forall q, on {[p := [idle]]} q = if decide (p = q) then [idle] else []) as Eon.
  { intros q. unfold on. destruct (decide (p = q)) as [->|];
      [by rewrite lookup_singleton, decide_True|by rewrite lookup_singleton_ne]. }
  assert (forall q, on ∅ q = []) as Eem by (intros q; unfold on; by rewrite lookup_empty).
  assert (forall t d, tasks !! t = Some d -> place_of d =
            if decide (t = idle) then Place (Some p) false None None else nowhere) as Hpl.
  { intros t d Hd. destruct (Ht t d Hd) as (_ & _ & H). case_decide; [|done].
    destruct H as [H <-]. by apply place_ready. }
  assert (kinv (boot tasks idle p low c)) as Hk.
  { split.
    - split; cbn; intros *; rewrite ?Eon, ?Eem; try (case_decide; repeat constructor; set_solver);
        try by repeat constructor.
      intros Hd. destruct (Ht _ _ Hd) as (W1 & W2 & _). split_and!; [done|done|].
      intros H9. apply Hpl in Hd as Hp. unfold place_of in Hp. rewrite H9 in Hp.
        case_decide; by simplify_eq/=.
    - intros u. unfold home, at_place. cbn. destruct (tasks !! u) as [d|] eqn:E.
      + rewrite (Hpl u d E). split_and!; intros; rewrite ?Eon, ?Eem; repeat case_decide; set_solver.
      + split_and!; intros; rewrite ?Eon, ?Eem; repeat case_decide; set_solver. }
  split.
  - split; cbn; try done. by exists di.
  - by exists di.
  - intros d _ Hd _. cbn in *. congruence.
Qed.

(** A system with the tasks 1 and 2 at priority 3, 3 at 1, 4 at 4, and the idle
    task 9; the state after each of a few calls. *)
Definition ex_td (p : Z) : td :=
  Td BLOCKED p p 0 0 0 _mqx_zero_tick_struct _mqx_zero_tick_struct _mqx_zero_tick_struct 0.
Definition ex_clock : clock := Clock _mqx_zero_tick_struct _mqx_zero_tick_struct 200 300000 15.
Definition ex_tasks : gmap Z td :=
  <[1 := ex_td 3]> (<[2 := ex_td 3]> (<[3 := ex_td 1]> (<[4 := ex_td 4]> {[9 := with_STATE READY (ex_td 6)]}))).
Definition ex_boot : kernel := boot ex_tasks 9 6 4 ex_clock.

Definition after (c : kcall) (k : kernel) : kernel :=
  match run_call c k with Some (_, k') => k' | None => k end.

(** Task 1 creates a task queue by priority at 100, task 3 waits on it, task 4
    delays itself by two ticks, and then tasks 1 and 2 are ready, 1 running. *)
Definition ex_k : kernel :=
  after (Ready 2) (after (Ready 1) (after (DelayTicks 2) (after (Ready 4)
    (after (TaskqSuspend (Some 100)) (after (Ready 3) (after (TaskqCreate 8 (Some 100)) ex_boot)))))).

Lemma ex_boot_sys : sys 9 ex_boot.
Proof.
  apply boot_sys; [|by eexists]. intros t d. unfold ex_tasks.
  rewrite !lookup_insert, lookup_singleton.
  repeat (case_decide; [intros [= <-]; subst; done|]). done.
Qed.

Lemma after_sys idle c k : sys idle k -> allowed idle k c -> sys idle (after c k).
Proof.
  intros Hs Ha. destruct (call_sys idle k c Hs Ha) as (k' & E & H). unfold after. by rewrite E.
Qed.

Lemma after_reach idle c k0 k : sys idle k0 -> kreach idle k0 k -> allowed idle k c ->
  kreach idle k0 (after c k).
Proof.
  intros Hs Hr Ha. destruct (call_sys idle k c (kreach_sys _ _ _ Hs Hr) Ha) as (k' & E & H).
  unfold after. rewrite E. by eapply kreach_call.
Qed.

Lemma ex_k_reach : kreach 9 ex_boot ex_k.
Proof.
  unfold ex_k. repeat (apply after_reach; [exact ex_boot_sys| |]); [constructor|..].
  - intros q [= <-]. reflexivity.
  - eexists. split; [vm_compute; reflexivity|]. right. vm_compute. reflexivity.
  - split; [vm_compute; discriminate|]. intros q [= <-]. eexists. vm_compute. reflexivity.
  - eexists. split; [vm_compute; reflexivity|]. right. vm_compute. reflexivity.
  - split; [reflexivity|vm_compute; discriminate].
  - eexists. split; [vm_compute; reflexivity|]. right. vm_compute. reflexivity.
  - eexists. split; [vm_compute; reflexivity|]. right. vm_compute. reflexivity.
Qed.

Lemma ex_k_sys : sys 9 ex_k.
Proof. eapply kreach_sys; [exact ex_boot_sys|exact ex_k_reach]. Qed.

(** ** The properties *)

(** C5: From any sound state, whatever calls, interrupts and ticks follow: every
    task is on exactly the queues that its descriptor names, no queue holds a
    task twice, the timeout queue is sorted, the running task is ready, and
    outside of interrupts no ready task has a higher priority than the running
    one unless that one has stopped preemption. *)
Theorem sched_invariant idle k0 k :
  sys idle k0 -> kreach idle k0 k ->
  kinv k /\ is_ready k (ACTIVE_PTR k) /\
  (forall d, IN_ISR k = 0 -> TD k !! ACTIVE_PTR k = Some d -> preemptible d ->
     highest k (ACTIVE_PTR k)).
Proof.
  intros H0 Hr. pose proof (kreach_sys _ _ _ H0 Hr) as Hs.
  split_and!; [apply Hs|apply Hs|]. intros d. by eapply sys_highest.
Qed.

Lemma sched_invariant_witness : kinv ex_k /\ highest ex_k 1.
Proof.
  destruct (sched_invariant 9 ex_boot ex_k ex_boot_sys ex_k_reach) as (H1 & _ & H3).
  split; [exact H1|]. eapply (H3 (readied (ex_td 3))); vm_compute; reflexivity.
Defined.

(** C28: No correct call of the kernel follows a bad pointer or finds no task to
    run, in any state that calls reach. *)
Theorem calls_total idle k0 k c :
  sys idle k0 -> kreach idle k0 k -> allowed idle k c -> exists k', run_call c k = Some (tt, k').
Proof.
  intros H0 Hr Ha. destruct (call_sys idle k c (kreach_sys _ _ _ H0 Hr) Ha) as (k' & E & _). eauto.
Qed.

Lemma calls_total_witness : exists k', run_call (DelayTicks 3) ex_k = Some (tt, k').
Proof.
  apply (calls_total 9 ex_boot ex_k _ ex_boot_sys ex_k_reach).
  split; [vm_compute; reflexivity|vm_compute; discriminate].
Defined.

(** C21: A clock tick readies exactly the tasks whose timeout is not after the new
    time; the other tasks, the running one apart, keep their descriptors, and
    what is left on the timeout queue is what times out later. *)
Theorem tick_wakes idle hw k :
  sys idle k -> 0 < IN_ISR k ->
  exists k', _time_notify_kernel hw None None k = Some (tt, k') /\
    TIME (CLOCK k') = tick_clock hw k /\
    (forall u d, TD k !! u = Some d -> u <> ACTIVE_PTR k ->
       TD k' !! u = Some (wake (tick_clock hw k) d)) /\
    (forall u, u ∈ TIMEOUT_QUEUE k' <->
       u ∈ TIMEOUT_QUEUE k /\ TICKS (tick_clock hw k) < tmo_of (TD k) u).
Proof.
  intros Hs Hn. destruct (tick_run idle hw k Hs Hn) as (k' & E & Hs' & Ea & Ei & Et & _ & Hw).
  exists k'. split_and!; [by rewrite E|done|intros u d Hd Hu; by rewrite Hw, Hd|].
  assert (forall k0, sys idle k0 -> ACTIVE_PTR k0 ∉ TIMEOUT_QUEUE k0) as Hact.
  { intros k0 H0 Hi. apply in_timeout in Hi as (d & Hd & H8); [|apply H0].
    destruct H0 as [_ (e & He & Hse) _]. simplify_eq. by rewrite Hse in H8. }
  intros u. destruct (decide (u = ACTIVE_PTR k)) as [->|Hu].
  { pose proof (Hact k Hs). pose proof (Hact k' Hs') as H'. rewrite Ea in H'. tauto. }
  rewrite !in_timeout by (apply Hs' || apply Hs). split.
  - intros (d' & Hd' & H8). destruct (TD k !! u) as [d|] eqn:Ed.
    + rewrite (Hw u Hu), Ed in Hd'. simplify_eq/=. unfold wake, due, tmo_of in *. rewrite Ed.
      destruct (Z.testbit (STATE d) 8) eqn:E8; cbn [andb] in H8; [|congruence].
      destruct (Z.leb_spec (TICKS (TIMEOUT d)) (TICKS (tick_clock hw k))); [done|by split; [eauto|]].
    + by rewrite (Hw u Hu), Ed in Hd'.
  - intros [(d & Hd & H8) Hlt]. rewrite (Hw u Hu), Hd. eexists. split; [done|].
    unfold wake, due, tmo_of in *. rewrite Hd in Hlt. rewrite H8.
    by rewrite (proj2 (Z.leb_gt _ _) Hlt).
Qed.

(** In the interrupt of the second tick, task 4 is due. *)
Definition ex_isr : kernel := after IsrEnter (after IsrExit (after (Tick None) (after IsrEnter ex_k))).

Lemma ex_isr_sys : sys 9 ex_isr.
Proof.
  unfold ex_isr. repeat (apply after_sys; [|vm_compute; reflexivity]). exact ex_k_sys.
Qed.

Lemma tick_wakes_witness : exists k', _time_notify_kernel None None None ex_isr = Some (tt, k') /\
  TIMEOUT_QUEUE ex_isr = [4] /\ (4 ∈ TIMEOUT_QUEUE k' -> False).
Proof.
  destruct (tick_wakes 9 None ex_isr ex_isr_sys) as (k' & E & _ & _ & Hq); [vm_compute; reflexivity|].
  exists k'. split; [exact E|]. split; [vm_compute; reflexivity|].
  intros H. apply Hq in H as [_ H]. vm_compute in H. discriminate.
Defined.

Lemma switched_lists k k' : switched k k' -> TD k' = TD k /\ TIMEOUT_QUEUE k' = TIMEOUT_QUEUE k /\
  READY_Q_LIST k' = READY_Q_LIST k /\ QUEUES k' = QUEUES k /\ IN_ISR k' = IN_ISR k.
Proof. intros [->|[->|(p & t & -> & _)]]; done. Qed.

Lemma dispatched_highest k : kinv k -> dispatched k -> highest k (ACTIVE_PTR k).
Proof.
  intros Hk Hd. destruct (dispatched_td k Hk Hd) as (d & H1 & H2 & H3). by eapply current_highest.
Qed.

(** [_time_delay_ticks n] puts the calling task on the timeout queue with the
    timeout [n] ticks from now (modulo 2^64), behind the tasks that time out
    earlier and before those that time out then or later, and a ready task of
    the highest priority runs. *)
Theorem delay_ticks_ordered idle k n :
  sys idle k -> IN_ISR k = 0 -> ACTIVE_PTR k <> idle -> n <> 0 ->
  exists l1 l2 k' d', _time_delay_ticks n k = Some (tt, k') /\
    TIMEOUT_QUEUE k = l1 ++ l2 /\ TIMEOUT_QUEUE k' = l1 ++ ACTIVE_PTR k :: l2 /\
    TD k' !! ACTIVE_PTR k = Some d' /\ STATE d' = Z.lor READY IS_ON_TIMEOUT_Q /\
    TICKS (TIMEOUT d') = w64 (TICKS (TIME (CLOCK k)) + n) /\
    (forall u, u ∈ l1 -> tmo_of (TD k') u < TICKS (TIMEOUT d')) /\
    (forall u, u ∈ l2 -> TICKS (TIMEOUT d') <= tmo_of (TD k') u) /\
    highest k' (ACTIVE_PTR k').
Proof.
  intros Hs Hi Hne Hn. pose proof Hs as [_ (d & Hd & Hsd) _].
  set (f := fun d => with_TIMEOUT (PSP_ADD_TICKS_TO_TICK_STRUCT (TIME (CLOCK k)) n (TIMEOUT d)) d).
  destruct (delay_active_sys idle k f d Hs Hi Hne Hd) as
    (k1 & l1 & l2 & k' & Ht1 & Eq & H1 & H2 & E & Hs' & Hdp & Hw); [by eexists|].
  apply switched_lists in Hw as (Ht & Hq & _). cbn in Ht, Hq.
  set (d' := with_STATE _ _) in Ht.
  assert (forall u, u <> ACTIVE_PTR k -> tmo_of (TD k') u = tmo_of (TD k1) u) as Hsame.
  { intros u Hu. unfold tmo_of. by rewrite Ht, lookup_insert_ne. }
  assert (NoDup (l1 ++ ACTIVE_PTR k :: l2)) as Hnd by (rewrite <-Hq; apply (sh_tmo _ (proj1 (pre_inv _ _ (sys_pre _ _ Hs'))))).
  apply NoDup_app in Hnd as (N1 & N2 & N3). apply NoDup_cons in N3 as [N3 _].
  exists l1, l2, k', d'. split_and!; [|done|done| | |done| | |by apply dispatched_highest; [apply Hs'|]].
  - unfold _time_delay_ticks. rewrite (proj2 (Z.eqb_neq _ _) Hn). exact E.
  - by rewrite Ht, lookup_insert, decide_True.
  - cbn. by rewrite Hsd.
  - intros u Hu. rewrite Hsame by set_solver. by apply H1.
  - intros u Hu. rewrite Hsame by set_solver. by apply H2.
Qed.

Lemma delay_ticks_ordered_witness : exists k', _time_delay_ticks 2 ex_k = Some (tt, k') /\
  TIMEOUT_QUEUE k' = [1; 4] /\ highest k' 2.
Proof.
  destruct (delay_ticks_ordered 9 ex_k 2 ex_k_sys) as (l1 & l2 & k' & d' & E & Hq & Hq' & Hd' & _ & Ht & H1 & _ & Hh);
    [vm_compute; reflexivity|vm_compute; discriminate|discriminate|].
  exists k'. split; [exact E|].
  assert (match _time_delay_ticks 2 ex_k with
          | Some (_, k) => TIMEOUT_QUEUE k = [1; 4] /\ ACTIVE_PTR k = 2 | None => False end) as Hc
    by (vm_compute; split; reflexivity).
  rewrite E in Hc. destruct Hc as [Hc1 Hc2]. rewrite Hc2 in Hh. split; [exact Hc1|exact Hh].
Defined.

(** One turn of the round robin. *)
Lemma yield_rotate idle k a l :
  sys idle k -> IN_ISR k = 0 -> dispatched k ->
  on (READY_Q_LIST k) (CURRENT_READY_Q k) = a :: l ->
  exists k', _sched_yield k = Some (tt, k') /\ sys idle k' /\ dispatched k' /\ IN_ISR k' = 0 /\
    CURRENT_READY_Q k' = CURRENT_READY_Q k /\
    on (READY_Q_LIST k') (CURRENT_READY_Q k) = l ++ [a].
Proof.
  intros Hs Hi Hdp Hq. pose proof Hs as [Hp _ _].
  destruct (dispatched_td k (pre_inv _ _ Hp) Hdp) as (d & Hd & Hsd & Hpd).
  assert (ACTIVE_PTR k = a) as Ha by (pose proof (dp_head k Hdp) as H; rewrite Hq in H; by simplify_eq/=).
  destruct (requeue_run _ d k (pre_inv _ _ Hp) Hd Hsd) as (E & Hk1 & Hc).
  set (k1 := requeue_k (ACTIVE_PTR k) d k) in *.
  assert (pre idle k1) as Hp1 by (eapply pre_ctl; [done|done|apply requeue_td; [apply Hp|done]|done]).
  destruct (exec_task idle k1 Hp1) as (k' & E' & Hs' & Hdp' & Hw).
  { destruct Hc as (_ & -> & _). done. }
  assert (on (READY_Q_LIST k1) (CURRENT_READY_Q k) = l ++ [a]) as Hq1.
  { rewrite <-Hpd. unfold k1. rewrite on_requeue, Hpd, Hq, Ha by (done || apply Hp).
    rewrite without_cons; [done|]. pose proof (sh_ready _ (proj1 (pre_inv _ _ Hp)) (CURRENT_READY_Q k)) as Hnd.
    rewrite Hq in Hnd. by apply NoDup_cons in Hnd as [? _]. }
  pose proof (switched_lists _ _ Hw) as (_ & _ & Er & _ & Ei).
  assert (CURRENT_READY_Q k' = CURRENT_READY_Q k) as Ec.
  { destruct (Z.lt_trichotomy (CURRENT_READY_Q k') (CURRENT_READY_Q k)) as [Hlt|[|Hgt]]; [|done|].
    - pose proof (dp_head k' Hdp') as Hh. rewrite Er in Hh. unfold k1 in Hh.
      rewrite on_requeue_ne in Hh by (done || apply Hp || lia).
      by rewrite (dp_first k Hdp _ Hlt) in Hh.
    - pose proof (dp_first k' Hdp' _ Hgt) as Hh. rewrite Er, Hq1 in Hh. by destruct l. }
  exists k'. split_and!; [|done|done|by destruct Hc as (_ & Hc & _); congruence|done|by rewrite Er].
  unfold _sched_yield, active.
  rewrite (bind_run _ _ _ _ _ (eq_refl : gets ACTIVE_PTR k = Some (ACTIVE_PTR k, k))).
  rewrite bind_assoc_tt, (bind_run _ _ _ _ _ E). done.
Qed.

Fixpoint yields (n : nat) : M kernel unit :=
  match n with O => mret tt | S n' => _sched_yield;; yields n' end.

(** C29: Round robin: when the tasks of the highest priority only yield, after [i]
    yields the ready queue has rotated by [i], so each of its tasks runs in
    turn and no other does. *)
Theorem yield_round_robin idle k l1 a l2 :
  sys idle k -> IN_ISR k = 0 -> dispatched k ->
  on (READY_Q_LIST k) (CURRENT_READY_Q k) = l1 ++ a :: l2 ->
  exists k', yields (length l1) k = Some (tt, k') /\ ACTIVE_PTR k' = a /\
    on (READY_Q_LIST k') (CURRENT_READY_Q k) = a :: l2 ++ l1.
Proof.
  revert k l2. induction l1 as [|b l1 IH]; intros k l2 Hs Hi Hdp Hq.
  - exists k. split_and!; [done| |by rewrite Hq, app_nil_r].
    pose proof (dp_head k Hdp) as H. rewrite Hq in H. by simplify_eq/=.
  - destruct (yield_rotate idle k b (l1 ++ a :: l2) Hs Hi Hdp Hq) as (k1 & E & Hs1 & Hd1 & Hi1 & Ec & Hq1).
    destruct (IH k1 (l2 ++ [b]) Hs1 Hi1 Hd1) as (k' & E' & Ha & Hq').
    { by rewrite Ec, Hq1, <-app_assoc. }
    exists k'. split_and!; [|done|].
    + cbn [yields length]. by rewrite (bind_run _ _ _ _ _ E).
    + rewrite <-Ec, Hq', <-app_assoc. done.
Qed.

Lemma ex_k_dispatched : dispatched ex_k.
Proof.
  split; [vm_compute; reflexivity|]. intros p Hp.
  assert (forall m : gmap Z (list Z), map_Forall (fun q l => l = [] \/ 3 <= q) m ->
            forall q, q < 3 -> on m q = []) as H.
  { intros m Hm q Hq. unfold on. destruct (m !! q) as [l|] eqn:E; [|done].
    destruct (Hm q l E); [done|lia]. }
  apply H; [|vm_compute in Hp; exact Hp]. clear.
  apply (bool_decide_eq_true_1 _). vm_compute. reflexivity.
Qed.

Lemma yield_round_robin_witness : exists k', yields 1 ex_k = Some (tt, k') /\ ACTIVE_PTR k' = 2.
Proof.
  destruct (yield_round_robin 9 ex_k [1] 2 [] ex_k_sys) as (k' & E & Ha & _);
    [vm_compute; reflexivity|exact ex_k_dispatched|vm_compute; reflexivity|].
  exists k'. split; [exact E|exact Ha].
Defined.

Lemma lor_clear_pow2 x n : 0 <= n -> Z.testbit x n = false ->
  Z.land (Z.lor x (2 ^ n)) (Z.lnot (2 ^ n)) = x.
Proof.
  intros Hn Hb. apply Z.bits_inj'. intros m Hm.
  rewrite Z.land_spec, Z.lor_spec, Z.lnot_spec, Z.pow2_bits_eqb by done.
  destruct (Z.eqb_spec n m); [subst; by rewrite Hb|]. by rewrite orb_false_r, andb_true_r.
Qed.

(** A boost of a task that has none gives it the priority of the boost
    (whichever it was before), and taking the boost back restores its priority, its flags and
    its boost count; no other descriptor changes, and both leave the scheduler
    sound. *)
Theorem boost_unboost idle t p n d k :
  sys idle k -> TD k !! t = Some d -> p <= LOWEST_TASK_PRIORITY k -> 0 < n ->
  BOOSTED d = 0 -> Z.land (FLAGS d) TASK_PRIORITY_BOOSTED = 0 -> PRIORITY d = HOME_PRIORITY d ->
  exists k1 d1 k2 d2, _sched_boost_priority_internal t p k = Some (tt, k1) /\
    TD k1 !! t = Some d1 /\ PRIORITY d1 = p /\ STATE d1 = STATE d /\
    _sched_unboost_priority_internal t n k1 = Some (tt, k2) /\ sys idle k2 /\
    TD k2 !! t = Some d2 /\ PRIORITY d2 = PRIORITY d /\ STATE d2 = STATE d /\
    FLAGS d2 = FLAGS d /\ BOOSTED d2 = 0 /\
    (forall u, u <> t -> TD k2 !! u = TD k !! u).
Proof.
  intros Hs Hd Hp Hn Hb Hf Hh.
  destruct (boost_run idle t p d k Hs Hd) as (k1 & E1 & Hs1 & Hsb1); [lia|].
  set (d0 := with_BOOSTED _ _) in Hsb1. set (d1 := reprio p d0) in Hsb1.
  assert (TD k1 !! t = Some d1) as Hd1 by (rewrite (proj1 Hsb1), lookup_insert, decide_True by done; done).
  assert (FLAGS d1 = Z.lor (FLAGS d) TASK_PRIORITY_BOOSTED /\ BOOSTED d1 = 1 /\
          HOME_PRIORITY d1 = HOME_PRIORITY d) as (F1 & F2 & F3).
  { unfold d1, reprio, d0. cbn. rewrite Hb. by case_if. }
  destruct (unboost_run idle t n d1 k1 Hs1 Hd1) as (k2 & E2 & Hs2 & Hsb2).
  assert (Z.testbit (FLAGS d) 15 = false) as Hb15.
  { apply Z.eqb_eq in Hf. change TASK_PRIORITY_BOOSTED with (2 ^ 15) in Hf.
    rewrite (land_pow2_eqb _ 15) in Hf by lia. by apply negb_true_iff in Hf. }
  assert ((Z.land (FLAGS d1) TASK_PRIORITY_BOOSTED =? 0) = false) as Hon.
  { rewrite F1. change TASK_PRIORITY_BOOSTED with (2 ^ 15). rewrite (land_pow2_eqb _ 15) by lia.
    rewrite Z.lor_spec. change (Z.testbit (2 ^ 15) 15) with true. by rewrite orb_true_r. }
  unfold unboosted in Hsb2. rewrite Hon, (proj2 (Z.ltb_ge n (BOOSTED d1)) ltac:(lia)), F3 in Hsb2.
  set (d2 := reprio _ _) in Hsb2.
  assert (STATE d1 = STATE d) as Hst by (unfold d1; by rewrite reprio_state).
  exists k1, d1, k2, d2. split_and!.
  - done.
  - done.
  - apply reprio_prio.
  - done.
  - done.
  - done.
  - rewrite (proj1 Hsb2), lookup_insert, decide_True by done. done.
  - unfold d2. by rewrite reprio_prio.
  - unfold d2. rewrite reprio_state. exact Hst.
  - assert (FLAGS d2 = Z.land (FLAGS d1) (Z.lnot TASK_PRIORITY_BOOSTED)) as -> by (unfold d2, reprio; by case_if).
    rewrite F1. by apply (lor_clear_pow2 _ 15).
  - unfold d2, reprio. by case_if.
  - intros u Hu. by rewrite (proj1 Hsb2), (proj1 Hsb1), !lookup_insert_ne.
Qed.

Lemma boost_unboost_witness : exists k1 k2, _sched_boost_priority_internal 2 1 ex_k = Some (tt, k1) /\
  ACTIVE_PTR k1 = 2 /\ _sched_unboost_priority_internal 2 1 k1 = Some (tt, k2) /\ sys 9 k2.
Proof.
  destruct (boost_unboost 9 2 1 1 (readied (ex_td 3)) ex_k ex_k_sys) as (k1 & d1 & k2 & d2 & E1 & _ & _ & _ & E2 & Hs & _);
    [vm_compute; reflexivity|vm_compute; discriminate|reflexivity..|].
  exists k1, k2. split; [exact E1|]. split; [|split; [exact E2|exact Hs]].
  assert (match _sched_boost_priority_internal 2 1 ex_k with
          | Some (_, k) => ACTIVE_PTR k = 2 | None => False end) as Hc by (vm_compute; reflexivity).
  rewrite E1 in Hc. exact Hc.
Defined.

Lemma gets_run {A} (f : kernel -> A) k : gets f k = Some (f k, k).
Proof. done. Qed.
Lemma get_taskq_run q tq k : TASKQ k !! q = Some tq -> get_taskq q k = Some (tq, k).
Proof. intros H. unfold get_taskq, mbind, M_bind, gets, lift_opt, id. by rewrite H. Qed.

(** [_taskq_suspend] puts the calling task on the task queue, at the end of a
    FIFO queue, and on a queue by priority behind all tasks up to the first one
    of a lower priority; a ready task of the highest priority runs. *)
Theorem taskq_suspend_order idle k q tq d :
  sys idle k -> IN_ISR k = 0 -> ACTIVE_PTR k <> idle -> TD k !! ACTIVE_PTR k = Some d ->
  TASKQ k !! q = Some tq -> VALID tq = TASK_QUEUE_VALID ->
  exists l1 l2 k', _taskq_suspend (Some q) k = Some (MQX_OK, k') /\
    on (QUEUES k) q = l1 ++ l2 /\ on (QUEUES k') q = l1 ++ ACTIVE_PTR k :: l2 /\
    (if Z.land (POLICY tq) MQX_TASK_QUEUE_BY_PRIORITY =? 0 then l2 = []
     else (forall u, u ∈ l1 -> prio_of (TD k) u <= PRIORITY d) /\
          match l2 with [] => True | u :: _ => PRIORITY d < prio_of (TD k) u end) /\
    TD k' !! ACTIVE_PTR k = Some (tq_blocked q d) /\ highest k' (ACTIVE_PTR k').
Proof.
  intros Hs Hi Hne Hd Htq Hv. pose proof Hs as [Hp (d0 & Hd0 & Hsd) _]. simplify_eq.
  destruct (taskq_block_run (ACTIVE_PTR k) k q tq d (pre_inv _ _ Hp) Hd Hsd)
    as (l1 & l2 & k1 & Hq & Hord & E & Hk1 & Hc & Ht & Hq1).
  destruct (exec_task idle k1) as (k' & E' & Hs' & Hdp & Hw).
  { eapply pre_ctl; [done|done| |done]. destruct Hp as [_ (e & He & Hse) _ _ _]. exists e.
    by rewrite Ht, lookup_insert_ne. }
  { destruct Hc as (_ & -> & _). done. }
  pose proof (switched_lists _ _ Hw) as (Et & _ & _ & Eq & _).
  exists l1, l2, k'. split_and!; [|done| |done| |apply dispatched_highest; [apply Hs'|done]].
  - unfold _taskq_suspend. rewrite (bind_run _ _ _ _ _ (gets_run IN_ISR k)), Hi.
    cbn [negb Z.eqb]. rewrite (bind_run _ _ _ _ _ (gets_run ACTIVE_PTR k)).
    rewrite (bind_run _ _ _ _ _ (get_taskq_run _ _ _ Htq)), Hv, Z.eqb_refl.
    cbn [negb]. by rewrite (bind_run _ _ _ _ _ E), (bind_run _ _ _ _ _ E').
  - by rewrite Eq, Hq1, on_insert, decide_True.
  - by rewrite Et, Ht, lookup_insert, decide_True.
Qed.

Lemma taskq_suspend_order_witness : exists k', _taskq_suspend (Some 100) ex_k = Some (MQX_OK, k') /\
  highest k' (ACTIVE_PTR k').
Proof.
  destruct (taskq_suspend_order 9 ex_k 100 (Taskq 8 TASK_QUEUE_VALID) (readied (ex_td 3)) ex_k_sys)
    as (l1 & l2 & k' & E & _ & _ & _ & _ & Hh);
    [vm_compute; reflexivity|vm_compute; discriminate|vm_compute; reflexivity..|].
  exists k'. split; [exact E|exact Hh].
Defined.

(** A call that readies a task of a higher priority switches to it even when
    the running task has stopped preemption: [_CHECK_RUN_SCHEDULER] compares
    ready queues only.  Only the return from an interrupt looks at the flag. *)
Theorem resume_preempts idle k q t l d tq :
  sys idle k -> IN_ISR k = 0 -> TASKQ k !! q = Some tq -> VALID tq = TASK_QUEUE_VALID ->
  on (QUEUES k) q = t :: l -> TD k !! t = Some d -> PRIORITY d < CURRENT_READY_Q k ->
  exists k0 k', _task_stop_preemption k = Some (tt, k0) /\
    _taskq_resume (Some q) false k0 = Some (MQX_OK, k') /\ ACTIVE_PTR k' = t.
Proof.
  intros Hs Hi Htq Hv Hq Hd Hlt. pose proof Hs as [Hp (a & Ha & Hsa) _].
  pose proof (pre_inv _ _ Hp) as Hk.
  set (k0 := set_TD (<[ACTIVE_PTR k := with_FLAGS (Z.lor (FLAGS a) TASK_PREEMPTION_DISABLED) a]>) k).
  assert (_task_stop_preemption k = Some (tt, k0)) as E0
    by exact (upd_td_run _ (fun d => with_FLAGS (Z.lor (FLAGS d) TASK_PREEMPTION_DISABLED) d) _ _ Ha).
  assert (ACTIVE_PTR k <> t) as Hat.
  { intros <-. assert (ACTIVE_PTR k ∈ on (QUEUES k) q) as Hin by (rewrite Hq; set_solver).
    apply in_own in Hin as (e & He & H9 & _); [|done]. simplify_eq. by rewrite Hsa in H9. }
  set (k1 := ready_k t d (set_QUEUES (<[q := l]>) k0)).
  assert (ready_all [t] q k0 = Some (tt, k1)) as E1.
  { transitivity ((_task_ready_internal t;; mret tt) (set_QUEUES (<[q := tail (on (QUEUES k) q)]>) k0)); [done|].
    rewrite Hq. cbn [tail]. erewrite bind_run; [|apply task_ready_run; cbn; by rewrite lookup_insert_ne].
    done. }
  assert (forall p, p < CURRENT_READY_Q k -> on (READY_Q_LIST k) p = []) as Hlow.
  { intros p Hpc. destruct (on (READY_Q_LIST k) p) as [|u r] eqn:Er; [done|].
    pose proof (sh_cur _ (proj1 Hk) p u) as H. rewrite Er in H. specialize (H ltac:(set_solver)). lia. }
  assert (CURRENT_READY_Q k1 = PRIORITY d) as Ec by (cbn; lia).
  assert (on (READY_Q_LIST k1) (PRIORITY d) = [t]) as Er.
  { cbn. rewrite on_insert, decide_True by done. by rewrite Hlow. }
  assert (_sched_check_scheduler_internal k1 = Some (tt, set_ACTIVE (PRIORITY d) t k1)) as E2.
  { unfold _sched_check_scheduler_internal. rewrite (bind_run _ _ _ _ _ (gets_run IN_ISR k1)).
    change (IN_ISR k1) with (IN_ISR k). rewrite Hi. cbn [negb Z.eqb].
    rewrite (bind_run _ _ _ _ _ (gets_run CURRENT_READY_Q k1)), Ec.
    rewrite (bind_run _ _ _ _ _ (gets_run ACTIVE_PTR k1)).
    erewrite bind_run.
    2:{ apply get_td_run. cbn. rewrite lookup_insert_ne, lookup_insert, decide_True by done. done. }
    assert (CURRENT_READY_Q k <= PRIORITY a) as Hca.
    { apply (sh_cur _ (proj1 Hk) _ (ACTIVE_PTR k)), in_ready; eauto. }
    cbn [PRIORITY with_FLAGS]. rewrite (proj2 (Z.eqb_neq _ _)) by lia.
    unfold _pend_svc. rewrite Ec. destruct (Z.to_nat _); cbn [find_noempty_que]; by rewrite Er. }
  exists k0, (set_ACTIVE (PRIORITY d) t k1). split_and!; [done| |done].
  unfold _taskq_resume. rewrite (bind_run _ _ _ _ _ (get_taskq_run q tq k0 Htq)), Hv, Z.eqb_refl.
  cbn [negb]. rewrite (bind_run _ _ _ _ _ (gets_run QUEUES k0)).
  change (QUEUES k0) with (QUEUES k). rewrite Hq.
  by rewrite (bind_run _ _ _ _ _ E1), (bind_run _ _ _ _ _ E2).
Qed.

Lemma resume_preempts_witness : exists k0 k', _task_stop_preemption ex_k = Some (tt, k0) /\
  _taskq_resume (Some 100) false k0 = Some (MQX_OK, k') /\ ACTIVE_PTR k' = 3.
Proof.
  apply (resume_preempts 9 ex_k 100 3 [] (tq_blocked 100 (readied (ex_td 1))) (Taskq 8 TASK_QUEUE_VALID) ex_k_sys);
    vm_compute; reflexivity.
Defined.
End Kernel.
