(* ===== verification/Frame.v ===== *)
(** * What other calls do to a task that waits

    The components that block tasks are clients of the scheduler: while a task
    waits for an object, other tasks run, interrupts come and the clock ticks.
    [quiet] are the calls that can happen next to the operations of such a
    component, and [frame] is what they leave alone. *)

From S2P Require Import Prelude Clocks Kernel.

Module Frame.

Export Kernel.

#[local] Arguments Z.testbit : simpl never.
#[local] Arguments Z.land : simpl never.
#[local] Arguments Z.lor : simpl never.

Lemma zoom_active {S} {get : S -> kernel} {set : kernel -> S -> S} `{!ZoomLaw get set} (s : S) :
  zoom get set active s = Some (ACTIVE_PTR (get s), s).
Proof. by apply zoom_read. Qed.

Lemma switched_aux k k' : switched k k' -> AUX_QUEUES k' = AUX_QUEUES k.
Proof. intros [->|[->|(p & t & -> & _)]]; done. Qed.

(** ** What other kernel calls do to a waiting task

    A call that is not about the object leaves [INFO] alone.  A task on the
    auxiliary link waits on or, if it waits with a timeout, is woken; a task
    on the own link waits on. *)

Definition undisturbed (d d' : td) : Prop :=
  INFO d' = INFO d /\
  (Z.testbit (STATE d) 10 = true ->
     STATE d' = STATE d \/ (Z.testbit (STATE d) 8 = true /\ Z.testbit (STATE d') 10 = false)) /\
  (Z.testbit (STATE d) 10 = false -> Z.testbit (STATE d') 10 = false) /\
  (Z.testbit (STATE d) 9 = true -> STATE d' = STATE d) /\
  (Z.testbit (STATE d) 9 = false -> Z.testbit (STATE d') 9 = false).

Definition frame (k k' : kernel) : Prop :=
  forall t, match TD k !! t, TD k' !! t with
            | Some d, Some d' => undisturbed d d'
            | None, None => True
            | _, _ => False
            end.

Lemma undisturbed_same d d' : INFO d' = INFO d -> STATE d' = STATE d -> undisturbed d d'.
Proof. intros H1 H2. unfold undisturbed. rewrite H2. auto. Qed.

#[export] Instance undisturbed_preorder : PreOrder undisturbed.
Proof.
  split; [intros d; by apply undisturbed_same|].
  intros d1 d2 d3 (A1 & A2 & A3 & A4 & A5) (B1 & B2 & B3 & B4 & B5).
  split_and!; [congruence| |auto| |auto].
  - intros H. destruct (A2 H) as [E|[E8 E]]; [|right; auto].
    rewrite E in B2. destruct (B2 H) as [E'|[E8 E']]; [left; congruence|right; auto].
  - intros H. rewrite <-(A4 H). apply B4. by rewrite (A4 H).
Qed.

#[export] Instance frame_preorder : PreOrder frame.
Proof.
  split.
  - intros k t. destruct (TD k !! t); [reflexivity|done].
  - intros k1 k2 k3 H1 H2 t. specialize (H1 t). specialize (H2 t).
    destruct (TD k1 !! t), (TD k2 !! t), (TD k3 !! t); try done. by etrans.
Qed.

Lemma frame_eq k k' : TD k' = TD k -> frame k k'.
Proof. intros E t. rewrite E. destruct (TD k !! t); [reflexivity|done]. Qed.

Lemma frame_insert k k' t d d' : TD k' = <[t:=d']> (TD k) -> TD k !! t = Some d ->
  undisturbed d d' -> frame k k'.
Proof.
  intros E Hd Hu u. rewrite E, lookup_insert. case_decide; [subst; by rewrite Hd|].
  destruct (TD k !! u); [reflexivity|done].
Qed.

Lemma frame_td k k' t d : frame k k' -> TD k !! t = Some d ->
  exists d', TD k' !! t = Some d' /\ undisturbed d d'.
Proof. intros H Hd. specialize (H t). rewrite Hd in H. destruct (TD k' !! t); [eauto|done]. Qed.

Lemma frame_td' k k' t d' : frame k k' -> TD k' !! t = Some d' ->
  exists d, TD k !! t = Some d /\ undisturbed d d'.
Proof. intros H Hd. specialize (H t). rewrite Hd in H. destruct (TD k !! t); [eauto|done]. Qed.

Lemma frame_switched k k' : switched k k' -> frame k k'.
Proof. intros H. apply frame_eq. by apply switched_lists in H as (-> & _). Qed.

Lemma check_frame k a k' : _sched_check_scheduler_internal k = Some (a, k') -> frame k k'.
Proof.
  unfold _sched_check_scheduler_internal, active, mbind, M_bind, gets, mret, M_ret.
  destruct (negb _); [by intros [= <- <-]|].
  destruct (get_td (ACTIVE_PTR k) k) as [[d k0]|] eqn:E0; [|done].
  unfold get_td in E0. destruct (TD k !! ACTIVE_PTR k); [|done]. injection E0 as <- <-.
  destruct (_ =? _); [by intros [= <- <-]|]. unfold _pend_svc. case_match; [|done]. case_match.
  intros [= <- <-]. by apply frame_eq.
Qed.

(** The kernel calls that can happen next to the operations of an object. *)
Definition quiet (c : kcall) : bool :=
  match c with
  | Yield | Delay _ | DelayTicks _ | DelayFor (Some _) | DelayUntil (Some _) | Boost _ _
  | Unboost _ _ | StopPreemption | StartPreemption | Ready _ | IsrEnter | IsrExit | Tick _ => true
  | _ => false
  end.

Lemma undisturbed_ready d d' : INFO d' = INFO d -> STATE d = READY ->
  Z.testbit (STATE d') 10 = false -> Z.testbit (STATE d') 9 = false -> undisturbed d d'.
Proof. intros H1 H2 H3 H4. unfold undisturbed. rewrite H2. by split_and!. Qed.

Lemma undisturbed_reprio p d : undisturbed d (reprio p d).
Proof.
  apply undisturbed_same; [|apply reprio_state]. unfold reprio. by destruct (STATE d =? READY).
Qed.

Lemma undisturbed_wake low now d : wf_td low d -> undisturbed d (wake now d).
Proof.
  intros (_ & _ & W). unfold wake, due.
  destruct (Z.testbit (STATE d) 8) eqn:E8; cbn [andb]; [|reflexivity].
  case_match; [|reflexivity]. unfold undisturbed. cbn. split_and!; [done|by right|done| |done].
  intros H9. by destruct (W H9).
Qed.

Lemma delay_frame idle k f :
  sys idle k -> IN_ISR k = 0 -> ACTIVE_PTR k <> idle ->
  (forall e, exists n, f e = with_TIMEOUT n e) ->
  runs (upd_td (ACTIVE_PTR k) f;; _time_delay_internal (ACTIVE_PTR k)) k
       (fun _ k' => sys idle k' /\ frame k k').
Proof.
  intros Hs Hi Hne Hf. pose proof Hs as [_ (d & Hd & Hsd) _].
  destruct (delay_active_sys idle k f d Hs Hi Hne Hd Hf) as (k1 & l1 & l2 & k' & Ht1 & _ & _ & _ & E & H & _ & Hw).
  exists tt, k'. split_and!; [done|done|].
  destruct (Hf d) as [n Hn]. etrans; [|by apply frame_switched].
  eapply (frame_insert _ _ (ACTIVE_PTR k)); [cbn; by rewrite Ht1, insert_insert, decide_True|done|].
  rewrite Hn. apply undisturbed_ready; cbn; by rewrite ?Hsd.
Qed.

Lemma yield_frame idle k : sys idle k -> runs _sched_yield k (fun _ k' => sys idle k' /\ frame k k').
Proof.
  intros Hs. pose proof Hs as [_ (d0 & Hd0 & Hsd) _].
  destruct (yield_sys idle k Hs) as (d & k' & Hd & E & Hs' & Hw). simplify_eq.
  exists tt, k'. split_and!; [done|done|]. etrans; [|by apply frame_switched].
  eapply frame_insert; [done|done|]. apply undisturbed_ready; cbn; by rewrite ?Hsd.
Qed.

(** [_task_set_error] changes nothing but an error code. *)
Lemma set_error_frame e k a k' : _task_set_error e k = Some (a, k') -> frame k k'.
Proof.
  assert (forall old k0, _task_get_error k = Some (old, k0) -> k0 = k) as Hg.
  { intros old k0. unfold _task_get_error, active, mbind, M_bind, gets, mret, M_ret, lift_opt.
    destruct (negb _); [destruct (head _); by intros [= _ <-]|].
    destruct (get_td (ACTIVE_PTR k) k) as [[d k1]|] eqn:E0; [|done]. intros [= _ <-].
    unfold get_td in E0. destruct (TD k !! ACTIVE_PTR k); [|done]. by injection E0 as _ <-. }
  unfold _task_set_error. unfold mbind at 1, M_bind at 1.
  destruct (_task_get_error k) as [[old k0]|] eqn:E0; [|done]. rewrite (Hg _ _ eq_refl). clear E0 Hg.
  unfold active, mbind, M_bind, gets, mret, M_ret.
  destruct (_ || _); [|by intros [= <- <-]].
  destruct (negb _); [intros [= <- <-]; by apply frame_eq|].
  unfold upd_td. destruct (TD k !! ACTIVE_PTR k) as [d|] eqn:Hd; [|done].
  intros [= <- <-]. eapply frame_insert; [done|done|]. by apply undisturbed_same.
Qed.

Lemma ready_frame idle k t : sys idle k -> allowed idle k (Ready t) ->
  runs (run_call (Ready t)) k (fun _ k' => sys idle k' /\ frame k k').
Proof.
  intros Hs Ha. destruct (task_ready_sys idle k t Hs Ha) as ([] & k' & E & Hs').
  exists tt, k'. split_and!; [exact E|done|]. destruct Ha as (d & Hd & Hor).
  unfold _task_ready in E. rewrite (bind_run _ _ _ _ _ (get_td_run t d k Hd)) in E.
  destruct (Z.eqb_spec (STATE d) READY) as [Er|Er].
  - unfold mbind at 1, M_bind at 1 in E.
    destruct (_task_set_error MQX_INVALID_TASK_STATE k) as [[a k1]|] eqn:E1; [|done].
    injection E as <-. by eapply set_error_frame.
  - destruct Hor as [|Hpl]; [done|]. rewrite (bind_run _ _ _ _ _ (task_ready_run t d k Hd)) in E.
    etrans; [|eapply check_frame; exact E].
    eapply (frame_insert _ _ t d); [done|done|]. unfold place_of, nowhere in Hpl.
    injection Hpl as _ H8 H9 H10.
    assert (Z.testbit (STATE d) 10 = false) as B10 by (by destruct (Z.testbit (STATE d) 10)).
    assert (Z.testbit (STATE d) 9 = false) as B9 by (by destruct (Z.testbit (STATE d) 9)).
    unfold undisturbed. cbn. rewrite B9, B10. by split_and!.
Qed.

Lemma quiet_call idle k c : sys idle k -> allowed idle k c -> quiet c = true ->
  runs (run_call c) k (fun _ k' => sys idle k' /\ frame k k').
Proof.
  intros Hs Ha Hq. pose proof Hs as [Hp (d & Hd & Hsd) _].
  destruct c as [|ms|n|[n|]|[n|]|id p|t p|t n|id p| | |t|p mem|q|q b| | |hw]; try discriminate; cbn [run_call].
  - by apply yield_frame.
  - destruct Ha as [Hi Hne]. unfold _time_delay. case_if; [by apply yield_frame|].
    eapply runs_eq; [done|]. eapply runs_eq; [done|]. apply delay_frame; eauto.
  - destruct Ha as [Hi Hne]. unfold _time_delay_ticks. case_if; [by apply yield_frame|].
    eapply runs_eq; [done|]. eapply runs_eq; [done|]. apply delay_frame; eauto.
  - destruct Ha as [Hi Hne]. eapply runs_eq; [done|]. eapply runs_eq; [done|]. apply delay_frame; eauto.
  - destruct Ha as [Hi Hne]. eapply runs_eq; [done|]. apply delay_frame; eauto.
  - destruct Ha as [[e He] Hl]. destruct (boost_run idle t p e k Hs He) as (k' & E & H & Hsb); [lia|].
    exists tt, k'. split_and!; [done|done|]. eapply frame_insert; [apply Hsb|done|].
    etrans; [|apply undisturbed_reprio]. by apply undisturbed_same.
  - destruct Ha as [e He]. destruct (unboost_run idle t n e k Hs He) as (k' & E & H & Hsb).
    exists tt, k'. split_and!; [done|done|]. eapply frame_insert; [apply Hsb|done|]. unfold unboosted.
    case_match; [reflexivity|]. case_match; [by apply undisturbed_same|].
    etrans; [|apply undisturbed_reprio]. by apply undisturbed_same.
  - destruct (stop_preemption_sys idle k Hs) as ([] & k' & E & H). exists tt, k'. split_and!; [done|done|].
    unfold _task_stop_preemption, active, mbind, M_bind, gets in E. rewrite (upd_td_run _ _ _ _ Hd) in E.
    injection E as <-. eapply frame_insert; [done|done|]. by apply undisturbed_same.
  - destruct (start_preemption_sys idle k Hs) as ([] & k' & E & H). exists tt, k'. split_and!; [done|done|].
    unfold _task_start_preemption, active in E.
    rewrite (bind_run _ _ _ _ _ (gets_run ACTIVE_PTR k)), (bind_run _ _ _ _ _ (upd_td_run _ _ _ _ Hd)) in E.
    set (k1 := set_TD _ k) in E.
    assert (frame k k1) as H1 by (eapply frame_insert; [done|done|]; by apply undisturbed_same).
    etrans; [exact H1|]. by eapply check_frame.
  - by apply ready_frame.
  - destruct (isr_enter_sys idle k Hs Ha) as (k' & E & H & _ & Ht & _). exists tt, k'.
    split_and!; [done|done|by apply frame_eq].
  - destruct (isr_exit_sys idle k Hs Ha) as (k' & E & H & _ & Ht & _). exists tt, k'.
    split_and!; [done|done|by apply frame_eq].
  - destruct (tick_run idle hw k Hs Ha) as (k' & E & H & _ & _ & _ & (e & e' & He & He' & Hse & Hie) & Hw).
    exists tt, k'. split_and!; [by rewrite E|done|]. intros t.
    destruct (decide (t = ACTIVE_PTR k)) as [->|Ht].
    + rewrite He, He'. by apply undisturbed_same.
    + rewrite (Hw t Ht). destruct (TD k !! t) eqn:Et; [|done].
      eapply undisturbed_wake, (sh_td _ (proj1 (pre_inv _ _ Hp)) _ _ Et).
Qed.

Lemma frame_dom k k' : frame k k' -> dom (TD k') = dom (TD k).
Proof.
  intros H. apply set_eq. intros t. rewrite !elem_of_dom. specialize (H t).
  destruct (TD k !! t), (TD k' !! t); try done; split; intros [? ?]; done.
Qed.

(** ** What a computation does not change *)

Section keeps.
Context {B : Type} (f : kernel -> B).

Definition keeps {A} (m : M kernel A) : Prop :=
  forall k a k', m k = Some (a, k') -> f k' = f k.

Lemma keeps_ret {A} (a : A) : keeps (mret a).
Proof. by intros k a' k' [= <- <-]. Qed.

Lemma keeps_gets {A} (g : kernel -> A) : keeps (gets g).
Proof. by intros k a' k' [= <- <-]. Qed.

Lemma keeps_lift {A} (o : option A) : keeps (lift_opt o).
Proof. intros k a k'. unfold lift_opt. destruct o; [|done]. by intros [= <- <-]. Qed.

Lemma keeps_modify g : (forall k, f (g k) = f k) -> keeps (modify g).
Proof. intros H k a k' [= <- <-]. apply H. Qed.

Lemma keeps_get_td t : keeps (get_td t).
Proof. intros k a k'. unfold get_td. destruct (TD k !! t); [|done]. by intros [= <- <-]. Qed.

Lemma keeps_upd_td t g : (forall h k, f (set_TD h k) = f k) -> keeps (upd_td t g).
Proof. intros H k a k'. unfold upd_td. destruct (TD k !! t); [|done]. intros [= <- <-]. apply H. Qed.

Lemma keeps_bind {A C} (m : M kernel A) (g : A -> M kernel C) :
  keeps m -> (forall a, keeps (g a)) -> keeps (m ≫= g).
Proof.
  intros Hm Hg k c k'. unfold mbind, M_bind. destruct (m k) as [[a k1]|] eqn:E; [|done].
  intros E'. rewrite (Hg a k1 c k' E'). by eapply Hm.
Qed.

Lemma keeps_pend_svc : (forall p t k, f (set_ACTIVE p t k) = f k) -> keeps _pend_svc.
Proof.
  intros H k a k'. unfold _pend_svc. destruct (find_noempty_que _ _ _) as [[p t]|]; [|done].
  intros [= <- <-]. apply H.
Qed.
End keeps.

(** The queues of objects and the range of the priorities. *)
Definition still (k : kernel) : gmap Z (list Z) * Z := (QUEUES k, LOWEST_TASK_PRIORITY k).

(** The flags of a descriptor that the calls in [quiet] do not use. *)
Definition SCHED_FLAGS : Z := Z.lor TASK_PREEMPTION_DISABLED TASK_PRIORITY_BOOSTED.
Definition other_flags (d : td) : Z := Z.land (FLAGS d) (Z.lnot SCHED_FLAGS).
Definition flags_of (k : kernel) : gmap Z Z := other_flags <$> TD k.

(** What depends only on these. *)
Class Untouched {B} (f : kernel -> B) : Prop := {
  un_same k k' : TD k' = TD k -> still k' = still k -> f k' = f k;
  un_td t g : (forall d, other_flags (g d) = other_flags d) -> keeps f (upd_td t g)
}.

Lemma land_mask_other x c m : Z.land c m = 0 ->
  Z.land (Z.lor x c) m = Z.land x m /\ Z.land (Z.land x (Z.lnot c)) m = Z.land x m.
Proof.
  intros Hc. split.
  - by rewrite Z.land_lor_distr_l, Hc, Z.lor_0_r.
  - rewrite <-Z.land_assoc. f_equal. apply Z.bits_inj'. intros n Hn.
    rewrite Z.land_spec, Z.lnot_spec by done.
    assert (Z.testbit (Z.land c m) n = false) as Hb by (rewrite Hc; apply Z.bits_0).
    rewrite Z.land_spec in Hb. by destruct (Z.testbit c n), (Z.testbit m n).
Qed.

Lemma other_flags_set d c : Z.land c (Z.lnot SCHED_FLAGS) = 0 ->
  other_flags (with_FLAGS (Z.lor (FLAGS d) c) d) = other_flags d /\
  other_flags (with_FLAGS (Z.land (FLAGS d) (Z.lnot c)) d) = other_flags d.
Proof. intros Hc. apply land_mask_other, Hc. Qed.

#[export] Instance still_untouched : Untouched still.
Proof.
  split; [done|]. intros t g _ k a k'. unfold upd_td. destruct (TD k !! t); [|done]. by intros [= <- <-].
Qed.

#[export] Instance flags_untouched : Untouched flags_of.
Proof.
  split; [unfold flags_of; by intros k k' ->|]. intros t g Hg k a k'. unfold upd_td.
  destruct (TD k !! t) as [d|] eqn:Hd; [|done]. intros [= <- <-]. unfold flags_of. cbn.
  apply map_eq. intros u. rewrite !lookup_fmap, lookup_insert. case_decide; [|done].
  subst. rewrite Hd. cbn. by rewrite Hg.
Qed.

Ltac same_flags :=
  intros;
  first [ reflexivity
        | apply other_flags_set; reflexivity
        | match goal with |- other_flags (with_FLAGS ?x (?g ?d)) = _ =>
            change (other_flags (with_FLAGS x d) = other_flags d); apply other_flags_set; reflexivity
          end ].

Ltac keep_still :=
  repeat first
    [ assumption
    | apply keeps_ret | apply keeps_gets | apply keeps_lift | apply keeps_get_td
    | apply keeps_upd_td; intros; reflexivity
    | apply un_td; same_flags
    | apply keeps_pend_svc; intros; first [reflexivity | apply un_same; reflexivity]
    | apply keeps_modify; intros; first [reflexivity | apply un_same; reflexivity]
    | apply keeps_bind; [|intros]
    | progress cbn beta iota
    | match goal with
      | |- keeps _ (if ?b then _ else _) => destruct b
      | |- keeps _ (match ?o with Some _ => _ | None => _ end) => destruct o
      end ].

Section untouched.
Context {B} {f : kernel -> B} `{!Untouched f}.

Lemma check_still : keeps f _sched_check_scheduler_internal.
Proof. unfold _sched_check_scheduler_internal, active. keep_still. Qed.
Lemma exec_still : keeps f _sched_execute_scheduler_internal.
Proof. unfold _sched_execute_scheduler_internal. keep_still. Qed.
Lemma ready_still t : keeps f (_task_ready_internal t).
Proof. unfold _task_ready_internal. keep_still. Qed.
Lemma delay_still t : keeps f (_time_delay_internal t).
Proof. pose proof exec_still. unfold _time_delay_internal, _QUEUE_UNLINK. keep_still. Qed.
Lemma yield_still : keeps f _sched_yield.
Proof.
  pose proof exec_still. pose proof ready_still. unfold _sched_yield, active, _QUEUE_UNLINK.
  keep_still; auto.
Qed.
Lemma wake_still l : keeps f (wake_loop l).
Proof.
  pose proof ready_still. induction l as [|t l IH]; cbn [wake_loop]; [apply keeps_ret|].
  unfold aux_remove. keep_still; auto.
Qed.
Lemma set_priority_still t p : keeps f (_sched_set_priority_internal t p).
Proof.
  pose proof exec_still. pose proof ready_still.
  unfold _sched_set_priority_internal, active, _QUEUE_UNLINK. keep_still; auto.
Qed.
Lemma boost_still t p : keeps f (_sched_boost_priority_internal t p).
Proof.
  pose proof check_still. pose proof (set_priority_still t).
  unfold _sched_boost_priority_internal. keep_still; auto.
Qed.
Lemma unboost_still t n : keeps f (_sched_unboost_priority_internal t n).
Proof.
  pose proof check_still. pose proof (set_priority_still t).
  unfold _sched_unboost_priority_internal. keep_still; auto.
Qed.

Lemma quiet_still c : quiet c = true -> keeps f (run_call c).
Proof.
  pose proof check_still. pose proof exec_still. pose proof ready_still. pose proof delay_still.
  pose proof yield_still. pose proof wake_still. pose proof boost_still. pose proof unboost_still.
  intros Hq. destruct c as [|ms|n|[n|]|[n|]|id p|t p|t n|id p| | |t|p mem|q|q b| | |hw]; try discriminate;
    cbn [run_call]; auto;
    unfold _time_delay, _time_delay_ticks, _time_delay_for, _time_delay_until, _task_stop_preemption,
      _task_start_preemption, isr_enter, isr_exit, _task_ready, _task_set_error,
      _task_get_error, _time_notify_kernel, time_slice_tick, active, _QUEUE_UNLINK;
    keep_still; auto.
Qed.
End untouched.

End Frame.
