(* ===== verification/Waits.v ===== *)
(** * Waiting on an object through the auxiliary link

    Semaphores, events and message queues without names block tasks in the same
    way: the running task goes, through [AUX_QUEUE], to the end of a queue of the
    object, whose address is in its [INFO], and with a timeout also to the
    timeout queue; whoever ends the wait takes it off both, leaves a value in
    [INFO] and readies it. *)

From S2P Require Import Prelude Clocks Kernel Frame.

Module Waits.

Export Frame.

#[local] Arguments Z.testbit : simpl never.
#[local] Arguments Z.land : simpl never.
#[local] Arguments Z.lor : simpl never.

(** ** Blocking *)

(** The running task goes to the end of the queue [s], in state [st]. *)
Definition block_on (st s t : Z) : M kernel unit :=
  upd_td t (fun d => with_INFO s (with_STATE st d));;
  _QUEUE_UNLINK t;;
  aux_enqueue s t.

(** A state of tasks that wait through the auxiliary link. *)
Definition waiting_state (st : Z) : Prop :=
  Z.testbit st 8 = false /\ Z.testbit st 9 = false /\ Z.testbit st 10 = true.

Definition blocked_on (st s : Z) (d : td) : td := with_INFO s (with_STATE st d).

Definition block_k (st s t : Z) (d : td) (k : kernel) : kernel :=
  set_AUX_QUEUES (fun m => <[s := on m s ++ [t]]> m)
    (set_TD (<[t := blocked_on st s d]>) (set_READY_Q_LIST (fmap (without t)) k)).

Lemma place_blocked st s d : waiting_state st ->
  place_of (blocked_on st s d) = Place None false None (Some s).
Proof.
  intros (B8 & B9 & B10). unfold place_of. cbn. rewrite B8, B9, B10.
  destruct (Z.eqb_spec st READY) as [->|]; [by change (Z.testbit READY 10) with false in B10|done].
Qed.

(** A ready task goes to the end of the queue of [s]. *)
Lemma block_on_run st k s t d : waiting_state st -> kinv k -> TD k !! t = Some d -> STATE d = READY ->
  block_on st s t k = Some (tt, block_k st s t d k) /\ kinv (block_k st s t d k).
Proof.
  intros Hst Hk Hd Hs. pose proof Hst as (B8 & B9 & B10). pose proof (unlink_ready t d k Hk Hd Hs) as Hl.
  destruct (sh_td _ (proj1 Hk) _ _ Hd) as (W1 & W2 & W3).
  eapply (limbo_td _ _ _ d (blocked_on st s d)) in Hl;
    [|done|by left|split_and!; [done|done|cbn; congruence]].
  set (k1 := set_TD _ _) in Hl.
  pose proof Hl as (Hsh & _ & Hp).
  assert (t ∉ on (AUX_QUEUES k) s) as Hn by (intros Hi; apply Hp in Hi; done).
  eapply (limbo_aux _ _ _ s (on (AUX_QUEUES k) s ++ [t])) in Hl.
  - rewrite decide_True in Hl by set_solver. split.
    + unfold block_on. rewrite (bind_run _ _ _ _ _ (upd_td_run t _ d k Hd)). done.
    + apply (limbo_kinv t). cbn. rewrite lookup_insert, decide_True, place_blocked by done. exact Hl.
  - apply NoDup_app. split_and!; [apply (sh_aux _ (proj1 Hk))| |apply NoDup_singleton]. set_solver.
  - apply only_t_snoc.
  - by left.
Qed.

Lemma kinv_timeout k t d n : kinv k -> TD k !! t = Some d -> STATE d = READY ->
  kinv (set_TD (<[t := with_TIMEOUT n d]>) k).
Proof.
  intros Hk Hd Hs. apply (limbo_kinv t). cbn. rewrite lookup_insert, decide_True by done.
  change (place_of (with_TIMEOUT n d)) with (place_of d).
  pose proof (kinv_limbo t k Hk) as Hl. rewrite Hd in Hl.
  eapply limbo_td; [done|done|left; by rewrite place_ready|apply (sh_td _ (proj1 Hk) _ _ Hd)].
Qed.

(** What the blocking of the running task leaves. *)
Record blocked_by (idle s t : Z) (d' : td) (k k' : kernel) : Prop := {
  bb_sys : sys idle k';
  bb_td : TD k' = <[t := d']> (TD k);
  bb_aux : AUX_QUEUES k' = <[s := on (AUX_QUEUES k) s ++ [t]]> (AUX_QUEUES k);
  bb_still : still k' = still k;
  bb_isr : IN_ISR k' = 0
}.

Lemma switched_still k k' : switched k k' -> still k' = still k.
Proof. intros [->|[->|(p & t & -> & _)]]; done. Qed.

Lemma switched_isr k k' : switched k k' -> IN_ISR k' = IN_ISR k.
Proof. intros [->|[->|(p & t & -> & _)]]; done. Qed.

Lemma pre_block idle st s t d k : waiting_state st -> pre idle k -> TD k !! t = Some d ->
  STATE d = READY -> t <> idle -> pre idle (block_k st s t d k).
Proof.
  intros Hst Hp Hd Hs Hne. destruct (block_on_run st k s t d Hst (pre_inv _ _ Hp) Hd Hs) as [_ Hk].
  eapply pre_ctl; [done|done| |by repeat split]. eapply is_ready_insert; [done|done|apply Hp].
Qed.

(** Without a timeout. *)
Lemma block_exec idle st s k d : waiting_state st -> sys idle k -> IN_ISR k = 0 -> ACTIVE_PTR k <> idle ->
  TD k !! ACTIVE_PTR k = Some d ->
  exists k', (block_on st s (ACTIVE_PTR k);; _sched_execute_scheduler_internal) k = Some (tt, k') /\
    blocked_by idle s (ACTIVE_PTR k) (blocked_on st s d) k k'.
Proof.
  intros Hst Hs Hi Hne Hd. set (t := ACTIVE_PTR k) in *. pose proof (sys_pre _ _ Hs) as Hp.
  assert (STATE d = READY) as Hr by (destruct (sys_run _ _ Hs) as (e & He & ?); fold t in He; congruence).
  destruct (block_on_run st k s t d Hst (pre_inv _ _ Hp) Hd Hr) as [E _].
  destruct (exec_task idle (block_k st s t d k)) as (k' & E' & Hs' & _ & Hw); [by apply pre_block|done|].
  exists k'. split; [by rewrite (bind_run _ _ _ _ _ E)|].
  pose proof (switched_lists _ _ Hw) as (A1 & _).
  split; [done|by rewrite A1|by rewrite (switched_aux _ _ Hw)|by rewrite (switched_still _ _ Hw)|].
  by rewrite (switched_isr _ _ Hw).
Qed.

(** With a timeout. *)
Definition delayed_on (st s : Z) (n : ticks) (d : td) : td :=
  with_STATE (Z.lor st IS_ON_TIMEOUT_Q) (blocked_on st s (with_TIMEOUT n d)).

(** The timeout may be set after the task is queued. *)
Lemma block_timeout st s t n d k :
  upd_td t (with_TIMEOUT n) (block_k st s t d k) =
  Some (tt, block_k st s t (with_TIMEOUT n d) (set_TD (<[t := with_TIMEOUT n d]>) k)).
Proof.
  assert (TD (block_k st s t d k) !! t = Some (blocked_on st s d)) as Hd
    by (cbn; by rewrite lookup_insert, decide_True).
  rewrite (upd_td_run _ _ _ _ Hd). do 2 f_equal. unfold block_k, set_TD. cbn. f_equal.
  rewrite insert_insert, decide_True by done. rewrite insert_insert, decide_True by done. done.
Qed.

Lemma block_delay idle st s k d n : waiting_state st -> sys idle k -> IN_ISR k = 0 ->
  ACTIVE_PTR k <> idle -> TD k !! ACTIVE_PTR k = Some d ->
  exists k', _time_delay_internal (ACTIVE_PTR k)
      (block_k st s (ACTIVE_PTR k) (with_TIMEOUT n d) (set_TD (<[ACTIVE_PTR k := with_TIMEOUT n d]>) k)) =
      Some (tt, k') /\
    blocked_by idle s (ACTIVE_PTR k) (delayed_on st s n d) k k'.
Proof.
  intros Hst Hs Hi Hne Hd. pose proof Hst as (B8 & B9 & B10).
  set (t := ACTIVE_PTR k) in *. pose proof (sys_pre _ _ Hs) as Hp.
  assert (STATE d = READY) as Hr by (destruct (sys_run _ _ Hs) as (e & He & ?); fold t in He; congruence).
  set (d1 := with_TIMEOUT n d). set (k1 := set_TD (<[t := d1]>) k).
  assert (kinv k1) as Hk1 by (eapply kinv_timeout; [apply Hp|done|done]).
  assert (TD k1 !! t = Some d1) as Hd1 by (cbn; by rewrite lookup_insert, decide_True).
  destruct (block_on_run st k1 s t d1 Hst Hk1 Hd1 Hr) as [_ Hk2].
  set (k2 := block_k st s t d1 k1) in *. set (d2 := blocked_on st s d1).
  assert (TD k2 !! t = Some d2) as Hd2 by (cbn; by rewrite lookup_insert, decide_True).
  pose proof (kinv_limbo t k2 Hk2) as Hlim. rewrite Hd2 in Hlim.
  assert (place_of d2 = Place None false None (Some s)) as Hpl by (by apply place_blocked).
  rewrite Hpl in Hlim.
  destruct (delay_sys idle t _ k2 d2 Hlim) as (l1 & l2 & k' & _ & _ & _ & E3 & Hs' & _ & Hw); try done.
  { cbn [own aux]. unfold place_of. cbn.
    rewrite !Z.lor_spec, B8, B9, B10. change (Z.testbit IS_ON_TIMEOUT_Q 8) with true.
    change (Z.testbit IS_ON_TIMEOUT_Q 9) with false. cbn.
    destruct (Z.eqb_spec (Z.lor st IS_ON_TIMEOUT_Q) READY) as [E|]; [|done].
    assert (Z.testbit (Z.lor st IS_ON_TIMEOUT_Q) 10 = true) as Hb by (by rewrite Z.lor_spec, B10).
    by rewrite E in Hb. }
  { eapply is_ready_insert; [done|done|]. eapply is_ready_insert; [done|done|apply Hp]. }
  { exact (sys_ctx idle k Hs Hi). }
  { exact (pre_pend _ _ Hp Hi). }
  exists k'. split; [exact E3|]. pose proof (switched_lists _ _ Hw) as (A1 & _).
  split; [done| |by rewrite (switched_aux _ _ Hw)|by rewrite (switched_still _ _ Hw)|].
  - rewrite A1. cbn. do 2 rewrite insert_insert, decide_True by done. done.
  - by rewrite (switched_isr _ _ Hw).
Qed.

(** *** Queued first *)

(** Events queue the running task before they change its descriptor; it leaves
    the ready queue when it blocks. *)
Definition queued_k (st s t : Z) (d : td) (k : kernel) : kernel :=
  set_AUX_QUEUES (fun m => <[s := on m s ++ [t]]> m) (set_TD (<[t := blocked_on st s d]>) k).

Definition queue_on (st s t : Z) : M kernel unit :=
  aux_enqueue s t;;
  upd_td t (fun d => with_INFO s (with_STATE st d)).

Lemma queue_on_run st s t d k : TD k !! t = Some d -> queue_on st s t k = Some (tt, queued_k st s t d k).
Proof.
  intros Hd. unfold queue_on. rewrite (bind_run _ _ _ _ _ (eq_refl : aux_enqueue s t k = Some (tt, _))).
  by rewrite (upd_td_run _ _ d).
Qed.

Lemma unlink_twice t (m : gmap Z (list Z)) : fmap (without t) (fmap (without t) m) = fmap (without t) m.
Proof.
  rewrite <-map_fmap_compose. apply map_fmap_ext. intros i l _. cbn.
  apply without_none. rewrite elem_of_without. tauto.
Qed.

Lemma delay_unlinked t k :
  _time_delay_internal t (set_READY_Q_LIST (fmap (without t)) k) = _time_delay_internal t k.
Proof.
  unfold _time_delay_internal, _QUEUE_UNLINK, mbind, M_bind, get_td, gets, modify, lift_opt, id. cbn.
  destruct (TD k !! t) as [d|]; [|done]. destruct (timeout_insert _ _ _ _); [|done].
  do 3 f_equal. unfold set_READY_Q_LIST. cbn. by rewrite unlink_twice.
Qed.

Lemma queued_block idle st s k d : waiting_state st -> Z.lor st IS_BLOCKED = st -> sys idle k ->
  IN_ISR k = 0 -> ACTIVE_PTR k <> idle -> TD k !! ACTIVE_PTR k = Some d ->
  exists k', (queue_on st s (ACTIVE_PTR k);; _task_block) k = Some (tt, k') /\
    blocked_by idle s (ACTIVE_PTR k) (blocked_on st s d) k k'.
Proof.
  intros Hst Hb Hs Hi Hne Hd. destruct (block_exec idle st s k d Hst Hs Hi Hne Hd) as (k' & E & Hk).
  set (t := ACTIVE_PTR k) in *. destruct (sys_run _ _ Hs) as (d0 & Hd0 & Hr). fold t in Hd0. simplify_eq.
  destruct (block_on_run st k s t d Hst) as [E1 _]; [apply Hs|done|done|].
  rewrite (bind_run _ _ _ _ _ E1) in E. exists k'. split; [|done].
  rewrite (bind_run _ _ _ _ _ (queue_on_run st s t d k Hd)). rewrite <-E. unfold _task_block, active.
  rewrite (bind_run _ _ _ _ _ (gets_run ACTIVE_PTR _)). change (ACTIVE_PTR (queued_k st s t d k)) with t.
  assert (TD (queued_k st s t d k) !! t = Some (blocked_on st s d)) as Hd1
    by (cbn; by rewrite lookup_insert, decide_True).
  rewrite (bind_run _ _ _ _ _ (upd_td_run t _ _ _ Hd1)).
  assert (with_STATE (Z.lor (STATE (blocked_on st s d)) IS_BLOCKED) (blocked_on st s d) = blocked_on st s d) as ->
    by (unfold blocked_on, with_STATE, with_INFO; cbn; by rewrite Hb).
  assert (set_TD (<[t := blocked_on st s d]>) (queued_k st s t d k) = queued_k st s t d k) as ->; [|done].
  unfold queued_k, set_TD. cbn. by rewrite insert_insert, decide_True.
Qed.

Lemma queued_delay idle st s k d n : waiting_state st -> sys idle k -> IN_ISR k = 0 ->
  ACTIVE_PTR k <> idle -> TD k !! ACTIVE_PTR k = Some d ->
  exists k', (upd_td (ACTIVE_PTR k) (with_TIMEOUT n);; _time_delay_internal (ACTIVE_PTR k))
      (queued_k st s (ACTIVE_PTR k) d k) = Some (tt, k') /\
    blocked_by idle s (ACTIVE_PTR k) (delayed_on st s n d) k k'.
Proof.
  intros Hst Hs Hi Hne Hd. destruct (block_delay idle st s k d n Hst Hs Hi Hne Hd) as (k' & E & Hk).
  set (t := ACTIVE_PTR k) in *. exists k'. split; [|done]. rewrite <-E.
  assert (TD (queued_k st s t d k) !! t = Some (blocked_on st s d)) as Hd1
    by (cbn; by rewrite lookup_insert, decide_True).
  rewrite (bind_run _ _ _ _ _ (upd_td_run t _ _ _ Hd1)).
  rewrite <-(delay_unlinked t (set_TD _ (queued_k st s t d k))). f_equal.
  unfold block_k, queued_k, set_TD. cbn. f_equal.
  rewrite insert_insert, decide_True by done. rewrite insert_insert, decide_True by done. done.
Qed.

(** A queue that was empty is made empty. *)
Lemma sys_empty idle k x : sys idle k -> on (AUX_QUEUES k) x = [] ->
  sys idle (set_AUX_QUEUES (<[x := []]>) k) /\
  forall y, on (<[x := []]> (AUX_QUEUES k)) y = on (AUX_QUEUES k) y.
Proof.
  intros [Hp Hr Hc] Hx.
  assert (forall y, on (<[x := []]> (AUX_QUEUES k)) y = on (AUX_QUEUES k) y) as Ho
    by (intros y; rewrite on_insert; case_decide; congruence).
  split; [|done]. split; [|done|done]. destruct Hp as [[[] Hh] ? ? ? ?]. split; [|done..].
  split; [split; cbn; try done; intros y; by rewrite Ho|].
  intros u. destruct (Hh u) as (A1 & A2 & A3 & A4). split_and!; [done..|]. intros y. cbn. rewrite Ho. apply A4.
Qed.

(** ** Ending a wait *)

(** The descriptor after [_TIME_DEQUEUE]. *)
Definition undelayed (d : td) : td :=
  if Z.testbit (STATE d) 8
  then with_STATE (Z.lor (Z.land (STATE d) (Z.lnot IS_ON_TIMEOUT_Q)) BLOCKED) d else d.

(** A waiting task taken off the queue of [s] and off the timeout queue, with
    its descriptor changed by [f] and readied: what a post, with
    [f := with_INFO 0], and the destruction do. *)
Lemma wake_waiter k s t d (f : td -> td) :
  kinv k -> TD k !! t = Some d -> Z.testbit (STATE d) 10 = true -> INFO d = s ->
  (forall e, PRIORITY (f e) = PRIORITY e /\ HOME_PRIORITY (f e) = HOME_PRIORITY e /\
             STATE (f e) = STATE e /\ TIMEOUT (f e) = TIMEOUT e) ->
  exists k', (aux_remove s t;; _TIME_DEQUEUE t;; upd_td t f;; _task_ready_internal t) k = Some (tt, k') /\
    kinv k' /\ same_control k k' /\ TD k' = <[t := readied (f (undelayed d))]> (TD k) /\
    on (AUX_QUEUES k') s = without t (on (AUX_QUEUES k) s) /\
    TIMEOUT_QUEUE k' = without t (TIMEOUT_QUEUE k).
Proof.
  intros Hk Hd H10 HI Hf. pose proof (kinv_limbo t k Hk) as Hl. rewrite Hd in Hl.
  destruct (sh_td _ (proj1 Hk) _ _ Hd) as (W1 & W2 & W3).
  assert (place_of d = Place None (Z.testbit (STATE d) 8) None (Some s)) as Hpl.
  { unfold place_of. rewrite H10, HI. destruct (Z.testbit (STATE d) 9); [destruct (W3 eq_refl); congruence|].
    destruct (Z.eqb_spec (STATE d) READY) as [E|]; [by rewrite E in H10|done]. }
  rewrite Hpl in Hl.
  eapply (limbo_aux _ _ _ s (without t (on (AUX_QUEUES k) s))) in Hl;
    [|by apply NoDup_without, (sh_aux _ (proj1 Hk))|by apply only_t_without|by right].
  rewrite decide_False in Hl by (rewrite elem_of_without; tauto).
  set (k1 := set_AUX_QUEUES _ k) in Hl.
  eapply (limbo_tmo _ _ _ (without t (TIMEOUT_QUEUE k))) in Hl;
    [|by apply NoDup_without, (sh_tmo _ (proj1 Hk))|by apply only_t_without
     |by apply sorted_without, (sh_sorted _ (proj1 Hk))].
  rewrite bool_decide_false in Hl by (rewrite elem_of_without; tauto). cbn in Hl.
  set (k2 := set_TIMEOUT_QUEUE _ k1) in Hl.
  set (d2 := f (undelayed d)).
  assert (STATE (undelayed d) = READY -> False) as Hnr.
  { unfold undelayed. destruct (Z.testbit (STATE d) 8) eqn:E8; cbn; intros E.
    - assert (Z.testbit READY 10 = true) as H; [|done]. rewrite <-E, Z.lor_spec, Z.land_spec, H10.
      change (Z.testbit (Z.lnot IS_ON_TIMEOUT_Q) 10) with true. done.
    - by rewrite E in H10. }
  assert (wf_td (LOWEST_TASK_PRIORITY k2) d2) as Hw.
  { destruct (Hf (undelayed d)) as (F1 & F2 & F3 & F4). unfold wf_td, d2. rewrite F1, F2, F3.
    unfold undelayed. destruct (Z.testbit (STATE d) 8) eqn:E8; cbn; [|split_and!; [done|done|]; intros H9; destruct (W3 H9); by split].
    split_and!; [done|done|]. intros H9. exfalso. rewrite Z.lor_spec, Z.land_spec in H9.
    change (Z.testbit BLOCKED 9) with false in H9. rewrite orb_false_r in H9.
    apply andb_true_iff in H9 as [H9 _]. destruct (W3 H9); congruence. }
  eapply (limbo_td _ _ _ d d2) in Hl; [|done|by left|done].
  set (k3 := set_TD _ k2) in Hl.
  assert (TD k3 !! t = Some d2) as Hd3 by (cbn; by rewrite lookup_insert, decide_True).
  exists (ready_k t d2 k3). split_and!.
  - assert (_TIME_DEQUEUE t k1 = Some (tt, set_TD (<[t := undelayed d]>) (if Z.testbit (STATE d) 8 then k2 else k1))) as E1.
    { unfold _TIME_DEQUEUE. rewrite (bind_run _ _ _ _ _ (get_td_run t d k1 Hd)), on_timeout_bit.
      unfold undelayed. destruct (Z.testbit (STATE d) 8) eqn:E8.
      - unfold mbind, M_bind, modify. by rewrite (upd_td_run t _ d).
      - unfold mret, M_ret. do 2 f_equal. unfold k1, set_TD, set_AUX_QUEUES. cbn. f_equal.
        by rewrite insert_id. }
    transitivity ((_TIME_DEQUEUE t;; upd_td t f;; _task_ready_internal t) k1); [done|].
    rewrite (bind_run _ _ _ _ _ E1).
    erewrite bind_run; [|apply (upd_td_run t f (undelayed d)); cbn; by rewrite lookup_insert, decide_True].
    set (k3' := set_TD _ (set_TD _ _)).
    assert (k3' = k3) as ->.
    { unfold k3', k3, d2, set_TD. destruct (Z.testbit (STATE d) 8) eqn:E8; cbn; f_equal;
        try (by rewrite insert_insert, decide_True).
      assert (t ∉ TIMEOUT_QUEUE k) as Hn.
      { intros Hi. apply in_timeout in Hi as (e & He & H8); [|done]. congruence. }
      by rewrite without_none. }
    by apply task_ready_run.
  - eapply limbo_ready; [exact Hl|done|done].
  - by repeat split.
  - cbn. by rewrite insert_insert, decide_True.
  - cbn. by rewrite on_insert, decide_True.
  - done.
Qed.

(** [_task_block]. *)
Lemma task_block_frame idle k : pre idle k -> is_ready k (ACTIVE_PTR k) -> IN_ISR k = 0 ->
  ACTIVE_PTR k <> idle ->
  exists k', _task_block k = Some (tt, k') /\ sys idle k' /\ frame k k'.
Proof.
  intros Hp (d & Hd & Hr) Hi Hne.
  set (t := ACTIVE_PTR k) in *. set (d' := with_STATE (Z.lor (STATE d) IS_BLOCKED) d).
  pose proof (unlink_ready t d k (pre_inv _ _ Hp) Hd Hr) as Hl.
  destruct (sh_td _ (proj1 (pre_inv _ _ Hp)) _ _ Hd) as (W1 & W2 & W3).
  eapply (limbo_td _ _ _ d d') in Hl;
    [|done|by left|split_and!; [done|done|unfold d'; cbn; rewrite Hr; done]].
  set (k1 := set_TD _ _) in Hl.
  assert (kinv k1) as Hk1.
  { apply (limbo_kinv t). cbn. rewrite lookup_insert, decide_True by done.
    assert (place_of d' = nowhere) as -> by (unfold place_of, d'; cbn; by rewrite Hr). exact Hl. }
  assert (pre idle k1) as Hp1.
  { eapply pre_ctl; [done|done| |by repeat split]. eapply is_ready_insert; [done|done|apply Hp]. }
  destruct (exec_task idle k1 Hp1 Hi) as (k' & E & Hs' & _ & Hw).
  exists k'. split_and!; [|done|].
  - unfold _task_block, active. rewrite (bind_run _ _ _ _ _ (gets_run ACTIVE_PTR k)). fold t.
    rewrite (bind_run _ _ _ _ _ (upd_td_run t _ d k Hd)). exact E.
  - etrans; [|by apply frame_switched]. eapply (frame_insert _ _ t d d'); [done|done|].
    apply undisturbed_ready; unfold d'; cbn; by rewrite ?Hr.
Qed.

(** What the end of a wait leaves. *)
Record woken (idle s t : Z) (d' : td) (k k' : kernel) : Prop := {
  wk_pre : pre idle k';
  wk_ready : forall u, is_ready k u -> is_ready k' u;
  wk_ctl : same_control k k';
  wk_td : TD k' = <[t := d']> (TD k);
  wk_aux : on (AUX_QUEUES k') s = without t (on (AUX_QUEUES k) s);
  wk_tmo : TIMEOUT_QUEUE k' = without t (TIMEOUT_QUEUE k)
}.

Lemma time_dequeue_none t d k : TD k !! t = Some d -> Z.testbit (STATE d) 8 = false ->
  _TIME_DEQUEUE t k = Some (tt, k).
Proof.
  intros Hd H8. unfold _TIME_DEQUEUE. by rewrite (bind_run _ _ _ _ _ (get_td_run t d k Hd)), on_timeout_bit, H8.
Qed.

(** The first waiter of [s] with [INFO] set to [n]; [timed]: it may have a timeout. *)
Definition wake_first (timed : bool) (s t n : Z) : M kernel unit :=
  aux_remove s t;;
  (if timed then _TIME_DEQUEUE t else mret tt);;
  upd_td t (with_INFO n);;
  _task_ready_internal t.

Lemma wake_first_run idle timed k s t d n : pre idle k -> TD k !! t = Some d ->
  Z.testbit (STATE d) 10 = true -> INFO d = s -> (timed = false -> Z.testbit (STATE d) 8 = false) ->
  exists k', wake_first timed s t n k = Some (tt, k') /\
    woken idle s t (readied (with_INFO n (undelayed d))) k k'.
Proof.
  intros Hp Hd H10 HI Ht.
  destruct (wake_waiter k s t d (with_INFO n) (pre_inv _ _ Hp) Hd H10 HI) as (k' & E & Hk & Hc & Htd & Ha & Hq);
    [done|].
  assert (forall u, is_ready k u -> is_ready k' u) as Hrd.
  { intros u (e & He & Hse). unfold is_ready. rewrite Htd, lookup_insert. case_decide; [by eexists|eauto]. }
  exists k'. split.
  - rewrite <-E. unfold wake_first. destruct timed; [done|].
    unfold aux_remove, modify, mbind, M_bind, mret, M_ret. cbn.
    by erewrite time_dequeue_none; [|exact Hd|auto].
  - split; try done. eapply pre_ctl; [done|done|apply Hrd, Hp|done].
Qed.

Lemma seq5 {A} (m1 m2 m3 m4 : M kernel unit) (m5 : M kernel A) k k' :
  (m1;; m2;; m3;; m4) k = Some (tt, k') -> (m1;; m2;; m3;; m4;; m5) k = m5 k'.
Proof.
  unfold mbind, M_bind. intros E.
  destruct (m1 k) as [[[] k1]|]; [|done]. destruct (m2 k1) as [[[] k2]|]; [|done].
  destruct (m3 k2) as [[[] k3]|]; [|done]. by rewrite E.
Qed.

(** *** Ending every wait *)

(** The loop of the destruction; [l] is what is left of the queue. *)
Fixpoint release_all (l : list Z) (s : Z) : M kernel unit :=
  match l with
  | [] => mret tt
  | t :: l' =>
      aux_remove s t;;
      _TIME_DEQUEUE t;;
      _task_ready_internal t;;
      release_all l' s
  end.

Lemma upd_id t k : is_Some (TD k !! t) -> upd_td t id k = Some (tt, k).
Proof.
  intros [d Hd]. rewrite (upd_td_run _ _ _ _ Hd). unfold id, set_TD. rewrite insert_id by done.
  by destruct k.
Qed.

Lemma time_dequeue_dom t k k' : _TIME_DEQUEUE t k = Some (tt, k') -> is_Some (TD k' !! t).
Proof.
  unfold _TIME_DEQUEUE, mbind, M_bind, get_td, modify, upd_td. destruct (TD k !! t) as [d|] eqn:E; [|done].
  case_match; cbn; rewrite ?E; intros [= <-]; cbn.
  - rewrite lookup_insert, decide_True by done. by eexists.
  - by eexists.
Qed.

Lemma release_one s t l k k' :
  (aux_remove s t;; _TIME_DEQUEUE t;; upd_td t id;; _task_ready_internal t) k = Some (tt, k') ->
  release_all (t :: l) s k = release_all l s k'.
Proof.
  intros E. cbn [release_all]. unfold mbind, M_bind in *.
  destruct (aux_remove s t k) as [[[] k1]|]; [|done].
  destruct (_TIME_DEQUEUE t k1) as [[[] k2]|] eqn:E2; [|done].
  rewrite upd_id in E by (by eapply time_dequeue_dom). by rewrite E.
Qed.

Lemma release_all_run s l k : kinv k -> on (AUX_QUEUES k) s = l ->
  exists k', release_all l s k = Some (tt, k') /\ kinv k' /\ same_control k k' /\
    on (AUX_QUEUES k') s = [] /\
    (forall t d, TD k !! t = Some d ->
       TD k' !! t = Some (if decide (t ∈ l) then readied (undelayed d) else d)) /\
    (forall t, TD k !! t = None -> TD k' !! t = None).
Proof.
  revert k. induction l as [|t l IH]; intros k Hk Hq.
  { exists k. split_and!; [done|done|done|done| |done]. intros t d Hd. by rewrite decide_False by set_solver. }
  assert (t ∈ on (AUX_QUEUES k) s) as Hin by (rewrite Hq; set_solver).
  apply in_aux in Hin as (d & Hd & H10 & HI); [|done].
  destruct (wake_waiter k s t d id Hk Hd H10 HI) as (k1 & E & Hk1 & Hc & Ht & Ha & _); [done|].
  assert (t ∉ l) as Hn.
  { pose proof (sh_aux _ (proj1 Hk) s) as Hnd. rewrite Hq in Hnd. by apply NoDup_cons in Hnd as [? _]. }
  destruct (IH k1 Hk1) as (k' & E' & Hk' & Hc' & Hq' & Ht' & Hn').
  { rewrite Ha, Hq. by apply without_cons. }
  exists k'. rewrite (release_one _ _ _ _ _ E). split_and!; [done|done|by etrans|done| |].
  2: { intros u Hu. apply Hn'. rewrite Ht, lookup_insert. case_decide; [congruence|done]. }
  intros u e He. destruct (decide (u = t)) as [->|Hu].
  - simplify_eq. rewrite decide_True by set_solver.
    rewrite (Ht' t (readied (undelayed d))); [by rewrite decide_False|].
    by rewrite Ht, lookup_insert, decide_True.
  - rewrite (Ht' u e) by (by rewrite Ht, lookup_insert_ne). f_equal.
    destruct (decide (u ∈ l)); [rewrite decide_True by set_solver|rewrite decide_False by set_solver]; done.
Qed.

(** ** Counting tasks *)

Definition count (f : Z -> bool) (l : list Z) : Z := zlen (filter (fun t => f t = true) l).

Lemma count_ext_in f g l : (forall t, t ∈ l -> f t = g t) -> count f l = count g l.
Proof.
  unfold count. induction l as [|u l IH]; intros H; [done|]. rewrite !filter_cons.
  rewrite (H u) by set_solver. assert (forall t, t ∈ l -> f t = g t) as Hl by set_solver.
  specialize (IH Hl). case_decide; cbn [length]; lia.
Qed.

Lemma count_flip f g l t : NoDup l -> t ∈ l -> f t = false -> g t = true ->
  (forall u, u <> t -> f u = g u) -> count g l = count f l + 1.
Proof.
  intros Hnd Ht Hf Hg He. induction Hnd as [|u l Hu Hnd IH]; [set_solver|].
  destruct (decide (u = t)) as [->|Hut].
  - assert (count f l = count g l) as E.
    { apply count_ext_in. intros v Hv. apply He. by intros ->. }
    unfold count in *. rewrite !filter_cons, Hf, Hg. rewrite (decide_True (P := true = true)), (decide_False (P := false = true)) by done.
    cbn [length]. lia.
  - assert (t ∈ l) as Htl by set_solver. specialize (IH Htl).
    unfold count in *. rewrite !filter_cons, (He u Hut). case_decide; cbn [length]; lia.
Qed.

Lemma count_nonneg f l : 0 <= count f l.
Proof. unfold count. lia. Qed.

End Waits.
