(* ===== verification/Veil.v ===== *)
(** * Waiting tasks whose state says READY

    A function that sets the state of the running task before a loop, and blocks
    it again later in the loop, leaves the state [READY] in the descriptor of a
    task that is in a queue of waiting tasks and in no ready queue.  [veil zs k]
    is the kernel [k] with the states of the tasks [zs] overwritten in this way.
    The functions that other tasks call do not read the state of such a task, so
    they do the same in both: [sees]. *)

From S2P Require Import Prelude Clocks Kernel Frame Waits.

Module Veil.

Export Waits.

#[local] Arguments Z.testbit : simpl never.
#[local] Arguments Z.land : simpl never.
#[local] Arguments Z.lor : simpl never.

Create HintDb sees discriminated.

Definition veil (zs : gset Z) (k : kernel) : kernel :=
  set_TD (map_imap (fun t d => Some (if decide (t ∈ zs) then with_STATE READY d else d))) k.

Lemma veil_td zs k t :
  TD (veil zs k) !! t = (fun d => if decide (t ∈ zs) then with_STATE READY d else d) <$> TD k !! t.
Proof. unfold veil. cbn. rewrite map_lookup_imap. by destruct (TD k !! t). Qed.

Lemma veil_td_out zs k t : t ∉ zs -> TD (veil zs k) !! t = TD k !! t.
Proof. intros H. rewrite veil_td. destruct (TD k !! t); cbn; [by rewrite decide_False|done]. Qed.

Lemma veil_td_in zs k t d : t ∈ zs -> TD k !! t = Some d ->
  TD (veil zs k) !! t = Some (with_STATE READY d).
Proof. intros H Hd. by rewrite veil_td, Hd; cbn; rewrite decide_True. Qed.

Lemma kernel_eq k1 k2 : set_TD (fun _ => ∅) k1 = set_TD (fun _ => ∅) k2 ->
  (forall t, TD k1 !! t = TD k2 !! t) -> k1 = k2.
Proof.
  intros E H. apply map_eq in H. destruct k1, k2. cbn in *. injection E as -> -> -> -> -> -> -> -> -> -> -> -> -> -> ->.
  by rewrite H.
Qed.

Lemma veil_empty k : veil ∅ k = k.
Proof.
  apply kernel_eq; [done|]. intros t. by rewrite veil_td_out by set_solver.
Qed.

Lemma veil_insert_out zs k t d : t ∉ zs ->
  set_TD (<[t := d]>) (veil zs k) = veil zs (set_TD (<[t := d]>) k).
Proof.
  intros Ht. apply kernel_eq; [done|]. intros u. rewrite veil_td. cbn [set_TD TD].
  rewrite !lookup_insert. case_decide; [subst; cbn; by rewrite decide_False|]. apply veil_td.
Qed.

(** The tasks [zs] wait, in the state [w], on auxiliary links only. *)
Record hidden (w : Z) (zs : gset Z) (k : kernel) : Prop := {
  hd_active : ACTIVE_PTR k ∉ zs;
  hd_ready : forall p t, t ∈ on (READY_Q_LIST k) p -> t ∉ zs;
  hd_tmo : forall t, t ∈ TIMEOUT_QUEUE k -> t ∉ zs;
  hd_td : forall t, t ∈ zs -> exists d, TD k !! t = Some d /\ STATE d = w
}.

Lemma hidden_sub w zs zs' k : zs' ⊆ zs -> hidden w zs k -> hidden w zs' k.
Proof. intros Hz [H1 H2 H3 H4]. split; [set_solver| | |]; intros; [intros ?; by eapply H2; [|apply Hz]|intros ?; by eapply H3; [|apply Hz]|auto]. Qed.

(** In a system whose invariant holds, the state alone tells. *)
Lemma sys_hidden idle w zs k : waiting_state w -> sys idle k ->
  (forall t, t ∈ zs -> exists d, TD k !! t = Some d /\ STATE d = w) -> hidden w zs k.
Proof.
  intros (B8 & B9 & B10) Hs Hz. pose proof Hs as [Hp (e & He & Hr) _].
  assert (forall t d, t ∈ zs -> TD k !! t = Some d -> STATE d = w) as Hw
    by (intros t d Ht Hd; destruct (Hz t Ht) as (d' & ? & ?); congruence).
  assert (w <> READY) as Hnr by (by intros ->).
  split; [| | |done].
  - intros Ha. apply Hnr. rewrite <-Hr. symmetry. by eapply Hw.
  - intros p t Hin Ht. destruct (Hz t Ht) as (d & Hd & Hst).
    pose proof (home_td _ _ _ (proj2 (pre_inv _ _ Hp) t) Hd) as (H1 & _). apply H1 in Hin.
    unfold place_of in Hin. cbn in Hin. rewrite Hst in Hin. destruct (Z.eqb_spec w READY); [done|discriminate].
  - intros t Hin Ht. apply in_timeout in Hin as (d & Hd & H8); [|apply Hp]. rewrite (Hw t d Ht Hd) in H8. congruence.
Qed.

Lemma find_in n m p p' t : find_noempty_que n m p = Some (p', t) -> t ∈ on m p'.
Proof.
  revert p. induction n as [|n IH]; intros p; cbn; destruct (on m p) as [|u l] eqn:E; try done.
  - intros [= <- <-]. rewrite E. set_solver.
  - apply IH.
  - intros [= <- <-]. rewrite E. set_solver.
Qed.

Section sees.
Context {w : Z}.

(** A computation does the same without the states of [zs]. *)
Definition sees {A} (zs : gset Z) (m : M kernel A) : Prop :=
  forall k a k', hidden w zs k -> m k = Some (a, k') ->
    m (veil zs k) = Some (a, veil zs k') /\ hidden w zs k'.

Context {zs : gset Z}.

Lemma sees_ret {A} (a : A) : sees zs (mret a).
Proof. by intros k a' k' H [= <- <-]. Qed.

Lemma sees_bind {A B} (m : M kernel A) (f : A -> M kernel B) :
  sees zs m -> (forall a, sees zs (f a)) -> sees zs (m ≫= f).
Proof.
  intros Hm Hf k b k'' Hk. unfold mbind, M_bind. destruct (m k) as [[a k']|] eqn:E; [|done].
  intros E'. destruct (Hm k a k' Hk E) as [-> Hk']. by apply (Hf a).
Qed.

Lemma sees_gets {A B} (g : kernel -> A) (f : A -> M kernel B) :
  (forall k, f (g (veil zs k)) = f (g k)) -> (forall k, hidden w zs k -> sees zs (f (g k))) -> sees zs (gets g ≫= f).
Proof.
  intros Hg Hf k b k' Hk E. change (f (g k) k = Some (b, k')) in E.
  change ((gets g ≫= f) (veil zs k)) with (f (g (veil zs k)) (veil zs k)). rewrite Hg.
  by apply Hf.
Qed.

Lemma sees_gets_ret {A} (g : kernel -> A) : (forall k, g (veil zs k) = g k) -> sees zs (gets g).
Proof. intros Hg k a k' Hk [= <- <-]. unfold gets. by rewrite Hg. Qed.

Lemma sees_lift {A} (o : option A) : sees zs (lift_opt o).
Proof. intros k a k' Hk. unfold lift_opt. destruct o; [|done]. by intros [= <- <-]. Qed.

Lemma sees_modify g : (forall k, g (veil zs k) = veil zs (g k)) ->
  (forall k, hidden w zs k -> hidden w zs (g k)) -> sees zs (modify g).
Proof. intros Hg Hh k a k' Hk [= <- <-]. unfold modify. rewrite Hg. auto. Qed.

Lemma sees_get_td t : t ∉ zs -> sees zs (get_td t).
Proof.
  intros Ht k a k' Hk. unfold get_td. rewrite veil_td_out by done.
  destruct (TD k !! t); [|done]. by intros [= <- <-].
Qed.

Lemma hidden_td k t d : t ∉ zs -> hidden w zs k -> hidden w zs (set_TD (<[t := d]>) k).
Proof.
  intros Ht [H1 H2 H3 H4]. split; try done. intros u Hu. cbn. rewrite lookup_insert_ne by (by intros ->). auto.
Qed.

Lemma sees_upd_td t g : t ∉ zs -> sees zs (upd_td t g).
Proof.
  intros Ht k a k' Hk. unfold upd_td. rewrite veil_td_out by done.
  destruct (TD k !! t) as [d|]; [|done]. intros [= <- <-]. rewrite veil_insert_out by done. split; [done|].
  by apply hidden_td.
Qed.

Lemma sees_active {B} (f : Z -> M kernel B) : (forall t, t ∉ zs -> sees zs (f t)) -> sees zs (active ≫= f).
Proof. intros Hf. apply sees_gets; [done|]. intros k Hk. apply Hf, Hk. Qed.

Lemma sees_if {A} (b : bool) (m1 m2 : M kernel A) : sees zs m1 -> sees zs m2 -> sees zs (if b then m1 else m2).
Proof. by destruct b. Qed.


Lemma sees_pend : sees zs _pend_svc.
Proof.
  intros k a k' Hk. unfold _pend_svc. cbn.
  destruct (find_noempty_que _ _ _) as [[p t]|] eqn:E; [|done]. intros [= <- <-]. split; [done|].
  destruct Hk as [H1 H2 H3 H4]. split; try done. cbn. by apply (H2 p), (find_in _ _ _ _ _ E).
Qed.

Lemma sees_unlink t : sees zs (_QUEUE_UNLINK t).
Proof.
  apply sees_modify; [done|]. intros k [H1 H2 H3 H4]. split; try done. intros p u. cbn. unfold on.
  rewrite lookup_fmap. pose proof (H2 p u) as H. unfold on in H. destruct (READY_Q_LIST k !! p); cbn in *.
  - rewrite elem_of_without. intros [_ Hu]. auto.
  - intros Hu. by apply elem_of_nil in Hu.
Qed.

Lemma sees_quiet_modify g : (forall k, g (veil zs k) = veil zs (g k)) ->
  (forall k, ACTIVE_PTR (g k) = ACTIVE_PTR k /\ READY_Q_LIST (g k) = READY_Q_LIST k /\
     TIMEOUT_QUEUE (g k) = TIMEOUT_QUEUE k /\ TD (g k) = TD k) -> sees zs (modify g).
Proof.
  intros Hg Hs. apply sees_modify; [done|]. intros k [H1 H2 H3 H4]. destruct (Hs k) as (E1 & E2 & E3 & E4).
  split; [by rewrite E1|intros p t; rewrite E2; apply H2|intros t; rewrite E3; apply H3|intros t; rewrite E4; apply H4].
Qed.

End sees.

Arguments sees w {A} zs m.

#[export] Hint Resolve sees_pend sees_unlink sees_get_td sees_upd_td : sees.

Ltac see :=
  repeat first
    [ solve [auto 2 with sees nocore]
    | apply sees_ret | apply sees_lift | apply sees_pend | apply sees_unlink
    | apply sees_get_td; assumption
    | apply sees_upd_td; assumption
    | apply sees_quiet_modify; [intros; reflexivity|intros; split_and!; reflexivity]
    | apply sees_if
    | apply sees_active; intros
    | apply sees_gets; [intros; reflexivity|intros]
    | apply sees_gets_ret; intros; reflexivity
    | apply sees_bind; [|intros]
    | progress cbn beta iota
    | match goal with
      | |- sees _ _ (match ?o with Some _ => _ | None => _ end) => destruct o
      | |- sees _ _ (if decide ?P then _ else _) => destruct (decide P)
      end ].

(** *** The functions of the kernel *)

Lemma sees_exec {w zs} : sees w zs _sched_execute_scheduler_internal.
Proof. unfold _sched_execute_scheduler_internal. see. Qed.
#[export] Hint Resolve sees_exec : sees.

Lemma sees_check {w zs} : sees w zs _sched_check_scheduler_internal.
Proof. unfold _sched_check_scheduler_internal. see. Qed.
#[export] Hint Resolve sees_check : sees.

Lemma sees_ready {w zs} t : t ∉ zs -> sees w zs (_task_ready_internal t).
Proof.
  intros Ht. unfold _task_ready_internal. see. apply sees_modify; [done|].
  intros k1 [H1 H2 H3 H4]. split; try done. intros p u. cbn. rewrite on_insert. case_decide; [|apply H2].
  subst. rewrite elem_of_app, list_elem_of_singleton. intros [Hu| ->]; [by eapply H2|done].
Qed.
#[export] Hint Resolve sees_ready : sees.

Lemma sees_block {w zs} : sees w zs _task_block.
Proof. unfold _task_block. see. Qed.

Lemma timeout_insert_in m t d l l' u : timeout_insert m t d l = Some l' -> u ∈ l' -> u = t \/ u ∈ l.
Proof.
  revert l'. induction l as [|v l IH]; intros l'; cbn.
  { intros [= <-]. set_solver. }
  destruct (m !! v) as [d2|]; [|done]. cbn. case_match; [intros [= <-]; set_solver|].
  destruct (timeout_insert m t d l) as [l2|]; [|done]. cbn. intros [= <-].
  specialize (IH l2 eq_refl). set_solver.
Qed.

Lemma timeout_insert_veil zs k t d l : (forall u, u ∈ l -> u ∉ zs) ->
  timeout_insert (TD (veil zs k)) t d l = timeout_insert (TD k) t d l.
Proof.
  induction l as [|v l IH]; intros H; [done|]. cbn [timeout_insert].
  rewrite veil_td_out by (apply H; set_solver). rewrite IH by set_solver. done.
Qed.

Lemma sees_delay {w zs} t : t ∉ zs -> sees w zs (_time_delay_internal t).
Proof.
  intros Ht. unfold _time_delay_internal. apply sees_bind; [by apply sees_get_td|].
  intros d k a k' Hk E. cbn in E |- *.
  unfold mbind at 1, M_bind at 1, gets, id in E. unfold mbind at 1, M_bind at 1, gets, id.
  unfold mbind at 1, M_bind at 1, lift_opt at 1 in E. unfold mbind at 1, M_bind at 1, lift_opt at 1.
  change (TIMEOUT_QUEUE (veil zs k)) with (TIMEOUT_QUEUE k).
  rewrite timeout_insert_veil by apply Hk.
  destruct (timeout_insert (TD k) t d (TIMEOUT_QUEUE k)) as [l|] eqn:El; [|done].
  revert k a k' Hk E El. intros k a k' Hk E El.
  assert (forall u, u ∈ l -> u ∉ zs) as Hl.
  { intros u Hu. eapply timeout_insert_in in El as [->|Hu']; [done| |done]. by apply Hk. }
  refine ((_ : sees w zs _) k a k' Hk E). see.
  apply sees_modify; [done|]. intros k1 [H1 H2 H3 H4]. by split.
Qed.
#[export] Hint Resolve sees_delay : sees.

Lemma sees_yield {w zs} : sees w zs _sched_yield.
Proof. unfold _sched_yield. see. Qed.
#[export] Hint Resolve sees_yield : sees.

Lemma sees_wake {w zs} l : (forall t, t ∈ l -> t ∉ zs) -> sees w zs (wake_loop l).
Proof.
  induction l as [|t l IH]; intros Hl; cbn [wake_loop]; [apply sees_ret|].
  assert (t ∉ zs) as Ht by (apply Hl; set_solver). assert (sees w zs (wake_loop l)) by (apply IH; set_solver).
  unfold aux_remove. see.
  apply sees_modify; [done|]. intros k1 [H1 H2 H3 H4]. split; try done. intros u. cbn. rewrite elem_of_without.
  intros [_ Hu]. auto.
Qed.

Lemma sees_slice {w zs} : sees w zs time_slice_tick.
Proof. unfold time_slice_tick. see. Qed.
#[export] Hint Resolve sees_slice : sees.

Lemma sees_set_error {w zs} e : sees w zs (_task_set_error e).
Proof. unfold _task_set_error, _task_get_error. see. Qed.
#[export] Hint Resolve sees_set_error : sees.

Lemma sees_set_priority {w zs} t p : t ∉ zs -> sees w zs (_sched_set_priority_internal t p).
Proof. intros Ht. unfold _sched_set_priority_internal. see. Qed.
#[export] Hint Resolve sees_set_priority : sees.

Lemma sees_clock {w zs} (g : clock -> clock) : sees w zs (modify (fun k => set_CLOCK (g (CLOCK k)) k)).
Proof. by apply sees_quiet_modify. Qed.

(** *** Calls *)

(** The task whose priority a call changes. *)
Definition boosts (c : kcall) : option Z :=
  match c with Boost t _ | Unboost t _ => Some t | _ => None end.

Lemma sees_call {w zs} c : quiet c = true -> (forall t, boosts c = Some t -> t ∉ zs) ->
  (forall t, c = Ready t -> t ∉ zs) -> sees w zs (run_call c).
Proof.
  intros Hq Hb Hr.
  destruct c as [|ms|n|[n|]|[n|]|id p|t p|t n|id p| | |t|p mem|q|q b| | |hw]; try discriminate;
    cbn [run_call];
    unfold _time_delay, _time_delay_ticks, _time_delay_for, _time_delay_until, _task_stop_preemption,
      _task_start_preemption, isr_enter, isr_exit, _sched_boost_priority_internal,
      _sched_unboost_priority_internal, _task_ready, _time_notify_kernel.
  all: try (specialize (Hb t eq_refl); cbn in Hb); try specialize (Hr t eq_refl).
  13: { apply sees_bind; [apply (sees_clock (fun c => Clock (_psp_normalize_ticks (HW_TICKS_PER_TICK c)
          (with_hw hw (PSP_INC_TICKS (TIME c)))) (TIME_OFFSET c) (TICKS_PER_SECOND c) (HW_TICKS_PER_TICK c)
          (SYSTEM_CLOCK_INT_NUMBER c)))|]. intros _.
    apply sees_gets; [intros; reflexivity|intros k Hk].
    apply sees_bind; [by apply sees_wake, Hk|intros _].
    apply sees_bind; [apply sees_slice|intros _]. apply sees_bind; [apply sees_ret|intros _]. apply sees_ret. }
  all: see.
Qed.

(** Readying such a task only records an error. *)
Lemma ready_veiled {w zs} t d k : t ∈ zs -> TD k !! t = Some d -> is_ready k (ACTIVE_PTR k) -> hidden w zs k ->
  run_call (Ready t) (veil zs k) = run_call (Ready (ACTIVE_PTR k)) (veil zs k).
Proof.
  intros Ht Hd (e & He & Hr) Hk. cbn. unfold _task_ready.
  rewrite (bind_run _ _ _ _ _ (get_td_run t _ _ (veil_td_in zs k t d Ht Hd))).
  assert (TD (veil zs k) !! ACTIVE_PTR k = Some e) as He' by (rewrite veil_td_out; [done|apply Hk]).
  rewrite (bind_run _ _ _ _ _ (get_td_run _ _ _ He')), Hr. done.
Qed.

(** *** Waking *)

(** Waking such a task ends its special case. *)
Lemma sees_wake_first w zs timed s t n k k' : waiting_state w -> hidden w zs k ->
  wake_first timed s t n k = Some (tt, k') ->
  wake_first timed s t n (veil zs k) = Some (tt, veil (zs ∖ {[t]}) k') /\ hidden w (zs ∖ {[t]}) k'.
Proof.
  intros Hw Hk E. destruct (decide (t ∈ zs)) as [Ht|Ht].
  - destruct (hd_td _ _ _ Hk t Ht) as (d & Hd & Hst).
    assert (forall k0 e, TD k0 !! t = Some e -> Z.testbit (STATE e) 8 = false ->
      wake_first timed s t n k0 = Some (tt, ready_k t (with_INFO n e)
        (set_TD (<[t := with_INFO n e]>) (set_AUX_QUEUES (fun m => <[s := without t (on m s)]> m) k0)))) as Hrun.
    { intros k0 e He H8. unfold wake_first. set (k1 := set_AUX_QUEUES _ k0).
      rewrite (bind_run _ _ _ _ _ (eq_refl : aux_remove s t k0 = Some (tt, k1))).
      rewrite (bind_run _ _ k1 tt k1).
      2: { destruct timed; [|done]. by apply (time_dequeue_none t e). }
      rewrite (bind_run _ _ _ _ _ (upd_td_run t _ e k1 He)). apply task_ready_run. apply lookup_insert_eq. }
    assert (Z.testbit (STATE d) 8 = false) as H8 by (rewrite Hst; apply Hw).
    rewrite (Hrun k d Hd H8) in E. injection E as <-.
    rewrite (Hrun (veil zs k) (with_STATE READY d)); [|by apply veil_td_in|done]. split.
    + f_equal. f_equal. apply kernel_eq; [done|]. intros u. rewrite veil_td. cbn.
      rewrite !lookup_insert. case_decide.
      * subst. cbn. by rewrite decide_False by set_solver.
      * rewrite map_lookup_imap. destruct (TD k !! u) as [e|]; [|done]. cbn.
        destruct (decide (u ∈ zs)); [rewrite decide_True by set_solver|rewrite decide_False by set_solver]; done.
    + destruct Hk as [H1 H2 H3 H4]. split; cbn.
      * set_solver.
      * intros p u. rewrite on_insert. case_decide; [|intros Hu; specialize (H2 p u Hu); set_solver].
        subst. rewrite elem_of_app, list_elem_of_singleton. intros [Hu| ->]; [specialize (H2 _ u Hu)|]; set_solver.
      * intros u Hu. specialize (H3 u Hu). set_solver.
      * intros u Hu. rewrite !lookup_insert_ne by set_solver. apply H4. set_solver.
  - assert (zs ∖ {[t]} = zs) as -> by set_solver. refine ((_ : sees w zs _) k tt k' Hk E).
    unfold wake_first. apply sees_bind; [by apply sees_quiet_modify|]. intros _. apply sees_bind.
    + destruct timed; [|apply sees_ret]. unfold _TIME_DEQUEUE. apply sees_bind; [by apply sees_get_td|]. intros d.
      apply sees_if; [|apply sees_ret]. apply sees_bind; [|intros _; by apply sees_upd_td].
      apply sees_modify; [done|]. intros k1 [H1 H2 H3 H4]. split; try done. intros u. cbn. rewrite elem_of_without.
      intros [_ Hu]. auto.
    + intros _. apply sees_bind; [by apply sees_upd_td|]. intros _. by apply sees_ready.
Qed.

(** Blocking the running task without setting its state makes one more. *)
Lemma block_again w zs s d k k' : hidden w zs k -> IN_ISR k = 0 ->
  TD k !! ACTIVE_PTR k = Some d -> STATE d = READY -> ACTIVE_PTR k ∉ TIMEOUT_QUEUE k ->
  (block_on w s (ACTIVE_PTR k);; _sched_execute_scheduler_internal) k = Some (tt, k') ->
  (upd_td (ACTIVE_PTR k) (with_INFO s);; _QUEUE_UNLINK (ACTIVE_PTR k);; aux_enqueue s (ACTIVE_PTR k);;
     _sched_execute_scheduler_internal) (veil zs k) = Some (tt, veil (zs ∪ {[ACTIVE_PTR k]}) k') /\
  hidden w (zs ∪ {[ACTIVE_PTR k]}) k'.
Proof.
  intros Hk Hi Hd Hr Hq. set (t := ACTIVE_PTR k) in *. assert (t ∉ zs) as Ht by apply Hk.
  unfold block_on. rewrite !bind_assoc. rewrite (bind_run _ _ _ _ _ (upd_td_run t _ d k Hd)).
  set (k1 := block_k w s t d k).
  intros E. change (_sched_execute_scheduler_internal k1 = Some (tt, k')) in E.
  assert (TD (veil zs k) !! t = Some d) as Hd2 by (by rewrite veil_td_out).
  rewrite (bind_run _ _ _ _ _ (upd_td_run t _ d _ Hd2)).
  set (k2 := set_AUX_QUEUES (fun m => <[s := on m s ++ [t]]> m)
    (set_TD (<[t := with_INFO s d]>) (set_READY_Q_LIST (fmap (without t)) (veil zs k)))).
  change (_sched_execute_scheduler_internal k2 = Some (tt, veil (zs ∪ {[t]}) k') /\ hidden w (zs ∪ {[t]}) k').
  assert (hidden w (zs ∪ {[t]}) k' /\ TD k' = TD k1) as [Hk' Et].
  { revert E. unfold _sched_execute_scheduler_internal, mbind, M_bind, gets. cbn. rewrite Hi. cbn.
    unfold _pend_svc. cbn. destruct (find_noempty_que _ _ _) as [[p u]|] eqn:Ef; [|done]. intros [= <-].
    split; [|done].
    assert (forall p u, u ∈ on (without t <$> READY_Q_LIST k) p -> u ∉ zs ∪ {[t]}) as Hin.
    { intros p0 v. unfold on. rewrite lookup_fmap. pose proof (hd_ready _ _ _ Hk p0 v) as H. unfold on in H.
      destruct (READY_Q_LIST k !! p0); cbn in *; [|intros Hv; by apply elem_of_nil in Hv].
      rewrite elem_of_without. intros [Hne Hv]. specialize (H Hv). set_solver. }
    split; cbn.
    - by apply (Hin p), (find_in _ _ _ _ _ Ef).
    - exact Hin.
    - intros v Hv Hz. apply elem_of_union in Hz as [Hz|Hz]; [by apply (hd_tmo _ _ _ Hk v)|set_solver].
    - intros v Hz. destruct (decide (v = t)) as [->|Hv].
      + eexists. rewrite lookup_insert_eq. by split.
      + rewrite lookup_insert_ne by done. apply (hd_td _ _ _ Hk). set_solver. }
  split; [|done].
  assert (veil (zs ∪ {[t]}) k1 = k2) as <-.
  { apply kernel_eq; [done|]. intros u. rewrite veil_td. cbn. rewrite !lookup_insert. destruct (decide (t = u)) as [<-|Hne].
    - cbn. destruct (decide _) as [_|Hn]; [|destruct Hn; apply elem_of_union_r, elem_of_singleton_2; done].
      unfold blocked_on. f_equal. rewrite <-Hr. by destruct d.
    - rewrite map_lookup_imap. destruct (TD k !! u) as [e|]; [|done]. cbn.
      destruct (decide (u ∈ zs)); [rewrite decide_True by set_solver|rewrite decide_False by set_solver]; done. }
  revert E. unfold _sched_execute_scheduler_internal, mbind, M_bind, gets.
  change (IN_ISR (veil (zs ∪ {[t]}) k1)) with (IN_ISR k1). destruct (IN_ISR k1 =? 0); [|by intros [= <-]].
  unfold _pend_svc. cbn. destruct (find_noempty_que _ _ _) as [[p u]|]; [|done]. by intros [= <-].
Qed.

End Veil.
