(* ===== verification/Lwsem.v ===== *)
(** * Lightweight semaphores: [kernel/lwsem.c]

    The state is that of the scheduler with the memory of the semaphores.  The
    queue of tasks that wait on a semaphore ([TD_QUEUE]) links the tasks through
    [AUX_QUEUE]; it is in [AUX_QUEUES] under the address of the semaphore, which
    is what a waiting task has in [INFO].

    A wait that blocks ends, in the model, where the task is switched away; [PC]
    records what the task does when it runs again, and [resume] is that part of
    the function. *)

From S2P Require Import Prelude Clocks Kernel Frame Waits.

Module Lwsem.

Export Waits.

Definition LWSEM_VALID : Z := 1819767661.        (* 0x6C77736D *)
Definition MQX_INVALID_LWSEM : Z := 31.
Definition MQX_LWSEM_WAIT_TIMEOUT : Z := 55.
Definition MQX_EINVAL : Z := 1040.               (* POSIX_ERROR_BASE | 0x10 *)

Record sem := Sem { VALUE : Z; SVALID : Z }.

(** Where a task that a wait has switched away goes on: after the call of the
    scheduler in [_lwsem_wait] (and [_lwsem_wait_ticks] with no timeout), or
    after the call of [_time_delay_internal] in [_lwsem_wait_timed_internal]. *)
Inductive pc := InWait (s : Z) | InTimed (s : Z).

Definition pc_sem (p : pc) : Z := match p with InWait s | InTimed s => s end.

Record lw := Lw {
  KD : kernel;
  SEMS : gmap Z sem;
  LWSEM : list Z;                        (* the semaphores that are not hidden *)
  PC : gmap Z pc
}.

Definition set_KD (k : kernel) (L : lw) : lw := Lw k (SEMS L) (LWSEM L) (PC L).
Definition set_SEMS (f : gmap Z sem -> gmap Z sem) (L : lw) : lw :=
  Lw (KD L) (f (SEMS L)) (LWSEM L) (PC L).
Definition set_LWSEM (f : list Z -> list Z) (L : lw) : lw :=
  Lw (KD L) (SEMS L) (f (LWSEM L)) (PC L).
Definition set_PC (f : gmap Z pc -> gmap Z pc) (L : lw) : lw :=
  Lw (KD L) (SEMS L) (LWSEM L) (f (PC L)).

Abbreviation kern := (zoom KD set_KD).

#[export] Instance sem_zoom : ZoomLaw KD set_KD.
Proof. by intros []. Qed.

#[local] Abbreviation set_KD_same := (zoom_same (get := KD) (set := set_KD)).
#[local] Abbreviation kern_run := (zoom_run (get := KD) (set := set_KD)).

Definition get_sem (s : Z) : M lw sem := fun L =>
  match SEMS L !! s with Some v => Some (v, L) | None => None end.
Definition set_VALUE (s v : Z) : M lw unit :=
  sm ← get_sem s; modify (set_SEMS (<[s := Sem v (SVALID sm)]>)).

(** A wait returns, or switches away. *)
Inductive outcome := Returned (r : Z) | Switched.

(** ** Creation and destruction *)

Definition _lwsem_create_internal (s initial_number : Z) (hidden : bool) : M lw Z :=
  m ← gets SEMS;
  let valid := match m !! s with Some sm => SVALID sm | None => 0 end in
  modify (set_SEMS (<[s := Sem initial_number valid]>));;
  kern (modify (set_AUX_QUEUES (<[s := []]>)));;
  l ← gets LWSEM;
  if negb hidden && bool_decide (s ∈ l) then mret MQX_EINVAL
  else
    (if hidden then mret tt else modify (set_LWSEM (fun l => l ++ [s])));;
    modify (set_SEMS (<[s := Sem initial_number LWSEM_VALID]>));;
    mret MQX_OK.

Definition _lwsem_create (s initial_number : Z) : M lw Z :=
  _lwsem_create_internal s initial_number false.
Definition _lwsem_create_hidden (s initial_number : Z) : M lw Z :=
  _lwsem_create_internal s initial_number true.

Definition _lwsem_destroy_internal (s : Z) : M lw Z :=
  sm ← get_sem s;
  if negb (SVALID sm =? LWSEM_VALID) then mret MQX_INVALID_LWSEM
  else
    modify (set_SEMS (<[s := Sem (VALUE sm) 0]>));;
    L ← gets id;
    kern (release_all (on (AUX_QUEUES (KD L)) s) s);;
    modify (set_LWSEM (without s));;
    kern _sched_check_scheduler_internal;;
    mret MQX_OK.
Definition _lwsem_destroy (s : Z) : M lw Z := _lwsem_destroy_internal s.

Definition _lwsem_is_valid (sem_ptr : option Z) : M lw bool :=
  match sem_ptr with
  | None => mret false
  | Some s => sm ← get_sem s; mret (SVALID sm =? LWSEM_VALID)
  end.

(** ** Poll and post *)

Definition _lwsem_poll (s : Z) : M lw bool :=
  sm ← get_sem s;
  if negb (SVALID sm =? LWSEM_VALID) then mret false
  else if VALUE sm <=? 0 then mret false
  else set_VALUE s (VALUE sm - 1);; mret true.

Definition _lwsem_post (s : Z) : M lw Z :=
  sm ← get_sem s;
  if negb (SVALID sm =? LWSEM_VALID) then mret MQX_INVALID_LWSEM
  else
    L ← gets id;
    match on (AUX_QUEUES (KD L)) s with
    | t :: _ =>
        if 0 <=? VALUE sm then
          kern (aux_remove s t;;
                _TIME_DEQUEUE t;;
                upd_td t (with_INFO 0);;
                _task_ready_internal t;;
                _sched_check_scheduler_internal);;
          mret MQX_OK
        else set_VALUE s (to_signed 32 (VALUE sm + 1));; mret MQX_OK
    | [] => set_VALUE s (to_signed 32 (VALUE sm + 1));; mret MQX_OK
    end.

(** ** Waiting *)

(** The guards the waits share: [k] is the rest, with the semaphore. *)
Definition wait_guard (s : Z) (k : sem -> M lw outcome) : M lw outcome :=
  L ← gets id;
  if negb (IN_ISR (KD L) =? 0) then mret (Returned MQX_CANNOT_CALL_FUNCTION_FROM_ISR)
  else
    sm ← get_sem s;
    if negb (SVALID sm =? LWSEM_VALID) then mret (Returned MQX_INVALID_LWSEM)
    else k sm.

Definition take (s : Z) (sm : sem) : M lw outcome :=
  set_VALUE s (VALUE sm - 1);; mret (Returned MQX_OK).

Definition wait_forever (s t : Z) : M lw outcome :=
  modify (set_PC (<[t := InWait s]>));;
  kern (block_on LWSEM_BLOCKED s t;; _sched_execute_scheduler_internal);;
  mret Switched.

Definition _lwsem_wait_timed_internal (s t : Z) : M lw outcome :=
  modify (set_PC (<[t := InTimed s]>));;
  kern (block_on LWSEM_BLOCKED s t;; _time_delay_internal t);;
  mret Switched.

(** The callers set the timeout first. *)
Definition wait_timed (s : Z) (f : clock -> td -> td) : M lw outcome :=
  t ← kern active;
  c ← kern (gets CLOCK);
  kern (upd_td t (f c));;
  _lwsem_wait_timed_internal s t.

Definition _lwsem_wait (s : Z) : M lw outcome :=
  wait_guard s (fun sm =>
    if VALUE sm <=? 0 then t ← kern active; wait_forever s t
    else take s sm).

Definition _lwsem_wait_for (s : Z) (tick : ticks) : M lw outcome :=
  wait_guard s (fun sm =>
    if VALUE sm <=? 0
    then wait_timed s (fun c =>
           with_TIMEOUT (_psp_add_ticks (HW_TICKS_PER_TICK c) tick (TIME c)))
    else take s sm).

Definition _lwsem_wait_ticks (s time_in_ticks : Z) : M lw outcome :=
  wait_guard s (fun sm =>
    if VALUE sm <=? 0 then
      if time_in_ticks =? 0 then t ← kern active; wait_forever s t
      else wait_timed s (fun c d =>
             with_TIMEOUT (PSP_ADD_TICKS_TO_TICK_STRUCT (TIME c) time_in_ticks (TIMEOUT d)) d)
    else take s sm).

Definition _lwsem_wait_until (s : Z) (tick : ticks) : M lw outcome :=
  wait_guard s (fun sm =>
    if VALUE sm <=? 0 then wait_timed s (fun _ => with_TIMEOUT tick)
    else take s sm).

(** The rest of the wait of the running task; the result. *)
Definition resume : M lw Z :=
  t ← kern active;
  L ← gets id;
  p ← lift_opt (PC L !! t);
  d ← kern (get_td t);
  let result := match p with
                | InWait _ => MQX_OK
                | InTimed _ => if negb (INFO d =? 0) then MQX_LWSEM_WAIT_TIMEOUT else MQX_OK
                end in
  sm ← get_sem (pc_sem p);
  modify (set_PC (delete t));;
  mret (if negb (SVALID sm =? LWSEM_VALID) then MQX_INVALID_LWSEM else result).

(** ** Lemmas on single steps *)

#[local] Arguments Z.testbit : simpl never.
#[local] Arguments Z.land : simpl never.
#[local] Arguments Z.lor : simpl never.

Lemma LWSEM_BLOCKED_waiting : waiting_state LWSEM_BLOCKED.
Proof. done. Qed.

(** ** The system: tasks, interrupts and semaphores *)

(** [t] has been readied with a token, or by a destruction, and has not returned
    from its wait on [s] yet: the wait will succeed if [s] is valid then. *)
Definition granted (L : lw) (s t : Z) : bool :=
  match PC L !! t, TD (KD L) !! t with
  | Some p, Some d =>
      (pc_sem p =? s) && negb (Z.testbit (STATE d) 10) &&
      match p with InWait _ => true | InTimed _ => INFO d =? 0 end
  | _, _ => false
  end.

Definition tasks (L : lw) : list Z := elements (dom (TD (KD L))).

Definition pending (L : lw) (s : Z) : Z := count (granted L s) (tasks L).

(** What happens to tokens.  [Created s n k]: [s] is set up with [n] tokens while
    [k] waits on its address, from before, are under way and will succeed;
    [Wrapped s]: the post to a count of [2 ^ 31 - 1]. *)
Inductive event :=
  | Created (s n k : Z) | Destroyed (s : Z) | Posted (s : Z) | Wrapped (s : Z) | Acquired (s : Z).

#[export] Instance event_eq_dec : EqDecision event.
Proof. solve_decision. Defined.

Inductive action :=
  | ACreate (s initial_number : Z) (hidden : bool) | ADestroy (s : Z)
  | AWait (s : Z) | AWaitFor (s : Z) (tick : ticks) | AWaitTicks (s n : Z)
  | AWaitUntil (s : Z) (tick : ticks)
  | APost (s : Z) | APoll (s : Z)
  | AResume                       (* the running task goes on after a wait *)
  | ACall (c : kcall).            (* another kernel call, an interrupt or a tick *)

Definition of_outcome (s : Z) (o : outcome) : list event :=
  match o with Returned r => if r =? MQX_OK then [Acquired s] else [] | Switched => [] end.

Definition posted (L : lw) (s : Z) : event :=
  match SEMS L !! s with
  | Some sm => if VALUE sm =? 2 ^ 31 - 1 then Wrapped s else Posted s
  | None => Posted s
  end.

(** A step, and what it does to tokens: a wait or a poll that succeeds acquires
    one, a post that succeeds gives one.  A creation sets the count even when it
    is refused. *)
Definition run_action (a : action) : M lw (list event) :=
  L ← gets id;
  match a with
  | ACreate s n hidden =>
      _lwsem_create_internal s n hidden;; mret [Created s n (pending L s)]
  | ADestroy s => r ← _lwsem_destroy s; mret (if r =? MQX_OK then [Destroyed s] else [])
  | AWait s => o ← _lwsem_wait s; mret (of_outcome s o)
  | AWaitFor s tick => o ← _lwsem_wait_for s tick; mret (of_outcome s o)
  | AWaitTicks s n => o ← _lwsem_wait_ticks s n; mret (of_outcome s o)
  | AWaitUntil s tick => o ← _lwsem_wait_until s tick; mret (of_outcome s o)
  | APost s => r ← _lwsem_post s; mret (if r =? MQX_OK then [posted L s] else [])
  | APoll s => b ← _lwsem_poll s; mret (if (b : bool) then [Acquired s] else [])
  | AResume =>
      t ← kern active;
      p ← lift_opt (PC L !! t);
      r ← resume;
      mret (of_outcome (pc_sem p) (Returned r))
  | ACall c => kern (run_call c);; mret []
  end.

(** The running task is not inside a wait. *)
Definition free (L : lw) : Prop := IN_ISR (KD L) = 0 -> PC L !! ACTIVE_PTR (KD L) = None.

(** When a call is a correct use.  A semaphore is not created over one that
    tasks wait on: see [lwsem_create_loses_waiters]. *)
Definition can (idle : Z) (L : lw) (a : action) : Prop :=
  match a with
  | ACreate s n _ => free L /\ s <> 0 /\ - 2 ^ 31 <= n < 2 ^ 31 /\ on (AUX_QUEUES (KD L)) s = []
  | ADestroy s => is_Some (SEMS L !! s) /\ free L
  | AWait s | AWaitFor s _ | AWaitTicks s _ | AWaitUntil s _ =>
      is_Some (SEMS L !! s) /\ free L /\ ACTIVE_PTR (KD L) <> idle
  | APost s | APoll s => is_Some (SEMS L !! s) /\ free L
  | AResume => IN_ISR (KD L) = 0 /\ is_Some (PC L !! ACTIVE_PTR (KD L))
  | ACall c => quiet c = true /\ allowed idle (KD L) c /\ (c = IsrEnter \/ free L)
  end.

(** *** The specification: a ledger of tokens

    The account of a semaphore is its tokens and a floor: zero, or below zero for
    a semaphore created with a negative count.  A token is acquired only above
    the floor; there is no account, and nothing to acquire, once the semaphore is
    destroyed. *)

Abbreviation ledger := (gmap Z (Z * Z)).

Definition ledger_step (b : ledger) (e : event) : option ledger :=
  match e with
  | Created s n k => Some (<[s := (n + k, Z.min n 0)]> b)
  | Destroyed s => _ ← b !! s; Some (delete s b)
  | Posted s => '(n, low) ← b !! s; Some (<[s := (n + 1, low)]> b)
  | Wrapped s => '(n, _) ← b !! s; Some (<[s := (n + 1 - 2 ^ 32, - 2 ^ 31)]> b)
  | Acquired s => '(n, low) ← b !! s; if low <? n then Some (<[s := (n - 1, low)]> b) else None
  end.

Fixpoint ledger_run (b : ledger) (evs : list event) : option ledger :=
  match evs with
  | [] => Some b
  | e :: evs' => b' ← ledger_step b e; ledger_run b' evs'
  end.

(** A ledger is right: a valid semaphore, and no other, has an account; its tokens
    are its count and those that are on their way to the tasks that wait. *)
Definition account (L : lw) (s : Z) (e : option (Z * Z)) : Prop :=
  match SEMS L !! s with
  | Some sm =>
      if SVALID sm =? LWSEM_VALID
      then exists low, e = Some (VALUE sm + pending L s, low) /\ low <= 0 /\ low <= VALUE sm
      else e = None
  | None => e = None
  end.

Definition books (L : lw) (b : ledger) : Prop := forall s, account L s (b !! s).

Record linv (idle : Z) (L : lw) : Prop := {
  li_sys : sys idle (KD L);
  li_wait : forall s t, t ∈ on (AUX_QUEUES (KD L)) s ->
    exists sm, SEMS L !! s = Some sm /\ VALUE sm <= 0 /\ SVALID sm = LWSEM_VALID;
  li_blocked : forall t d, TD (KD L) !! t = Some d -> Z.testbit (STATE d) 10 = true ->
    exists p, PC L !! t = Some p /\ pc_sem p = INFO d /\
      (Z.testbit (STATE d) 8 = true -> exists s, p = InTimed s);
  li_sem : forall s sm, SEMS L !! s = Some sm -> s <> 0 /\ - 2 ^ 31 <= VALUE sm < 2 ^ 31;
  li_pc : forall t p, PC L !! t = Some p ->
    is_Some (TD (KD L) !! t) /\ is_Some (SEMS L !! pc_sem p);
  li_list : forall s, s ∈ LWSEM L -> exists sm, SEMS L !! s = Some sm /\ SVALID sm = LWSEM_VALID
}.

(** What a step does to the books. *)
Definition balanced (L L' : lw) (ev : list event) : Prop :=
  forall b, books L b -> exists b', ledger_run b ev = Some b' /\ books L' b'.

(** *** Counting *)

Lemma tasks_dom L t : t ∈ tasks L <-> is_Some (TD (KD L) !! t).
Proof. unfold tasks. by rewrite elem_of_elements, elem_of_dom. Qed.

Lemma tasks_same L L' : dom (TD (KD L')) = dom (TD (KD L)) -> tasks L' = tasks L.
Proof. unfold tasks. by intros ->. Qed.

Lemma pending_flip L L' s t : dom (TD (KD L')) = dom (TD (KD L)) -> is_Some (TD (KD L) !! t) ->
  granted L s t = false -> granted L' s t = true ->
  (forall u, u <> t -> granted L s u = granted L' s u) -> pending L' s = pending L s + 1.
Proof.
  intros Hd Ht Hf Hg He. unfold pending. rewrite (tasks_same L L' Hd).
  apply (count_flip _ _ _ t); [unfold tasks; apply NoDup_elements|by apply tasks_dom|done..].
Qed.

Lemma pending_ext L L' s : dom (TD (KD L')) = dom (TD (KD L)) ->
  (forall u, granted L' s u = granted L s u) -> pending L' s = pending L s.
Proof. intros Hd He. unfold pending. rewrite (tasks_same L L' Hd). apply count_ext_in. auto. Qed.

(** *** Steps that leave the tasks alone *)

Definition steps {A} (m : M lw A) (L : lw) (P : A -> lw -> Prop) : Prop :=
  exists a L', m L = Some (a, L') /\ P a L'.

Lemma steps_ret {A} (a : A) L (P : A -> lw -> Prop) : P a L -> steps (mret a) L P.
Proof. intros H. by exists a, L. Qed.

Lemma steps_eq {A B} (m : M lw A) (f : A -> M lw B) L a L' P :
  m L = Some (a, L') -> steps (f a) L' P -> steps (m ≫= f) L P.
Proof. intros E (b & L2 & E2 & HP). exists b, L2. by rewrite (bind_run _ _ _ _ _ E). Qed.

Lemma get_sem_run s sm L : SEMS L !! s = Some sm -> get_sem s L = Some (sm, L).
Proof. intros H. unfold get_sem. by rewrite H. Qed.

Lemma set_VALUE_run s v sm L : SEMS L !! s = Some sm ->
  set_VALUE s v L = Some (tt, set_SEMS (<[s := Sem v (SVALID sm)]>) L).
Proof. intros H. unfold set_VALUE. by rewrite (bind_run _ _ _ _ _ (get_sem_run s sm L H)). Qed.

(** A semaphore changes its value: nobody may wait on it if it becomes positive. *)
Lemma linv_value idle L s sm v : linv idle L -> SEMS L !! s = Some sm -> - 2 ^ 31 <= v < 2 ^ 31 ->
  v <= 0 \/ on (AUX_QUEUES (KD L)) s = [] -> linv idle (set_SEMS (<[s := Sem v (SVALID sm)]>) L).
Proof.
  intros [H1 H2 H3 H4 H5 H6] Hs Hv Hq. split; cbn.
  - done.
  - intros s' t Ht. destruct (H2 s' t Ht) as (sm' & Hs' & Hle & Hva). rewrite lookup_insert.
    case_decide; [|by exists sm']. subst s'. simplify_eq. eexists. split; [done|]. cbn. split; [|done].
    destruct Hq as [|Hq]; [done|]. rewrite Hq in Ht. by apply elem_of_nil in Ht.
  - done.
  - intros s' sm'. rewrite lookup_insert. case_decide; [|by apply H4]. subst. intros [= <-]. cbn.
    destruct (H4 _ _ Hs) as (? & ?). done.
  - intros t p Hp. destruct (H5 t p Hp) as [? ?]. split; [done|].
    rewrite lookup_insert. case_decide; [by eexists|done].
  - intros s' Hin. destruct (H6 s' Hin) as (sm' & Hs' & Hva). rewrite lookup_insert.
    case_decide; [|by exists sm']. subst s'. simplify_eq. by eexists.
Qed.

(** *** Books *)

Lemma account_same L L' s e : SEMS L' !! s = SEMS L !! s -> pending L' s = pending L s ->
  account L s e -> account L' s e.
Proof. unfold account. by intros -> ->. Qed.

Lemma balanced_same L L' : (forall s, SEMS L' !! s = SEMS L !! s) -> (forall s, pending L' s = pending L s) ->
  balanced L L' [].
Proof. intros H1 H2 b Hb. exists b. split; [done|]. intros s. apply (account_same L L'); [apply H1|apply H2|apply Hb]. Qed.

Lemma balanced_refl L : balanced L L [].
Proof. by apply balanced_same. Qed.

(** Nothing is pending on an invalid semaphore as far as the books go. *)
Lemma balanced_invalid L L' s sm : SEMS L !! s = Some sm -> SVALID sm <> LWSEM_VALID ->
  (forall s', SEMS L' !! s' = SEMS L !! s') -> (forall s', s' <> s -> pending L' s' = pending L s') ->
  balanced L L' [].
Proof.
  intros Hs Hva H1 H2 b Hb. exists b. split; [done|]. intros s'. destruct (decide (s' = s)) as [->|Hne].
  - specialize (Hb s). unfold account in *. rewrite H1, Hs in *. by rewrite (proj2 (Z.eqb_neq _ _) Hva) in *.
  - apply (account_same L L'); [apply H1|by apply H2|apply Hb].
Qed.

(** An event about [s] alone. *)
Definition event_sem (e : event) : Z :=
  match e with Created s _ _ | Destroyed s | Posted s | Wrapped s | Acquired s => s end.

Lemma ledger_other b e b' s : ledger_step b e = Some b' -> s <> event_sem e -> b' !! s = b !! s.
Proof.
  intros E Hs. destruct e as [x n k|x|x|x|x]; cbn in *;
    [injection E as <-; by rewrite lookup_insert_ne|..]; destruct (b !! x) as [[m low]|]; cbn in E; try done.
  - injection E as <-. by rewrite lookup_delete_ne.
  - injection E as <-. by rewrite lookup_insert_ne.
  - injection E as <-. by rewrite lookup_insert_ne.
  - destruct (low <? m); [|done]. injection E as <-. by rewrite lookup_insert_ne.
Qed.

Lemma balanced_event L L' e :
  (forall s, s <> event_sem e -> SEMS L' !! s = SEMS L !! s /\ pending L' s = pending L s) ->
  (forall b, account L (event_sem e) (b !! event_sem e) ->
     exists b', ledger_step b e = Some b' /\ account L' (event_sem e) (b' !! event_sem e)) ->
  balanced L L' [e].
Proof.
  intros Ho He b Hb. destruct (He b (Hb _)) as (b' & E & Ha). exists b'. cbn. rewrite E. split; [done|].
  intros s. destruct (decide (s = event_sem e)) as [->|Hne]; [done|].
  destruct (Ho s Hne) as [H1 H2]. rewrite (ledger_other _ _ _ _ E Hne). apply (account_same L L'); [done|done|apply Hb].
Qed.

(** A valid semaphore, before and after. *)
Lemma balanced_valid L L' e sm sm' :
  (forall s, s <> event_sem e -> SEMS L' !! s = SEMS L !! s /\ pending L' s = pending L s) ->
  SEMS L !! event_sem e = Some sm -> SVALID sm = LWSEM_VALID ->
  SEMS L' !! event_sem e = Some sm' -> SVALID sm' = LWSEM_VALID ->
  (forall b low, b !! event_sem e = Some (VALUE sm + pending L (event_sem e), low) ->
     low <= 0 -> low <= VALUE sm ->
     exists b' low', ledger_step b e = Some b' /\ low' <= 0 /\ low' <= VALUE sm' /\
       b' !! event_sem e = Some (VALUE sm' + pending L' (event_sem e), low')) ->
  balanced L L' [e].
Proof.
  intros Ho Hs Hva Hs' Hva' He. apply balanced_event; [done|]. intros b Ha. unfold account in *.
  rewrite Hs, Hva, Z.eqb_refl in Ha. rewrite Hs', Hva', Z.eqb_refl.
  destruct Ha as (low & Hb & H1 & H2). destruct (He b low Hb H1 H2) as (b' & low' & E & H3 & H4 & Hb').
  exists b'. split; [done|]. by exists low'.
Qed.

Lemma value_frame L s v s' : s' <> s ->
  SEMS (set_SEMS (<[s := v]>) L) !! s' = SEMS L !! s' /\ pending (set_SEMS (<[s := v]>) L) s' = pending L s'.
Proof. intros H. split; [cbn; by rewrite lookup_insert_ne|done]. Qed.

Definition good_step (idle : Z) (L : lw) (ev : list event) (L' : lw) : Prop :=
  linv idle L' /\ balanced L L' ev.

Lemma sem_good_refl idle L : linv idle L -> good_step idle L [] L.
Proof. intros H. split; [done|apply balanced_refl]. Qed.

(** Taking a token that is there. *)
Lemma take_good idle L s sm : linv idle L -> SEMS L !! s = Some sm -> SVALID sm = LWSEM_VALID ->
  0 < VALUE sm -> good_step idle L [Acquired s] (set_SEMS (<[s := Sem (VALUE sm - 1) (SVALID sm)]>) L).
Proof.
  intros Hl Hs Hva Hv. destruct (li_sem _ _ Hl _ _ Hs) as (_ & Hr). split.
  - apply linv_value; [done|done|lia|]. right.
    destruct (on (AUX_QUEUES (KD L)) s) as [|t l] eqn:E; [done|].
    destruct (li_wait _ _ Hl s t) as (sm' & Hs' & Hv' & _); [rewrite E; set_solver|]. simplify_eq. lia.
  - assert (0 <= pending L s) as Hp by apply count_nonneg.
    eapply (balanced_valid L _ (Acquired s) sm (Sem (VALUE sm - 1) (SVALID sm))); [intros s' Hne; by apply value_frame|exact Hs|exact Hva|
      exact (lookup_insert_eq _ _ _)|exact Hva|].
    intros b low Hb H1 H2. cbn [event_sem] in *. cbn [ledger_step]. rewrite Hb. cbn.
    rewrite (proj2 (Z.ltb_lt _ _)) by lia. eexists _, low. split; [done|]. split_and!; [done|cbn; lia|].
    rewrite lookup_insert_eq. change (pending (set_SEMS _ L) s) with (pending L s). cbn. do 2 f_equal. lia.
Qed.

Lemma poll_good idle L s : linv idle L -> is_Some (SEMS L !! s) ->
  steps (run_action (APoll s)) L (good_step idle L).
Proof.
  intros Hl [sm Hs]. cbn [run_action]. eapply steps_eq; [done|]. unfold _lwsem_poll.
  unfold steps. rewrite (bind_assoc _ _ _ L), (bind_run _ _ _ _ _ (get_sem_run s sm L Hs)).
  destruct (Z.eqb_spec (SVALID sm) LWSEM_VALID) as [Hv|]; cbn [negb]; [|eexists _, _; split; [done|by apply sem_good_refl]].
  destruct (Z.leb_spec (VALUE sm) 0).
  - eexists _, _. split; [done|]. by apply sem_good_refl.
  - rewrite (bind_assoc _ _ _ L), (bind_run _ _ _ _ _ (set_VALUE_run s _ sm L Hs)).
    eexists _, _. split; [done|]. by apply take_good.
Qed.

(** A kernel call that is not about semaphores. *)
Lemma linv_frame idle L k : linv idle L -> sys idle k -> frame (KD L) k -> linv idle (set_KD k L).
Proof.
  intros [H1 H2 H3 H4 H5 H6] Hs Hf. split; cbn; [done| | |done| |done].
  - intros s t Ht. apply (H2 s t). apply in_aux in Ht as (d' & Hd' & H10 & HI); [|apply Hs].
    destruct (frame_td' _ _ _ _ Hf Hd') as (d & Hd & U1 & U2 & U3 & _).
    apply in_aux; [apply H1|]. exists d. split_and!; [done| |congruence].
    destruct (Z.testbit (STATE d) 10) eqn:E; [done|]. by rewrite (U3 eq_refl) in H10.
  - intros t d' Hd' H10. destruct (frame_td' _ _ _ _ Hf Hd') as (d & Hd & U1 & U2 & U3 & _).
    destruct (Z.testbit (STATE d) 10) eqn:E; [|by rewrite (U3 eq_refl) in H10].
    destruct (H3 t d Hd E) as (p & Hp & Hps & H8). exists p. split_and!; [done|congruence|].
    destruct (U2 eq_refl) as [->|[_ E']]; [done|congruence].
  - intros t p Hp. destruct (H5 t p Hp) as [[d Hd] ?]. split; [|done].
    destruct (frame_td _ _ _ _ Hf Hd) as (d' & -> & _). by eexists.
Qed.

Lemma granted_frame idle L k s t : linv idle L -> frame (KD L) k ->
  granted (set_KD k L) s t = granted L s t.
Proof.
  intros [H1 H2 H3 H4 H5 _] Hf. unfold granted. cbn. destruct (PC L !! t) as [p|] eqn:Ep; [|done].
  specialize (Hf t). destruct (TD (KD L) !! t) as [d|] eqn:Ed, (TD k !! t) as [d'|] eqn:Ed'; try done.
  destruct Hf as (U1 & U2 & U3 & _). rewrite U1. destruct (Z.testbit (STATE d) 10) eqn:E.
  - destruct (U2 eq_refl) as [->|[E8 E']]; [by rewrite E|]. rewrite E'.
    destruct (H3 t d Ed E) as (p' & Hp' & Hps & H8). simplify_eq.
    destruct (H8 E8) as [s' ->]. cbn in *. subst s'.
    destruct (H5 _ _ Ep) as [_ [sm Hsm]]. cbn in Hsm. destruct (H4 _ _ Hsm) as (Hnz & _).
    rewrite (proj2 (Z.eqb_neq _ _) Hnz). by rewrite !andb_false_r.
  - by rewrite (U3 eq_refl).
Qed.

Lemma call_good idle L c : linv idle L -> quiet c = true -> allowed idle (KD L) c ->
  steps (run_action (ACall c)) L (good_step idle L).
Proof.
  intros Hl Hq Ha. destruct (quiet_call idle (KD L) c (li_sys _ _ Hl) Ha Hq) as ([] & k & E & Hs & Hf).
  cbn [run_action]. eapply steps_eq; [done|]. eapply steps_eq; [by apply kern_run|]. apply steps_ret. split.
  - by apply linv_frame.
  - apply balanced_same; [done|]. intros s.
    apply pending_ext; [by apply frame_dom|]. intros u. by eapply granted_frame.
Qed.

(** *** Blocking *)

(** The state after the running task has been blocked on [s]. *)
Lemma blocked_good idle L s sm t d d' p k' :
  linv idle L -> SEMS L !! s = Some sm -> VALUE sm <= 0 -> SVALID sm = LWSEM_VALID ->
  TD (KD L) !! t = Some d -> PC L !! t = None ->
  sys idle k' -> TD k' = <[t:=d']> (TD (KD L)) ->
  AUX_QUEUES k' = <[s := on (AUX_QUEUES (KD L)) s ++ [t]]> (AUX_QUEUES (KD L)) ->
  Z.testbit (STATE d') 10 = true -> INFO d' = s -> pc_sem p = s ->
  (Z.testbit (STATE d') 8 = true -> exists s', p = InTimed s') ->
  good_step idle L [] (Lw k' (SEMS L) (LWSEM L) (<[t:=p]> (PC L))).
Proof.
  intros [H1 H2 H3 H4 H5 H6] Hs Hv Hva Hd Hpc Hs' Ht Ha H10 HI Hp H8. split; [split; cbn; [done| | |done| |done]|].
  - intros s' u. rewrite Ha, on_insert. case_decide; [subst s'; by eauto|apply H2].
  - intros u e. rewrite Ht, !lookup_insert. case_decide; [|by apply H3].
    subst u. intros [= <-] _. exists p. split_and!; [done|congruence|done].
  - intros u q. rewrite Ht, !lookup_insert. case_decide; [|by apply H5].
    intros [= <-]. rewrite Hp. split; by eexists.
  - apply balanced_same; [done|]. intros s'. apply pending_ext.
    + cbn. rewrite Ht, dom_insert_L. apply elem_of_dom_2 in Hd. set_solver.
    + intros u. unfold granted. cbn. rewrite Ht, !lookup_insert. case_decide; [|done].
      subst u. by rewrite Hpc, H10, andb_false_r.
Qed.

Lemma free_pc idle L : linv idle L -> free L -> IN_ISR (KD L) = 0 ->
  exists d, TD (KD L) !! ACTIVE_PTR (KD L) = Some d /\ STATE d = READY /\
    PC L !! ACTIVE_PTR (KD L) = None.
Proof. intros Hl Hf Hi. destruct (sys_run _ _ (li_sys _ _ Hl)) as (d & Hd & Hs). exists d. auto. Qed.

Lemma wait_forever_good idle L s sm :
  linv idle L -> SEMS L !! s = Some sm -> VALUE sm <= 0 -> SVALID sm = LWSEM_VALID -> free L -> IN_ISR (KD L) = 0 ->
  ACTIVE_PTR (KD L) <> idle ->
  steps (wait_forever s (ACTIVE_PTR (KD L))) L (fun o L' => good_step idle L (of_outcome s o) L').
Proof.
  intros Hl Hs Hv Hva Hf Hi Hne. destruct (free_pc _ _ Hl Hf Hi) as (d & Hd & Hsd & Hpc).
  destruct (block_exec idle _ s (KD L) d LWSEM_BLOCKED_waiting (li_sys _ _ Hl) Hi Hne Hd) as (k' & E & [B1 B2 B3]).
  unfold wait_forever. eapply steps_eq; [done|].
  eapply steps_eq; [apply kern_run; exact E|]. apply steps_ret.
  by eapply (blocked_good idle L s sm _ d _ (InWait s)).
Qed.

Lemma wait_timed_good idle L s sm f :
  linv idle L -> SEMS L !! s = Some sm -> VALUE sm <= 0 -> SVALID sm = LWSEM_VALID -> free L -> IN_ISR (KD L) = 0 ->
  ACTIVE_PTR (KD L) <> idle -> (forall c e, exists n, f c e = with_TIMEOUT n e) ->
  steps (wait_timed s f) L (fun o L' => good_step idle L (of_outcome s o) L').
Proof.
  intros Hl Hs Hv Hva Hf Hi Hne Hft. destruct (free_pc _ _ Hl Hf Hi) as (d & Hd & Hsd & Hpc).
  unfold wait_timed. eapply steps_eq; [apply zoom_active|].
  eapply steps_eq; [apply (kern_run (gets CLOCK)); done|]. rewrite set_KD_same.
  destruct (Hft (CLOCK (KD L)) d) as [n Hn].
  destruct (block_delay idle _ s (KD L) d n LWSEM_BLOCKED_waiting (li_sys _ _ Hl) Hi Hne Hd) as (k' & E & [B1 B2 B3]).
  set (t := ACTIVE_PTR (KD L)) in *. set (d1 := with_TIMEOUT n d) in *.
  set (k1 := set_TD (<[t := d1]>) (KD L)) in *.
  assert (upd_td t (f (CLOCK (KD L))) (KD L) = Some (tt, k1)) as E1 by (rewrite (upd_td_run _ _ _ _ Hd), Hn; done).
  eapply steps_eq; [by apply kern_run|].
  assert (block_on LWSEM_BLOCKED s t k1 = Some (tt, block_k LWSEM_BLOCKED s t d1 k1)) as E2.
  { eapply block_on_run; [done|eapply kinv_timeout; [apply (li_sys _ _ Hl)|done|done]| |done].
    cbn. by rewrite lookup_insert, decide_True. }
  unfold _lwsem_wait_timed_internal. eapply steps_eq; [done|].
  eapply steps_eq; [apply kern_run; cbn; rewrite (bind_run _ _ _ _ _ E2); exact E|].
  apply steps_ret. eapply (blocked_good idle L s sm t d _ (InTimed s)); try done. by exists s.
Qed.

(** All waits: the error from an interrupt, taking a token, or blocking [w]. *)
Lemma wait_good idle L s (w : sem -> M lw outcome) :
  linv idle L -> is_Some (SEMS L !! s) ->
  (forall sm, SEMS L !! s = Some sm -> SVALID sm = LWSEM_VALID -> IN_ISR (KD L) = 0 ->
     steps (w sm) L (fun o L' => good_step idle L (of_outcome s o) L')) ->
  steps (o ← wait_guard s w; mret (of_outcome s o)) L (good_step idle L).
Proof.
  intros Hl [sm Hs] Hw.
  unfold steps, wait_guard. rewrite (bind_assoc _ _ _ L).
  rewrite (bind_run _ _ _ _ _ (eq_refl : gets id L = Some (L, L))).
  destruct (Z.eqb_spec (IN_ISR (KD L)) 0) as [Hi|Hi]; cbn [negb].
  - rewrite (bind_assoc _ _ _ L), (bind_run _ _ _ _ _ (get_sem_run s sm L Hs)).
    destruct (Z.eqb_spec (SVALID sm) LWSEM_VALID) as [Hv|]; cbn [negb];
      [|eexists _, _; split; [done|by apply sem_good_refl]].
    destruct (Hw sm Hs Hv Hi) as (o & L' & E & Hg). eexists _, _.
    rewrite (bind_run _ _ _ _ _ E). by split.
  - eexists _, _. split; [done|]. by apply sem_good_refl.
Qed.

Lemma take_steps idle L s sm : linv idle L -> SEMS L !! s = Some sm -> SVALID sm = LWSEM_VALID -> 0 < VALUE sm ->
  steps (take s sm) L (fun o L' => good_step idle L (of_outcome s o) L').
Proof.
  intros Hl Hs Hva Hv. unfold take. eapply steps_eq; [by apply set_VALUE_run|]. apply steps_ret.
  by apply take_good.
Qed.

Lemma waits_good idle L s a :
  linv idle L -> can idle L a -> is_Some (SEMS L !! s) ->
  a = AWait s \/ (exists tk, a = AWaitFor s tk) \/ (exists n, a = AWaitTicks s n) \/
    (exists tk, a = AWaitUntil s tk) ->
  steps (run_action a) L (good_step idle L).
Proof.
  intros Hl Ha Hs Hor.
  assert (free L /\ ACTIVE_PTR (KD L) <> idle) as [Hf Hne]
    by (destruct Hor as [->|[[? ->]|[[? ->]|[? ->]]]]; apply Ha).
  destruct Hor as [->|[[tk ->]|[[n ->]|[tk ->]]]]; cbn [run_action]; (eapply steps_eq; [done|]);
    apply wait_good; try done; intros sm Hsm Hva Hi; destruct (Z.leb_spec (VALUE sm) 0); try (by apply take_steps).
  - eapply steps_eq; [apply zoom_active|]. by eapply wait_forever_good.
  - eapply wait_timed_good; eauto.
  - case_if; [|eapply wait_timed_good; eauto].
    eapply steps_eq; [apply zoom_active|]. by eapply wait_forever_good.
  - eapply wait_timed_good; eauto.
Qed.

(** *** Posting *)

(** What a post does to the kernel when [t] waits first. *)
Lemma post_kernel idle k s t d :
  sys idle k -> TD k !! t = Some d -> Z.testbit (STATE d) 10 = true -> INFO d = s ->
  exists k', (aux_remove s t;; _TIME_DEQUEUE t;; upd_td t (with_INFO 0);; _task_ready_internal t;;
              _sched_check_scheduler_internal) k = Some (tt, k') /\ sys idle k' /\
    TD k' = <[t := readied (with_INFO 0 (undelayed d))]> (TD k) /\
    on (AUX_QUEUES k') s = without t (on (AUX_QUEUES k) s) /\
    TIMEOUT_QUEUE k' = without t (TIMEOUT_QUEUE k) /\ IN_ISR k' = IN_ISR k.
Proof.
  intros Hs Hd H10 HI. pose proof Hs as [Hp Hr _].
  destruct (wake_first_run idle true k s t d 0 Hp Hd H10 HI) as (k1 & E & [W1 W2 W3 W4 W5 W6]); [done|].
  destruct (check_sys idle k1 W1) as (k' & E' & Hs' & Hw).
  { destruct W3 as (-> & _). by apply W2. }
  exists k'. rewrite (seq5 _ _ _ _ _ _ _ E). pose proof (switched_lists _ _ Hw) as (A1 & A2 & _ & _ & A3).
  rewrite A1, A2, A3, (switched_aux _ _ Hw). split_and!; try done. by destruct W3 as (_ & -> & _).
Qed.

(** The post to a semaphore that [t] waits on first. *)
Lemma post_waiter_run idle L s sm t l :
  linv idle L -> SEMS L !! s = Some sm -> on (AUX_QUEUES (KD L)) s = t :: l -> 0 <= VALUE sm ->
  exists k' d p, _lwsem_post s L = Some (MQX_OK, set_KD k' L) /\ sys idle k' /\
    TD (KD L) !! t = Some d /\ Z.testbit (STATE d) 10 = true /\ INFO d = s /\
    TD k' = <[t := readied (with_INFO 0 (undelayed d))]> (TD (KD L)) /\
    on (AUX_QUEUES k') s = l /\ TIMEOUT_QUEUE k' = without t (TIMEOUT_QUEUE (KD L)) /\
    SVALID sm = LWSEM_VALID /\ VALUE sm = 0 /\ PC L !! t = Some p /\ pc_sem p = s.
Proof.
  intros Hl Hs Hq Hv. pose proof Hl as [H1 H2 H3 H4 H5 H6].
  assert (t ∈ on (AUX_QUEUES (KD L)) s) as Hin by (rewrite Hq; set_solver).
  destruct (H2 s t Hin) as (sm' & Hs' & Hle & Hva). simplify_eq.
  apply in_aux in Hin as (d & Hd & H10 & HI); [|apply H1].
  destruct (post_kernel idle (KD L) s t d H1 Hd H10 HI) as (k' & E & Hs2 & Ht & Ha & Htq & _).
  destruct (H3 t d Hd H10) as (p & Hp & Hps & _).
  exists k', d, p. split_and!; try done; [| |lia|congruence].
  - unfold _lwsem_post. rewrite (bind_run _ _ _ _ _ (get_sem_run s sm L Hs)), Hva, Z.eqb_refl. cbn [negb].
    rewrite (bind_run _ _ _ _ _ (eq_refl : gets id L = Some (L, L))). unfold id.
    rewrite Hq, (proj2 (Z.leb_le _ _) Hv). by rewrite (bind_run _ _ _ _ _ (kern_run _ _ _ _ E)).
  - rewrite Ha, Hq. apply without_cons.
    pose proof (sh_aux _ (proj1 (pre_inv _ _ (sys_pre _ _ H1))) s) as Hnd. rewrite Hq in Hnd.
    by apply NoDup_cons in Hnd as [? _].
Qed.

Lemma post_waiter_good idle L s sm t l :
  linv idle L -> SEMS L !! s = Some sm -> on (AUX_QUEUES (KD L)) s = t :: l -> 0 <= VALUE sm ->
  steps (_lwsem_post s) L (fun r L' => r = MQX_OK /\ good_step idle L [posted L s] L').
Proof.
  intros Hl Hs Hq Hv. pose proof Hl as [H1 H2 H3 H4 H5 H6].
  destruct (post_waiter_run idle L s sm t l Hl Hs Hq Hv)
    as (k' & d & p & E & Hs' & Hd & H10 & HI & Ht & _ & _ & Hva & Hv0 & Hp & Hps).
  assert (posted L s = Posted s) as -> by (unfold posted; by rewrite Hs, Hv0).
  exists MQX_OK, (set_KD k' L). split; [done|]. split; [done|].
  split; [split; cbn; [done| | |done| |done]|].
  - intros s' u Hu. apply (H2 s' u). apply in_aux in Hu as (e & He & Hb & Hi); [|apply Hs'].
    rewrite Ht, lookup_insert in He. case_decide; [by simplify_eq|].
    apply in_aux; [apply H1|eauto].
  - intros u e. rewrite Ht, lookup_insert. case_decide; [by intros [= <-]|by apply H3].
  - intros u q Hq'. destruct (H5 u q Hq') as [? ?]. split; [|done]. rewrite Ht, lookup_insert.
    case_decide; [by eexists|done].
  - assert (dom (TD k') = dom (TD (KD L))) as Hdom.
    { rewrite Ht, dom_insert_L. apply elem_of_dom_2 in Hd. set_solver. }
    assert (forall s' u, u <> t -> granted L s' u = granted (set_KD k' L) s' u) as Hsame.
    { intros s' u Hu. unfold granted. cbn. by rewrite Ht, lookup_insert_ne. }
    assert (forall s', granted (set_KD k' L) s' t = (pc_sem p =? s')) as Hg'.
    { intros s'. unfold granted. cbn. rewrite Hp, Ht, lookup_insert, decide_True by done. cbn.
      change (Z.testbit READY 10) with false. cbn. by destruct p; rewrite !andb_true_r. }
    assert (forall s', granted L s' t = false) as Hg.
    { intros s'. unfold granted. rewrite Hp, Hd, H10. by rewrite andb_false_r. }
    eapply (balanced_valid L _ (Posted s) sm sm); [|done|done|done|done|]; cbn [event_sem].
    + intros s' Hne. split; [done|]. apply pending_ext; [done|].
      intros u. destruct (decide (u = t)) as [->|Hu]; [|by rewrite Hsame].
      rewrite Hg, Hg'. apply Z.eqb_neq. congruence.
    + intros b low Hb L1 L2. cbn [ledger_step]. rewrite Hb. cbn. eexists _, low. split; [done|].
      split_and!; [done|done|]. rewrite lookup_insert_eq.
      rewrite (pending_flip L (set_KD k' L) s t); [do 2 f_equal; lia|done|by eexists|done|..].
      * rewrite Hg'. apply Z.eqb_eq. congruence.
      * intros u Hu. by apply Hsame.
Qed.

Lemma post_count_good idle L s sm :
  linv idle L -> SEMS L !! s = Some sm -> SVALID sm = LWSEM_VALID ->
  on (AUX_QUEUES (KD L)) s = [] \/ VALUE sm < 0 ->
  steps (_lwsem_post s) L (fun r L' => r = MQX_OK /\ good_step idle L [posted L s] L').
Proof.
  intros Hl Hs Hva Hor. destruct (li_sem _ _ Hl _ _ Hs) as (_ & Hr).
  assert (steps (set_VALUE s (to_signed 32 (VALUE sm + 1));; mret MQX_OK) L
            (fun r L' => r = MQX_OK /\ good_step idle L [posted L s] L')) as H.
  { eapply steps_eq; [by apply set_VALUE_run|]. apply steps_ret. split; [done|]. split.
    - apply linv_value; [done|done|apply (to_signed_range 32); lia|].
      destruct Hor as [|Hn]; [by right|left]. rewrite (to_signed_small 32) by lia. lia.
    - set (v := to_signed 32 (VALUE sm + 1)).
      assert (event_sem (posted L s) = s) as Ee by (unfold posted; rewrite Hs; by case_if).
      eapply (balanced_valid L _ (posted L s) sm (Sem v (SVALID sm))); rewrite ?Ee;
        [intros s' Hne; by apply value_frame|exact Hs|exact Hva|exact (lookup_insert_eq _ _ _)|exact Hva|].
      intros b low Hb L1 L2. unfold posted. rewrite Hs.
      change (pending (set_SEMS _ L) s) with (pending L s). cbn [VALUE].
      destruct (Z.eqb_spec (VALUE sm) (2 ^ 31 - 1)) as [Em|Em]; cbn [ledger_step]; rewrite Hb; cbn.
      + assert (v = - 2 ^ 31) as Ev by (unfold v; rewrite Em; reflexivity). rewrite Ev. clearbody v.
        eexists _, (- 2 ^ 31). split; [done|]. split_and!; [lia|lia|]. rewrite lookup_insert_eq. do 2 f_equal. lia.
      + assert (v = VALUE sm + 1) as Ev by (apply (to_signed_small 32); lia). rewrite Ev. clearbody v.
        eexists _, low. split; [done|]. split_and!; [done|lia|]. rewrite lookup_insert_eq. do 2 f_equal. lia. }
  unfold _lwsem_post. eapply steps_eq; [by apply get_sem_run|]. rewrite Hva, Z.eqb_refl. cbn [negb].
  eapply steps_eq; [done|]. unfold id.
  destruct (on (AUX_QUEUES (KD L)) s) as [|t l]; [done|].
  destruct Hor as [|Hn]; [done|]. by rewrite (proj2 (Z.leb_gt _ _) Hn).
Qed.

Lemma post_good idle L s : linv idle L -> is_Some (SEMS L !! s) ->
  steps (run_action (APost s)) L (good_step idle L).
Proof.
  intros Hl [sm Hs]. cbn [run_action]. eapply steps_eq; [done|]. unfold id.
  destruct (Z.eqb_spec (SVALID sm) LWSEM_VALID) as [Hva|Hva].
  - assert (steps (_lwsem_post s) L (fun r L' => r = MQX_OK /\ good_step idle L [posted L s] L'))
      as (r & L' & E & -> & Hg).
    { destruct (on (AUX_QUEUES (KD L)) s) as [|t l] eqn:Eq; [by eapply post_count_good; eauto|].
      destruct (Z.leb_spec 0 (VALUE sm)); [by eapply post_waiter_good|by eapply post_count_good; eauto]. }
    eapply steps_eq; [done|]. by apply steps_ret.
  - eapply (steps_eq _ _ _ MQX_INVALID_LWSEM L); [|apply steps_ret; by apply sem_good_refl].
    unfold _lwsem_post. rewrite (bind_run _ _ _ _ _ (get_sem_run s sm L Hs)).
    by rewrite (proj2 (Z.eqb_neq _ _) Hva).
Qed.

(** *** Going on after a wait *)

Lemma resume_good idle L : linv idle L -> can idle L AResume ->
  steps (run_action AResume) L (good_step idle L).
Proof.
  intros Hl (Hi & p & Hp). pose proof Hl as [H1 H2 H3 H4 H5 H6].
  set (t := ACTIVE_PTR (KD L)) in *. destruct (H5 t p Hp) as [[d Hd] [sm Hsm]].
  destruct (sys_run _ _ H1) as (d' & Hd' & Hsd). fold t in Hd'. simplify_eq.
  set (L' := set_PC (delete t) L).
  set (res := match p with InWait _ => MQX_OK
              | InTimed _ => if negb (INFO d =? 0) then MQX_LWSEM_WAIT_TIMEOUT else MQX_OK end).
  assert (resume L = Some (if negb (SVALID sm =? LWSEM_VALID) then MQX_INVALID_LWSEM else res, L')) as E.
  { unfold resume. rewrite (bind_run _ _ _ _ _ (zoom_active L)).
    rewrite (bind_run _ _ _ _ _ (eq_refl : gets id L = Some (L, L))). fold t.
    rewrite (bind_run _ _ L p L) by (unfold lift_opt, id; by rewrite Hp).
    erewrite bind_run; [|apply kern_run; by apply get_td_run]. rewrite set_KD_same.
    by rewrite (bind_run _ _ _ _ _ (get_sem_run _ sm L Hsm)). }
  cbn [run_action]. eapply steps_eq; [done|]. eapply steps_eq; [apply zoom_active|]. fold t. unfold id.
  eapply steps_eq; [unfold lift_opt; by rewrite Hp|].
  eapply steps_eq; [exact E|]. apply steps_ret.
  split; [split; cbn; [done|done| |done| |done]|].
  - intros u e He H10. rewrite lookup_delete_ne; [by apply H3|]. intros <-. simplify_eq.
    by rewrite Hsd in H10.
  - intros u q Hq. apply H5. by rewrite lookup_delete_Some in Hq; destruct Hq.
  - assert (forall s u, u <> t -> granted L' s u = granted L s u) as Hsame.
    { intros s u Hu. unfold granted, L'. cbn. by rewrite lookup_delete_ne. }
    assert (forall s, granted L' s t = false) as Hg'.
    { intros s. unfold granted, L'. cbn. by rewrite lookup_delete, decide_True. }
    assert (forall s, granted L s t = (pc_sem p =? s) && (res =? MQX_OK)) as Hg.
    { intros s. unfold granted. rewrite Hp, Hd, Hsd. change (Z.testbit READY 10) with false. cbn [negb].
      rewrite andb_true_r. f_equal. unfold res. destruct p; [done|]. by destruct (INFO d =? 0). }
    assert (forall s, granted L s t = false -> pending L' s = pending L s) as Hpe.
    { intros s Hf. apply pending_ext; [done|]. intros u.
      destruct (decide (u = t)) as [->|Hu]; [by rewrite Hf, Hg'|by apply Hsame]. }
    assert (forall s, s <> pc_sem p -> pending L' s = pending L s) as Hoth.
    { intros s Hne. apply Hpe. rewrite Hg. apply andb_false_iff. left. apply Z.eqb_neq. congruence. }
    destruct (Z.eqb_spec (SVALID sm) LWSEM_VALID) as [Hva|Hva]; cbn [negb of_outcome].
    + destruct (Z.eqb_spec res MQX_OK) as [Er|Er].
      * eapply (balanced_valid L L' (Acquired (pc_sem p)) sm sm); [|done|done|done|done|]; cbn [event_sem].
        { intros s Hne. split; [done|by apply Hoth]. }
        intros b low Hb L1 L2. cbn [ledger_step]. rewrite Hb. cbn.
        assert (pending L (pc_sem p) = pending L' (pc_sem p) + 1) as Epe.
        { apply (pending_flip L' L _ t); [done|by eexists|done| |by intros; apply Hsame].
          by rewrite Hg, Z.eqb_refl. }
        assert (0 <= pending L' (pc_sem p)) by apply count_nonneg.
        rewrite (proj2 (Z.ltb_lt _ _)) by lia. eexists _, low. split; [done|].
        split_and!; [done|done|]. rewrite lookup_insert_eq. do 2 f_equal. lia.
      * apply balanced_same; [done|]. intros s. apply Hpe. rewrite Hg.
        apply andb_false_r.
    + eapply (balanced_invalid L L' (pc_sem p) sm); [done|done|done|exact Hoth].
Qed.

(** *** Creating and destroying *)

Lemma sem_create_run idle L s n hidden : linv idle L ->
  exists r l, _lwsem_create_internal s n hidden L = Some (r, Lw (set_AUX_QUEUES (<[s := []]>) (KD L))
      (<[s := Sem n LWSEM_VALID]> (SEMS L)) l (PC L)) /\
    ((r = MQX_EINVAL /\ hidden = false /\ s ∈ LWSEM L /\ l = LWSEM L) \/
     (r = MQX_OK /\ (hidden = true \/ s ∉ LWSEM L) /\ l = if hidden then LWSEM L else LWSEM L ++ [s])).
Proof.
  intros Hl. unfold _lwsem_create_internal.
  rewrite (bind_run _ _ _ _ _ (eq_refl : gets SEMS L = Some (SEMS L, L))). cbn zeta.
  set (v := match SEMS L !! s with Some sm => SVALID sm | None => 0 end).
  unfold mbind, M_bind, modify, gets, zoom. cbn.
  destruct hidden; cbn.
  - eexists _, _. split; [|by right; split; [done|split; [by left|done]]].
    do 2 f_equal. unfold set_SEMS. cbn. by rewrite insert_insert, decide_True.
  - destruct (decide (s ∈ LWSEM L)) as [Hin|Hin].
    + rewrite bool_decide_true by done. eexists _, _. split; [|by left].
      destruct (li_list _ _ Hl s Hin) as (sm & Hsm & Hva). unfold v. by rewrite Hsm, Hva.
    + rewrite bool_decide_false by done. eexists _, _. split; [|right; split; [done|split; [by right|done]]].
      do 2 f_equal. unfold set_SEMS. cbn. by rewrite insert_insert, decide_True.
Qed.

Lemma sem_create_good idle L s n hidden : linv idle L -> can idle L (ACreate s n hidden) ->
  steps (run_action (ACreate s n hidden)) L (good_step idle L).
Proof.
  intros Hl (_ & Hnz & Hn & Hq). pose proof Hl as [H1 H2 H3 H4 H5 H6].
  destruct (sem_create_run idle L s n hidden Hl) as (r & l & E & Hrl).
  cbn [run_action]. eapply steps_eq; [done|]. unfold id. eapply steps_eq; [exact E|]. apply steps_ret.
  destruct (sys_empty idle (KD L) s H1 Hq) as [Hs' Ho].
  set (L' := Lw _ (<[s := Sem n LWSEM_VALID]> (SEMS L)) l (PC L)).
  assert (SEMS L' !! s = Some (Sem n LWSEM_VALID)) as Hnew by apply lookup_insert_eq.
  assert (forall s', s' <> s -> SEMS L' !! s' = SEMS L !! s') as Hold by (intros; by apply lookup_insert_ne).
  split; [split|].
  - done.
  - intros s' t Ht. change (t ∈ on (<[s := []]> (AUX_QUEUES (KD L))) s') in Ht. rewrite Ho in Ht.
    destruct (decide (s' = s)) as [->|Hne]; [rewrite Hq in Ht; by apply elem_of_nil in Ht|].
    rewrite Hold by done. by apply (H2 s' t).
  - exact H3.
  - intros s' sm. destruct (decide (s' = s)) as [->|Hne]; [|rewrite Hold by done; apply H4].
    rewrite Hnew. by intros [= <-].
  - intros t p Hp. destruct (H5 t p Hp) as [? ?]. split; [done|].
    destruct (decide (pc_sem p = s)) as [->|Hne]; [by eexists|by rewrite Hold].
  - intros s' Hin. destruct (decide (s' = s)) as [->|Hne]; [eauto|]. rewrite Hold by done. apply H6.
    destruct Hrl as [(_ & _ & _ & ->)|(_ & _ & ->)]; [done|]. destruct hidden; [done|]. cbn in Hin.
    apply elem_of_app in Hin as [Hin|Hin]; [done|]. apply list_elem_of_singleton in Hin. congruence.
  - apply balanced_event; cbn [event_sem].
    + intros s' Hne. split; [by apply Hold|done].
    + intros b _. eexists. split; [done|]. rewrite lookup_insert_eq. unfold account. rewrite Hnew. cbn.
      exists (Z.min n 0). split_and!; [done|lia|lia].
Qed.

Lemma sem_destroy_run idle L s sm :
  sys idle (KD L) -> SEMS L !! s = Some sm -> SVALID sm = LWSEM_VALID ->
  exists k', _lwsem_destroy s L =
      Some (MQX_OK, Lw k' (<[s := Sem (VALUE sm) 0]> (SEMS L)) (without s (LWSEM L)) (PC L)) /\
    sys idle k' /\ on (AUX_QUEUES k') s = [] /\
    (forall t d, TD (KD L) !! t = Some d ->
       TD k' !! t = Some (if decide (t ∈ on (AUX_QUEUES (KD L)) s) then readied (undelayed d) else d)) /\
    (forall t, TD (KD L) !! t = None -> TD k' !! t = None).
Proof.
  intros Hsys Hs Hv. pose proof Hsys as [Hp Hr _].
  destruct (release_all_run s _ (KD L) (pre_inv _ _ Hp) eq_refl) as (k1 & E & Hk1 & Hc & Hq & Ht & Hn).
  assert (forall u, is_ready (KD L) u -> is_ready k1 u) as Hrd.
  { intros u (d & Hd & Hsd). unfold is_ready. rewrite (Ht u d Hd). case_decide; by eexists. }
  destruct (check_sys idle k1) as (k' & E' & Hs' & Hw).
  - eapply pre_ctl; [done|done|apply Hrd, Hp|done].
  - destruct Hc as (-> & _). by apply Hrd.
  - pose proof (switched_lists _ _ Hw) as (Et & _). pose proof (switched_aux _ _ Hw) as Ea.
    exists k'. rewrite Et, Ea. split_and!; [|done..].
    unfold _lwsem_destroy, _lwsem_destroy_internal.
    rewrite (bind_run _ _ _ _ _ (get_sem_run s sm L Hs)), Hv, Z.eqb_refl. cbn [negb].
    set (L1 := set_SEMS (<[s := Sem (VALUE sm) 0]>) L).
    rewrite (bind_run _ _ _ _ _ (eq_refl : modify (set_SEMS (<[s := Sem (VALUE sm) 0]>)) L = Some (tt, L1))).
    rewrite (bind_run _ _ _ _ _ (eq_refl : gets id L1 = Some (L1, L1))).
    rewrite (bind_run _ _ _ _ _ (kern_run (release_all (on (AUX_QUEUES (KD (id L1))) s) s) L1 tt k1 E)).
    erewrite bind_run; [|done]. by erewrite bind_run; [|by apply kern_run].
Qed.

Lemma sem_destroy_good idle L s : linv idle L -> is_Some (SEMS L !! s) ->
  steps (run_action (ADestroy s)) L (good_step idle L).
Proof.
  intros Hl [sm Hs]. pose proof Hl as [H1 H2 H3 H4 H5 H6]. cbn [run_action]. eapply steps_eq; [done|].
  destruct (Z.eqb_spec (SVALID sm) LWSEM_VALID) as [Hva|Hva].
  2: { eapply (steps_eq _ _ _ MQX_INVALID_LWSEM L); [|apply steps_ret; by apply sem_good_refl].
    unfold _lwsem_destroy, _lwsem_destroy_internal. rewrite (bind_run _ _ _ _ _ (get_sem_run s sm L Hs)).
    by rewrite (proj2 (Z.eqb_neq _ _) Hva). }
  destruct (sem_destroy_run idle L s sm H1 Hs Hva) as (k' & E & Hs' & Hq & Ht & Hn).
  eapply steps_eq; [exact E|]. apply steps_ret. rewrite Z.eqb_refl. set (L' := Lw k' _ _ _).
  assert (forall s', s' <> s -> SEMS L' !! s' = SEMS L !! s') as Hold by (intros; by apply lookup_insert_ne).
  assert (SEMS L' !! s = Some (Sem (VALUE sm) 0)) as Hnew by apply lookup_insert_eq.
  assert (forall t d', TD k' !! t = Some d' -> Z.testbit (STATE d') 10 = true -> TD (KD L) !! t = Some d') as Hback.
  { intros t d' Hd' H10. destruct (TD (KD L) !! t) as [d|] eqn:Ed; [|by rewrite (Hn t Ed) in Hd'].
    rewrite (Ht t d Ed) in Hd'. case_decide; [by simplify_eq|done]. }
  split; [split|].
  - done.
  - intros s' t Hin. destruct (decide (s' = s)) as [->|Hne].
    { change (t ∈ on (AUX_QUEUES k') s) in Hin. rewrite Hq in Hin. by apply elem_of_nil in Hin. }
    rewrite Hold by done. apply (H2 s' t). apply in_aux in Hin as (d' & Hd' & H10 & HI); [|apply Hs'].
    apply in_aux; [apply H1|]. exists d'. by split; [apply Hback|].
  - intros t d' Hd' H10. by apply H3; [apply Hback|].
  - intros s' sm'. destruct (decide (s' = s)) as [->|Hne]; [|rewrite Hold by done; apply H4].
    rewrite Hnew. intros [= <-]. by apply (H4 s sm).
  - intros t p Hp. destruct (H5 t p Hp) as [[d Hd] ?]. split; [by eexists; apply (Ht t d)|].
    destruct (decide (pc_sem p = s)) as [->|Hne]; [by eexists|by rewrite Hold].
  - intros s' Hin. cbn in Hin. rewrite elem_of_without in Hin. destruct Hin as [Hne Hin].
    rewrite Hold by done. by apply H6.
  - apply balanced_event; cbn [event_sem].
    + intros s' Hne. split; [by apply Hold|]. apply pending_ext.
      * cbn. apply set_eq. intros t. rewrite !elem_of_dom. destruct (TD (KD L) !! t) as [d|] eqn:Ed.
        -- rewrite (Ht t d Ed). split; by eexists.
        -- by rewrite (Hn t Ed).
      * intros u. unfold granted. cbn. destruct (PC L !! u) as [p|] eqn:Ep; [|done].
        destruct (TD (KD L) !! u) as [d|] eqn:Ed; [|by rewrite (Hn u Ed)]. rewrite (Ht u d Ed).
        case_decide as Hin; [|done]. apply in_aux in Hin as (d' & Hd' & H10 & HI); [|apply H1].
        assert (d' = d) as -> by congruence. destruct (H3 u d Ed H10) as (p' & Hp' & Hps & _). assert (p' = p) as -> by congruence.
        by rewrite (proj2 (Z.eqb_neq (pc_sem p) s')) by congruence.
    + intros b Ha. unfold account in *. rewrite Hs, Hva, Z.eqb_refl in Ha. destruct Ha as (low & Hb & _).
      cbn [ledger_step]. rewrite Hb. eexists. split; [done|]. rewrite lookup_delete_eq, Hnew. done.
Qed.

(** Every step that can be made is made without a fault. *)
Lemma action_good idle L a : linv idle L -> can idle L a ->
  steps (run_action a) L (good_step idle L).
Proof.
  intros Hl Ha. destruct a as [s n hidden|s|s|s tk|s n|s tk|s|s| |c].
  - by apply sem_create_good.
  - apply sem_destroy_good; [done|apply Ha].
  - eapply (waits_good idle L s); eauto. apply Ha.
  - eapply (waits_good idle L s); eauto. apply Ha.
  - eapply (waits_good idle L s); eauto. apply Ha.
  - eapply (waits_good idle L s); eauto 6. apply Ha.
  - apply post_good; [done|apply Ha].
  - apply poll_good; [done|apply Ha].
  - by apply resume_good.
  - destruct Ha as (? & ? & _). by apply call_good.
Qed.

(** The states that steps reach, with the tokens passed on the way. *)
Inductive lreach (idle : Z) (L0 : lw) : list event -> lw -> Prop :=
  | lreach_start : lreach idle L0 [] L0
  | lreach_step tr L a ev L' : lreach idle L0 tr L -> can idle L a ->
      run_action a L = Some (ev, L') -> lreach idle L0 (tr ++ ev) L'.

Lemma ledger_run_app b ev1 ev2 : ledger_run b (ev1 ++ ev2) = b' ← ledger_run b ev1; ledger_run b' ev2.
Proof.
  revert b. induction ev1 as [|e ev IH]; intros b; [done|]. cbn. destruct (ledger_step b e); [apply IH|done].
Qed.

Lemma lreach_good idle L0 tr L : linv idle L0 -> lreach idle L0 tr L -> linv idle L /\ balanced L0 L tr.
Proof.
  intros H0. induction 1 as [|tr L a ev L' _ [IH Hb] Ha E]; [split; [done|apply balanced_refl]|].
  destruct (action_good idle L a IH Ha) as (ev' & L'' & E' & Hg & Hb'). simplify_eq. split; [done|].
  intros b Hbk. destruct (Hb b Hbk) as (b1 & E1 & Hb1). destruct (Hb' b1 Hb1) as (b2 & E2 & Hb2).
  exists b2. rewrite ledger_run_app, E1. done.
Qed.

(** ** The properties *)

(** C8: Tokens are neither lost nor made up, however tasks and interrupts create,
    destroy, post, poll and wait.  What they do is a history of a ledger, which
    lets a token be acquired only from the account of a semaphore that exists,
    and only above its floor; and at the end the account of every valid semaphore
    is its count and the tokens handed to tasks that have not returned from their
    wait yet.  An account is opened with the initial count and with the waits
    that are still under way at the address of the semaphore when it is created,
    which a destruction had ended: they return [MQX_OK] without a post
    ([recreated_wait_succeeds]). *)
Theorem lwsem_conservation idle L0 tr L b0 :
  linv idle L0 -> lreach idle L0 tr L -> books L0 b0 ->
  exists b, ledger_run b0 tr = Some b /\
    forall s sm, SEMS L !! s = Some sm ->
      (SVALID sm = LWSEM_VALID ->
         exists low, b !! s = Some (VALUE sm + pending L s, low) /\ low <= 0 /\ low <= VALUE sm) /\
      (SVALID sm <> LWSEM_VALID -> b !! s = None).
Proof.
  intros H0 Hr Hb. destruct (lreach_good _ _ _ _ H0 Hr) as [_ Hbal].
  destruct (Hbal b0 Hb) as (b & E & Hbk). exists b. split; [done|]. intros s sm Hs.
  specialize (Hbk s). unfold account in Hbk. rewrite Hs in Hbk.
  destruct (Z.eqb_spec (SVALID sm) LWSEM_VALID); by split.
Qed.

(** C30: Wherever steps lead, creations and destructions among them, no wakeup is
    lost and the scheduler is sound: no task waits on a semaphore that has a
    positive count or is not valid, every waiting task is in the queue of the
    valid semaphore it waits on, and a task of the highest priority runs unless
    preemption is off.  (No semaphore is created over one that tasks wait on.) *)
Theorem lwsem_no_lost_wakeup idle L0 tr L :
  linv idle L0 -> lreach idle L0 tr L ->
  (forall s sm, SEMS L !! s = Some sm -> 0 < VALUE sm \/ SVALID sm <> LWSEM_VALID ->
     on (AUX_QUEUES (KD L)) s = []) /\
  (forall t d, TD (KD L) !! t = Some d -> Z.testbit (STATE d) 10 = true ->
     t ∈ on (AUX_QUEUES (KD L)) (INFO d) /\
     exists sm, SEMS L !! INFO d = Some sm /\ SVALID sm = LWSEM_VALID /\ VALUE sm <= 0) /\
  (forall d, IN_ISR (KD L) = 0 -> TD (KD L) !! ACTIVE_PTR (KD L) = Some d -> preemptible d ->
     highest (KD L) (ACTIVE_PTR (KD L))).
Proof.
  intros H0 Hr. destruct (lreach_good _ _ _ _ H0 Hr) as [[H1 H2 H3 H4 H5 H6] _]. split_and!.
  - intros s sm Hs Hv. destruct (on (AUX_QUEUES (KD L)) s) as [|t l] eqn:E; [done|].
    destruct (H2 s t) as (sm' & Hs' & Hv' & Hva); [rewrite E; set_solver|]. simplify_eq.
    destruct Hv; [lia|done].
  - intros t d Hd H10. assert (t ∈ on (AUX_QUEUES (KD L)) (INFO d)) as Hin by (apply in_aux; [apply H1|eauto]).
    split; [done|]. destruct (H2 _ _ Hin) as (sm & ? & ? & ?). eauto.
  - intros d. by eapply sys_highest.
Qed.

(** Every step that a task or an interrupt may make from a reachable state is
    made: no function of the component follows a bad pointer or finds no task
    to run. *)
Theorem lwsem_total idle L0 tr L a :
  linv idle L0 -> lreach idle L0 tr L -> can idle L a ->
  exists ev L', run_action a L = Some (ev, L').
Proof.
  intros H0 Hr Ha. destruct (action_good idle L a (proj1 (lreach_good _ _ _ _ H0 Hr)) Ha) as (ev & L' & E & _).
  eauto.
Qed.

(** A post to a semaphore on which tasks wait hands its token to the task
    that waits longest, which leaves the queue of the semaphore and the timeout
    queue and is ready, with [INFO] telling it that it was not a timeout; the
    count does not change. *)
Theorem lwsem_post_fifo idle L s sm t l :
  linv idle L -> SEMS L !! s = Some sm -> 0 <= VALUE sm -> on (AUX_QUEUES (KD L)) s = t :: l ->
  exists L' d', _lwsem_post s L = Some (MQX_OK, L') /\ SEMS L' = SEMS L /\
    on (AUX_QUEUES (KD L')) s = l /\
    TIMEOUT_QUEUE (KD L') = without t (TIMEOUT_QUEUE (KD L)) /\
    TD (KD L') = <[t := d']> (TD (KD L)) /\ STATE d' = READY /\ INFO d' = 0.
Proof.
  intros Hl Hs Hv Hq.
  destruct (post_waiter_run idle L s sm t l Hl Hs Hq Hv) as (k' & d & p & E & _ & _ & _ & _ & Ht & Ha & Htq & _).
  exists (set_KD k' L), (readied (with_INFO 0 (undelayed d))). by split_and!.
Qed.

(** *** Examples *)

Lemma linv_start idle k sems l : sys idle k ->
  (forall t d, TD k !! t = Some d -> Z.testbit (STATE d) 10 = false) ->
  (forall s sm, sems !! s = Some sm -> s <> 0 /\ - 2 ^ 31 <= VALUE sm < 2 ^ 31) ->
  (forall s, s ∈ l -> exists sm, sems !! s = Some sm /\ SVALID sm = LWSEM_VALID) ->
  linv idle (Lw k sems l ∅).
Proof.
  intros Hs Ht Hv Hli. split; cbn; [done| | |done| |done].
  - intros s t Hin. apply in_aux in Hin as (d & Hd & H10 & _); [|apply Hs]. by rewrite (Ht _ _ Hd) in H10.
  - intros t d Hd H10. by rewrite (Ht _ _ Hd) in H10.
  - intros t p Hp. by rewrite lookup_empty in Hp.
Qed.

(** Tasks 1 and 2 are ready at priority 3, 1 runs, and creates a semaphore at 200. *)
Definition ex_sys : lw := Lw (after (Ready 2) (after (Ready 1) ex_boot)) ∅ [] ∅.

Definition lafter (a : action) (L : lw) : lw :=
  match run_action a L with Some (_, L') => L' | None => L end.

Definition ex_lw : lw := lafter (ACreate 200 0 false) ex_sys.

Lemma ex_sys_linv : linv 9 ex_sys.
Proof.
  apply linv_start.
  - apply after_sys; [apply after_sys; [exact ex_boot_sys|]|];
      (eexists; split; [vm_compute; reflexivity|]; right; vm_compute; reflexivity).
  - assert (map_Forall (fun _ d => Z.testbit (STATE d) 10 = false) (TD (KD ex_sys))) as H; [|exact H].
    apply (bool_decide_eq_true_1 _). vm_compute. reflexivity.
  - intros s sm Hs. destruct (lookup_empty_Some (M := gmap Z) s sm Hs).
  - intros s Hs. by apply elem_of_nil in Hs.
Qed.

Lemma ex_sys_books : books ex_sys ∅.
Proof. intros s. unfold account. cbn. by rewrite !lookup_empty. Qed.

(** Task 1 waits, with a timeout of five ticks; task 2 posts, and yields; 1 goes on. *)
Definition ex_wait : lw := lafter (AWaitTicks 200 5) ex_lw.
Definition ex_post : lw := lafter (APost 200) ex_wait.
Definition ex_back : lw := lafter AResume (lafter (ACall Yield) ex_post).

(** Then 1 waits again; 2 destroys the semaphore, creates it again, and yields; 1
    goes on. *)
Definition ex_wait2 : lw := lafter (AWait 200) ex_back.
Definition ex_destroyed : lw := lafter (ADestroy 200) ex_wait2.
Definition ex_recreated : lw := lafter (ACreate 200 0 false) ex_destroyed.
Definition ex_end : lw := lafter AResume (lafter (ACall Yield) ex_recreated).

Ltac ex_free := intros _; vm_compute; reflexivity.
Ltac ex_sem := eexists; vm_compute; reflexivity.
Ltac ex_yield := split; [reflexivity|split; [exact I|right; ex_free]].
Ltac ex_resume := split; [vm_compute; reflexivity|ex_sem].

Lemma ex_create_can L : free L -> on (AUX_QUEUES (KD L)) 200 = [] -> can 9 L (ACreate 200 0 false).
Proof. intros. split_and!; [done|lia|lia|lia|done]. Qed.

Lemma ex_lw_reach : lreach 9 ex_sys [Created 200 0 0] ex_lw.
Proof.
  change [Created 200 0 0] with ([] ++ [Created 200 0 0]).
  eapply (lreach_step _ _ [] ex_sys (ACreate 200 0 false)); [constructor| |vm_compute; reflexivity].
  apply ex_create_can; [ex_free|reflexivity].
Qed.

Lemma ex_lw_linv : linv 9 ex_lw.
Proof. eapply lreach_good; [exact ex_sys_linv|exact ex_lw_reach]. Qed.

Lemma ex_wait_reach : lreach 9 ex_sys [Created 200 0 0] ex_wait.
Proof.
  change [Created 200 0 0] with ([Created 200 0 0] ++ []).
  eapply (lreach_step _ _ _ ex_lw (AWaitTicks 200 5)); [exact ex_lw_reach| |vm_compute; reflexivity].
  split; [ex_sem|]. split; [ex_free|vm_compute; discriminate].
Qed.

Lemma ex_wait_linv : linv 9 ex_wait.
Proof. eapply lreach_good; [exact ex_sys_linv|exact ex_wait_reach]. Qed.

Lemma ex_back_reach : lreach 9 ex_sys [Created 200 0 0; Posted 200; Acquired 200] ex_back.
Proof.
  change [Created 200 0 0; Posted 200; Acquired 200] with
    ((([Created 200 0 0] ++ [Posted 200]) ++ []) ++ [Acquired 200]).
  eapply (lreach_step _ _ _ (lafter (ACall Yield) ex_post) AResume); [|ex_resume|vm_compute; reflexivity].
  eapply (lreach_step _ _ _ ex_post (ACall Yield)); [|ex_yield|vm_compute; reflexivity].
  eapply (lreach_step _ _ _ ex_wait (APost 200)); [exact ex_wait_reach| |vm_compute; reflexivity].
  split; [ex_sem|ex_free].
Qed.

Lemma ex_end_reach : lreach 9 ex_sys [Created 200 0 0; Posted 200; Acquired 200; Destroyed 200;
  Created 200 0 1; Acquired 200] ex_end.
Proof.
  change [Created 200 0 0; Posted 200; Acquired 200; Destroyed 200; Created 200 0 1; Acquired 200] with
    ((((([Created 200 0 0; Posted 200; Acquired 200] ++ []) ++ [Destroyed 200]) ++ [Created 200 0 1]) ++ []) ++ [Acquired 200]).
  eapply (lreach_step _ _ _ (lafter (ACall Yield) ex_recreated) AResume); [|ex_resume|vm_compute; reflexivity].
  eapply (lreach_step _ _ _ ex_recreated (ACall Yield)); [|ex_yield|vm_compute; reflexivity].
  eapply (lreach_step _ _ _ ex_destroyed (ACreate 200 0 false));
    [|apply ex_create_can; [ex_free|vm_compute; reflexivity]|vm_compute; reflexivity].
  eapply (lreach_step _ _ _ ex_wait2 (ADestroy 200)); [|split; [ex_sem|ex_free]|vm_compute; reflexivity].
  eapply (lreach_step _ _ _ ex_back (AWait 200)); [exact ex_back_reach| |vm_compute; reflexivity].
  split; [ex_sem|]. split; [ex_free|vm_compute; discriminate].
Qed.

Lemma lwsem_conservation_witness : exists b low,
  ledger_run ∅ [Created 200 0 0; Posted 200; Acquired 200; Destroyed 200; Created 200 0 1; Acquired 200] = Some b /\
  b !! 200 = Some (0 + pending ex_end 200, low).
Proof.
  destruct (lwsem_conservation 9 ex_sys _ ex_end ∅ ex_sys_linv ex_end_reach ex_sys_books) as (b & E & H).
  destruct (H 200 (Sem 0 LWSEM_VALID)) as [Hv _]; [vm_compute; reflexivity|].
  destruct (Hv eq_refl) as (low & Hb & _). exists b, low. split; [exact E|exact Hb].
Defined.

Lemma lwsem_no_lost_wakeup_witness : 1 ∈ on (AUX_QUEUES (KD ex_wait)) 200 /\
  on (AUX_QUEUES (KD ex_destroyed)) 200 = [].
Proof.
  destruct (lwsem_no_lost_wakeup 9 ex_sys _ ex_wait ex_sys_linv ex_wait_reach) as (_ & H & _).
  split; [|vm_compute; reflexivity].
  destruct (TD (KD ex_wait) !! 1) as [d|] eqn:E; [|vm_compute in E; discriminate].
  assert (INFO d = 200 /\ Z.testbit (STATE d) 10 = true) as [E1 E2].
  { vm_compute in E. injection E as <-. split; reflexivity. }
  rewrite <-E1. apply (H 1 d E E2).
Defined.

Lemma lwsem_total_witness : exists ev L', run_action (APost 200) ex_wait = Some (ev, L').
Proof.
  apply (lwsem_total 9 ex_sys _ ex_wait _ ex_sys_linv ex_wait_reach).
  split; [eexists; vm_compute; reflexivity|]. intros _. vm_compute. reflexivity.
Defined.

Lemma lwsem_post_fifo_witness : exists L', _lwsem_post 200 ex_wait = Some (MQX_OK, L') /\
  on (AUX_QUEUES (KD L')) 200 = [].
Proof.
  destruct (lwsem_post_fifo 9 ex_wait 200 (Sem 0 LWSEM_VALID) 1 [] ex_wait_linv) as (L' & d' & E & _ & Hq & _);
    [vm_compute; reflexivity|cbn; lia|vm_compute; reflexivity|].
  exists L'. split; [exact E|exact Hq].
Defined.

(** Destroying a semaphore readies every task that waits on it, takes it off
    the list of semaphores and makes it invalid, so that their waits return
    [MQX_INVALID_LWSEM]; other tasks keep their descriptors and the scheduler
    stays sound. *)
Theorem lwsem_destroy_releases idle L s sm :
  sys idle (KD L) -> SEMS L !! s = Some sm -> SVALID sm = LWSEM_VALID ->
  exists L', _lwsem_destroy s L = Some (MQX_OK, L') /\ sys idle (KD L') /\
    SEMS L' !! s = Some (Sem (VALUE sm) 0) /\ s ∉ LWSEM L' /\ on (AUX_QUEUES (KD L')) s = [] /\
    (forall t d, TD (KD L) !! t = Some d -> t ∉ on (AUX_QUEUES (KD L)) s -> TD (KD L') !! t = Some d) /\
    (forall t, t ∈ on (AUX_QUEUES (KD L)) s -> exists d, TD (KD L') !! t = Some d /\ STATE d = READY).
Proof.
  intros Hsys Hs Hv. destruct (sem_destroy_run idle L s sm Hsys Hs Hv) as (k' & E & Hs' & Hq & Ht & _).
  eexists. split; [exact E|]. cbn. split_and!; [done|by rewrite lookup_insert_eq| |done| |].
  - rewrite elem_of_without. tauto.
  - intros t d Hd Hn. by rewrite (Ht t d Hd), decide_False.
  - intros t Hin. apply in_aux in Hin as Hin'; [|apply Hsys]. destruct Hin' as (d & Hd & _).
    rewrite (Ht t d Hd), decide_True by done. by eexists.
Qed.

Lemma lwsem_destroy_releases_witness : exists L', _lwsem_destroy 200 ex_wait = Some (MQX_OK, L') /\
  exists d, TD (KD L') !! 1 = Some d /\ STATE d = READY.
Proof.
  destruct (lwsem_destroy_releases 9 ex_wait 200 (Sem 0 LWSEM_VALID) (li_sys _ _ ex_wait_linv))
    as (L' & E & _ & _ & _ & _ & _ & H); [vm_compute; reflexivity|reflexivity|].
  exists L'. split; [exact E|]. apply H.
  assert (on (AUX_QUEUES (KD ex_wait)) 200 = [1]) as -> by (vm_compute; reflexivity).
  apply elem_of_cons. left. reflexivity.
Defined.

(** Creating a semaphore that exists fails with [MQX_EINVAL], but only after
    its queue has been emptied: a task that waits on it stays blocked and is in
    no queue of a semaphore any more, and posts do not wake it. *)
Theorem lwsem_create_loses_waiters idle L s sm n t l :
  linv idle L -> SEMS L !! s = Some sm -> s ∈ LWSEM L -> on (AUX_QUEUES (KD L)) s = t :: l ->
  exists L1 L2 d, _lwsem_create s n L = Some (MQX_EINVAL, L1) /\
    _lwsem_post s L1 = Some (MQX_OK, L2) /\
    TD (KD L2) !! t = Some d /\ Z.testbit (STATE d) 10 = true /\ INFO d = s /\
    (forall q, t ∉ on (AUX_QUEUES (KD L2)) q).
Proof.
  intros Hl Hs Hin Hq. pose proof Hl as [H1 H2 H3 H4 H5 H6].
  assert (t ∈ on (AUX_QUEUES (KD L)) s) as Ht by (rewrite Hq; set_solver).
  destruct (H2 s t Ht) as (sm' & Hs' & _ & Hva). assert (sm' = sm) as -> by congruence.
  pose proof (pre_inv _ _ (sys_pre _ _ H1)) as Hk.
  apply in_aux in Ht as (d & Hd & H10 & HI); [|done].
  set (L1 := Lw (set_AUX_QUEUES (<[s := []]>) (KD L)) (<[s := Sem n LWSEM_VALID]> (SEMS L)) (LWSEM L) (PC L)).
  set (L2 := set_SEMS (<[s := Sem (to_signed 32 (n + 1)) LWSEM_VALID]>) L1).
  assert (forall q, t ∉ on (AUX_QUEUES (KD L1)) q) as Hno.
  { intros q. cbn. rewrite on_insert. case_decide; [set_solver|]. intros Hx.
    apply in_aux in Hx as (e & He & _ & HIe); [|done]. congruence. }
  exists L1, L2, d. split_and!; [| |done|done|done|exact Hno].
  - unfold _lwsem_create, _lwsem_create_internal.
    rewrite (bind_run _ _ _ _ _ (eq_refl : gets SEMS L = Some (SEMS L, L))). rewrite Hs, Hva.
    unfold mbind, M_bind, modify, gets, zoom. cbn. by rewrite bool_decide_true.
  - assert (SEMS L1 !! s = Some (Sem n LWSEM_VALID)) as Hs1 by (cbn; by rewrite lookup_insert, decide_True).
    assert (on (AUX_QUEUES (KD L1)) s = []) as Hq1 by (cbn; by rewrite on_insert, decide_True).
    unfold _lwsem_post. rewrite (bind_run _ _ _ _ _ (get_sem_run s _ L1 Hs1)).
    rewrite Z.eqb_refl. cbn [negb].
    rewrite (bind_run _ _ _ _ _ (eq_refl : gets id L1 = Some (L1, L1))). unfold id. rewrite Hq1.
    by rewrite (bind_run _ _ _ _ _ (set_VALUE_run s _ _ L1 Hs1)).
Qed.

Lemma lwsem_create_loses_waiters_witness : exists L1 L2, _lwsem_create 200 0 ex_wait = Some (MQX_EINVAL, L1) /\
  _lwsem_post 200 L1 = Some (MQX_OK, L2) /\ (1 ∈ on (AUX_QUEUES (KD L2)) 200 -> False).
Proof.
  destruct (lwsem_create_loses_waiters 9 ex_wait 200 (Sem 0 LWSEM_VALID) 0 1 [] ex_wait_linv)
    as (L1 & L2 & d & E1 & E2 & _ & _ & _ & Hno);
    [vm_compute; reflexivity|apply elem_of_cons; left; reflexivity|vm_compute; reflexivity|].
  exists L1, L2. split; [exact E1|]. split; [exact E2|exact (Hno 200)].
Defined.

(** When a tick comes that is not before the timeout of a timed wait, the task
    leaves the queue of the semaphore, whose count stays, and is ready; when it
    runs again its wait returns [MQX_LWSEM_WAIT_TIMEOUT], unless the semaphore has
    been destroyed meanwhile. *)
Theorem lwsem_wait_times_out idle L hw t d :
  linv idle L -> 0 < IN_ISR (KD L) -> TD (KD L) !! t = Some d ->
  Z.testbit (STATE d) 10 = true -> Z.testbit (STATE d) 8 = true ->
  TICKS (TIMEOUT d) <= TICKS (tick_clock hw (KD L)) ->
  exists L', run_action (ACall (Tick hw)) L = Some ([], L') /\ SEMS L' = SEMS L /\
    t ∉ on (AUX_QUEUES (KD L')) (INFO d) /\ TD (KD L') !! t = Some (readied d) /\
    (forall L2, linv idle L2 -> ACTIVE_PTR (KD L2) = t -> TD (KD L2) !! t = Some (readied d) ->
       PC L2 !! t = PC L !! t ->
       (forall sm, SEMS L2 !! INFO d = Some sm -> SVALID sm = LWSEM_VALID) ->
       exists L3, resume L2 = Some (MQX_LWSEM_WAIT_TIMEOUT, L3)).
Proof.
  intros Hl Hn Hd H10 H8 Hdue. pose proof Hl as [H1 H2 H3 H4 H5 H6].
  destruct (tick_run idle hw (KD L) H1 Hn) as (k' & E & Hs' & Ea & _ & _ & _ & Hw).
  assert (t <> ACTIVE_PTR (KD L)) as Hne.
  { intros ->. destruct (sys_run _ _ H1) as (e & He & Hse). simplify_eq. by rewrite Hse in H10. }
  assert (TD k' !! t = Some (readied d)) as Hd'.
  { rewrite (Hw t Hne), Hd. cbn. f_equal. unfold wake, due. by rewrite H8, (proj2 (Z.leb_le _ _) Hdue). }
  destruct (H3 t d Hd H10) as (p & Hp & Hps & Hpt). destruct (Hpt H8) as [s ->]. cbn in Hps. subst s.
  exists (set_KD k' L). split_and!; [|done| |done|].
  - unfold run_action. rewrite (bind_run _ _ _ _ _ (eq_refl : gets id L = Some (L, L))). cbn [run_call].
    rewrite (bind_run _ _ _ tt (set_KD k' L)); [done|]. apply kern_run.
    by rewrite E.
  - cbn. intros Hin. apply in_aux in Hin as (e & He & Hb & _); [|apply Hs']. by simplify_eq.
  - intros L2 Hl2 Ha2 Hd2 Hp2 Hva2. rewrite Hp in Hp2.
    destruct (li_pc _ _ Hl2 _ _ Hp2) as [_ [sm Hsm]]. cbn in Hsm.
    destruct (li_sem _ _ Hl2 _ _ Hsm) as (Hnz & _). pose proof (Hva2 sm Hsm) as Hva.
    eexists. unfold resume. rewrite (bind_run _ _ _ _ _ (zoom_active L2)).
    rewrite (bind_run _ _ _ _ _ (eq_refl : gets id L2 = Some (L2, L2))), Ha2. unfold id.
    rewrite (bind_run _ _ L2 (InTimed (INFO d)) L2) by (unfold lift_opt; by rewrite Hp2).
    erewrite bind_run; [|apply kern_run; by apply get_td_run]. rewrite set_KD_same.
    cbn [pc_sem]. rewrite (bind_run _ _ _ _ _ (get_sem_run _ sm L2 Hsm)), Hva, Z.eqb_refl.
    cbn. by rewrite (proj2 (Z.eqb_neq _ _) Hnz).
Qed.

(** Four ticks after the wait of task 1, in the interrupt of the fifth. *)
Fixpoint ticked (n : nat) (L : lw) : lw :=
  match n with
  | O => lafter (ACall IsrEnter) L
  | S n' => ticked n' (lafter (ACall IsrExit) (lafter (ACall (Tick None)) (lafter (ACall IsrEnter) L)))
  end.
Definition ex_isr5 : lw := ticked 4 ex_wait.

Lemma lafter_linv idle a L : linv idle L -> can idle L a -> linv idle (lafter a L).
Proof.
  intros Hl Ha. destruct (action_good idle L a Hl Ha) as (ev & L' & E & H & _). unfold lafter. by rewrite E.
Qed.

Lemma ex_isr5_linv : linv 9 ex_isr5.
Proof.
  unfold ex_isr5. cbn [ticked].
  repeat (apply lafter_linv; [|split; [reflexivity|]; split; [vm_compute; reflexivity|];
    first [left; reflexivity|right; intros H; vm_compute in H; discriminate]]).
  exact ex_wait_linv.
Qed.

Lemma lwsem_wait_times_out_witness : exists L', run_action (ACall (Tick None)) ex_isr5 = Some ([], L') /\
  (1 ∈ on (AUX_QUEUES (KD L')) 200 -> False).
Proof.
  destruct (TD (KD ex_isr5) !! 1) as [d|] eqn:E; [|vm_compute in E; discriminate].
  assert (INFO d = 200 /\ Z.testbit (STATE d) 10 = true /\ Z.testbit (STATE d) 8 = true /\
          TICKS (TIMEOUT d) <= TICKS (tick_clock None (KD ex_isr5))) as (E1 & E2 & E3 & E4).
  { vm_compute in E. injection E as <-. vm_compute. repeat split; discriminate. }
  destruct (lwsem_wait_times_out 9 ex_isr5 None 1 d ex_isr5_linv) as (L' & EL & _ & Hn & _);
    [vm_compute; reflexivity|exact E|exact E2|exact E3|exact E4|].
  exists L'. split; [exact EL|]. rewrite E1 in Hn. exact Hn.
Defined.

(** A wait whose semaphore has been destroyed, and created again before the task
    runs, returns [MQX_OK] without a token. *)
Example recreated_wait_succeeds :
  let L1 := lafter (AWait 200) ex_lw in
  match _lwsem_destroy 200 L1 with
  | Some (r1, L2) =>
      match _lwsem_create 200 0 L2 with
      | Some (r2, L3) =>
          match resume (lafter (ACall Yield) L3) with
          | Some (r3, _) => (r1, r2, r3) = (MQX_OK, MQX_OK, MQX_OK)
          | None => False
          end
      | None => False
      end
  | None => False
  end.
Proof. vm_compute. reflexivity. Qed.
End Lwsem.
