(* ===== verification/Mutex.v ===== *)
(** * Mutexes: [kernel/mutex.c]

    The state is that of the scheduler with the memory of the mutexes.  The
    queue of the tasks that wait for a mutex ([WAITING_TASKS]) links them
    through their own link; it is in [QUEUES] under the address of the mutex,
    and has no entry there as long as nothing has initialised it.

    A function of the source can be left in its middle: a task blocks or
    yields, a change of a priority runs the scheduler, or an interrupt comes
    between two sections that disable interrupts.  A [pc] names each such point,
    [PC] holds those of the tasks that are at one, and [resume] is what the
    function does from there.  In [_mutex_destroy] the part that releases the
    waiting tasks is one step, although interrupts can come between its
    sections.  [_mutex_lock] tests VALID and OWNER_TD and reads the priority of
    the running task before it disables interrupts; these are one step with the
    section that follows, so another task that destroys the mutex or changes that
    priority in between is not covered. *)

From S2P Require Import Prelude Clocks Kernel Frame.

Module Mutex.

Export Frame.

#[local] Arguments Z.testbit : simpl never.
#[local] Arguments Z.land : simpl never.
#[local] Arguments Z.lor : simpl never.

(** ** Constants *)

Definition MUTEX_SPIN_ONLY : Z := 1.
Definition MUTEX_LIMITED_SPIN : Z := 2.
Definition MUTEX_QUEUEING : Z := 4.
Definition MUTEX_PRIORITY_QUEUEING : Z := 8.
Definition MUTEX_NO_PRIO_INHERIT : Z := 0.
Definition MUTEX_PRIO_INHERIT : Z := 256.
Definition MUTEX_PRIO_PROTECT : Z := 512.
Definition MUTEX_VALID : Z := 1836414072.             (* 0x6d757478 *)
Definition MQX_TEST_AND_SET_VALUE : Z := 128.
Definition MUTEX_BLOCKED : Z := Z.lor (Z.lor 34 IS_BLOCKED) TD_IS_ON_QUEUE.

Definition MQX_EOK : Z := 0.
Definition MQX_EBUSY : Z := 1030.                     (* POSIX_ERROR_BASE | 0x06 *)
Definition MQX_EDEADLK : Z := 1033.
Definition MQX_EINVAL : Z := 1040.
Definition MQX_OUT_OF_MEMORY : Z := 4.
Definition MQX_COMPONENT_DOES_NOT_EXIST : Z := 24.
Definition MQX_INVALID_COMPONENT_BASE : Z := 26.

(** ** State *)

Record mutex := Mutex {
  PROTOCOLS : Z;
  MVALID : Z;
  PRIORITY_CEILING : Z;
  COUNT : Z;
  LOCK : Z;
  OWNER_TD : option Z;
  MBOOSTED : Z;
  LINKED : bool                  (* LINK.NEXT is not NULL *)
}.

Definition with_LOCK (l : Z) (o : option Z) (v : mutex) : mutex :=
  Mutex (PROTOCOLS v) (MVALID v) (PRIORITY_CEILING v) (COUNT v) l o (MBOOSTED v) (LINKED v).
Definition with_OWNER (o : option Z) (v : mutex) : mutex := with_LOCK (LOCK v) o v.
Definition with_MBOOSTED (b : Z) (v : mutex) : mutex :=
  Mutex (PROTOCOLS v) (MVALID v) (PRIORITY_CEILING v) (COUNT v) (LOCK v) (OWNER_TD v) b (LINKED v).
Definition with_MVALID (x : Z) (v : mutex) : mutex :=
  Mutex (PROTOCOLS v) x (PRIORITY_CEILING v) (COUNT v) (LOCK v) (OWNER_TD v) (MBOOSTED v) (LINKED v).
Definition with_CEILING (c : Z) (v : mutex) : mutex :=
  Mutex (PROTOCOLS v) (MVALID v) c (COUNT v) (LOCK v) (OWNER_TD v) (MBOOSTED v) (LINKED v).

(** What goes on after a lock: the caller of [_mutex_lock], or the rest of
    [_mutex_destroy]. *)
Inductive after := Locking | Destroying.

(** What goes on after an unlock: its caller, or the loop of [_mutex_cleanup]
    for a task. *)
Inductive after_unlock := Unlocking | Cleaning (v : Z).

Inductive pc :=
  | InSpin (m count priority : Z) (a : after)        (* yields in a spin *)
  | InSpinBoost (m count priority : Z) (a : after)   (* has boosted the owner in a spin *)
  | InOwner (m : Z) (a : after)                      (* has set the lock, not the owner *)
  | InBoost (m : Z) (a : after)                      (* has boosted the owner, will block *)
  | InQueue (m : Z) (a : after)                      (* is blocked *)
  | InInherit (m : Z) (a : after)                    (* has boosted itself for a waiter *)
  | InProtect (m : Z) (a : after)                    (* is to be boosted to the ceiling *)
  | InCeiling (m : Z) (a : after)                    (* has boosted itself to the ceiling *)
  | InHandover (m boosted : Z) (u : after_unlock)    (* has boosted the new owner *)
  | InUnlock (boosted : Z) (u : after_unlock)        (* has let the new owner run *)
  | InCleanup (v : Z).                               (* at the head of the loop *)

Record mx := Mx {
  KD : kernel;
  MUTEX : gmap Z mutex;
  MUTEXES : list Z;                   (* the queue of the component *)
  COMPONENT : option Z;               (* KERNEL_COMPONENTS[KERNEL_MUTEXES], its VALID *)
  PC : gmap Z pc
}.

Definition set_KD (k : kernel) (L : mx) : mx := Mx k (MUTEX L) (MUTEXES L) (COMPONENT L) (PC L).
Definition set_MUTEX (f : gmap Z mutex -> gmap Z mutex) (L : mx) : mx :=
  Mx (KD L) (f (MUTEX L)) (MUTEXES L) (COMPONENT L) (PC L).
Definition set_MUTEXES (f : list Z -> list Z) (L : mx) : mx :=
  Mx (KD L) (MUTEX L) (f (MUTEXES L)) (COMPONENT L) (PC L).
Definition set_COMPONENT (c : option Z) (L : mx) : mx :=
  Mx (KD L) (MUTEX L) (MUTEXES L) c (PC L).
Definition set_PC (f : gmap Z pc -> gmap Z pc) (L : mx) : mx :=
  Mx (KD L) (MUTEX L) (MUTEXES L) (COMPONENT L) (f (PC L)).

Abbreviation kern := (zoom KD set_KD).

#[export] Instance mutex_zoom : ZoomLaw KD set_KD.
Proof. by intros []. Qed.

#[local] Abbreviation set_KD_same := (zoom_same (get := KD) (set := set_KD)).
#[local] Abbreviation kern_run := (zoom_run (get := KD) (set := set_KD)).

Definition get_mutex (m : Z) : M mx mutex := fun L =>
  match MUTEX L !! m with Some v => Some (v, L) | None => None end.
Definition upd_mutex (m : Z) (f : mutex -> mutex) : M mx unit :=
  v ← get_mutex m; modify (set_MUTEX (<[m := f v]>)).

(** A bit of the protocols is set. *)
Definition has (v : mutex) (flag : Z) : bool := negb (Z.land (PROTOCOLS v) flag =? 0).

(** [++mutex_ptr->BOOSTED] *)
Definition count_boost (m : Z) : M mx unit :=
  upd_mutex m (fun v => with_MBOOSTED (w32 (MBOOSTED v + 1)) v).

(** A call returns, or goes on later at the [pc] of its task. *)
Inductive outcome := Returned (r : Z) | Suspended.

Definition suspend (t : Z) (p : pc) : M mx outcome :=
  modify (set_PC (<[t := p]>));; mret Suspended.

(** A kernel call that can run the scheduler, in the middle of a function: when
    another task is running after it, the rest waits at [p]. *)
Definition then_at (p : pc) (call : M kernel unit) (rest : M mx outcome) : M mx outcome :=
  t ← kern active;
  kern call;;
  t' ← kern active;
  if t' =? t then rest else suspend t p.

(** ** Attributes *)

Record attr := Attr {
  SCHED_PROTOCOL : Z; AVALID : Z; ACEILING : Z; ACOUNT : Z; WAIT_PROTOCOL : Z
}.

Definition default_attr : attr := Attr MUTEX_NO_PRIO_INHERIT MUTEX_VALID 0 0 MUTEX_QUEUEING.

(** The functions on attributes take the structure and return it, with the
    code; [None] is the null pointer. *)
Definition _mutatr_init (attr_ptr : option attr) : Z * option attr :=
  match attr_ptr with
  | None => (MQX_EINVAL, None)
  | Some _ => (MQX_EOK, Some default_attr)
  end.

Definition on_attr (attr_ptr : option attr) (f : attr -> Z * attr) : Z * option attr :=
  match attr_ptr with
  | None => (MQX_EINVAL, None)
  | Some a => if negb (AVALID a =? MUTEX_VALID) then (MQX_EINVAL, Some a)
              else let '(r, a') := f a in (r, Some a')
  end.

Definition _mutatr_destroy (attr_ptr : option attr) : Z * option attr :=
  on_attr attr_ptr (fun a =>
    (MQX_EOK, Attr (SCHED_PROTOCOL a) 0 (ACEILING a) (ACOUNT a) (WAIT_PROTOCOL a))).

Definition _mutatr_set_wait_protocol (attr_ptr : option attr) (waiting_protocol : Z) : Z * option attr :=
  on_attr attr_ptr (fun a =>
    if negb ((waiting_protocol =? MUTEX_SPIN_ONLY) || (waiting_protocol =? MUTEX_LIMITED_SPIN) ||
             (waiting_protocol =? MUTEX_QUEUEING) || (waiting_protocol =? MUTEX_PRIORITY_QUEUEING))
    then (MQX_EINVAL, a)
    else (MQX_EOK, Attr (SCHED_PROTOCOL a) (AVALID a) (ACEILING a) (ACOUNT a) waiting_protocol)).

Definition _mutatr_set_priority_ceiling (k : kernel) (attr_ptr : option attr) (ceiling : Z)
  : Z * option attr :=
  on_attr attr_ptr (fun a =>
    if LOWEST_TASK_PRIORITY k <? ceiling then (MQX_EINVAL, a)
    else (MQX_EOK, Attr (SCHED_PROTOCOL a) (AVALID a) ceiling (ACOUNT a) (WAIT_PROTOCOL a))).

Definition _mutatr_set_sched_protocol (attr_ptr : option attr) (protocol : Z) : Z * option attr :=
  on_attr attr_ptr (fun a =>
    if negb ((protocol =? MUTEX_PRIO_INHERIT) || (protocol =? MUTEX_PRIO_PROTECT) ||
             (protocol =? MUTEX_NO_PRIO_INHERIT))
    then (MQX_EINVAL, a)
    else (MQX_EOK, Attr protocol (AVALID a) (ACEILING a) (ACOUNT a) (WAIT_PROTOCOL a))).

Definition _mutatr_set_spin_limit (attr_ptr : option attr) (spin_count : Z) : Z * option attr :=
  on_attr attr_ptr (fun a =>
    (MQX_EOK, Attr (SCHED_PROTOCOL a) (AVALID a) (ACEILING a) spin_count (WAIT_PROTOCOL a))).

(** The getters; the second component is what is stored through the pointer for
    the result, [null] says that it is NULL. *)
Definition get_attr (attr_ptr : option attr) (null : bool) (f : attr -> Z) : Z * option Z :=
  match attr_ptr with
  | None => (MQX_EINVAL, None)
  | Some a => if null then (MQX_EINVAL, None)
              else if negb (AVALID a =? MUTEX_VALID) then (MQX_EINVAL, None)
              else (MQX_EOK, Some (f a))
  end.
Definition _mutatr_get_wait_protocol (p : option attr) (null : bool) := get_attr p null WAIT_PROTOCOL.
Definition _mutatr_get_priority_ceiling (p : option attr) (null : bool) := get_attr p null ACEILING.
Definition _mutatr_get_sched_protocol (p : option attr) (null : bool) := get_attr p null SCHED_PROTOCOL.
Definition _mutatr_get_spin_limit (p : option attr) (null : bool) := get_attr p null ACOUNT.

(** ** Creation *)

Definition _task_set_error_td_internal (t new_error_code : Z) : M kernel Z :=
  d ← get_td t;
  (if (new_error_code =? MQX_OK) || (TASK_ERROR_CODE d =? MQX_OK)
   then upd_td t (with_ERROR new_error_code) else mret tt);;
  mret (TASK_ERROR_CODE d).

(** [mem]: the allocation of the component succeeds. *)
Definition _mutex_create_component (mem : bool) : M mx Z :=
  L ← gets id;
  match COMPONENT L with
  | Some _ => mret MQX_OK
  | None =>
      if negb mem then mret MQX_OUT_OF_MEMORY
      else
        modify (set_MUTEXES (fun _ => []));;
        modify (set_COMPONENT (Some MUTEX_VALID));;
        mret MQX_OK
  end.

(** The mutex after its initialisation with [a]; [v] is what was there. *)
Definition init_mutex (a : attr) : mutex :=
  Mutex (Z.lor (SCHED_PROTOCOL a) (WAIT_PROTOCOL a)) MUTEX_VALID (ACEILING a) (ACOUNT a) 0 None 0 true.

Definition mutex_init (mutex_ptr : option Z) (a : attr) (mem : bool) : M mx Z :=
  match mutex_ptr with
  | None => mret MQX_EINVAL
  | Some m =>
      if negb (AVALID a =? MUTEX_VALID) then mret MQX_EINVAL
      else
        result ← _mutex_create_component mem;
        L ← gets id;
        match COMPONENT L with
        | None => mret result
        | Some valid =>
            if negb (valid =? MUTEX_VALID) then mret MQX_INVALID_COMPONENT_BASE
            else if bool_decide (m ∈ MUTEXES L) then mret MQX_EINVAL
            else
              modify (set_MUTEX (<[m := init_mutex a]>));;
              kern (modify (set_QUEUES (<[m := []]>)));;
              modify (set_MUTEXES (fun l => l ++ [m]));;
              mret MQX_EOK
        end
  end.

Definition _mutex_init (mutex_ptr : option Z) (attr_ptr : option attr) (mem : bool) : M mx Z :=
  mutex_init mutex_ptr (default default_attr attr_ptr) mem.

(** What [MUTEX_INITIALIZER] puts into a variable: the queue of waiting tasks
    has null links. *)
Definition MUTEX_INITIALIZER : mutex := Mutex MUTEX_QUEUEING MUTEX_VALID 0 0 0 None 0 false.

(** ** Destruction, after the mutex is locked *)

(** The tasks [l] that wait for [m] get the error and are readied. *)
Fixpoint evict (l : list Z) (m : Z) : M kernel unit :=
  match l with
  | [] => mret tt
  | t :: l' =>
      modify (set_QUEUES (fun q => <[m := tail (on q m)]> q));;
      _task_set_error_td_internal t MQX_EINVAL;;
      _task_ready_internal t;;
      evict l' m
  end.

Definition destroy_rest (m : Z) : M mx outcome :=
  upd_mutex m (with_MVALID 0);;
  v ← get_mutex m;
  L ← gets id;
  (if LINKED v then
     if bool_decide (m ∈ MUTEXES L) then modify (set_MUTEXES (without m)) else fault
   else mret tt);;
  kern (evict (on (QUEUES (KD L)) m) m);;
  t ← kern active;
  (if negb (MBOOSTED v =? 0) then kern (_sched_unboost_priority_internal t (MBOOSTED v)) else mret tt);;
  kern _sched_check_scheduler_internal;;
  mret (Returned MQX_EOK).

(** ** Locking *)

Definition lock_returns (m : Z) (a : after) (r : Z) : M mx outcome :=
  match a with
  | Locking => mret (Returned r)
  | Destroying => if r =? MQX_EOK then destroy_rest m else mret (Returned r)
  end.

(** With the priority ceiling the rest follows in a section of its own. *)
Definition lock_protect (m : Z) (a : after) : M mx outcome :=
  v ← get_mutex m;
  if has v MUTEX_PRIO_PROTECT then t ← kern active; suspend t (InProtect m a)
  else lock_returns m a MQX_EOK.

Definition resume_protect (m : Z) (a : after) : M mx outcome :=
  t ← kern active;
  d ← kern (get_td t);
  v ← get_mutex m;
  if PRIORITY_CEILING v <? HOME_PRIORITY d then
    if PRIORITY_CEILING v <? PRIORITY d then
      then_at (InCeiling m a) (_sched_boost_priority_internal t (PRIORITY_CEILING v))
        (count_boost m;; lock_returns m a MQX_EOK)
    else count_boost m;; lock_returns m a MQX_EOK
  else lock_returns m a MQX_EOK.

(** The new owner of a mutex with a queue in order of arrival inherits the
    priority of the best waiter. *)
Definition lock_inherit (m : Z) (a : after) : M mx outcome :=
  v ← get_mutex m;
  if has v MUTEX_PRIO_INHERIT && negb (has v MUTEX_PRIORITY_QUEUEING) then
    count ← kern (_sched_get_max_priority_on_q_internal m);
    t ← kern active;
    d ← kern (get_td t);
    if count <? HOME_PRIORITY d then
      if count <? PRIORITY d then
        then_at (InInherit m a) (_sched_boost_priority_internal t count)
          (count_boost m;; lock_protect m a)
      else count_boost m;; lock_protect m a
    else lock_protect m a
  else lock_protect m a.

(** The running task blocks.  The queue must have been initialised. *)
Definition mutex_enqueue (m t : Z) (by_priority : bool) : M kernel unit :=
  _QUEUE_UNLINK t;;
  upd_td t (with_INFO m);;
  k ← gets id;
  lift_opt (QUEUES k !! m);;
  (if by_priority then _sched_insert_priorityq_internal m t else queue_enqueue m t);;
  upd_td t (with_STATE MUTEX_BLOCKED).

Definition lock_block (m : Z) (a : after) : M mx outcome :=
  t ← kern active;
  v ← get_mutex m;
  kern (mutex_enqueue m t (has v MUTEX_PRIORITY_QUEUEING);; _sched_execute_scheduler_internal);;
  suspend t (InQueue m a).

Definition lock_queue (m priority : Z) (a : after) : M mx outcome :=
  v ← get_mutex m;
  if negb (LOCK v =? 0) then
    if has v MUTEX_PRIO_INHERIT then
      o ← lift_opt (OWNER_TD v);
      d ← kern (get_td o);
      if priority <? HOME_PRIORITY d then
        if priority <? PRIORITY d then
          then_at (InBoost m a) (_sched_boost_priority_internal o priority)
            (count_boost m;; lock_block m a)
        else count_boost m;; lock_block m a
      else lock_block m a
    else lock_block m a
  else
    t ← kern active;
    upd_mutex m (with_LOCK MQX_TEST_AND_SET_VALUE (Some t));;
    lock_inherit m a.

(** *** Spinning *)

(** Sets a byte that is 0 to 0x80, and returns what it was. *)
Definition _mem_test_and_set (m : Z) : M mx Z :=
  v ← get_mutex m;
  (if LOCK v =? 0 then upd_mutex m (with_LOCK MQX_TEST_AND_SET_VALUE (OWNER_TD v)) else mret tt);;
  mret (LOCK v).

Definition spin_yield (m count priority : Z) (a : after) : M mx outcome :=
  t ← kern active;
  kern _sched_yield;;
  suspend t (InSpin m count priority a).

(** [count -= limited] *)
Definition spun (v : mutex) (count : Z) : Z :=
  if has v MUTEX_SPIN_ONLY then count else w32 (count - 1).

Definition spin_end (m count : Z) (a : after) : M mx outcome :=
  if count =? 0 then lock_returns m a MQX_EBUSY
  else t ← kern active; suspend t (InOwner m a).

(** The loops, up to the next yield. *)
Definition spin_inherit (m count priority : Z) (a : after) : M mx outcome :=
  v ← get_mutex m;
  if negb (count =? 0) && negb (LOCK v =? 0) then
    let count := spun v count in
    o ← lift_opt (OWNER_TD v);
    d ← kern (get_td o);
    if priority <? HOME_PRIORITY d then
      if priority <? PRIORITY d then
        then_at (InSpinBoost m count priority a) (_sched_boost_priority_internal o priority)
          (count_boost m;; spin_yield m count priority a)
      else count_boost m;; spin_yield m count priority a
    else spin_yield m count priority a
  else
    (if negb (count =? 0)
     then upd_mutex m (fun v => with_LOCK MQX_TEST_AND_SET_VALUE (OWNER_TD v) v) else mret tt);;
    spin_end m count a.

Definition spin_plain (m count priority : Z) (a : after) : M mx outcome :=
  v ← get_mutex m;
  if count =? 0 then spin_end m count a
  else
    old ← _mem_test_and_set m;
    if negb (old =? 0) then spin_yield m (spun v count) priority a
    else spin_end m count a.

Definition spin (m count priority : Z) (a : after) : M mx outcome :=
  v ← get_mutex m;
  if has v MUTEX_PRIO_INHERIT then spin_inherit m count priority a
  else spin_plain m count priority a.

Definition resume_spin (m count priority : Z) (a : after) : M mx outcome :=
  v ← get_mutex m;
  if negb (MVALID v =? MUTEX_VALID) then lock_returns m a MQX_EINVAL
  else spin m count priority a.

Definition resume_owner (m : Z) (a : after) : M mx outcome :=
  t ← kern active;
  upd_mutex m (with_OWNER (Some t));;
  lock_protect m a.

Definition resume_queue (m : Z) (a : after) : M mx outcome :=
  v ← get_mutex m;
  if negb (MVALID v =? MUTEX_VALID) then lock_returns m a MQX_EINVAL
  else lock_inherit m a.

(** *** The calls *)

Definition mutex_lock (mutex_ptr : option Z) (a : after) : M mx outcome :=
  L ← gets id;
  if negb (IN_ISR (KD L) =? 0) then mret (Returned MQX_CANNOT_CALL_FUNCTION_FROM_ISR)
  else match mutex_ptr with
  | None => mret (Returned MQX_EINVAL)
  | Some m =>
      v ← get_mutex m;
      if negb (MVALID v =? MUTEX_VALID) then mret (Returned MQX_EINVAL)
      else
        t ← kern active;
        if decide (OWNER_TD v = Some t) then mret (Returned MQX_EDEADLK)
        else
          d ← kern (get_td t);
          if has v MUTEX_SPIN_ONLY || has v MUTEX_LIMITED_SPIN
          then spin m (if has v MUTEX_SPIN_ONLY then 1 else COUNT v) (PRIORITY d) a
          else lock_queue m (PRIORITY d) a
  end.

Definition _mutex_lock (mutex_ptr : option Z) : M mx outcome := mutex_lock mutex_ptr Locking.

Definition _mutex_destroy (m : Z) : M mx outcome :=
  L ← gets id;
  match COMPONENT L with
  | None => mret (Returned MQX_COMPONENT_DOES_NOT_EXIST)
  | Some valid =>
      if negb (valid =? MUTEX_VALID) then mret (Returned MQX_INVALID_COMPONENT_BASE)
      else
        v ← get_mutex m;
        t ← kern active;
        if decide (OWNER_TD v = Some t) then destroy_rest m
        else mutex_lock (Some m) Destroying
  end.

Definition _mutex_try_lock (mutex_ptr : option Z) : M mx outcome :=
  match mutex_ptr with
  | None => mret (Returned MQX_EINVAL)
  | Some m =>
      v ← get_mutex m;
      if negb (MVALID v =? MUTEX_VALID) then mret (Returned MQX_EINVAL)
      else
        old ← _mem_test_and_set m;
        t ← kern active;
        if negb (old =? 0)
        then mret (Returned (if decide (OWNER_TD v = Some t) then MQX_EDEADLK else MQX_EBUSY))
        else upd_mutex m (with_OWNER (Some t));; lock_protect m Locking
  end.

(** ** Unlocking *)

Definition unlock_end (boosted : Z) (u : after_unlock) : M mx outcome :=
  t ← kern active;
  (if negb (boosted =? 0) then kern (_sched_unboost_priority_internal t boosted) else mret tt);;
  match u with
  | Unlocking => mret (Returned MQX_EOK)
  | Cleaning v => suspend t (InCleanup v)
  end.

Definition unlock_handed (boosted : Z) (u : after_unlock) : M mx outcome :=
  then_at (InUnlock boosted u) _sched_check_scheduler_internal (unlock_end boosted u).

Definition mutex_unlock (m : Z) (u : after_unlock) : M mx outcome :=
  v ← get_mutex m;
  t ← kern active;
  if negb (MVALID v =? MUTEX_VALID) || negb (LOCK v =? MQX_TEST_AND_SET_VALUE) ||
     negb (bool_decide (OWNER_TD v = Some t))
  then mret (Returned MQX_EINVAL)
  else
    let boosted := MBOOSTED v in
    upd_mutex m (with_MBOOSTED 0);;
    if negb (Z.land (PROTOCOLS v) (Z.lor MUTEX_SPIN_ONLY MUTEX_LIMITED_SPIN) =? 0)
    then upd_mutex m (with_LOCK 0 None);; unlock_end boosted u
    else
      L ← gets id;
      match on (QUEUES (KD L)) m with
      | t2 :: _ =>
          kern (modify (set_QUEUES (fun q => <[m := tail (on q m)]> q)));;
          upd_mutex m (with_OWNER (Some t2));;
          kern (_task_ready_internal t2);;
          d2 ← kern (get_td t2);
          if has v MUTEX_PRIO_PROTECT && (PRIORITY_CEILING v <? HOME_PRIORITY d2) then
            if PRIORITY_CEILING v <? PRIORITY d2 then
              then_at (InHandover m boosted u)
                (_sched_boost_priority_internal t2 (PRIORITY_CEILING v))
                (count_boost m;; unlock_handed boosted u)
            else count_boost m;; unlock_handed boosted u
          else unlock_handed boosted u
      | [] => upd_mutex m (with_LOCK 0 None);; unlock_end boosted u
      end.

Definition _mutex_unlock (mutex_ptr : option Z) : M mx outcome :=
  match mutex_ptr with
  | None => mret (Returned MQX_EINVAL)
  | Some m => mutex_unlock m Unlocking
  end.

(** One turn of the loop of [_mutex_cleanup] that unlocks a mutex of [v], which
    then starts again from the first mutex, or its end. *)
Definition cleanup_step (v : Z) : M mx (option Z * outcome) :=
  L ← gets id;
  let locked m := match MUTEX L !! m with
                  | Some x => negb (LOCK x =? 0) && bool_decide (OWNER_TD x = Some v)
                  | None => false
                  end in
  match filter (fun m => locked m = true) (MUTEXES L) with
  | [] => mret (None, Returned MQX_EOK)
  | m :: _ =>
      t ← kern active;
      upd_mutex m (with_OWNER (Some t));;
      o ← mutex_unlock m (Cleaning v);
      match o with
      | Suspended => mret (Some m, o)
      | Returned _ => o ← suspend t (InCleanup v); mret (None, o)
      end
  end.

Definition _mutex_cleanup (v : Z) : M mx (option Z * outcome) :=
  L ← gets id;
  match COMPONENT L with
  | None => mret (None, Returned MQX_EOK)
  | Some valid =>
      if negb (valid =? MUTEX_VALID) then mret (None, Returned MQX_EOK)
      else cleanup_step v
  end.

(** ** Going on *)

Definition resume_at (p : pc) : M mx outcome :=
  match p with
  | InSpin m count priority a => resume_spin m count priority a
  | InSpinBoost m count priority a => count_boost m;; spin_yield m count priority a
  | InOwner m a => resume_owner m a
  | InBoost m a => count_boost m;; lock_block m a
  | InQueue m a => resume_queue m a
  | InInherit m a => count_boost m;; lock_protect m a
  | InProtect m a => resume_protect m a
  | InCeiling m a => count_boost m;; lock_returns m a MQX_EOK
  | InHandover m boosted u => count_boost m;; unlock_handed boosted u
  | InUnlock boosted u => unlock_end boosted u
  | InCleanup _ => fault
  end.

(** ** Ceilings, the number of waiting tasks, the test *)

(** The code and what is stored through [old_ceiling_ptr]. *)
Definition _mutex_set_priority_ceiling (mutex_ptr : option Z) (ceiling : Z) (null : bool)
  : M mx (Z * option Z) :=
  L ← gets id;
  if LOWEST_TASK_PRIORITY (KD L) <? ceiling then mret (MQX_EINVAL, None)
  else match mutex_ptr with
  | None => mret (MQX_EINVAL, None)
  | Some m =>
      if null then mret (MQX_EINVAL, None)
      else
        v ← get_mutex m;
        if negb (MVALID v =? MUTEX_VALID) then mret (MQX_EINVAL, None)
        else upd_mutex m (with_CEILING ceiling);; mret (MQX_EOK, Some (PRIORITY_CEILING v))
  end.

Definition _mutex_get_priority_ceiling (mutex_ptr : option Z) (null : bool) : M mx (Z * option Z) :=
  match mutex_ptr with
  | None => mret (MQX_EINVAL, None)
  | Some m =>
      if null then mret (MQX_EINVAL, None)
      else
        v ← get_mutex m;
        if negb (MVALID v =? MUTEX_VALID) then mret (MQX_EINVAL, None)
        else mret (MQX_EOK, Some (PRIORITY_CEILING v))
  end.

Definition _mutex_get_wait_count (mutex_ptr : option Z) : M mx Z :=
  match mutex_ptr with
  | None => kern (_task_set_error MQX_EINVAL);; mret MAX_MQX_UINT
  | Some m =>
      v ← get_mutex m;
      if negb (MVALID v =? MUTEX_VALID)
      then kern (_task_set_error MQX_EINVAL);; mret MAX_MQX_UINT
      else L ← gets id; mret (zlen (on (QUEUES (KD L)) m))
  end.

(** ** What the kernel does for a mutex *)

(** The running task goes to the queue of [m]. *)
Definition mutex_blocked (m : Z) (d : td) : td := with_STATE MUTEX_BLOCKED (with_INFO m d).

Lemma mutex_enqueue_run k m t d l (b : bool) :
  kinv k -> TD k !! t = Some d -> STATE d = READY -> QUEUES k !! m = Some l ->
  exists l1 l2 k', mutex_enqueue m t b k = Some (tt, k') /\ l = l1 ++ l2 /\
    (if b then (forall u, u ∈ l1 -> prio_of (TD k) u <= PRIORITY d) /\
               (match l2 with [] => True | u :: _ => PRIORITY d < prio_of (TD k) u end)
     else l2 = []) /\
    kinv k' /\ same_control k k' /\
    TD k' = <[t := mutex_blocked m d]> (TD k) /\ QUEUES k' = <[m := l1 ++ t :: l2]> (QUEUES k).
Proof.
  intros Hk Hd Hs Hq. pose proof (unlink_ready t d k Hk Hd Hs) as Hl.
  destruct (sh_td _ (proj1 Hk) _ _ Hd) as (W1 & W2 & W3).
  set (d1 := with_INFO m d).
  eapply (limbo_td _ _ _ d d1) in Hl; [|done|by left|by split_and!].
  set (k1 := set_TD _ _) in Hl.
  assert (TD k1 !! t = Some d1) as Hd1 by (cbn; by rewrite lookup_insert, decide_True).
  assert (on (QUEUES k1) m = l) as Ho by (unfold on; cbn; by rewrite Hq).
  assert (forall l1 l2, l = l1 ++ l2 ->
    (if b then _sched_insert_priorityq_internal m t else queue_enqueue m t) k1 =
      Some (tt, set_QUEUES (<[m := l1 ++ t :: l2]>) k1) ->
    limbo t (Place None false (Some m) None) (set_QUEUES (<[m := l1 ++ t :: l2]>) k1) ->
    exists k', mutex_enqueue m t b k = Some (tt, k') /\ kinv k' /\ same_control k k' /\
      TD k' = <[t := mutex_blocked m d]> (TD k) /\ QUEUES k' = <[m := l1 ++ t :: l2]> (QUEUES k))
    as Hend.
  { intros l1 l2 El E Hl2. set (k2 := set_QUEUES _ k1) in *.
    exists (set_TD (<[t := mutex_blocked m d]>) k2). split_and!.
    - unfold mutex_enqueue.
      rewrite (bind_run _ _ _ tt (set_READY_Q_LIST (fmap (without t)) k)) by done.
      rewrite (bind_run _ _ _ tt k1) by (by rewrite (upd_td_run t _ d)).
      rewrite (bind_run _ _ _ _ _ (eq_refl : gets id k1 = Some (k1, k1))).
      rewrite (bind_run _ _ k1 l k1) by (unfold lift_opt, id; cbn; by rewrite Hq).
      rewrite (bind_run _ _ _ _ _ E). by rewrite (upd_td_run t _ d1).
    - apply (limbo_kinv t). cbn. rewrite lookup_insert, decide_True by done.
      eapply (limbo_td _ _ k2 d1); [exact Hl2|exact Hd1|by left|by split_and!].
    - by repeat split.
    - cbn. by rewrite insert_insert, decide_True.
    - done. }
  destruct b.
  - destruct (insert_priorityq_run t k1 m d1 Hl Hd1) as (l1 & l2 & E1 & H1 & H2 & E2 & Hl2).
    rewrite Ho in E1. destruct (Hend l1 l2 E1 E2 Hl2) as (k' & E & Hk' & Hc & Ht & Hqq).
    assert (forall u, u ∈ l -> prio_of (TD k1) u = prio_of (TD k) u) as Hpr.
    { intros u Hu. unfold prio_of. cbn. rewrite lookup_insert. case_decide; [|done]. subst u. by rewrite Hd. }
    exists l1, l2, k'. split_and!; try done.
    + intros u Hu. rewrite <-Hpr by (rewrite E1; set_solver). by apply H1.
    + destruct l2 as [|u l2]; [done|]. rewrite <-Hpr by (rewrite E1; set_solver). done.
  - assert (t ∉ l) as Hn by (rewrite <-Ho; intros Hi; apply Hl in Hi; done).
    destruct (Hend l []) as (k' & E & Hk' & Hc & Ht & Hqq).
    + by rewrite app_nil_r.
    + unfold queue_enqueue, modify, set_QUEUES. cbn. by rewrite (Ho : on (QUEUES k) m = l).
    + pose proof (sh_own _ (proj1 Hk) m) as Hnd. unfold on in Hnd. rewrite Hq in Hnd. cbn in Hnd.
      assert (limbo t (Place None false (Some m) None) (set_QUEUES (<[m := l ++ [t]]>) k1)) as Hl2; [|done].
      pose proof (limbo_own t _ k1 m (l ++ [t]) Hl) as Hl2. cbn [rdy tmo own aux] in Hl2.
      rewrite decide_True in Hl2 by set_solver. apply Hl2; [|rewrite Ho; apply only_t_snoc|by left].
      apply NoDup_app. split_and!; [done| |apply NoDup_singleton]. set_solver.
    + exists l, [], k'. by rewrite app_nil_r.
Qed.

(** The first task that waits for [m] leaves the queue, its descriptor changed
    to [d'], and is readied. *)
Definition popped (m : Z) : kernel -> kernel := set_QUEUES (fun q => <[m := tail (on q m)]> q).

Lemma pop_limbo k m t l d : kinv k -> on (QUEUES k) m = t :: l -> TD k !! t = Some d ->
  limbo t nowhere (popped m k).
Proof.
  intros Hk Hq Hd. assert (t ∈ on (QUEUES k) m) as Hi by (rewrite Hq; set_solver).
  apply in_own in Hi as (e & He & H9 & HI); [|done]. simplify_eq.
  pose proof (kinv_limbo t k Hk) as Hl. rewrite Hd in Hl.
  assert (place_of d = Place None false (Some (INFO d)) None) as Hpl.
  { unfold place_of. rewrite H9. destruct (sh_td _ (proj1 Hk) _ _ Hd) as (_ & _ & W).
    destruct (W H9) as [-> ->].
    destruct (Z.eqb_spec (STATE d) READY) as [E|]; [by rewrite E in H9|done]. }
  rewrite Hpl in Hl. pose proof (sh_own _ (proj1 Hk) (INFO d)) as Hnd. rewrite Hq in Hnd.
  apply NoDup_cons in Hnd as [Hn Hnd].
  eapply (limbo_own t _ k (INFO d) (tail (on (QUEUES k) (INFO d)))) in Hl;
    [|by rewrite Hq|rewrite Hq; intros u Hu; set_solver|by right].
  cbn in Hl. rewrite decide_False in Hl by (by rewrite Hq). exact Hl.
Qed.

Lemma pop_ready_run k m t l d d' : kinv k -> on (QUEUES k) m = t :: l -> TD k !! t = Some d ->
  wf_td (LOWEST_TASK_PRIORITY k) d' ->
  exists k', _task_ready_internal t (set_TD (<[t := d']>) (popped m k)) = Some (tt, k') /\
    kinv k' /\ same_control k k' /\ TD k' = <[t := readied d']> (TD k) /\
    QUEUES k' = <[m := l]> (QUEUES k).
Proof.
  intros Hk Hq Hd Hw. pose proof (pop_limbo k m t l d Hk Hq Hd) as Hl.
  eapply (limbo_td _ _ _ d d') in Hl; [|done|by left|done].
  set (k1 := set_TD _ _) in *.
  assert (TD k1 !! t = Some d') as Hd1 by (cbn; by rewrite lookup_insert, decide_True).
  exists (ready_k t d' k1). split_and!.
  - by apply task_ready_run.
  - by eapply limbo_ready.
  - by repeat split.
  - cbn. by rewrite insert_insert, decide_True.
  - cbn. by rewrite Hq.
Qed.

Lemma is_ready_readied k k' t d u : TD k' = <[t := readied d]> (TD k) -> is_ready k u -> is_ready k' u.
Proof.
  intros E (e & He & Hs). unfold is_ready. rewrite E, lookup_insert. case_decide; [by eexists|eauto].
Qed.

Lemma dom_readied k k' t d e : TD k' = <[t := e]> (TD k) -> TD k !! t = Some d -> dom (TD k') = dom (TD k).
Proof. intros -> Hd. rewrite dom_insert_L. apply elem_of_dom_2 in Hd. set_solver. Qed.

(** The loop of [_mutex_destroy]. *)
Lemma evict_run m l k : kinv k -> on (QUEUES k) m = l -> is_Some (QUEUES k !! m) ->
  exists k', evict l m k = Some (tt, k') /\ kinv k' /\ same_control k k' /\
    QUEUES k' = <[m := []]> (QUEUES k) /\ dom (TD k') = dom (TD k) /\
    (forall u, is_ready k u -> is_ready k' u).
Proof.
  revert k. induction l as [|t l IH]; intros k Hk Hq HS.
  { exists k. split_and!; try done. rewrite insert_id; [done|]. destruct HS as [x Hx].
    unfold on in Hq. rewrite Hx in Hq. cbn in Hq. by subst. }
  assert (t ∈ on (QUEUES k) m) as Hi by (rewrite Hq; set_solver).
  apply in_own in Hi as (d & Hd & H9 & HI); [|done].
  set (d' := if TASK_ERROR_CODE d =? MQX_OK then with_ERROR MQX_EINVAL d else d).
  assert (wf_td (LOWEST_TASK_PRIORITY k) d') as Hw.
  { pose proof (sh_td _ (proj1 Hk) _ _ Hd). unfold d'. by destruct (TASK_ERROR_CODE d =? MQX_OK). }
  destruct (pop_ready_run k m t l d d' Hk Hq Hd Hw) as (k1 & E & Hk1 & Hc1 & Ht1 & Hq1).
  destruct (IH k1 Hk1) as (k' & E' & Hk' & Hc' & Hq' & Hdom' & Hr').
  { by rewrite Hq1, on_insert, decide_True. }
  { rewrite Hq1, lookup_insert, decide_True by done. by eexists. }
  exists k'. split_and!; [|done|by etrans| | |].
  - cbn [evict]. rewrite (bind_run _ _ _ tt (popped m k)) by done.
    rewrite (bind_run _ _ _ (TASK_ERROR_CODE d) (set_TD (<[t := d']>) (popped m k))).
    + by rewrite (bind_run _ _ _ _ _ E).
    + unfold _task_set_error_td_internal. rewrite (bind_run _ _ _ d (popped m k)) by (by apply get_td_run).
      cbn [orb]. unfold d'. destruct (TASK_ERROR_CODE d =? MQX_OK) eqn:Ee; cbn.
      * erewrite bind_run; [|by apply (upd_td_run _ _ d)]. done.
      * unfold mbind, M_bind, mret, M_ret. do 2 f_equal. unfold set_TD. cbn. by rewrite insert_id.
  - rewrite Hq', Hq1. by rewrite insert_insert, decide_True.
  - rewrite Hdom'. by eapply dom_readied.
  - intros u Hu. apply Hr'. by eapply is_ready_readied.
Qed.

(** ** What a mutex needs of the scheduler *)

(** The tasks that have disabled preemption. *)
Definition stops (k : kernel) : gmap Z bool := (fun d => Z.testbit (FLAGS d) 12) <$> TD k.

Lemma preemptible_bit d : preemptible d <-> Z.testbit (FLAGS d) 12 = false.
Proof.
  unfold preemptible. rewrite <-Z.eqb_eq. change TASK_PREEMPTION_DISABLED with (2 ^ 12).
  rewrite (land_pow2_eqb _ 12) by lia. apply negb_true_iff.
Qed.

(** The kernel state changes, but not the queues of the mutexes. *)
Definition calm (k k' : kernel) : Prop :=
  QUEUES k' = QUEUES k /\ LOWEST_TASK_PRIORITY k' = LOWEST_TASK_PRIORITY k /\
  stops k' = stops k.

Lemma calm_dom k k' : calm k k' -> dom (TD k') = dom (TD k).
Proof.
  intros (_ & _ & E). apply (f_equal dom) in E. unfold stops in E. by rewrite !dom_fmap_L in E.
Qed.

Lemma calm_td k k' t : calm k k' -> is_Some (TD k !! t) -> is_Some (TD k' !! t).
Proof. intros E%calm_dom. by rewrite <-!elem_of_dom, E. Qed.

(** Every task can be preempted. *)
Definition all_preemptible (k : kernel) : Prop := forall t d, TD k !! t = Some d -> preemptible d.

Lemma stops_preemptible k k' : stops k' = stops k -> all_preemptible k -> all_preemptible k'.
Proof.
  intros E H t d' Hd'. apply preemptible_bit.
  assert (stops k !! t = Some (Z.testbit (FLAGS d') 12)) as Es
    by (rewrite <-E; unfold stops; by rewrite lookup_fmap, Hd').
  unfold stops in Es. rewrite lookup_fmap in Es. destruct (TD k !! t) as [d|] eqn:Hd; [|done].
  apply (inj Some) in Es. rewrite <-Es. by apply preemptible_bit, (H t).
Qed.

Lemma calm_switched k k' : switched k k' -> calm k k'.
Proof. intros [->|[->|(p & t & -> & _)]]; by split_and!. Qed.

Lemma stops_insert k k' t d d' : TD k' = <[t := d']> (TD k) -> TD k !! t = Some d ->
  Z.testbit (FLAGS d') 12 = Z.testbit (FLAGS d) 12 -> stops k' = stops k.
Proof.
  intros E Hd Hb. unfold stops. rewrite E, fmap_insert, insert_id; [done|].
  rewrite lookup_fmap, Hd. cbn. by rewrite Hb.
Qed.

Lemma calm_same_but k k' t d' : same_but t d' k k' -> stops k' = stops k -> calm k k'.
Proof. intros (_ & E & _ & _ & _ & _ & E2) Hst. by split_and!. Qed.

Lemma calm_trans k1 k2 k3 : calm k1 k2 -> calm k2 k3 -> calm k1 k3.
Proof. intros (A1 & A2 & A3) (B1 & B2 & B3). split_and!; congruence. Qed.


(** Calls other than those that stop and start preemption. *)
Lemma keeps_stops_upd t g : (forall d, Z.testbit (FLAGS (g d)) 12 = Z.testbit (FLAGS d) 12) ->
  keeps stops (upd_td t g).
Proof.
  intros H k a k'. unfold upd_td. destruct (TD k !! t) as [d|] eqn:Hd; [|done]. intros [= <- <-].
  by eapply stops_insert.
Qed.

Ltac keep_stops :=
  repeat first
    [ progress keep_still
    | apply keeps_stops_upd; intros; first [ reflexivity
        | cbn; rewrite ?Z.lor_spec, ?Z.land_spec, ?Z.lnot_spec by lia;
          change (Z.testbit TASK_PRIORITY_BOOSTED 12) with false;
          cbn; rewrite ?orb_false_r, ?andb_true_r; reflexivity ] ].

Lemma check_stops : keeps stops _sched_check_scheduler_internal.
Proof. unfold _sched_check_scheduler_internal, active. keep_stops. Qed.
Lemma exec_stops : keeps stops _sched_execute_scheduler_internal.
Proof. unfold _sched_execute_scheduler_internal. keep_stops. Qed.
Lemma ready_stops t : keeps stops (_task_ready_internal t).
Proof. unfold _task_ready_internal. keep_stops. Qed.
Lemma delay_stops t : keeps stops (_time_delay_internal t).
Proof. pose proof exec_stops. unfold _time_delay_internal, _QUEUE_UNLINK. keep_stops. Qed.
Lemma yield_stops : keeps stops _sched_yield.
Proof.
  pose proof exec_stops. pose proof ready_stops. unfold _sched_yield, active, _QUEUE_UNLINK.
  keep_stops; auto.
Qed.
Lemma wake_stops l : keeps stops (wake_loop l).
Proof.
  pose proof ready_stops. induction l as [|t l IH]; cbn [wake_loop]; [apply keeps_ret|].
  unfold aux_remove. keep_stops; auto.
Qed.
Lemma set_priority_stops t p : keeps stops (_sched_set_priority_internal t p).
Proof.
  pose proof exec_stops. pose proof ready_stops.
  unfold _sched_set_priority_internal, active, _QUEUE_UNLINK. keep_stops; auto.
Qed.
Lemma boost_stops t p : keeps stops (_sched_boost_priority_internal t p).
Proof.
  pose proof check_stops. pose proof (set_priority_stops t).
  unfold _sched_boost_priority_internal. keep_stops; auto.
Qed.
Lemma unboost_stops t n : keeps stops (_sched_unboost_priority_internal t n).
Proof.
  pose proof check_stops. pose proof (set_priority_stops t).
  unfold _sched_unboost_priority_internal. keep_stops; auto.
Qed.

Lemma enqueue_stops m t b : keeps stops (mutex_enqueue m t b).
Proof.
  unfold mutex_enqueue, _QUEUE_UNLINK, _sched_insert_priorityq_internal, queue_enqueue.
  destruct b; keep_stops.
Qed.
Lemma evict_stops l m : keeps stops (evict l m).
Proof.
  pose proof ready_stops. induction l as [|t l IH]; cbn [evict]; [apply keeps_ret|].
  unfold _task_set_error_td_internal. keep_stops; auto.
Qed.

Lemma quiet_stops c : quiet c = true -> c <> StopPreemption -> c <> StartPreemption ->
  keeps stops (run_call c).
Proof.
  pose proof check_stops. pose proof exec_stops. pose proof ready_stops. pose proof delay_stops.
  pose proof yield_stops. pose proof wake_stops. pose proof boost_stops. pose proof unboost_stops.
  intros Hq Hst Hsp. destruct c as [|ms|n|[n|]|[n|]|id p|t p|t n|id p| | |t|p mem|q|q b| | |hw]; try discriminate;
    try congruence; cbn [run_call]; auto;
    unfold _time_delay, _time_delay_ticks, _time_delay_for, _time_delay_until,
      isr_enter, isr_exit, _task_ready, _task_set_error, _task_get_error, _time_notify_kernel,
      time_slice_tick, active, _QUEUE_UNLINK;
    keep_stops; auto.
Qed.

(** A task that boosts the owner of the mutex it wants to its own priority goes
    on running. *)
Lemma boost_stays idle k t o dt d : sys idle k -> IN_ISR k = 0 -> ACTIVE_PTR k = t ->
  TD k !! t = Some dt -> preemptible dt -> o <> t -> TD k !! o = Some d ->
  exists k', _sched_boost_priority_internal o (PRIORITY dt) k = Some (tt, k') /\ ACTIVE_PTR k' = t.
Proof.
  intros Hs Hi Ha Hdt Hpre Hne Hd. pose proof Hs as [Hp _ Hc].
  assert (PRIORITY dt = CURRENT_READY_Q k) as Hcur by (apply Hc; [done|by rewrite Ha|done]).
  unfold _sched_boost_priority_internal. rewrite (bind_run _ _ _ _ _ (upd_td_run o _ d k Hd)).
  set (d1 := with_BOOSTED _ _). set (k1 := set_TD _ k).
  assert (TD k1 !! o = Some d1) as Hd1 by (cbn; by rewrite lookup_insert, decide_True).
  assert (exists k2, _sched_set_priority_internal o (PRIORITY dt) k1 = Some (tt, k2) /\
            ACTIVE_PTR k2 = t /\ IN_ISR k2 = 0 /\ CURRENT_READY_Q k2 = PRIORITY dt /\
            TD k2 !! t = Some dt) as (k2 & E2 & Ha2 & Hi2 & Hc2 & Hd2).
  { unfold _sched_set_priority_internal. rewrite (bind_run _ _ _ _ _ (get_td_run _ _ _ Hd1)).
    rewrite (bind_run _ _ _ _ _ (upd_td_run o (with_PRIORITY (PRIORITY dt)) d1 k1 Hd1)).
    set (d2 := with_PRIORITY _ d1). set (k2 := set_TD _ k1).
    assert (TD k2 !! o = Some d2) as Hd2 by (cbn; by rewrite lookup_insert, decide_True).
    assert (forall x, TD k2 !! t = Some x <-> TD k !! t = Some x) as Ht.
    { intros x. cbn. by rewrite !lookup_insert_ne by done. }
    destruct (STATE d1 =? READY).
    - set (k3 := ready_k o d2 (set_READY_Q_LIST (fmap (without o)) k2)).
      rewrite bind_assoc_tt.
      assert ((_QUEUE_UNLINK o;; _task_ready_internal o) k2 = Some (tt, k3)) as E.
      { unfold mbind, M_bind, _QUEUE_UNLINK, modify. by rewrite (task_ready_run o d2). }
      rewrite (bind_run _ _ _ _ _ E). exists k3.
      rewrite (bind_run _ _ _ _ _ (eq_refl : active k3 = Some (ACTIVE_PTR k3, k3))).
      assert (ACTIVE_PTR k3 = t) as Ha3 by done.
      rewrite Ha3, (proj2 (Z.eqb_neq t o)) by done. cbn [andb]. split_and!; try done.
      + cbn. lia.
      + cbn. by rewrite !lookup_insert_ne by done.
    - exists k2. split_and!; try done. by apply Ht. }
  rewrite (bind_run _ _ _ _ _ E2). exists k2. split; [|done].
  unfold _sched_check_scheduler_internal, active, mbind, M_bind, gets. rewrite Hi2. cbn.
  rewrite Ha2, (get_td_run _ _ _ Hd2), Hc2, Z.eqb_refl. done.
Qed.

(** ** The system: tasks, interrupts and mutexes *)

Inductive event :=
  | Locked (t m : Z) | Unlocked (t m : Z) | Destroyed (t m : Z) | Initialised (m : Z).

Inductive action :=
  | AInit (m : Z) (a : attr)
  | ALock (m : Z) | ATryLock (m : Z) | AUnlock (m : Z) | ADestroy (m : Z)
  | ACeiling (m ceiling : Z)
  | ACleanup                      (* of the running task *)
  | AResume                       (* the running task goes on *)
  | ACall (c : kcall).            (* another kernel call, an interrupt or a tick *)

(** The event of a lock that returns [MQX_EOK]. *)
Definition lock_events (t m : Z) (a : after) (o : outcome) : list event :=
  match o with
  | Returned r => if r =? MQX_EOK
                  then [match a with Locking => Locked t m | Destroying => Destroyed t m end]
                  else []
  | Suspended => []
  end.

Definition unlock_events (t m : Z) (o : outcome) : list event :=
  match o with
  | Returned r => if r =? MQX_EOK then [Unlocked t m] else []
  | Suspended => [Unlocked t m]
  end.

Definition cleanup_events (v : Z) (r : option Z * outcome) : list event :=
  match r.1 with Some m => [Unlocked v m] | None => [] end.

(** The mutex a lock in progress is for. *)
Definition pc_lock (p : pc) : option (Z * after) :=
  match p with
  | InSpin m _ _ a | InSpinBoost m _ _ a | InOwner m a | InBoost m a | InQueue m a
  | InInherit m a | InProtect m a | InCeiling m a => Some (m, a)
  | InHandover _ _ _ | InUnlock _ _ | InCleanup _ => None
  end.

Definition resume : M mx (list event) :=
  t ← kern active;
  L ← gets id;
  p ← lift_opt (PC L !! t);
  modify (set_PC (delete t));;
  match p with
  | InCleanup v => r ← cleanup_step v; mret (cleanup_events v r)
  | _ => o ← resume_at p;
         mret (match pc_lock p with Some (m, a) => lock_events t m a o | None => [] end)
  end.

Definition run_action (x : action) : M mx (list event) :=
  t ← kern active;
  match x with
  | AInit m a => r ← mutex_init (Some m) a true; mret (if r =? MQX_EOK then [Initialised m] else [])
  | ALock m => o ← _mutex_lock (Some m); mret (lock_events t m Locking o)
  | ATryLock m => o ← _mutex_try_lock (Some m); mret (lock_events t m Locking o)
  | AUnlock m => o ← _mutex_unlock (Some m); mret (unlock_events t m o)
  | ADestroy m => o ← _mutex_destroy m; mret (lock_events t m Destroying o)
  | ACeiling m c => _mutex_set_priority_ceiling (Some m) c false;; mret []
  | ACleanup => r ← _mutex_cleanup t; mret (cleanup_events t r)
  | AResume => resume
  | ACall c => kern (run_call c);; mret []
  end.

(** *** The specification of a lock *)

Inductive status := Free | Held (t : Z) | Gone.

#[export] Instance status_eq_dec : EqDecision status.
Proof. solve_decision. Defined.

(** A task locks a mutex that is free, and unlocks one that it holds. *)
Definition lock_step (s : gmap Z status) (e : event) : option (gmap Z status) :=
  match e with
  | Initialised m =>
      match s !! m with Some (Held _) => None | _ => Some (<[m := Free]> s) end
  | Locked t m => if decide (s !! m = Some Free) then Some (<[m := Held t]> s) else None
  | Unlocked t m => if decide (s !! m = Some (Held t)) then Some (<[m := Free]> s) else None
  | Destroyed t m =>
      if decide (s !! m = Some Free \/ s !! m = Some (Held t)) then Some (<[m := Gone]> s) else None
  end.

Fixpoint lock_run (s : gmap Z status) (evs : list event) : option (gmap Z status) :=
  match evs with
  | [] => Some s
  | e :: evs' => s' ← lock_step s e; lock_run s' evs'
  end.

(** *** When an action is a correct use *)

(** The running task is not inside a function, and is not the idle task. *)
Definition at_task (idle : Z) (L : mx) : Prop :=
  IN_ISR (KD L) = 0 /\ PC L !! ACTIVE_PTR (KD L) = None /\ ACTIVE_PTR (KD L) <> idle.

Definition spins (v : mutex) : bool := has v MUTEX_SPIN_ONLY || has v MUTEX_LIMITED_SPIN.

Definition pc_mutex (p : pc) : option Z :=
  match p with
  | InHandover m _ _ => Some m
  | _ => fst <$> pc_lock p
  end.

(** [bad] has to hold when a mutex both spins and inherits, [racy] when a task
    disables preemption. *)
Definition can (bad racy : Prop) (idle : Z) (L : mx) (x : action) : Prop :=
  match x with
  | AInit m a =>
      at_task idle L /\ on (QUEUES (KD L)) m = [] /\
      (forall t p, PC L !! t = Some p -> pc_mutex p <> Some m) /\
      (forall v, MUTEX L !! m = Some v -> MVALID v = MUTEX_VALID -> LOCK v = 0) /\
      ACEILING a <= LOWEST_TASK_PRIORITY (KD L) /\
      (spins (init_mutex a) = true -> has (init_mutex a) MUTEX_PRIO_INHERIT = true -> bad)
  | ALock m | ATryLock m | AUnlock m | ACeiling m _ => at_task idle L /\ is_Some (MUTEX L !! m)
  | ADestroy m => at_task idle L /\ exists v, MUTEX L !! m = Some v /\
      (MVALID v = MUTEX_VALID \/ OWNER_TD v <> Some (ACTIVE_PTR (KD L)))
  | ACleanup => at_task idle L
  | AResume => IN_ISR (KD L) = 0 /\ is_Some (PC L !! ACTIVE_PTR (KD L))
  | ACall c => quiet c = true /\ allowed idle (KD L) c /\ (c = StopPreemption \/ c = StartPreemption -> racy) /\
      (c = IsrEnter \/ (IN_ISR (KD L) = 0 -> PC L !! ACTIVE_PTR (KD L) = None))
  end.

(** ** The invariant *)

(** The mutex a task at [p] has acquired already. *)
Definition claims (p : pc) : option Z :=
  match p with
  | InOwner m _ | InInherit m _ | InProtect m _ | InCeiling m _ => Some m
  | _ => None
  end.

(** The mutex a task spins for, or has acquired in a spin. *)
Definition spinning (p : pc) : option Z :=
  match p with
  | InSpin m _ _ _ | InSpinBoost m _ _ _ | InOwner m _ => Some m
  | _ => None
  end.

Definition pc_prio (p : pc) : option Z :=
  match p with
  | InSpin _ _ priority _ | InSpinBoost _ _ priority _ => Some priority
  | _ => None
  end.

(** [t] has been given [m], and its lock has not returned yet. *)
Definition granted (L : mx) (t m : Z) : Prop :=
  match PC L !! t with
  | Some (InQueue m' _) => m' = m /\ t ∉ on (QUEUES (KD L)) m
  | Some p => claims p = Some m
  | None => False
  end.

(** [t] is the owner, or is about to write itself down as the owner. *)
Definition takes (L : mx) (m : Z) (v : mutex) (t : Z) : Prop :=
  t ∈ dom (TD (KD L)) /\
  (OWNER_TD v = Some t \/ OWNER_TD v = None /\ exists a, PC L !! t = Some (InOwner m a)) /\
  (forall u, granted L u m -> u = t).

Definition lock_ok (racy : Prop) (L : mx) (s : gmap Z status) (m : Z) (v : mutex) : Prop :=
  if LOCK v =? 0
  then OWNER_TD v = None /\ s !! m = Some Free /\ (forall u, ~ granted L u m) /\
       (racy \/ on (QUEUES (KD L)) m = [])
  else LOCK v = MQX_TEST_AND_SET_VALUE /\ exists t, takes L m v t /\
    (s !! m = Some (Held t) /\ ~ granted L t m \/ s !! m = Some Free /\ granted L t m).

Record mutex_ok (bad racy : Prop) (L : mx) (s : gmap Z status) (m : Z) (v : mutex) : Prop := {
  mo_ceiling : PRIORITY_CEILING v <= LOWEST_TASK_PRIORITY (KD L);
  mo_bad : spins v = true -> has v MUTEX_PRIO_INHERIT = true -> bad;
  mo_queue : is_Some (QUEUES (KD L) !! m);
  mo_linked : MVALID v = MUTEX_VALID -> LINKED v = true <-> m ∈ MUTEXES L;
  mo_lock : MVALID v = MUTEX_VALID -> lock_ok racy L s m v;
  mo_spin : racy \/ (spins v = true -> on (QUEUES (KD L)) m = [])
}.

Record pc_ok (racy : Prop) (idle : Z) (L : mx) (t : Z) (p : pc) : Prop := {
  po_td : is_Some (TD (KD L) !! t);
  po_idle : t <> idle;
  po_mutex : forall m, pc_mutex p = Some m -> is_Some (MUTEX L !! m);
  po_claim : forall m v, claims p = Some m -> MUTEX L !! m = Some v -> MVALID v = MUTEX_VALID;
  po_spin : forall m v, spinning p = Some m -> MUTEX L !! m = Some v -> spins v = true;
  po_prio : forall pr, pc_prio p = Some pr -> pr <= LOWEST_TASK_PRIORITY (KD L) + 2;
  po_cleanup : forall v, p = InCleanup v -> v = t;
  po_unlock : forall b u v, (p = InUnlock b u \/ exists m, p = InHandover m b u) ->
    u = Cleaning v -> v = t;
  po_boost : forall m a, p = InBoost m a -> racy
}.

Record xinv (bad racy : Prop) (idle : Z) (L : mx) (s : gmap Z status) : Prop := {
  xi_sys : sys idle (KD L);
  xi_wait : forall m t, is_Some (MUTEX L !! m) -> t ∈ on (QUEUES (KD L)) m ->
    exists a, PC L !! t = Some (InQueue m a);
  xi_mutex : forall m v, MUTEX L !! m = Some v -> mutex_ok bad racy L s m v;
  xi_pc : forall t p, PC L !! t = Some p -> pc_ok racy idle L t p;
  xi_list : forall m, m ∈ MUTEXES L -> exists v, MUTEX L !! m = Some v /\ MVALID v = MUTEX_VALID;
  xi_comp : COMPONENT L = Some MUTEX_VALID;
  xi_status : forall m t, s !! m = Some (Held t) -> exists v, MUTEX L !! m = Some v /\ MVALID v = MUTEX_VALID;
  xi_preempt : racy \/ all_preemptible (KD L)
}.

(** *** Changes that keep the invariant *)

Definition at_pc (t : Z) (p : pc) (L : mx) : mx := set_PC (<[t := p]>) L.

Section inv.
Context (bad racy : Prop) (idle : Z).

(** Two states in which the same tasks have been granted mutex [m]. *)
Lemma lock_ok_ext L L' s s' m v v' :
  (forall u, granted L' u m <-> granted L u m) ->
  (forall u a, PC L !! u = Some (InOwner m a) -> PC L' !! u = Some (InOwner m a)) ->
  dom (TD (KD L')) = dom (TD (KD L)) -> s' !! m = s !! m ->
  LOCK v' = LOCK v -> OWNER_TD v' = OWNER_TD v ->
  racy \/ LOCK v <> 0 \/ (on (QUEUES (KD L)) m = [] -> on (QUEUES (KD L')) m = []) ->
  lock_ok racy L s m v -> lock_ok racy L' s' m v'.
Proof.
  intros Hg Ho Hd Hs E1 E2 Hq. unfold lock_ok, takes. rewrite Hs, E1, E2, Hd.
  destruct (Z.eqb_spec (LOCK v) 0).
  - intros (H1 & H2 & H3 & H4). split_and!; [done|done| |naive_solver].
    intros u Hu. by apply (H3 u), Hg.
  - intros (Hl & t & (T1 & T2 & T3) & Hst). split; [done|].
    exists t. split_and!; [done|naive_solver|intros u Hu; by apply T3, Hg|]. by rewrite Hg.
Qed.

Lemma lock_ok_same L L' s m v v' :
  PC L' = PC L -> QUEUES (KD L') = QUEUES (KD L) -> dom (TD (KD L')) = dom (TD (KD L)) ->
  LOCK v' = LOCK v -> OWNER_TD v' = OWNER_TD v -> lock_ok racy L s m v -> lock_ok racy L' s m v'.
Proof.
  intros E1 E2 E3 E4 E5. apply lock_ok_ext; try done.
  - intros u. unfold granted. by rewrite E1, E2.
  - by rewrite E1.
  - right. right. by rewrite E2.
Qed.

Lemma xinv_kd0 L s k : xinv bad racy idle L s -> sys idle k -> still k = still (KD L) ->
  dom (TD k) = dom (TD (KD L)) -> racy \/ stops k = stops (KD L) ->
  xinv bad racy idle (set_KD k L) s.
Proof.
  intros [H1 H2 H3 H4 H5 H6 H7 H8] Hs Hst E3 Hor.
  assert (QUEUES k = QUEUES (KD L) /\ LOWEST_TASK_PRIORITY k = LOWEST_TASK_PRIORITY (KD L)) as [E1 E2]
    by (unfold still in Hst; by simplify_eq).
  split; try done.
  - cbn. by rewrite E1.
  - intros m v Hv. destruct (H3 m v Hv) as [C1 C2 C3 C4 C5]. split; cbn.
    + by rewrite E2.
    + done.
    + by rewrite E1.
    + done.
    + intros Hva. by apply (lock_ok_same L _ s m v v); [..|apply C5].
    + by rewrite E1.
  - intros t p Hp. destruct (H4 t p Hp) as []. split; cbn; try done; [|by rewrite E2].
    by rewrite <-elem_of_dom, E3, elem_of_dom.
  - destruct Hor as [|Hor]; [by left|]. destruct H8 as [|H8]; [by left|right].
    by eapply stops_preemptible.
Qed.

Lemma xinv_kd L s k : xinv bad racy idle L s -> sys idle k -> calm (KD L) k ->
  xinv bad racy idle (set_KD k L) s.
Proof.
  intros Hx Hs Hc. pose proof Hc as (E1 & E2 & E3). apply xinv_kd0; try done.
  - unfold still. by rewrite E1, E2.
  - by apply calm_dom.
  - by right.
Qed.

(** The fields of a mutex that are not about who has it. *)
Lemma xinv_mutex L s m v v' : xinv bad racy idle L s -> MUTEX L !! m = Some v ->
  LOCK v' = LOCK v -> OWNER_TD v' = OWNER_TD v -> MVALID v' = MVALID v ->
  PROTOCOLS v' = PROTOCOLS v -> LINKED v' = LINKED v ->
  PRIORITY_CEILING v' <= LOWEST_TASK_PRIORITY (KD L) ->
  xinv bad racy idle (set_MUTEX (<[m := v']>) L) s.
Proof.
  intros [H1 H2 H3 H4 H5 H6 H7] Hv E1 E2 E3 E4 E5 Hce. split; cbn; try done.
  - intros m' t Hm. apply H2. rewrite lookup_insert in Hm. case_decide; [subst; by eexists|done].
  - intros m' w. rewrite lookup_insert. case_decide; [|intros Hw; by destruct (H3 _ _ Hw); split]. subst m'. intros [= <-].
    destruct (H3 m v Hv) as [C1 C2 C3 C4 C5]. split; cbn; try done.
    + unfold spins, has. by rewrite E4.
    + by rewrite E3, E5.
    + rewrite E3. intros Hva. by apply (lock_ok_same L _ s m v v'); [..|apply C5].
    + unfold spins, has. by rewrite E4.
  - intros t p Hp. destruct (H4 t p Hp) as [C1 C2 C3 C4 C5 C6]. split; cbn; try done.
    + intros m' Hm'. rewrite lookup_insert. case_decide; [by eexists|by apply C3].
    + intros m' w Hc. rewrite lookup_insert. case_decide; [|by apply C4]. subst m'.
      intros [= <-]. rewrite E3. by eapply C4.
    + intros m' w Hsp. rewrite lookup_insert. case_decide; [|by apply C5]. subst m'.
      intros [= <-]. unfold spins, has. rewrite E4. by eapply C5.
  - intros m' Hm'. rewrite lookup_insert. case_decide; [subst|by apply H5].
    destruct (H5 _ Hm') as (w & Hw & Hva). exists v'. split; [done|]. congruence.
  - intros m' t Hm'. rewrite lookup_insert. case_decide; [subst|by eapply H7].
    destruct (H7 _ _ Hm') as (w & Hw & Hva). exists v'. split; [done|]. congruence.
Qed.

(** The points at which a task has not acquired anything. *)
Definition neutral (p : pc) : bool :=
  match p with
  | InSpin _ _ _ _ | InSpinBoost _ _ _ _ | InBoost _ _ | InHandover _ _ _ | InUnlock _ _
  | InCleanup _ => true
  | _ => false
  end.

Lemma granted_at_pc L t p u m : u <> t -> granted (at_pc t p L) u m <-> granted L u m.
Proof. intros Hu. unfold granted, at_pc. cbn. by rewrite lookup_insert_ne by done. Qed.

Lemma granted_at L t p m : granted (at_pc t p L) t m <->
  match p with
  | InQueue m' _ => m' = m /\ t ∉ on (QUEUES (KD L)) m
  | p => claims p = Some m
  end.
Proof. unfold granted, at_pc. cbn. rewrite lookup_insert, decide_True by done. by destruct p. Qed.

Lemma granted_none L t m : PC L !! t = None -> ~ granted L t m.
Proof. unfold granted. intros -> []. Qed.

Lemma granted_neutral L t p m : neutral p = true -> ~ granted (at_pc t p L) t m.
Proof. rewrite granted_at. by destruct p. Qed.

Lemma xinv_neutral L s t p : xinv bad racy idle L s -> PC L !! t = None -> neutral p = true ->
  pc_ok racy idle L t p -> xinv bad racy idle (at_pc t p L) s.
Proof.
  intros [H1 H2 H3 H4 H5 H6 H7] Hpc Hn Hp. split; try done.
  - intros m u Hm Hu. destruct (H2 m u Hm Hu) as [a Ha]. exists a. cbn.
    rewrite lookup_insert_ne; [done|]. intros ->. congruence.
  - intros m v Hv. destruct (H3 m v Hv) as [C1 C2 C3 C4 C5]. split; try done.
    intros Hva. apply (lock_ok_ext L _ s s m v); [| |done|done|done|done|by right; right|by apply C5].
    + intros u. destruct (decide (u = t)) as [->|Hu]; [|by apply granted_at_pc].
      split; intros Hg; [by destruct (granted_neutral L t p m Hn)|by destruct (granted_none L t m Hpc)].
    + intros u a Ha. cbn. rewrite lookup_insert_ne; [done|]. intros ->. congruence.
  - intros u q. cbn. rewrite lookup_insert. case_decide; [|intros Hq; by destruct (H4 _ _ Hq); split].
    subst. intros [= <-]. by destruct Hp; split.
Qed.

Lemma xinv_drop L s t p : xinv bad racy idle (at_pc t p L) s -> PC L !! t = None -> neutral p = true ->
  xinv bad racy idle L s.
Proof.
  intros [H1 H2 H3 H4 H5 H6 H7] Hpc Hn. split; try done.
  - intros m u Hm Hu. destruct (H2 m u Hm Hu) as [a Ha]. exists a. cbn in Ha.
    rewrite lookup_insert in Ha. case_decide; [by simplify_eq|done].
  - intros m v Hv. destruct (H3 m v Hv) as [C1 C2 C3 C4 C5]. split; try done.
    intros Hva. apply (lock_ok_ext (at_pc t p L) _ s s m v); [| |done|done|done|done|by right; right|by apply C5].
    + intros u. destruct (decide (u = t)) as [->|Hu]; [|by rewrite granted_at_pc].
      split; intros Hg; [by destruct (granted_none L t m Hpc)|by destruct (granted_neutral L t p m Hn)].
    + intros u a. cbn. rewrite lookup_insert. case_decide; [|done]. intros [= ->]. done.
  - intros u q Hq. destruct (decide (u = t)) as [->|Hu]; [congruence|].
    assert (PC (at_pc t p L) !! u = Some q) as Hq' by (cbn; by rewrite lookup_insert_ne).
    destruct (H4 u q Hq'). by split.
Qed.

(** A step of [t] on the mutex [m]: what has to be shown about [m] and [t]. *)
Record local_step (L L' : mx) (s s' : gmap Z status) (t m : Z) (v' : mutex) : Prop := {
  ls_low : LOWEST_TASK_PRIORITY (KD L') = LOWEST_TASK_PRIORITY (KD L);
  ls_dom : dom (TD (KD L')) = dom (TD (KD L));
  ls_comp : COMPONENT L' = COMPONENT L;
  ls_list : forall m', m' <> m -> m' ∈ MUTEXES L' <-> m' ∈ MUTEXES L;
  ls_mutex : MUTEX L' = <[m := v']> (MUTEX L);
  ls_queues : forall q, q <> m -> QUEUES (KD L') !! q = QUEUES (KD L) !! q;
  ls_pc : forall u, u <> t -> PC L' !! u = PC L !! u;
  ls_status : forall m', m' <> m -> s' !! m' = s !! m';
  (* the task has nothing to do with other mutexes *)
  ls_alone : forall m', m' <> m ->
    ~ granted L t m' /\ ~ granted L' t m' /\ t ∉ on (QUEUES (KD L)) m';
  (* others are where they were *)
  ls_claims : forall u p, u <> t -> PC L !! u = Some p -> claims p = Some m -> MVALID v' = MUTEX_VALID;
  ls_spins : forall u p, u <> t -> PC L !! u = Some p -> spinning p = Some m -> spins v' = true;
  (* the mutex and the task *)
  ls_wait : forall u, u ∈ on (QUEUES (KD L')) m -> exists a, PC L' !! u = Some (InQueue m a);
  ls_member : m ∈ MUTEXES L' -> MVALID v' = MUTEX_VALID;
  ls_held : forall u, s' !! m = Some (Held u) -> MVALID v' = MUTEX_VALID;
  ls_ok : mutex_ok bad racy L' s' m v';
  ls_at : forall p, PC L' !! t = Some p -> pc_ok racy idle L' t p;
  ls_stops : racy \/ stops (KD L') = stops (KD L)
}.

Lemma pc_ok_update L L' m v' u p : MUTEX L' = <[m := v']> (MUTEX L) ->
  dom (TD (KD L')) = dom (TD (KD L)) ->
  (claims p = Some m -> MVALID v' = MUTEX_VALID) ->
  (spinning p = Some m -> spins v' = true) ->
  LOWEST_TASK_PRIORITY (KD L') = LOWEST_TASK_PRIORITY (KD L) ->
  pc_ok racy idle L u p -> pc_ok racy idle L' u p.
Proof.
  intros E1 E2 E3 E4 E5 [P1 P2 P3 P4 P5 P6 P7 P8]. split; try done.
  - by rewrite <-elem_of_dom, E2, elem_of_dom.
  - intros m' Hm. rewrite E1, lookup_insert. case_decide; [by eexists|auto].
  - intros m' w Hc. rewrite E1, lookup_insert. case_decide; [|by apply P4].
    subst. intros [= <-]. auto.
  - intros m' w Hsp. rewrite E1, lookup_insert. case_decide; [|by apply P5].
    subst. intros [= <-]. auto.
  - by rewrite E5.
Qed.

Lemma xinv_step L L' s s' t m v' : xinv bad racy idle L s -> sys idle (KD L') ->
  local_step L L' s s' t m v' -> xinv bad racy idle L' s'.
Proof.
  intros [H1 H2 H3 H4 H5 H6 H7 H8] Hs [].
  assert (forall q, q <> m -> on (QUEUES (KD L')) q = on (QUEUES (KD L)) q) as Hon
    by (intros q Hq; unfold on; by rewrite ls_queues0).
  split; [done| | | | | | |].
  - intros q u Hm Hu. destruct (decide (q = m)) as [->|Hq]; [by apply ls_wait0|].
    rewrite Hon in Hu by done. rewrite ls_mutex0, lookup_insert_ne in Hm by done.
    destruct (H2 q u Hm Hu) as [a Ha]. exists a. rewrite ls_pc0; [done|].
    intros ->. by destruct (ls_alone0 q Hq) as (_ & _ & ?).
  - intros q w Hw. destruct (decide (q = m)) as [->|Hq].
    { rewrite ls_mutex0, lookup_insert, decide_True in Hw by done. by simplify_eq. }
    rewrite ls_mutex0, lookup_insert_ne in Hw by done.
    destruct (H3 q w Hw) as [C1 C2 C3 C4 C5 C6].
    split; [by rewrite ls_low0|done|by rewrite ls_queues0| | |by rewrite Hon].
    + intros Hva. rewrite ls_list0 by done. auto.
    + intros Hva. destruct (ls_alone0 q Hq) as (A1 & A2 & A3).
      apply (lock_ok_ext L _ s s' q w);
        [| |done|by apply ls_status0|done|done|right; right; by rewrite Hon|auto].
      * intros u. destruct (decide (u = t)) as [->|Hu]; [by split; intros ?|].
        unfold granted. by rewrite ls_pc0, Hon.
      * intros u a Ha. rewrite ls_pc0; [done|]. intros ->. destruct A1. unfold granted. by rewrite Ha.
  - intros u p Hp. destruct (decide (u = t)) as [->|Hu]; [by apply ls_at0|].
    rewrite ls_pc0 in Hp by done. eapply pc_ok_update; [done|done| | |done|by apply H4].
    + by eapply ls_claims0.
    + by eapply ls_spins0.
  - intros q Hq. rewrite ls_mutex0, lookup_insert. case_decide.
    + subst. exists v'. split; [done|by apply ls_member0].
    + apply H5, ls_list0; [done|done].
  - by rewrite ls_comp0.
  - intros q u Hq. rewrite ls_mutex0, lookup_insert. case_decide.
    + subst. exists v'. split; [done|by eapply ls_held0].
    + rewrite ls_status0 in Hq by done. by eapply H7.
  - destruct ls_stops0 as [|Hst]; [by left|]. destruct H8 as [|H8]; [by left|right].
    by eapply stops_preemptible.
Qed.
End inv.

(** *** The steps of a task *)

Section steps.
Context (bad racy : Prop) (idle : Z).

(** [t] runs, outside of any function. *)
Record running (L : mx) (t : Z) : Prop := {
  rn_isr : IN_ISR (KD L) = 0;
  rn_active : ACTIVE_PTR (KD L) = t;
  rn_pc : PC L !! t = None;
  rn_idle : t <> idle
}.

Lemma running_td L s t : xinv bad racy idle L s -> running L t ->
  exists d, TD (KD L) !! t = Some d /\ STATE d = READY.
Proof. intros Hx [H1 <- H3 H4]. apply (sys_run _ _ (xi_sys _ _ _ _ _ Hx)). Qed.

(** A running task waits nowhere. *)
Lemma running_queue L t q : sys idle (KD L) -> ACTIVE_PTR (KD L) = t -> t ∉ on (QUEUES (KD L)) q.
Proof.
  intros Hs Ha Hi. apply in_own in Hi as (d & Hd & H9 & _); [|apply Hs].
  destruct (sys_run _ _ Hs) as (e & He & Hse). rewrite Ha in He. simplify_eq. by rewrite Hse in H9.
Qed.

Lemma pc_ok_new L s t p m v : xinv bad racy idle L s -> ACTIVE_PTR (KD L) = t -> t <> idle ->
  MUTEX L !! m = Some v -> pc_lock p = Some (m, Locking) \/ pc_lock p = Some (m, Destroying) ->
  (claims p = Some m -> MVALID v = MUTEX_VALID) -> (spinning p = Some m -> spins v = true) ->
  (forall pr, pc_prio p = Some pr -> pr <= LOWEST_TASK_PRIORITY (KD L) + 2) ->
  (forall q a, p = InBoost q a -> racy) -> pc_ok racy idle L t p.
Proof.
  intros Hx Ha Ht Hv Hp Hc Ho Hpr Hbo. split.
  - rewrite <-Ha. destruct (sys_run _ _ (xi_sys _ _ _ _ _ Hx)) as (d & -> & _). by eexists.
  - done.
  - intros q Hq. assert (q = m) as ->; [|by eexists]. destruct p; destruct Hp; simplify_eq/=; done.
  - intros q w Hq Hw. assert (q = m) as -> by (destruct p; destruct Hp; simplify_eq/=; done).
    simplify_eq. auto.
  - intros q w Hq Hw. assert (q = m) as -> by (destruct p; destruct Hp; simplify_eq/=; done).
    simplify_eq. auto.
  - done.
  - intros w ->. by destruct Hp.
  - intros b u w [->|[q ->]] _; by destruct Hp.
  - done.
Qed.

(** Another acquired point of the same lock; the task is the owner there. *)
Lemma step_claim L s t m a v p p' :
  xinv bad racy idle (at_pc t p L) s -> ACTIVE_PTR (KD L) = t -> t <> idle ->
  granted (at_pc t p L) t m -> MUTEX L !! m = Some v -> MVALID v = MUTEX_VALID ->
  pc_lock p' = Some (m, a) -> claims p' = Some m -> p' <> InOwner m a ->
  xinv bad racy idle (at_pc t p' (set_MUTEX (<[m := with_OWNER (Some t) v]>) L)) s.
Proof.
  intros Hx Ha Ht Hg Hv Hva Hpl Hc Hno. pose proof (xi_sys _ _ _ _ _ Hx) as Hs.
  pose proof (xi_mutex _ _ _ _ _ Hx m v Hv) as [C1 C2 C3 C4 C5].
  pose proof (C5 Hva) as Hlk. unfold lock_ok in Hlk.
  destruct (Z.eqb_spec (LOCK v) 0) as [E|E]; [destruct Hlk as (_ & _ & Hn & _); by destruct (Hn t)|].
  destruct Hlk as (El & t' & (T1 & T2 & T3) & Hst). assert (t = t') as <- by (by apply T3).
  destruct Hst as [[_ Hn]|[Hfr _]]; [done|].
  set (v' := with_OWNER (Some t) v).
  assert (forall u, u <> t -> granted (at_pc t p' (set_MUTEX (<[m := v']>) L)) u m <-> granted (at_pc t p L) u m) as Hgu.
  { intros u Hu. unfold granted, at_pc. cbn. by rewrite !lookup_insert_ne by done. }
  assert (granted (at_pc t p' (set_MUTEX (<[m := v']>) L)) t m) as Hg' by (apply granted_at; by destruct p').
  apply (xinv_step bad racy idle (at_pc t p L) _ s s t m v'); [done|done|]. split; cbn; try done.
  - intros u Hu. by rewrite !lookup_insert_ne by done.
  - intros q Hq. assert (t ∉ on (QUEUES (KD L)) q) by (eapply (running_queue L); done).
    rewrite !granted_at. split_and!; [| |done].
    + intros Hgq. apply granted_at in Hg. destruct p; naive_solver.
    + destruct p'; naive_solver.
  - intros u q Hu Hpu Hsp'. apply (xi_pc _ _ _ _ _ Hx) in Hpu. exact (po_spin _ _ _ _ _ Hpu m v Hsp' Hv).
  - intros u Hu. destruct (xi_wait _ _ _ _ _ Hx m u) as [b Hb]; [by eexists|done|].
    exists b. cbn in Hb. rewrite lookup_insert_ne in Hb |- *; [done| |];
      intros <-; by apply (running_queue L t m) in Hu.
  - split; cbn; try done. intros _. unfold lock_ok. cbn. rewrite (proj2 (Z.eqb_neq _ _) E).
    split; [done|]. exists t. split; [|by right]. split_and!; [done|by left|].
    intros u Hu. destruct (decide (u = t)) as [|Hut]; [done|]. apply T3. by apply Hgu.
  - intros q. rewrite lookup_insert, decide_True by done. intros [= <-].
    assert (xinv bad racy idle (at_pc t p L) s) as Hx' by done.
    pose proof (pc_ok_new (at_pc t p L) s t p' m v Hx' Ha Ht Hv) as Hpo.
    eapply (pc_ok_update _ _ (at_pc t p L)); [done|done|done| |done|apply Hpo].
    + by destruct p'; simplify_eq/=.
    + destruct a; auto.
    + done.
    + by destruct p'; simplify_eq/=.
    + by destruct p'.
    + by destruct p'.
  - by right.
Qed.

(** The lock returns. *)
Lemma step_locked L s t m v p :
  xinv bad racy idle (at_pc t p L) s -> running L t -> claims p = Some m -> p <> InOwner m Locking ->
  p <> InOwner m Destroying -> MUTEX L !! m = Some v ->
  s !! m = Some Free /\ OWNER_TD v = Some t /\ xinv bad racy idle L (<[m := Held t]> s).
Proof.
  intros Hx [Hi Ha Hp Ht] Hc Hno1 Hno2 Hv. pose proof (xi_sys _ _ _ _ _ Hx) as Hs.
  assert (granted (at_pc t p L) t m) as Hg by (apply granted_at; by destruct p).
  assert (PC (at_pc t p L) !! t = Some p) as Hpt by (cbn; by rewrite lookup_insert, decide_True).
  pose proof (po_claim _ _ _ _ _ (xi_pc _ _ _ _ _ Hx t p Hpt) m v Hc Hv) as Hva.
  pose proof (xi_mutex _ _ _ _ _ Hx m v Hv) as [C1 C2 C3 C4 C5].
  pose proof (C5 Hva) as Hlk. unfold lock_ok in Hlk.
  destruct (Z.eqb_spec (LOCK v) 0) as [E|E]; [destruct Hlk as (_ & _ & Hn & _); by destruct (Hn t)|].
  destruct Hlk as (El & t' & (T1 & T2 & T3) & Hst). assert (t = t') as <- by (by apply T3).
  destruct Hst as [[_ Hn]|[Hfr _]]; [done|].
  assert (OWNER_TD v = Some t) as Ho.
  { destruct T2 as [|[_ [b Hb]]]; [done|]. rewrite Hpt in Hb. destruct b; congruence. }
  split_and!; [done|done|].
  assert (forall u, u <> t -> granted L u m <-> granted (at_pc t p L) u m) as Hgu
    by (intros u Hu; by rewrite granted_at_pc).
  pose proof (granted_none L t m Hp) as Hgt.
  apply (xinv_step bad racy idle (at_pc t p L) L s _ t m v); [done|done|]. split; cbn; try done.
  - by rewrite insert_id.
  - intros u Hu. by rewrite lookup_insert_ne by done.
  - intros q Hq. by rewrite lookup_insert_ne by done.
  - intros q Hq. split_and!; [|by apply granted_none|by apply (running_queue L)].
    rewrite granted_at. destruct p; naive_solver.
  - intros u q Hu Hpu Hsp'. apply (xi_pc _ _ _ _ _ Hx) in Hpu. exact (po_spin _ _ _ _ _ Hpu m v Hsp' Hv).
  - intros u Hu. destruct (xi_wait _ _ _ _ _ Hx m u) as [b Hb]; [by eexists|done|].
    exists b. cbn in Hb. rewrite lookup_insert_ne in Hb; [done|].
    intros <-. by apply (running_queue L t m) in Hu.
  - split; try done. intros _. unfold lock_ok. rewrite (proj2 (Z.eqb_neq _ _) E).
    split; [done|]. exists t. rewrite lookup_insert, decide_True by done.
    split; [|by left]. split_and!; [done|by left|].
    intros u Hu. destruct (decide (u = t)) as [->|Hut]; [done|]. by apply T3, Hgu.
  - intros q Hq. congruence.
  - by right.
Qed.

(** The lock is taken. *)
Lemma step_take L s t m v o p :
  xinv bad racy idle L s -> running L t -> MUTEX L !! m = Some v -> MVALID v = MUTEX_VALID ->
  LOCK v = 0 -> claims p = Some m -> (spinning p = Some m -> spins v = true) ->
  o = Some t \/ o = None /\ (exists a, p = InOwner m a) ->
  xinv bad racy idle (at_pc t p (set_MUTEX (<[m := with_LOCK MQX_TEST_AND_SET_VALUE o v]>) L)) s.
Proof.
  intros Hx [Hi Ha Hp Ht] Hv Hva Hl Hc Hsp Ho. pose proof (xi_sys _ _ _ _ _ Hx) as Hs.
  pose proof (xi_mutex _ _ _ _ _ Hx m v Hv) as [C1 C2 C3 C4 C5].
  pose proof (C5 Hva) as Hlk. unfold lock_ok in Hlk. rewrite Hl in Hlk.
  destruct Hlk as (_ & Hfr & Hn & Hemp). set (v' := with_LOCK _ o v).
  assert (pc_lock p = Some (m, Locking) \/ pc_lock p = Some (m, Destroying)) as Hpl.
  { destruct p; simplify_eq/=; destruct a; auto. }
  apply (xinv_step bad racy idle L _ s s t m v'); [done|done|]. split; cbn; try done.
  - intros u Hu. by rewrite lookup_insert_ne by done.
  - intros q Hq. split_and!; [by apply granted_none| |by apply (running_queue L)].
    rewrite granted_at. destruct p; naive_solver.
  - intros u q Hu Hpu Hsp'. apply (xi_pc _ _ _ _ _ Hx) in Hpu. exact (po_spin _ _ _ _ _ Hpu m v Hsp' Hv).
  - intros u Hu. destruct (xi_wait _ _ _ _ _ Hx m u) as [b Hb]; [by eexists|done|].
    exists b. rewrite lookup_insert_ne; [done|]. intros <-. by apply (running_queue L t m) in Hu.
  - split; cbn; try done. intros _. unfold lock_ok. change (LOCK v' =? 0) with false.
    split; [done|]. exists t.
    assert (granted (at_pc t p (set_MUTEX (<[m:=v']>) L)) t m) as Hg by (apply granted_at; by destruct p).
    split; [|by right]. split_and!.
    + cbn. rewrite elem_of_dom. rewrite <-Ha. destruct (sys_run _ _ Hs) as (d & -> & _). by eexists.
    + destruct Ho as [->|[-> [a ->]]]; [by left|right]. split; [done|]. exists a. cbn.
      by rewrite lookup_insert, decide_True.
    + intros u Hu. destruct (decide (u = t)) as [|Hut]; [done|]. destruct (Hn u).
      revert Hu. unfold granted, at_pc. cbn. by rewrite lookup_insert_ne by done.
  - intros q. rewrite lookup_insert, decide_True by done. intros [= <-].
    eapply (pc_ok_update _ _ L); [done|done|done|done|done|].
    eapply (pc_ok_new L s t p m v); try done; by destruct p.
  - by right.
Qed.

(** A mutex that the running task holds. *)
Lemma held_by L s t m v : xinv bad racy idle L s -> PC L !! t = None -> MUTEX L !! m = Some v ->
  MVALID v = MUTEX_VALID -> OWNER_TD v = Some t ->
  LOCK v = MQX_TEST_AND_SET_VALUE /\ s !! m = Some (Held t) /\ forall u, ~ granted L u m.
Proof.
  intros Hx Hp Hv Hva Ho. pose proof (mo_lock _ _ _ _ _ _ (xi_mutex _ _ _ _ _ Hx m v Hv) Hva) as Hlk.
  unfold lock_ok in Hlk. destruct (Z.eqb_spec (LOCK v) 0) as [E|E]; [destruct Hlk; congruence|].
  destruct Hlk as (El & t' & (T1 & T2 & T3) & Hst).
  assert (t' = t) as -> by (destruct T2 as [|[? _]]; congruence).
  pose proof (granted_none L t m Hp) as Hn.
  destruct Hst as [[Hh _]|[_ Hg]]; [|done]. split_and!; [done|done|].
  intros u Hu. by rewrite (T3 u Hu) in Hu.
Qed.

(** It becomes free. *)
Lemma step_free L s t m v :
  xinv bad racy idle L s -> running L t -> MUTEX L !! m = Some v -> MVALID v = MUTEX_VALID ->
  OWNER_TD v = Some t -> racy \/ on (QUEUES (KD L)) m = [] ->
  xinv bad racy idle (set_MUTEX (<[m := with_LOCK 0 None v]>) L) (<[m := Free]> s).
Proof.
  intros Hx [Hi Ha Hp Ht] Hv Hva Ho Hemp. pose proof (xi_sys _ _ _ _ _ Hx) as Hs.
  destruct (held_by L s t m v Hx Hp Hv Hva Ho) as (El & Hh & Hn).
  pose proof (xi_mutex _ _ _ _ _ Hx m v Hv) as [C1 C2 C3 C4 C5].
  apply (xinv_step bad racy idle L _ s _ t m (with_LOCK 0 None v)); [done|done|]. split; cbn; try done.
  - intros q Hq. by rewrite lookup_insert_ne by done.
  - intros q Hq. split_and!; [by apply granted_none|by apply granted_none|by apply (running_queue L)].
  - intros u q Hu Hpu Hsp'. apply (xi_pc _ _ _ _ _ Hx) in Hpu. exact (po_spin _ _ _ _ _ Hpu m v Hsp' Hv).
  - intros u Hu. apply (xi_wait _ _ _ _ _ Hx m u); [by eexists|done].
  - split; cbn; try done. intros _. unfold lock_ok. cbn. split_and!; [done| |exact Hn|exact Hemp].
    by rewrite lookup_insert, decide_True.
  - intros q Hq. congruence.
  - by right.
Qed.

(** It goes to the first task that waits. *)
Lemma step_handover L s t m v t2 l k' :
  xinv bad racy idle L s -> running L t -> MUTEX L !! m = Some v -> MVALID v = MUTEX_VALID ->
  OWNER_TD v = Some t -> on (QUEUES (KD L)) m = t2 :: l ->
  sys idle k' -> QUEUES k' = <[m := l]> (QUEUES (KD L)) ->
  LOWEST_TASK_PRIORITY k' = LOWEST_TASK_PRIORITY (KD L) -> dom (TD k') = dom (TD (KD L)) ->
  stops k' = stops (KD L) ->
  xinv bad racy idle (set_MUTEX (<[m := with_OWNER (Some t2) v]>) (set_KD k' L)) (<[m := Free]> s).
Proof.
  intros Hx [Hi Ha Hp Ht] Hv Hva Ho Hq Hs' Hqs Hlow Hdom Hst. pose proof (xi_sys _ _ _ _ _ Hx) as Hs.
  destruct (held_by L s t m v Hx Hp Hv Hva Ho) as (El & Hh & Hn).
  pose proof (xi_mutex _ _ _ _ _ Hx m v Hv) as [C1 C2 C3 C4 C5 C6].
  assert (NoDup (t2 :: l)) as [Hn2 _]%NoDup_cons.
  { rewrite <-Hq. apply (sh_own _ (proj1 (pre_inv _ _ (sys_pre _ _ Hs)))). }
  destruct (xi_wait _ _ _ _ _ Hx m t2) as [b Hb]; [by eexists|rewrite Hq; set_solver|].
  set (L' := set_MUTEX _ _).
  assert (on (QUEUES k') m = l) as Hq' by (by rewrite Hqs, on_insert, decide_True).
  assert (granted L' t2 m) as Hg by (unfold granted; cbn; by rewrite Hb, Hq').
  assert (forall u, granted L' u m -> u = t2) as Hg1.
  { intros u Hu. destruct (decide (u = t2)) as [|Hne]; [done|]. destruct (Hn u).
    revert Hu. unfold granted. cbn. rewrite Hq', Hq. destruct (PC L !! u) as [[]|]; try done.
    set_solver. }
  apply (xinv_step bad racy idle L _ s _ t m (with_OWNER (Some t2) v)); [done|done|]. split; cbn; try done.
  - intros q Hqm. by rewrite Hqs, lookup_insert_ne.
  - intros q Hqm. by rewrite lookup_insert_ne by done.
  - intros q Hqm. split_and!; [by apply granted_none|by apply granted_none|by apply (running_queue L)].
  - intros u q Hu Hpu Hsp'. apply (xi_pc _ _ _ _ _ Hx) in Hpu. exact (po_spin _ _ _ _ _ Hpu m v Hsp' Hv).
  - intros u Hu. apply (xi_wait _ _ _ _ _ Hx m u); [by eexists|]. rewrite Hq. rewrite Hq' in Hu. set_solver.
  - split; cbn; try done.
    + by rewrite Hlow.
    + rewrite Hqs, lookup_insert, decide_True by done. by eexists.
    + intros _. unfold lock_ok. change (LOCK (with_OWNER (Some t2) v)) with (LOCK v). rewrite El.
      change (MQX_TEST_AND_SET_VALUE =? 0) with false. split; [done|].
      exists t2. rewrite lookup_insert, decide_True by done. split; [|by right].
      split_and!; [|by left|exact Hg1]. cbn. rewrite Hdom, elem_of_dom.
      apply (po_td _ _ _ _ _ (xi_pc _ _ _ _ _ Hx _ _ Hb)).
    + destruct C6 as [|C6]; [by left|right]. intros Hsp. specialize (C6 Hsp). by rewrite C6 in Hq.
  - intros q Hpq. congruence.
  - by right.
Qed.

(** The running task blocks. *)
Lemma step_block L s t m a v l1 l2 k' :
  xinv bad racy idle L s -> running L t -> MUTEX L !! m = Some v ->
  on (QUEUES (KD L)) m = l1 ++ l2 -> sys idle k' ->
  QUEUES k' = <[m := l1 ++ t :: l2]> (QUEUES (KD L)) ->
  LOWEST_TASK_PRIORITY k' = LOWEST_TASK_PRIORITY (KD L) -> dom (TD k') = dom (TD (KD L)) ->
  stops k' = stops (KD L) -> racy \/ LOCK v <> 0 /\ spins v = false ->
  xinv bad racy idle (at_pc t (InQueue m a) (set_KD k' L)) s.
Proof.
  intros Hx Hr Hv Hq Hs' Hqs Hlow Hdom Hst Hor. pose proof Hr as [Hi Ha Hp Ht].
  pose proof (xi_sys _ _ _ _ _ Hx) as Hs.
  pose proof (xi_mutex _ _ _ _ _ Hx m v Hv) as [C1 C2 C3 C4 C5].
  set (L' := at_pc _ _ _).
  assert (on (QUEUES k') m = l1 ++ t :: l2) as Hq' by (by rewrite Hqs, on_insert, decide_True).
  assert (forall u, granted L' u m <-> granted L u m) as Hg.
  { intros u. destruct (decide (u = t)) as [->|Hu].
    - unfold L'. rewrite granted_at. cbn. rewrite Hq'. split; [intros [_ []]; set_solver|].
      by intros ?%granted_none.
    - unfold L'. rewrite granted_at_pc by done. unfold granted. cbn. rewrite Hq', Hq.
      destruct (PC L !! u) as [[]|]; try done. set_solver. }
  apply (xinv_step bad racy idle L _ s s t m v); [done|done|]. split; cbn; try done.
  - by rewrite insert_id.
  - intros q Hqm. by rewrite Hqs, lookup_insert_ne.
  - intros u Hu. by rewrite lookup_insert_ne.
  - intros q Hqm. split_and!; [by apply granted_none| |by apply (running_queue L)].
    unfold L'. rewrite granted_at. naive_solver.
  - intros u p Hu Hpu Hc. apply (xi_pc _ _ _ _ _ Hx) in Hpu. by eapply (po_claim _ _ _ _ _ Hpu).
  - intros u q Hu Hpu Hsp'. apply (xi_pc _ _ _ _ _ Hx) in Hpu. exact (po_spin _ _ _ _ _ Hpu m v Hsp' Hv).
  - intros u Hu. rewrite Hq' in Hu. destruct (decide (u = t)) as [->|Hut].
    + exists a. by rewrite lookup_insert, decide_True.
    + destruct (xi_wait _ _ _ _ _ Hx m u) as [b Hb]; [by eexists|rewrite Hq; set_solver|].
      exists b. by rewrite lookup_insert_ne.
  - intros Hm. destruct (xi_list _ _ _ _ _ Hx m Hm) as (w & Hw & ?). by simplify_eq.
  - intros u Hu. destruct (xi_status _ _ _ _ _ Hx m u Hu) as (w & Hw & ?). by simplify_eq.
  - split; cbn; try done.
    + by rewrite Hlow.
    + rewrite Hqs, lookup_insert, decide_True by done. by eexists.
    + intros Hva. apply (lock_ok_ext racy L _ s s m v); [exact Hg| |done|done|done|done| |auto]; [|naive_solver].
      intros u b Hb. cbn. rewrite lookup_insert_ne; [done|]. intros <-. congruence.
    + destruct Hor as [|[_ Hor]]; [by left|right]. congruence.
  - intros q. rewrite lookup_insert, decide_True by done. intros [= <-].
    assert (is_Some (TD k' !! t)) as Htd.
    { destruct (running_td L s t Hx Hr) as (d & Hd & _). rewrite <-elem_of_dom, Hdom, elem_of_dom. by eexists. }
    split; cbn; try done.
    + intros q [= <-]. by eexists.
    + intros b u w [?|[q ?]]; done.
  - by right.
Qed.
End steps.

(** ** The functions keep the invariant *)

Lemma mutex_active L t : ACTIVE_PTR (KD L) = t -> kern active L = Some (t, L).
Proof. intros <-. apply zoom_active. Qed.

Lemma kern_get_td L t d : TD (KD L) !! t = Some d -> kern (get_td t) L = Some (d, L).
Proof. intros H. erewrite kern_run; [|by apply get_td_run]. by rewrite set_KD_same. Qed.

Lemma get_mutex_run L m v : MUTEX L !! m = Some v -> get_mutex m L = Some (v, L).
Proof. intros H. unfold get_mutex. by rewrite H. Qed.

Lemma upd_mutex_run L m v f : MUTEX L !! m = Some v ->
  upd_mutex m f L = Some (tt, set_MUTEX (<[m := f v]>) L).
Proof. intros H. unfold upd_mutex. by rewrite (bind_run _ _ _ _ _ (get_mutex_run L m v H)). Qed.

Lemma set_MUTEX_same L m v : MUTEX L !! m = Some v -> set_MUTEX (<[m := v]>) L = L.
Proof. intros H. destruct L. unfold set_MUTEX. cbn in *. by rewrite insert_id. Qed.

Lemma gets_id {S} (s : S) : gets id s = Some (s, s).
Proof. done. Qed.

(** One step of a function, by what is known of the state. *)
Ltac wstep :=
  cbv beta;
  lazymatch goal with
  | |- wp _ (mret _) _ _ => apply wp_ret
  | |- wp _ (kern active ≫= _) _ _ => eapply wp_run; [by apply mutex_active|]
  | |- wp _ (kern (get_td _) ≫= _) _ _ => eapply wp_run; [by apply kern_get_td|]
  | |- wp _ (get_mutex _ ≫= _) _ _ => eapply wp_run; [by apply get_mutex_run|]
  | |- wp _ (upd_mutex _ _ ≫= _) _ _ => eapply wp_run; [by apply upd_mutex_run|]
  | |- wp _ (gets id ≫= _) _ _ => eapply wp_run; [apply gets_id|]
  | |- wp _ (mret _ ≫= _) _ _ => eapply wp_run; [done|]
  | |- wp _ (modify _ ≫= _) _ _ => eapply wp_run; [done|]
  end.

Lemma wp_suspend bad t p L (P : outcome -> mx -> Prop) :
  P Suspended (at_pc t p L) -> wp bad (suspend t p) L P.
Proof. done. Qed.

(** The kernel call runs; either the task goes on, or the rest waits. *)
Lemma wp_then_at bad p call rest L t k' (P : outcome -> mx -> Prop) :
  ACTIVE_PTR (KD L) = t -> call (KD L) = Some (tt, k') ->
  (ACTIVE_PTR k' = t -> wp bad rest (set_KD k' L) P) ->
  (ACTIVE_PTR k' <> t -> P Suspended (at_pc t p (set_KD k' L))) -> wp bad (then_at p call rest) L P.
Proof.
  intros Ha E H1 H2. unfold then_at. wstep. eapply wp_run; [by apply kern_run|].
  eapply wp_run; [by apply mutex_active|]. cbn. destruct (Z.eqb_spec (ACTIVE_PTR k') t); [auto|by apply H2].
Qed.

Section functions.
Context (bad racy : Prop) (idle : Z).

Local Abbreviation ok := (xinv bad racy idle).
Local Abbreviation runs_as := (running idle).

Lemma running_kd L t k : runs_as L t -> ACTIVE_PTR k = t -> IN_ISR k = 0 -> runs_as (set_KD k L) t.
Proof. intros [] ? ?. by split. Qed.

Lemma running_mutex L t f : runs_as L t -> runs_as (set_MUTEX f L) t.
Proof. intros []. by split. Qed.

(** What a lock in progress leads to. *)
Definition lock_post (t m : Z) (a : after) (s : gmap Z status) (o : outcome) (L : mx) : Prop :=
  exists s', lock_run s (lock_events t m a o) = Some s' /\ ok L s'.

Lemma lock_post_suspended t m a s L : ok L s -> lock_post t m a s Suspended L.
Proof. intros H. by exists s. Qed.

Lemma lock_post_error t m a s r L : ok L s -> r <> MQX_EOK -> lock_post t m a s (Returned r) L.
Proof. intros H Hr. exists s. split; [|done]. cbn. by rewrite (proj2 (Z.eqb_neq r MQX_EOK) Hr). Qed.

(** Boosting a task. *)
Lemma boost_ok L s t p : ok L s -> is_Some (TD (KD L) !! t) -> p <= LOWEST_TASK_PRIORITY (KD L) + 2 ->
  exists k', _sched_boost_priority_internal t p (KD L) = Some (tt, k') /\ ok (set_KD k' L) s /\
    IN_ISR k' = IN_ISR (KD L) /\ calm (KD L) k'.
Proof.
  intros Hx [d Hd] Hp. pose proof (xi_sys _ _ _ _ _ Hx) as Hs.
  destruct (boost_run idle t p d (KD L) Hs Hd Hp) as (k' & E & Hs' & Hsb).
  assert (calm (KD L) k') as Hc.
  { eapply calm_same_but; [exact Hsb|]. by eapply boost_stops. }
  exists k'. split_and!; [done|by apply xinv_kd|apply Hsb|done].
Qed.

(** Counting a boost. *)
Lemma count_ok L s m v b : ok L s -> MUTEX L !! m = Some v ->
  ok (set_MUTEX (<[m := with_MBOOSTED b v]>) L) s.
Proof.
  intros Hx Hv. eapply xinv_mutex; [done..|]. cbn. apply (xi_mutex _ _ _ _ _ Hx m v Hv).
Qed.

(** *** Destruction *)

Lemma step_destroy L s t m v ml k' :
  ok L s -> runs_as L t -> MUTEX L !! m = Some v -> MVALID v = MUTEX_VALID -> OWNER_TD v = Some t ->
  (forall q, q <> m -> q ∈ ml <-> q ∈ MUTEXES L) -> m ∉ ml ->
  sys idle k' -> QUEUES k' = <[m := []]> (QUEUES (KD L)) ->
  LOWEST_TASK_PRIORITY k' = LOWEST_TASK_PRIORITY (KD L) -> dom (TD k') = dom (TD (KD L)) ->
  stops k' = stops (KD L) ->
  ok (Mx k' (<[m := with_MVALID 0 v]> (MUTEX L)) ml (COMPONENT L) (PC L)) (<[m := Gone]> s).
Proof.
  intros Hx [Hi Ha Hp Ht] Hv Hva Ho Hml Hm Hs' Hqs Hlow Hdom Hst. pose proof (xi_sys _ _ _ _ _ Hx) as Hs.
  destruct (held_by bad racy idle L s t m v Hx Hp Hv Hva Ho) as (El & Hh & Hn).
  pose proof (xi_mutex _ _ _ _ _ Hx m v Hv) as [C1 C2 C3 C4 C5].
  assert (on (QUEUES k') m = []) as Hq' by (by rewrite Hqs, on_insert, decide_True).
  apply (xinv_step bad racy idle L _ s _ t m (with_MVALID 0 v)); [done|done|]. split; cbn; try done.
  - intros q Hq. by rewrite Hqs, lookup_insert_ne.
  - intros q Hq. by rewrite lookup_insert_ne by done.
  - intros q Hq. split_and!; [by apply granted_none|by apply granted_none|by apply (running_queue idle L)].
  - intros u p Hu Hpu Hc. destruct (Hn u). unfold granted. rewrite Hpu. by destruct p.
  - intros u q Hu Hpu Hsp'. apply (xi_pc _ _ _ _ _ Hx) in Hpu. exact (po_spin _ _ _ _ _ Hpu m v Hsp' Hv).
  - intros u Hu. rewrite Hq' in Hu. by apply elem_of_nil in Hu.
  - intros u. rewrite lookup_insert, decide_True by done. done.
  - split; cbn; try done.
    + by rewrite Hlow.
    + rewrite Hqs, lookup_insert, decide_True by done. by eexists.
    + by right.
  - intros q Hpq. congruence.
  - by right.
Qed.

Lemma destroy_rest_ok L s t m v :
  ok L s -> runs_as L t -> MUTEX L !! m = Some v -> MVALID v = MUTEX_VALID -> OWNER_TD v = Some t ->
  wp bad (destroy_rest m) L (fun o L' => o = Returned MQX_EOK /\ ok L' (<[m := Gone]> s)).
Proof.
  intros Hx Hr Hv Hva Ho. pose proof Hr as [Hi Ha Hp Ht]. pose proof (xi_sys _ _ _ _ _ Hx) as Hs.
  pose proof (xi_mutex _ _ _ _ _ Hx m v Hv) as [C1 C2 C3 C4 C5]. specialize (C4 Hva).
  unfold destroy_rest. wstep. set (v' := with_MVALID 0 v).
  eapply wp_run; [apply (get_mutex_run _ m v'); cbn; by rewrite lookup_insert, decide_True|].
  wstep. cbn [LINKED v' with_MVALID KD set_MUTEX MUTEXES].
  set (ml := if LINKED v then without m (MUTEXES L) else MUTEXES L).
  set (L1 := Mx (KD L) (<[m := v']> (MUTEX L)) ml (COMPONENT L) (PC L)).
  eapply (wp_run _ _ _ _ tt L1).
  { unfold L1, ml. destruct (LINKED v); [|done]. by rewrite bool_decide_true by (by apply C4). }
  destruct (evict_run m _ (KD L) (pre_inv _ _ (sys_pre _ _ Hs)) eq_refl C3)
    as (k1 & E1 & Hk1 & Hc1 & Hq1 & Hd1 & Hr1).
  eapply wp_run; [by apply kern_run|].
  assert (pre idle k1) as Hp1 by (eapply pre_ctl; [apply Hs|done|apply Hr1, Hs|done]).
  assert (ACTIVE_PTR k1 = t) as Ha1 by (destruct Hc1 as (-> & _); done).
  eapply wp_run; [by apply mutex_active|].
  assert (is_ready k1 (ACTIVE_PTR k1)) as Hra by (destruct Hc1 as (-> & _); apply Hr1, Hs).
  assert (exists k2, (if negb (MBOOSTED v' =? 0) then kern (_sched_unboost_priority_internal t (MBOOSTED v'))
             else mret tt) (set_KD k1 L1) = Some (tt, set_KD k2 L1) /\
            (pre idle k2 /\ is_ready k2 (ACTIVE_PTR k2)) /\ calm k1 k2) as (k2 & E2 & [Hp2 Hr2] & Hc2).
  { destruct (MBOOSTED v' =? 0); cbn [negb]; [by exists k1|].
    pose proof Hra as (d & Hd & _). rewrite Ha1 in Hd.
    destruct (unboost_pre idle t (MBOOSTED v') d k1 Hp1 Hra Hd) as (k2 & E2 & H2 & _ & Hsb).
    exists k2. split; [|split; [done|]].
    2: { eapply calm_same_but; [exact Hsb|]. by eapply unboost_stops. }
    rewrite (kern_run _ _ tt k2); [done|exact E2]. }
  eapply wp_run; [exact E2|].
  destruct (check_sys idle k2 Hp2 Hr2) as (k3 & E3 & Hs3 & Hw3).
  eapply wp_run; [by apply kern_run|]. apply wp_ret. split; [done|].
  pose proof (calm_trans _ _ _ Hc2 (calm_switched _ _ Hw3)) as Hc3.
  pose proof (calm_dom _ _ Hc3) as D3. destruct Hc3 as (D1 & D2 & D4).
  assert (stops k1 = stops (KD L)) as D0 by (by eapply evict_stops).
  destruct Hc1 as (_ & _ & _ & _ & _ & Hlow & _).
  apply (step_destroy L s t m v ml k3); try done.
  - intros q Hq. unfold ml. destruct (LINKED v); [|done]. rewrite elem_of_without. tauto.
  - unfold ml. destruct (LINKED v) eqn:El; [rewrite elem_of_without; tauto|].
    intros Hin. apply C4 in Hin. congruence.
  - by rewrite D1.
  - by rewrite D2, Hlow.
  - by rewrite D3.
  - by rewrite D4.
Qed.

(** *** Locking *)

Lemma claim_move L s t m a p p' v :
  ok (at_pc t p L) s -> runs_as L t -> MUTEX L !! m = Some v ->
  claims p = Some m -> p <> InOwner m Locking -> p <> InOwner m Destroying ->
  pc_lock p' = Some (m, a) -> claims p' = Some m -> p' <> InOwner m a -> ok (at_pc t p' L) s.
Proof.
  intros Hx Hr Hv Hc Hn1 Hn2 Hpl Hc' Hn'. pose proof Hr as [Hi Ha Hp Ht].
  destruct (step_locked bad racy idle L s t m v p Hx Hr Hc Hn1 Hn2 Hv) as (_ & Ho & _).
  assert (PC (at_pc t p L) !! t = Some p) as Hpt by (cbn; by rewrite lookup_insert, decide_True).
  pose proof (po_claim _ _ _ _ _ (xi_pc _ _ _ _ _ Hx t p Hpt) m v Hc Hv) as Hva.
  assert (granted (at_pc t p L) t m) as Hg by (apply granted_at; by destruct p).
  pose proof (step_claim bad racy idle L s t m a v p p' Hx Ha Ht Hg Hv Hva Hpl Hc' Hn') as H.
  assert (with_OWNER (Some t) v = v) as E by (destruct v; unfold with_OWNER, with_LOCK; cbn in *; by subst).
  rewrite E, set_MUTEX_same in H by done. exact H.
Qed.

Lemma returns_ok L s t m a p v :
  ok (at_pc t p L) s -> runs_as L t -> MUTEX L !! m = Some v ->
  claims p = Some m -> p <> InOwner m Locking -> p <> InOwner m Destroying ->
  wp bad (lock_returns m a MQX_EOK) L (lock_post t m a s).
Proof.
  intros Hx Hr Hv Hc Hn1 Hn2.
  assert (PC (at_pc t p L) !! t = Some p) as Hpt by (cbn; by rewrite lookup_insert, decide_True).
  pose proof (po_claim _ _ _ _ _ (xi_pc _ _ _ _ _ Hx t p Hpt) m v Hc Hv) as Hva.
  destruct (step_locked bad racy idle L s t m v p Hx Hr Hc Hn1 Hn2 Hv) as (Hf & Ho & Hx').
  destruct a; cbn [lock_returns].
  - apply wp_ret. exists (<[m := Held t]> s). split; [|done]. cbn. by rewrite decide_True.
  - change (MQX_EOK =? MQX_EOK) with true. cbn iota.
    eapply wp_mono; [|by eapply destroy_rest_ok]. intros o L' [-> HL'].
    exists (<[m := Gone]> s). cbn. rewrite decide_True by (by left). split; [done|].
    by rewrite insert_insert, decide_True in HL'.
Qed.

Lemma protect_ok L s t m a v :
  ok (at_pc t (InProtect m a) L) s -> runs_as L t -> MUTEX L !! m = Some v ->
  wp bad (lock_protect m a) L (lock_post t m a s).
Proof.
  intros Hx Hr Hv. pose proof (rn_active _ _ _ Hr) as Ha. unfold lock_protect. wstep.
  destruct (has v MUTEX_PRIO_PROTECT).
  - wstep. apply wp_suspend. by apply lock_post_suspended.
  - by eapply returns_ok.
Qed.

(** What the sections that boost the running task have in common: [rest] goes
    on from the point [p'] after the boost and its counting. *)
Lemma self_boost_ok L s t m a p p' v (prio : Z) (rest : M mx outcome) :
  ok (at_pc t p L) s -> runs_as L t -> MUTEX L !! m = Some v -> claims p = Some m ->
  p <> InOwner m Locking -> p <> InOwner m Destroying ->
  pc_lock p' = Some (m, a) -> claims p' = Some m -> p' <> InOwner m a ->
  prio <= LOWEST_TASK_PRIORITY (KD L) + 2 ->
  (forall L1 v1, ok (at_pc t p' L1) s -> runs_as L1 t -> MUTEX L1 !! m = Some v1 ->
     wp bad rest L1 (lock_post t m a s)) ->
  wp bad (then_at p' (_sched_boost_priority_internal t prio) (count_boost m;; rest)) L
    (lock_post t m a s).
Proof.
  intros Hx Hr Hv Hc Hn1 Hn2 Hpl Hc' Hn' Hpr Hrest. pose proof Hr as [Hi Ha Hp Ht].
  pose proof (claim_move L s t m a p p' v Hx Hr Hv Hc Hn1 Hn2 Hpl Hc' Hn') as Hx'.
  destruct (boost_ok (at_pc t p' L) s t prio Hx') as (k' & E & Hk' & Hi' & Hcalm);
    [|done|].
  { destruct (sys_run _ _ (xi_sys _ _ _ _ _ Hx)) as (d & Hd & _). cbn in Hd |- *. rewrite Ha in Hd. by eexists. }
  eapply wp_then_at; [done|exact E| |intros _; by apply lock_post_suspended].
  intros Ha'. unfold count_boost. wstep. eapply Hrest.
  - eapply (count_ok (at_pc t p' (set_KD k' L)) s m v); [exact Hk'|done].
  - apply running_mutex, running_kd; [done|done|]. by rewrite Hi'.
  - cbn. by rewrite lookup_insert, decide_True.
Qed.

(** The same without a boost. *)
Lemma self_count_ok L s t m a p p' v (rest : M mx outcome) :
  ok (at_pc t p L) s -> runs_as L t -> MUTEX L !! m = Some v -> claims p = Some m ->
  p <> InOwner m Locking -> p <> InOwner m Destroying ->
  pc_lock p' = Some (m, a) -> claims p' = Some m -> p' <> InOwner m a ->
  (forall L1 v1, ok (at_pc t p' L1) s -> runs_as L1 t -> MUTEX L1 !! m = Some v1 ->
     wp bad rest L1 (lock_post t m a s)) ->
  wp bad (count_boost m;; rest) L (lock_post t m a s).
Proof.
  intros Hx Hr Hv Hc Hn1 Hn2 Hpl Hc' Hn' Hrest.
  pose proof (claim_move L s t m a p p' v Hx Hr Hv Hc Hn1 Hn2 Hpl Hc' Hn') as Hx'.
  unfold count_boost. wstep. eapply Hrest.
  - eapply (count_ok (at_pc t p' L) s m v); [exact Hx'|done].
  - by apply running_mutex.
  - cbn. by rewrite lookup_insert, decide_True.
Qed.

Lemma running_task L s t p : ok (at_pc t p L) s -> runs_as L t ->
  exists d, TD (KD L) !! t = Some d /\ STATE d = READY /\
    PRIORITY d <= LOWEST_TASK_PRIORITY (KD L) + 2 /\ HOME_PRIORITY d <= LOWEST_TASK_PRIORITY (KD L) + 2.
Proof.
  intros Hx [_ <- _ _]. pose proof (xi_sys _ _ _ _ _ Hx) as Hs. cbn in Hs.
  destruct (sys_run _ _ Hs) as (d & Hd & Hsd). exists d.
  destruct (sh_td _ (proj1 (pre_inv _ _ (sys_pre _ _ Hs))) _ _ Hd) as (W1 & W2 & _). by split_and!.
Qed.

Lemma resume_protect_ok L s t m a v :
  ok (at_pc t (InProtect m a) L) s -> runs_as L t -> MUTEX L !! m = Some v ->
  wp bad (resume_protect m a) L (lock_post t m a s).
Proof.
  intros Hx Hr Hv. pose proof Hr as [Hi Ha Hp Ht].
  destruct (running_task L s t _ Hx Hr) as (d & Hd & Hsd & W1 & W2).
  unfold resume_protect. wstep. wstep. wstep.
  assert (forall L1 v1, ok (at_pc t (InCeiling m a) L1) s -> runs_as L1 t -> MUTEX L1 !! m = Some v1 ->
     wp bad (lock_returns m a MQX_EOK) L1 (lock_post t m a s)) as Hrest
    by (intros L1 v1 Hx1 Hr1 Hv1; by eapply returns_ok).
  destruct (Z.ltb_spec (PRIORITY_CEILING v) (HOME_PRIORITY d)); [|by eapply returns_ok].
  destruct (PRIORITY_CEILING v <? PRIORITY d).
  - eapply self_boost_ok; [done..|lia|done].
  - by eapply (self_count_ok L s t m a (InProtect m a) (InCeiling m a)).
Qed.

Lemma max_priority_run k q : kinv k ->
  exists c, _sched_get_max_priority_on_q_internal q k = Some (c, k) /\ c <= MAX_MQX_UINT /\
    (forall u, u ∈ on (QUEUES k) q -> c <= prio_of (TD k) u).
Proof.
  intros Hk. unfold _sched_get_max_priority_on_q_internal.
  rewrite (bind_run _ _ _ _ _ (eq_refl : gets id k = Some (k, k))). unfold id, lift_opt.
  assert (forall u, u ∈ on (QUEUES k) q -> is_Some (TD k !! u)) as Htd.
  { intros u Hu. apply in_own in Hu as (d & Hd & _); [by eexists|done]. }
  revert Htd. generalize (on (QUEUES k) q) as l. intros l Htd.
  enough (forall b, exists c, foldl (fun acc t => p ← acc; d ← TD k !! t;
                     Some (if PRIORITY d <? p then PRIORITY d else p)) (Some b) l = Some c /\
            c <= b /\ forall u, u ∈ l -> c <= prio_of (TD k) u) as H.
  { destruct (H MAX_MQX_UINT) as (c & -> & H1 & H2). by exists c. }
  induction l as [|t l IH]; intros b; cbn [foldl].
  - exists b. split_and!; [done|lia|by intros u ?%elem_of_nil].
  - destruct (Htd t) as [d Hd]; [set_solver|]. rewrite Hd. cbn.
    destruct (IH ltac:(intros u Hu; apply Htd; set_solver) (if PRIORITY d <? b then PRIORITY d else b))
      as (c & E & H1 & H2).
    exists c. split; [done|].
    assert (prio_of (TD k) t = PRIORITY d) as Hpr by (unfold prio_of; by rewrite Hd).
    destruct (Z.ltb_spec (PRIORITY d) b); (split; [lia|]); intros u [->|Hu]%elem_of_cons; auto; lia.
Qed.

Lemma inherit_ok L s t m a v :
  ok (at_pc t (InInherit m a) L) s -> runs_as L t -> MUTEX L !! m = Some v ->
  wp bad (lock_inherit m a) L (lock_post t m a s).
Proof.
  intros Hx Hr Hv. pose proof Hr as [Hi Ha Hp Ht].
  destruct (running_task L s t _ Hx Hr) as (d & Hd & Hsd & W1 & W2).
  pose proof (xi_sys _ _ _ _ _ Hx) as Hs. cbn in Hs.
  assert (forall L1 v1, ok (at_pc t (InInherit m a) L1) s -> runs_as L1 t -> MUTEX L1 !! m = Some v1 ->
     wp bad (lock_protect m a) L1 (lock_post t m a s)) as Hrest.
  { intros L1 v1 Hx1 Hr1 Hv1. eapply protect_ok; [|done|done].
    by eapply (claim_move L1 s t m a (InInherit m a)). }
  unfold lock_inherit. wstep. destruct (_ && _); [|by eapply Hrest].
  destruct (max_priority_run (KD L) m (pre_inv _ _ (sys_pre _ _ Hs))) as (c & E & Hc & _).
  eapply wp_run; [by apply kern_run|]. rewrite set_KD_same. wstep. wstep.
  destruct (Z.ltb_spec c (HOME_PRIORITY d)); [|by eapply Hrest].
  destruct (c <? PRIORITY d).
  - eapply self_boost_ok; [done..|lia|done].
  - by eapply (self_count_ok L s t m a (InInherit m a) (InInherit m a)).
Qed.

(** Blocking. *)
Lemma block_ok L s t m a v :
  ok L s -> runs_as L t -> MUTEX L !! m = Some v -> racy \/ LOCK v <> 0 /\ spins v = false ->
  wp bad (lock_block m a) L (lock_post t m a s).
Proof.
  intros Hx Hr Hv Hor. pose proof Hr as [Hi Ha Hp Ht]. pose proof (xi_sys _ _ _ _ _ Hx) as Hs.
  destruct (running_td bad racy idle L s t Hx Hr) as (d & Hd & Hsd).
  destruct (mo_queue _ _ _ _ _ _ (xi_mutex _ _ _ _ _ Hx m v Hv)) as [l Hl].
  destruct (mutex_enqueue_run (KD L) m t d l (has v MUTEX_PRIORITY_QUEUEING)
              (pre_inv _ _ (sys_pre _ _ Hs)) Hd Hsd Hl) as (l1 & l2 & k1 & E1 & El & _ & Hk1 & Hc1 & Ht1 & Hq1).
  assert (pre idle k1) as Hp1.
  { eapply pre_ctl; [apply Hs|done| |done]. eapply is_ready_insert; [done|done|apply Hs]. }
  destruct (exec_task idle k1 Hp1) as (k' & E' & Hs' & _ & Hw);
    [by destruct Hc1 as (_ & -> & _)|].
  unfold lock_block. wstep. wstep.
  eapply wp_run; [apply kern_run; rewrite (bind_run _ _ _ _ _ E1); exact E'|].
  apply wp_suspend, lock_post_suspended.
  pose proof (calm_switched _ _ Hw) as Hc2. pose proof (calm_dom _ _ Hc2) as D3.
  destruct Hc2 as (D1 & D2 & D4).
  destruct Hc1 as (_ & _ & _ & _ & _ & Hlow & _).
  eapply (step_block bad racy idle L s t m a v l1 l2 k'); try done.
  - unfold on. by rewrite Hl.
  - by rewrite D1.
  - by rewrite D2, Hlow.
  - rewrite D3. by eapply dom_readied.
  - rewrite D4. by eapply enqueue_stops.
Qed.

Lemma error_returns_ok L s t m a r : ok L s -> r <> MQX_EOK ->
  wp bad (lock_returns m a r) L (lock_post t m a s).
Proof.
  intros Hx Hr. destruct a; cbn [lock_returns].
  - apply wp_ret. by apply lock_post_error.
  - rewrite (proj2 (Z.eqb_neq r MQX_EOK) Hr). apply wp_ret. by apply lock_post_error.
Qed.

(** A neutral point of a lock of [m]. *)
Lemma neutral_ok L s t m a v p : ok L s -> runs_as L t -> MUTEX L !! m = Some v ->
  neutral p = true -> pc_lock p = Some (m, a) ->
  (spinning p = Some m -> spins v = true) ->
  (forall pr, pc_prio p = Some pr -> pr <= LOWEST_TASK_PRIORITY (KD L) + 2) ->
  (forall q b, p = InBoost q b -> racy) -> ok (at_pc t p L) s.
Proof.
  intros Hx Hr Hv Hn Hpl Hsp Hpr Hbo. pose proof Hr as [Hi Ha Hp Ht]. apply xinv_neutral; try done.
  eapply (pc_ok_new bad racy idle L s t p m v); try done.
  - destruct a; auto.
  - by destruct p.
Qed.

(** Boosting the owner at a neutral point, with the rest of the function. *)
Lemma owner_boost_ok L s t m a v p o (prio : Z) (rest : M mx outcome) :
  ok L s -> runs_as L t -> MUTEX L !! m = Some v -> neutral p = true -> pc_lock p = Some (m, a) ->
  (spinning p = Some m -> spins v = true) ->
  (forall pr, pc_prio p = Some pr -> pr <= LOWEST_TASK_PRIORITY (KD L) + 2) ->
  is_Some (TD (KD L) !! o) -> prio <= LOWEST_TASK_PRIORITY (KD L) + 2 ->
  (forall q b, p = InBoost q b -> racy) \/
    (forall k', _sched_boost_priority_internal o prio (KD L) = Some (tt, k') -> ACTIVE_PTR k' = t) ->
  (forall L1 v1, ok L1 s -> runs_as L1 t -> MUTEX L1 !! m = Some v1 -> PROTOCOLS v1 = PROTOCOLS v ->
     LOCK v1 = LOCK v ->
     LOWEST_TASK_PRIORITY (KD L1) = LOWEST_TASK_PRIORITY (KD L) ->
     wp bad rest L1 (lock_post t m a s)) ->
  wp bad (then_at p (_sched_boost_priority_internal o prio) (count_boost m;; rest)) L
    (lock_post t m a s).
Proof.
  intros Hx Hr Hv Hn Hpl Hsp Hpp Ho Hpr Hst Hrest. pose proof Hr as [Hi Ha Hp Ht].
  destruct (boost_ok L s o prio Hx Ho Hpr) as (k' & E & Hk' & Hi' & Hcalm).
  eapply wp_then_at; [done|exact E| |].
  - intros Ha'. unfold count_boost. wstep. eapply Hrest.
    + by eapply (count_ok (set_KD k' L) s m v).
    + apply running_mutex, running_kd; [done|done|]. by rewrite Hi'.
    + cbn. by rewrite lookup_insert, decide_True.
    + done.
    + done.
    + by destruct Hcalm as (_ & El & _).
  - intros Hne. destruct Hst as [Hbo|Hst]; [|by destruct Hne; apply Hst].
    pose proof (neutral_ok L s t m a v p Hx Hr Hv Hn Hpl Hsp Hpp Hbo) as Hx'.
    apply lock_post_suspended, (xinv_kd bad racy idle (at_pc t p L) s k'); [done|apply Hk'|done].
Qed.

Lemma owner_count_ok L s t m a v (rest : M mx outcome) :
  ok L s -> runs_as L t -> MUTEX L !! m = Some v ->
  (forall L1 v1, ok L1 s -> runs_as L1 t -> MUTEX L1 !! m = Some v1 -> PROTOCOLS v1 = PROTOCOLS v ->
     LOCK v1 = LOCK v ->
     LOWEST_TASK_PRIORITY (KD L1) = LOWEST_TASK_PRIORITY (KD L) ->
     wp bad rest L1 (lock_post t m a s)) ->
  wp bad (count_boost m;; rest) L (lock_post t m a s).
Proof.
  intros Hx Hr Hv Hrest. unfold count_boost. wstep. eapply Hrest.
  - by eapply count_ok.
  - by apply running_mutex.
  - cbn. by rewrite lookup_insert, decide_True.
  - done.
  - done.
  - done.
Qed.

(** The owner of a locked mutex that has a queue. *)
Lemma owner_known L s m v : ok L s -> MUTEX L !! m = Some v -> MVALID v = MUTEX_VALID ->
  LOCK v <> 0 -> spins v = false -> exists o d, OWNER_TD v = Some o /\ TD (KD L) !! o = Some d.
Proof.
  intros Hx Hv Hva Hl Hsp. pose proof (mo_lock _ _ _ _ _ _ (xi_mutex _ _ _ _ _ Hx m v Hv) Hva) as Hlk.
  unfold lock_ok in Hlk. rewrite (proj2 (Z.eqb_neq _ _) Hl) in Hlk.
  destruct Hlk as (_ & o & (T1 & T2 & _) & _). apply elem_of_dom in T1 as [d Hd].
  exists o, d. split; [|done]. destruct T2 as [|[_ [a Ha]]]; [done|].
  pose proof (po_spin _ _ _ _ _ (xi_pc _ _ _ _ _ Hx _ _ Ha) m v eq_refl Hv). congruence.
Qed.

Lemma queue_ok L s t m a v d :
  ok L s -> runs_as L t -> MUTEX L !! m = Some v -> MVALID v = MUTEX_VALID -> spins v = false ->
  TD (KD L) !! t = Some d -> OWNER_TD v <> Some t ->
  wp bad (lock_queue m (PRIORITY d) a) L (lock_post t m a s).
Proof.
  intros Hx Hr Hv Hva Hsp Hd Hnt. pose proof Hr as [Hi Ha Hp Ht]. unfold lock_queue. wstep.
  destruct (Z.eqb_spec (LOCK v) 0) as [E|E]; cbn [negb].
  - wstep. wstep. eapply inherit_ok.
    + by eapply (step_take bad racy idle L s t m v (Some t) (InInherit m a)); [..|by left].
    + by apply running_mutex.
    + cbn. by rewrite lookup_insert, decide_True.
  - assert (forall L1 v1, ok L1 s -> runs_as L1 t -> MUTEX L1 !! m = Some v1 ->
      PROTOCOLS v1 = PROTOCOLS v -> LOCK v1 = LOCK v ->
      LOWEST_TASK_PRIORITY (KD L1) = LOWEST_TASK_PRIORITY (KD L) ->
      wp bad (lock_block m a) L1 (lock_post t m a s)) as Hrest.
    { intros L1 v1 Hx1 Hr1 Hv1 E1 E2 _. eapply block_ok; [done..|]. right. rewrite E2.
      split; [done|]. unfold spins, has in *. by rewrite E1. }
    destruct (has v MUTEX_PRIO_INHERIT); [|by eapply Hrest].
    destruct (owner_known L s m v Hx Hv Hva E Hsp) as (o & od & Ho & Hod).
    eapply wp_run; [unfold lift_opt; by rewrite Ho|]. wstep.
    case_if; [|by eapply Hrest]. case_if; [|by eapply owner_count_ok].
    pose proof (xi_sys _ _ _ _ _ Hx) as Hs.
    eapply (owner_boost_ok L s t m a v); [done..|by eexists| | |done].
    + by apply (sh_td _ (proj1 (pre_inv _ _ (sys_pre _ _ Hs))) _ _ Hd).
    + destruct (xi_preempt _ _ _ _ _ Hx) as [|Hpre]; [by left|right]. intros k' Ek.
      destruct (boost_stays idle (KD L) t o d od Hs Hi Ha Hd (Hpre _ _ Hd)) as (k2 & Ek2 & Ha2);
        [congruence|done|congruence].
Qed.

(** Spinning. *)
Lemma spin_yield_ok L s t m a v count prio :
  ok L s -> runs_as L t -> MUTEX L !! m = Some v -> spins v = true ->
  prio <= LOWEST_TASK_PRIORITY (KD L) + 2 ->
  wp bad (spin_yield m count prio a) L (lock_post t m a s).
Proof.
  intros Hx Hr Hv Hsp Hpr. pose proof Hr as [Hi Ha Hp Ht]. unfold spin_yield. wstep.
  assert (ok (at_pc t (InSpin m count prio a) L) s) as Hx'
    by (eapply neutral_ok; [done..|by intros pr [= <-]|done]).
  pose proof (xi_sys _ _ _ _ _ Hx) as Hs.
  destruct (yield_sys idle (KD L) Hs) as (d & k' & Hd & E & Hs' & Hw).
  eapply wp_run; [by apply kern_run|]. apply wp_suspend, lock_post_suspended.
  apply (xinv_kd bad racy idle (at_pc t (InSpin m count prio a) L) s k'); [done|done|].
  pose proof (calm_switched _ _ Hw) as (D1 & D2 & _).
  split_and!; [by rewrite D1|by rewrite D2|by eapply yield_stops].
Qed.

Lemma spin_end_ok L s t m a v count :
  ok (if count =? 0 then L else at_pc t (InOwner m a) L) s -> runs_as L t -> MUTEX L !! m = Some v ->
  wp bad (spin_end m count a) L (lock_post t m a s).
Proof.
  intros Hx Hr Hv. pose proof Hr as [Hi Ha Hp Ht]. unfold spin_end. destruct (count =? 0).
  - by apply error_returns_ok.
  - wstep. by apply wp_suspend, lock_post_suspended.
Qed.

Lemma spin_take_ok L s t m a v count :
  ok L s -> runs_as L t -> MUTEX L !! m = Some v -> MVALID v = MUTEX_VALID -> spins v = true ->
  LOCK v = 0 -> OWNER_TD v = None -> count <> 0 ->
  wp bad (spin_end m count a) (set_MUTEX (<[m := with_LOCK MQX_TEST_AND_SET_VALUE (OWNER_TD v) v]>) L)
    (lock_post t m a s).
Proof.
  intros Hx Hr Hv Hva Hsp Hl Ho Hc. eapply spin_end_ok.
  - rewrite (proj2 (Z.eqb_neq _ _) Hc). rewrite Ho.
    eapply (step_take bad racy idle L s t m v None (InOwner m a)); eauto.
  - by apply running_mutex.
  - cbn. by rewrite lookup_insert, decide_True.
Qed.

Lemma unlocked_owner L s m v : ok L s -> MUTEX L !! m = Some v -> MVALID v = MUTEX_VALID ->
  LOCK v = 0 -> OWNER_TD v = None.
Proof.
  intros Hx Hv Hva Hl. pose proof (mo_lock _ _ _ _ _ _ (xi_mutex _ _ _ _ _ Hx m v Hv) Hva) as Hlk.
  unfold lock_ok in Hlk. rewrite Hl in Hlk. apply Hlk.
Qed.

Lemma spin_ok L s t m a v count prio :
  ok L s -> runs_as L t -> MUTEX L !! m = Some v -> MVALID v = MUTEX_VALID -> spins v = true ->
  prio <= LOWEST_TASK_PRIORITY (KD L) + 2 ->
  wp bad (spin m count prio a) L (lock_post t m a s).
Proof.
  intros Hx Hr Hv Hva Hsp Hpr. pose proof Hr as [Hi Ha Hp Ht].
  assert (forall c L1 v1, ok L1 s -> runs_as L1 t -> MUTEX L1 !! m = Some v1 -> PROTOCOLS v1 = PROTOCOLS v ->
     LOCK v1 = LOCK v -> LOWEST_TASK_PRIORITY (KD L1) = LOWEST_TASK_PRIORITY (KD L) ->
     wp bad (spin_yield m c prio a) L1 (lock_post t m a s)) as Hrest.
  { intros c L1 v1 Hx1 Hr1 Hv1 E1 _ E2. eapply spin_yield_ok; [done..| |by rewrite E2].
    unfold spins, has. by rewrite E1. }
  unfold spin. wstep. destruct (has v MUTEX_PRIO_INHERIT) eqn:Hin.
  - unfold spin_inherit. wstep.
    destruct (Z.eqb_spec count 0) as [Ec|Ec]; cbn [negb andb].
    + wstep. eapply spin_end_ok; [by rewrite Ec|done|done].
    + destruct (Z.eqb_spec (LOCK v) 0) as [El|El]; cbn [negb].
      * wstep. eapply spin_take_ok; try done. by eapply unlocked_owner.
      * cbn zeta. destruct (OWNER_TD v) as [o|] eqn:Ho.
        -- eapply wp_run; [done|].
           pose proof (mo_lock _ _ _ _ _ _ (xi_mutex _ _ _ _ _ Hx m v Hv) Hva) as Hlk.
           unfold lock_ok in Hlk. rewrite (proj2 (Z.eqb_neq _ _) El) in Hlk.
           destruct Hlk as (_ & o' & (T1 & T2 & _) & _).
           assert (o' = o) as -> by (destruct T2 as [|[? _]]; congruence).
           apply elem_of_dom in T1 as [d Hd]. wstep.
           case_if; [|by eapply Hrest].
           case_if; [|eapply owner_count_ok; [done..|]; by apply Hrest].
           eapply (owner_boost_ok L s t m a v); [done..|by intros pr [= <-]|by eexists|done|by left|by apply Hrest].
        -- unfold wp, mbind, M_bind, lift_opt.
           by apply (mo_bad _ _ _ _ _ _ (xi_mutex _ _ _ _ _ Hx m v Hv)).
  - unfold spin_plain. wstep. destruct (Z.eqb_spec count 0) as [Ec|Ec].
    + eapply spin_end_ok; [by rewrite Ec|done|done].
    + unfold _mem_test_and_set. apply wp_bind. wstep. destruct (Z.eqb_spec (LOCK v) 0) as [El|El].
      * wstep. wstep. rewrite El. cbn [Z.eqb negb]. eapply spin_take_ok; try done. by eapply unlocked_owner.
      * wstep. wstep. rewrite (proj2 (Z.eqb_neq _ _) El). cbn [negb]. by eapply Hrest.
Qed.

Lemma resume_spin_ok L s t m a v count prio :
  ok L s -> runs_as L t -> MUTEX L !! m = Some v -> spins v = true ->
  prio <= LOWEST_TASK_PRIORITY (KD L) + 2 ->
  wp bad (resume_spin m count prio a) L (lock_post t m a s).
Proof.
  intros Hx Hr Hv Hsp Hpr. unfold resume_spin. wstep.
  destruct (Z.eqb_spec (MVALID v) MUTEX_VALID) as [E|E]; cbn [negb].
  - eapply spin_ok; eauto.
  - by apply error_returns_ok.
Qed.

(** *** Unlocking *)

(** What an unlock leads to, once the mutex has been given away. *)
Definition unlocked_post (u : after_unlock) (s : gmap Z status) (o : outcome) (L : mx) : Prop :=
  (o = match u with Unlocking => Returned MQX_EOK | Cleaning _ => Suspended end \/ o = Suspended) /\
  ok L s.

Lemma unlock_end_ok L s t b u : ok L s -> runs_as L t -> (forall v, u = Cleaning v -> v = t) ->
  wp bad (unlock_end b u) L (unlocked_post u s).
Proof.
  intros Hx Hr Hu. pose proof Hr as [Hi Ha Hp Ht]. pose proof (xi_sys _ _ _ _ _ Hx) as Hs.
  destruct (running_td bad racy idle L s t Hx Hr) as (d & Hd & _).
  unfold unlock_end. wstep.
  assert (exists k', (if negb (b =? 0) then kern (_sched_unboost_priority_internal t b) else mret tt) L =
            Some (tt, set_KD k' L) /\ sys idle k' /\ calm (KD L) k') as (k' & E & Hs' & Hc).
  { destruct (b =? 0); cbn [negb].
    - exists (KD L). by rewrite set_KD_same.
    - destruct (unboost_run idle t b d (KD L) Hs Hd) as (k' & E & Hs' & Hsb).
      exists k'. split; [by apply kern_run|]. split; [done|].
      eapply calm_same_but; [exact Hsb|]. by eapply unboost_stops. }
  eapply wp_run; [exact E|].
  assert (ok (set_KD k' L) s) as Hx' by (by apply xinv_kd).
  destruct u as [|v].
  - apply wp_ret. split; [by left|done].
  - apply wp_suspend. split; [by right|]. apply xinv_neutral; try done.
    split; try done.
    + eapply calm_td; [done|by eexists].
    + intros w [= <-]. by apply Hu.
    + intros b0 u0 w [?|[m ?]]; done.
Qed.

(** The state in which the mutex has been handed over, but the new owner has
    not had its chance to run. *)
Definition handed (L : mx) (s : gmap Z status) (t : Z) : Prop :=
  runs_as L t /\ pre idle (KD L) /\ is_ready (KD L) t /\
  forall k', sys idle k' -> calm (KD L) k' -> ok (set_KD k' L) s.

Lemma unlock_handed_ok L s t b u : handed L s t -> (forall v, u = Cleaning v -> v = t) ->
  wp bad (unlock_handed b u) L (unlocked_post u s).
Proof.
  intros (Hr & Hp & Hrd & Hh) Hu. pose proof Hr as [Hi Ha Hpc Ht].
  destruct (check_sys idle (KD L) Hp ltac:(by rewrite Ha)) as (k' & E & Hs' & Hw).
  pose proof (calm_switched _ _ Hw) as Hc.
  pose proof (Hh k' Hs' Hc) as Hx.
  eapply wp_then_at; [done|exact E| |].
  - intros Ha'. apply (unlock_end_ok _ s t); [done| |done]. apply running_kd; [done..|].
    apply switched_lists in Hw. by destruct Hw as (_ & _ & _ & _ & ->).
  - intros _. split; [by right|]. apply xinv_neutral; try done. split; try done.
    + destruct Hrd as (d & Hd & _). eapply calm_td; [done|by eexists].
    + intros b0 u0 w [[= <- <-]|[m ?]]; [by apply Hu|done].
Qed.

Lemma handed_sys L s t : ok L s -> runs_as L t -> handed L s t.
Proof.
  intros Hx Hr. pose proof Hr as [Hi Ha Hpc Ht]. pose proof (xi_sys _ _ _ _ _ Hx) as Hs.
  split_and!; [done|apply Hs|rewrite <-Ha; apply Hs|]. intros k' Hs' Hc. by apply xinv_kd.
Qed.

Lemma handed_count L s t m v : handed L s t -> MUTEX L !! m = Some v ->
  handed (set_MUTEX (<[m := with_MBOOSTED (w32 (MBOOSTED v + 1)) v]>) L) s t.
Proof.
  intros (Hr & Hp & Hrd & Hh) Hv. split_and!; [by apply running_mutex|done|done|].
  intros k' Hs' Hc. by eapply (count_ok (set_KD k' L) s m v); [apply Hh|].
Qed.

(** The possible boost of the new owner, and what follows. *)
Lemma handover_rest_ok L s t t2 m v d2 b u :
  handed L s t -> MUTEX L !! m = Some v -> TD (KD L) !! t2 = Some d2 -> (forall w, u = Cleaning w -> w = t) ->
  PRIORITY_CEILING v <= LOWEST_TASK_PRIORITY (KD L) ->
  forall protect : bool,
  wp bad (if protect && (PRIORITY_CEILING v <? HOME_PRIORITY d2) then
            if PRIORITY_CEILING v <? PRIORITY d2 then
              then_at (InHandover m b u) (_sched_boost_priority_internal t2 (PRIORITY_CEILING v))
                (count_boost m;; unlock_handed b u)
            else count_boost m;; unlock_handed b u
          else unlock_handed b u) L (unlocked_post u s).
Proof.
  intros Hh Hv Hd2 Hu Hce protect. pose proof Hh as (Hr & Hp & Hrd & Hk). pose proof Hr as [Hi Ha Hpc Ht].
  destruct (protect && _); [|by eapply unlock_handed_ok].
  destruct (_ <? _).
  - destruct (boost_pre idle t2 (PRIORITY_CEILING v) d2 (KD L) Hp ltac:(by rewrite Ha) Hd2 ltac:(lia))
      as (k' & E & Hs' & Hsb).
    assert (calm (KD L) k') as Hc by (eapply calm_same_but; [exact Hsb|by eapply boost_stops]).
    pose proof (Hk k' Hs' Hc) as Hx.
    eapply wp_then_at; [done|exact E| |].
    + intros Ha'. assert (runs_as (set_KD k' L) t) as Hr' by (apply running_kd; [done|done|]; destruct Hsb as (_ & _ & _ & _ & _ & -> & _); done).
      unfold count_boost. eapply wp_run; [by apply upd_mutex_run|].
      eapply unlock_handed_ok; [|done]. apply handed_count; [|done]. by apply handed_sys.
    + intros _. split; [by right|]. apply xinv_neutral; try done. split; try done.
      * destruct Hrd as (d & Hd & _). eapply calm_td; [done|by eexists].
      * intros q [= <-]. by eexists.
      * intros b0 u0 w [?|[q [= <- <- <-]]]; [done|by apply Hu].
  - unfold count_boost. eapply wp_run; [by apply upd_mutex_run|].
    eapply unlock_handed_ok; [|done]. by apply handed_count.
Qed.

Lemma has_either v :
  negb (Z.land (PROTOCOLS v) (Z.lor MUTEX_SPIN_ONLY MUTEX_LIMITED_SPIN) =? 0) = true -> spins v = true.
Proof.
  unfold spins, has. rewrite Z.land_lor_distr_r, negb_true_iff, orb_true_iff, !negb_true_iff, !Z.eqb_neq.
  rewrite Z.lor_eq_0_iff. destruct (decide (Z.land (PROTOCOLS v) MUTEX_SPIN_ONLY = 0)); tauto.
Qed.

Lemma unlock_ok L s t m v u : ok L s -> runs_as L t -> MUTEX L !! m = Some v ->
  (forall w, u = Cleaning w -> w = t) ->
  wp bad (mutex_unlock m u) L (fun o L' =>
    if bool_decide (MVALID v = MUTEX_VALID /\ OWNER_TD v = Some t)
    then unlocked_post u (<[m := Free]> s) o L' else o = Returned MQX_EINVAL /\ ok L' s).
Proof.
  intros Hx Hr Hv Hu. pose proof Hr as [Hi Ha Hpc Ht]. pose proof (xi_sys _ _ _ _ _ Hx) as Hs.
  unfold mutex_unlock. wstep. wstep.
  destruct (Z.eqb_spec (MVALID v) MUTEX_VALID) as [Hva|Hva]; cbn [negb orb];
    [|apply wp_ret; rewrite bool_decide_false by tauto; done].
  destruct (decide (OWNER_TD v = Some t)) as [Ho|Ho];
    [|rewrite (bool_decide_false (OWNER_TD v = Some t)), orb_true_r by done; apply wp_ret;
      rewrite bool_decide_false by tauto; done].
  rewrite !bool_decide_true by done.
  destruct (held_by bad racy idle L s t m v Hx Hpc Hv Hva Ho) as (El & Hh & Hn).
  rewrite El, Z.eqb_refl. cbn [negb orb]. cbn zeta. wstep.
  set (v1 := with_MBOOSTED 0 v). set (L1 := set_MUTEX (<[m := v1]>) L).
  assert (ok L1 s) as Hx1 by (by eapply count_ok).
  assert (MUTEX L1 !! m = Some v1) as Hv1 by (cbn; by rewrite lookup_insert, decide_True).
  assert (runs_as L1 t) as Hr1 by (by apply running_mutex).
  pose proof (step_free bad racy idle L1 s t m v1 Hx1 Hr1 Hv1 Hva Ho) as Hfree.
  destruct (negb _) eqn:Esp.
  { wstep. apply (unlock_end_ok _ _ t); [apply Hfree|by apply running_mutex|done].
    destruct (mo_spin _ _ _ _ _ _ (xi_mutex _ _ _ _ _ Hx m v Hv)) as [|He]; [by left|right].
    by apply He, has_either. }
  wstep. change (KD L1) with (KD L). destruct (on (QUEUES (KD L)) m) as [|t2 l] eqn:Eq.
  { wstep. apply (unlock_end_ok _ _ t); [apply Hfree; by right|by apply running_mutex|done]. }
  pose proof (pre_inv _ _ (sys_pre _ _ Hs)) as Hk.
  assert (t2 ∈ on (QUEUES (KD L)) m) as Hin by (rewrite Eq; set_solver).
  apply in_own in Hin as (d & Hd & H9 & HI); [|done].
  destruct (pop_ready_run (KD L) m t2 l d d Hk Eq Hd (sh_td _ (proj1 Hk) _ _ Hd))
    as (k1 & E1 & Hk1 & Hc1 & Ht1 & Hq1).
  assert (set_TD (<[t2 := d]>) (popped m (KD L)) = popped m (KD L)) as Eid.
  { unfold set_TD, popped, set_QUEUES. cbn. by rewrite insert_id. }
  rewrite Eid in E1.
  eapply (wp_run _ _ _ _ tt (set_KD (popped m (KD L)) L1)); [done|].
  eapply wp_run; [by apply (upd_mutex_run (set_KD (popped m (KD L)) L1) m v1)|].
  eapply wp_run; [apply (kern_run _ _ tt k1); exact E1|].
  eapply wp_run; [apply (kern_get_td _ t2 (readied d)); cbn; by rewrite Ht1, lookup_insert, decide_True|].
  set (L2 := set_KD k1 _).
  assert (is_ready k1 t) as Hrt by (eapply is_ready_readied; [done|rewrite <-Ha; apply Hs]).
  assert (handed L2 (<[m := Free]> s) t) as Hhd.
  { split_and!.
    - destruct Hc1 as (C1 & C2 & _). split; cbn; [by rewrite C2|by rewrite C1|done|done].
    - eapply pre_ctl; [apply Hs|done| |done]. eapply is_ready_readied; [done|apply Hs].
    - done.
    - intros k' Hs' Hc'. pose proof (calm_dom _ _ Hc') as D3. destruct Hc' as (D1 & D2 & D4).
      destruct Hc1 as (_ & _ & _ & _ & _ & Hlow & _). cbn in D1, D2, D3, D4.
      eapply (step_handover bad racy idle L1 s t m v1 t2 l k'); try done.
      + by rewrite D1.
      + by rewrite D2.
      + rewrite D3. by eapply dom_readied.
      + rewrite D4. etrans; [by eapply ready_stops|done]. }
  pose proof (xi_mutex _ _ _ _ _ Hx m v Hv) as [C1 _ _ _ _ _].
  eapply (handover_rest_ok L2 (<[m:=Free]> s) t t2 m (with_OWNER (Some t2) v1) (readied d) (MBOOSTED v) u Hhd).
  - cbn. by rewrite lookup_insert, decide_True.
  - cbn. by rewrite Ht1, lookup_insert, decide_True.
  - done.
  - cbn. destruct Hc1 as (_ & _ & _ & _ & _ & -> & _). done.
Qed.

(** *** Initialisation *)

Lemma sys_empty_queue k m : sys idle k -> on (QUEUES k) m = [] ->
  sys idle (set_QUEUES (<[m := []]>) k).
Proof.
  intros Hs Hq. pose proof Hs as [Hp Hr Hc]. pose proof (pre_inv _ _ Hp) as Hk.
  set (k' := set_QUEUES _ k).
  assert (kinv k') as Hk'.
  { destruct Hr as (d & Hd & Hsd). pose proof (kinv_limbo (ACTIVE_PTR k) k Hk) as Hl.
    rewrite Hd, place_ready in Hl by done.
    pose proof (limbo_own _ _ _ m [] Hl (NoDup_nil_2)) as Hl'. rewrite Hq in Hl'.
    cbn [own rdy tmo aux] in Hl'. rewrite decide_False in Hl' by (by intros ?%elem_of_nil).
    apply (limbo_kinv (ACTIVE_PTR k)). cbn. rewrite Hd, place_ready by done.
    apply Hl'; [done|by left]. }
  split; [|done|done]. eapply pre_ctl; [done|done|apply Hp|by repeat split].
Qed.

Definition act_post (s : gmap Z status) (evs : list event) (L : mx) : Prop :=
  exists s', lock_run s evs = Some s' /\ ok L s'.

Lemma act_none s L : ok L s -> act_post s [] L.
Proof. intros H. by exists s. Qed.

Lemma init_ok L s m a : ok L s -> can bad racy idle L (AInit m a) ->
  wp bad (r ← mutex_init (Some m) a true; mret (if r =? MQX_EOK then [Initialised m] else [])) L
    (act_post s).
Proof.
  intros Hx ((Hi & Hpc & Ht) & Hq & Hno & Hl & Hce & Hb). pose proof (xi_sys _ _ _ _ _ Hx) as Hs.
  pose proof (xi_comp _ _ _ _ _ Hx) as Hcomp.
  unfold mutex_init. apply wp_bind. destruct (negb _); [by apply wp_ret, wp_ret, act_none|].
  unfold _mutex_create_component. apply wp_bind. wstep. rewrite Hcomp. apply wp_ret. wstep. rewrite Hcomp, Z.eqb_refl. cbn [negb].
  destruct (bool_decide (m ∈ MUTEXES L)) eqn:Em; [by apply wp_ret, wp_ret, act_none|].
  apply bool_decide_eq_false in Em. wstep.
  eapply wp_run; [by apply (kern_run (modify _))|]. wstep. apply wp_ret.
  change (MQX_EOK =? MQX_EOK) with true. cbn iota. apply wp_ret.
  set (v := init_mutex a). set (L' := set_MUTEXES _ _).
  assert (forall u, ~ granted L u m) as Hng.
  { intros u. unfold granted. destruct (PC L !! u) as [p|] eqn:E; [|by intros []].
    pose proof (Hno u p E) as Hn. destruct p; cbn in Hn |- *; naive_solver. }
  assert (forall t, s !! m <> Some (Held t)) as Hnh.
  { intros t Hh. destruct (xi_status _ _ _ _ _ Hx m t Hh) as (w & Hw & Hva).
    pose proof (mo_lock _ _ _ _ _ _ (xi_mutex _ _ _ _ _ Hx m w Hw) Hva) as Hlk. unfold lock_ok in Hlk.
    rewrite (Hl w Hw Hva) in Hlk. destruct Hlk as (_ & Hf & _). congruence. }
  exists (<[m := Free]> s). split.
  { cbn. destruct (s !! m) as [[]|] eqn:E; [done|by destruct (Hnh t)|done|done]. }
  set (t := ACTIVE_PTR (KD L)) in *.
  apply (xinv_step bad racy idle L L' s _ t m v); [done|by apply sys_empty_queue|]. split; try done.
  - intros q Hqm. cbn. rewrite elem_of_app, list_elem_of_singleton. naive_solver.
  - intros q Hqm. cbn. by rewrite lookup_insert_ne.
  - intros q Hqm. by rewrite lookup_insert_ne.
  - intros q Hqm. split_and!; [by apply granted_none|by apply granted_none|by apply (running_queue idle L)].
  - intros u p Hu Hp Hsp. destruct (Hno u p Hp). by destruct p; simplify_eq/=.
  - intros u Hu. cbn in Hu. rewrite on_insert, decide_True in Hu by done. by apply elem_of_nil in Hu.
  - split; cbn; try done.
    + rewrite lookup_insert, decide_True by done. by eexists.
    + intros _. split; [|done]. intros _. set_solver.
    + intros _. unfold lock_ok. cbn.
      split_and!; [done|by rewrite lookup_insert, decide_True| |right; by rewrite on_insert, decide_True].
      intros u Hu. apply (Hng u). revert Hu. unfold granted. cbn.
      rewrite on_insert, decide_True, Hq by done. done.
    + right. intros _. by rewrite on_insert, decide_True.
  - intros p Hp. cbn in Hp. congruence.
  - by right.
Qed.

(** *** Cleaning up *)

Lemma cleanup_ok L s t : ok L s -> runs_as L t ->
  wp bad (r ← cleanup_step t; mret (cleanup_events t r)) L (act_post s).
Proof.
  intros Hx Hr. pose proof Hr as [Hi Ha Hpc Ht]. unfold cleanup_step. apply wp_bind. wstep.
  destruct (filter _ (MUTEXES L)) as [|m l] eqn:Ef; [by apply wp_ret, wp_ret, act_none|].
  assert (m ∈ m :: l) as Hin by set_solver. rewrite <-Ef in Hin.
  apply list_elem_of_filter in Hin as [Hm Hin].
  destruct (xi_list _ _ _ _ _ Hx m Hin) as (v & Hv & Hva). rewrite Hv in Hm.
  apply andb_true_iff in Hm as [_ Ho]. apply bool_decide_eq_true in Ho.
  wstep. wstep. assert (with_OWNER (Some t) v = v) as E by (destruct v; unfold with_OWNER, with_LOCK; cbn in *; by subst).
  rewrite E, set_MUTEX_same by done.
  apply wp_bind. eapply wp_mono; [|eapply (unlock_ok L s t m v (Cleaning t)); try done; by intros w [= <-]].
  intros o L' Hpost. rewrite bool_decide_true in Hpost by done. destruct Hpost as [Hor HL'].
  assert (o = Suspended) as -> by (by destruct Hor).
  apply wp_ret, wp_ret. exists (<[m := Free]> s). split; [|done]. cbn.
  destruct (held_by bad racy idle L s t m v Hx Hpc Hv Hva Ho) as (_ & Hh & _). by rewrite decide_True.
Qed.

(** *** Going on *)

Lemma drop_dead L s t m a v : ok (at_pc t (InQueue m a) L) s -> runs_as L t ->
  MUTEX L !! m = Some v -> MVALID v <> MUTEX_VALID -> ok L s.
Proof.
  intros Hx Hr Hv Hva. pose proof Hr as [Hi Ha Hpc Ht]. pose proof (xi_sys _ _ _ _ _ Hx) as Hs.
  apply (xinv_step bad racy idle (at_pc t (InQueue m a) L) L s s t m v); [done|done|]. split; try done.
  - cbn. by rewrite insert_id.
  - intros u Hu. cbn. by rewrite lookup_insert_ne.
  - intros q Hq. split_and!; [|by apply granted_none|by apply (running_queue idle L)].
    rewrite granted_at. naive_solver.
  - intros u p Hu Hp Hc. apply (xi_pc _ _ _ _ _ Hx) in Hp. by eapply (po_claim _ _ _ _ _ Hp).
  - intros u p Hu Hp Hc. apply (xi_pc _ _ _ _ _ Hx) in Hp. by eapply (po_spin _ _ _ _ _ Hp).
  - intros u Hu. destruct (xi_wait _ _ _ _ _ Hx m u) as [b Hb]; [by eexists|done|].
    exists b. cbn in Hb. rewrite lookup_insert_ne in Hb; [done|].
    intros <-. by apply (running_queue idle L t m) in Hu.
  - intros Hm. destruct (xi_list _ _ _ _ _ Hx m Hm) as (w & Hw & ?). cbn in Hw. congruence.
  - intros u Hm. destruct (xi_status _ _ _ _ _ Hx m u Hm) as (w & Hw & ?). cbn in Hw. congruence.
  - destruct (xi_mutex _ _ _ _ _ Hx m v Hv) as [C1 C2 C3 C4 C5 C6]. by split.
  - intros p Hp. congruence.
  - by right.
Qed.

Lemma resume_queue_ok L s t m a v : ok (at_pc t (InQueue m a) L) s -> runs_as L t ->
  MUTEX L !! m = Some v -> wp bad (resume_queue m a) L (lock_post t m a s).
Proof.
  intros Hx Hr Hv. pose proof Hr as [Hi Ha Hpc Ht]. pose proof (xi_sys _ _ _ _ _ Hx) as Hs.
  unfold resume_queue. wstep. destruct (Z.eqb_spec (MVALID v) MUTEX_VALID) as [Hva|Hva]; cbn [negb].
  - assert (granted (at_pc t (InQueue m a) L) t m) as Hg.
    { apply granted_at. split; [done|]. by apply (running_queue idle L). }
    pose proof (mo_lock _ _ _ _ _ _ (xi_mutex _ _ _ _ _ Hx m v Hv) Hva) as Hlk. unfold lock_ok in Hlk.
    destruct (LOCK v =? 0); [destruct Hlk as (_ & _ & Hn & _); by destruct (Hn t)|].
    destruct Hlk as (_ & t' & (T1 & T2 & T3) & _). assert (t = t') as <- by (by apply T3).
    assert (OWNER_TD v = Some t) as Ho.
    { destruct T2 as [|[_ [b Hb]]]; [done|]. cbn in Hb. rewrite lookup_insert, decide_True in Hb by done. done. }
    eapply inherit_ok; [|done|done].
    assert (InInherit m a <> InOwner m a) as Hn by done.
    pose proof (step_claim bad racy idle L s t m a v _ (InInherit m a) Hx Ha Ht Hg Hv Hva eq_refl eq_refl Hn) as H.
    assert (with_OWNER (Some t) v = v) as E by (destruct v; unfold with_OWNER, with_LOCK; cbn in *; by subst).
    by rewrite E, set_MUTEX_same in H by done.
  - apply error_returns_ok; [by eapply drop_dead|done].
Qed.

Lemma resume_owner_ok L s t m a v : ok (at_pc t (InOwner m a) L) s -> runs_as L t ->
  MUTEX L !! m = Some v -> wp bad (resume_owner m a) L (lock_post t m a s).
Proof.
  intros Hx Hr Hv. pose proof Hr as [Hi Ha Hpc Ht]. unfold resume_owner. wstep. wstep.
  assert (PC (at_pc t (InOwner m a) L) !! t = Some (InOwner m a)) as Hpt by (cbn; by rewrite lookup_insert, decide_True).
  pose proof (po_claim _ _ _ _ _ (xi_pc _ _ _ _ _ Hx t _ Hpt) m v eq_refl Hv) as Hva.
  assert (granted (at_pc t (InOwner m a) L) t m) as Hg by (by apply granted_at).
  eapply (protect_ok _ s t m a (with_OWNER (Some t) v)).
  - apply (step_claim bad racy idle L s t m a v _ (InProtect m a) Hx Ha Ht Hg Hv Hva eq_refl eq_refl). done.
  - by apply running_mutex.
  - cbn. by rewrite lookup_insert, decide_True.
Qed.

Lemma resume_at_ok L s t p m a v : ok (at_pc t p L) s -> runs_as L t -> pc_lock p = Some (m, a) ->
  MUTEX L !! m = Some v -> wp bad (resume_at p) L (lock_post t m a s).
Proof.
  intros Hx Hr Hpl Hv. pose proof Hr as [Hi Ha Hpc Ht].
  assert (PC (at_pc t p L) !! t = Some p) as Hpt by (cbn; by rewrite lookup_insert, decide_True).
  destruct (xi_pc _ _ _ _ _ Hx t p Hpt) as [P1 P2 P3 P4 P5 P6 P7 P8 P9].
  pose proof (xinv_drop bad racy idle L s t p Hx Hpc) as Hdrop.
  destruct p; cbn [pc_lock] in Hpl; try discriminate; injection Hpl as -> ->; cbn [resume_at].
  - eapply resume_spin_ok; [by apply Hdrop|done|done|by apply (P5 m)|by apply P6].
  - eapply owner_count_ok; [by apply Hdrop|done|done|].
    intros L1 v1 Hx1 Hr1 Hv1 E1 _ E2. eapply spin_yield_ok; [done..| |rewrite E2; by apply P6].
    unfold spins, has. rewrite E1. by apply (P5 m).
  - by eapply resume_owner_ok.
  - eapply owner_count_ok; [by apply Hdrop|done|done|]. intros. eapply block_ok; [done..|left; by eapply P9].
  - by eapply resume_queue_ok.
  - eapply (self_count_ok L s t m a (InInherit m a) (InProtect m a)); try done.
    intros. by eapply protect_ok.
  - by eapply resume_protect_ok.
  - eapply (self_count_ok L s t m a (InCeiling m a) (InCeiling m a)); try done.
    intros. by eapply returns_ok.
Qed.

Lemma lock_act s t m a (f : M mx outcome) L : wp bad f L (lock_post t m a s) ->
  wp bad (o ← f; mret (lock_events t m a o)) L (act_post s).
Proof. intros H. apply wp_bind. eapply wp_mono; [|exact H]. intros o L' HL'. by apply wp_ret. Qed.

Lemma unlocked_act s u (f : M mx outcome) L : wp bad f L (unlocked_post u s) ->
  wp bad (f;; mret []) L (act_post s).
Proof.
  intros H. apply wp_bind. eapply wp_mono; [|exact H]. intros o L' [_ HL'].
  by apply wp_ret, act_none.
Qed.

Lemma resume_ok L s : ok L s -> can bad racy idle L AResume -> wp bad resume L (act_post s).
Proof.
  intros Hx (Hi & p & Hp). set (t := ACTIVE_PTR (KD L)) in *.
  unfold resume. eapply wp_run; [by apply (mutex_active L t)|]. wstep.
  eapply wp_run; [unfold lift_opt; by rewrite Hp|]. wstep.
  set (L1 := set_PC (delete t) L).
  assert (at_pc t p L1 = L) as E.
  { unfold at_pc, L1, set_PC. destruct L; cbn in *. by rewrite insert_delete_id. }
  destruct (xi_pc _ _ _ _ _ Hx t p Hp) as [P1 P2 P3 P4 P5 P6 P7 P8 P9].
  assert (runs_as L1 t) as Hr.
  { split; [done|done| |done]. cbn. by rewrite lookup_delete, decide_True. }
  assert (ok (at_pc t p L1) s) as Hx1 by (by rewrite E).
  pose proof (xinv_drop bad racy idle L1 s t p Hx1 (rn_pc _ _ _ Hr)) as Hdrop.
  assert (forall m a, pc_lock p = Some (m, a) ->
    wp bad (o ← resume_at p; mret (lock_events t m a o)) L1 (act_post s)) as Hlock.
  { intros m a Hpl. destruct (P3 m) as [v Hv]; [destruct p; simplify_eq/=; done|].
    apply lock_act. by eapply resume_at_ok. }
  destruct p; cbn [pc_lock]; try (by apply Hlock).
  - destruct (P3 m eq_refl) as [v Hv]. eapply (unlocked_act _ u).
    cbn [resume_at]. unfold count_boost. eapply wp_run; [by apply (upd_mutex_run L1 m v)|].
    eapply (unlock_handed_ok _ s t); [apply handed_sys; [by eapply count_ok; [apply Hdrop|]|by apply running_mutex]|].
    intros w Hw. eapply P8; [right; by exists m|done].
  - eapply (unlocked_act _ u). cbn [resume_at]. eapply (unlock_end_ok L1 s t); [by apply Hdrop|done|].
    intros w Hw. eapply P8; [by left|done].
  - rewrite (P7 v eq_refl). apply cleanup_ok; [by apply Hdrop|done].
Qed.

(** *** The calls *)

Lemma mutex_lock_ok L s t m a v : ok L s -> runs_as L t -> MUTEX L !! m = Some v ->
  wp bad (mutex_lock (Some m) a) L (lock_post t m a s).
Proof.
  intros Hx Hr Hv. pose proof Hr as [Hi Ha Hpc Ht].
  destruct (running_td bad racy idle L s t Hx Hr) as (d & Hd & _).
  pose proof (sh_td _ (proj1 (pre_inv _ _ (sys_pre _ _ (xi_sys _ _ _ _ _ Hx)))) _ _ Hd) as (W & _).
  unfold mutex_lock. wstep. rewrite Hi. cbn [Z.eqb negb]. wstep.
  destruct (Z.eqb_spec (MVALID v) MUTEX_VALID) as [E|E]; cbn [negb]; [|by apply wp_ret, lock_post_error].
  wstep. case_decide as Ho; [by apply wp_ret, lock_post_error|]. wstep.
  destruct (has v MUTEX_SPIN_ONLY || has v MUTEX_LIMITED_SPIN) eqn:Hsp.
  - by eapply spin_ok.
  - by eapply queue_ok.
Qed.

Lemma try_lock_ok L s t m v : ok L s -> runs_as L t -> MUTEX L !! m = Some v ->
  wp bad (_mutex_try_lock (Some m)) L (lock_post t m Locking s).
Proof.
  intros Hx Hr Hv. pose proof Hr as [Hi Ha Hpc Ht]. unfold _mutex_try_lock. wstep.
  destruct (Z.eqb_spec (MVALID v) MUTEX_VALID) as [E|E]; cbn [negb]; [|by apply wp_ret, lock_post_error].
  unfold _mem_test_and_set. apply wp_bind. wstep. destruct (Z.eqb_spec (LOCK v) 0) as [El|El].
  - wstep. wstep. wstep. rewrite El. cbn [Z.eqb negb].
    set (v1 := with_LOCK _ _ v). set (L1 := set_MUTEX (<[m := v1]>) L).
    assert (MUTEX L1 !! m = Some v1) as Hv1 by (cbn; by rewrite lookup_insert, decide_True).
    eapply wp_run; [by apply (upd_mutex_run L1 m v1)|].
    assert (set_MUTEX (<[m := with_OWNER (Some t) v1]>) L1 =
            set_MUTEX (<[m := with_LOCK MQX_TEST_AND_SET_VALUE (Some t) v]>) L) as ->.
    { unfold set_MUTEX, L1. cbn. by rewrite insert_insert, decide_True. }
    eapply protect_ok.
    + by eapply (step_take bad racy idle L s t m v (Some t) (InProtect m Locking)); [..|by left].
    + by apply running_mutex.
    + cbn. by rewrite lookup_insert, decide_True.
  - wstep. wstep. wstep. rewrite (proj2 (Z.eqb_neq _ _) El). cbn [negb].
    apply wp_ret, lock_post_error; [done|]. by case_decide.
Qed.

Lemma destroy_ok L s m : ok L s -> can bad racy idle L (ADestroy m) ->
  wp bad (_mutex_destroy m) L (lock_post (ACTIVE_PTR (KD L)) m Destroying s).
Proof.
  intros Hx ((Hi & Hpc & Ht) & v & Hv & Hor). set (t := ACTIVE_PTR (KD L)) in *.
  assert (runs_as L t) as Hr by done.
  unfold _mutex_destroy. wstep. rewrite (xi_comp _ _ _ _ _ Hx), Z.eqb_refl. cbn [negb]. wstep. wstep.
  case_decide as Ho; [|by eapply mutex_lock_ok].
  assert (MVALID v = MUTEX_VALID) as Hva by (by destruct Hor).
  eapply wp_mono; [|by eapply destroy_rest_ok]. intros o L' [-> HL'].
  exists (<[m := Gone]> s). split; [|done]. cbn.
  destruct (held_by bad racy idle L s t m v Hx Hpc Hv Hva Ho) as (_ & Hh & _).
  rewrite decide_True; [done|by right].
Qed.

Lemma ceiling_ok L s m c : ok L s -> is_Some (MUTEX L !! m) ->
  wp bad (_mutex_set_priority_ceiling (Some m) c false) L (fun _ L' => ok L' s).
Proof.
  intros Hx [v Hv]. unfold _mutex_set_priority_ceiling. wstep.
  destruct (Z.ltb_spec (LOWEST_TASK_PRIORITY (KD L)) c); [by apply wp_ret|].
  wstep. destruct (negb _); [by apply wp_ret|]. wstep. apply wp_ret.
  eapply xinv_mutex; [done..|exact H].
Qed.

Lemma call_ok L s c : ok L s -> can bad racy idle L (ACall c) ->
  wp bad (kern (run_call c)) L (fun _ L' => ok L' s).
Proof.
  intros Hx (Hq & Ha & Hst & _). pose proof (xi_sys _ _ _ _ _ Hx) as Hs.
  destruct (quiet_call idle (KD L) c Hs Ha Hq) as (a & k' & E & Hs' & Hf).
  unfold wp. rewrite (kern_run _ _ _ _ E). apply xinv_kd0; [done|done| | |].
  - by eapply quiet_still.
  - by apply frame_dom.
  - destruct c; try (right; by eapply quiet_stops); left; apply Hst; auto.
Qed.

(** Every correct use keeps the invariant, and its events are accepted. *)
Lemma act_ok L s x : ok L s -> can bad racy idle L x -> wp bad (run_action x) L (act_post s).
Proof.
  intros Hx Hc. unfold run_action. set (t := ACTIVE_PTR (KD L)).
  eapply wp_run; [by apply (mutex_active L t)|].
  destruct x as [m a|m|m|m|m|m c| | |c].
  - by apply init_ok.
  - destruct Hc as [(Hi & Hpc & Ht) [v Hv]]. eapply lock_act. by eapply mutex_lock_ok.
  - destruct Hc as [(Hi & Hpc & Ht) [v Hv]]. eapply lock_act. by eapply try_lock_ok.
  - destruct Hc as [(Hi & Hpc & Ht) [v Hv]]. unfold _mutex_unlock. apply wp_bind.
    eapply wp_mono; [|by eapply (unlock_ok L s t m v Unlocking)]. intros o L' Hpost.
    apply wp_ret. revert Hpost. case_bool_decide as Hb.
    + intros [Hor HL']. exists (<[m := Free]> s). split; [|done].
      destruct (held_by bad racy idle L s t m v Hx Hpc Hv (proj1 Hb) (proj2 Hb)) as (_ & Hh & _).
      assert (unlock_events t m o = [Unlocked t m]) as -> by (by destruct Hor as [->| ->]).
      cbn. by rewrite decide_True.
    + intros [-> HL']. by apply act_none.
  - eapply lock_act. by apply destroy_ok.
  - apply wp_bind. eapply wp_mono; [|apply (ceiling_ok L s m c Hx (proj2 Hc))].
    intros r L' HL'. by apply wp_ret, act_none.
  - destruct Hc as (Hi & Hpc & Ht).
    assert (_mutex_cleanup t L = cleanup_step t L) as E.
    { unfold _mutex_cleanup. rewrite (bind_run _ _ _ _ _ (gets_id L)).
      by rewrite (xi_comp _ _ _ _ _ Hx), Z.eqb_refl. }
    pose proof (cleanup_ok L s t Hx ltac:(done)) as H.
    unfold wp, mbind, M_bind in H |- *. by rewrite E.
  - by apply resume_ok.
  - apply wp_bind. eapply wp_mono; [|by apply (call_ok L s c)].
    intros r L' HL'. by apply wp_ret, act_none.
Qed.
End functions.

(** ** What mutexes promise *)

(** The states that correct use reaches, with the events on the way. *)
Inductive mreach (bad racy : Prop) (idle : Z) (L0 : mx) : list event -> mx -> Prop :=
  | mreach_start : mreach bad racy idle L0 [] L0
  | mreach_step tr L x evs L' : mreach bad racy idle L0 tr L -> can bad racy idle L x ->
      run_action x L = Some (evs, L') -> mreach bad racy idle L0 (tr ++ evs) L'.

(** The component exists, no mutex does, and nobody is in a function. *)
Record fresh (racy : Prop) (idle : Z) (L : mx) : Prop := {
  fr_sys : sys idle (KD L);
  fr_mutex : MUTEX L = ∅;
  fr_list : MUTEXES L = [];
  fr_comp : COMPONENT L = Some MUTEX_VALID;
  fr_pc : PC L = ∅;
  fr_preempt : racy \/ all_preemptible (KD L)
}.

Lemma lock_run_app s evs1 evs2 :
  lock_run s (evs1 ++ evs2) = s' ← lock_run s evs1; lock_run s' evs2.
Proof.
  revert s. induction evs1 as [|e evs1 IH]; intros s; [done|]. cbn.
  destruct (lock_step s e); [apply IH|done].
Qed.

Lemma fresh_inv bad racy idle L : fresh racy idle L -> xinv bad racy idle L ∅.
Proof.
  intros [H1 H2 H3 H4 H5 H6]. split; try done.
  - intros m t [v Hv]. by rewrite H2 in Hv.
  - intros m v Hv. by rewrite H2 in Hv.
  - intros t p Hp. by rewrite H5 in Hp.
  - intros m Hm. rewrite H3 in Hm. by apply elem_of_nil in Hm.
Qed.

Lemma mreach_inv bad racy idle L0 evs L : fresh racy idle L0 -> mreach bad racy idle L0 evs L ->
  exists s, lock_run ∅ evs = Some s /\ xinv bad racy idle L s.
Proof.
  intros H0. induction 1 as [|tr L x evs L' _ IH Hc E].
  - exists ∅. split; [done|by apply fresh_inv].
  - destruct IH as (s & Es & Hx). pose proof (act_ok bad racy idle L s x Hx Hc) as Hw.
    unfold wp in Hw. rewrite E in Hw. destruct Hw as (s' & Es' & Hx').
    exists s'. split; [|done]. rewrite lock_run_app, Es. exact Es'.
Qed.

Lemma held_lock bad racy idle L s m t : xinv bad racy idle L s -> s !! m = Some (Held t) ->
  exists v, MUTEX L !! m = Some v /\ LOCK v = MQX_TEST_AND_SET_VALUE /\ OWNER_TD v = Some t.
Proof.
  intros Hx Hs. destruct (xi_status _ _ _ _ _ Hx m t Hs) as (v & Hv & Hva). exists v.
  pose proof (mo_lock _ _ _ _ _ _ (xi_mutex _ _ _ _ _ Hx m v Hv) Hva) as Hlk. unfold lock_ok in Hlk.
  destruct (LOCK v =? 0); [destruct Hlk as (_ & Hf & _); congruence|].
  destruct Hlk as (El & t' & (T1 & T2 & T3) & [[Hh Hn]|[Hf _]]); [|congruence].
  assert (t' = t) as -> by congruence. split_and!; [done|done|].
  destruct T2 as [|[_ [a Ha]]]; [done|]. destruct Hn. unfold granted. by rewrite Ha.
Qed.

(** ** What stays while a function goes on *)

Definition prios (k : kernel) : gmap Z Z := PRIORITY <$> TD k.

Lemma keeps_field_upd (f : td -> Z) t g : (forall d, f (g d) = f d) ->
  keeps (fun k => f <$> TD k) (upd_td t g).
Proof.
  intros H k a k'. unfold upd_td. destruct (TD k !! t) as [d|] eqn:Hd; [|done]. intros [= <- <-].
  cbn. rewrite fmap_insert, insert_id; [done|]. by rewrite lookup_fmap, Hd, H.
Qed.

Ltac keep_field :=
  repeat first [ progress keep_still | apply keeps_field_upd; intros; reflexivity ].

Lemma exec_field f : keeps (fun k => f <$> TD k : gmap Z Z) _sched_execute_scheduler_internal.
Proof. unfold _sched_execute_scheduler_internal. keep_field. Qed.
Lemma enqueue_prios m t b : keeps prios (mutex_enqueue m t b).
Proof.
  unfold prios, mutex_enqueue, _QUEUE_UNLINK, _sched_insert_priorityq_internal, queue_enqueue.
  destruct b; keep_field.
Qed.



(** ** Handing over *)











(** ** Inheriting *)

Lemma reprio_priority p d : PRIORITY (reprio p d) = p.
Proof. unfold reprio. by destruct (STATE d =? READY). Qed.

(** [t] waits for [m], whose owner [o] is not below priority [p]. *)
Definition inherited (m t o p : Z) (a : after) (r : outcome) (L : mx) : Prop :=
  r = Suspended /\ PC L !! t = Some (InQueue m a) /\
  (exists v, MUTEX L !! m = Some v /\ MVALID v = MUTEX_VALID /\ OWNER_TD v = Some o /\
     LOCK v = MQX_TEST_AND_SET_VALUE) /\
  (exists q, prios (KD L) !! o = Some q /\ q <= p).

Lemma block_inherited L m t o p a v q : ACTIVE_PTR (KD L) = t -> MUTEX L !! m = Some v ->
  MVALID v = MUTEX_VALID -> OWNER_TD v = Some o -> LOCK v = MQX_TEST_AND_SET_VALUE ->
  prios (KD L) !! o = Some q -> q <= p ->
  wp True (lock_block m a) L (inherited m t o p a).
Proof.
  intros Ha Hv Hva Ho Hl Hq Hp. unfold lock_block. wstep. wstep. unfold wp, mbind, M_bind, zoom.
  destruct (mutex_enqueue m t _ (KD L)) as [[a1 k1]|] eqn:E1; [|done].
  destruct (_sched_execute_scheduler_internal k1) as [[a2 k2]|] eqn:E2; [|done].
  apply enqueue_prios in E1. apply (exec_field PRIORITY) in E2. cbn. split_and!.
  - done.
  - cbn. by rewrite lookup_insert, decide_True.
  - by exists v.
  - exists q. split; [|done]. cbn. unfold prios in *. by rewrite E2, E1.
Qed.

Lemma queue_inherited idle L s t m a v d o od :
  xinv False False idle L s -> running idle L t -> MUTEX L !! m = Some v -> MVALID v = MUTEX_VALID ->
  TD (KD L) !! t = Some d -> has v MUTEX_PRIO_INHERIT = true ->
  LOCK v = MQX_TEST_AND_SET_VALUE -> OWNER_TD v = Some o -> o <> t -> TD (KD L) !! o = Some od ->
  PRIORITY od <= HOME_PRIORITY od ->
  wp True (lock_queue m (PRIORITY d) a) L (inherited m t o (PRIORITY d) a).
Proof.
  intros Hx Hr Hv Hva Hd Hin Hl Ho Hne Hod Hhome. pose proof Hr as [Hi Ha Hp Ht].
  pose proof (xi_sys _ _ _ _ _ Hx) as Hs. unfold lock_queue. wstep. rewrite Hl. cbn [Z.eqb negb].
  change (MQX_TEST_AND_SET_VALUE =? 0) with false. cbn iota. cbn [negb]. rewrite Hin.
  eapply wp_run; [unfold lift_opt; by rewrite Ho|]. wstep.
  assert (prios (KD L) !! o = Some (PRIORITY od)) as Hpo by (unfold prios; by rewrite lookup_fmap, Hod).
  destruct (Z.ltb_spec (PRIORITY d) (HOME_PRIORITY od)); [|by apply (block_inherited L m t o _ a v (PRIORITY od)); [..|lia]].
  assert (forall L1 q, ACTIVE_PTR (KD L1) = t -> MUTEX L1 !! m = Some v -> prios (KD L1) !! o = Some q ->
    q <= PRIORITY d -> wp True (count_boost m;; lock_block m a) L1 (inherited m t o (PRIORITY d) a)) as Hend.
  { intros L1 q Ha1 Hv1 Hq1 Hle. unfold count_boost. wstep.
    eapply block_inherited; [done|cbn; by rewrite lookup_insert, decide_True|done..]. }
  destruct (Z.ltb_spec (PRIORITY d) (PRIORITY od)); [|by apply (Hend L (PRIORITY od)); [..|lia]].
  destruct (xi_preempt _ _ _ _ _ Hx) as [|Hpre]; [done|].
  destruct (boost_stays idle (KD L) t o d od Hs Hi Ha Hd (Hpre _ _ Hd) Hne Hod) as (k' & E & Ha').
  destruct (boost_run idle o (PRIORITY d) od (KD L) Hs Hod) as (k2 & E2 & _ & Hsb).
  { apply (sh_td _ (proj1 (pre_inv _ _ (sys_pre _ _ Hs))) _ _ Hd). }
  assert (k2 = k') as -> by congruence.
  eapply wp_then_at; [done|exact E| |done].
  intros _. eapply Hend; [done|done| |reflexivity]. unfold prios. cbn. destruct Hsb as (Et & _).
  rewrite Et, lookup_fmap, lookup_insert, decide_True by done. cbn. by rewrite reprio_priority.
Qed.

(** C33: While no task disables preemption, a task that has to wait for a mutex
    with MUTEX_PRIO_INHERIT goes to its queue, and lifts the owner to at least its
    own priority. *)
Theorem mutex_lock_inherits idle L s t m v d o od :
  xinv False False idle L s -> running idle L t -> MUTEX L !! m = Some v -> MVALID v = MUTEX_VALID ->
  TD (KD L) !! t = Some d -> has v MUTEX_PRIO_INHERIT = true -> spins v = false ->
  OWNER_TD v = Some o -> o <> t -> TD (KD L) !! o = Some od -> PRIORITY od <= HOME_PRIORITY od ->
  exists L', _mutex_lock (Some m) L = Some (Suspended, L') /\ xinv False False idle L' s /\
    t ∈ on (QUEUES (KD L')) m /\ exists od', TD (KD L') !! o = Some od' /\ PRIORITY od' <= PRIORITY d.
Proof.
  intros Hx Hr Hv Hva Hd Hin Hsp Ho Hne Hod Hhome. pose proof Hr as [Hi Ha Hp Ht].
  assert (LOCK v = MQX_TEST_AND_SET_VALUE) as Hl.
  { pose proof (mo_lock _ _ _ _ _ _ (xi_mutex _ _ _ _ _ Hx m v Hv) Hva) as Hlk. unfold lock_ok in Hlk.
    destruct (LOCK v =? 0); [destruct Hlk; congruence|apply Hlk]. }
  assert (_mutex_lock (Some m) L = lock_queue m (PRIORITY d) Locking L) as E.
  { unfold _mutex_lock, mutex_lock. rewrite (bind_run _ _ _ _ _ (gets_id L)), Hi. cbn [Z.eqb negb].
    rewrite (bind_run _ _ _ _ _ (get_mutex_run L m v Hv)), Hva, Z.eqb_refl. cbn [negb].
    rewrite (bind_run _ _ _ _ _ (mutex_active L t Ha)), decide_False by congruence.
    rewrite (bind_run _ _ _ _ _ (kern_get_td L t d Hd)).
    unfold spins in Hsp. by rewrite Hsp. }
  pose proof (mutex_lock_ok False False idle L s t m Locking v Hx Hr Hv) as Hw.
  apply wp_total in Hw as (r & L' & E' & s' & Es' & Hx'); [|tauto].
  pose proof (queue_inherited idle L s t m Locking v d o od Hx Hr Hv Hva Hd Hin Hl Ho Hne Hod Hhome) as Hq.
  unfold wp in Hq. rewrite <-E in Hq. unfold _mutex_lock in Hq. rewrite E' in Hq.
  destruct Hq as (-> & Hpc & (v' & Hv' & Hva' & Ho' & Hl') & (q & Hq & Hle)).
  injection Es' as <-. exists L'. split_and!; [exact E'|done| |].
  - destruct (decide (t ∈ on (QUEUES (KD L')) m)) as [|Hn]; [done|].
    assert (granted L' t m) as Hg by (unfold granted; by rewrite Hpc).
    pose proof (mo_lock _ _ _ _ _ _ (xi_mutex _ _ _ _ _ Hx' m v' Hv') Hva') as Hlk. unfold lock_ok in Hlk.
    rewrite Hl' in Hlk. destruct Hlk as (_ & t' & (_ & T2 & T3) & _).
    apply T3 in Hg. subst t'. destruct T2 as [|[_ [b Hb]]]; congruence.
  - unfold prios in Hq. rewrite lookup_fmap in Hq. destruct (TD (KD L') !! o) as [od'|]; [|done].
    exists od'. split; [done|]. cbn in Hq. injection Hq as <-. done.
Qed.

(** ** Over all executions *)

(** C1: Whatever tasks and interrupts do, a mutex is locked only when it is free
    and unlocked only by the task that has it; whoever has it is written down
    in it. *)
Theorem mutex_exclusion idle L0 evs L :
  fresh True idle L0 -> mreach True True idle L0 evs L ->
  exists s, lock_run ∅ evs = Some s /\ forall m t, s !! m = Some (Held t) ->
    exists v, MUTEX L !! m = Some v /\ LOCK v = MQX_TEST_AND_SET_VALUE /\ OWNER_TD v = Some t.
Proof.
  intros H0 Hr. destruct (mreach_inv _ _ _ _ _ _ H0 Hr) as (s & Es & Hx).
  exists s. split; [done|]. intros m t. by eapply held_lock.
Qed.

(** No step runs into a null or dangling pointer, as long as no mutex both
    spins and inherits priorities. *)
Theorem mutex_total idle L0 evs L x :
  fresh True idle L0 -> mreach False True idle L0 evs L -> can False True idle L x ->
  exists evs' L', run_action x L = Some (evs', L').
Proof.
  intros H0 Hr Hc. destruct (mreach_inv _ _ _ _ _ _ H0 Hr) as (s & Es & Hx).
  destruct (wp_total _ _ _ _ (act_ok False True idle L s x Hx Hc)) as (e & L' & E & _); [tauto|].
  by exists e, L'.
Qed.

(** C13: As long as no task disables preemption, tasks wait only for a mutex that
    an existing task has. *)
Theorem mutex_no_lost_wakeup idle L0 evs L m v t :
  fresh False idle L0 -> mreach True False idle L0 evs L -> MUTEX L !! m = Some v ->
  MVALID v = MUTEX_VALID -> t ∈ on (QUEUES (KD L)) m ->
  LOCK v = MQX_TEST_AND_SET_VALUE /\
  exists o od, OWNER_TD v = Some o /\ TD (KD L) !! o = Some od.
Proof.
  intros H0 Hr Hv Hva Hin. destruct (mreach_inv _ _ _ _ _ _ H0 Hr) as (s & Es & Hx).
  pose proof (xi_mutex _ _ _ _ _ Hx m v Hv) as [_ _ _ _ C5 [|C6]]; [done|]. specialize (C5 Hva).
  assert (spins v = false) as Hsp.
  { destruct (spins v); [|done]. rewrite C6 in Hin by done. by apply elem_of_nil in Hin. }
  assert (LOCK v <> 0) as Hl.
  { intros El. unfold lock_ok in C5. rewrite El in C5. destruct C5 as (_ & _ & _ & [|He]); [done|].
    rewrite He in Hin. by apply elem_of_nil in Hin. }
  destruct (owner_known True False idle L s m v Hx Hv Hva Hl Hsp) as (o & od & Ho & Hod).
  unfold lock_ok in C5. rewrite (proj2 (Z.eqb_neq _ _) Hl) in C5. split; [apply C5|]. by exists o, od.
Qed.

(** ** Ceilings *)

Lemma insert_over {A} (f : gmap Z A) b x y : <[b := x]> (<[b := y]> f) = <[b := x]> f.
Proof. by rewrite insert_insert, decide_True. Qed.

(** One step of a run. *)
Ltac known := first [done | cbn; by rewrite ?lookup_insert, ?decide_True by done].
Ltac mrun :=
  cbv beta;
  lazymatch goal with
  | |- (kern active ≫= _) _ = _ => erewrite bind_run; [|apply mutex_active; known]
  | |- (kern (get_td _) ≫= _) _ = _ => erewrite bind_run; [|apply kern_get_td; known]
  | |- (get_mutex _ ≫= _) _ = _ => erewrite bind_run; [|apply get_mutex_run; known]
  | |- (upd_mutex _ _ ≫= _) _ = _ => erewrite bind_run; [|apply upd_mutex_run; known]
  | |- (gets id ≫= _) _ = _ => erewrite bind_run; [|apply gets_id]
  | |- (modify _ ≫= _) _ = _ => erewrite bind_run; [|done]
  end.

(** C35: A task that holds a mutex with a priority ceiling, and locks and unlocks
    another one whose ceiling is not better, is back at its home priority while
    it still holds the first. *)
Theorem mutex_nested_ceiling_lost idle L t d a va b vb :
  sys idle (KD L) -> running idle L t -> TD (KD L) !! t = Some d -> a <> b ->
  MUTEX L !! a = Some va -> MVALID va = MUTEX_VALID -> OWNER_TD va = Some t ->
  PRIORITY d = PRIORITY_CEILING va -> BOOSTED d = 1 ->
  Z.land (FLAGS d) TASK_PRIORITY_BOOSTED <> 0 ->
  MUTEX L !! b = Some vb -> MVALID vb = MUTEX_VALID -> LOCK vb = 0 -> OWNER_TD vb = None ->
  MBOOSTED vb = 0 -> spins vb = false -> has vb MUTEX_PRIO_INHERIT = false ->
  has vb MUTEX_PRIO_PROTECT = true ->
  PRIORITY_CEILING va <= PRIORITY_CEILING vb < HOME_PRIORITY d -> on (QUEUES (KD L)) b = [] ->
  exists L1 L2 L3 d', _mutex_lock (Some b) L = Some (Suspended, L1) /\
    resume L1 = Some ([Locked t b], L2) /\
    _mutex_unlock (Some b) L2 = Some (Returned MQX_EOK, L3) /\
    MUTEX L3 !! a = Some va /\ TD (KD L3) !! t = Some d' /\
    PRIORITY d' = HOME_PRIORITY d /\ PRIORITY_CEILING va < PRIORITY d'.
Proof.
  intros Hs [Hi Ha Hp Ht] Hd Hab Hva Hvava Hoa Hpr Hbo Hfl Hvb Hvb' Hl Ho Hmb Hsp Hin Hprot Hc Hq.
  set (v1 := with_LOCK MQX_TEST_AND_SET_VALUE (Some t) vb).
  set (L1 := at_pc t (InProtect b Locking) (set_MUTEX (<[b := v1]>) L)).
  set (v2 := with_MBOOSTED (w32 (MBOOSTED v1 + 1)) v1).
  set (L2 := set_MUTEX (<[b := v2]>) (set_MUTEX (<[b := v1]>) L)).
  set (v3 := with_LOCK 0 None (with_MBOOSTED 0 v2)).
  destruct (unboost_run idle t 1 d (KD L) Hs Hd) as (k' & E & Hs' & Hsb).
  assert (unboosted 1 d = reprio (HOME_PRIORITY d)
    (with_FLAGS (Z.land (FLAGS d) (Z.lnot TASK_PRIORITY_BOOSTED)) (with_BOOSTED 0 d))) as Eu.
  { unfold unboosted. rewrite (proj2 (Z.eqb_neq _ _) Hfl), Hbo. done. }
  set (L3 := set_KD k' (set_MUTEX (<[b := v3]>) L)).
  exists L1, L2, L3, (unboosted 1 d).
  unfold spins in Hsp.
  split_and!.
  - unfold _mutex_lock, mutex_lock. mrun. rewrite Hi. cbn [Z.eqb negb]. mrun.
    rewrite Hvb', Z.eqb_refl. cbn [negb]. mrun. rewrite decide_False by congruence. mrun.
    rewrite Hsp. unfold lock_queue. mrun. rewrite Hl. cbn [Z.eqb negb]. mrun. mrun.
    unfold lock_inherit. mrun. change (has _ MUTEX_PRIO_INHERIT) with (has vb MUTEX_PRIO_INHERIT).
    rewrite Hin. cbn [andb]. unfold lock_protect. mrun.
    change (has _ MUTEX_PRIO_PROTECT) with (has vb MUTEX_PRIO_PROTECT). rewrite Hprot. by mrun.
  - assert (set_PC (delete t) L1 = set_MUTEX (<[b := v1]>) L) as Epc.
    { unfold L1, at_pc, set_PC, set_MUTEX. cbn. by rewrite delete_insert_id. }
    unfold resume. mrun. mrun.
    erewrite bind_run; [|unfold lift_opt, L1; cbn; by rewrite lookup_insert, decide_True].
    mrun. fold L1. rewrite Epc. cbn beta iota. erewrite (bind_run (resume_at _)).
    2: { cbn [resume_at]. unfold resume_protect. mrun. mrun. mrun.
      change (PRIORITY_CEILING v1) with (PRIORITY_CEILING vb).
      rewrite (proj2 (Z.ltb_lt _ _)) by lia. rewrite (proj2 (Z.ltb_ge _ _)) by lia.
      unfold count_boost. mrun. done. }
    done.
  - unfold _mutex_unlock, mutex_unlock. mrun. mrun.
    change (MVALID v2) with (MVALID vb). change (OWNER_TD v2) with (Some t).
    change (LOCK v2) with MQX_TEST_AND_SET_VALUE.
    rewrite Hvb', (bool_decide_true (Some t = Some t)) by done. rewrite !Z.eqb_refl. cbn [negb orb].
    cbn zeta. mrun. destruct (negb _) eqn:Esp.
    { apply has_either in Esp. unfold spins in Esp. change (has v2) with (has vb) in Esp. congruence. }
    mrun. change (KD _) with (KD L). rewrite Hq. mrun. unfold unlock_end. mrun.
    change (MBOOSTED v2) with (w32 (MBOOSTED vb + 1)). rewrite Hmb. change (w32 (0 + 1)) with 1.
    cbn [Z.eqb negb]. erewrite bind_run; [|apply kern_run; exact E].
    unfold L3, set_KD, set_MUTEX. cbn. by rewrite !insert_over.
  - cbn. by rewrite lookup_insert_ne.
  - cbn. destruct Hsb as (Et & _). rewrite Et, lookup_insert, decide_True by done. done.
  - by rewrite Eu, reprio_priority.
  - rewrite Eu, reprio_priority. lia.
Qed.

(** ** Attributes *)

(** The attributes that the functions build. *)
Inductive built (k : kernel) : attr -> Prop :=
  | built_init b a : _mutatr_init (Some b) = (MQX_EOK, Some a) -> built k a
  | built_wait a n a' : built k a -> _mutatr_set_wait_protocol (Some a) n = (MQX_EOK, Some a') -> built k a'
  | built_sched a n a' : built k a -> _mutatr_set_sched_protocol (Some a) n = (MQX_EOK, Some a') -> built k a'
  | built_ceiling a n a' : built k a ->
      _mutatr_set_priority_ceiling k (Some a) n = (MQX_EOK, Some a') -> built k a'
  | built_limit a n a' : built k a -> _mutatr_set_spin_limit (Some a) n = (MQX_EOK, Some a') -> built k a'.

Record wf_attr (k : kernel) (a : attr) : Prop := {
  wa_valid : AVALID a = MUTEX_VALID;
  wa_wait : WAIT_PROTOCOL a ∈ [MUTEX_SPIN_ONLY; MUTEX_LIMITED_SPIN; MUTEX_QUEUEING; MUTEX_PRIORITY_QUEUEING];
  wa_sched : SCHED_PROTOCOL a ∈ [MUTEX_NO_PRIO_INHERIT; MUTEX_PRIO_INHERIT; MUTEX_PRIO_PROTECT];
  wa_ceiling : ACEILING a <= LOWEST_TASK_PRIORITY k
}.

Lemma built_wf k a : 0 <= LOWEST_TASK_PRIORITY k -> built k a -> wf_attr k a.
Proof.
  intros Hlow. induction 1 as [b a E|a n a' _ [H1 H2 H3 H4] E|a n a' _ [H1 H2 H3 H4] E
    |a n a' _ [H1 H2 H3 H4] E|a n a' _ [H1 H2 H3 H4] E].
  - injection E as <-. split; cbn; [done|set_solver|set_solver|done].
  - cbn in E. rewrite H1, Z.eqb_refl in E. cbn [negb] in E.
    destruct (negb (_ || _)) eqn:Hn; [done|]. injection E as <-.
    split; try done. cbn. apply negb_false_iff in Hn. rewrite !orb_true_iff, !Z.eqb_eq in Hn.
    rewrite !list_elem_of_In. cbn. intuition.
  - cbn in E. rewrite H1, Z.eqb_refl in E. cbn [negb] in E.
    destruct (negb (_ || _)) eqn:Hn; [done|]. injection E as <-.
    split; try done. cbn. apply negb_false_iff in Hn. rewrite !orb_true_iff, !Z.eqb_eq in Hn.
    rewrite !list_elem_of_In. cbn. intuition.
  - cbn in E. rewrite H1, Z.eqb_refl in E. cbn [negb] in E.
    destruct (Z.ltb_spec (LOWEST_TASK_PRIORITY k) n); [done|]. injection E as <-. by split.
  - cbn in E. rewrite H1, Z.eqb_refl in E. injection E as <-. by split.
Qed.

(** The protocols that a mutex has. *)
Definition waits_by (v : mutex) : list bool :=
  map (has v) [MUTEX_SPIN_ONLY; MUTEX_LIMITED_SPIN; MUTEX_QUEUEING; MUTEX_PRIORITY_QUEUEING].

(** C34: A mutex initialised with attributes that the functions of [mutatr.c] built
    has exactly one way to wait, at most one of inheritance and ceiling, and a
    ceiling that is a priority of tasks; it is valid, free and not boosted. *)
Theorem mutatr_typed k a : 0 <= LOWEST_TASK_PRIORITY k -> built k a ->
  let v := init_mutex a in
  length (filter (eq true) (waits_by v)) = 1%nat /\
  (has v MUTEX_PRIO_INHERIT && has v MUTEX_PRIO_PROTECT) = false /\
  (spins v = true <-> WAIT_PROTOCOL a ∈ [MUTEX_SPIN_ONLY; MUTEX_LIMITED_SPIN]) /\
  PRIORITY_CEILING v <= LOWEST_TASK_PRIORITY k /\
  MVALID v = MUTEX_VALID /\ LOCK v = 0 /\ OWNER_TD v = None /\ MBOOSTED v = 0.
Proof.
  intros Hlow [_ Hw Hs Hc]%built_wf; [|done]. cbn zeta.
  unfold waits_by, spins, has, init_mutex. cbn [PROTOCOLS PRIORITY_CEILING MVALID LOCK OWNER_TD MBOOSTED].
  apply list_elem_of_In in Hw, Hs. rewrite list_elem_of_In. cbn [In] in Hw, Hs |- *.
  destruct Hw as [<-|[<-|[<-|[<-|[]]]]]; destruct Hs as [<-|[<-|[<-|[]]]];
    (split_and!; [vm_compute; reflexivity|vm_compute; reflexivity|
      vm_compute; intuition congruence| exact Hc|done..]).
Qed.

Definition ex_attr : attr := Attr MUTEX_PRIO_INHERIT MUTEX_VALID 0 0 MUTEX_QUEUEING.

Lemma ex_attr_built k : built k ex_attr.
Proof.
  eapply (built_sched k default_attr MUTEX_PRIO_INHERIT); [|reflexivity].
  by eapply (built_init k default_attr).
Qed.

Lemma mutatr_typed_witness : (has (init_mutex ex_attr) MUTEX_PRIO_INHERIT &&
  has (init_mutex ex_attr) MUTEX_PRIO_PROTECT) = false.
Proof. apply (mutatr_typed ex_boot ex_attr); [discriminate|apply ex_attr_built]. Defined.

(** ** Examples *)

Definition mafter (x : action) (L : mx) : mx :=
  match run_action x L with Some (_, L') => L' | None => L end.
Definition events (x : action) (L : mx) : list event :=
  match run_action x L with Some (evs, _) => evs | None => [] end.
Definition steps (L : mx) (xs : list action) : mx := fold_left (fun L x => mafter x L) xs L.

Lemma can_mono (bad bad' racy racy' : Prop) idle L x : (bad -> bad') -> (racy -> racy') ->
  can bad racy idle L x -> can bad' racy' idle L x.
Proof. intros H1 H2. destruct x; cbn; tauto. Qed.

Lemma mreach_mono (bad bad' racy racy' : Prop) idle L0 evs L : (bad -> bad') -> (racy -> racy') ->
  mreach bad racy idle L0 evs L -> mreach bad' racy' idle L0 evs L.
Proof.
  intros H1 H2. induction 1 as [|tr L x evs L' Hr IH Hc E]; [constructor|].
  eapply mreach_step; [exact IH| |exact E]. by eapply can_mono.
Qed.

Lemma mreach_after bad racy idle L0 tr L x : mreach bad racy idle L0 tr L -> can bad racy idle L x ->
  bool_decide (is_Some (run_action x L)) = true ->
  mreach bad racy idle L0 (tr ++ events x L) (mafter x L).
Proof.
  intros Hr Hc [[evs L'] E]%bool_decide_eq_true. unfold events, mafter. rewrite E.
  by eapply mreach_step.
Qed.

(** Tasks 1, of priority 3, and 4, of priority 4, are ready; no mutex exists. *)
Definition ex_mx : mx :=
  Mx (Kernel.after (Ready 4) (Kernel.after (Ready 1) ex_boot)) ∅ [] (Some MUTEX_VALID) ∅.

Lemma ex_mx_fresh racy : fresh racy 9 ex_mx.
Proof.
  split; try done.
  - repeat (apply after_sys; [|eexists; split; [vm_compute; reflexivity|right; vm_compute; reflexivity]]).
    exact ex_boot_sys.
  - right. assert (map_Forall (fun _ d => FLAGS d = 0) (TD (KD ex_mx))) as H.
    { apply (bool_decide_eq_true_1 _). vm_compute. reflexivity. }
    intros t d Hd. unfold preemptible. by rewrite (H t d Hd).
Qed.

Ltac ex_task := split_and!; [vm_compute; reflexivity|vm_compute; reflexivity|vm_compute; discriminate].
Ltac ex_some := eexists; vm_compute; reflexivity.
Ltac ex_other := let H := fresh in intros [H|H]; discriminate H.
Ltac ex_delay := split_and!; [reflexivity|split; [vm_compute; reflexivity|vm_compute; discriminate]|ex_other|
  right; intros _; vm_compute; reflexivity].
Ltac ex_isr := split_and!; [reflexivity|vm_compute; reflexivity|ex_other|
  first [left; reflexivity|right; vm_compute; discriminate]].

(** Task 1 waits for a tick, task 4 initialises and locks a mutex at 500, and
    the tick comes. *)
Definition ex_held : mx := steps ex_mx
  [ACall (DelayTicks 1); AInit 500 ex_attr; ALock 500; ACall IsrEnter; ACall (Tick None); ACall (Tick None);
   ACall IsrExit].
(** Task 1 locks it; 4 unlocks it; 1 goes on. *)
Definition ex_waits : mx := mafter (ALock 500) ex_held.
Definition ex_given : mx := mafter (AUnlock 500) ex_waits.

Lemma ex_init_can L m a : IN_ISR (KD L) = 0 -> PC L = ∅ -> ACTIVE_PTR (KD L) <> 9 -> MUTEX L !! m = None ->
  on (QUEUES (KD L)) m = [] -> ACEILING a <= LOWEST_TASK_PRIORITY (KD L) -> spins (init_mutex a) = false ->
  can False False 9 L (AInit m a).
Proof.
  intros H1 H2 H3 H4 H5 H6 H7. split_and!; try done.
  - split_and!; [done|by rewrite H2|done].
  - intros t p Hp. by rewrite H2 in Hp.
  - intros v Hv. by rewrite H4 in Hv.
  - by rewrite H7.
Qed.
Ltac ex_init := apply ex_init_can; first [vm_compute; reflexivity|vm_compute; discriminate].

Tactic Notation "ex_step" constr(x) "by" tactic3(tac) :=
  match goal with
  | H : mreach _ _ _ _ _ _ |- _ => apply (mreach_after _ _ _ _ _ _ x) in H; [|tac|vm_compute; reflexivity]
  end.
Ltac ex_done :=
  match goal with
  | H : mreach _ _ _ _ ?evs _ |- mreach _ _ _ _ ?evs' _ =>
      replace evs with evs' in H by (vm_compute; reflexivity); exact H
  end.

Lemma ex_held_reach : mreach False False 9 ex_mx [Initialised 500; Locked 4 500] ex_held.
Proof.
  pose proof (mreach_start False False 9 ex_mx).
  ex_step (ACall (DelayTicks 1)) by ex_delay. ex_step (AInit 500 ex_attr) by ex_init.
  ex_step (ALock 500) by (split; [ex_task|ex_some]).
  ex_step (ACall IsrEnter) by ex_isr. ex_step (ACall (Tick None)) by ex_isr.
  ex_step (ACall (Tick None)) by ex_isr. ex_step (ACall IsrExit) by ex_isr. ex_done.
Qed.

Lemma ex_mx_waits_reach : mreach False False 9 ex_mx [Initialised 500; Locked 4 500] ex_waits.
Proof.
  pose proof ex_held_reach. ex_step (ALock 500) by (split; [ex_task|ex_some]). ex_done.
Qed.

Lemma ex_given_reach :
  mreach False False 9 ex_mx [Initialised 500; Locked 4 500; Unlocked 4 500] ex_given.
Proof.
  pose proof ex_mx_waits_reach. ex_step (AUnlock 500) by (split; [ex_task|ex_some]). ex_done.
Qed.

Definition ex_evs : list event := [Initialised 500; Locked 4 500; Unlocked 4 500; Locked 1 500].

Lemma ex_mx_back_reach : mreach False False 9 ex_mx ex_evs (mafter AResume ex_given).
Proof.
  pose proof ex_given_reach. ex_step AResume by (split; [vm_compute; reflexivity|ex_some]). ex_done.
Qed.

Lemma ex_reach_all evs L : mreach False False 9 ex_mx evs L -> mreach True True 9 ex_mx evs L.
Proof. by apply mreach_mono. Qed.

Lemma mutex_exclusion_witness : exists v, MUTEX (mafter AResume ex_given) !! 500 = Some v /\
  LOCK v = MQX_TEST_AND_SET_VALUE /\ OWNER_TD v = Some 1.
Proof.
  destruct (mutex_exclusion 9 ex_mx ex_evs _ (ex_mx_fresh True) (ex_reach_all _ _ ex_mx_back_reach))
    as (s & Es & H).
  apply H. assert (lock_run ∅ ex_evs = Some {[500 := Held 1]}) as E by (vm_compute; reflexivity).
  rewrite E in Es. injection Es as <-. vm_compute. reflexivity.
Defined.

Lemma mutex_total_witness : exists evs L', run_action AResume ex_given = Some (evs, L').
Proof.
  apply (mutex_total 9 ex_mx [Initialised 500; Locked 4 500; Unlocked 4 500] ex_given _ (ex_mx_fresh True)).
  - apply (mreach_mono False False False True); [tauto|tauto|exact ex_given_reach].
  - split; [vm_compute; reflexivity|ex_some].
Defined.

Definition ex_m (L : mx) : mutex := default MUTEX_INITIALIZER (MUTEX L !! 500).
Definition ex_d (L : mx) (t : Z) : td := default (ex_td 0) (TD (KD L) !! t).

Lemma mutex_no_lost_wakeup_witness : LOCK (ex_m ex_waits) = MQX_TEST_AND_SET_VALUE.
Proof.
  apply (mutex_no_lost_wakeup 9 ex_mx [Initialised 500; Locked 4 500] ex_waits 500 (ex_m ex_waits) 1
    (ex_mx_fresh False)).
  - apply (mreach_mono False True False False); [tauto|tauto|exact ex_mx_waits_reach].
  - vm_compute. reflexivity.
  - vm_compute. reflexivity.
  - apply (bool_decide_eq_true_1 _). vm_compute. reflexivity.
Defined.

Lemma ex_mx_inv racy evs L : mreach False False 9 ex_mx evs L -> exists s, xinv False racy 9 L s.
Proof.
  intros Hr. destruct (mreach_inv False racy 9 ex_mx evs L (ex_mx_fresh racy)) as (s & _ & Hx).
  - apply (mreach_mono False False False racy); [tauto|tauto|done].
  - by exists s.
Qed.

Lemma ex_held_runs : running 9 ex_held 1.
Proof. split; vm_compute; [done|done|done|discriminate]. Qed.


Lemma mutex_lock_inherits_witness : exists L', _mutex_lock (Some 500) ex_held = Some (Suspended, L') /\
  exists od', TD (KD L') !! 4 = Some od' /\ PRIORITY od' <= 3.
Proof.
  destruct (ex_mx_inv False _ _ ex_held_reach) as [s Hx].
  pose proof (mutex_lock_inherits 9 ex_held s 1 500 (ex_m ex_held) (ex_d ex_held 1) 4 (ex_d ex_held 4)
    Hx ex_held_runs) as H.
  do 6 specialize (H ltac:(vm_compute; reflexivity)). specialize (H ltac:(discriminate)).
  specialize (H ltac:(vm_compute; reflexivity)). specialize (H ltac:(vm_compute; discriminate)).
  destruct H as (L' & E & _ & _ & od & Hod & Hle). exists L'. split; [exact E|]. exists od.
  split; [exact Hod|exact Hle].
Defined.

(** Task 4 has a mutex of ceiling 2 at 600; one of ceiling 3 at 700 is free. *)
Definition ex_ceiling (c : Z) : attr := Attr MUTEX_PRIO_PROTECT MUTEX_VALID c 0 MUTEX_QUEUEING.
Definition ex_nested : mx := steps ex_mx
  [ACall (DelayTicks 1); AInit 600 (ex_ceiling 2); AInit 700 (ex_ceiling 3); ALock 600; AResume].

Lemma ex_nested_reach : mreach False False 9 ex_mx
  [Initialised 600; Initialised 700; Locked 4 600] ex_nested.
Proof.
  pose proof (mreach_start False False 9 ex_mx).
  ex_step (ACall (DelayTicks 1)) by ex_delay. ex_step (AInit 600 (ex_ceiling 2)) by ex_init.
  ex_step (AInit 700 (ex_ceiling 3)) by (
    split_and!; [ex_task|vm_compute; reflexivity| |intros v Hv; vm_compute in Hv; discriminate Hv|
      vm_compute; discriminate|intros Hs; vm_compute in Hs; discriminate Hs];
    intros t p Hp; vm_compute in Hp; destruct t; discriminate Hp).
  ex_step (ALock 600) by (split; [ex_task|ex_some]).
  ex_step AResume by (split; [vm_compute; reflexivity|ex_some]). ex_done.
Qed.

Definition ex_at (L : mx) (m : Z) : mutex := default MUTEX_INITIALIZER (MUTEX L !! m).

Lemma mutex_nested_ceiling_lost_witness : exists L1 L2 L3 d',
  _mutex_lock (Some 700) ex_nested = Some (Suspended, L1) /\ resume L1 = Some ([Locked 4 700], L2) /\
  _mutex_unlock (Some 700) L2 = Some (Returned MQX_EOK, L3) /\
  TD (KD L3) !! 4 = Some d' /\ PRIORITY d' = 4 /\ PRIORITY_CEILING (ex_at ex_nested 600) = 2.
Proof.
  destruct (ex_mx_inv False _ _ ex_nested_reach) as [s Hx].
  assert (running 9 ex_nested 4) as Hr by (split; vm_compute; [done|done|done|discriminate]).
  pose proof (mutex_nested_ceiling_lost 9 ex_nested 4 (ex_d ex_nested 4) 600 (ex_at ex_nested 600) 700
    (ex_at ex_nested 700) (xi_sys _ _ _ _ _ Hx) Hr) as H.
  specialize (H ltac:(vm_compute; reflexivity)). specialize (H ltac:(discriminate)).
  do 5 specialize (H ltac:(vm_compute; reflexivity)). specialize (H ltac:(vm_compute; discriminate)).
  do 8 specialize (H ltac:(vm_compute; reflexivity)).
  specialize (H ltac:(vm_compute; split; [discriminate|reflexivity])).
  specialize (H ltac:(vm_compute; reflexivity)).
  destruct H as (L1 & L2 & L3 & d' & E1 & E2 & E3 & _ & Hd & Hp & _).
  exists L1, L2, L3, d'. split_and!; [exact E1|exact E2|exact E3|exact Hd| |vm_compute; reflexivity].
  etrans; [exact Hp|vm_compute; reflexivity].
Defined.

(** A task that disables preemption can be switched off between the boost of the
    owner and its own blocking: task 4 has 500 and 600, task 1 stops preemption
    and is to wait for 500 when the better task 3 is ready; 3 waits for 600,
    which lifts 4 above 1; 4 unlocks both, and 1 blocks on a mutex that is free. *)
Definition ex_race : mx :=
  steps (Mx (Kernel.after (Ready 4) (Kernel.after (Ready 3) (Kernel.after (Ready 1) ex_boot)))
           ∅ [] (Some MUTEX_VALID) ∅)
    [ACall (DelayTicks 3); ACall (DelayTicks 1); AInit 500 ex_attr; AInit 600 ex_attr; ALock 500; ALock 600;
     ACall IsrEnter; ACall (Tick None); ACall (Tick None); ACall IsrExit; ACall StopPreemption;
     ACall IsrEnter; ACall (Tick None); ACall (Tick None); ACall (Tick None); ACall IsrExit;
     ALock 500; ALock 600; AUnlock 500; AUnlock 600; ACall (DelayTicks 9);
     AResume; ACall (DelayTicks 9); AResume].

Example lost_wakeup : LOCK (ex_m ex_race) = 0 /\ OWNER_TD (ex_m ex_race) = None /\
  on (QUEUES (KD ex_race)) 500 = [1] /\ BOOSTED (ex_d ex_race 4) = 1.
Proof. vm_compute. done. Qed.

(** Spinning for a mutex that inherits, in the moment between the lock and the
    owner being set: the null pointer is followed. *)
Definition ex_spin : attr := Attr MUTEX_PRIO_INHERIT MUTEX_VALID 0 0 MUTEX_SPIN_ONLY.

Example null_owner :
  run_action (ALock 500) (steps ex_mx
    [ACall (DelayTicks 1); AInit 500 ex_spin; ALock 500; ACall IsrEnter; ACall (Tick None); ACall (Tick None);
     ACall IsrExit]) = None.
Proof. vm_compute. done. Qed.

(** A lock of a mutex that [MUTEX_INITIALIZER] set up follows the null links of
    its queue as soon as it has to wait. *)
Example initializer_contended :
  run_action (ALock 500) (set_MUTEX (<[500 := with_LOCK MQX_TEST_AND_SET_VALUE (Some 4) MUTEX_INITIALIZER]>) ex_mx)
    = None.
Proof. vm_compute. done. Qed.

(** The empty component is what [_mutex_create_component] makes. *)
Example component_created :
  _mutex_create_component true (Mx (KD ex_mx) ∅ [] None ∅) = Some (MQX_OK, ex_mx).
Proof. done. Qed.
End Mutex.
