(* ===== verification/Lwmsgq.v ===== *)
(** * Lightweight message queues: [kernel/lwmsgq.c]

    A queue is a structure at an address followed by a ring of [MAX_SIZE]
    messages of [MSG_SIZE] words.  The state is that of the scheduler with the
    fields of the queues and the memory that messages are copied through.  The
    tasks that wait are linked through [AUX_QUEUE] to one of two queues in the
    structure, which are in [AUX_QUEUES] under their addresses.

    A call that blocks ends, in the model, where the task is switched away; [PC]
    records where it goes on, and [resume] is the rest of the function. *)

From S2P Require Import Prelude Clocks Kernel Frame Waits Veil.

Module Lwmsgq.

Export Veil.

#[local] Arguments Z.testbit : simpl never.
#[local] Arguments Z.land : simpl never.
#[local] Arguments Z.lor : simpl never.

(** ** Constants *)

Definition LWMSGQ_SEND_BLOCK_ON_FULL : Z := 1.
Definition LWMSGQ_SEND_BLOCK_ON_SEND : Z := 2.
Definition LWMSGQ_RECEIVE_BLOCK_ON_EMPTY : Z := 4.
Definition LWMSGQ_TIMEOUT_UNTIL : Z := 8.
Definition LWMSGQ_TIMEOUT_FOR : Z := 16.
Definition LWMSGQ_INVALID : Z := 1920.            (* MSG_ERROR_BASE | 0x80 *)
Definition LWMSGQ_FULL : Z := 1921.
Definition LWMSGQ_EMPTY : Z := 1922.
Definition LWMSGQ_TIMEOUT : Z := 1923.
Definition LWMSGQ_DEINIT : Z := 1924.
Definition LWMSGQ_VALID : Z := 1819766131.        (* 0x6C776D73 *)
Definition LWMSGQ_DEINIT_INFO : Z := 4294967295.
Definition LWMSGQ_READ_BLOCKED : Z := Z.lor (Z.lor 48 IS_BLOCKED) TD_IS_ON_AUX_QUEUE.
Definition LWMSGQ_WRITE_BLOCKED : Z := Z.lor (Z.lor 50 IS_BLOCKED) TD_IS_ON_AUX_QUEUE.
Definition MQX_EINVAL : Z := 1040.

(** ** State *)

Record msgq := MsgQ {
  QVALID : Z; MSG_SIZE : Z; MAX_SIZE : Z; CURRENT_SIZE : Z;
  MSG_WRITE_LOC : Z; MSG_READ_LOC : Z; MSG_START_LOC : Z; MSG_END_LOC : Z
}.

(** The offsets of the two queues of tasks, and the size of the structure. *)
Definition WAITING_WRITERS (q : Z) : Z := q + 8.
Definition WAITING_READERS (q : Z) : Z := q + 20.
Definition sizeof_LWMSGQ_STRUCT : Z := 64.

(** Where a task that was switched away goes on: in the loop of [_lwmsgq_send],
    after the [_task_block] of [_lwmsgq_send], in the loop of [_lwmsgq_receive]. *)
Inductive pc :=
  | InSend (q message flags : Z)
  | InSent
  | InReceive (q message flags ticks : Z) (tick_ptr : option Clocks.ticks).

Record mq := Mq {
  KD : kernel;
  QS : gmap Z msgq;
  LWMSGQS : option (list Z);             (* [None]: its links are still null *)
  MEM : gmap Z Z;                        (* words, by address *)
  PC : gmap Z pc
}.

Definition set_KD (k : kernel) (L : mq) : mq := Mq k (QS L) (LWMSGQS L) (MEM L) (PC L).
Definition set_QS (f : gmap Z msgq -> gmap Z msgq) (L : mq) : mq :=
  Mq (KD L) (f (QS L)) (LWMSGQS L) (MEM L) (PC L).
Definition set_LIST (l : option (list Z)) (L : mq) : mq := Mq (KD L) (QS L) l (MEM L) (PC L).
Definition set_MEM (f : gmap Z Z -> gmap Z Z) (L : mq) : mq :=
  Mq (KD L) (QS L) (LWMSGQS L) (f (MEM L)) (PC L).
Definition set_PC (f : gmap Z pc -> gmap Z pc) (L : mq) : mq :=
  Mq (KD L) (QS L) (LWMSGQS L) (MEM L) (f (PC L)).

Abbreviation kern := (zoom KD set_KD).

#[export] Instance msgq_zoom : ZoomLaw KD set_KD.
Proof. by intros []. Qed.

#[local] Abbreviation set_KD_same := (zoom_same (get := KD) (set := set_KD)).
#[local] Abbreviation kern_run := (zoom_run (get := KD) (set := set_KD)).

Definition get_q (q : Z) : M mq msgq := fun L =>
  match QS L !! q with Some v => Some (v, L) | None => None end.
Definition set_q (q : Z) (v : msgq) : M mq unit := modify (set_QS (<[q := v]>)).

Definition load (a : Z) : M mq Z := fun L =>
  match MEM L !! a with Some w => Some (w, L) | None => None end.
Definition store (a w : Z) : M mq unit := load a;; modify (set_MEM (<[a := w]>)).

Definition has (flags bits : Z) : bool := negb (Z.land flags bits =? 0).

Definition LWMSGQ_IS_EMPTY (v : msgq) : bool := CURRENT_SIZE v =? 0.
Definition LWMSGQ_IS_FULL (v : msgq) : bool := MAX_SIZE v <=? CURRENT_SIZE v.

(** A call returns; or it is switched away before it did its work, or after. *)
Inductive outcome := Returned (r : Z) | Waits | Done.

(** ** Initialisation *)

(** [*to_ptr++ = *from_ptr++], [n] times. *)
Fixpoint copy_words (n : nat) (to_ptr from_ptr : Z) : M mq unit :=
  match n with
  | O => mret tt
  | S n' => w ← load from_ptr; store to_ptr w;; copy_words n' (to_ptr + 4) (from_ptr + 4)
  end.

Definition _lwmsgq_init_internal (q num_messages msg_size : Z) : M mq Z :=
  kern (modify (set_AUX_QUEUES (<[WAITING_WRITERS q := []]>)));;
  kern (modify (set_AUX_QUEUES (<[WAITING_READERS q := []]>)));;
  let start := q + sizeof_LWMSGQ_STRUCT in
  set_q q (MsgQ LWMSGQ_VALID msg_size num_messages 0 start start start
                (start + 4 * w32 (msg_size * num_messages)));;
  L ← gets id;
  let l := default [] (LWMSGQS L) in
  modify (set_LIST (Some l));;
  if bool_decide (q ∈ l) then mret MQX_EINVAL
  else modify (set_LIST (Some (l ++ [q])));; mret MQX_OK.

Definition _lwmsgq_init (location num_messages msg_size : Z) : M mq Z :=
  _lwmsgq_init_internal location num_messages msg_size.

Definition with_VALID (x : Z) (v : msgq) : msgq :=
  MsgQ x (MSG_SIZE v) (MAX_SIZE v) (CURRENT_SIZE v) (MSG_WRITE_LOC v) (MSG_READ_LOC v)
       (MSG_START_LOC v) (MSG_END_LOC v).

(** A loop of the deinitialisation; [l] is what is left of the queue [s]. *)
Fixpoint deinit_waiters (timed : bool) (l : list Z) (s : Z) : M kernel unit :=
  match l with
  | [] => mret tt
  | t :: l' => wake_first timed s t LWMSGQ_DEINIT_INFO;; deinit_waiters timed l' s
  end.

Definition _lwmsgq_deinit_internal (q : Z) : M mq Z :=
  L ← gets id;
  l ← lift_opt (LWMSGQS L);
  if negb (bool_decide (q ∈ l)) then mret MQX_EINVAL
  else
    v ← get_q q;
    set_q q (with_VALID (LWMSGQ_VALID - 1) v);;
    kern (deinit_waiters false (on (AUX_QUEUES (KD L)) (WAITING_WRITERS q)) (WAITING_WRITERS q));;
    kern (k ← gets id;
          deinit_waiters true (on (AUX_QUEUES k) (WAITING_READERS q)) (WAITING_READERS q));;
    modify (set_LIST (Some (without q l)));;
    kern _sched_check_scheduler_internal;;
    mret MQX_OK.

Definition _lwmsgq_deinit (location : Z) : M mq Z := _lwmsgq_deinit_internal location.

(** ** Sending *)

(** With [LWMSGQ_SEND_BLOCK_ON_SEND] the sender blocks after it has sent. *)
Definition block_sender : M mq outcome :=
  t ← kern active;
  modify (set_PC (<[t := InSent]>));;
  kern _task_block;;
  mret Done.

Definition written (v : msgq) : msgq :=
  let loc := MSG_WRITE_LOC v + 4 * MSG_SIZE v in
  MsgQ (QVALID v) (MSG_SIZE v) (MAX_SIZE v) (w32 (CURRENT_SIZE v + 1))
       (if MSG_END_LOC v <=? loc then MSG_START_LOC v else loc) (MSG_READ_LOC v)
       (MSG_START_LOC v) (MSG_END_LOC v).

(** [_lwmsgq_send] once the queue is not full. *)
Definition send_message (q message flags : Z) : M mq outcome :=
  v ← get_q q;
  copy_words (Z.to_nat (MSG_SIZE v)) (MSG_WRITE_LOC v) message;;
  set_q q (written v);;
  L ← gets id;
  match on (AUX_QUEUES (KD L)) (WAITING_READERS q) with
  | t :: _ =>
      kern (wake_first true (WAITING_READERS q) t 0);;
      if has flags LWMSGQ_SEND_BLOCK_ON_SEND then block_sender
      else kern _sched_check_scheduler_internal;; mret (Returned MQX_OK)
  | [] =>
      if has flags LWMSGQ_SEND_BLOCK_ON_SEND then block_sender else mret (Returned MQX_OK)
  end.

(** The body of the loop of a sender that waits. *)
Definition send_block (q message flags : Z) : M mq outcome :=
  t ← kern active;
  modify (set_PC (<[t := InSend q message flags]>));;
  kern (upd_td t (with_INFO (WAITING_WRITERS q));;
        _QUEUE_UNLINK t;;
        aux_enqueue (WAITING_WRITERS q) t;;
        _sched_execute_scheduler_internal);;
  mret Waits.

Definition _lwmsgq_send (q message flags : Z) : M mq outcome :=
  L ← gets id;
  if negb (IN_ISR (KD L) =? 0) &&
     has flags (Z.lor LWMSGQ_SEND_BLOCK_ON_FULL LWMSGQ_SEND_BLOCK_ON_SEND)
  then mret (Returned MQX_CANNOT_CALL_FUNCTION_FROM_ISR)
  else
    v ← get_q q;
    if negb (QVALID v =? LWMSGQ_VALID) then mret (Returned LWMSGQ_INVALID)
    else if LWMSGQ_IS_FULL v then
      if has flags LWMSGQ_SEND_BLOCK_ON_FULL then
        t ← kern active;
        kern (upd_td t (with_STATE LWMSGQ_WRITE_BLOCKED));;
        send_block q message flags
      else mret (Returned LWMSGQ_FULL)
    else send_message q message flags.

(** After the scheduler comes back to a sender that waited. *)
Definition resume_send (q message flags : Z) : M mq outcome :=
  t ← kern active;
  d ← kern (get_td t);
  if INFO d =? LWMSGQ_DEINIT_INFO then mret (Returned LWMSGQ_DEINIT)
  else
    v ← get_q q;
    if LWMSGQ_IS_FULL v then send_block q message flags else send_message q message flags.

(** ** Receiving *)

Definition timed (flags ticks : Z) : bool :=
  negb (ticks =? 0) || has flags (Z.lor LWMSGQ_TIMEOUT_UNTIL LWMSGQ_TIMEOUT_FOR).

(** [TIMEOUT] of a receiver that waits. *)
Definition receive_timeout (c : clock) (flags n : Z) (tick_ptr : option ticks) (old : ticks)
  : option ticks :=
  if negb (n =? 0) then Some (PSP_ADD_TICKS_TO_TICK_STRUCT (TIME c) n old)
  else if has flags LWMSGQ_TIMEOUT_UNTIL then tick_ptr
  else tick ← tick_ptr; Some (_psp_add_ticks (HW_TICKS_PER_TICK c) tick (TIME c)).

(** The body of the loop of a receiver that waits. *)
Definition receive_block (q message flags ticks : Z) (tick_ptr : option Clocks.ticks) : M mq outcome :=
  t ← kern active;
  modify (set_PC (<[t := InReceive q message flags ticks tick_ptr]>));;
  kern (block_on LWMSGQ_READ_BLOCKED (WAITING_READERS q) t);;
  (if timed flags ticks then
     c ← kern (gets CLOCK);
     d ← kern (get_td t);
     n ← lift_opt (receive_timeout c flags ticks tick_ptr (TIMEOUT d));
     kern (upd_td t (with_TIMEOUT n));;
     kern (_time_delay_internal t)
   else kern _sched_execute_scheduler_internal);;
  mret Waits.

Definition taken (v : msgq) : msgq :=
  let loc := MSG_READ_LOC v + 4 * MSG_SIZE v in
  MsgQ (QVALID v) (MSG_SIZE v) (MAX_SIZE v) (w32 (CURRENT_SIZE v - 1)) (MSG_WRITE_LOC v)
       (if MSG_END_LOC v <=? loc then MSG_START_LOC v else loc)
       (MSG_START_LOC v) (MSG_END_LOC v).

(** [_lwmsgq_receive] once the queue is not empty. *)
Definition receive_message (q message : Z) : M mq outcome :=
  v ← get_q q;
  copy_words (Z.to_nat (MSG_SIZE v)) message (MSG_READ_LOC v);;
  set_q q (taken v);;
  L ← gets id;
  match on (AUX_QUEUES (KD L)) (WAITING_WRITERS q) with
  | t :: _ =>
      kern (wake_first false (WAITING_WRITERS q) t 0);;
      kern _sched_check_scheduler_internal;;
      mret (Returned MQX_OK)
  | [] => mret (Returned MQX_OK)
  end.

Definition _lwmsgq_receive (q message flags ticks : Z) (tick_ptr : option Clocks.ticks) : M mq outcome :=
  L ← gets id;
  if negb (IN_ISR (KD L) =? 0) then mret (Returned MQX_CANNOT_CALL_FUNCTION_FROM_ISR)
  else
    v ← get_q q;
    if negb (QVALID v =? LWMSGQ_VALID) then mret (Returned LWMSGQ_INVALID)
    else if LWMSGQ_IS_EMPTY v then
      if has flags LWMSGQ_RECEIVE_BLOCK_ON_EMPTY then receive_block q message flags ticks tick_ptr
      else mret (Returned LWMSGQ_EMPTY)
    else receive_message q message.

(** After the scheduler comes back to a receiver that waited. *)
Definition resume_receive (q message flags ticks : Z) (tick_ptr : option Clocks.ticks) : M mq outcome :=
  t ← kern active;
  d ← kern (get_td t);
  if INFO d =? LWMSGQ_DEINIT_INFO then mret (Returned LWMSGQ_DEINIT)
  else if timed flags ticks && negb (INFO d =? 0) then mret (Returned LWMSGQ_TIMEOUT)
  else
    v ← get_q q;
    if LWMSGQ_IS_EMPTY v then receive_block q message flags ticks tick_ptr
    else receive_message q message.

(** ** The system: tasks, interrupts and queues *)

(** The words of a message at [a], if memory has them. *)
Fixpoint words (m : gmap Z Z) (n : nat) (a : Z) : option (list Z) :=
  match n with
  | O => Some []
  | S n' => w ← m !! a; l ← words m n' (a + 4); Some (w :: l)
  end.

Inductive event :=
  | Opened (q max : Z)
  | Sent (q : Z) (msg : list Z) | Received (q : Z) (msg : list Z)
  | Full (q : Z) | Empty (q : Z).

Inductive action :=
  | AInit (q num_messages msg_size : Z) | ADeinit (q : Z)
  | ASend (q message flags : Z)
  | AReceive (q message flags ticks : Z) (tick_ptr : option Clocks.ticks)
  | AStore (a w : Z)              (* the program stores a word of its own *)
  | AResume                       (* the running task goes on after a switch *)
  | ACall (c : kcall).            (* another kernel call, an interrupt or a tick *)

(** A send copies the message that is in memory when it is done. *)
Definition send_events (L : mq) (q message : Z) (o : outcome) : list event :=
  let sent := match QS L !! q with
              | Some v => match words (MEM L) (Z.to_nat (MSG_SIZE v)) message with
                          | Some l => [Sent q l] | None => [] end
              | None => []
              end in
  match o with
  | Returned r => if r =? MQX_OK then sent else if r =? LWMSGQ_FULL then [Full q] else []
  | Waits => []
  | Done => sent
  end.

(** A receive leaves the message in the buffer. *)
Definition receive_events (L' : mq) (q message : Z) (o : outcome) : list event :=
  match o with
  | Returned r =>
      if r =? MQX_OK then
        match QS L' !! q with
        | Some v => match words (MEM L') (Z.to_nat (MSG_SIZE v)) message with
                    | Some l => [Received q l] | None => [] end
        | None => []
        end
      else if r =? LWMSGQ_EMPTY then [Empty q] else []
  | _ => []
  end.

Definition resume : M mq (list event) :=
  t ← kern active;
  L ← gets id;
  p ← lift_opt (PC L !! t);
  modify (set_PC (delete t));;
  match p with
  | InSend q message flags =>
      o ← resume_send q message flags; mret (send_events L q message o)
  | InSent => mret []
  | InReceive q message flags ticks tick_ptr =>
      o ← resume_receive q message flags ticks tick_ptr;
      L' ← gets id; mret (receive_events L' q message o)
  end.

Definition run_action (x : action) : M mq (list event) :=
  L ← gets id;
  match x with
  | AInit q n size => r ← _lwmsgq_init q n size; mret (if r =? MQX_OK then [Opened q n] else [])
  | ADeinit q => _lwmsgq_deinit q;; mret []
  | ASend q message flags => o ← _lwmsgq_send q message flags; mret (send_events L q message o)
  | AReceive q message flags ticks tick_ptr =>
      o ← _lwmsgq_receive q message flags ticks tick_ptr;
      L' ← gets id; mret (receive_events L' q message o)
  | AStore a w => store a w;; mret []
  | AResume => resume
  | ACall c => kern (run_call c);; mret []
  end.

(** *** The specification: bounded queues of messages *)

Abbreviation fifos := (gmap Z (Z * list (list Z))).

Definition fifo_step (s : fifos) (e : event) : option fifos :=
  match e with
  | Opened q max => Some (<[q := (max, [])]> s)
  | Sent q msg =>
      '(max, l) ← s !! q;
      if zlen l <? max then Some (<[q := (max, l ++ [msg])]> s) else None
  | Received q msg =>
      '(max, l) ← s !! q;
      match l with
      | msg' :: l' => if decide (msg = msg') then Some (<[q := (max, l')]> s) else None
      | [] => None
      end
  | Full q => '(max, l) ← s !! q; if zlen l =? max then Some s else None
  | Empty q => '(max, l) ← s !! q; match l with [] => Some s | _ :: _ => None end
  end.

Fixpoint fifo_run (s : fifos) (evs : list event) : option fifos :=
  match evs with
  | [] => Some s
  | e :: evs' => s' ← fifo_step s e; fifo_run s' evs'
  end.

(** *** When an action is a correct use *)

(** The addresses a queue takes up. *)
Definition in_region (q : Z) (v : msgq) (a : Z) : Prop := q <= a < MSG_END_LOC v.

(** A message buffer: words in memory outside of every queue. *)
Definition buffer_ok (L : mq) (size message : Z) : Prop :=
  forall i, 0 <= i < size ->
    is_Some (MEM L !! (message + 4 * i)) /\
    forall q v, QS L !! q = Some v -> ~ in_region q v (message + 4 * i).

Definition pc_buffer (p : pc) : option (Z * Z) :=
  match p with
  | InSend q message _ => Some (q, message)
  | InSent => None
  | InReceive q message _ _ _ => Some (q, message)
  end.

(** The running task is not inside a function. *)
Definition free (L : mq) : Prop := IN_ISR (KD L) = 0 -> PC L !! ACTIVE_PTR (KD L) = None.

Definition woken_sender (L : mq) (q t : Z) : bool :=
  match PC L !! t, TD (KD L) !! t with
  | Some (InSend q' _ _), Some d => (q' =? q) && negb (Z.testbit (STATE d) 10) && (INFO d =? 0)
  | _, _ => false
  end.

Definition woken_receiver (L : mq) (q t : Z) : bool :=
  match PC L !! t, TD (KD L) !! t with
  | Some (InReceive q' _ _ _ _), Some d =>
      (q' =? q) && negb (Z.testbit (STATE d) 10) && (INFO d =? 0)
  | _, _ => false
  end.

Definition timeout_ok (flags ticks : Z) (tick_ptr : option Clocks.ticks) : Prop :=
  timed flags ticks = true -> ticks = 0 -> is_Some tick_ptr.

(** A task that is ready by its state and in a queue of waiting tasks at once,
    as a sender is that was woken and had to wait again. *)
Definition stranded (k : kernel) (t : Z) : Prop :=
  exists d q, TD k !! t = Some d /\ STATE d = READY /\ t ∈ on (AUX_QUEUES k) q.

(** A task that was switched away may go on whenever it runs.  A call that
    changes the priority of a stranded task would put it in a ready queue next
    to the queue it waits in; these calls, which only the mutexes make, are for
    other tasks here. *)
Definition can (idle : Z) (L : mq) (x : action) : Prop :=
  match x with
  | AInit q n size =>
      free L /\ 0 <= q /\ 0 < n < 2 ^ 32 /\ 0 <= size /\ q + sizeof_LWMSGQ_STRUCT + 4 * (size * n) <= 2 ^ 32 /\
      on (AUX_QUEUES (KD L)) (WAITING_WRITERS q) = [] /\ on (AUX_QUEUES (KD L)) (WAITING_READERS q) = [] /\
      (forall l, LWMSGQS L = Some l -> q ∉ l) /\
      (forall t p b, PC L !! t = Some p -> pc_buffer p = Some b -> b.1 <> q) /\
      (forall q' v, QS L !! q' = Some v -> q' <> q ->
         MSG_END_LOC v <= q \/ q + sizeof_LWMSGQ_STRUCT + 4 * (size * n) <= q') /\
      (forall i, 0 <= i < size * n -> is_Some (MEM L !! (q + sizeof_LWMSGQ_STRUCT + 4 * i))) /\
      (forall t p q' b v i, PC L !! t = Some p -> pc_buffer p = Some (q', b) -> QS L !! q' = Some v ->
         0 <= i < MSG_SIZE v -> ~ q <= b + 4 * i < q + sizeof_LWMSGQ_STRUCT + 4 * (size * n))
  | ADeinit q => free L /\ is_Some (LWMSGQS L)
  | ASend q message flags => free L /\ (IN_ISR (KD L) = 0 -> ACTIVE_PTR (KD L) <> idle) /\
      exists v, QS L !! q = Some v /\ buffer_ok L (MSG_SIZE v) message
  | AReceive q message flags ticks tick_ptr => free L /\ (IN_ISR (KD L) = 0 -> ACTIVE_PTR (KD L) <> idle) /\
      timeout_ok flags ticks tick_ptr /\
      exists v, QS L !! q = Some v /\ buffer_ok L (MSG_SIZE v) message
  | AStore a w => free L /\ is_Some (MEM L !! a) /\ forall q v, QS L !! q = Some v -> ~ in_region q v a
  | AResume => IN_ISR (KD L) = 0 /\ is_Some (PC L !! ACTIVE_PTR (KD L))
  | ACall c => quiet c = true /\ allowed idle (KD L) c /\ (c = IsrEnter \/ free L) /\
      forall t, boosts c = Some t -> ~ stranded (KD L) t
  end.

(** ** Rings *)

(** The address of slot [i]. *)
Definition slot (q size i : Z) : Z := q + sizeof_LWMSGQ_STRUCT + 4 * (size * i).

(** The queue at [q] holds the messages [l], from slot [r] on. *)
Record ring (m : gmap Z Z) (q : Z) (v : msgq) (l : list (list Z)) (r : Z) : Prop := {
  rg_q : 0 <= q;
  rg_max : 0 < MAX_SIZE v;
  rg_size : 0 <= MSG_SIZE v;
  rg_fits : slot q (MSG_SIZE v) (MAX_SIZE v) <= 2 ^ 32;
  rg_start : MSG_START_LOC v = slot q (MSG_SIZE v) 0;
  rg_end : MSG_END_LOC v = slot q (MSG_SIZE v) (MAX_SIZE v);
  rg_r : 0 <= r < MAX_SIZE v;
  rg_read : MSG_READ_LOC v = slot q (MSG_SIZE v) r;
  rg_write : MSG_WRITE_LOC v = slot q (MSG_SIZE v) ((r + zlen l) mod MAX_SIZE v);
  rg_len : CURRENT_SIZE v = zlen l;
  rg_bound : zlen l <= MAX_SIZE v;
  rg_small : MAX_SIZE v < 2 ^ 32;
  rg_mem : forall i, 0 <= i < MSG_SIZE v * MAX_SIZE v ->
    is_Some (m !! (q + sizeof_LWMSGQ_STRUCT + 4 * i));
  rg_msgs : forall i msg, l !! i = Some msg ->
    words m (Z.to_nat (MSG_SIZE v)) (slot q (MSG_SIZE v) ((r + Z.of_nat i) mod MAX_SIZE v)) = Some msg
}.

Lemma words_length m n a l : words m n a = Some l -> length l = n.
Proof.
  revert a l. induction n as [|n IH]; intros a l; cbn; [by intros [= <-]|].
  destruct (m !! a); [|done]. cbn. destruct (words m n (a + 4)) eqn:E; [|done]. intros [= <-].
  cbn. f_equal. by eapply IH.
Qed.

Lemma words_ext m m' n a : (forall i, 0 <= i < Z.of_nat n -> m' !! (a + 4 * i) = m !! (a + 4 * i)) ->
  words m' n a = words m n a.
Proof.
  revert a. induction n as [|n IH]; intros a H; [done|]. cbn [words].
  pose proof (H 0 ltac:(lia)) as H0. rewrite Z.mul_0_r, Z.add_0_r in H0. rewrite H0.
  rewrite IH; [done|]. intros i Hi. replace (a + 4 + 4 * i) with (a + 4 * (i + 1)) by lia. apply H. lia.
Qed.

Lemma words_some m n a : (forall i, 0 <= i < Z.of_nat n -> is_Some (m !! (a + 4 * i))) ->
  is_Some (words m n a).
Proof.
  revert a. induction n as [|n IH]; intros a H; [by eexists|]. cbn [words].
  destruct (H 0 ltac:(lia)) as [w Hw]. rewrite Z.mul_0_r, Z.add_0_r in Hw. rewrite Hw. cbn.
  destruct (IH (a + 4)) as [l Hl].
  { intros i Hi. replace (a + 4 + 4 * i) with (a + 4 * (i + 1)) by lia. apply H. lia. }
  rewrite Hl. by eexists.
Qed.

(** Copying between areas that do not overlap. *)
Definition apart (to_ptr from_ptr : Z) (n : nat) : Prop :=
  forall i j, 0 <= i < Z.of_nat n -> 0 <= j < Z.of_nat n -> to_ptr + 4 * i <> from_ptr + 4 * j.

Lemma copy_run n to_ptr from_ptr L :
  (forall i, 0 <= i < Z.of_nat n -> is_Some (MEM L !! (to_ptr + 4 * i))) ->
  (forall i, 0 <= i < Z.of_nat n -> is_Some (MEM L !! (from_ptr + 4 * i))) ->
  apart to_ptr from_ptr n ->
  exists m, copy_words n to_ptr from_ptr L = Some (tt, set_MEM (fun _ => m) L) /\
    words m n to_ptr = words (MEM L) n from_ptr /\ dom m = dom (MEM L) /\
    (forall a, (forall i, 0 <= i < Z.of_nat n -> a <> to_ptr + 4 * i) -> m !! a = MEM L !! a).
Proof.
  revert to_ptr from_ptr L. induction n as [|n IH]; intros to_ptr from_ptr L Ht Hf Ha.
  { exists (MEM L). split_and!; [|done|done|done]. unfold set_MEM. cbn. by destruct L. }
  destruct (Hf 0 ltac:(lia)) as [w Hw]. destruct (Ht 0 ltac:(lia)) as [w0 Hw0].
  rewrite Z.mul_0_r, Z.add_0_r in Hw, Hw0.
  set (L1 := set_MEM (<[to_ptr := w]>) L).
  destruct (IH (to_ptr + 4) (from_ptr + 4) L1) as (m & E & Hwo & Hd & Ho).
  - intros i Hi. cbn. apply lookup_insert_is_Some'. right.
    replace (to_ptr + 4 + 4 * i) with (to_ptr + 4 * (i + 1)) by lia. apply Ht. lia.
  - intros i Hi. cbn. apply lookup_insert_is_Some'. right.
    replace (from_ptr + 4 + 4 * i) with (from_ptr + 4 * (i + 1)) by lia. apply Hf. lia.
  - intros i j Hi Hj. pose proof (Ha (i + 1) (j + 1) ltac:(lia) ltac:(lia)). lia.
  - exists m. split_and!.
    + cbn [copy_words]. unfold load at 1, store, load, mbind, M_bind. rewrite Hw, Hw0. exact E.
    + assert (words (MEM L1) n (from_ptr + 4) = words (MEM L) n (from_ptr + 4)) as Ew.
      { apply words_ext. intros i Hi. cbn. rewrite lookup_insert_ne; [done|].
        pose proof (Ha 0 (i + 1) ltac:(lia) ltac:(lia)). lia. }
      assert (m !! to_ptr = Some w) as Em.
      { rewrite Ho; [cbn; by rewrite lookup_insert, decide_True|]. intros i Hi. lia. }
      cbn [words]. by rewrite Hw, Em, Hwo, Ew.
    + rewrite Hd. cbn. rewrite dom_insert_L. apply elem_of_dom_2 in Hw0. set_solver.
    + intros a Hne. rewrite Ho.
      * cbn. rewrite lookup_insert_ne; [done|]. specialize (Hne 0 ltac:(lia)). lia.
      * intros i Hi. specialize (Hne (i + 1) ltac:(lia)). lia.
Qed.

Lemma slot_in q size max i j : 0 <= size -> 0 <= i < max -> 0 <= j < size ->
  exists x, 0 <= x < size * max /\ slot q size i + 4 * j = q + sizeof_LWMSGQ_STRUCT + 4 * x.
Proof. intros Hs Hi Hj. exists (size * i + j). unfold slot. split; [nia|lia]. Qed.

Lemma slot_apart q size i j a b : 0 <= a < size -> 0 <= b < size -> i <> j ->
  slot q size i + 4 * a <> slot q size j + 4 * b.
Proof. unfold slot. intros Ha Hb Hij. intros E. assert (size * (i - j) = b - a) by (rewrite Z.mul_sub_distr_l; lia).
  assert (i < j \/ j < i) as [Hl|Hl] by lia.
  - assert (size * (i - j) <= size * (-1)) by (apply Z.mul_le_mono_nonneg_l; lia). lia.
  - assert (size * 1 <= size * (i - j)) by (apply Z.mul_le_mono_nonneg_l; lia). lia.
Qed.

(** Where the pointers go. *)
Lemma next_slot q size max i : 0 <= size -> 0 <= i < max ->
  (if slot q size max <=? slot q size i + 4 * size then slot q size 0 else slot q size i + 4 * size) =
  slot q size ((i + 1) mod max).
Proof.
  intros Hs Hi. unfold slot. destruct (Z.leb_spec (q + sizeof_LWMSGQ_STRUCT + 4 * (size * max))
    (q + sizeof_LWMSGQ_STRUCT + 4 * (size * i) + 4 * size)).
  - destruct (Z.eq_dec size 0) as [->|]; [lia|]. assert (i + 1 = max) as -> by nia.
    rewrite Z.mod_same by lia. lia.
  - rewrite Z.mod_small by nia. lia.
Qed.

Lemma mod_step a m : 0 < m -> (a mod m + 1) mod m = (a + 1) mod m.
Proof. intros Hm. by rewrite Z.add_mod_idemp_l by lia. Qed.

Lemma mod_apart r i j m : 0 < m -> 0 <= i < m -> 0 <= j < m -> i <> j -> (r + i) mod m <> (r + j) mod m.
Proof.
  intros Hm Hi Hj Hne E. apply Hne.
  assert ((r + i - (r + j)) mod m = 0) as E2 by (rewrite Zminus_mod, E, Z.sub_diag; apply Z.mod_0_l; lia).
  replace (r + i - (r + j)) with (i - j) in E2 by lia.
  apply Z.mod_divide in E2 as [k Hk]; [|lia].
  assert (k = 0 \/ k <= -1 \/ 1 <= k) as [->|[|]] by lia; nia.
Qed.

(** Sending a message to a ring that is not full. *)
Lemma ring_written m m' q v l r msg :
  ring m q v l r -> zlen l < MAX_SIZE v -> dom m' = dom m ->
  words m' (Z.to_nat (MSG_SIZE v)) (MSG_WRITE_LOC v) = Some msg ->
  (forall a, (forall i, 0 <= i < MSG_SIZE v -> a <> MSG_WRITE_LOC v + 4 * i) -> m' !! a = m !! a) ->
  ring m' q (written v) (l ++ [msg]) r.
Proof.
  intros [R1 R2 R3 R4 R5 R6 R7 R8 R9 R10 R11 R12 R13 R14] Hlt Hd Hw Ho.
  assert (zlen (l ++ [msg]) = zlen l + 1) as El by (rewrite length_app; cbn; lia).
  pose proof (Z.mod_pos_bound (r + zlen l) (MAX_SIZE v) R2) as Hm.
  split; cbn; try done.
  - rewrite R6, R5, R9, next_slot by lia. f_equal. rewrite El, mod_step by lia. f_equal. lia.
  - rewrite R10, El. apply wrap_small. lia.
  - lia.
  - intros i Hi. destruct (R13 i Hi) as [w Hm']. rewrite <-elem_of_dom, Hd. by eapply elem_of_dom_2.
  - intros i x Hx. destruct (decide (i = length l)) as [->|Hne].
    + rewrite lookup_app_r, Nat.sub_diag in Hx by lia. cbn in Hx. injection Hx as <-.
      by rewrite <-R9.
    + assert (i < length l)%nat as Hi.
      { apply lookup_lt_Some in Hx. rewrite length_app in Hx. cbn in Hx. lia. }
      rewrite lookup_app_l in Hx by done. rewrite <-(R14 i x Hx). apply words_ext.
      intros j Hj. apply Ho. intros j' Hj'. rewrite R9. apply slot_apart; [lia|lia|].
      apply mod_apart; lia.
Qed.

(** Receiving from one that is not empty. *)
Lemma ring_taken m q v l r msg : ring m q v (msg :: l) r -> ring m q (taken v) l ((r + 1) mod MAX_SIZE v).
Proof.
  intros [R1 R2 R3 R4 R5 R6 R7 R8 R9 R10 R11 R12 R13 R14].
  assert (zlen (msg :: l) = zlen l + 1) as El by (cbn; lia).
  split; cbn; try done.
  - apply Z.mod_pos_bound. lia.
  - rewrite R6, R5, R8, next_slot by lia. done.
  - rewrite R9, El. f_equal. rewrite Z.add_mod_idemp_l by lia. f_equal. lia.
  - rewrite R10, El. rewrite Z.add_simpl_r. apply wrap_small. lia.
  - lia.
  - intros i x Hx. rewrite <-(R14 (S i) x Hx). do 2 f_equal.
    rewrite Z.add_mod_idemp_l by lia. f_equal. lia.
Qed.

(** What is not stored in the ring does not matter. *)
Lemma ring_ext m m' q v l r : ring m q v l r -> dom m' = dom m ->
  (forall a, in_region q v a -> m' !! a = m !! a) -> ring m' q v l r.
Proof.
  intros [R1 R2 R3 R4 R5 R6 R7 R8 R9 R10 R11 R12 R13 R14] Hd Ho. split; try done.
  - intros i Hi. destruct (R13 i Hi) as [w Hm]. rewrite <-elem_of_dom, Hd. by eapply elem_of_dom_2.
  - intros i x Hx. rewrite <-(R14 i x Hx). apply words_ext. intros j Hj. apply Ho.
    destruct (slot_in q (MSG_SIZE v) (MAX_SIZE v) ((r + Z.of_nat i) mod MAX_SIZE v) j) as (y & Hy & ->);
      [lia|by apply Z.mod_pos_bound|lia|].
    unfold in_region. rewrite R6. unfold slot, sizeof_LWMSGQ_STRUCT. lia.
Qed.

Lemma ring_valid m q v l r x : ring m q v l r -> ring m q (with_VALID x v) l r.
Proof. intros []. by split. Qed.

Lemma ring_init m q n size : 0 <= q -> 0 < n < 2 ^ 32 -> 0 <= size -> slot q size n <= 2 ^ 32 ->
  (forall i, 0 <= i < size * n -> is_Some (m !! (q + sizeof_LWMSGQ_STRUCT + 4 * i))) ->
  let start := q + sizeof_LWMSGQ_STRUCT in
  ring m q (MsgQ LWMSGQ_VALID size n 0 start start start (start + 4 * w32 (size * n))) [] 0.
Proof.
  intros H1 H2 H3 H4 H5. cbn zeta. unfold slot, sizeof_LWMSGQ_STRUCT in H4.
  split; cbn; try done; try (unfold slot, sizeof_LWMSGQ_STRUCT; lia).
  - unfold slot. rewrite (wrap_small 32) by nia. done.
  - unfold slot. rewrite Z.mod_0_l by lia. lia.
Qed.

(** ** The invariant *)

(** The queue of tasks a task at [p] waits in, if it still waits. *)
Definition pc_wait (p : pc) : option Z :=
  match p with
  | InSend q _ _ => Some (WAITING_WRITERS q)
  | InSent => None
  | InReceive q _ _ _ _ => Some (WAITING_READERS q)
  end.

Definition pc_timeout (p : pc) : Prop :=
  match p with InReceive _ _ flags ticks tick_ptr => timeout_ok flags ticks tick_ptr | _ => True end.

Record base (idle : Z) (L : mq) (s : fifos) : Prop := {
  b_kinv : kinv (KD L);
  b_blocked : forall t d, TD (KD L) !! t = Some d -> Z.testbit (STATE d) 10 = true ->
    exists p, PC L !! t = Some p /\ pc_wait p = Some (INFO d) /\
      (Z.testbit (STATE d) 8 = true -> exists q m f n k, p = InReceive q m f n k);
  b_pc : forall t p, PC L !! t = Some p -> is_Some (TD (KD L) !! t) /\ t <> idle /\ pc_timeout p /\
    (forall q b, pc_buffer p = Some (q, b) -> exists v, QS L !! q = Some v /\ buffer_ok L (MSG_SIZE v) b);
  b_ring : forall q v, QS L !! q = Some v ->
    exists l r, s !! q = Some (MAX_SIZE v, l) /\ ring (MEM L) q v l r;
  b_apart : forall q v q' v', QS L !! q = Some v -> QS L !! q' = Some v' -> q' <> q ->
    MSG_END_LOC v <= q' \/ MSG_END_LOC v' <= q
}.

(** The queues in the list are those that are valid. *)
Definition listed (L : mq) : Prop :=
  forall q, q ∈ default [] (LWMSGQS L) <-> exists v, QS L !! q = Some v /\ QVALID v = LWMSGQ_VALID.

(** How many tasks that were woken have not run yet. *)
Definition tally (f : mq -> Z -> Z -> bool) (L : mq) (q : Z) : Z :=
  count (f L q) (elements (dom (TD (KD L)))).

(** When tasks wait to receive, [a] woken ones are on their way; when tasks wait
    to send, [b] are. *)
Definition counted (L : mq) (q a b : Z) : Prop :=
  (on (AUX_QUEUES (KD L)) (WAITING_READERS q) <> [] -> a <= tally woken_receiver L q) /\
  (on (AUX_QUEUES (KD L)) (WAITING_WRITERS q) <> [] -> b <= tally woken_sender L q).

(** What is owed to [q], but for [dr] receivers and [ds] senders. *)
Definition owed (L : mq) (q dr ds : Z) : Prop :=
  forall v, QS L !! q = Some v -> QVALID v = LWMSGQ_VALID ->
    counted L q (CURRENT_SIZE v - dr) (MAX_SIZE v - CURRENT_SIZE v - ds).

Definition owed_all (L : mq) : Prop := forall q, owed L q 0 0.
Definition others (L : mq) (q : Z) : Prop := forall q', q' <> q -> owed L q' 0 0.

Definition xinv (idle : Z) (L : mq) (s : fifos) : Prop :=
  sys idle (KD L) /\ base idle L s /\ listed L /\ owed_all L.

(** *** Tallies *)

Lemma tally_ext f L L' q : dom (TD (KD L')) = dom (TD (KD L)) ->
  (forall u, f L' q u = f L q u) -> tally f L' q = tally f L q.
Proof. intros Hd He. unfold tally. rewrite Hd. apply count_ext_in. auto. Qed.

Lemma tally_gain f L L' q t : dom (TD (KD L')) = dom (TD (KD L)) -> is_Some (TD (KD L) !! t) ->
  f L q t = false -> f L' q t = true -> (forall u, u <> t -> f L q u = f L' q u) ->
  tally f L' q = tally f L q + 1.
Proof.
  intros Hd Ht H1 H2 He. unfold tally. rewrite Hd.
  apply (count_flip _ _ _ t); [apply NoDup_elements| |done..].
  by rewrite elem_of_elements, elem_of_dom.
Qed.

Lemma tally_nonneg f L q : 0 <= tally f L q.
Proof. apply count_nonneg. Qed.

(** Only [t] changes. *)
Lemma tally_at f L L' q t : dom (TD (KD L')) = dom (TD (KD L)) -> is_Some (TD (KD L) !! t) ->
  (forall u, u <> t -> f L q u = f L' q u) ->
  tally f L' q = tally f L q + (if f L' q t then 1 else 0) - (if f L q t then 1 else 0).
Proof.
  intros Hd Ht He. destruct (f L' q t) eqn:E2, (f L q t) eqn:E1.
  - rewrite (tally_ext f L L' q); [lia|done|]. intros u. destruct (decide (u = t)) as [->|]; [congruence|].
    symmetry. by apply He.
  - rewrite (tally_gain f L L' q t); [lia|done..].
  - assert (tally f L q = tally f L' q + 1); [|lia].
    apply (tally_gain f L' L q t); [done|by rewrite <-elem_of_dom, Hd, elem_of_dom|done|done|].
    intros u Hu. symmetry. by apply He.
  - rewrite (tally_ext f L L' q); [lia|done|]. intros u. destruct (decide (u = t)) as [->|]; [congruence|].
    symmetry. by apply He.
Qed.

Lemma woken_local L L' q t : (forall u, u <> t -> PC L' !! u = PC L !! u) ->
  (forall u, u <> t -> TD (KD L') !! u = TD (KD L) !! u) ->
  forall u, u <> t -> woken_receiver L q u = woken_receiver L' q u /\ woken_sender L q u = woken_sender L' q u.
Proof. intros H1 H2 u Hu. unfold woken_receiver, woken_sender. by rewrite H1, H2. Qed.

(** A task that is inside no function, or waits, is not counted. *)
Lemma woken_none L q t : PC L !! t = None ->
  woken_receiver L q t = false /\ woken_sender L q t = false.
Proof. unfold woken_receiver, woken_sender. by intros ->. Qed.

Lemma woken_waiting L q t d : TD (KD L) !! t = Some d -> Z.testbit (STATE d) 10 = true ->
  woken_receiver L q t = false /\ woken_sender L q t = false.
Proof.
  unfold woken_receiver, woken_sender. intros -> ->. cbn.
  destruct (PC L !! t) as [[]|]; by rewrite ?andb_false_r.
Qed.

(** ** Kernel calls *)

Lemma queues_apart idle L s q q' v v' : base idle L s -> QS L !! q = Some v -> QS L !! q' = Some v' ->
  WAITING_READERS q <> WAITING_WRITERS q' /\
  (WAITING_READERS q = WAITING_READERS q' -> q = q') /\ (WAITING_WRITERS q = WAITING_WRITERS q' -> q = q').
Proof.
  intros Hb Hv Hv'. unfold WAITING_READERS, WAITING_WRITERS. split; [|split; lia].
  destruct (decide (q' = q)) as [->|Hne]; [lia|].
  destruct (b_ring _ _ _ Hb q v Hv) as (l & r & _ & [_ R2 R3 _ _ R6]).
  destruct (b_ring _ _ _ Hb q' v' Hv') as (l' & r' & _ & [_ S2 S3 _ _ S6]).
  pose proof (b_apart _ _ _ Hb q v q' v' Hv Hv' Hne) as Ha. rewrite R6, S6 in Ha.
  unfold slot, sizeof_LWMSGQ_STRUCT in Ha. nia.
Qed.

Lemma mq_wait_info idle L s t d : base idle L s -> TD (KD L) !! t = Some d -> Z.testbit (STATE d) 10 = true ->
  0 < INFO d.
Proof.
  intros Hb Hd H10. destruct (b_blocked _ _ _ Hb t d Hd H10) as (p & Hp & Hw & _).
  destruct (b_pc _ _ _ Hb t p Hp) as (_ & _ & _ & Hq). destruct p as [q b f| |q b f n k]; [|done|];
    cbn in Hw; injection Hw as <-; destruct (Hq q b eq_refl) as (v & Hv & _);
    destruct (b_ring _ _ _ Hb q v Hv) as (l & r & _ & [R1 _]);
    unfold WAITING_WRITERS, WAITING_READERS; lia.
Qed.

Lemma woken_frame idle L s k q t : base idle L s -> frame (KD L) k ->
  woken_receiver (set_KD k L) q t = woken_receiver L q t /\
  woken_sender (set_KD k L) q t = woken_sender L q t.
Proof.
  intros Hb Hf. unfold woken_receiver, woken_sender. cbn. specialize (Hf t).
  destruct (TD (KD L) !! t) as [d|] eqn:Ed, (TD k !! t) as [d'|] eqn:Ed'; try done.
  destruct Hf as (U1 & U2 & U3 & _). rewrite U1. destruct (Z.testbit (STATE d) 10) eqn:E.
  - pose proof (mq_wait_info _ _ _ _ _ Hb Ed E) as Hi.
    rewrite (proj2 (Z.eqb_neq (INFO d) 0)) by lia.
    destruct (PC L !! t) as [[]|]; by rewrite ?andb_false_r.
  - by rewrite (U3 eq_refl).
Qed.

Lemma aux_frame k k' s t : kinv k -> kinv k' -> frame k k' ->
  t ∈ on (AUX_QUEUES k') s -> t ∈ on (AUX_QUEUES k) s.
Proof.
  intros Hs Hs' Hf Ht. apply in_aux in Ht as (d' & Hd' & H10 & HI); [|done].
  destruct (frame_td' _ _ _ _ Hf Hd') as (d & Hd & U1 & U2 & U3 & _).
  apply in_aux; [done|]. exists d. split_and!; [done| |congruence].
  destruct (Z.testbit (STATE d) 10) eqn:E; [done|]. by rewrite (U3 eq_refl) in H10.
Qed.

Lemma aux_some (k k' : kernel) s : (forall t, t ∈ on (AUX_QUEUES k') s -> t ∈ on (AUX_QUEUES k) s) ->
  on (AUX_QUEUES k') s <> [] -> on (AUX_QUEUES k) s <> [].
Proof.
  intros H Hx He. destruct (on (AUX_QUEUES k') s) as [|t l] eqn:E; [done|].
  assert (t ∈ on (AUX_QUEUES k) s) as Ht by (apply H; set_solver).
  rewrite He in Ht. by apply elem_of_nil in Ht.
Qed.

Lemma counted_less L q a b a' b' : a' <= a -> b' <= b -> counted L q a b -> counted L q a' b'.
Proof. intros Ha Hb [C1 C2]. split; intros Hx; [specialize (C1 Hx)|specialize (C2 Hx)]; lia. Qed.

Lemma owed_less L q dr ds dr' ds' : dr <= dr' -> ds <= ds' -> owed L q dr ds -> owed L q dr' ds'.
Proof. intros H1 H2 Ho v Hv Hva. eapply counted_less; [| |by apply Ho]; lia. Qed.

Lemma owed_join L q : others L q -> owed L q 0 0 -> owed_all L.
Proof. intros Ho Hq q'. destruct (decide (q' = q)) as [->|]; auto. Qed.

(** No task starts to wait, and no tally goes down. *)
Lemma counted_mono L L' q a b :
  (forall s t, t ∈ on (AUX_QUEUES (KD L')) s -> t ∈ on (AUX_QUEUES (KD L)) s) ->
  tally woken_receiver L q <= tally woken_receiver L' q ->
  tally woken_sender L q <= tally woken_sender L' q ->
  counted L q a b -> counted L' q a b.
Proof.
  intros Ha H1 H2 [C1 C2]. split; intros Hx.
  - apply (aux_some (KD L)) in Hx; [|auto]. specialize (C1 Hx). lia.
  - apply (aux_some (KD L)) in Hx; [|auto]. specialize (C2 Hx). lia.
Qed.

Lemma mq_base_frame idle L s k : base idle L s -> kinv k -> frame (KD L) k -> base idle (set_KD k L) s.
Proof.
  intros [H1 H2 H3 H4 H5] Hs Hf. split; try done; cbn.
  - intros t d' Hd' H10. destruct (frame_td' _ _ _ _ Hf Hd') as (d & Hd & U1 & U2 & U3 & _).
    destruct (Z.testbit (STATE d) 10) eqn:E; [|by rewrite (U3 eq_refl) in H10].
    destruct (H2 t d Hd E) as (p & Hp & Hw & H8). exists p. split_and!; [done|congruence|].
    destruct (U2 eq_refl) as [->|[_ E']]; [done|congruence].
  - intros t p Hp. destruct (H3 t p Hp) as ([d Hd] & Hr). split; [|done].
    destruct (frame_td _ _ _ _ Hf Hd) as (d' & -> & _). by eexists.
Qed.

Lemma counted_frame idle L s k q a b : base idle L s -> kinv k -> frame (KD L) k ->
  counted L q a b -> counted (set_KD k L) q a b.
Proof.
  intros Hb Hs Hf. assert (dom (TD k) = dom (TD (KD L))) as Hd by (by apply frame_dom).
  apply counted_mono.
  - intros x t. by apply aux_frame; [apply Hb|..].
  - rewrite (tally_ext _ L (set_KD k L) q); [lia|done|]. intros u. by apply (woken_frame idle L s k q u).
  - rewrite (tally_ext _ L (set_KD k L) q); [lia|done|]. intros u. by apply (woken_frame idle L s k q u).
Qed.

Lemma owed_frame idle L s k q dr ds : base idle L s -> kinv k -> frame (KD L) k ->
  owed L q dr ds -> owed (set_KD k L) q dr ds.
Proof. intros Hb Hk Hf Ho v Hv Hva. eapply counted_frame; [done..|]. by apply Ho. Qed.

Lemma xinv_frame idle L s k : xinv idle L s -> sys idle k -> frame (KD L) k -> xinv idle (set_KD k L) s.
Proof.
  intros (_ & Hb & Hl & Hc) Hs Hf. assert (kinv k) as Hk by apply Hs.
  split_and!; [done|by apply mq_base_frame|done|]. intros q. by eapply owed_frame.
Qed.

(** ** Steps of a task *)

(** Counts of zero or one. *)
Ltac tallies :=
  repeat match goal with
         | |- context [if ?b then 1 else 0] => destruct b
         | H : context [if ?b then 1 else 0] |- _ => destruct b
         end; lia.

(** *** Waking a waiter *)

Lemma waiting_pc idle L s t d : base idle L s -> TD (KD L) !! t = Some d -> Z.testbit (STATE d) 10 = true ->
  exists p q b, PC L !! t = Some p /\ pc_wait p = Some (INFO d) /\ pc_buffer p = Some (q, b) /\
    is_Some (QS L !! q) /\
    (INFO d = WAITING_WRITERS q /\ Z.testbit (STATE d) 8 = false /\ (exists m f, p = InSend q m f) \/
     INFO d = WAITING_READERS q /\ (exists m f n k, p = InReceive q m f n k)).
Proof.
  intros Hb Hd H10. destruct (b_blocked _ _ _ Hb t d Hd H10) as (p & Hp & Hw & H8).
  destruct (b_pc _ _ _ Hb t p Hp) as (_ & _ & _ & Hq).
  destruct p as [q b f| |q b f n k]; [|done|].
  - exists (InSend q b f), q, b. destruct (Hq q b eq_refl) as (v & Hv & _). split_and!; [done..|by eexists|].
    left. cbn in Hw. split_and!; [congruence| |eauto].
    destruct (Z.testbit (STATE d) 8); [|done]. by destruct (H8 eq_refl) as (? & ? & ? & ? & ? & ?).
  - exists (InReceive q b f n k), q, b. destruct (Hq q b eq_refl) as (v & Hv & _). split_and!; [done..|by eexists|].
    right. cbn in Hw. split; [congruence|eauto 6].
Qed.

Lemma waiter_td k s t l : kinv k -> on (AUX_QUEUES k) s = t :: l ->
  exists d, TD k !! t = Some d /\ Z.testbit (STATE d) 10 = true /\ INFO d = s.
Proof. intros Hk E. apply in_aux; [done|]. rewrite E. set_solver. Qed.

Section wake.
Context (idle : Z) (L : mq) (s : fifos) (x t n : Z) (d : td) (k : kernel).
Context (Hb : base idle L s) (Hd : TD (KD L) !! t = Some d) (H10 : Z.testbit (STATE d) 10 = true).
Context (Hw : woken idle x t (readied (with_INFO n (undelayed d))) (KD L) k).

Lemma wake_base : base idle (set_KD k L) s.
Proof.
  pose proof (wk_td _ _ _ _ _ _ Hw) as Ht. destruct Hb as [H1 H2 H3 H4 H5]. split; try done; cbn.
  - apply (wk_pre _ _ _ _ _ _ Hw).
  - intros u e. rewrite Ht, lookup_insert. case_decide; [by intros [= <-]|by apply H2].
  - intros u p Hp. destruct (H3 u p Hp) as [Hu Hr]. split; [|done]. rewrite Ht, lookup_insert.
    case_decide; [by eexists|done].
Qed.

Lemma wake_aux y u : u ∈ on (AUX_QUEUES k) y -> u ∈ on (AUX_QUEUES (KD L)) y.
Proof.
  pose proof (wk_td _ _ _ _ _ _ Hw) as Ht. intros Hu.
  apply in_aux in Hu as (e & He & Hbt & Hi); [|apply (wk_pre _ _ _ _ _ _ Hw)].
  rewrite Ht, lookup_insert in He. case_decide; [by simplify_eq|].
  apply in_aux; [apply Hb|eauto].
Qed.

Lemma wake_dom : dom (TD k) = dom (TD (KD L)).
Proof.
  rewrite (wk_td _ _ _ _ _ _ Hw), dom_insert_L. apply elem_of_dom_2 in Hd. set_solver.
Qed.

Lemma wake_same q u : u <> t ->
  woken_receiver L q u = woken_receiver (set_KD k L) q u /\
  woken_sender L q u = woken_sender (set_KD k L) q u.
Proof.
  apply woken_local; [done|]. intros v Hv. cbn. by rewrite (wk_td _ _ _ _ _ _ Hw), lookup_insert_ne.
Qed.

Lemma wake_tally q :
  tally woken_receiver (set_KD k L) q =
    tally woken_receiver L q + (if woken_receiver (set_KD k L) q t then 1 else 0) /\
  tally woken_sender (set_KD k L) q =
    tally woken_sender L q + (if woken_sender (set_KD k L) q t then 1 else 0).
Proof.
  destruct (woken_waiting L q t d Hd H10) as [E1 E2]. pose proof wake_dom as Hdm.
  rewrite (tally_at woken_receiver L (set_KD k L) q t), (tally_at woken_sender L (set_KD k L) q t), E1, E2;
    [split; lia|done|by eexists|intros; by apply wake_same|done|by eexists|intros; by apply wake_same].
Qed.

Lemma wake_counted q a b : counted L q a b -> counted (set_KD k L) q a b.
Proof.
  destruct (wake_tally q) as [E1 E2]. apply counted_mono; [exact wake_aux| |]; tallies.
Qed.

(** A receiver is on its way. *)
Lemma wake_receiver q a b : n = 0 -> INFO d = WAITING_READERS q -> is_Some (QS L !! q) ->
  counted L q a b -> counted (set_KD k L) q (a + 1) b.
Proof.
  intros Hn Hi [v Hv] [C1 C2]. destruct (wake_tally q) as [E1 E2].
  destruct (waiting_pc idle L s t d Hb Hd H10) as (p & q' & b' & Hp & _ & _ & [v' Hv'] & Hor).
  destruct (queues_apart idle L s q q' v v' Hb Hv Hv') as (N1 & N2 & _).
  destruct Hor as [(Hi' & _)|(Hi' & m & f & n' & kk & ->)]; [congruence|].
  assert (q' = q) as -> by (symmetry; apply N2; congruence).
  assert (woken_receiver (set_KD k L) q t = true) as E.
  { unfold woken_receiver. cbn. rewrite Hp, (wk_td _ _ _ _ _ _ Hw), lookup_insert, decide_True by done.
    cbn. rewrite Hn, Z.eqb_refl. done. }
  rewrite E in E1. split; intros Hx.
  - apply (aux_some (KD L)) in Hx; [|apply wake_aux]. specialize (C1 Hx). lia.
  - apply (aux_some (KD L)) in Hx; [|apply wake_aux]. specialize (C2 Hx). tallies.
Qed.

(** A sender is. *)
Lemma wake_sender q a b : n = 0 -> INFO d = WAITING_WRITERS q -> is_Some (QS L !! q) ->
  counted L q a b -> counted (set_KD k L) q a (b + 1).
Proof.
  intros Hn Hi [v Hv] [C1 C2]. destruct (wake_tally q) as [E1 E2].
  destruct (waiting_pc idle L s t d Hb Hd H10) as (p & q' & b' & Hp & _ & _ & [v' Hv'] & Hor).
  destruct (queues_apart idle L s q' q v' v Hb Hv' Hv) as (N1 & _ & N3).
  destruct Hor as [(Hi' & _ & m & f & ->)|(Hi' & _)]; [|congruence].
  assert (q' = q) as -> by (apply N3; congruence).
  assert (woken_sender (set_KD k L) q t = true) as E.
  { unfold woken_sender. cbn. rewrite Hp, (wk_td _ _ _ _ _ _ Hw), lookup_insert, decide_True by done.
    cbn. rewrite Hn, Z.eqb_refl. done. }
  rewrite E in E2. split; intros Hx.
  - apply (aux_some (KD L)) in Hx; [|apply wake_aux]. specialize (C1 Hx). tallies.
  - apply (aux_some (KD L)) in Hx; [|apply wake_aux]. specialize (C2 Hx). lia.
Qed.
End wake.

(** *** Entering and leaving a function *)

Lemma pc_frame L q t f : (forall u, u <> t -> f (PC L) !! u = PC L !! u) -> is_Some (TD (KD L) !! t) ->
  forall g, g = woken_receiver \/ g = woken_sender ->
  tally g (set_PC f L) q = tally g L q + (if g (set_PC f L) q t then 1 else 0) - (if g L q t then 1 else 0).
Proof.
  intros Hf Ht g Hg. apply tally_at; [done|done|]. intros u Hu.
  destruct (woken_local L (set_PC f L) q t Hf (fun _ _ => eq_refl) u Hu) as [E1 E2].
  by destruct Hg as [->| ->].
Qed.

Definition enters (idle : Z) (L : mq) (t : Z) (p : pc) : Prop :=
  t <> idle /\ pc_timeout p /\
  (forall q b, pc_buffer p = Some (q, b) -> exists v, QS L !! q = Some v /\ buffer_ok L (MSG_SIZE v) b).

Lemma enter_base idle L s t p : base idle L s -> is_ready (KD L) t -> enters idle L t p ->
  base idle (set_PC (<[t := p]>) L) s.
Proof.
  intros [H1 H2 H3 H4 H5] (d & Hd & Hr) (E1 & E2 & E3). split; try done; cbn.
  - intros u e He Hbt. rewrite lookup_insert_ne; [by apply H2|]. intros <-. simplify_eq. by rewrite Hr in Hbt.
  - intros u p'. rewrite lookup_insert. case_decide; [|by apply H3]. subst u. intros [= <-].
    split; [by eexists|done].
Qed.

Lemma enter_counted L q t p a b : PC L !! t = None -> is_Some (TD (KD L) !! t) ->
  counted L q a b -> counted (set_PC (<[t := p]>) L) q a b.
Proof.
  intros Hp Ht. destruct (woken_none L q t Hp) as [E1 E2].
  assert (forall u, u <> t -> <[t:=p]> (PC L) !! u = PC L !! u) as Hf
    by (intros u Hu; by rewrite lookup_insert_ne).
  apply counted_mono; [done|rewrite (pc_frame L q t _ Hf Ht woken_receiver), E1 by auto
                           |rewrite (pc_frame L q t _ Hf Ht woken_sender), E2 by auto]; tallies.
Qed.

Lemma leave_base idle L s t : base idle L s -> is_ready (KD L) t -> base idle (set_PC (delete t) L) s.
Proof.
  intros [H1 H2 H3 H4 H5] (d & Hd & Hr). split; try done; cbn.
  - intros u e He Hbt. rewrite lookup_delete_ne; [by apply H2|]. intros <-. simplify_eq. by rewrite Hr in Hbt.
  - intros u p'. rewrite lookup_delete. case_decide; [done|]. by apply H3.
Qed.

(** A task that was on its way is not any more. *)
Lemma leave_counted L q t a b : is_Some (TD (KD L) !! t) -> counted L q a b ->
  counted (set_PC (delete t) L) q (a - if woken_receiver L q t then 1 else 0)
                                  (b - if woken_sender L q t then 1 else 0).
Proof.
  intros Ht [C1 C2].
  assert (forall u, u <> t -> delete t (PC L) !! u = PC L !! u) as Hf
    by (intros u Hu; by rewrite lookup_delete_ne).
  destruct (woken_none (set_PC (delete t) L) q t) as [E1 E2].
  { cbn. by rewrite lookup_delete, decide_True. }
  split; intros Hx.
  - rewrite (pc_frame L q t _ Hf Ht woken_receiver), E1 by auto. specialize (C1 Hx). lia.
  - rewrite (pc_frame L q t _ Hf Ht woken_sender), E2 by auto. specialize (C2 Hx). lia.
Qed.

(** *** Blocking *)

Section block.
Context (idle : Z) (L : mq) (s : fifos) (w : Z) (p : pc) (d' : td) (k : kernel).
Local Abbreviation t := (ACTIVE_PTR (KD L)).
Local Abbreviation L2 := (set_KD k (set_PC (<[t := p]>) L)).
Context (Hs : sys idle (KD L)) (Hb : base idle L s) (Hf : PC L !! t = None) (He : enters idle L t p).
Context (H10 : Z.testbit (STATE d') 10 = true) (HI : INFO d' = w) (Hw : pc_wait p = Some w).
Context (H8 : Z.testbit (STATE d') 8 = true -> exists q m f n kk, p = InReceive q m f n kk).
Context (Hk : blocked_by idle w t d' (KD L) k).

Lemma block_base : base idle L2 s.
Proof.
  pose proof (bb_td _ _ _ _ _ _ Hk) as Ht.
  destruct (enter_base idle L s t p Hb (sys_run _ _ Hs) He) as [H1 H2 H3 H4 H5]. split; try done.
  - apply (bb_sys _ _ _ _ _ _ Hk).
  - intros u e. cbn. rewrite Ht, lookup_insert. case_decide as Hu.
    + intros [= <-] _. subst u. exists p. rewrite lookup_insert, decide_True by done. by rewrite HI.
    + apply H2.
  - intros u p' Hp'. destruct (H3 u p' Hp') as [Hu Hr]. split; [|done]. cbn. rewrite Ht, lookup_insert.
    case_decide; [by eexists|done].
Qed.

Lemma block_tally q : tally woken_receiver L2 q = tally woken_receiver L q /\
  tally woken_sender L2 q = tally woken_sender L q.
Proof.
  pose proof (bb_td _ _ _ _ _ _ Hk) as Ht. destruct (sys_run _ _ Hs) as (d & Hd & _).
  assert (dom (TD (KD L2)) = dom (TD (KD L))) as Hdm.
  { cbn. rewrite Ht, dom_insert_L. apply elem_of_dom_2 in Hd. set_solver. }
  destruct (woken_none L q t Hf) as [E1 E2].
  assert (TD (KD L2) !! t = Some d') as Hd' by (cbn; by rewrite Ht, lookup_insert, decide_True).
  destruct (woken_waiting L2 q t d' Hd' H10) as [E3 E4].
  assert (forall u, u <> t -> woken_receiver L q u = woken_receiver L2 q u /\
                              woken_sender L q u = woken_sender L2 q u) as Hsm.
  { apply woken_local; intros u Hu; cbn; [|rewrite Ht]; by rewrite lookup_insert_ne. }
  rewrite (tally_at woken_receiver L L2 q t), (tally_at woken_sender L L2 q t), E1, E2, E3, E4;
    [split; lia|done|by eexists|intros; by apply Hsm|done|by eexists|intros; by apply Hsm].
Qed.

(** The queue of tasks need not have been empty: then nothing may be owed. *)
Lemma block_counted q a b : (w = WAITING_READERS q -> a <= 0) -> (w = WAITING_WRITERS q -> b <= 0) ->
  counted L q a b -> counted L2 q a b.
Proof.
  intros Ha Hbb [C1 C2]. destruct (block_tally q) as [E1 E2]. unfold counted. rewrite E1, E2.
  pose proof (tally_nonneg woken_receiver L q). pose proof (tally_nonneg woken_sender L q).
  cbn. rewrite (bb_aux _ _ _ _ _ _ Hk), !on_insert.
  split; case_decide as Hx; intros Hy; [specialize (Ha Hx); lia|auto|specialize (Hbb Hx); lia|auto].
Qed.

Lemma block_xinv q : listed L -> others L q -> owed L q 0 0 ->
  (forall q', is_Some (QS L !! q') -> w = WAITING_READERS q' \/ w = WAITING_WRITERS q' -> q' = q) ->
  (forall v, QS L !! q = Some v -> w = WAITING_READERS q -> CURRENT_SIZE v <= 0) ->
  (forall v, QS L !! q = Some v -> w = WAITING_WRITERS q -> MAX_SIZE v <= CURRENT_SIZE v) ->
  xinv idle L2 s.
Proof.
  intros Hl Ho Hq Hu Hr Hwr. split_and!; [apply Hk|apply block_base|done|].
  intros q' v Hv Hva. destruct (decide (q' = q)) as [->|Hne].
  - apply block_counted; [intros E; specialize (Hr v Hv E); lia|intros E; specialize (Hwr v Hv E); lia|].
    by apply Hq.
  - apply block_counted; [intros E; destruct Hne; apply Hu; [by eexists|auto]..|]. by apply Ho.
Qed.
End block.

Lemma get_q_run q v L : QS L !! q = Some v -> get_q q L = Some (v, L).
Proof. intros H. unfold get_q. by rewrite H. Qed.

(** Only one queue of tasks has the address. *)
Lemma one_queue idle L s q v : base idle L s -> QS L !! q = Some v ->
  forall q', is_Some (QS L !! q') ->
  (WAITING_READERS q = WAITING_READERS q' \/ WAITING_READERS q = WAITING_WRITERS q' -> q' = q) /\
  (WAITING_WRITERS q = WAITING_READERS q' \/ WAITING_WRITERS q = WAITING_WRITERS q' -> q' = q).
Proof.
  intros Hb Hv q' [v' Hv']. pose proof (queues_apart _ _ _ _ _ _ _ Hb Hv Hv') as (N1 & N2 & N3).
  pose proof (queues_apart _ _ _ _ _ _ _ Hb Hv' Hv) as (N4 & _). split; intros [E|E]; symmetry; auto; done.
Qed.

Lemma read_state : waiting_state LWMSGQ_READ_BLOCKED.
Proof. by split_and!. Qed.
Lemma write_state : waiting_state LWMSGQ_WRITE_BLOCKED.
Proof. by split_and!. Qed.

(** A task of the program calls: it is inside no function. *)
Record caller (idle : Z) (L : mq) : Prop := {
  cl_isr : IN_ISR (KD L) = 0;
  cl_idle : ACTIVE_PTR (KD L) <> idle;
  cl_pc : PC L !! ACTIVE_PTR (KD L) = None
}.

Lemma receive_block_good idle L s q message flags n tick_ptr v :
  sys idle (KD L) -> base idle L s -> listed L -> caller idle L -> others L q -> owed L q 1 0 ->
  QS L !! q = Some v -> CURRENT_SIZE v = 0 -> timeout_ok flags n tick_ptr -> buffer_ok L (MSG_SIZE v) message ->
  wp False (receive_block q message flags n tick_ptr) L (fun o L' => o = Waits /\ xinv idle L' s).
Proof.
  intros Hs Hb Hl [Hi Hne Hp] Ho Hq Hv Hc Ht Hbuf. set (t := ACTIVE_PTR (KD L)) in *.
  destruct (sys_run _ _ Hs) as (d & Hd & Hr). fold t in Hd.
  set (p := InReceive q message flags n tick_ptr).
  assert (enters idle L t p) as He by (split_and!; [done|done|intros ? ? [= <- <-]; eauto]).
  assert (owed L q 0 0) as Hq0.
  { intros v' Hv' Hva. simplify_eq. destruct (Hq v Hv Hva) as [_ C2].
    split; [|exact C2]. pose proof (tally_nonneg woken_receiver L q). lia. }
  assert (forall k d', Z.testbit (STATE d') 10 = true -> INFO d' = WAITING_READERS q ->
    blocked_by idle (WAITING_READERS q) t d' (KD L) k -> xinv idle (set_KD k (set_PC (<[t := p]>) L)) s) as Hx.
  { intros k d' H10 HI Hk. eapply (block_xinv _ _ _ _ _ _ _ Hs Hb Hp He H10 HI); [done| |exact Hk|done..| | |].
    - intros _. unfold p. eauto 6.
    - intros q' Hq'. by apply (one_queue idle L s q v Hb Hv).
    - intros v' Hv' _. simplify_eq. lia.
    - intros v' Hv' E. destruct (queues_apart _ _ _ q q v v Hb Hv Hv) as [N _]. done. }
  unfold receive_block. eapply wp_run; [apply zoom_active|]. fold t p.
  eapply wp_run; [done|]. set (L1 := set_PC _ L).
  destruct (block_on_run LWMSGQ_READ_BLOCKED (KD L1) (WAITING_READERS q) t d read_state) as [E1 _];
    [apply Hs|done|done|].
  eapply wp_run; [by apply kern_run|]. set (k1 := block_k _ _ _ _ _).
  destruct (timed flags n) eqn:Et.
  - assert (TD k1 !! t = Some (blocked_on LWMSGQ_READ_BLOCKED (WAITING_READERS q) d)) as Hd1
      by (cbn; by rewrite lookup_insert, decide_True).
    apply wp_bind. eapply wp_run; [by apply kern_run|]. eapply wp_run; [by apply kern_run, get_td_run|].
    assert (exists m, receive_timeout (CLOCK k1) flags n tick_ptr (TIMEOUT d) = Some m) as [m Em].
    { unfold receive_timeout. destruct (Z.eqb_spec n 0) as [->|]; [|by eexists]. cbn [negb].
      destruct (Ht Et eq_refl) as [tk ->]. case_if; by eexists. }
    eapply wp_run; [unfold lift_opt; match goal with |- context [receive_timeout ?c _ _ _ ?o] =>
      change (receive_timeout c flags n tick_ptr o) with (receive_timeout (CLOCK k1) flags n tick_ptr (TIMEOUT d)) end;
      by rewrite Em|].
    eapply wp_run; [apply kern_run, block_timeout|].
    destruct (block_delay idle LWMSGQ_READ_BLOCKED (WAITING_READERS q) (KD L) d m read_state Hs Hi Hne Hd)
      as (k' & E & Hk).
    eapply wp_end; [apply kern_run; exact E|]. split; [done|].
    by apply (Hx k' (delayed_on LWMSGQ_READ_BLOCKED (WAITING_READERS q) m d)).
  - apply wp_bind. destruct (block_exec idle LWMSGQ_READ_BLOCKED (WAITING_READERS q) (KD L) d read_state Hs Hi Hne Hd)
      as (k' & E & Hk). fold t in E. rewrite (bind_run _ _ _ _ _ E1) in E.
    eapply wp_end; [apply kern_run; exact E|]. split; [done|].
    by apply (Hx k' (blocked_on LWMSGQ_READ_BLOCKED (WAITING_READERS q) d)).
Qed.

Lemma upd_upd {A} t (f g : td -> td) (m : M kernel A) k d : TD k !! t = Some d ->
  (upd_td t g;; m) (set_TD (<[t := f d]>) k) = (upd_td t (fun d => g (f d));; m) k.
Proof.
  intros Hd. rewrite (bind_run _ _ _ _ _ (upd_td_run t _ d k Hd)).
  erewrite bind_run; [|apply (upd_td_run t g (f d)); cbn; by rewrite lookup_insert, decide_True].
  f_equal. unfold set_TD. cbn. by rewrite insert_insert, decide_True.
Qed.

(** A sender, on its first time. *)
Lemma send_block_good idle L s q message flags v :
  sys idle (KD L) -> base idle L s -> listed L -> caller idle L -> others L q -> owed L q 0 1 ->
  QS L !! q = Some v -> MAX_SIZE v <= CURRENT_SIZE v -> buffer_ok L (MSG_SIZE v) message ->
  wp False (kern (upd_td (ACTIVE_PTR (KD L)) (with_STATE LWMSGQ_WRITE_BLOCKED));; send_block q message flags) L
    (fun o L' => o = Waits /\ xinv idle L' s).
Proof.
  intros Hs Hb Hl [Hi Hne Hp] Ho Hq Hv Hc Hbuf. set (t := ACTIVE_PTR (KD L)) in *.
  destruct (sys_run _ _ Hs) as (d & Hd & Hr). fold t in Hd.
  set (p := InSend q message flags).
  assert (enters idle L t p) as He by (split_and!; [done|done|intros ? ? [= <- <-]; eauto]).
  assert (owed L q 0 0) as Hq0.
  { intros v' Hv' Hva. simplify_eq. destruct (Hq v Hv Hva) as [C1 _].
    split; [exact C1|]. pose proof (tally_nonneg woken_sender L q). lia. }
  destruct (block_exec idle LWMSGQ_WRITE_BLOCKED (WAITING_WRITERS q) (KD L) d write_state Hs Hi Hne Hd)
    as (k' & E & Hk). fold t in E, Hk.
  assert (xinv idle (set_KD k' (set_PC (<[t := p]>) L)) s) as Hx.
  { eapply (block_xinv _ _ _ _ p (blocked_on LWMSGQ_WRITE_BLOCKED (WAITING_WRITERS q) d) _ Hs Hb Hp He);
      [done|done|done|done|exact Hk|done|done|done| | |].
    - intros q' Hq' Hor. by apply (one_queue idle L s q v Hb Hv).
    - intros v' Hv' E'. by destruct (queues_apart _ _ _ q q v v Hb Hv Hv) as [N _].
    - intros v' Hv' _. by simplify_eq. }
  eapply wp_run; [by apply kern_run, upd_td_run|]. unfold send_block.
  eapply wp_run; [apply zoom_active|]. eapply wp_run; [done|].
  eapply wp_run; [|split; [done|exact Hx]].
  erewrite (kern_run _ _ tt k'); [done|]. rewrite <-E. unfold block_on. rewrite bind_assoc.
  by apply (upd_upd t (with_STATE LWMSGQ_WRITE_BLOCKED) (with_INFO (WAITING_WRITERS q))).
Qed.

(** *** Moving a message *)

Definition with_ring (q : Z) (v : msgq) (m : gmap Z Z) (L : mq) : mq :=
  set_QS (<[q := v]>) (set_MEM (fun _ => m) L).

Lemma buffer_with_ring L q v v' m n b : QS L !! q = Some v -> MSG_END_LOC v' = MSG_END_LOC v ->
  dom m = dom (MEM L) -> buffer_ok L n b -> buffer_ok (with_ring q v' m L) n b.
Proof.
  intros Hv He Hm Hb i Hi. destruct (Hb i Hi) as [H1 H2]. split.
  - change (is_Some (m !! (b + 4 * i))). by rewrite <-elem_of_dom, Hm, elem_of_dom.
  - cbn [QS with_ring set_QS]. intros q2 v2. rewrite lookup_insert. case_decide; [|apply H2]. subst q2. intros [= <-].
    unfold in_region. rewrite He. by apply H2.
Qed.

Lemma base_ring idle L s q v v' l r m : base idle L s -> QS L !! q = Some v ->
  MSG_END_LOC v' = MSG_END_LOC v -> MSG_SIZE v' = MSG_SIZE v -> dom m = dom (MEM L) ->
  (forall q2 v2 a, q2 <> q -> QS L !! q2 = Some v2 -> in_region q2 v2 a -> m !! a = MEM L !! a) ->
  ring m q v' l r -> base idle (with_ring q v' m L) (<[q := (MAX_SIZE v', l)]> s).
Proof.
  intros [H1 H2 H3 H4 H5] Hv He Hz Hd Ho Hr. split; try done; cbn.
  - intros t p Hp. destruct (H3 t p Hp) as (B1 & B2 & B3 & B4). split_and!; [done..|].
    intros q2 b Hqb. destruct (B4 q2 b Hqb) as (v2 & Hv2 & Hbuf). rewrite lookup_insert. case_decide.
    + subst q2. simplify_eq. exists v'. split; [done|]. rewrite Hz. by eapply buffer_with_ring.
    + exists v2. split; [done|]. by eapply buffer_with_ring.
  - intros q2 v2. rewrite lookup_insert. case_decide.
    + subst q2. intros [= <-]. exists l, r. split; [|done]. apply lookup_insert_eq.
    + intros Hv2. destruct (H4 q2 v2 Hv2) as (l2 & r2 & E & Hr2). exists l2, r2.
      rewrite lookup_insert_ne by done. split; [done|].
      eapply ring_ext; [done|done|]. intros a Ha. by eapply Ho.
  - intros q1 v1 q2 v2. rewrite !lookup_insert. case_decide; case_decide; subst.
    + done.
    + intros [= <-] Hv2 Hne. rewrite He. by apply (H5 q1 v q2 v2).
    + intros Hv1 [= <-] Hne. rewrite He. by apply (H5 q1 v1 q2 v).
    + apply H5.
Qed.

Lemma others_with_ring L q v m : others L q -> others (with_ring q v m L) q.
Proof. intros Ho q' Hne v'. cbn. rewrite lookup_insert_ne by done. apply (Ho q' Hne). Qed.

Lemma owed_with_ring L q v v' m dr ds dr' ds' : QS L !! q = Some v -> QVALID v' = QVALID v ->
  CURRENT_SIZE v' - dr' = CURRENT_SIZE v - dr ->
  MAX_SIZE v' - CURRENT_SIZE v' - ds' = MAX_SIZE v - CURRENT_SIZE v - ds ->
  owed L q dr ds -> owed (with_ring q v' m L) q dr' ds'.
Proof.
  intros Hv Hva E1 E2 Ho v2. cbn. rewrite lookup_insert, decide_True by done. intros [= <-] Hv2.
  rewrite E1, E2. apply (Ho v Hv). by rewrite <-Hva.
Qed.

Lemma listed_with_ring L q v v' m : QS L !! q = Some v -> QVALID v' = QVALID v -> listed L ->
  listed (with_ring q v' m L).
Proof.
  intros Hv Hva Hl q2. rewrite (Hl q2). cbn. rewrite lookup_insert. case_decide; [|done]. subst q2.
  split; intros (v2 & E & Ev); simplify_eq; eexists; split; try done; congruence.
Qed.

Lemma region_slot q v m l r i j : ring m q v l r -> 0 <= i < MAX_SIZE v -> 0 <= j < MSG_SIZE v ->
  in_region q v (slot q (MSG_SIZE v) i + 4 * j) /\ is_Some (m !! (slot q (MSG_SIZE v) i + 4 * j)).
Proof.
  intros [R1 R2 R3 R4 R5 R6 R7 R8 R9 R10 R11 R12 R13 R14] Hi Hj.
  destruct (slot_in q (MSG_SIZE v) (MAX_SIZE v) i j) as (x & Hx & ->); [lia..|].
  split; [|by apply R13]. unfold in_region. rewrite R6. unfold slot, sizeof_LWMSGQ_STRUCT. lia.
Qed.

Lemma apart_region idle L s q v q2 v2 a : base idle L s -> QS L !! q = Some v -> QS L !! q2 = Some v2 ->
  q2 <> q -> in_region q v a -> ~ in_region q2 v2 a.
Proof.
  intros Hb Hv Hv2 Hne. unfold in_region. destruct (b_apart _ _ _ Hb q v q2 v2 Hv Hv2 Hne); lia.
Qed.

(** *** Ending a call *)

Record ending (idle : Z) (L : mq) (s : fifos) : Prop := {
  en_pre : pre idle (KD L);
  en_run : is_ready (KD L) (ACTIVE_PTR (KD L));
  en_base : base idle L s;
  en_listed : listed L;
  en_owed : owed_all L
}.

Lemma sys_ending idle L s : sys idle (KD L) -> base idle L s -> listed L -> owed_all L -> ending idle L s.
Proof. by intros []. Qed.

Lemma ending_frame idle L s k : ending idle L s -> sys idle k -> frame (KD L) k -> xinv idle (set_KD k L) s.
Proof.
  intros [] Hs Hf. assert (kinv k) by apply Hs.
  split_and!; [done|by apply mq_base_frame|done|]. intros q. by eapply owed_frame.
Qed.

Lemma mq_check_ending {A} idle L s (o : A) : ending idle L s ->
  wp False (kern _sched_check_scheduler_internal;; mret o) L (fun o' L' =>
    o' = o /\ xinv idle L' s /\ QS L' = QS L /\ MEM L' = MEM L).
Proof.
  intros He. pose proof He as [Hp Hr _ _ _].
  destruct (check_sys idle (KD L) Hp Hr) as (k & E & Hs & Hw).
  eapply wp_run; [by apply kern_run|]. split_and!; [done| |done|done].
  eapply ending_frame; [done..|]. by apply frame_switched.
Qed.

Lemma sender_ending idle L s : ending idle L s -> caller idle L ->
  wp False block_sender L (fun o L' => o = Done /\ xinv idle L' s).
Proof.
  intros [Hp Hr Hb Hl Ho] [Hi Hne Hf]. unfold block_sender.
  eapply wp_run; [apply zoom_active|]. eapply wp_run; [done|]. set (t := ACTIVE_PTR (KD L)) in *.
  set (L1 := set_PC (<[t := InSent]>) L).
  destruct (task_block_frame idle (KD L1)) as (k & E & Hs & Hfr); [done..|].
  eapply wp_run; [apply kern_run; exact E|]. split; [done|].
  apply (ending_frame idle L1 s); [|done|done]. destruct Hr as (d & Hd & Hst). split; try done.
  - by exists d.
  - apply enter_base; [done|by exists d|]. by split_and!.
  - intros q v Hv Hva. apply enter_counted; [done|by eexists|]. by apply Ho.
Qed.

(** *** Sending and receiving *)

Lemma send_message_good idle L s q message flags v :
  sys idle (KD L) -> base idle L s -> listed L -> others L q -> owed L q 0 1 ->
  QS L !! q = Some v -> CURRENT_SIZE v < MAX_SIZE v -> buffer_ok L (MSG_SIZE v) message ->
  (has flags LWMSGQ_SEND_BLOCK_ON_SEND = true -> caller idle L) ->
  wp False (send_message q message flags) L (fun o L' => exists s',
    fifo_run s (send_events L q message o) = Some s' /\ xinv idle L' s').
Proof.
  intros Hs Hb Hl Ho Hq Hv Hlt Hbuf Hfl.
  destruct (b_ring _ _ _ Hb q v Hv) as (l & r & Es & Hr). pose proof Hr as [R1 R2 R3 R4 R5 R6 R7 R8 R9 R10 R11 R12 R13 R14].
  set (n := Z.to_nat (MSG_SIZE v)). set (wr := (r + zlen l) mod MAX_SIZE v) in *.
  assert (0 <= wr < MAX_SIZE v) as Hwr by (by apply Z.mod_pos_bound).
  assert (forall j, 0 <= j < MSG_SIZE v ->
    in_region q v (MSG_WRITE_LOC v + 4 * j) /\ is_Some (MEM L !! (MSG_WRITE_LOC v + 4 * j))) as Hsl
    by (rewrite R9; intros j Hj; by eapply region_slot).
  destruct (copy_run n (MSG_WRITE_LOC v) message L) as (m & E & Hm1 & Hm2 & Hm3).
  { intros i Hi. apply Hsl. lia. }
  { intros i Hi. apply Hbuf. lia. }
  { intros i j Hi Hj Eq. destruct (Hbuf j ltac:(lia)) as [_ Hout]. apply (Hout q v Hv).
    rewrite <-Eq. apply Hsl. lia. }
  destruct (words_some (MEM L) n message) as [msg Hmsg]; [intros i Hi; apply Hbuf; lia|].
  assert (ring m q (written v) (l ++ [msg]) r) as Hr'.
  { eapply ring_written; [done|lia|done|by rewrite <-Hmsg|]. intros a Ha. apply Hm3. intros i Hi. apply Ha. lia. }
  set (s' := <[q := (MAX_SIZE v, l ++ [msg])]> s). set (L1 := with_ring q (written v) m L).
  assert (base idle L1 s') as Hb1.
  { eapply (base_ring idle L s q v (written v)); try done.
    intros q2 v2 a Hne Hv2 Ha. apply Hm3. intros i Hi ->.
    eapply (apart_region idle L s q v q2 v2); [done|done|done|done| |done]. apply Hsl. lia. }
  assert (CURRENT_SIZE (written v) = CURRENT_SIZE v + 1) as Ec by (cbn; apply wrap_small; lia).
  assert (owed L1 q 1 0) as Hq1.
  { eapply owed_with_ring; [done|done| | |exact Hq]; rewrite Ec; cbn; lia. }
  assert (others L1 q) as Ho1 by (by apply others_with_ring).
  assert (listed L1) as Hl1 by (by eapply listed_with_ring).
  assert (forall o, o = Returned MQX_OK \/ o = Done -> fifo_run s (send_events L q message o) = Some s') as Hev.
  { intros o Hor. assert (send_events L q message o = [Sent q msg]) as ->.
    { destruct Hor as [->| ->]; unfold send_events; rewrite Hv; fold n; rewrite Hmsg; done. }
    cbn. rewrite Es. cbn. by rewrite (proj2 (Z.ltb_lt _ _)) by lia. }
  assert (forall L2, ending idle L2 s' -> IN_ISR (KD L2) = IN_ISR (KD L) -> ACTIVE_PTR (KD L2) = ACTIVE_PTR (KD L) ->
    PC L2 = PC L -> has flags LWMSGQ_SEND_BLOCK_ON_SEND = true ->
    wp False block_sender L2 (fun o L' => exists s', fifo_run s (send_events L q message o) = Some s' /\ xinv idle L' s'))
    as Hbl.
  { intros L2 He E1 E2 E3 Hf. destruct (Hfl Hf) as [C1 C2 C3].
    eapply wp_mono; [|apply (sender_ending idle L2 s' He)]; [|split; congruence].
    intros o L' [-> Hx]. exists s'. split; [apply Hev; by right|done]. }
  unfold send_message. eapply wp_run; [by apply get_q_run|]. eapply wp_run; [exact E|].
  eapply wp_run; [done|]. eapply wp_run; [done|]. fold L1. unfold id.
  change (AUX_QUEUES (KD (set_QS _ _))) with (AUX_QUEUES (KD L)).
  destruct (on (AUX_QUEUES (KD L)) (WAITING_READERS q)) as [|t tl] eqn:Eq.
  - assert (ending idle L1 s') as He.
    { apply sys_ending; [done|done|done|]. eapply owed_join; [done|]. intros v1 Hv1 Hva.
      destruct (Hq1 v1 Hv1 Hva) as [_ C2]. by split. }
    destruct (has flags LWMSGQ_SEND_BLOCK_ON_SEND) eqn:Hf; [by apply Hbl|].
    exists s'. split; [apply Hev; by left|]. split_and!; [done..|]. apply He.
  - destruct (waiter_td (KD L1) (WAITING_READERS q) t tl) as (d & Hd & H10 & HI); [apply Hb1|done|].
    destruct (wake_first_run idle true (KD L1) (WAITING_READERS q) t d 0) as (k & Ew & Hw);
      [apply Hs|done|done|done|done|].
    eapply wp_run; [by apply kern_run|].
    assert (ending idle (set_KD k L1) s') as He.
    { pose proof (wk_ctl _ _ _ _ _ _ Hw) as Hc. split; [apply Hw| | |done|].
      - cbn. destruct Hc as (-> & _). apply (wk_ready _ _ _ _ _ _ Hw), Hs.
      - by eapply wake_base.
      - eapply owed_join.
        + intros q2 Hne v2 Hv2 Hva. eapply wake_counted; [done..|]. by apply Ho1.
        + intros v1 Hv1 Hva. pose proof (Hq1 v1 Hv1 Hva) as Hc1.
          eapply (wake_receiver idle L1 s') in Hc1; [|done..|by eexists].
          eapply counted_less; [| |exact Hc1]; lia. }
    destruct (has flags LWMSGQ_SEND_BLOCK_ON_SEND) eqn:Hf.
    + destruct (wk_ctl _ _ _ _ _ _ Hw) as (C1 & C2 & _). by apply Hbl.
    + eapply wp_mono; [|by apply (mq_check_ending idle)]. intros o L' (-> & Hx & _). exists s'.
      split; [apply Hev; by left|done].
Qed.

Lemma receive_message_good idle L s q message v :
  sys idle (KD L) -> base idle L s -> listed L -> others L q -> owed L q 1 0 ->
  QS L !! q = Some v -> 0 < CURRENT_SIZE v -> buffer_ok L (MSG_SIZE v) message ->
  wp False (receive_message q message) L (fun o L' => exists s',
    fifo_run s (receive_events L' q message o) = Some s' /\ xinv idle L' s').
Proof.
  intros Hs Hb Hl Ho Hq Hv Hlt Hbuf.
  destruct (b_ring _ _ _ Hb q v Hv) as (l & r & Es & Hr). pose proof Hr as [R1 R2 R3 R4 R5 R6 R7 R8 R9 R10 R11 R12 R13 R14].
  destruct l as [|msg l]; [cbn in R10; lia|]. assert (zlen (msg :: l) = zlen l + 1) as El by (cbn; lia).
  set (n := Z.to_nat (MSG_SIZE v)).
  assert (forall j, 0 <= j < MSG_SIZE v ->
    in_region q v (MSG_READ_LOC v + 4 * j) /\ is_Some (MEM L !! (MSG_READ_LOC v + 4 * j))) as Hsl
    by (rewrite R8; intros j Hj; by eapply region_slot).
  destruct (copy_run n message (MSG_READ_LOC v) L) as (m & E & Hm1 & Hm2 & Hm3).
  { intros i Hi. apply Hbuf. lia. }
  { intros i Hi. apply Hsl. lia. }
  { intros i j Hi Hj Eq. destruct (Hbuf i ltac:(lia)) as [_ Hout]. apply (Hout q v Hv).
    rewrite Eq. apply Hsl. lia. }
  assert (words m n message = Some msg) as Hmsg.
  { rewrite Hm1, R8. rewrite <-(R14 O msg eq_refl). do 2 f_equal. rewrite Z.add_0_r. symmetry. by apply Z.mod_small. }
  assert (forall q2 v2 a, QS L !! q2 = Some v2 -> in_region q2 v2 a -> m !! a = MEM L !! a) as Hout.
  { intros q2 v2 a Hv2 Ha. apply Hm3. intros i Hi ->. destruct (Hbuf i ltac:(lia)) as [_ H]. by apply (H q2 v2). }
  assert (ring m q (taken v) l ((r + 1) mod MAX_SIZE v)) as Hr'.
  { eapply ring_taken, (ring_ext (MEM L)); [done|done|]. intros a. by apply Hout. }
  set (s' := <[q := (MAX_SIZE v, l)]> s). set (L1 := with_ring q (taken v) m L).
  assert (base idle L1 s') as Hb1.
  { eapply (base_ring idle L s q v (taken v)); try done. intros q2 v2 a _. by apply Hout. }
  assert (CURRENT_SIZE (taken v) = CURRENT_SIZE v - 1) as Ec by (cbn; apply wrap_small; lia).
  assert (owed L1 q 0 1) as Hq1.
  { eapply owed_with_ring; [done|done| | |exact Hq]; rewrite Ec; cbn; lia. }
  assert (others L1 q) as Ho1 by (by apply others_with_ring).
  assert (listed L1) as Hl1 by (by eapply listed_with_ring).
  assert (forall L', QS L' = QS L1 -> MEM L' = MEM L1 ->
    fifo_run s (receive_events L' q message (Returned MQX_OK)) = Some s') as Hev.
  { intros L' EQ EM. unfold receive_events. rewrite EQ, EM. cbn [QS MEM L1 with_ring set_QS set_MEM].
    rewrite lookup_insert, decide_True by done. cbn [MSG_SIZE taken Z.eqb MQX_OK]. fold n. rewrite Hmsg.
    cbn. rewrite Es. cbn. by rewrite decide_True. }
  unfold receive_message. eapply wp_run; [by apply get_q_run|]. eapply wp_run; [exact E|].
  eapply wp_run; [done|]. eapply wp_run; [done|]. fold L1. unfold id.
  change (AUX_QUEUES (KD (set_QS _ _))) with (AUX_QUEUES (KD L)).
  destruct (on (AUX_QUEUES (KD L)) (WAITING_WRITERS q)) as [|t tl] eqn:Eq.
  - exists s'. split; [by apply Hev|]. split_and!; [done..|].
    eapply owed_join; [done|]. intros v1 Hv1 Hva. destruct (Hq1 v1 Hv1 Hva) as [C1 _]. by split.
  - destruct (waiter_td (KD L1) (WAITING_WRITERS q) t tl) as (d & Hd & H10 & HI); [apply Hb1|done|].
    assert (Z.testbit (STATE d) 8 = false) as H8.
    { destruct (waiting_pc idle L1 s' t d Hb1 Hd H10) as (p & q' & b & _ & _ & _ & [v' Hv'] & [(_ & H8 & _)|(HI' & _)]);
        [done|]. destruct (queues_apart idle L1 s' q' q v' (taken v) Hb1 Hv') as [N _]; [apply lookup_insert_eq|].
      congruence. }
    destruct (wake_first_run idle false (KD L1) (WAITING_WRITERS q) t d 0) as (k & Ew & Hw);
      [apply Hs|done|done|done|done|].
    eapply wp_run; [by apply kern_run|].
    assert (ending idle (set_KD k L1) s') as He.
    { pose proof (wk_ctl _ _ _ _ _ _ Hw) as Hc. split; [apply Hw| | |done|].
      - cbn. destruct Hc as (-> & _). apply (wk_ready _ _ _ _ _ _ Hw), Hs.
      - by eapply wake_base.
      - eapply owed_join.
        + intros q2 Hne v2 Hv2 Hva. eapply wake_counted; [done..|]. by apply Ho1.
        + intros v1 Hv1 Hva. pose proof (Hq1 v1 Hv1 Hva) as Hc1.
          eapply (wake_sender idle L1 s') in Hc1; [|done..|by eexists].
          eapply counted_less; [| |exact Hc1]; lia. }
    eapply wp_mono; [|by apply (mq_check_ending idle)]. intros o L' (-> & Hx & E1 & E2). exists s'.
    split; [by apply Hev|done].
Qed.

(** ** Every action *)

(** The events are those of bounded queues, and the invariant holds again. *)
Definition good (idle : Z) (s : fifos) (ev : list event) (L' : mq) : Prop :=
  exists s', fifo_run s ev = Some s' /\ xinv idle L' s'.

Lemma good_none idle s L' : xinv idle L' s -> good idle s [] L'.
Proof. by exists s. Qed.

Lemma has_lor flags a b : has flags (Z.lor a b) = has flags a || has flags b.
Proof.
  unfold has. rewrite Z.land_lor_distr_r.
  destruct (Z.eqb_spec (Z.land flags a) 0) as [->|Ha]; [by rewrite Z.lor_0_l|].
  cbn. apply negb_true_iff, Z.eqb_neq. by rewrite Z.lor_eq_0_iff; intros [? ?].
Qed.

Lemma xinv_owed idle L s q : xinv idle L s -> others L q /\ owed L q 1 0 /\ owed L q 0 1.
Proof.
  intros (_ & _ & _ & Ho). split_and!; [intros q' _; apply Ho|by eapply owed_less; [| |apply Ho]..].
Qed.

Lemma call_caller idle L : IN_ISR (KD L) = 0 -> free L -> (IN_ISR (KD L) = 0 -> ACTIVE_PTR (KD L) <> idle) ->
  caller idle L.
Proof. intros Hi Hf Hn. split; auto. Qed.

Lemma send_good idle L s q message flags : xinv idle L s -> can idle L (ASend q message flags) ->
  wp False (run_action (ASend q message flags)) L (good idle s).
Proof.
  intros Hx (Hf & Hn & v & Hv & Hbuf). pose proof Hx as (Hs & Hb & Hl & Ho).
  destruct (xinv_owed _ _ _ q Hx) as (O1 & O2 & O3). destruct (b_ring _ _ _ Hb q v Hv) as (l & r & Es & Hr).
  unfold run_action. eapply wp_run; [done|]. unfold id. apply wp_bind. unfold _lwmsgq_send.
  eapply wp_run; [done|]. unfold id.
  assert (negb (IN_ISR (KD L) =? 0) = true -> has flags (Z.lor LWMSGQ_SEND_BLOCK_ON_FULL LWMSGQ_SEND_BLOCK_ON_SEND) = false ->
    has flags LWMSGQ_SEND_BLOCK_ON_FULL = false /\ has flags LWMSGQ_SEND_BLOCK_ON_SEND = false) as Hfl
    by (intros _; rewrite has_lor; apply orb_false_iff).
  destruct (Z.eqb_spec (IN_ISR (KD L)) 0) as [Hi|Hi]; cbn [negb andb] in *.
  - pose proof (call_caller idle L Hi Hf Hn) as Hc.
    eapply wp_run; [by apply get_q_run|]. case_if; [by apply good_none|].
    destruct (LWMSGQ_IS_FULL v) eqn:Ef.
    + apply Z.leb_le in Ef. case_if.
      * eapply wp_run; [apply zoom_active|].
        eapply wp_mono; [|by eapply (send_block_good idle L s)]. intros o L' [-> Hx']. by apply good_none.
      * exists s. split; [|done]. cbn. rewrite Es. cbn. destruct Hr. by rewrite (proj2 (Z.eqb_eq _ _)) by lia.
    + apply Z.leb_gt in Ef. eapply wp_mono; [|by eapply (send_message_good idle L s)]. by intros o L' H.
  - destruct (has flags (Z.lor _ _)); [by apply good_none|].
    destruct (Hfl eq_refl eq_refl) as [F1 F2].
    eapply wp_run; [by apply get_q_run|]. case_if; [by apply good_none|].
    destruct (LWMSGQ_IS_FULL v) eqn:Ef.
    + rewrite F1. apply Z.leb_le in Ef.
      exists s. split; [|done]. cbn. rewrite Es. cbn. destruct Hr. by rewrite (proj2 (Z.eqb_eq _ _)) by lia.
    + apply Z.leb_gt in Ef. eapply wp_mono; [|eapply (send_message_good idle L s); try done; congruence].
      by intros o L' H.
Qed.

Lemma receive_good idle L s q message flags n tp : xinv idle L s ->
  can idle L (AReceive q message flags n tp) ->
  wp False (run_action (AReceive q message flags n tp)) L (good idle s).
Proof.
  intros Hx (Hf & Hn & Ht & v & Hv & Hbuf). pose proof Hx as (Hs & Hb & Hl & Ho).
  destruct (xinv_owed _ _ _ q Hx) as (O1 & O2 & O3). destruct (b_ring _ _ _ Hb q v Hv) as (l & r & Es & Hr).
  unfold run_action. eapply wp_run; [done|]. unfold id. apply wp_bind. unfold _lwmsgq_receive.
  eapply wp_run; [done|]. unfold id.
  destruct (Z.eqb_spec (IN_ISR (KD L)) 0) as [Hi|Hi]; cbn [negb]; [|by apply good_none].
  pose proof (call_caller idle L Hi Hf Hn) as Hc.
  eapply wp_run; [by apply get_q_run|]. case_if; [by apply good_none|].
  destruct (LWMSGQ_IS_EMPTY v) eqn:Ee.
  - apply Z.eqb_eq in Ee. case_if.
    + eapply wp_mono; [|by eapply (receive_block_good idle L s)]. intros o L' [-> Hx']. by apply good_none.
    + exists s. split; [|done]. cbn. rewrite Es. cbn. destruct l; [done|].
      destruct Hr as [_ _ _ _ _ _ _ _ _ R]. cbn in R. lia.
  - apply Z.eqb_neq in Ee. eapply wp_mono; [|eapply (receive_message_good idle L s); try done].
    + intros o L' H. by eapply wp_run; [|exact H].
    + destruct Hr as [_ _ _ _ _ _ _ _ _ R]. lia.
Qed.

(** *** Going on *)

Section leave.
Context (L : mq) (t : Z) (d : td) (p : pc).
Local Abbreviation L0 := (set_PC (delete t) L).
Context (Hd : TD (KD L) !! t = Some d) (Hp : PC L !! t = Some p) (Ho : owed_all L).

Lemma leave_owed q : owed L0 q (if woken_receiver L q t then 1 else 0) (if woken_sender L q t then 1 else 0).
Proof.
  intros v Hv Hva. eapply counted_less; [| |apply (leave_counted L q t _ _ ltac:(by eexists) (Ho q v Hv Hva))]; lia.
Qed.

(** A task that was woken for another reason. *)
Lemma leave_other : (forall q, woken_receiver L q t = false /\ woken_sender L q t = false) -> owed_all L0.
Proof. intros H q. pose proof (leave_owed q) as Hq. by destruct (H q) as [E1 E2]; rewrite E1, E2 in Hq. Qed.

Lemma info_other : INFO d <> 0 -> forall q, woken_receiver L q t = false /\ woken_sender L q t = false.
Proof.
  intros Hi q. unfold woken_receiver, woken_sender. rewrite Hp, Hd, (proj2 (Z.eqb_neq _ _) Hi).
  by destruct p; rewrite ?andb_false_r.
Qed.

Lemma leave_sender q m f : p = InSend q m f -> others L0 q /\ owed L0 q 0 1.
Proof.
  intros E. assert (forall q', woken_receiver L q' t = false) as E1
    by (intros q'; unfold woken_receiver; by rewrite Hp, E).
  split.
  - intros q' Hne. pose proof (leave_owed q') as H. rewrite E1 in H.
    assert (woken_sender L q' t = false) as E2.
    { unfold woken_sender. rewrite Hp, E, Hd. by rewrite (proj2 (Z.eqb_neq q q')) by done. }
    by rewrite E2 in H.
  - pose proof (leave_owed q) as H. rewrite E1 in H. eapply owed_less; [| |exact H]; [lia|case_match; lia].
Qed.

Lemma leave_receiver q m f n k : p = InReceive q m f n k -> others L0 q /\ owed L0 q 1 0.
Proof.
  intros E. assert (forall q', woken_sender L q' t = false) as E1
    by (intros q'; unfold woken_sender; by rewrite Hp, E).
  split.
  - intros q' Hne. pose proof (leave_owed q') as H. rewrite E1 in H.
    assert (woken_receiver L q' t = false) as E2.
    { unfold woken_receiver. rewrite Hp, E, Hd. by rewrite (proj2 (Z.eqb_neq q q')) by done. }
    by rewrite E2 in H.
  - pose proof (leave_owed q) as H. rewrite E1 in H. eapply owed_less; [| |exact H]; [case_match; lia|lia].
Qed.
End leave.

(** The running task, if it goes on in the loop of a sender, finds room. *)
Definition roomy (L : mq) : Prop :=
  forall q message flags v d, PC L !! ACTIVE_PTR (KD L) = Some (InSend q message flags) ->
    QS L !! q = Some v -> TD (KD L) !! ACTIVE_PTR (KD L) = Some d -> INFO d <> LWMSGQ_DEINIT_INFO ->
    CURRENT_SIZE v < MAX_SIZE v.

Lemma mq_resume_good idle L s : xinv idle L s -> can idle L AResume -> roomy L ->
  wp False (run_action AResume) L (good idle s).
Proof.
  intros Hx (Hi & p & Hp) Hfull. pose proof Hx as (Hs & Hb & Hl & Ho).
  set (t := ACTIVE_PTR (KD L)) in *. destruct (sys_run _ _ Hs) as (d & Hd & Hr). fold t in Hd.
  destruct (b_pc _ _ _ Hb t p Hp) as (_ & Hne & Hto & Hbuf).
  set (L0 := set_PC (delete t) L).
  assert (base idle L0 s) as Hb0 by (apply leave_base; [done|by exists d]).
  assert (caller idle L0) as Hc.
  { split; [done|done|]. change (delete t (PC L) !! t = None). by rewrite lookup_delete, decide_True. }
  unfold run_action. eapply wp_run; [done|]. unfold id, resume.
  eapply wp_run; [apply zoom_active|]. fold t. eapply wp_run; [done|]. unfold id.
  eapply (wp_run _ _ _ _ p); [unfold lift_opt; by rewrite Hp|]. eapply wp_run; [done|]. fold L0.
  assert (forall q m f, p = InSend q m f -> INFO d <> LWMSGQ_DEINIT_INFO -> forall v, QS L !! q = Some v ->
    CURRENT_SIZE v < MAX_SIZE v) as Hroom by (intros q m f -> He v Hv; by eapply Hfull).
  destruct p as [q message flags| |q message flags n tp].
  - destruct (Hbuf q message eq_refl) as (v & Hv & Hbf).
    destruct (leave_sender L t d _ Hd Hp Ho q message flags eq_refl) as [O1 O2].
    apply wp_bind. unfold resume_send. eapply wp_run; [apply zoom_active|].
    change (ACTIVE_PTR (KD L0)) with t.
    eapply wp_run; [by apply kern_run, get_td_run|]. rewrite set_KD_same.
    destruct (Z.eqb_spec (INFO d) LWMSGQ_DEINIT_INFO) as [E|E].
    + apply good_none. split_and!; [done|done|done|]. eapply leave_other, info_other; [done..|]. by rewrite E.
    + eapply wp_run; [by apply get_q_run|]. pose proof (Hroom q message flags eq_refl E v Hv) as Hlt.
      assert (LWMSGQ_IS_FULL v = false) as -> by (by apply Z.leb_gt).
      eapply wp_mono; [|eapply (send_message_good idle L0 s); done]. by intros o L' H.
  - apply good_none. split_and!; [done|done|done|]. apply (leave_other L t d Hd Ho).
    intros q. unfold woken_receiver, woken_sender. by rewrite Hp.
  - destruct (Hbuf q message eq_refl) as (v & Hv & Hbf).
    destruct (leave_receiver L t d _ Hd Hp Ho q message flags n tp eq_refl) as [O1 O2].
    apply wp_bind. unfold resume_receive. eapply wp_run; [apply zoom_active|].
    change (ACTIVE_PTR (KD L0)) with t.
    eapply wp_run; [by apply kern_run, get_td_run|]. rewrite set_KD_same.
    destruct (Z.eqb_spec (INFO d) LWMSGQ_DEINIT_INFO) as [E|E].
    { apply good_none. split_and!; [done|done|done|]. eapply leave_other, info_other; [done..|]. by rewrite E. }
    destruct (timed flags n && negb (INFO d =? 0)) eqn:Et.
    { apply good_none. split_and!; [done|done|done|]. eapply leave_other, info_other; [done..|].
      apply andb_true_iff in Et as [_ Et]. by apply negb_true_iff, Z.eqb_neq in Et. }
    eapply wp_run; [by apply get_q_run|]. destruct (b_ring _ _ _ Hb q v Hv) as (l & r & Es & Hrg).
    destruct (LWMSGQ_IS_EMPTY v) eqn:Ee.
    + apply Z.eqb_eq in Ee.
      eapply wp_mono; [|by eapply (receive_block_good idle L0 s)]. intros o L' [-> Hx']. by apply good_none.
    + apply Z.eqb_neq in Ee. eapply wp_mono; [|eapply (receive_message_good idle L0 s); try done].
      * intros o L' H. by eapply wp_run; [|exact H].
      * destruct Hrg as [_ _ _ _ _ _ _ _ _ R]. lia.
Qed.

(** *** Initialisation and deinitialisation *)

Lemma writer_untimed idle L s q v t d : base idle L s -> QS L !! q = Some v ->
  TD (KD L) !! t = Some d -> Z.testbit (STATE d) 10 = true -> INFO d = WAITING_WRITERS q ->
  Z.testbit (STATE d) 8 = false.
Proof.
  intros Hb Hv Hd H10 HI.
  destruct (waiting_pc idle L s t d Hb Hd H10) as (p & q' & b & _ & _ & _ & [v' Hv'] & [(_ & H8 & _)|(HI' & _)]);
    [done|]. destruct (queues_apart idle L s q' q v' v Hb Hv' Hv) as [N _]. congruence.
Qed.

Lemma deinit_run idle L s tm x l :
  pre idle (KD L) -> is_ready (KD L) (ACTIVE_PTR (KD L)) -> base idle L s -> on (AUX_QUEUES (KD L)) x = l ->
  (tm = false -> exists q v, QS L !! q = Some v /\ x = WAITING_WRITERS q) ->
  exists k, deinit_waiters tm l x (KD L) = Some (tt, k) /\
    pre idle k /\ is_ready k (ACTIVE_PTR k) /\ base idle (set_KD k L) s /\
    on (AUX_QUEUES k) x = [] /\ (forall y u, u ∈ on (AUX_QUEUES k) y -> u ∈ on (AUX_QUEUES (KD L)) y) /\
    (forall q a b, counted L q a b -> counted (set_KD k L) q a b) /\
    (forall u d, TD (KD L) !! u = Some d -> exists d', TD k !! u = Some d' /\
       (u ∈ l -> STATE d' = READY /\ INFO d' = LWMSGQ_DEINIT_INFO) /\ (u ∉ l -> d' = d)).
Proof.
  revert L. induction l as [|t l IH]; intros L Hp Hr Hb Hq Ht.
  { exists (KD L). rewrite set_KD_same. split_and!; [done..|].
    intros u d Hd. exists d. split_and!; [done| |done]. intros Hu. by apply elem_of_nil in Hu. }
  destruct (waiter_td (KD L) x t l) as (d & Hd & H10 & HI); [apply Hb|done|].
  destruct (wake_first_run idle tm (KD L) x t d LWMSGQ_DEINIT_INFO Hp Hd H10 HI) as (k1 & E & Hw).
  { intros Htm. destruct (Ht Htm) as (q & v & Hv & Ex). eapply (writer_untimed idle L s q v t d); congruence. }
  assert (t ∉ l) as Hn.
  { pose proof (sh_aux _ (proj1 (b_kinv _ _ _ Hb)) x) as Hnd. rewrite Hq in Hnd. by apply NoDup_cons in Hnd as [? _]. }
  pose proof (wk_ctl _ _ _ _ _ _ Hw) as Hc. pose proof (wk_td _ _ _ _ _ _ Hw) as Htd.
  destruct (IH (set_KD k1 L)) as (k & E' & C1 & C2 & C3 & C4 & C5 & C6 & C7).
  - apply Hw.
  - cbn. destruct Hc as (-> & _). by apply (wk_ready _ _ _ _ _ _ Hw).
  - by eapply wake_base.
  - cbn. rewrite (wk_aux _ _ _ _ _ _ Hw), Hq. by apply without_cons.
  - done.
  - exists k. cbn [deinit_waiters]. rewrite (bind_run _ _ _ _ _ E). split_and!; [done..| | |].
    + intros y u Hu. eapply wake_aux; [done..|]. by apply C5.
    + intros q a b Hcn. apply (C6 q a b). by eapply wake_counted.
    + intros u e He. destruct (decide (u = t)) as [->|Hu].
      * destruct (C7 t (readied (with_INFO LWMSGQ_DEINIT_INFO (undelayed d)))) as (d' & Hd' & _ & Hs).
        { cbn. by rewrite Htd, lookup_insert, decide_True. }
        exists d'. rewrite (Hs Hn) in *. split_and!; [done..|set_solver].
      * destruct (C7 u e) as (d' & Hd' & A1 & A2); [cbn; by rewrite Htd, lookup_insert_ne|].
        exists d'. split_and!; [done|set_solver|set_solver].
Qed.

(** What a deinitialisation does to the kernel. *)
Lemma deinit_queues idle L s q v :
  pre idle (KD L) -> is_ready (KD L) (ACTIVE_PTR (KD L)) -> base idle L s -> QS L !! q = Some v ->
  exists k1 k2, deinit_waiters false (on (AUX_QUEUES (KD L)) (WAITING_WRITERS q)) (WAITING_WRITERS q) (KD L) = Some (tt, k1) /\
    deinit_waiters true (on (AUX_QUEUES k1) (WAITING_READERS q)) (WAITING_READERS q) k1 = Some (tt, k2) /\
    pre idle k2 /\ is_ready k2 (ACTIVE_PTR k2) /\ base idle (set_KD k2 L) s /\
    on (AUX_QUEUES k2) (WAITING_WRITERS q) = [] /\ on (AUX_QUEUES k2) (WAITING_READERS q) = [] /\
    (forall q a b, counted L q a b -> counted (set_KD k2 L) q a b) /\
    (forall u, u ∈ on (AUX_QUEUES (KD L)) (WAITING_WRITERS q) \/ u ∈ on (AUX_QUEUES (KD L)) (WAITING_READERS q) ->
       exists d, TD k2 !! u = Some d /\ STATE d = READY /\ INFO d = LWMSGQ_DEINIT_INFO).
Proof.
  intros Hp Hr Hb Hv.
  destruct (deinit_run idle L s false (WAITING_WRITERS q) _ Hp Hr Hb eq_refl)
    as (k1 & E1 & A1 & A2 & A3 & A4 & A5 & A6 & A7); [eauto|].
  destruct (deinit_run idle (set_KD k1 L) s true (WAITING_READERS q) _ A1 A2 A3 eq_refl)
    as (k2 & E2 & B1 & B2 & B3 & B4 & B5 & B6 & B7); [done|].
  exists k1, k2. split_and!; try done.
  - destruct (on (AUX_QUEUES k2) (WAITING_WRITERS q)) as [|u l] eqn:E; [done|].
    assert (u ∈ on (AUX_QUEUES k1) (WAITING_WRITERS q)) as Hu by (apply B5; rewrite E; set_solver).
    rewrite A4 in Hu. by apply elem_of_nil in Hu.
  - intros q' a b Hc. by apply B6, A6.
  - assert (kinv (KD L)) as Hk by apply Hb. assert (kinv k1) as Hk1 by apply A3.
    intros u Hu. assert (exists d, TD (KD L) !! u = Some d /\ Z.testbit (STATE d) 10 = true /\
      (INFO d = WAITING_WRITERS q \/ INFO d = WAITING_READERS q)) as (d & Hd & H10 & HI)
      by (destruct Hu as [Hu|Hu]; apply in_aux in Hu as (d & ? & ? & ?); eauto).
    destruct (A7 u d Hd) as (d1 & Hd1 & F1 & F2). destruct (B7 u d1 Hd1) as (d2 & Hd2 & G1 & G2).
    exists d2. split; [done|]. destruct (decide (u ∈ on (AUX_QUEUES (KD L)) (WAITING_WRITERS q))) as [Hw|Hw].
    + destruct (F1 Hw) as [F3 F4]. rewrite G2; [done|]. intros Hin.
      apply (in_aux _ _ _ Hk1) in Hin as (e & He & Hbt & _). simplify_eq. by rewrite F3 in Hbt.
    + destruct Hu as [Hu|Hu]; [done|]. apply G1. specialize (F2 Hw). subst d1.
      apply (in_aux _ _ _ Hk) in Hu as (e & He & _ & HIe). simplify_eq. apply in_aux; [done|eauto].
Qed.

Lemma base_valid idle L s q v x : base idle L s -> QS L !! q = Some v ->
  base idle (set_QS (<[q := with_VALID x v]>) L) s.
Proof.
  intros Hb Hv. destruct (b_ring _ _ _ Hb q v Hv) as (l & r & Es & Hr).
  pose proof (base_ring idle L s q v (with_VALID x v) l r (MEM L) Hb Hv) as H.
  rewrite insert_id in H by done.
  assert (with_ring q (with_VALID x v) (MEM L) L = set_QS (<[q := with_VALID x v]>) L) as E by (by destruct L).
  rewrite E in H. apply H; try done. by apply ring_valid.
Qed.

Lemma mq_base_list idle L s l : base idle L s -> base idle (set_LIST l L) s.
Proof. by intros []. Qed.

Lemma elem_of_without_iff q q' l : q' ∈ without q l <-> q' ∈ l /\ q' <> q.
Proof. rewrite elem_of_without. tauto. Qed.

(** [_lwmsgq_deinit] of a queue that exists. *)
Lemma deinit_exec idle L s q l : xinv idle L s -> LWMSGQS L = Some l -> q ∈ l ->
  exists L', _lwmsgq_deinit q L = Some (MQX_OK, L') /\ xinv idle L' s /\
    LWMSGQS L' = Some (without q l) /\ PC L' = PC L /\
    (exists v, QS L !! q = Some v /\ QS L' !! q = Some (with_VALID (LWMSGQ_VALID - 1) v)) /\
    on (AUX_QUEUES (KD L')) (WAITING_WRITERS q) = [] /\ on (AUX_QUEUES (KD L')) (WAITING_READERS q) = [] /\
    (forall u, u ∈ on (AUX_QUEUES (KD L)) (WAITING_WRITERS q) \/ u ∈ on (AUX_QUEUES (KD L)) (WAITING_READERS q) ->
       exists d, TD (KD L') !! u = Some d /\ STATE d = READY /\ INFO d = LWMSGQ_DEINIT_INFO).
Proof.
  intros Hx El Hin. pose proof Hx as (Hs & Hb & Hl & Ho). destruct Hs as [Hp Hr Hcur].
  pose proof Hin as Hin'. specialize (Hl q) as Hlq. rewrite El in Hlq. apply Hlq in Hin' as (v & Hv & Hva).
  set (v' := with_VALID (LWMSGQ_VALID - 1) v). set (L1 := set_QS (<[q := v']>) L).
  assert (base idle L1 s) as Hb1 by (by apply base_valid).
  assert (QS L1 !! q = Some v') as Hv1 by apply lookup_insert_eq.
  destruct (deinit_queues idle L1 s q v' Hp Hr Hb1 Hv1) as (k1 & k2 & E1 & E2 & B1 & B2 & B3 & B4 & B5 & B6 & B7).
  set (L2 := set_LIST (Some (without q l)) (set_KD k2 L1)).
  assert (ending idle L2 s) as He.
  { split; [done|done|by apply mq_base_list| |].
    - intros q2. cbn. rewrite elem_of_without_iff, lookup_insert. specialize (Hl q2). rewrite El in Hl. cbn in Hl.
      rewrite Hl. case_decide as Hd.
      + subst q2. split; [by intros [_ ?]|]. intros (v2 & [= <-] & Hv2). done.
      + split; [by intros [? _]|]. intros H. by split.
    - intros q2 v2 Hv2 Hva2. apply (B6 q2). cbn in Hv2. rewrite lookup_insert in Hv2.
      case_decide; [by simplify_eq|]. by apply (Ho q2 v2). }
  destruct (check_sys idle k2 B1 B2) as (k3 & E3 & Hs3 & Hw). exists (set_KD k3 L2). split_and!; try done.
  - unfold _lwmsgq_deinit, _lwmsgq_deinit_internal.
    rewrite (bind_run _ _ _ _ _ (eq_refl : gets id L = Some (L, L))). unfold id.
    rewrite (bind_run _ _ L l L) by (unfold lift_opt; by rewrite El).
    rewrite bool_decide_true by done. cbn [negb]. rewrite (bind_run _ _ _ _ _ (get_q_run q v L Hv)).
    rewrite (bind_run _ _ _ _ _ (eq_refl : set_q q v' L = Some (tt, L1))).
    rewrite (bind_run _ _ _ _ _ (kern_run _ L1 tt k1 E1)).
    erewrite bind_run; [|apply kern_run; exact E2].
    rewrite (bind_run _ _ _ _ _ (eq_refl : modify (set_LIST _) _ = Some (tt, L2))).
    by rewrite (bind_run _ _ _ _ _ (kern_run _ L2 tt k3 E3)).
  - eapply ending_frame; [done..|]. by apply frame_switched.
  - exists v. split; [done|]. apply lookup_insert_eq.
  - cbn. by rewrite (switched_aux _ _ Hw).
  - cbn. by rewrite (switched_aux _ _ Hw).
  - intros u Hu. cbn. pose proof (switched_lists _ _ Hw) as (-> & _). by apply B7.
Qed.

Lemma deinit_good idle L s q : xinv idle L s -> can idle L (ADeinit q) ->
  wp False (run_action (ADeinit q)) L (good idle s).
Proof.
  intros Hx (Hf & l & El). unfold run_action. eapply wp_run; [done|]. unfold id.
  destruct (decide (q ∈ l)) as [Hin|Hin].
  - destruct (deinit_exec idle L s q l Hx El Hin) as (L' & E & Hx' & _).
    eapply wp_run; [exact E|]. by apply good_none.
  - eapply (wp_run _ _ _ _ MQX_EINVAL L); [|by apply good_none].
    unfold _lwmsgq_deinit, _lwmsgq_deinit_internal.
    rewrite (bind_run _ _ _ _ _ (eq_refl : gets id L = Some (L, L))). unfold id.
    rewrite (bind_run _ _ L l L) by (unfold lift_opt; by rewrite El). by rewrite bool_decide_false.
Qed.

Lemma init_good idle L s q n size : xinv idle L s -> can idle L (AInit q n size) ->
  wp False (run_action (AInit q n size)) L (good idle s).
Proof.
  intros Hx (Hf & C0 & C1 & C2 & C3 & C4 & C5 & C6 & C7 & C8 & C9 & C10). pose proof Hx as (Hs & Hb & Hl & Ho).
  set (v := let start := q + sizeof_LWMSGQ_STRUCT in
            MsgQ LWMSGQ_VALID size n 0 start start start (start + 4 * w32 (size * n))).
  assert (ring (MEM L) q v [] 0) as Hr by (apply ring_init; [done|done|done|unfold slot; lia|done]).
  assert (MSG_END_LOC v = q + sizeof_LWMSGQ_STRUCT + 4 * (size * n)) as Ev by apply Hr.
  destruct (sys_empty idle (KD L) (WAITING_WRITERS q) Hs C4) as [Hs1 A1]. set (k1 := set_AUX_QUEUES _ _) in Hs1.
  destruct (sys_empty idle k1 (WAITING_READERS q) Hs1) as [Hs2 A2]; [cbn; by rewrite A1|].
  set (k2 := set_AUX_QUEUES _ _) in Hs2. set (l := default [] (LWMSGQS L)).
  assert (q ∉ l) as Hn by (unfold l; destruct (LWMSGQS L) eqn:E; [by apply C6|apply not_elem_of_nil]).
  set (L' := Mq k2 (<[q := v]> (QS L)) (Some (l ++ [q])) (MEM L) (PC L)).
  assert (run_action (AInit q n size) L = Some ([Opened q n], L')) as E.
  { unfold run_action, _lwmsgq_init, _lwmsgq_init_internal.
    unfold mbind, M_bind, zoom, modify, gets, set_q, id. cbn -[v]. fold l.
    rewrite bool_decide_false by done. done. }
  eapply wp_end; [exact E|]. exists (<[q := (n, [])]> s). split; [done|].
  assert (forall y, on (AUX_QUEUES (KD L')) y = on (AUX_QUEUES (KD L)) y) as Ha
    by (intros y; change (on (<[WAITING_READERS q:=[]]> (AUX_QUEUES k1)) y = on (AUX_QUEUES (KD L)) y); by rewrite A2, A1).
  destruct Hb as [H1 H2 H3 H4 H5].
  split_and!; [exact Hs2| | |].
  - split; [apply Hs2|done| | |]; cbn [QS PC KD MEM L'].
    + intros t p Hp. destruct (H3 t p Hp) as (B1 & B2 & B3 & B4). split_and!; [done..|].
      intros q2 b Hqb. destruct (B4 q2 b Hqb) as (v2 & Hv2 & Hbf). rewrite lookup_insert_ne.
      2: { intros <-. by apply (C7 t p (q, b) Hp Hqb). }
      exists v2. split; [done|]. intros i Hi. destruct (Hbf i Hi) as [B5 B6]. split; [done|].
      intros q3 v3. cbn [QS L']. rewrite lookup_insert. case_decide; [|apply B6]. subst q3. intros [= <-].
      unfold in_region. rewrite Ev. by apply (C10 t p q2 b v2 i).
    + intros q2 v2. rewrite lookup_insert. case_decide.
      * subst q2. intros [= <-]. exists [], 0. split; [apply lookup_insert_eq|done].
      * intros Hv2. destruct (H4 q2 v2 Hv2) as (l2 & r2 & E2 & Hr2). exists l2, r2.
        by rewrite lookup_insert_ne.
    + intros q1 v1 q2 v2. rewrite !lookup_insert. case_decide; case_decide; subst.
      * done.
      * intros [= <-] Hv2 Hne. rewrite Ev. destruct (C8 q2 v2 Hv2 Hne); lia.
      * intros Hv1 [= <-] Hne. rewrite Ev. destruct (C8 q1 v1 Hv1); [done|lia|lia].
      * apply H5.
  - intros q2. cbn. rewrite elem_of_app, list_elem_of_singleton, lookup_insert. specialize (Hl q2). fold l in Hl. rewrite Hl.
    case_decide as Hd.
    + subst q2. split; [intros _; by eexists|intros _; by right].
    + split; [intros [H|H]; [done|congruence]|intros H; by left].
  - intros q2 v2 Hv2 Hva2. cbn in Hv2. rewrite lookup_insert in Hv2. case_decide as Hd.
    + subst q2. simplify_eq. split; rewrite Ha; [by rewrite C5|by rewrite C4].
    + pose proof (Ho q2 v2 Hv2 Hva2) as Hc. revert Hc. apply counted_mono; [intros y t; by rewrite Ha|done..].
Qed.

Lemma store_good idle L s a w : xinv idle L s -> can idle L (AStore a w) ->
  wp False (run_action (AStore a w)) L (good idle s).
Proof.
  intros (Hs & Hb & Hl & Ho) (_ & [w0 Hw0] & Hout).
  unfold run_action. eapply wp_run; [done|]. eapply (wp_run _ _ _ _ tt).
  { unfold store, load, mbind, M_bind. by rewrite Hw0. }
  apply good_none. destruct Hb as [H1 H2 H3 H4 H5].
  assert (dom (<[a := w]> (MEM L)) = dom (MEM L)) as Hd
    by (rewrite dom_insert_L; apply elem_of_dom_2 in Hw0; set_solver).
  split_and!; [done| |done|done]. split; [done|done| | |done]; cbn [QS PC KD MEM set_MEM].
  - intros t p Hp. destruct (H3 t p Hp) as (B1 & B2 & B3 & B4). split_and!; [done..|].
    intros q b Hqb. destruct (B4 q b Hqb) as (v & Hv & Hbf). exists v. split; [done|].
    intros i Hi. destruct (Hbf i Hi) as [B5 B6]. split; [|done].
    change (is_Some (<[a := w]> (MEM L) !! (b + 4 * i))). by rewrite <-elem_of_dom, Hd, elem_of_dom.
  - intros q v Hv. destruct (H4 q v Hv) as (l & r & E & Hr). exists l, r. split; [done|].
    eapply ring_ext; [done|done|]. intros a' Ha'. rewrite lookup_insert_ne; [done|]. intros <-.
    by eapply Hout.
Qed.

Lemma mq_call_good idle L s c : xinv idle L s -> quiet c = true -> allowed idle (KD L) c ->
  wp False (run_action (ACall c)) L (good idle s).
Proof.
  intros Hx Hq Ha. pose proof Hx as (Hs & _).
  destruct (quiet_call idle (KD L) c Hs Ha Hq) as ([] & k & E & Hs' & Hf).
  unfold run_action. eapply wp_run; [done|]. eapply wp_run; [apply kern_run; exact E|].
  apply good_none. by apply xinv_frame.
Qed.

(** An action that is a correct use is done without a fault, and the invariant
    holds again, unless a sender that was woken has to wait again. *)
Lemma mq_action_good idle L s x : xinv idle L s -> can idle L x -> (x = AResume -> roomy L) ->
  wp False (run_action x) L (good idle s).
Proof.
  intros Hx Hc Hr. destruct x.
  - by apply init_good.
  - by apply deinit_good.
  - by apply send_good.
  - by apply receive_good.
  - by apply store_good.
  - apply mq_resume_good; auto.
  - destruct Hc as (? & ? & _). by apply mq_call_good.
Qed.

(** ** Senders that wait again

    A sender that was woken and finds the queue full again is queued with the
    state [READY] ([lwmsgq_sender_waits_ready] below), which breaks the
    invariant of the scheduler.  Nothing else reads this state before the
    sender is woken the next time: such a state of the system is one in which
    the invariant holds, but for the states of these tasks. *)

Definition veilL (zs : gset Z) (L : mq) : mq := set_KD (veil zs (KD L)) L.

Abbreviation mq_hidden zs L := (hidden LWMSGQ_WRITE_BLOCKED zs (KD L)).

Definition winv (idle : Z) (L : mq) (s : fifos) : Prop :=
  exists zs L0, L = veilL zs L0 /\ xinv idle L0 s /\ mq_hidden zs L0.

Lemma xinv_winv idle L s : xinv idle L s -> winv idle L s.
Proof.
  intros Hx. exists ∅, L. split_and!; [|done|].
  - unfold veilL. by rewrite veil_empty, set_KD_same.
  - eapply sys_hidden; [apply write_state|apply Hx|]. intros t Ht. by apply elem_of_empty in Ht.
Qed.

(** A computation does the same without the states of the tasks [zs]; it may
    wake some of them. *)
Definition mq_sees {A} (zs : gset Z) (m : M mq A) : Prop :=
  forall L a L', mq_hidden zs L -> m L = Some (a, L') ->
    exists zs', zs' ⊆ zs /\ mq_hidden zs' L' /\ m (veilL zs L) = Some (a, veilL zs' L').

Section mq_sees.
Context {zs : gset Z}.

Lemma mq_sees_ret {A} (a : A) : mq_sees zs (mret a).
Proof. intros L a' L' Hh [= <- <-]. by exists zs. Qed.

Lemma mq_sees_bind {A B} (m : M mq A) (f : A -> M mq B) :
  mq_sees zs m -> (forall a zs', zs' ⊆ zs -> mq_sees zs' (f a)) -> mq_sees zs (m ≫= f).
Proof.
  intros Hm Hf L b L'' Hh. unfold mbind, M_bind. destruct (m L) as [[a L']|] eqn:E; [|done].
  intros E'. destruct (Hm L a L' Hh E) as (zs' & Hz & Hh' & ->).
  destruct (Hf a zs' Hz L' b L'' Hh' E') as (zs2 & Hz2 & Hh2 & E2). exists zs2. split; [set_solver|done].
Qed.

Lemma mq_sees_gets {A B} (g : mq -> A) (f : A -> M mq B) :
  (forall L, f (g (veilL zs L)) = f (g L)) -> (forall a, mq_sees zs (f a)) -> mq_sees zs (gets g ≫= f).
Proof.
  intros Hg Hf L b L' Hh E. change (f (g L) L = Some (b, L')) in E.
  change ((gets g ≫= f) (veilL zs L)) with (f (g (veilL zs L)) (veilL zs L)). rewrite Hg. by apply Hf.
Qed.

Lemma mq_sees_lift {A} (o : option A) : mq_sees zs (lift_opt o).
Proof. intros L a L' Hh. unfold lift_opt. destruct o; [|done]. intros [= <- <-]. by exists zs. Qed.

Lemma mq_sees_modify g : (forall L, g (veilL zs L) = veilL zs (g L)) -> (forall L, KD (g L) = KD L) ->
  mq_sees zs (modify g).
Proof. intros Hg Hk L a L' Hh [= <- <-]. exists zs. rewrite Hk. unfold modify. by rewrite Hg. Qed.

Lemma mq_sees_get_q q : mq_sees zs (get_q q).
Proof. intros L a L' Hh. unfold get_q. cbn. destruct (QS L !! q); [|done]. intros [= <- <-]. by exists zs. Qed.

Lemma mq_sees_load a : mq_sees zs (load a).
Proof. intros L b L' Hh. unfold load. cbn. destruct (MEM L !! a); [|done]. intros [= <- <-]. by exists zs. Qed.

Lemma mq_sees_kern {A} (m : M kernel A) : sees LWMSGQ_WRITE_BLOCKED zs m -> mq_sees zs (kern m).
Proof.
  intros Hm L a L' Hh. unfold zoom. destruct (m (KD L)) as [[b k]|] eqn:E; [|done]. intros [= <- <-].
  destruct (Hm _ _ _ Hh E) as [E' Hh']. exists zs. split_and!; [done|done|]. cbn. by rewrite E'.
Qed.

Lemma mq_sees_active {B} (f : Z -> M mq B) : (forall t, t ∉ zs -> mq_sees zs (f t)) ->
  mq_sees zs (kern active ≫= f).
Proof.
  intros Hf L b L' Hh. rewrite (bind_run _ _ _ _ _ (zoom_active L)).
  rewrite (bind_run _ _ _ _ _ (zoom_active (veilL zs L))). apply Hf; [|done]. apply Hh.
Qed.

Lemma mq_sees_wake timed x t n : mq_sees zs (kern (wake_first timed x t n)).
Proof.
  intros L a L' Hh. unfold zoom. destruct (wake_first timed x t n (KD L)) as [[[] k]|] eqn:E; [|done].
  intros [= <- <-]. destruct (sees_wake_first _ _ _ _ _ _ _ _ write_state Hh E) as [E' Hh'].
  exists (zs ∖ {[t]}). split_and!; [set_solver|done|]. cbn. by rewrite E'.
Qed.

Lemma mq_sees_if {A} (b : bool) (m1 m2 : M mq A) : mq_sees zs m1 -> mq_sees zs m2 ->
  mq_sees zs (if b then m1 else m2).
Proof. by destruct b. Qed.
End mq_sees.

Lemma sees_deinit zs timed l x k k' : hidden LWMSGQ_WRITE_BLOCKED zs k ->
  deinit_waiters timed l x k = Some (tt, k') ->
  exists zs', zs' ⊆ zs /\ hidden LWMSGQ_WRITE_BLOCKED zs' k' /\
    deinit_waiters timed l x (veil zs k) = Some (tt, veil zs' k').
Proof.
  revert zs k. induction l as [|t l IH]; intros zs k Hh; cbn [deinit_waiters].
  { intros [= <-]. by exists zs. }
  unfold mbind, M_bind. destruct (wake_first timed x t _ k) as [[[] k1]|] eqn:E; [|done]. intros E1.
  destruct (sees_wake_first _ _ _ _ _ _ _ _ write_state Hh E) as [-> Hh1].
  destruct (IH _ k1 Hh1 E1) as (zs' & Hz & Hh' & E'). exists zs'. split; [set_solver|done].
Qed.

Lemma mq_sees_deinit zs timed l x : mq_sees zs (kern (deinit_waiters timed l x)).
Proof.
  intros L a L' Hh. unfold zoom. destruct (deinit_waiters timed l x (KD L)) as [[[] k]|] eqn:E; [|done].
  intros [= <- <-]. destruct (sees_deinit _ _ _ _ _ _ Hh E) as (zs' & Hz & Hh' & E').
  exists zs'. cbn. by rewrite E'.
Qed.

Lemma mq_sees_deinit_on zs timed x :
  mq_sees zs (kern (k ← gets id; deinit_waiters timed (on (AUX_QUEUES k) x) x)).
Proof.
  intros L a L' Hh E. exact (mq_sees_deinit zs timed (on (AUX_QUEUES (KD L)) x) x L a L' Hh E).
Qed.

Lemma out_sub (zs zs' : gset Z) t : zs' ⊆ zs -> t ∉ zs -> t ∉ zs'.
Proof. set_solver. Qed.

(** What is outside of [zs] is outside of what is left of it. *)
Ltac mq_next :=
  let a := fresh "a" in let z := fresh "zs'" in let Hz := fresh "Hz" in
  intros a z Hz; repeat match goal with H : _ ∉ _ |- _ => apply (out_sub _ _ _ Hz) in H end; clear Hz.

Ltac mq_see :=
  repeat first
    [ solve [auto 2 with mq_sees nocore]
    | apply mq_sees_active; intros
    | apply mq_sees_ret | apply mq_sees_lift | apply mq_sees_get_q | apply mq_sees_load
    | apply mq_sees_wake | apply mq_sees_deinit | apply mq_sees_deinit_on
    | apply mq_sees_modify; [intros; reflexivity|intros; reflexivity]
    | apply mq_sees_if
    | apply mq_sees_gets; [intros; reflexivity|intros]
    | apply mq_sees_bind; [|mq_next]
    | progress cbn beta iota
    | match goal with
      | |- mq_sees _ (match ?o with Some _ => _ | None => _ end) => destruct o
      | |- mq_sees _ (match ?l with [] => _ | _ :: _ => _ end) => destruct l
      | |- mq_sees _ (match ?p with InSend _ _ _ => _ | InSent => _ | InReceive _ _ _ _ _ => _ end) => destruct p
      end ].

Create HintDb mq_sees discriminated.

Lemma mq_sees_copy zs n a b : mq_sees zs (copy_words n a b).
Proof.
  revert zs a b. induction n as [|n IH]; intros zs a b; cbn [copy_words]; [apply mq_sees_ret|].
  unfold store. mq_see.
Qed.
#[local] Hint Resolve mq_sees_copy : mq_sees.
Ltac mq_kern := apply mq_sees_kern; unfold block_on, aux_enqueue; see.

Lemma mq_sees_block_sender zs : mq_sees zs block_sender.
Proof. unfold block_sender. mq_see. apply mq_sees_kern, sees_block. Qed.
#[local] Hint Resolve mq_sees_block_sender : mq_sees.

Lemma mq_sees_check zs : mq_sees zs (kern _sched_check_scheduler_internal).
Proof. apply mq_sees_kern, sees_check. Qed.
#[local] Hint Resolve mq_sees_check : mq_sees.

Lemma mq_sees_send_message zs q message flags : mq_sees zs (send_message q message flags).
Proof. unfold send_message, set_q. mq_see. Qed.

Lemma mq_sees_receive_message zs q message : mq_sees zs (receive_message q message).
Proof. unfold receive_message, set_q. mq_see. Qed.

Lemma mq_sees_send_block zs q message flags : mq_sees zs (send_block q message flags).
Proof. unfold send_block. mq_see. mq_kern. Qed.

Lemma mq_sees_receive_block zs q message flags n tp : mq_sees zs (receive_block q message flags n tp).
Proof.
  unfold receive_block. mq_see; mq_kern. 
Qed.
#[local] Hint Resolve mq_sees_send_message mq_sees_receive_message mq_sees_send_block mq_sees_receive_block : mq_sees.

Lemma mq_sees_send zs q message flags : mq_sees zs (_lwmsgq_send q message flags).
Proof. unfold _lwmsgq_send. mq_see. mq_kern. Qed.

Lemma mq_sees_receive zs q message flags n tp : mq_sees zs (_lwmsgq_receive q message flags n tp).
Proof. unfold _lwmsgq_receive. mq_see. Qed.

Lemma mq_sees_resume zs : mq_sees zs resume.
Proof. unfold resume, resume_send, resume_receive. mq_see; mq_kern. Qed.

Lemma mq_sees_init zs q n size : mq_sees zs (_lwmsgq_init q n size).
Proof. unfold _lwmsgq_init, _lwmsgq_init_internal, set_q. mq_see; mq_kern. Qed.

Lemma mq_sees_deinit_q zs q : mq_sees zs (_lwmsgq_deinit q).
Proof. unfold _lwmsgq_deinit, _lwmsgq_deinit_internal, set_q. mq_see. Qed.
#[local] Hint Resolve mq_sees_send mq_sees_receive mq_sees_resume mq_sees_init mq_sees_deinit_q : mq_sees.

(** Every action but a call about one of these tasks. *)
Lemma mq_sees_action zs x :
  (forall c, x = ACall c -> quiet c = true /\ (forall t, boosts c = Some t -> t ∉ zs) /\
     (forall t, c = Ready t -> t ∉ zs)) ->
  mq_sees zs (run_action x).
Proof.
  intros Hc. unfold run_action. apply mq_sees_gets; [by destruct x|intros L].
  destruct x as [q n size|q|q message flags|q message flags n tp|a w0| |c]; unfold store; mq_see.
  destruct (Hc c eq_refl) as (Hq & Hb & Hr). by apply mq_sees_kern, sees_call.
Qed.

(** A task of [zs] is stranded, and a call that is correct next to the states
    [READY] is correct without them. *)
Lemma veil_stranded idle zs k t : sys idle k -> hidden LWMSGQ_WRITE_BLOCKED zs k -> t ∈ zs ->
  stranded (veil zs k) t.
Proof.
  intros Hs Hh Ht. destruct (hd_td _ _ _ Hh t Ht) as (d & Hd & Hst).
  exists (with_STATE READY d), (INFO d). split_and!; [by apply veil_td_in|done|].
  apply (in_aux k (INFO d) t); [apply Hs|]. exists d. by rewrite Hst.
Qed.

Lemma stranded_veil zs k t : stranded k t -> stranded (veil zs k) t.
Proof.
  intros (d & q & Hd & Hr & Hq). unfold stranded. rewrite veil_td, Hd. cbn.
  destruct (decide (t ∈ zs)); [exists (with_STATE READY d), q|exists d, q]; done.
Qed.

Lemma veil_is_some zs k t : is_Some (TD (veil zs k) !! t) <-> is_Some (TD k !! t).
Proof. rewrite veil_td. by rewrite fmap_is_Some. Qed.

Lemma allowed_veil idle zs k c : quiet c = true -> (forall t, c = Ready t -> t ∉ zs) ->
  allowed idle (veil zs k) c -> allowed idle k c.
Proof.
  intros Hq Hr. destruct c as [|ms|n|[n|]|[n|]|id p|t p|t n|id p| | |t|p mem|q|q b| | |hw]; try discriminate;
    cbn [allowed]; try done.
  - intros [H1 H2]. split; [by eapply veil_is_some|done].
  - apply veil_is_some.
  - intros (d & Hd & H). rewrite veil_td_out in Hd by (by apply Hr). eauto.
Qed.

Lemma can_veil idle zs L x : can idle (veilL zs L) x ->
  (forall t, x = ACall (Ready t) -> t ∉ zs) -> can idle L x.
Proof.
  destruct x as [q n size|q|q message flags|q message flags n tp|a w0| |c]; try done. cbn [can veilL KD set_KD].
  intros (Hq & Ha & Hf & Hst) Hr. split_and!; [done| |exact Hf|].
  - eapply allowed_veil; [done| |exact Ha]. intros t ->. by apply Hr.
  - intros t Ht Hs. by apply (Hst t Ht), stranded_veil.
Qed.

(** A sender that was woken and finds the queue full waits, and one more task is
    stranded. *)
Lemma resume_again idle zs L s q message flags v d :
  xinv idle L s -> mq_hidden zs L -> IN_ISR (KD L) = 0 ->
  PC L !! ACTIVE_PTR (KD L) = Some (InSend q message flags) ->
  TD (KD L) !! ACTIVE_PTR (KD L) = Some d -> INFO d <> LWMSGQ_DEINIT_INFO ->
  QS L !! q = Some v -> MAX_SIZE v <= CURRENT_SIZE v ->
  exists L', run_action AResume (veilL zs L) = Some ([], veilL (zs ∪ {[ACTIVE_PTR (KD L)]}) L') /\
    xinv idle L' s /\ mq_hidden (zs ∪ {[ACTIVE_PTR (KD L)]}) L' /\
    ACTIVE_PTR (KD L) ∈ on (AUX_QUEUES (KD L')) (WAITING_WRITERS q).
Proof.
  intros Hx Hh Hi Hp Hd Hde Hv Hfull. pose proof Hx as (Hs & Hb & Hl & Ho). set (t := ACTIVE_PTR (KD L)) in *.
  destruct (sys_run _ _ Hs) as (d0 & Hd0 & Hr). fold t in Hd0. simplify_eq.
  destruct (b_pc _ _ _ Hb t _ Hp) as (_ & Hne & Hto & Hbuf). destruct (Hbuf q message eq_refl) as (v0 & Hv0 & Hbf).
  simplify_eq. destruct (leave_sender L t d _ Hd Hp Ho q message flags eq_refl) as [O1 O2].
  set (L0 := set_PC (delete t) L) in *. set (w := WAITING_WRITERS q).
  assert (base idle L0 s) as Hb0 by (apply leave_base; [done|by exists d]).
  assert (caller idle L0) as Hc.
  { split; [done|done|]. change (delete t (PC L) !! t = None). by rewrite lookup_delete, decide_True. }
  destruct (block_exec idle LWMSGQ_WRITE_BLOCKED w (KD L) d write_state Hs Hi Hne Hd) as (k' & E & Hk).
  fold t in E, Hk.
  set (p := InSend q message flags) in *. set (L1 := set_PC <[t := p]> L0).
  assert (xinv idle (set_KD k' L1) s) as Hx'.
  { pose proof (send_block_good idle L0 s q message flags v Hs Hb0 Hl Hc O1 O2 Hv Hfull Hbf) as Hg.
    unfold wp in Hg. revert Hg. change (ACTIVE_PTR (KD L0)) with t.
    rewrite (bind_run _ _ _ _ _ (kern_run _ L0 _ _ (upd_td_run t _ d (KD L0) Hd))). unfold send_block.
    set (L2 := set_KD _ L0). rewrite (bind_run _ _ _ _ _ (zoom_active L2)). change (ACTIVE_PTR (KD L2)) with t. fold p.
    rewrite (bind_run _ _ _ _ _ (eq_refl : modify (set_PC (<[t := p]>)) L2 = Some (tt, set_PC (<[t := p]>) L2))).
    erewrite (bind_run (kern _)); [|apply (kern_run _ _ tt k'); rewrite <-E; unfold block_on; rewrite bind_assoc;
      by apply (upd_upd t (with_STATE LWMSGQ_WRITE_BLOCKED) (with_INFO w))].
    by intros [_ H]. }
  assert (t ∉ TIMEOUT_QUEUE (KD L)) as Hq.
  { intros Hin. apply in_timeout in Hin as (e & He & H8); [|apply Hs]. simplify_eq. by rewrite Hr in H8. }
  destruct (block_again _ zs w d (KD L) k' Hh Hi Hd Hr Hq E) as [E2 Hh2]. fold t in E2, Hh2.
  exists (set_KD k' L1). split_and!; [|done|done|].
  - unfold run_action. set (LV := veilL zs L).
    rewrite (bind_run _ _ _ _ _ (eq_refl : gets id LV = Some (LV, LV))). unfold id, resume.
    rewrite (bind_run _ _ _ _ _ (zoom_active LV)). change (ACTIVE_PTR (KD LV)) with t.
    rewrite (bind_run _ _ _ _ _ (eq_refl : gets id LV = Some (LV, LV))). unfold id.
    rewrite (bind_run _ _ LV p LV) by (unfold lift_opt; change (PC LV) with (PC L); by rewrite Hp).
    set (LV0 := set_PC (delete t) LV).
    rewrite (bind_run _ _ _ _ _ (eq_refl : modify (set_PC (delete t)) LV = Some (tt, LV0))). unfold p at 1.
    rewrite (bind_run _ _ _ Waits (veilL (zs ∪ {[t]}) (set_KD k' L1))); [done|]. unfold resume_send.
    rewrite (bind_run _ _ _ _ _ (zoom_active LV0)). change (ACTIVE_PTR (KD LV0)) with t.
    assert (TD (KD LV0) !! t = Some d) as HdV
      by (transitivity (TD (KD L) !! t); [apply veil_td_out, Hh|done]).
    erewrite bind_run; [|by apply kern_run, get_td_run]. rewrite set_KD_same, (proj2 (Z.eqb_neq _ _) Hde).
    rewrite (bind_run _ _ _ _ _ (get_q_run q v LV0 Hv)).
    assert (LWMSGQ_IS_FULL v = true) as -> by (by apply Z.leb_le). unfold send_block.
    rewrite (bind_run _ _ _ _ _ (zoom_active LV0)). change (ACTIVE_PTR (KD LV0)) with t. fold p w.
    rewrite (bind_run _ _ _ _ _ (eq_refl : modify (set_PC (<[t := p]>)) LV0 = Some (tt, set_PC (<[t := p]>) LV0))).
    erewrite bind_run; [reflexivity|]. erewrite kern_run; [reflexivity|]. exact E2.
  - cbn. rewrite (bb_aux _ _ _ _ _ _ Hk), on_insert, decide_True by done. set_solver.
Qed.

(** Every action that is a correct use is done without a fault, and its events
    are those of bounded queues. *)
Definition wgood (idle : Z) (s : fifos) (ev : list event) (L' : mq) : Prop :=
  exists s', fifo_run s ev = Some s' /\ winv idle L' s'.

Lemma veil_step idle zs L s x : xinv idle L s -> mq_hidden zs L -> can idle L x ->
  (x = AResume -> roomy L) ->
  (forall c, x = ACall c -> (forall t, boosts c = Some t -> t ∉ zs) /\ (forall t, c = Ready t -> t ∉ zs)) ->
  wp False (run_action x) (veilL zs L) (wgood idle s).
Proof.
  intros Hx Hh Hc Hr Hb. pose proof (mq_action_good idle L s x Hx Hc Hr) as Hg.
  apply wp_total in Hg as (ev & L' & E & s' & Es & Hx'); [|tauto].
  assert (mq_sees zs (run_action x)) as Hsee.
  { apply mq_sees_action. intros c ->. split; [apply Hc|by apply Hb]. }
  destruct (Hsee L ev L' Hh E) as (zs' & _ & Hh' & E'). eapply wp_end; [exact E'|].
  exists s'. split; [done|]. by exists zs', L'.
Qed.

Definition crowded (L : mq) : Prop :=
  exists q message flags v d, PC L !! ACTIVE_PTR (KD L) = Some (InSend q message flags) /\
    QS L !! q = Some v /\ TD (KD L) !! ACTIVE_PTR (KD L) = Some d /\ INFO d <> LWMSGQ_DEINIT_INFO /\
    MAX_SIZE v <= CURRENT_SIZE v.

Lemma roomy_or L : roomy L \/ crowded L.
Proof.
  unfold roomy, crowded. destruct (PC L !! ACTIVE_PTR (KD L)) as [[q message flags| |]|]; [|by left..].
  destruct (QS L !! q) as [v|] eqn:Ev; [|left; intros * [= -> -> ->]; by rewrite Ev].
  destruct (TD (KD L) !! ACTIVE_PTR (KD L)) as [d|]; [|by left].
  destruct (decide (INFO d = LWMSGQ_DEINIT_INFO)); [left; by intros * _ _ [= <-]|].
  destruct (Z.lt_ge_cases (CURRENT_SIZE v) (MAX_SIZE v)); [|right; eauto 10].
  left. intros * [= <- <- <-]. rewrite Ev. by intros [= <-].
Qed.

Lemma mq_step_good idle L s x : winv idle L s -> can idle L x -> wp False (run_action x) L (wgood idle s).
Proof.
  intros (zs & L0 & -> & Hx & Hh) Hc. pose proof Hx as (Hs & _).
  assert (forall c, x = ACall c -> forall t, boosts c = Some t -> t ∉ zs) as Hb.
  { intros c -> t Ht Hz. destruct Hc as (_ & _ & _ & Hc). by eapply (Hc t Ht), veil_stranded. }
  assert (is_ready (KD L0) (ACTIVE_PTR (KD L0))) as Hr by apply Hs.
  assert ((exists z, x = ACall (Ready z) /\ z ∈ zs) \/ (forall z, x = ACall (Ready z) -> z ∉ zs)) as [(z & -> & Hz)|Hn].
  { destruct x as [| | | | | |[]]; try (by right; intros).
    destruct (decide (t ∈ zs)); [left; eauto|right; by intros z [= <-]]. }
  - destruct (hd_td _ _ _ Hh z Hz) as (d & Hd & _).
    assert (run_action (ACall (Ready z)) (veilL zs L0) = run_action (ACall (Ready (ACTIVE_PTR (KD L0)))) (veilL zs L0)) as Er.
    { unfold run_action, zoom, mbind, M_bind, gets, id. cbn -[run_call]. by rewrite (ready_veiled (w := LWMSGQ_WRITE_BLOCKED) z d). }
    unfold wp. rewrite Er. apply (veil_step idle zs L0 s (ACall (Ready (ACTIVE_PTR (KD L0))))); [done|done| |done|].
    + destruct Hc as (Hq & _ & Hf & _). split_and!; [done| |by destruct Hf; [|right]|done].
      destruct Hr as (e & He & Hr). exists e. auto.
    + intros c [= <-]. split; [done|]. intros t [= <-]. apply Hh.
  - assert (can idle L0 x) as Hc0 by (eapply can_veil; [done|apply Hn]).
    assert (forall c, x = ACall c -> (forall t, boosts c = Some t -> t ∉ zs) /\ (forall t, c = Ready t -> t ∉ zs)) as Hb'.
    { intros c ->. split; [by apply Hb|]. intros t ->. by apply Hn. }
    destruct (roomy_or L0) as [Hroom|(q & message & flags & v & d & H1 & H2 & H3 & H4 & H5)]; [by apply veil_step|].
    assert (x = AResume \/ x <> AResume) as [->|Hne] by (destruct x; first [by left|by right]); [|by apply veil_step].
    destruct (resume_again idle zs L0 s q message flags v d Hx Hh (proj1 Hc0) H1 H3 H4 H2 H5) as (L' & E & Hx' & Hh' & _).
    eapply wp_end; [exact E|]. exists s. split; [done|]. by eexists _, L'.
Qed.

(** The tallies are those without the states. *)
Lemma veil_woken idle zs L s q u : base idle L s -> mq_hidden zs L ->
  woken_receiver (veilL zs L) q u = woken_receiver L q u /\ woken_sender (veilL zs L) q u = woken_sender L q u.
Proof.
  intros Hb Hh. unfold woken_receiver, woken_sender. cbn -[veil]. destruct (decide (u ∈ zs)) as [Hu|Hu].
  - destruct (hd_td _ _ _ Hh u Hu) as (d & Hd & Hst).
    assert (Z.testbit (STATE d) 10 = true) as H10 by (by rewrite Hst).
    pose proof (mq_wait_info _ _ _ _ _ Hb Hd H10) as Hi.
    rewrite (veil_td_in zs (KD L) u d Hu Hd), Hd, H10. cbn. rewrite (proj2 (Z.eqb_neq (INFO d) 0)) by lia.
    destruct (PC L !! u) as [[]|]; by rewrite ?andb_false_r.
  - by rewrite veil_td_out.
Qed.

Lemma veil_tally idle zs L s q : base idle L s -> mq_hidden zs L ->
  tally woken_receiver (veilL zs L) q = tally woken_receiver L q /\
  tally woken_sender (veilL zs L) q = tally woken_sender L q.
Proof.
  intros Hb Hh. assert (dom (TD (KD (veilL zs L))) = dom (TD (KD L))) as Hd.
  { apply set_eq. intros u. rewrite !elem_of_dom. apply veil_is_some. }
  split; (apply tally_ext; [done|]); intros u; by apply (veil_woken idle zs L s q u).
Qed.


(** The states that actions reach, with the events on the way. *)
Inductive xreach (idle : Z) (L0 : mq) : list event -> mq -> Prop :=
  | xreach_start : xreach idle L0 [] L0
  | xreach_step tr L x ev L' : xreach idle L0 tr L -> can idle L x ->
      run_action x L = Some (ev, L') -> xreach idle L0 (tr ++ ev) L'.

Lemma fifo_run_app s ev1 ev2 : fifo_run s (ev1 ++ ev2) = s' ← fifo_run s ev1; fifo_run s' ev2.
Proof.
  revert s. induction ev1 as [|e ev IH]; intros s; [done|]. cbn. destruct (fifo_step s e); [apply IH|done].
Qed.

Lemma xreach_good idle L0 s0 tr L : xinv idle L0 s0 -> xreach idle L0 tr L ->
  exists s, fifo_run s0 tr = Some s /\ winv idle L s.
Proof.
  intros H0. induction 1 as [|tr L x ev L' _ (s & Es & Hx) Ha E]; [exists s0; split; [done|by apply xinv_winv]|].
  pose proof (mq_step_good idle L s x Hx Ha) as Hg. unfold wp in Hg. rewrite E in Hg.
  destruct Hg as (s' & Es' & Hx'). exists s'. split; [|done]. by rewrite fifo_run_app, Es.
Qed.

(** ** The properties *)

(** C2: Message queues are bounded first-in first-out queues, however senders,
    receivers, interrupts and the clock interleave: what was sent, received and
    refused is a history of such queues, and each ring in memory holds, from its
    read position on, the messages that were sent and not received.  A task that
    was woken and finds the queue full, or empty, again waits again.  (As [can]
    says, no mutex changes the priority of a sender that is [stranded].) *)
Theorem lwmsgq_fifo idle L0 s0 tr L :
  xinv idle L0 s0 -> xreach idle L0 tr L ->
  exists s, fifo_run s0 tr = Some s /\
    forall q v, QS L !! q = Some v ->
      exists l r, s !! q = Some (MAX_SIZE v, l) /\ zlen l = CURRENT_SIZE v /\ zlen l <= MAX_SIZE v /\
        0 <= r < MAX_SIZE v /\ MSG_READ_LOC v = slot q (MSG_SIZE v) r /\
        forall i msg, l !! i = Some msg ->
          words (MEM L) (Z.to_nat (MSG_SIZE v)) (slot q (MSG_SIZE v) ((r + Z.of_nat i) mod MAX_SIZE v)) = Some msg.
Proof.
  intros H0 Hr. destruct (xreach_good _ _ _ _ _ H0 Hr) as (s & Es & zs & L1 & -> & (_ & Hb & _) & _).
  exists s. split; [done|]. intros q v Hv. cbn [QS MEM veilL set_KD] in *. destruct (b_ring _ _ _ Hb q v Hv) as (l & r & E & []).
  exists l, r. split_and!; first [done|lia].
Qed.

(** C14: No wakeup is lost: while tasks wait to receive from a queue, every
    message in it has a receiver that was woken and has not run yet; while tasks
    wait to send, so has every free place a sender.  A sender that was woken never
    puts more messages into the queue than it has places.  (The calls are those
    of [can]: no mutex changes the priority of a sender that is [stranded].) *)
Theorem lwmsgq_no_lost_wakeup idle L0 s0 tr L q v :
  xinv idle L0 s0 -> xreach idle L0 tr L -> QS L !! q = Some v -> QVALID v = LWMSGQ_VALID ->
  0 <= CURRENT_SIZE v <= MAX_SIZE v /\
  (on (AUX_QUEUES (KD L)) (WAITING_READERS q) <> [] -> CURRENT_SIZE v <= tally woken_receiver L q) /\
  (on (AUX_QUEUES (KD L)) (WAITING_WRITERS q) <> [] -> MAX_SIZE v - CURRENT_SIZE v <= tally woken_sender L q).
Proof.
  intros H0 Hr Hv Hva. destruct (xreach_good _ _ _ _ _ H0 Hr) as (s & _ & zs & L1 & -> & (_ & Hb & _ & Ho) & Hh).
  destruct (b_ring _ _ _ Hb q v Hv) as (l & r & _ & Hrg). pose proof (rg_len _ _ _ _ _ Hrg).
  pose proof (rg_bound _ _ _ _ _ Hrg).
  destruct (Ho q v Hv Hva) as [C1 C2]. destruct (veil_tally idle zs L1 s q Hb Hh) as [-> ->].
  split_and!; [lia|lia|intros Hx; specialize (C1 Hx)|intros Hx; specialize (C2 Hx)]; lia.
Qed.

(** Every call that the program may make, and every interrupt and switch,
    ends without a fault, in any reachable state. *)
Theorem lwmsgq_total idle L0 s0 tr L x :
  xinv idle L0 s0 -> xreach idle L0 tr L -> can idle L x -> exists ev L', run_action x L = Some (ev, L').
Proof.
  intros H0 Hr Ha. destruct (xreach_good _ _ _ _ _ H0 Hr) as (s & _ & Hx).
  pose proof (mq_step_good idle L s x Hx Ha) as Hg. apply wp_total in Hg as (ev & L' & E & _); [eauto|tauto].
Qed.

(** C37: A sender that was woken, and finds that another one has filled the
    queue again, waits again but is left in the state [READY]: it is in no ready
    queue, and the invariant of the scheduler is broken. *)
Theorem lwmsgq_sender_waits_ready idle L s q message flags v d :
  winv idle L s -> IN_ISR (KD L) = 0 -> PC L !! ACTIVE_PTR (KD L) = Some (InSend q message flags) ->
  TD (KD L) !! ACTIVE_PTR (KD L) = Some d -> INFO d <> LWMSGQ_DEINIT_INFO ->
  QS L !! q = Some v -> MAX_SIZE v <= CURRENT_SIZE v ->
  exists L' d', run_action AResume L = Some ([], L') /\
    TD (KD L') !! ACTIVE_PTR (KD L) = Some d' /\ STATE d' = READY /\
    ACTIVE_PTR (KD L) ∈ on (AUX_QUEUES (KD L')) (WAITING_WRITERS q) /\
    (forall p, ACTIVE_PTR (KD L) ∉ on (READY_Q_LIST (KD L')) p) /\ (kinv (KD L') -> False).
Proof.
  intros (zs & L0 & -> & Hx & Hh) Hi Hp Hd Hde Hv Hfull.
  change (ACTIVE_PTR (KD (veilL zs L0))) with (ACTIVE_PTR (KD L0)) in *. set (t := ACTIVE_PTR (KD L0)) in *.
  assert (TD (KD L0) !! t = Some d) as Hd0 by (rewrite <-Hd; symmetry; apply veil_td_out, Hh).
  destruct (resume_again idle zs L0 s q message flags v d Hx Hh Hi Hp Hd0 Hde Hv Hfull) as (L' & E & Hx' & Hh' & Hq).
  fold t in E, Hh', Hq. set (zs' := zs ∪ {[t]}) in *. assert (t ∈ zs') as Ht by set_solver.
  destruct (hd_td _ _ _ Hh' t Ht) as (d' & Hd' & _).
  assert (TD (KD (veilL zs' L')) !! t = Some (with_STATE READY d')) as Hd2 by (by apply veil_td_in).
  assert (forall p, t ∉ on (READY_Q_LIST (KD L')) p) as Hnr by (intros p Hin; by apply (hd_ready _ _ _ Hh' p t)).
  exists (veilL zs' L'), (with_STATE READY d'). split_and!; try done.
  intros [_ Hk]. pose proof (home_td _ _ _ (Hk t) Hd2) as (H1 & _).
  rewrite place_ready in H1 by done. apply (Hnr (PRIORITY (with_STATE READY d'))). by apply H1.
Qed.

(** C36: Destroying a queue ends every wait for it: its tasks are ready, and
    their calls return [LWMSGQ_DEINIT] when they run again; later calls fail
    with [LWMSGQ_INVALID]. *)
Theorem lwmsgq_deinit_ends_waits idle L s q l :
  winv idle L s -> LWMSGQS L = Some l -> q ∈ l ->
  exists L', _lwmsgq_deinit q L = Some (MQX_OK, L') /\ winv idle L' s /\ (xinv idle L s -> xinv idle L' s) /\
    LWMSGQS L' = Some (without q l) /\
    on (AUX_QUEUES (KD L')) (WAITING_WRITERS q) = [] /\ on (AUX_QUEUES (KD L')) (WAITING_READERS q) = [] /\
    (forall t, t ∈ on (AUX_QUEUES (KD L)) (WAITING_WRITERS q) \/ t ∈ on (AUX_QUEUES (KD L)) (WAITING_READERS q) ->
       exists d, TD (KD L') !! t = Some d /\ STATE d = READY /\
         forall L2, ACTIVE_PTR (KD L2) = t -> TD (KD L2) !! t = Some d ->
           forall message flags n tp,
           resume_send q message flags L2 = Some (Returned LWMSGQ_DEINIT, L2) /\
           resume_receive q message flags n tp L2 = Some (Returned LWMSGQ_DEINIT, L2)) /\
    (IN_ISR (KD L') = 0 -> forall message flags n tp,
       _lwmsgq_send q message flags L' = Some (Returned LWMSGQ_INVALID, L') /\
       _lwmsgq_receive q message flags n tp L' = Some (Returned LWMSGQ_INVALID, L')).
Proof.
  intros (zs & L0 & -> & Hx & Hh) El Hin.
  destruct (deinit_exec idle L0 s q l Hx El Hin) as (L1 & E0 & Hx' & E1 & E2 & (v & Hv & Hv') & A1 & A2 & A3).
  destruct (mq_sees_deinit_q zs q L0 _ L1 Hh E0) as (zs' & _ & Hh' & E). set (L' := veilL zs' L1) in *.
  exists L'. split_and!; try done.
  - by exists zs', L1.
  - intros Hx2. by destruct (deinit_exec idle _ s q l Hx2 El Hin) as (L2 & E2' & Hx2' & _); simplify_eq.
  - intros t Ht. destruct (A3 t Ht) as (d & Hd & Hr & Hi).
    assert (t ∉ zs') as Hz.
    { intros Hz. destruct (hd_td _ _ _ Hh' t Hz) as (d' & Hd' & Hst). simplify_eq. by rewrite Hr in Hst. }
    exists d. split_and!; [by rewrite <-Hd; apply veil_td_out|done|].
    intros L2 Ha Hd2 message flags n tp. unfold resume_send, resume_receive.
    rewrite !(bind_run _ _ _ _ _ (zoom_active L2)), Ha.
    rewrite !(bind_run _ _ _ _ _ (kern_run _ L2 d (KD L2) (get_td_run t d _ Hd2))), Hi, set_KD_same. done.
  - intros Hi message flags n tp. unfold _lwmsgq_send, _lwmsgq_receive.
    rewrite !(bind_run _ _ _ _ _ (eq_refl : gets id L' = Some (L', L'))). unfold id. rewrite Hi. cbn [negb andb Z.eqb].
    by rewrite !(bind_run _ _ _ _ _ (get_q_run q _ L' Hv')).
Qed.

(** *** Examples *)

Lemma xinv_start idle k m : sys idle k ->
  (forall t d, TD k !! t = Some d -> Z.testbit (STATE d) 10 = false) -> xinv idle (Mq k ∅ None m ∅) ∅.
Proof.
  intros Hs Ht. split_and!; [done| | |].
  - split.
    + apply Hs.
    + intros t d Hd H10. by rewrite (Ht _ _ Hd) in H10.
    + intros t p Hp. destruct (lookup_empty_Some (M := gmap Z) t p Hp).
    + intros q v Hv. destruct (lookup_empty_Some (M := gmap Z) q v Hv).
    + intros q v q' v' Hv. destruct (lookup_empty_Some (M := gmap Z) q v Hv).
  - intros q. cbn. split; [intros H; by apply elem_of_nil in H|by intros (v & ? & _)].
  - intros q v Hv. destruct (lookup_empty_Some (M := gmap Z) q v Hv).
Qed.

(** Tasks 1 and 2 are ready at priority 3, 1 runs; memory for a queue of one
    message of one word at 1000, and for messages at 2000 and 2004. *)
Definition ex_mq : mq :=
  Mq (after (Ready 2) (after (Ready 1) ex_boot)) ∅ None {[1064 := 0; 2000 := 7; 2004 := 0]} ∅.

Lemma ex_mq_xinv : xinv 9 ex_mq ∅.
Proof.
  apply xinv_start.
  - apply after_sys; [apply after_sys; [exact ex_boot_sys|]|];
      (eexists; split; [vm_compute; reflexivity|]; right; vm_compute; reflexivity).
  - assert (map_Forall (fun _ d => Z.testbit (STATE d) 10 = false) (TD (KD ex_mq))) as H; [|exact H].
    apply (bool_decide_eq_true_1 _). vm_compute. reflexivity.
Qed.

Definition xafter (x : action) (L : mq) : mq :=
  match run_action x L with Some (_, L') => L' | None => L end.

(** 1 sends, and sends again: it waits; 2 receives, sends, and yields. *)
Definition ex_init : mq := xafter (AInit 1000 1 1) ex_mq.
Definition ex_sent : mq := xafter (ASend 1000 2000 1) ex_init.
Definition ex_full : mq := xafter (ASend 1000 2000 1) ex_sent.
Definition ex_room : mq := xafter (AReceive 1000 2004 4 0 None) ex_full.
Definition ex_again : mq := xafter (ACall Yield) (xafter (ASend 1000 2000 1) ex_room).

Lemma ex_buffer L v b : QS L = {[1000 := v]} -> MSG_END_LOC v = 1068 -> MSG_SIZE v = 1 ->
  is_Some (MEM L !! b) -> 2000 <= b -> exists v, QS L !! 1000 = Some v /\ buffer_ok L (MSG_SIZE v) b.
Proof.
  intros E He Hz Hb Hlo. exists v. split; [rewrite E; apply lookup_singleton_eq|]. rewrite Hz.
  intros i Hi. assert (i = 0) as -> by lia. rewrite Z.mul_0_r, Z.add_0_r. split; [done|].
  intros q w. rewrite E, lookup_singleton. case_decide; [|done]. intros [= <-]. unfold in_region. lia.
Qed.

(** What the program may do, where that is evaluated. *)
Ltac ex_task := intros _; vm_compute; first [reflexivity | discriminate].
Ltac ex_can := split; [ex_task|split; [ex_task|]].
Ltac ex_mem := eapply ex_buffer; [vm_compute; reflexivity|reflexivity|reflexivity|eexists; vm_compute; reflexivity|lia].

Lemma ex_init_reach : xreach 9 ex_mq [Opened 1000 1] ex_init.
Proof.
  change [Opened 1000 1] with ([] ++ [Opened 1000 1]).
  eapply (xreach_step _ _ [] ex_mq (AInit 1000 1 1)); [constructor| |vm_compute; reflexivity].
  split; [ex_task|]. split; [lia|]. split; [lia|]. split; [lia|]. split; [unfold sizeof_LWMSGQ_STRUCT; lia|].
  split; [vm_compute; reflexivity|]. split; [vm_compute; reflexivity|]. split; [done|].
  split; [intros t p b Hp; destruct (lookup_empty_Some (M := gmap Z) t p Hp)|].
  split; [intros q v Hv; destruct (lookup_empty_Some (M := gmap Z) q v Hv)|].
  split; [|intros t p q b v i Hp; destruct (lookup_empty_Some (M := gmap Z) t p Hp)].
  intros i Hi. assert (i = 0) as -> by lia. eexists. vm_compute. reflexivity.
Qed.

Lemma ex_full_reach : xreach 9 ex_mq [Opened 1000 1; Sent 1000 [7]] ex_full.
Proof.
  change [Opened 1000 1; Sent 1000 [7]] with (([Opened 1000 1] ++ [Sent 1000 [7]]) ++ []).
  eapply (xreach_step _ _ _ ex_sent (ASend 1000 2000 1)); [|ex_can; ex_mem|vm_compute; reflexivity].
  eapply (xreach_step _ _ _ ex_init (ASend 1000 2000 1)); [apply ex_init_reach|ex_can; ex_mem|vm_compute; reflexivity].
Qed.

Lemma ex_room_reach : xreach 9 ex_mq [Opened 1000 1; Sent 1000 [7]; Received 1000 [7]] ex_room.
Proof.
  change [Opened 1000 1; Sent 1000 [7]; Received 1000 [7]] with ([Opened 1000 1; Sent 1000 [7]] ++ [Received 1000 [7]]).
  eapply (xreach_step _ _ _ ex_full (AReceive 1000 2004 4 0 None)); [apply ex_full_reach| |vm_compute; reflexivity].
  ex_can. split; [intros Ht; vm_compute in Ht; discriminate|ex_mem].
Qed.

Lemma ex_again_reach : xreach 9 ex_mq
  [Opened 1000 1; Sent 1000 [7]; Received 1000 [7]; Sent 1000 [7]] ex_again.
Proof.
  change [Opened 1000 1; Sent 1000 [7]; Received 1000 [7]; Sent 1000 [7]] with
    (([Opened 1000 1; Sent 1000 [7]; Received 1000 [7]] ++ [Sent 1000 [7]]) ++ []).
  eapply (xreach_step _ _ _ (xafter (ASend 1000 2000 1) ex_room) (ACall Yield));
    [| |vm_compute; reflexivity].
  - eapply (xreach_step _ _ _ ex_room (ASend 1000 2000 1)); [apply ex_room_reach|ex_can; ex_mem|vm_compute; reflexivity].
  - split; [reflexivity|]. split; [exact I|]. split; [right; ex_task|done].
Qed.

(** 1 goes on, finds the queue full and waits again; 2 receives, and yields; 1
    sends. *)
Definition ex_stranded : mq := xafter AResume ex_again.
Definition ex_done : mq :=
  xafter AResume (xafter (ACall Yield) (xafter (AReceive 1000 2004 4 0 None) ex_stranded)).

Lemma ex_stranded_reach : xreach 9 ex_mq
  [Opened 1000 1; Sent 1000 [7]; Received 1000 [7]; Sent 1000 [7]] ex_stranded.
Proof.
  change [Opened 1000 1; Sent 1000 [7]; Received 1000 [7]; Sent 1000 [7]] with
    ([Opened 1000 1; Sent 1000 [7]; Received 1000 [7]; Sent 1000 [7]] ++ []).
  eapply (xreach_step _ _ _ ex_again AResume); [apply ex_again_reach| |vm_compute; reflexivity].
  split; [vm_compute; reflexivity|eexists; vm_compute; reflexivity].
Qed.

Lemma ex_done_reach : xreach 9 ex_mq
  [Opened 1000 1; Sent 1000 [7]; Received 1000 [7]; Sent 1000 [7]; Received 1000 [7]; Sent 1000 [7]] ex_done.
Proof.
  change [Opened 1000 1; Sent 1000 [7]; Received 1000 [7]; Sent 1000 [7]; Received 1000 [7]; Sent 1000 [7]] with
    ((([Opened 1000 1; Sent 1000 [7]; Received 1000 [7]; Sent 1000 [7]] ++ [Received 1000 [7]]) ++ []) ++ [Sent 1000 [7]]).
  eapply (xreach_step _ _ _ (xafter (ACall Yield) (xafter (AReceive 1000 2004 4 0 None) ex_stranded)) AResume);
    [| |vm_compute; reflexivity].
  - eapply (xreach_step _ _ _ (xafter (AReceive 1000 2004 4 0 None) ex_stranded) (ACall Yield));
      [| |vm_compute; reflexivity].
    + eapply (xreach_step _ _ _ ex_stranded (AReceive 1000 2004 4 0 None));
        [apply ex_stranded_reach| |vm_compute; reflexivity].
      ex_can. split; [intros Ht; vm_compute in Ht; discriminate|ex_mem].
    + split; [reflexivity|]. split; [exact I|]. split; [right; ex_task|done].
  - split; [vm_compute; reflexivity|eexists; vm_compute; reflexivity].
Qed.

(** 1 and 2 wait to receive, and an interrupt sends a message. *)
Definition ex_waiting : mq := xafter (AReceive 1000 2000 4 0 None) (xafter (AReceive 1000 2000 4 0 None) ex_init).
Definition ex_posted : mq := xafter (ASend 1000 2004 0) (xafter (ACall IsrEnter) ex_waiting).

Lemma ex_posted_reach : xreach 9 ex_mq [Opened 1000 1; Sent 1000 [0]] ex_posted.
Proof.
  change [Opened 1000 1; Sent 1000 [0]] with (((([Opened 1000 1] ++ []) ++ []) ++ []) ++ [Sent 1000 [0]]).
  eapply (xreach_step _ _ _ (xafter (ACall IsrEnter) ex_waiting) (ASend 1000 2004 0));
    [|split; [ex_task|split; [intros Hi; vm_compute in Hi; discriminate|ex_mem]]|vm_compute; reflexivity].
  eapply (xreach_step _ _ _ ex_waiting (ACall IsrEnter)); [| |vm_compute; reflexivity].
  - eapply (xreach_step _ _ _ (xafter (AReceive 1000 2000 4 0 None) ex_init) (AReceive 1000 2000 4 0 None));
      [| |vm_compute; reflexivity].
    + eapply (xreach_step _ _ _ ex_init (AReceive 1000 2000 4 0 None)); [apply ex_init_reach| |vm_compute; reflexivity].
      ex_can. split; [intros Ht; vm_compute in Ht; discriminate|ex_mem].
    + ex_can. split; [intros Ht; vm_compute in Ht; discriminate|ex_mem].
  - split; [reflexivity|]. split; [vm_compute; reflexivity|]. split; [by left|done].
Qed.

Lemma lwmsgq_fifo_witness : exists s,
  fifo_run ∅ [Opened 1000 1; Sent 1000 [7]; Received 1000 [7]; Sent 1000 [7]; Received 1000 [7]; Sent 1000 [7]] = Some s /\
  s !! 1000 = Some (1, [[7]]).
Proof.
  destruct (lwmsgq_fifo 9 ex_mq ∅ _ ex_done ex_mq_xinv ex_done_reach) as (s & E & _).
  exists s. split; [exact E|]. vm_compute in E. injection E as <-. vm_compute. reflexivity.
Defined.

Lemma lwmsgq_no_lost_wakeup_witness :
  on (AUX_QUEUES (KD ex_posted)) (WAITING_READERS 1000) = [2] /\ 1 <= tally woken_receiver ex_posted 1000.
Proof.
  destruct (QS ex_posted !! 1000) as [v|] eqn:E; [|vm_compute in E; discriminate].
  destruct (lwmsgq_no_lost_wakeup 9 ex_mq ∅ _ ex_posted 1000 v ex_mq_xinv ex_posted_reach E) as (_ & H & _);
    vm_compute in E; injection E as <-; [reflexivity|].
  split; [vm_compute; reflexivity|]. apply H. vm_compute. discriminate.
Defined.

Lemma lwmsgq_total_witness : exists ev L', run_action (AReceive 1000 2004 4 0 None) ex_full = Some (ev, L').
Proof.
  apply (lwmsgq_total 9 ex_mq ∅ _ ex_full _ ex_mq_xinv ex_full_reach).
  ex_can. split; [intros Ht; vm_compute in Ht; discriminate|ex_mem].
Defined.

Lemma lwmsgq_sender_waits_ready_witness : exists L', run_action AResume ex_again = Some ([], L') /\
  (kinv (KD L') -> False).
Proof.
  destruct (xreach_good 9 ex_mq ∅ _ ex_again ex_mq_xinv ex_again_reach) as (s & _ & Hx).
  destruct (QS ex_again !! 1000) as [v|] eqn:E; [|vm_compute in E; discriminate].
  destruct (TD (KD ex_again) !! 1) as [d|] eqn:Ed; [|vm_compute in Ed; discriminate].
  destruct (lwmsgq_sender_waits_ready 9 ex_again s 1000 2000 1 v d Hx) as (L' & d' & E' & _ & _ & _ & _ & Hk);
    [vm_compute; reflexivity|vm_compute; reflexivity|exact Ed|vm_compute in Ed; injection Ed as <-; discriminate
    |exact E|vm_compute in E; injection E as <-; vm_compute; discriminate|].
  exists L'. split; [exact E'|exact Hk].
Defined.

Lemma lwmsgq_deinit_ends_waits_witness : exists L', _lwmsgq_deinit 1000 ex_full = Some (MQX_OK, L') /\
  exists d, TD (KD L') !! 1 = Some d /\ STATE d = READY.
Proof.
  destruct (xreach_good 9 ex_mq ∅ _ ex_full ex_mq_xinv ex_full_reach) as (s & _ & Hx).
  destruct (lwmsgq_deinit_ends_waits 9 ex_full s 1000 [1000] Hx) as (L' & E & _ & _ & _ & _ & _ & H & _);
    [vm_compute; reflexivity|apply elem_of_cons; left; reflexivity|].
  exists L'. split; [exact E|]. destruct (H 1) as (d & Hd & Hr & _).
  - left. assert (on (AUX_QUEUES (KD ex_full)) (WAITING_WRITERS 1000) = [1]) as -> by (vm_compute; reflexivity).
    apply elem_of_cons. left. reflexivity.
  - exists d. split; [exact Hd|exact Hr].
Defined.
End Lwmsgq.
