(* ===== verification/Lwevent.v ===== *)
(** * Lightweight events: [kernel/lwevent.c]

    An event is a word of bits at an address.  Tasks wait for all or any of some
    bits; a set wakes the tasks whose bits are there, in the order in which they
    came, and takes away from the later ones the bits that clear themselves.  The
    state is that of the scheduler with the fields of the events and the field
    [LWEVENT_BITS] of the descriptors.

    A wait that blocks ends, in the model, where the task is switched away; [PC]
    records it, and [resume] is the rest of the function. *)

From S2P Require Import Prelude Clocks Kernel Frame Waits.

Module Lwevent.

Export Waits.

#[local] Arguments Z.testbit : simpl never.
#[local] Arguments Z.land : simpl never.
#[local] Arguments Z.lor : simpl never.
#[local] Arguments Z.lnot : simpl never.

(** ** Constants *)

Definition LWEVENT_AUTO_CLEAR : Z := 1.
Definition LWEVENT_WAIT_TIMEOUT : Z := 784.       (* EVENT_ERROR_BASE | 0x10 *)
Definition MQX_LWEVENT_INVALID : Z := 57.
Definition MQX_EINVAL : Z := 1040.
Definition LWEVENT_VALID : Z := 1818588782.       (* 0x6C65766E *)
Definition LWEVENT_BLOCKED : Z := Z.lor 44 (Z.lor TD_IS_ON_AUX_QUEUE IS_BLOCKED).
Definition TASK_LWEVENT_ALL_BITS_WANTED : Z := 128.

(** ** State *)

Record event := Event { EVALID : Z; EVALUE : Z; EFLAGS : Z; EAUTO : Z }.

(** The offset of the queue of tasks. *)
Definition WAITING_TASKS (e : Z) : Z := e + 8.

(** Where a task that was switched away goes on: after the [_task_block] or, with
    a timeout, the [_time_delay_until] or [_time_delay_for] of
    [_lwevent_wait_internal], which was called with these arguments. *)
Record pc := InWait { PC_event : Z; PC_mask : Z; PC_all : bool; PC_timed : bool }.

Record ev := Ev {
  KD : kernel;
  EVS : gmap Z event;
  LWEVENTS : option (list Z);            (* [None]: its links are still null *)
  LWEVENT_BITS : gmap Z Z;               (* a field of the descriptors; absent: 0 *)
  PC : gmap Z pc
}.

Definition set_KD (k : kernel) (L : ev) : ev := Ev k (EVS L) (LWEVENTS L) (LWEVENT_BITS L) (PC L).
Definition set_EVS (f : gmap Z event -> gmap Z event) (L : ev) : ev :=
  Ev (KD L) (f (EVS L)) (LWEVENTS L) (LWEVENT_BITS L) (PC L).
Definition set_LIST (l : option (list Z)) (L : ev) : ev :=
  Ev (KD L) (EVS L) l (LWEVENT_BITS L) (PC L).
Definition set_BITS (f : gmap Z Z -> gmap Z Z) (L : ev) : ev :=
  Ev (KD L) (EVS L) (LWEVENTS L) (f (LWEVENT_BITS L)) (PC L).
Definition set_PC (f : gmap Z pc -> gmap Z pc) (L : ev) : ev :=
  Ev (KD L) (EVS L) (LWEVENTS L) (LWEVENT_BITS L) (f (PC L)).

Abbreviation kern := (zoom KD set_KD).

#[export] Instance event_zoom : ZoomLaw KD set_KD.
Proof. by intros []. Qed.

#[local] Abbreviation set_KD_same := (zoom_same (get := KD) (set := set_KD)).
#[local] Abbreviation kern_run := (zoom_run (get := KD) (set := set_KD)).

Definition bits (L : ev) (t : Z) : Z := default 0 (LWEVENT_BITS L !! t).

Definition get_e (e : Z) : M ev event := fun L =>
  match EVS L !! e with Some v => Some (v, L) | None => None end.
Definition set_e (e : Z) (v : event) : M ev unit := modify (set_EVS (<[e := v]>)).

Definition with_VALUE (x : Z) (v : event) : event := Event (EVALID v) x (EFLAGS v) (EAUTO v).

(** A wait returns, or switches away. *)
Inductive outcome := Returned (r : Z) | Switched.

(** ** Creation and destruction *)

Definition _lwevent_create_internal (e flags : Z) : M ev Z :=
  kern (modify (set_AUX_QUEUES (<[WAITING_TASKS e := []]>)));;
  set_e e (Event LWEVENT_VALID 0 flags
                 (if negb (Z.land flags LWEVENT_AUTO_CLEAR =? 0) then 4294967295 else 0));;
  L ← gets id;
  let l := default [] (LWEVENTS L) in
  modify (set_LIST (Some l));;
  if bool_decide (e ∈ l) then mret MQX_EINVAL
  else modify (set_LIST (Some (l ++ [e])));; mret MQX_OK.

Definition _lwevent_create (e flags : Z) : M ev Z := _lwevent_create_internal e flags.

Definition _lwevent_destroy_internal (e : Z) : M ev Z :=
  L ← gets id;
  if negb (IN_ISR (KD L) =? 0) then mret MQX_CANNOT_CALL_FUNCTION_FROM_ISR
  else
    v ← get_e e;
    if negb (EVALID v =? LWEVENT_VALID) then mret MQX_LWEVENT_INVALID
    else
      set_e e (Event 0 (EVALUE v) (EFLAGS v) (EAUTO v));;
      kern (release_all (on (AUX_QUEUES (KD L)) (WAITING_TASKS e)) (WAITING_TASKS e));;
      l ← lift_opt (LWEVENTS L);
      modify (set_LIST (Some (without e l)));;
      kern _sched_check_scheduler_internal;;
      mret MQX_OK.

Definition _lwevent_destroy (e : Z) : M ev Z := _lwevent_destroy_internal e.

(** ** Bits *)

Definition _lwevent_clear (e bit_mask : Z) : M ev Z :=
  v ← get_e e;
  if negb (EVALID v =? LWEVENT_VALID) then mret MQX_LWEVENT_INVALID
  else set_e e (with_VALUE (Z.land (EVALUE v) (Z.lnot bit_mask)) v);; mret MQX_OK.

Definition _lwevent_get_signalled : M ev Z :=
  t ← kern active; L ← gets id; mret (bits L t).

Definition _lwevent_set_auto_clear (e auto_mask : Z) : M ev Z :=
  v ← get_e e;
  if negb (EVALID v =? LWEVENT_VALID) then mret MQX_LWEVENT_INVALID
  else set_e e (Event (EVALID v) (EVALUE v) (EFLAGS v) auto_mask);; mret MQX_OK.

(** All, or any, of the bits [b] are among [set_bits]. *)
Definition met (all : bool) (b set_bits : Z) : bool :=
  (all && (Z.land b set_bits =? b)) || (negb all && negb (Z.land b set_bits =? 0)).

Definition all_wanted (d : td) : bool :=
  negb (Z.land (FLAGS d) TASK_LWEVENT_ALL_BITS_WANTED =? 0).

(** The loop of [_lwevent_set]; [l] is what is left of the queue, and the result
    is what is left of the bits. *)
Fixpoint set_loop (l : list Z) (e auto set_bits : Z) : M ev Z :=
  match l with
  | [] => mret set_bits
  | t :: l' =>
      d ← kern (get_td t);
      L ← gets id;
      if met (all_wanted d) (bits L t) set_bits then
        kern (wake_first true (WAITING_TASKS e) t 0);;
        let b := Z.land (bits L t) set_bits in
        modify (set_BITS (<[t := b]>));;
        set_loop l' e auto (Z.land set_bits (Z.lnot (Z.land auto b)))
      else set_loop l' e auto set_bits
  end.

Definition _lwevent_set (e bit_mask : Z) : M ev Z :=
  v ← get_e e;
  if negb (EVALID v =? LWEVENT_VALID) then mret MQX_LWEVENT_INVALID
  else
    L ← gets id;
    set_bits ← set_loop (on (AUX_QUEUES (KD L)) (WAITING_TASKS e)) e (EAUTO v)
                        (Z.lor (EVALUE v) bit_mask);
    set_e e (with_VALUE set_bits v);;
    kern _sched_check_scheduler_internal;;
    mret MQX_OK.

(** ** Waiting *)

Definition want (all : bool) (d : td) : td :=
  with_FLAGS (if all then Z.lor (FLAGS d) TASK_LWEVENT_ALL_BITS_WANTED
              else Z.land (FLAGS d) (Z.lnot TASK_LWEVENT_ALL_BITS_WANTED)) d.

Definition _lwevent_wait_internal (e bit_mask : Z) (all : bool) (tick_ptr : option ticks)
    (ticks_are_absolute : bool) : M ev outcome :=
  L ← gets id;
  if negb (IN_ISR (KD L) =? 0) then mret (Returned MQX_CANNOT_CALL_FUNCTION_FROM_ISR)
  else
    t ← kern active;
    v ← get_e e;
    if negb (EVALID v =? LWEVENT_VALID) then mret (Returned MQX_LWEVENT_INVALID)
    else if (all && (Z.land (EVALUE v) bit_mask =? bit_mask)) ||
            (negb all && negb (Z.land (EVALUE v) bit_mask =? 0)) then
      modify (set_BITS (<[t := Z.land (EVALUE v) bit_mask]>));;
      set_e e (with_VALUE (Z.land (EVALUE v) (Z.lnot (Z.land (EAUTO v) bit_mask))) v);;
      mret (Returned MQX_OK)
    else
      modify (set_BITS (<[t := bit_mask]>));;
      kern (upd_td t (want all));;
      modify (set_PC (<[t := InWait e bit_mask all (bool_decide (is_Some tick_ptr))]>));;
      kern (queue_on LWEVENT_BLOCKED (WAITING_TASKS e) t);;
      kern (match tick_ptr with
            | Some tick =>
                if ticks_are_absolute then _time_delay_until (Some tick) else _time_delay_for (Some tick)
            | None => _task_block
            end);;
      mret Switched.

Definition _lwevent_wait_for (e bit_mask : Z) (all : bool) (tick_ptr : option ticks) : M ev outcome :=
  _lwevent_wait_internal e bit_mask all tick_ptr false.

Definition _lwevent_wait_until (e bit_mask : Z) (all : bool) (tick_ptr : option ticks) : M ev outcome :=
  _lwevent_wait_internal e bit_mask all tick_ptr true.

Definition _lwevent_wait_ticks (e bit_mask : Z) (all : bool) (timeout_in_ticks : Z) : M ev outcome :=
  if negb (timeout_in_ticks =? 0) then
    _lwevent_wait_internal e bit_mask all
      (Some (PSP_ADD_TICKS_TO_TICK_STRUCT _mqx_zero_tick_struct timeout_in_ticks _mqx_zero_tick_struct)) false
  else _lwevent_wait_internal e bit_mask all None false.

(** The rest of [_lwevent_wait_internal], when the task runs again. *)
Definition resume : M ev Z :=
  t ← kern active;
  L ← gets id;
  p ← lift_opt (PC L !! t);
  modify (set_PC (delete t));;
  d ← kern (get_td t);
  v ← get_e (PC_event p);
  mret (if EVALID v =? 0 then MQX_LWEVENT_INVALID
        else if PC_timed p && negb (INFO d =? 0) then LWEVENT_WAIT_TIMEOUT
        else MQX_OK).

(** ** The system: tasks, interrupts and events *)

(** What happens to the bits: a set; a wait that returns [MQX_OK] with bits; a new
    mask of the bits that clear themselves.  [UnderWay e t b]: an event is created
    while the task [t] has not returned yet from a wait for one at the same
    address, which will succeed with the bits [b]. *)
Inductive trace_event :=
  | Signalled (e bit_mask : Z) | Delivered (e t b : Z) | AutoSet (e auto : Z) | UnderWay (e t b : Z).

(** The wait of [t] for [e] has ended, by a set or by the destruction of [e]; when
    [t] runs again it will return [MQX_OK] if [e] is valid then. *)
Definition ended (L : ev) (e t : Z) : bool :=
  match PC L !! t, TD (KD L) !! t with
  | Some p, Some d =>
      (PC_event p =? e) && negb (Z.testbit (STATE d) 10) && (negb (PC_timed p) || (INFO d =? 0))
  | _, _ => false
  end.

Definition tasks (L : ev) : list Z := elements (dom (TD (KD L))).

Definition under_way (L : ev) (e : Z) : list trace_event :=
  (fun t => UnderWay e t (bits L t)) <$> filter (fun t => ended L e t = true) (tasks L).

Inductive action :=
  | ACreate (e flags : Z) | ADestroy (e : Z)
  | ASet (e bit_mask : Z) | AClear (e bit_mask : Z) | ASetAuto (e auto_mask : Z)
  | AWaitFor (e bit_mask : Z) (all : bool) (tick_ptr : option ticks)
  | AWaitUntil (e bit_mask : Z) (all : bool) (tick_ptr : option ticks)
  | AWaitTicks (e bit_mask : Z) (all : bool) (timeout_in_ticks : Z)
  | AResume                       (* the running task goes on after a switch *)
  | ACall (c : kcall).            (* another kernel call, an interrupt or a tick *)

Definition wait_events (L' : ev) (e t : Z) (o : outcome) : list trace_event :=
  match o with
  | Returned r => if r =? MQX_OK then [Delivered e t (bits L' t)] else []
  | Switched => []
  end.

Definition run_action (x : action) : M ev (list trace_event) :=
  L ← gets id;
  let t := ACTIVE_PTR (KD L) in
  match x with
  | ACreate e flags =>
      _lwevent_create e flags;; L' ← gets id;
      mret (match EVS L' !! e with Some v => AutoSet e (EAUTO v) :: under_way L e | None => [] end)
  | ADestroy e => _lwevent_destroy e;; mret []
  | ASet e m => r ← _lwevent_set e m; mret (if r =? MQX_OK then [Signalled e m] else [])
  | AClear e m => _lwevent_clear e m;; mret []
  | ASetAuto e m => r ← _lwevent_set_auto_clear e m; mret (if r =? MQX_OK then [AutoSet e m] else [])
  | AWaitFor e m all tick => o ← _lwevent_wait_for e m all tick; L' ← gets id; mret (wait_events L' e t o)
  | AWaitUntil e m all tick => o ← _lwevent_wait_until e m all tick; L' ← gets id; mret (wait_events L' e t o)
  | AWaitTicks e m all n => o ← _lwevent_wait_ticks e m all n; L' ← gets id; mret (wait_events L' e t o)
  | AResume =>
      p ← lift_opt (PC L !! t);
      r ← resume; L' ← gets id; mret (wait_events L' (PC_event p) t (Returned r))
  | ACall c => kern (run_call c);; mret []
  end.

(** The running task is not inside a wait. *)
Definition free (L : ev) : Prop := IN_ISR (KD L) = 0 -> PC L !! ACTIVE_PTR (KD L) = None.

Definition can (idle : Z) (L : ev) (x : action) : Prop :=
  match x with
  | ACreate e _ => free L /\ 0 <= e /\ on (AUX_QUEUES (KD L)) (WAITING_TASKS e) = [] /\
      forall l, LWEVENTS L = Some l -> e ∉ l
  | ADestroy e | ASet e _ | AClear e _ | ASetAuto e _ => free L /\ is_Some (EVS L !! e)
  | AWaitFor e _ _ _ | AWaitUntil e _ _ _ | AWaitTicks e _ _ _ =>
      free L /\ is_Some (EVS L !! e) /\ (IN_ISR (KD L) = 0 -> ACTIVE_PTR (KD L) <> idle)
  | AResume => IN_ISR (KD L) = 0 /\ is_Some (PC L !! ACTIVE_PTR (KD L))
  | ACall c => quiet c = true /\ allowed idle (KD L) c /\ (c = IsrEnter \/ free L)
  end.

(** *** The specification of a set *)

(** A task that waits: for all or any of its bits. *)
Record waiter := Waiter { W_task : Z; W_all : bool; W_bits : Z }.

(** The waiters that get bits, with what they get; those that stay; and the bits
    that stay. *)
Fixpoint signal (auto set_bits : Z) (ws : list waiter) : list (Z * Z) * list waiter * Z :=
  match ws with
  | [] => ([], [], set_bits)
  | w :: ws' =>
      if met (W_all w) (W_bits w) set_bits then
        let b := Z.land (W_bits w) set_bits in
        let '(got, stay, rest) := signal auto (Z.land set_bits (Z.lnot (Z.land auto b))) ws' in
        ((W_task w, b) :: got, stay, rest)
      else
        let '(got, stay, rest) := signal auto set_bits ws' in
        (got, w :: stay, rest)
  end.

Definition waiter_of (L : ev) (t : Z) : waiter :=
  Waiter t (match TD (KD L) !! t with Some d => all_wanted d | None => false end) (bits L t).

(** ** Bits *)

(** The bits [a] are among [b]. *)
Definition sub (a b : Z) : Prop := Z.land a b = a.

#[export] Instance sub_preorder : PreOrder sub.
Proof.
  split; [intros a; apply Z.land_diag|]. unfold sub. intros a b c H1 H2.
  by rewrite <-H1, <-Z.land_assoc, H2.
Qed.

Lemma sub_land a b : sub (Z.land a b) a.
Proof. unfold sub. by rewrite Z.land_comm, Z.land_assoc, Z.land_diag. Qed.

Lemma sub_zero a b : sub a b -> b = 0 -> a = 0.
Proof. unfold sub. intros H ->. by rewrite Z.land_0_r in H. Qed.

Lemma sub_mono x a b : sub a b -> sub (Z.land x a) (Z.land x b).
Proof.
  unfold sub. intros H. rewrite <-Z.land_assoc, (Z.land_assoc a x b), (Z.land_comm a x), <-(Z.land_assoc x a b), H.
  by rewrite Z.land_assoc, Z.land_diag.
Qed.

(** What bits are enough for, more bits are enough for. *)
Lemma met_mono all b s s' : sub s' s -> met all b s' = true -> met all b s = true.
Proof.
  intros Hs. unfold met. destruct all; cbn [negb andb orb]; rewrite ?orb_false_r.
  - rewrite !Z.eqb_eq. intros H. rewrite <-H at 1. rewrite <-Z.land_assoc. unfold sub in Hs. by rewrite Hs.
  - rewrite !negb_true_iff, !Z.eqb_neq. intros H E. apply H. eapply sub_zero; [by apply sub_mono|done].
Qed.

Lemma met_less all b s s' : sub s' s -> met all b s = false -> met all b s' = false.
Proof.
  intros Hs H. destruct (met all b s') eqn:E; [|done]. by rewrite (met_mono _ _ _ _ Hs E) in H.
Qed.

(** Bits that answer a wait for [mask]. *)
Definition answers (all : bool) (mask b : Z) : Prop :=
  if all then b = mask else b <> 0 /\ sub b mask.

Lemma met_answers all mask s : met all mask s = true -> answers all mask (Z.land mask s).
Proof.
  unfold met, answers. destruct all; cbn [negb andb orb]; rewrite ?orb_false_r.
  - by rewrite Z.eqb_eq.
  - rewrite negb_true_iff, Z.eqb_neq. intros H. split; [done|apply sub_land].
Qed.

(** ** The specification *)

Lemma signal_sub auto s ws got stay rest : signal auto s ws = (got, stay, rest) -> sub rest s.
Proof.
  revert s got stay rest. induction ws as [|w ws IH]; intros s got stay rest; cbn [signal].
  { intros [= _ _ <-]. reflexivity. }
  destruct (met _ _ _).
  - destruct (signal _ _ ws) as [[got1 stay1] rest1] eqn:E. intros [= _ _ <-].
    etrans; [by eapply IH|]. apply sub_land.
  - destruct (signal _ _ ws) as [[got1 stay1] rest1] eqn:E. intros [= _ _ <-]. by eapply IH.
Qed.

(** Those that stay would not be woken by the bits that stay. *)
Lemma signal_unmet auto s ws got stay rest w : signal auto s ws = (got, stay, rest) ->
  w ∈ stay -> w ∈ ws /\ met (W_all w) (W_bits w) rest = false.
Proof.
  revert s got stay rest. induction ws as [|w1 ws IH]; intros s got stay rest; cbn [signal].
  { intros [= _ <- _] H. by apply elem_of_nil in H. }
  destruct (met _ _ _) eqn:Em.
  - destruct (signal _ _ ws) as [[got1 stay1] rest1] eqn:E. intros [= _ <- <-] Hw.
    destruct (IH _ _ _ _ E Hw) as [H1 H2]. split; [by right|done].
  - destruct (signal _ _ ws) as [[got1 stay1] rest1] eqn:E. intros [= _ <- <-] Hw.
    apply elem_of_cons in Hw as [->|Hw].
    + split; [by left|]. eapply met_less; [by eapply signal_sub|done].
    + destruct (IH _ _ _ _ E Hw) as [H1 H2]. split; [by right|done].
Qed.

(** Each is answered. *)
Lemma signal_got auto s ws got stay rest t b : signal auto s ws = (got, stay, rest) ->
  (t, b) ∈ got -> exists w, w ∈ ws /\ W_task w = t /\ answers (W_all w) (W_bits w) b.
Proof.
  revert s got stay rest. induction ws as [|w1 ws IH]; intros s got stay rest; cbn [signal].
  { intros [= <- _ _] H. by apply elem_of_nil in H. }
  destruct (met _ _ _) eqn:Em.
  - destruct (signal _ _ ws) as [[got1 stay1] rest1] eqn:E. intros [= <- _ _] Hw.
    apply elem_of_cons in Hw as [[= -> ->]|Hw].
    + exists w1. split_and!; [by left|done|by apply met_answers].
    + destruct (IH _ _ _ _ E Hw) as (w & H1 & H2 & H3). exists w. split_and!; [by right|done|done].
  - destruct (signal _ _ ws) as [[got1 stay1] rest1] eqn:E. intros [= <- _ _] Hw.
    destruct (IH _ _ _ _ E Hw) as (w & H1 & H2 & H3). exists w. split_and!; [by right|done|done].
Qed.

(** Everybody is woken or stays, in order. *)
Lemma signal_tasks auto s ws got stay rest : signal auto s ws = (got, stay, rest) ->
  NoDup (W_task <$> ws) ->
  filter (fun t => t ∉ W_task <$> stay) (W_task <$> ws) = got.*1 /\
  (forall t, t ∈ got.*1 \/ t ∈ W_task <$> stay <-> t ∈ W_task <$> ws) /\
  (forall t, t ∈ got.*1 -> t ∉ W_task <$> stay).
Proof.
  revert s got stay rest. induction ws as [|w1 ws IH]; intros s got stay rest; cbn [signal].
  { intros [= <- <- _] _. cbn. split_and!; [done|set_solver|set_solver]. }
  rewrite fmap_cons. intros Hs Hnd. apply NoDup_cons in Hnd as [Hn Hnd].
  destruct (met _ _ _) eqn:Em.
  - destruct (signal _ _ ws) as [[got1 stay1] rest1] eqn:E. injection Hs as <- <- _.
    destruct (IH _ _ _ _ E Hnd) as (H1 & H2 & H3).
    assert (W_task w1 ∉ W_task <$> stay1) as Hn1 by (intros H; apply Hn, H2; by right).
    cbn [fmap list_fmap fst]. rewrite filter_cons_True by done. rewrite H1. split_and!; [done|set_solver|set_solver].
  - destruct (signal _ _ ws) as [[got1 stay1] rest1] eqn:E. injection Hs as <- <- _.
    destruct (IH _ _ _ _ E Hnd) as (H1 & H2 & H3).
    rewrite fmap_cons, filter_cons_False by set_solver. split_and!; [|set_solver|].
    + rewrite <-H1. apply filter_ext_in. intros t Ht. split; [set_solver|].
      intros Hx Hy. apply elem_of_cons in Hy as [->|Hy]; [done|done].
    + intros t Ht Hx. apply elem_of_cons in Hx as [->|Hx]; [|by eapply H3].
      apply Hn, H2. by left.
Qed.

(** How often the bit [i] was given. *)
Definition given (i : Z) (got : list (Z * Z)) : Z := zlen (filter (fun tb => Z.testbit tb.2 i = true) got).

(** A bit that clears itself is given once. *)
Lemma signal_given auto s ws got stay rest i : signal auto s ws = (got, stay, rest) -> 0 <= i ->
  Z.testbit auto i = true -> given i got + Z.b2z (Z.testbit rest i) <= Z.b2z (Z.testbit s i).
Proof.
  intros Hs Hi Ha. revert s got stay rest Hs.
  induction ws as [|w1 ws IH]; intros s got stay rest; cbn [signal].
  { intros [= <- _ <-]. change (given i []) with 0. lia. }
  destruct (met _ _ _) eqn:Em.
  - destruct (signal _ _ ws) as [[got1 stay1] rest1] eqn:E. intros [= <- _ <-].
    specialize (IH _ _ _ _ E). rewrite Z.land_spec, Z.lnot_spec, !Z.land_spec, Ha in IH by done.
    unfold given in *. rewrite filter_cons. cbn [snd]. rewrite Z.land_spec.
    destruct (Z.testbit (W_bits w1) i), (Z.testbit s i); cbn [andb negb Z.b2z] in *;
      case_decide; cbn [length]; try done; lia.
  - destruct (signal _ _ ws) as [[got1 stay1] rest1] eqn:E. intros [= <- _ <-]. by eapply IH.
Qed.

(** ** The invariant *)

Record base (idle : Z) (L : ev) : Prop := {
  i_kinv : kinv (KD L);
  i_blocked : forall t d, TD (KD L) !! t = Some d -> Z.testbit (STATE d) 10 = true ->
    exists p, PC L !! t = Some p /\ INFO d = WAITING_TASKS (PC_event p) /\
      (Z.testbit (STATE d) 8 = true -> PC_timed p = true) /\
      all_wanted d = PC_all p /\ bits L t = PC_mask p;
  i_pc : forall t p, PC L !! t = Some p ->
    is_Some (TD (KD L) !! t) /\ is_Some (EVS L !! PC_event p);
  i_event : forall e v, EVS L !! e = Some v -> 0 <= e;
  i_unmet : forall t d e v, TD (KD L) !! t = Some d -> Z.testbit (STATE d) 10 = true ->
    INFO d = WAITING_TASKS e -> EVS L !! e = Some v -> EVALID v = LWEVENT_VALID ->
    met (all_wanted d) (bits L t) (EVALUE v) = false;
  i_got : forall t d p, PC L !! t = Some p -> TD (KD L) !! t = Some d ->
    Z.testbit (STATE d) 10 = false -> INFO d = 0 -> answers (PC_all p) (PC_mask p) (bits L t);
  i_list : forall e v, EVS L !! e = Some v -> EVALID v = LWEVENT_VALID -> is_Some (LWEVENTS L)
}.

Definition einv (idle : Z) (L : ev) : Prop := sys idle (KD L) /\ base idle L.

Lemma all_wanted_flags d d' : other_flags d' = other_flags d -> all_wanted d' = all_wanted d.
Proof.
  intros H. unfold all_wanted. f_equal. f_equal.
  assert (forall x, Z.land x TASK_LWEVENT_ALL_BITS_WANTED =
    Z.land (Z.land x (Z.lnot SCHED_FLAGS)) TASK_LWEVENT_ALL_BITS_WANTED) as E.
  { intros x. rewrite <-Z.land_assoc. f_equal. }
  rewrite E, (E (FLAGS d)). unfold other_flags in H. by rewrite H.
Qed.

Lemma flags_td k k' t d d' : flags_of k' = flags_of k -> TD k !! t = Some d -> TD k' !! t = Some d' ->
  all_wanted d' = all_wanted d.
Proof.
  intros H Hd Hd'. apply all_wanted_flags. apply (f_equal (fun m => m !! t)) in H. unfold flags_of in H.
  rewrite !lookup_fmap, Hd, Hd' in H. by injection H.
Qed.

(** A task that waits has the address of a queue in [INFO]. *)
Lemma ev_wait_info idle L t d : base idle L -> TD (KD L) !! t = Some d -> Z.testbit (STATE d) 10 = true ->
  0 < INFO d.
Proof.
  intros Hb Hd H10. destruct (i_blocked _ _ Hb t d Hd H10) as (p & Hp & -> & _).
  destruct (i_pc _ _ Hb t p Hp) as (_ & v & Hv). pose proof (i_event _ _ Hb _ _ Hv).
  unfold WAITING_TASKS. lia.
Qed.

Lemma ev_base_frame idle L k : base idle L -> kinv k -> frame (KD L) k -> flags_of k = flags_of (KD L) ->
  base idle (set_KD k L).
Proof.
  intros Hb Hk Hf Hg. pose proof Hb as [H1 H2 H3 H4 H5 H6 H7]. split; try done; cbn.
  - intros t d' Hd' H10. destruct (frame_td' _ _ _ _ Hf Hd') as (d & Hd & U1 & U2 & U3 & _).
    destruct (Z.testbit (STATE d) 10) eqn:E; [|by rewrite (U3 eq_refl) in H10].
    destruct (H2 t d Hd E) as (p & Hp & Hi & H8 & Ha & Hbt). exists p.
    rewrite (flags_td _ _ _ _ _ Hg Hd Hd'). split_and!; [done|congruence| |done|done].
    destruct (U2 eq_refl) as [->|[_ E']]; [done|congruence].
  - intros t p Hp. destruct (H3 t p Hp) as ([d Hd] & Hr). split; [|done].
    destruct (frame_td _ _ _ _ Hf Hd) as (d' & -> & _). by eexists.
  - intros t d' e v Hd' H10 HI Hv Hva. destruct (frame_td' _ _ _ _ Hf Hd') as (d & Hd & U1 & U2 & U3 & _).
    destruct (Z.testbit (STATE d) 10) eqn:E; [|by rewrite (U3 eq_refl) in H10].
    rewrite (flags_td _ _ _ _ _ Hg Hd Hd'). eapply (H5 t d e v); try done. congruence.
  - intros t d' p Hp Hd' H10 HI. destruct (frame_td' _ _ _ _ Hf Hd') as (d & Hd & U1 & U2 & U3 & _).
    destruct (Z.testbit (STATE d) 10) eqn:E.
    + pose proof (ev_wait_info idle L t d Hb Hd E). lia.
    + eapply H6; try done. congruence.
Qed.

Lemma einv_call idle L c : einv idle L -> allowed idle (KD L) c -> quiet c = true ->
  exists k, run_call c (KD L) = Some (tt, k) /\ einv idle (set_KD k L) /\ frame (KD L) k.
Proof.
  intros [Hs Hb] Ha Hq. destruct (quiet_call idle (KD L) c Hs Ha Hq) as ([] & k & E & Hs' & Hf).
  exists k. split; [done|]. split; [|done]. split; [done|]. apply ev_base_frame; [done|apply Hs'|done|].
  by eapply (quiet_still (f := flags_of)).
Qed.

(** The end of an operation that may have woken tasks. *)
Record ending (idle : Z) (L : ev) : Prop := {
  en_pre : pre idle (KD L);
  en_run : is_ready (KD L) (ACTIVE_PTR (KD L));
  en_base : base idle L
}.

Lemma ev_check_ending idle L : ending idle L ->
  exists k, _sched_check_scheduler_internal (KD L) = Some (tt, k) /\ einv idle (set_KD k L) /\
    switched (KD L) k.
Proof.
  intros [Hp Hr Hb]. destruct (check_sys idle (KD L) Hp Hr) as (k & E & Hs & Hw).
  exists k. split_and!; [done| |done]. split; [done|]. apply ev_base_frame; [done|apply Hs|by apply frame_switched|].
  by eapply (check_still (f := flags_of)).
Qed.

(** *** Changing an event *)

Lemma base_event idle L e v : base idle L -> 0 <= e ->
  (EVALID v = LWEVENT_VALID -> is_Some (LWEVENTS L)) ->
  (EVALID v = LWEVENT_VALID -> forall t d, TD (KD L) !! t = Some d -> Z.testbit (STATE d) 10 = true ->
     INFO d = WAITING_TASKS e -> met (all_wanted d) (bits L t) (EVALUE v) = false) ->
  base idle (set_EVS (<[e := v]>) L).
Proof.
  intros [H1 H2 H3 H4 H5 H6 H7] He Hl Hu. split; try done; cbn.
  - intros t p Hp. destruct (H3 t p Hp) as (A1 & A2). split; [done|].
    by apply lookup_insert_is_Some'; right.
  - intros e' v'. rewrite lookup_insert. case_decide; [by subst|]. apply H4.
  - intros t d e' v' Hd H10 HI. rewrite lookup_insert. case_decide.
    + subst e'. intros [= <-] Hva. by apply Hu.
    + by apply H5.
  - intros e' v'. rewrite lookup_insert. case_decide; [|apply H7]. intros [= <-]. done.
Qed.

(** *** Waking *)

(** A task that waits gets bits. *)
Lemma base_wake idle L e t d k b : base idle L -> TD (KD L) !! t = Some d ->
  Z.testbit (STATE d) 10 = true ->
  woken idle (WAITING_TASKS e) t (readied (with_INFO 0 (undelayed d))) (KD L) k ->
  answers (all_wanted d) (bits L t) b -> base idle (set_BITS (<[t := b]>) (set_KD k L)).
Proof.
  intros Hb Hd H10 Hw Hans. pose proof (wk_td _ _ _ _ _ _ Hw) as Ht.
  assert (forall u, u <> t -> bits (set_BITS (<[t := b]>) (set_KD k L)) u = bits L u) as Hbu
    by (intros u Hu; unfold bits; cbn; by rewrite lookup_insert_ne).
  assert (bits (set_BITS (<[t := b]>) (set_KD k L)) t = b) as Hbt
    by (unfold bits; cbn; by rewrite lookup_insert, decide_True).
  destruct (i_blocked _ _ Hb t d Hd H10) as (pt & Hpt & _ & _ & Eall & Ebits).
  destruct Hb as [H1 H2 H3 H4 H5 H6 H7]. split; try done; cbn [KD PC EVS LWEVENTS set_BITS set_KD].
  - apply (wk_pre _ _ _ _ _ _ Hw).
  - intros u d'. rewrite Ht, lookup_insert. case_decide; [by intros [= <-]|].
    rewrite Hbu by done. apply H2.
  - intros u p Hp. destruct (H3 u p Hp) as [Hu Hr]. split; [|done]. rewrite Ht, lookup_insert.
    case_decide; [by eexists|done].
  - intros u d' e' v'. rewrite Ht, lookup_insert. case_decide; [by intros [= <-]|].
    rewrite Hbu by done. apply H5.
  - intros u d' p Hp. rewrite Ht, lookup_insert. case_decide as Hu.
    + subst u. intros _ _ _. rewrite Hbt. assert (p = pt) as -> by congruence. by rewrite <-Eall, <-Ebits.
    + rewrite Hbu by done. by apply H6.
Qed.

Lemma woken_aux idle s t d' k k' y u : kinv k -> woken idle s t d' k k' -> Z.testbit (STATE d') 10 = false ->
  u ∈ on (AUX_QUEUES k') y -> u ∈ on (AUX_QUEUES k) y.
Proof.
  intros Hk Hw H10 Hu. pose proof (wk_td _ _ _ _ _ _ Hw) as Ht.
  apply in_aux in Hu as (e & He & Hbt & Hi); [|apply (wk_pre _ _ _ _ _ _ Hw)].
  rewrite Ht, lookup_insert in He. case_decide; [simplify_eq; congruence|].
  apply in_aux; [done|eauto].
Qed.

Lemma get_e_run e v L : EVS L !! e = Some v -> get_e e L = Some (v, L).
Proof. intros H. unfold get_e. by rewrite H. Qed.

Lemma without_mid t (l1 l2 : list Z) : NoDup (l1 ++ t :: l2) -> without t (l1 ++ t :: l2) = l1 ++ l2.
Proof.
  intros H. apply NoDup_app in H as (_ & H1 & H2). apply NoDup_cons in H2 as [H2 _].
  assert (t ∉ l1) as H3 by (intros Hi; eapply H1; [done|by left]).
  unfold without in *. rewrite filter_app. f_equal; [by apply without_none|by apply without_cons].
Qed.

(** The loop of a set does what the specification says. *)
Record set_done (idle e : Z) (stayed : list Z) (L L' : ev) (got : list (Z * Z)) (stay : list waiter) : Prop := {
  sd_ending : ending idle L';
  sd_events : EVS L' = EVS L;
  sd_list : LWEVENTS L' = LWEVENTS L;
  sd_pc : PC L' = PC L;
  sd_queue : on (AUX_QUEUES (KD L')) (WAITING_TASKS e) = stayed ++ (W_task <$> stay);
  sd_got : forall t b, (t, b) ∈ got -> bits L' t = b /\
    exists d, TD (KD L') !! t = Some d /\ STATE d = READY /\ INFO d = 0;
  sd_rest : forall u, u ∉ got.*1 -> TD (KD L') !! u = TD (KD L) !! u /\ bits L' u = bits L u
}.

Lemma set_loop_run idle e auto l : forall s L stayed, ending idle L ->
  on (AUX_QUEUES (KD L)) (WAITING_TASKS e) = stayed ++ l ->
  exists L' got stay rest, set_loop l e auto s L = Some (rest, L') /\
    signal auto s (waiter_of L <$> l) = (got, stay, rest) /\ set_done idle e stayed L L' got stay.
Proof.
  induction l as [|t l IH]; intros s L stayed He Hq.
  { exists L, [], [], s. split_and!; [done|done|]. split; try done. intros t b H. by apply elem_of_nil in H. }
  pose proof He as [Hp Hr Hb].
  assert (NoDup (stayed ++ t :: l)) as Hnd by (rewrite <-Hq; apply (sh_aux _ (proj1 (i_kinv _ _ Hb)))).
  assert (t ∈ on (AUX_QUEUES (KD L)) (WAITING_TASKS e)) as Hin by (rewrite Hq; set_solver).
  apply in_aux in Hin as (d & Hd & H10 & HI); [|apply Hb].
  cbn [set_loop]. erewrite bind_run; [|by apply kern_run, get_td_run]. rewrite set_KD_same.
  rewrite (bind_run _ _ _ _ _ (eq_refl : gets id L = Some (L, L))). unfold id.
  rewrite fmap_cons. cbn [signal].
  assert (W_all (waiter_of L t) = all_wanted d) as -> by (cbn; by rewrite Hd).
  change (W_bits (waiter_of L t)) with (bits L t). change (W_task (waiter_of L t)) with t.
  destruct (met (all_wanted d) (bits L t) s) eqn:Em.
  - destruct (wake_first_run idle true (KD L) (WAITING_TASKS e) t d 0 Hp Hd H10 HI) as (k & Ew & Hw); [done|].
    rewrite (bind_run _ _ _ _ _ (kern_run _ L tt k Ew)). set (b := Z.land (bits L t) s).
    set (L1 := set_BITS (<[t := b]>) (set_KD k L)).
    assert (modify (set_BITS (<[t := b]>)) (set_KD k L) = Some (tt, L1)) as E1 by done.
    rewrite (bind_run _ _ _ _ _ E1).
    assert (t ∉ l) as Hn by (apply NoDup_app in Hnd as (_ & _ & Hc); by apply NoDup_cons in Hc as [? _]).
    pose proof (wk_ctl _ _ _ _ _ _ Hw) as Hc. pose proof (wk_td _ _ _ _ _ _ Hw) as Ht.
    assert (forall u, u <> t -> TD k !! u = TD (KD L) !! u /\ bits L1 u = bits L u) as Hu.
    { intros u Hu. rewrite Ht. unfold bits. cbn. by rewrite !lookup_insert_ne. }
    destruct (IH (Z.land s (Z.lnot (Z.land auto b))) L1 stayed) as (L' & got & stay & rest & E & Es & Hsd).
    + split; [apply Hw| |by eapply base_wake; [..|apply met_answers]].
      destruct Hc as (Ea & _). change (is_ready k (ACTIVE_PTR k)). rewrite Ea. by apply (wk_ready _ _ _ _ _ _ Hw).
    + change (on (AUX_QUEUES k) (WAITING_TASKS e) = stayed ++ l).
      rewrite (wk_aux _ _ _ _ _ _ Hw), Hq. by apply without_mid.
    + assert (waiter_of L1 <$> l = waiter_of L <$> l) as Ewt.
      { apply list_fmap_ext. intros i u Hi. unfold waiter_of.
        destruct (Hu u) as [A1 A2]; [intros ->; apply Hn; by eapply list_elem_of_lookup_2|].
        rewrite A2. change (TD (KD L1)) with (TD k). by rewrite A1. }
      rewrite Ewt in Es. exists L', ((t, b) :: got), stay, rest. rewrite Es. split_and!; [done|done|].
      assert (t ∉ got.*1) as Hng.
      { intros Hg. assert (NoDup (W_task <$> (waiter_of L <$> l))) as Hnl.
        { rewrite <-list_fmap_compose. rewrite (list_fmap_ext _ id), list_fmap_id by done.
          apply NoDup_app in Hnd as (_ & _ & Hcc). by apply NoDup_cons in Hcc as [_ ?]. }
        destruct (signal_tasks _ _ _ _ _ _ Es Hnl) as (_ & Hx & _).
        apply Hn. rewrite <-list_fmap_compose, (list_fmap_ext _ id), list_fmap_id in Hx by done.
        apply Hx. by left. }
      destruct Hsd as [S1 S2 S3 S4 S5 S6 S7]. split; try done.
      * intros u b' Hin. apply elem_of_cons in Hin as [[= -> ->]|Hin]; [|by apply S6].
        destruct (S7 t Hng) as [A1 A2]. rewrite A1, A2. unfold bits. cbn. rewrite Ht, !lookup_insert, !decide_True by done.
        split; [done|]. by eexists.
      * intros u Hun. rewrite fmap_cons in Hun. apply not_elem_of_cons in Hun as [Hut Hun].
        destruct (S7 u Hun) as [-> ->]. destruct (Hu u Hut) as [<- <-]. done.
  - destruct (IH s L (stayed ++ [t]) He) as (L' & got & stay & rest & E & Es & Hsd); [by rewrite <-app_assoc|].
    exists L', got, (waiter_of L t :: stay), rest. rewrite Es. split_and!; [done|done|].
    destruct Hsd as [S1 S2 S3 S4 S5 S6 S7]. split; try done. rewrite S5, <-app_assoc. done.
Qed.

Lemma waiters_tasks L (l : list Z) : W_task <$> (waiter_of L <$> l) = l.
Proof. by rewrite <-list_fmap_compose, (list_fmap_ext _ id), list_fmap_id by done. Qed.

(** A set of a valid event. *)
Record set_result (idle e : Z) (v : event) (L L' : ev) (got : list (Z * Z)) (stay : list waiter) (rest : Z) : Prop := {
  sr_inv : einv idle L';
  sr_events : EVS L' = <[e := with_VALUE rest v]> (EVS L);
  sr_pc : PC L' = PC L;
  sr_queue : on (AUX_QUEUES (KD L')) (WAITING_TASKS e) = W_task <$> stay;
  sr_got : forall t b, (t, b) ∈ got -> bits L' t = b /\
    exists d, TD (KD L') !! t = Some d /\ STATE d = READY /\ INFO d = 0;
  sr_rest : forall u, u ∉ got.*1 -> TD (KD L') !! u = TD (KD L) !! u /\ bits L' u = bits L u
}.

Lemma einv_ending idle L : einv idle L -> ending idle L.
Proof. by intros [[] ?]. Qed.

Lemma set_exec idle L e v m : einv idle L -> EVS L !! e = Some v -> EVALID v = LWEVENT_VALID ->
  exists L' got stay rest, _lwevent_set e m L = Some (MQX_OK, L') /\
    signal (EAUTO v) (Z.lor (EVALUE v) m) (waiter_of L <$> on (AUX_QUEUES (KD L)) (WAITING_TASKS e)) =
      (got, stay, rest) /\
    set_result idle e v L L' got stay rest.
Proof.
  intros He Hv Hva. set (l := on (AUX_QUEUES (KD L)) (WAITING_TASKS e)).
  destruct (set_loop_run idle e (EAUTO v) l (Z.lor (EVALUE v) m) L [] (einv_ending _ _ He) eq_refl)
    as (L1 & got & stay & rest & E & Es & [S1 S2 S3 S4 S5 S6 S7]).
  set (L2 := set_EVS (<[e := with_VALUE rest v]>) L1).
  assert (NoDup l) as Hnd by (apply (sh_aux _ (proj1 (i_kinv _ _ (proj2 He))))).
  destruct (signal_tasks _ _ _ _ _ _ Es) as (T1 & T2 & T3); [by rewrite waiters_tasks|].
  assert (base idle L2) as Hb2.
  { pose proof (en_base _ _ S1) as Hb1. apply base_event; [done|by eapply (i_event _ _ (proj2 He))| |].
    - rewrite S3. intros _. by eapply (i_list _ _ (proj2 He)).
    - intros _ t d Hd H10 HI.
      assert (t ∈ on (AUX_QUEUES (KD L1)) (WAITING_TASKS e)) as Hin by (apply in_aux; [apply Hb1|eauto]).
      rewrite S5 in Hin. cbn in Hin. destruct (S7 t) as [A1 A2]; [intros Hg; by eapply T3|].
      apply list_elem_of_fmap in Hin as (w & -> & Hw).
      destruct (signal_unmet _ _ _ _ _ _ w Es Hw) as [Hw1 Hw2].
      apply list_elem_of_fmap in Hw1 as (u & -> & _). cbn [W_task waiter_of W_all W_bits] in *.
      rewrite A1 in Hd. rewrite Hd in Hw2. by rewrite A2. }
  destruct (ev_check_ending idle L2) as (k & E' & Hi & Hsw); [destruct S1; by split|].
  pose proof (switched_lists _ _ Hsw) as (Et & _).
  exists (set_KD k L2), got, stay, rest. split_and!; [|done|].
  - unfold _lwevent_set. rewrite (bind_run _ _ _ _ _ (get_e_run e v L Hv)), Hva, Z.eqb_refl. cbn [negb].
    rewrite (bind_run _ _ _ _ _ (eq_refl : gets id L = Some (L, L))). unfold id. fold l.
    rewrite (bind_run _ _ _ _ _ E). rewrite (bind_run _ _ _ _ _ (eq_refl : set_e e _ L1 = Some (tt, L2))).
    by rewrite (bind_run _ _ _ _ _ (kern_run _ L2 tt k E')).
  - split; [done|by cbn; rewrite S2|done|cbn; by rewrite (switched_aux _ _ Hsw)| |].
    + intros t b Hin. change (bits (set_KD k L2) t) with (bits L1 t). cbn. rewrite Et. by apply S6.
    + intros u Hu. change (bits (set_KD k L2) u) with (bits L1 u). cbn. rewrite Et. by apply S7.
Qed.

(** *** Waiting *)

Lemma wait_state : waiting_state LWEVENT_BLOCKED.
Proof. by split_and!. Qed.

Lemma want_flags all d : all_wanted (want all d) = all.
Proof.
  unfold all_wanted, want. cbn. change TASK_LWEVENT_ALL_BITS_WANTED with (2 ^ 7).
  rewrite land_pow2_eqb by lia. destruct all; rewrite ?Z.lor_spec, ?Z.land_spec, ?Z.lnot_spec by lia;
    change (Z.testbit (2 ^ 7) 7) with true; by rewrite ?orb_true_r, ?andb_false_r.
Qed.

Lemma sys_want idle k all d : sys idle k -> TD k !! ACTIVE_PTR k = Some d ->
  sys idle (set_TD (<[ACTIVE_PTR k := want all d]>) k).
Proof.
  intros Hs Hd. eapply sys_td; [done|done|by repeat split|]. unfold preemptible, want. cbn.
  change TASK_PREEMPTION_DISABLED with (2 ^ 12). intros _ Hp. apply Z.eqb_eq in Hp. apply Z.eqb_eq.
  revert Hp. rewrite !land_pow2_eqb by lia.
  destruct all; rewrite ?Z.lor_spec, ?Z.land_spec, ?Z.lnot_spec by lia;
    change (Z.testbit TASK_LWEVENT_ALL_BITS_WANTED 12) with false; cbn [negb];
    by rewrite ?orb_false_r, ?andb_true_r.
Qed.

Record caller (idle : Z) (L : ev) : Prop := {
  cl_isr : IN_ISR (KD L) = 0;
  cl_idle : ACTIVE_PTR (KD L) <> idle;
  cl_pc : PC L !! ACTIVE_PTR (KD L) = None
}.

(** The state of a task that waits for [mask] of [e]. *)
Definition waits_for (e mask : Z) (all timed : bool) (d' : td) : Prop :=
  Z.testbit (STATE d') 10 = true /\ INFO d' = WAITING_TASKS e /\
  (Z.testbit (STATE d') 8 = true -> timed = true) /\ all_wanted d' = all.

Lemma blocked_einv idle L e v mask all timed d' k k1 :
  einv idle L -> is_ready (KD L) (ACTIVE_PTR (KD L)) -> EVS L !! e = Some v ->
  met all mask (EVALUE v) = false -> waits_for e mask all timed d' ->
  TD k1 = <[ACTIVE_PTR (KD L) := d']> (TD (KD L)) -> sys idle k1 ->
  einv idle (set_KD k1 (set_PC (<[ACTIVE_PTR (KD L) := InWait e mask all timed]>)
    (set_KD k (set_BITS (<[ACTIVE_PTR (KD L) := mask]>) L)))).
Proof.
  intros [Hs Hb] (d & Hd & Hr) Hv Hm (D1 & D2 & D3 & D4) Ht Hs1. set (t := ACTIVE_PTR (KD L)) in *.
  set (L' := set_KD k1 _). split; [done|].
  assert (forall u, u <> t -> bits L' u = bits L u) as Hbu
    by (intros u Hu; unfold bits; cbn; by rewrite lookup_insert_ne).
  assert (bits L' t = mask) as Hbt by (unfold bits; cbn; by rewrite lookup_insert, decide_True).
  assert (forall u p, PC L' !! u = Some p -> if decide (t = u) then p = InWait e mask all timed else PC L !! u = Some p) as Hpc
    by (intros u p; cbn; rewrite lookup_insert; case_decide; [by intros [= <-]|done]).
  assert (forall u d0, TD (KD L') !! u = Some d0 -> if decide (t = u) then d0 = d' else TD (KD L) !! u = Some d0) as Htd
    by (intros u d0; cbn; rewrite Ht, lookup_insert; case_decide; [by intros [= <-]|done]).
  destruct Hb as [H1 H2 H3 H4 H5 H6 H7].
  split; [apply Hs1| | |exact H4| | |exact H7].
  - intros u d0 Hu. apply Htd in Hu. case_decide as Hut.
    + subst u d0. intros _. exists (InWait e mask all timed). cbn [PC_event PC_mask PC_all PC_timed].
      split_and!; [cbn; by rewrite lookup_insert, decide_True|done..].
    + rewrite Hbu by done. cbn. rewrite lookup_insert_ne by done. by apply H2.
  - intros u p Hu. apply Hpc in Hu. cbn [KD L' EVS set_KD set_PC set_BITS]. rewrite Ht, lookup_insert. case_decide.
    + subst p. split; by eexists.
    + by apply H3.
  - intros u d0 e' v' Hu. apply Htd in Hu. cbn [EVS L' set_KD set_PC set_BITS]. case_decide as Hut.
    + subst u d0. intros _ HI Hv' _. unfold WAITING_TASKS in *. assert (e' = e) as -> by lia.
      rewrite Hbt, D4. by simplify_eq.
    + rewrite Hbu by done. by apply H5.
  - intros u d0 p Hp Hu. apply Htd in Hu. apply Hpc in Hp. case_decide as Hut.
    + subst u d0. by rewrite D1.
    + rewrite Hbu by done. by apply H6.
Qed.

(** One task starts to wait. *)
Definition only_waits (t : Z) (L L' : ev) : Prop :=
  dom (TD (KD L')) = dom (TD (KD L)) /\
  (forall u, u <> t -> TD (KD L') !! u = TD (KD L) !! u /\ PC L' !! u = PC L !! u /\ bits L' u = bits L u) /\
  (forall d, TD (KD L') !! t = Some d -> Z.testbit (STATE d) 10 = true).

Lemma wait_block idle L e v mask all tick abs :
  einv idle L -> caller idle L -> EVS L !! e = Some v -> met all mask (EVALUE v) = false ->
  exists L', (modify (set_BITS (<[ACTIVE_PTR (KD L) := mask]>));;
      kern (upd_td (ACTIVE_PTR (KD L)) (want all));;
      modify (set_PC (<[ACTIVE_PTR (KD L) := InWait e mask all (bool_decide (is_Some tick))]>));;
      kern (queue_on LWEVENT_BLOCKED (WAITING_TASKS e) (ACTIVE_PTR (KD L)));;
      kern (match tick with
            | Some n => if abs : bool then _time_delay_until (Some n) else _time_delay_for (Some n)
            | None => _task_block
            end);;
      mret Switched) L = Some (Switched, L') /\ einv idle L' /\ EVS L' = EVS L /\
    only_waits (ACTIVE_PTR (KD L)) L L'.
Proof.
  intros He [Hi Hne Hp] Hv Hm. pose proof He as [Hs Hb]. destruct (sys_run _ _ Hs) as (d & Hd & Hr).
  set (t := ACTIVE_PTR (KD L)) in *. set (d1 := want all d). set (k := set_TD (<[t := d1]>) (KD L)).
  assert (sys idle k) as Hsk by (by apply sys_want).
  assert (TD k !! ACTIVE_PTR k = Some d1) as Hd1 by (cbn; fold t; by rewrite lookup_insert, decide_True).
  set (L1 := set_BITS (<[t := mask]>) L).
  set (timed := bool_decide (is_Some tick)).
  set (L3 := set_PC (<[t := InWait e mask all timed]>) (set_KD k L1)).
  assert (forall m k1 d', m (queued_k LWEVENT_BLOCKED (WAITING_TASKS e) t d1 k) = Some (tt, k1) ->
    blocked_by idle (WAITING_TASKS e) t d' k k1 -> waits_for e mask all timed d' ->
    exists L', (modify (set_BITS (<[t := mask]>));; kern (upd_td t (want all));;
      modify (set_PC (<[t := InWait e mask all timed]>));;
      kern (queue_on LWEVENT_BLOCKED (WAITING_TASKS e) t);; kern m;; mret Switched) L = Some (Switched, L') /\
      einv idle L' /\ EVS L' = EVS L /\ only_waits t L L') as Hx.
  { intros m k1 d' E Hk Hw. exists (set_KD k1 L3). split_and!; [| |done|].
    - rewrite (bind_run _ _ _ _ _ (eq_refl : modify (set_BITS (<[t := mask]>)) L = Some (tt, L1))).
      rewrite (bind_run _ _ _ _ _ (kern_run _ L1 tt k (upd_td_run t (want all) d _ Hd))).
      rewrite (bind_run _ _ _ _ _ (eq_refl : modify (set_PC (<[t := InWait e mask all timed]>)) (set_KD k L1) = Some (tt, L3))).
      rewrite (bind_run _ _ _ _ _ (kern_run _ L3 tt _ (queue_on_run LWEVENT_BLOCKED (WAITING_TASKS e) t d1 k Hd1))).
      set (L4 := set_KD _ L3). by rewrite (bind_run _ _ _ _ _ (kern_run m L4 tt k1 E)).
    - apply (blocked_einv idle L e v mask all timed d' k k1); [done|by exists d|done|done|done| |apply Hk].
      rewrite (bb_td _ _ _ _ _ _ Hk). cbn. fold t. by rewrite insert_insert, decide_True.
    - assert (TD (KD (set_KD k1 L3)) = <[t := d']> (TD (KD L))) as Ek.
      { cbn. rewrite (bb_td _ _ _ _ _ _ Hk). cbn. fold t. by rewrite insert_insert, decide_True. }
      split_and!; rewrite Ek.
      + rewrite dom_insert_L. apply elem_of_dom_2 in Hd. set_solver.
      + intros u Hu. rewrite lookup_insert_ne by done. unfold bits. cbn. by rewrite !lookup_insert_ne.
      + intros d0. rewrite lookup_insert_eq. intros [= <-]. apply Hw. }
  assert (forall n, exists k1, (upd_td t (with_TIMEOUT n);; _time_delay_internal t)
      (queued_k LWEVENT_BLOCKED (WAITING_TASKS e) t d1 k) = Some (tt, k1) /\
    blocked_by idle (WAITING_TASKS e) t (delayed_on LWEVENT_BLOCKED (WAITING_TASKS e) n d1) k k1) as Hdel
    by (intros n; by apply (queued_delay idle LWEVENT_BLOCKED (WAITING_TASKS e) k d1 n wait_state)).
  assert (all_wanted d1 = all) as Ha by apply want_flags.
  destruct tick as [n|].
  - destruct abs.
    + destruct (Hdel n) as (k1 & E & Hk). eapply (Hx _ k1); [|exact Hk|by split_and!].
      cbn. unfold active. by rewrite (bind_run _ _ _ _ _ (gets_run ACTIVE_PTR _)).
    + destruct (Hdel (_psp_add_ticks (HW_TICKS_PER_TICK (CLOCK k)) n (TIME (CLOCK k)))) as (k1 & E & Hk).
      eapply (Hx _ k1); [|exact Hk|by split_and!].
      cbn. unfold active. rewrite (bind_run _ _ _ _ _ (gets_run ACTIVE_PTR _)).
      by rewrite (bind_run _ _ _ _ _ (gets_run CLOCK _)).
  - destruct (queued_block idle LWEVENT_BLOCKED (WAITING_TASKS e) k d1 wait_state) as (k1 & E & Hk); [done..|].
    change (ACTIVE_PTR k) with t in E, Hk. rewrite (bind_run _ _ _ _ _ (queue_on_run _ _ t d1 k Hd1)) in E.
    eapply (Hx _ k1); [exact E|exact Hk|]. split_and!; [done|done|done|done].
Qed.

(** ** Every action *)

(** How often a wait with bit [i] of [e] returned; how often the bit was set; how
    many waits with it were under way when [e] was created. *)
Definition gives (e i : Z) (x : trace_event) : bool :=
  match x with Delivered e' _ b => (e' =? e) && Z.testbit b i | _ => false end.
Definition sets (e i : Z) (x : trace_event) : bool :=
  match x with Signalled e' m => (e' =? e) && Z.testbit m i | _ => false end.
Definition rests (e i : Z) (x : trace_event) : bool :=
  match x with UnderWay e' _ b => (e' =? e) && Z.testbit b i | _ => false end.

Definition tally (f : trace_event -> bool) (tr : list trace_event) : Z :=
  zlen (filter (fun x => f x = true) tr).
Abbreviation delivered e i tr := (tally (gives e i) tr).
Abbreviation signalled e i tr := (tally (sets e i) tr).
Abbreviation stale e i tr := (tally (rests e i) tr).

(** Bit [i] of [e] clears itself, in [L] and along [tr]. *)
Definition auto_in (L : ev) (e i : Z) : Prop :=
  forall v, EVS L !! e = Some v -> Z.testbit (EAUTO v) i = true.
Definition autos (e i : Z) (tr : list trace_event) : Prop :=
  forall m, AutoSet e m ∈ tr -> Z.testbit m i = true.

(** How many waits that have not returned yet have been given bit [i] of [e]. *)
Definition answered (L : ev) (e i t : Z) : bool := ended L e t && Z.testbit (bits L t) i.
Definition pend (L : ev) (e i : Z) : Z := count (answered L e i) (tasks L).

(** How many waits can still return with the bit if it is not set again. *)
Definition budget (L : ev) (e i : Z) : Z :=
  match EVS L !! e with
  | Some v => if EVALID v =? 0 then 0 else Z.b2z (Z.testbit (EVALUE v) i) + pend L e i
  | None => 0
  end.

Definition conserve (L : ev) (tr : list trace_event) (L' : ev) : Prop :=
  forall e i, 0 <= i -> auto_in L e i -> autos e i tr ->
  auto_in L' e i /\
  budget L' e i + delivered e i tr <= budget L e i + signalled e i tr + stale e i tr.

Lemma tally_cons f x tr : tally f (x :: tr) = (if f x then 1 else 0) + tally f tr.
Proof. unfold tally. rewrite filter_cons. destruct (f x); case_decide; try done; cbn [length]; lia. Qed.

Lemma tally_app f tr tr' : tally f (tr ++ tr') = tally f tr + tally f tr'.
Proof. unfold tally. rewrite filter_app, length_app. lia. Qed.

Lemma budget_nonneg L e i : 0 <= budget L e i.
Proof.
  assert (0 <= pend L e i) by apply count_nonneg. unfold budget. destruct (EVS L !! e) as [v|]; [|lia].
  destruct (EVALID v =? 0), (Z.testbit (EVALUE v) i); cbn; lia.
Qed.

Lemma count_le f g (l x : list Z) : NoDup l -> (forall u, g u = true -> f u = true \/ u ∈ x) ->
  count g l <= count f l + zlen x.
Proof.
  intros Hn H. assert (length (filter (fun t => g t = true) l) <= length (filter (fun t => f t = true) l ++ x))%nat as Hl.
  { apply submseteq_length, NoDup_submseteq; [by apply NoDup_filter|]. intros u.
    rewrite elem_of_app, !list_elem_of_filter. intros [Hg Hu]. destruct (H u Hg); auto. }
  rewrite length_app in Hl. unfold count. lia.
Qed.

Lemma pend_some L L' e i x : dom (TD (KD L')) = dom (TD (KD L)) ->
  (forall u, answered L' e i u = true -> answered L e i u = true \/ u ∈ x) -> pend L' e i <= pend L e i + zlen x.
Proof. intros Hd H. unfold pend, tasks. rewrite Hd. by apply count_le; [apply NoDup_elements|]. Qed.

Lemma pend_le L L' e i : dom (TD (KD L')) = dom (TD (KD L)) ->
  (forall u, answered L' e i u = true -> answered L e i u = true) -> pend L' e i <= pend L e i.
Proof. intros Hd H. pose proof (pend_some L L' e i [] Hd) as Hp. cbn in Hp. rewrite Z.add_0_r in Hp. auto. Qed.

Lemma conserve_same L L' : EVS L' = EVS L -> (forall e i, pend L' e i <= pend L e i) -> conserve L [] L'.
Proof.
  intros E Hp e i Hi Ha _. unfold auto_in, budget. rewrite E. split; [done|]. change (tally _ []) with 0.
  specialize (Hp e i). destruct (EVS L !! e) as [v|]; [|lia]. destruct (EVALID v =? 0); lia.
Qed.

Lemma conserve_trans L1 L2 L3 t1 t2 : conserve L1 t1 L2 -> conserve L2 t2 L3 -> conserve L1 (t1 ++ t2) L3.
Proof.
  intros H1 H2 e i Hi Ha Hau.
  destruct (H1 e i Hi Ha) as (Ha2 & C2); [intros m Hm; apply Hau; set_solver|].
  destruct (H2 e i Hi Ha2) as (Ha3 & C3); [intros m Hm; apply Hau; set_solver|].
  rewrite !tally_app. split; [done|]. lia.
Qed.

(** Only [e] is concerned. *)
Definition about (e : Z) (x : trace_event) : Prop :=
  match x with Signalled e' _ | Delivered e' _ _ | AutoSet e' _ | UnderWay e' _ _ => e' = e end.

Lemma tally_other e e' i tr : (forall x, x ∈ tr -> about e x) -> e' <> e ->
  delivered e' i tr = 0 /\ signalled e' i tr = 0 /\ stale e' i tr = 0.
Proof.
  induction tr as [|x tr IH]; intros H Hne; [done|]. rewrite !tally_cons.
  destruct IH as (-> & -> & ->); [intros y Hy; apply H; by right|done|].
  assert (about e x) as Hx by (apply H; by left).
  destruct x as [e1 m|e1 t b|e1 m|e1 t b]; cbn in Hx; subst e1; cbn [gives sets rests];
    rewrite ?(proj2 (Z.eqb_neq e e')) by done; done.
Qed.

Lemma conserve_event L L' e v v' tr : EVS L !! e = Some v -> EVS L' = <[e := v']> (EVS L) ->
  (forall x, x ∈ tr -> about e x) ->
  (forall e' i, e' <> e -> pend L' e' i <= pend L e' i) ->
  (forall i, 0 <= i -> Z.testbit (EAUTO v) i = true -> autos e i tr ->
     Z.testbit (EAUTO v') i = true /\
     budget L' e i + delivered e i tr <= budget L e i + signalled e i tr + stale e i tr) ->
  conserve L tr L'.
Proof.
  intros Hv E Hab Hp Hc e1 i Hi Ha Hau. destruct (decide (e1 = e)) as [->|Hne].
  - destruct (Hc i Hi (Ha v Hv) Hau) as [H1 H2]. split; [|done]. unfold auto_in. rewrite E, lookup_insert_eq.
    by intros v1 [= <-].
  - destruct (tally_other e e1 i tr Hab Hne) as (-> & -> & ->). specialize (Hp e1 i Hne).
    unfold auto_in, budget in *. rewrite E, lookup_insert_ne by done. split; [done|].
    destruct (EVS L !! e1) as [v1|]; [|lia]. destruct (EVALID v1 =? 0); lia.
Qed.

(** Only the fields of [e] change. *)
Lemma budget_less L L' e v v' i a b c : EVS L !! e = Some v -> EVS L' !! e = Some v' -> EVALID v' = EVALID v ->
  pend L' e i = pend L e i ->
  Z.b2z (Z.testbit (EVALUE v') i) + a <= Z.b2z (Z.testbit (EVALUE v) i) + b + c ->
  (EVALID v = 0 -> a <= b + c) -> budget L' e i + a <= budget L e i + b + c.
Proof.
  intros Hv Hv' Hva Hp H H0. unfold budget. rewrite Hv, Hv', Hva, Hp.
  destruct (Z.eqb_spec (EVALID v) 0) as [Hz|_]; [specialize (H0 Hz)|]; lia.
Qed.

Definition good (idle : Z) (L : ev) (tr : list trace_event) (L' : ev) : Prop :=
  einv idle L' /\ conserve L tr L'.

Lemma good_same idle L L' : einv idle L' -> EVS L' = EVS L -> (forall e i, pend L' e i <= pend L e i) ->
  good idle L [] L'.
Proof. intros H E Hp. split; [done|by apply conserve_same]. Qed.

Lemma good_refl idle L : einv idle L -> good idle L [] L.
Proof. by intros H; apply good_same. Qed.

(** The waits that are under way, as events. *)
Lemma under_way_tally L e auto i e1 :
  delivered e1 i (AutoSet e auto :: under_way L e) = 0 /\
  signalled e1 i (AutoSet e auto :: under_way L e) = 0 /\
  stale e1 i (AutoSet e auto :: under_way L e) = if decide (e1 = e) then pend L e i else 0.
Proof.
  rewrite !tally_cons. cbn [gives sets rests]. unfold under_way, pend, count, answered.
  generalize (tasks L). intros l. induction l as [|t l IH]; [by case_decide|].
  rewrite !filter_cons. destruct (ended L e t) eqn:Ee.
  - rewrite (decide_True (P := true = true)) by done. rewrite fmap_cons, !tally_cons. cbn [gives sets rests andb].
    destruct IH as (I1 & I2 & I3). split_and!; [done|done|]. destruct (decide (e1 = e)) as [->|Hne].
    + rewrite Z.eqb_refl. cbn [andb]. destruct (Z.testbit (bits L t) i); case_decide; try done; cbn [length]; lia.
    + rewrite (proj2 (Z.eqb_neq e e1)) by congruence. cbn [andb]. lia.
  - rewrite (decide_False (P := false = true)) by done. cbn [andb].
    by rewrite (decide_False (P := false = true)).
Qed.

Lemma einv_value idle L e v x : einv idle L -> EVS L !! e = Some v -> sub x (EVALUE v) ->
  einv idle (set_EVS (<[e := with_VALUE x v]>) L).
Proof.
  intros [Hs Hb] Hv Hx. split; [done|]. apply base_event; [done|by eapply (i_event _ _ Hb)| |].
  - exact (i_list _ _ Hb e v Hv).
  - intros Hva t d Hd H10 HI. eapply met_less; [exact Hx|]. by apply (i_unmet _ _ Hb t d e v).
Qed.

(** Calls that are not about events end no wait but by its timeout. *)
Lemma pend_frame idle L k e i : base idle L -> frame (KD L) k -> pend (set_KD k L) e i <= pend L e i.
Proof.
  intros Hb Hf. apply pend_le; [by apply frame_dom|]. intros u. unfold answered, ended. cbn.
  change (bits (set_KD k L) u) with (bits L u). destruct (PC L !! u) as [p|] eqn:Ep; [|done].
  destruct (TD k !! u) as [d'|] eqn:Ed'; [|done].
  destruct (frame_td' _ _ _ _ Hf Ed') as (d & Hd & U1 & U2 & U3 & _). rewrite Hd, U1.
  destruct (Z.testbit (STATE d) 10) eqn:E; [|by rewrite (U3 eq_refl)].
  destruct (U2 eq_refl) as [->|[E8 E']]; [by rewrite E|].
  destruct (i_blocked _ _ Hb u d Hd E) as (p' & Hp' & _ & H8 & _). simplify_eq. rewrite (H8 E8).
  pose proof (ev_wait_info idle L u d Hb Hd E). rewrite (proj2 (Z.eqb_neq (INFO d) 0)) by lia.
  by rewrite andb_false_r.
Qed.

Lemma waiter_event idle L e t : base idle L -> t ∈ on (AUX_QUEUES (KD L)) (WAITING_TASKS e) ->
  is_Some (TD (KD L) !! t) /\ exists p, PC L !! t = Some p /\ PC_event p = e.
Proof.
  intros Hb Hin. apply in_aux in Hin as (d & Hd & H10 & HI); [|apply Hb]. split; [by eexists|].
  destruct (i_blocked _ _ Hb t d Hd H10) as (p & Hp & Hi & _). exists p. split; [done|].
  unfold WAITING_TASKS in *. lia.
Qed.

Lemma pend_release idle L L' e e' i : base idle L -> e' <> e -> PC L' = PC L ->
  LWEVENT_BITS L' = LWEVENT_BITS L -> (forall t d, TD (KD L) !! t = Some d -> TD (KD L') !! t = Some (
    if decide (t ∈ on (AUX_QUEUES (KD L)) (WAITING_TASKS e)) then readied (undelayed d) else d)) ->
  (forall t, TD (KD L) !! t = None -> TD (KD L') !! t = None) -> pend L' e' i <= pend L e' i.
Proof.
  intros Hb Hne Epc Ebt Ht Hn. apply pend_le.
  - apply set_eq. intros u. rewrite !elem_of_dom. destruct (TD (KD L) !! u) as [d|] eqn:Ed.
    + rewrite (Ht u d Ed). split; by eexists.
    + by rewrite (Hn u Ed).
  - intros u. unfold answered, ended, bits. rewrite Epc, Ebt. destruct (PC L !! u) as [p|] eqn:Ep; [|done].
    destruct (TD (KD L) !! u) as [d|] eqn:Ed; [|by rewrite (Hn u Ed)]. rewrite (Ht u d Ed). case_decide as Hin; [|done].
    destruct (waiter_event idle L e u Hb Hin) as (_ & p' & Hp' & He'). simplify_eq.
    by rewrite (proj2 (Z.eqb_neq _ _) (not_eq_sym Hne)).
Qed.

(** A set gives a bit to as many waits as the specification says. *)
Lemma set_pend idle e v L L' got stay rest s : base idle L -> set_result idle e v L L' got stay rest ->
  signal (EAUTO v) s (waiter_of L <$> on (AUX_QUEUES (KD L)) (WAITING_TASKS e)) = (got, stay, rest) ->
  (forall i, pend L' e i <= pend L e i + given i got) /\
  (forall e' i, e' <> e -> pend L' e' i <= pend L e' i).
Proof.
  intros Hb [_ _ R3 _ R5 R6] Es. set (l := on (AUX_QUEUES (KD L)) (WAITING_TASKS e)) in *.
  destruct (signal_tasks _ _ _ _ _ _ Es) as (_ & T2 & _); [rewrite waiters_tasks; apply (sh_aux _ (proj1 (i_kinv _ _ Hb)))|].
  rewrite waiters_tasks in T2.
  assert (forall u, u ∈ got.*1 -> is_Some (TD (KD L) !! u) /\ exists p, PC L !! u = Some p /\ PC_event p = e) as Hg
    by (intros u Hu; apply (waiter_event idle L e u Hb), T2; by left).
  assert (forall u, u ∈ got.*1 -> (u, bits L' u) ∈ got /\ is_Some (TD (KD L') !! u)) as Hg'.
  { intros u Hu. apply list_elem_of_fmap in Hu as ([u' b] & -> & Hin). cbn.
    destruct (R5 u' b Hin) as (-> & d & Hd & _). split; [done|by eexists]. }
  assert (dom (TD (KD L')) = dom (TD (KD L))) as Hd.
  { apply set_eq. intros u. rewrite !elem_of_dom. destruct (decide (u ∈ got.*1)) as [Hu|Hu].
    - split; intros _; [apply (Hg u Hu)|apply (Hg' u Hu)].
    - by destruct (R6 u Hu) as [-> _]. }
  assert (forall e' i u, u ∉ got.*1 -> answered L' e' i u = answered L e' i u) as Hsame.
  { intros e' i u Hu. destruct (R6 u Hu) as [E1 E2]. unfold answered, ended. by rewrite R3, E1, E2. }
  split.
  - intros i. assert (given i got = zlen ((filter (fun tb => Z.testbit tb.2 i = true) got).*1)) as ->
      by (unfold given; by rewrite length_fmap).
    apply pend_some; [done|]. intros u Ha. destruct (decide (u ∈ got.*1)) as [Hu|Hu]; [right|left; by rewrite <-Hsame].
    apply andb_true_iff in Ha as [_ Ha]. destruct (Hg' u Hu) as [Hin _].
    apply list_elem_of_fmap. exists (u, bits L' u). split; [done|]. by apply list_elem_of_filter.
  - intros e' i Hne. apply pend_le; [done|]. intros u. destruct (decide (u ∈ got.*1)) as [Hu|Hu]; [|by rewrite Hsame].
    destruct (Hg u Hu) as (_ & p & Hp & Hpe). unfold answered, ended. rewrite R3, Hp.
    destruct (TD (KD L') !! u); [|done]. by rewrite (proj2 (Z.eqb_neq (PC_event p) e')) by congruence.
Qed.

Lemma set_good idle L e m : einv idle L -> can idle L (ASet e m) ->
  wp False (run_action (ASet e m)) L (good idle L).
Proof.
  intros He (_ & v & Hv). unfold run_action. eapply wp_run; [done|]. unfold id.
  destruct (Z.eqb_spec (EVALID v) LWEVENT_VALID) as [Hva|Hva].
  - destruct (set_exec idle L e v m He Hv Hva) as (L' & got & stay & rest & E & Es & Hr).
    eapply wp_run; [exact E|]. rewrite Z.eqb_refl. split; [apply Hr|].
    destruct (set_pend idle e v L L' got stay rest _ (proj2 He) Hr Es) as [Hp1 Hp2].
    eapply (conserve_event L L' e v (with_VALUE rest v)); [done|apply Hr| |exact Hp2|].
    + intros x Hx. apply list_elem_of_singleton in Hx as ->. done.
    + intros i Hi Ha _. split; [done|]. pose proof (signal_given _ _ _ _ _ _ i Es Hi Ha) as Hg.
      rewrite Z.lor_spec in Hg. specialize (Hp1 i). unfold budget.
      rewrite Hv, (sr_events _ _ _ _ _ _ _ _ Hr), lookup_insert_eq. cbn [EVALID EVALUE with_VALUE].
      rewrite Hva. cbn [Z.eqb]. rewrite !tally_cons. change (tally _ []) with 0. cbn [gives sets rests].
      rewrite Z.eqb_refl. cbn [andb].
      destruct (Z.testbit (EVALUE v) i), (Z.testbit m i); cbn [orb Z.b2z] in *; change (LWEVENT_VALID =? 0) with false; lia.
  - eapply (wp_run _ _ _ _ MQX_LWEVENT_INVALID L).
    { unfold _lwevent_set. rewrite (bind_run _ _ _ _ _ (get_e_run e v L Hv)).
      by rewrite (proj2 (Z.eqb_neq _ _) Hva). }
    by apply good_refl.
Qed.

Lemma clear_good idle L e m : einv idle L -> can idle L (AClear e m) ->
  wp False (run_action (AClear e m)) L (good idle L).
Proof.
  intros He (_ & v & Hv). unfold run_action, _lwevent_clear. eapply wp_run; [done|]. unfold id. apply wp_bind.
  eapply wp_run; [by apply get_e_run|]. case_if; [by apply good_refl|].
  eapply wp_run; [done|]. split.
  - apply einv_value; [done|done|apply sub_land].
  - eapply conserve_event; [done|done|set_solver|done|]. intros i Hi Ha _. split; [done|].
    eapply budget_less; [done|apply lookup_insert_eq|done|done| |done]. cbn [EVALUE with_VALUE]. rewrite Z.land_spec.
    change (tally _ []) with 0.
    destruct (Z.testbit (EVALUE v) i); cbn [andb Z.b2z]; [destruct (Z.testbit (Z.lnot m) i); cbn; lia|lia].
Qed.

Lemma auto_good idle L e m : einv idle L -> can idle L (ASetAuto e m) ->
  wp False (run_action (ASetAuto e m)) L (good idle L).
Proof.
  intros He (_ & v & Hv). unfold run_action, _lwevent_set_auto_clear. eapply wp_run; [done|]. unfold id.
  apply wp_bind. eapply wp_run; [by apply get_e_run|]. case_if; [by apply good_refl|].
  eapply wp_run; [done|]. eapply (wp_end _ _ _ MQX_OK); [done|]. rewrite Z.eqb_refl. eapply wp_end; [done|].
  destruct He as [Hs Hb]. split.
  - split; [done|]. apply base_event; [done|by eapply (i_event _ _ Hb)| |].
    + exact (i_list _ _ Hb e v Hv).
    + intros Hva t d Hd H10 HI. by apply (i_unmet _ _ Hb t d e v).
  - eapply conserve_event; [done|done|set_solver|done|]. intros i Hi Ha Hau.
    split; [apply Hau; cbn; set_solver|]. eapply budget_less; [done|apply lookup_insert_eq|done|done|..];
      rewrite !tally_cons; change (tally _ []) with 0; cbn [gives sets rests EVALUE]; lia.
Qed.

Lemma ev_wait_good idle L e mask all tick abs : einv idle L -> free L -> is_Some (EVS L !! e) ->
  (IN_ISR (KD L) = 0 -> ACTIVE_PTR (KD L) <> idle) ->
  wp False (o ← _lwevent_wait_internal e mask all tick abs; L' ← gets id;
            mret (wait_events L' e (ACTIVE_PTR (KD L)) o)) L (good idle L).
Proof.
  intros He Hf [v Hv] Hn. pose proof He as [Hs Hb]. set (t := ACTIVE_PTR (KD L)) in *.
  assert (forall r, r <> MQX_OK -> _lwevent_wait_internal e mask all tick abs L = Some (Returned r, L) ->
    wp False (o ← _lwevent_wait_internal e mask all tick abs; L' ← gets id; mret (wait_events L' e t o)) L (good idle L)) as Hret.
  { intros r Hr E. eapply wp_run; [exact E|]. eapply wp_run; [done|]. cbn.
    rewrite (proj2 (Z.eqb_neq _ _) Hr). by apply good_refl. }
  unfold _lwevent_wait_internal in Hret.
  rewrite (bind_run _ _ _ _ _ (eq_refl : gets id L = Some (L, L))) in Hret. unfold id in Hret.
  unfold _lwevent_wait_internal. apply wp_bind. eapply wp_run; [done|]. unfold id.
  destruct (Z.eqb_spec (IN_ISR (KD L)) 0) as [Hi|Hi]; cbn [negb] in *; [|by apply good_refl].
  eapply wp_run; [apply zoom_active|]. fold t. eapply wp_run; [by apply get_e_run|].
  destruct (Z.eqb_spec (EVALID v) LWEVENT_VALID) as [Hva|Hva]; cbn [negb]; [|by apply good_refl].
  assert ((all && (Z.land (EVALUE v) mask =? mask)) || (negb all && negb (Z.land (EVALUE v) mask =? 0)) =
          met all mask (EVALUE v)) as ->
    by (unfold met; by rewrite (Z.land_comm mask)).
  destruct (met all mask (EVALUE v)) eqn:Em.
  - eapply wp_run; [done|]. eapply wp_run; [done|]. eapply wp_run; [done|]. unfold wait_events, id. rewrite Z.eqb_refl.
    set (L1 := set_BITS _ L). set (L2 := set_EVS _ L1).
    assert (bits L2 t = Z.land (EVALUE v) mask) as Ebt by (unfold bits; cbn; by rewrite lookup_insert, decide_True).
    assert (PC L !! t = None) as Hpc by (by apply Hf).
    split.
    + apply einv_value; [|done|apply sub_land]. split; [done|].
      destruct (sys_run _ _ Hs) as (d & Hd & Hr). fold t in Hd.
      assert (forall u, u <> t -> bits L1 u = bits L u) as Hbu
        by (intros u Hu; unfold bits; cbn; by rewrite lookup_insert_ne).
      destruct Hb as [H1 H2 H3 H4 H5 H6 H7]. split; try done.
      * intros u d0 Hu H10. rewrite Hbu; [by apply H2|]. intros ->. change (TD (KD L) !! t = Some d0) in Hu.
        simplify_eq. by rewrite Hr in H10.
      * intros u d0 e' v' Hu H10. rewrite Hbu; [by apply H5|]. intros ->. change (TD (KD L) !! t = Some d0) in Hu.
        simplify_eq. by rewrite Hr in H10.
      * intros u d0 p Hp. rewrite Hbu; [by apply H6|]. intros ->. change (PC L !! t = Some p) in Hp. congruence.
    + rewrite Ebt. assert (forall e' i, pend L2 e' i = pend L e' i) as Hpe.
      { intros e' i. apply count_ext_in. intros u _. unfold answered, ended. cbn.
        destruct (decide (u = t)) as [->|Hu]; [by rewrite Hpc|]. unfold bits. cbn. by rewrite lookup_insert_ne. }
      eapply conserve_event; [done|done| | |].
      * intros x Hx. apply list_elem_of_singleton in Hx as ->. done.
      * intros e' i _. rewrite Hpe. lia.
      * intros i Hi' Ha _. split; [done|]. eapply budget_less; [done|apply lookup_insert_eq|done|apply Hpe| |by rewrite Hva].
        rewrite !tally_cons. change (tally _ []) with 0.
        cbn [gives sets rests EVALUE with_VALUE]. rewrite Z.eqb_refl, !Z.land_spec, Z.lnot_spec, Z.land_spec, Ha by done.
        destruct (Z.testbit (EVALUE v) i), (Z.testbit mask i); cbn; lia.
  - destruct (wait_block idle L e v mask all tick abs He) as (L' & E & He' & Ee & Hd & Hu & Hw); [by split; auto|done|done|].
    fold t in Hu, Hw. eapply wp_end; [exact E|]. eapply wp_run; [done|]. apply good_same; [done|done|].
    intros e' i. apply pend_le; [done|]. intros u. unfold answered, ended.
    destruct (decide (u = t)) as [->|Hne]; [|by destruct (Hu u Hne) as (-> & -> & ->)].
    destruct (PC L' !! t); [|done]. destruct (TD (KD L') !! t) as [d|] eqn:Ed; [|done].
    rewrite (Hw d eq_refl). by rewrite andb_false_r.
Qed.

Lemma ev_base_list idle L l : base idle L -> base idle (set_LIST (Some l) L).
Proof. intros []. by split. Qed.

Lemma create_good idle L e flags : einv idle L -> can idle L (ACreate e flags) ->
  wp False (run_action (ACreate e flags)) L (good idle L).
Proof.
  intros [Hs Hb] (_ & He & Hq & Hl). set (auto := if negb (Z.land flags LWEVENT_AUTO_CLEAR =? 0) then 4294967295 else 0).
  destruct (sys_empty idle (KD L) (WAITING_TASKS e) Hs Hq) as [Hs1 Ha]. set (k1 := set_AUX_QUEUES _ _) in Hs1.
  set (l := default [] (LWEVENTS L)). set (v := Event LWEVENT_VALID 0 flags auto).
  assert (e ∉ l) as Hn by (unfold l; destruct (LWEVENTS L) eqn:E; [by apply Hl|apply not_elem_of_nil]).
  set (L1 := set_LIST (Some (l ++ [e])) (set_KD k1 L)). set (L' := set_EVS (<[e := v]>) L1).
  assert (run_action (ACreate e flags) L = Some (AutoSet e auto :: under_way L e, L')) as E.
  { unfold run_action, _lwevent_create, _lwevent_create_internal.
    unfold mbind, M_bind, zoom, modify, gets, set_e, id. cbn -[v]. fold l auto.
    rewrite bool_decide_false by done. cbn -[v]. by rewrite lookup_insert, decide_True. }
  assert (base idle (set_KD k1 L)) as Hb1.
  { apply ev_base_frame; [done|apply Hs1|by apply frame_eq|done]. }
  eapply wp_end; [exact E|]. split.
  - split; [exact Hs1|]. apply base_event; [by apply ev_base_list|done|by eexists|].
    intros _ t d Hd H10 HI. exfalso.
    assert (t ∈ on (AUX_QUEUES (KD L)) (WAITING_TASKS e)) as Hin by (apply in_aux; [apply Hb|eauto]).
    rewrite Hq in Hin. by apply elem_of_nil in Hin.
  - assert (forall e1 i, pend L' e1 i = pend L e1 i) as Hpe by done.
    intros e1 i Hi Ha1 Hau. unfold auto_in, budget. rewrite Hpe. change (EVS L') with (<[e := v]> (EVS L)).
    destruct (under_way_tally L e auto i e1) as (-> & -> & ->). rewrite lookup_insert. case_decide as Hee.
    + subst e1. split; [intros v1 [= <-]; apply Hau; by left|]. rewrite (decide_True (P := e = e)) by done.
      cbn [v EVALID EVALUE]. rewrite Z.bits_0.
      assert (0 <= pend L e i) by apply count_nonneg.
      destruct (EVS L !! e) as [v1|]; [destruct (EVALID v1 =? 0); destruct (Z.testbit (EVALUE v1) i)|]; cbn; lia.
    + split; [done|]. rewrite (decide_False (P := e1 = e)) by congruence. lia.
Qed.

(** The tasks that waited for an event that goes away. *)
Lemma base_release idle L e v k : base idle L -> EVS L !! e = Some v -> EVALID v <> LWEVENT_VALID ->
  kinv k -> (forall t d, TD (KD L) !! t = Some d -> TD k !! t = Some (
    if decide (t ∈ on (AUX_QUEUES (KD L)) (WAITING_TASKS e)) then readied (undelayed d) else d)) ->
  (forall t, TD (KD L) !! t = None -> TD k !! t = None) -> base idle (set_KD k L).
Proof.
  intros Hb Hv Hva Hk Ht Hn.
  assert (forall t d', TD k !! t = Some d' -> exists d, TD (KD L) !! t = Some d /\
    (d' = d \/ d' = readied (undelayed d) /\ 0 < INFO d)) as Hinv.
  { intros t d' Hd'. destruct (TD (KD L) !! t) as [d|] eqn:Hd; [|rewrite (Hn t Hd) in Hd'; done].
    exists d. split; [done|]. rewrite (Ht t d Hd) in Hd'. injection Hd' as <-. case_decide as Hi; [right|by left].
    split; [done|]. apply in_aux in Hi as (e0 & He0 & H10 & HI); [|apply Hb]. simplify_eq.
    by eapply ev_wait_info. }
  assert (forall d, INFO (readied (undelayed d)) = INFO d) as Hinfo
    by (intros d; unfold undelayed; by destruct (Z.testbit (STATE d) 8)).
  destruct Hb as [H1 H2 H3 H4 H5 H6 H7]. split; try done; cbn [KD PC EVS set_KD].
  - intros t d' Hd' H10. destruct (Hinv t d' Hd') as (d & Hd & [->|[-> _]]); [by apply H2|done].
  - intros t p Hp. destruct (H3 t p Hp) as [[d Hd] Hr]. split; [|done]. rewrite (Ht t d Hd). by eexists.
  - intros t d' e' v' Hd' H10. destruct (Hinv t d' Hd') as (d & Hd & [->|[-> _]]); [by apply H5|done].
  - intros t d' p Hp Hd' H10 HI. destruct (Hinv t d' Hd') as (d & Hd & [->|[-> Hpos]]); [by eapply H6|].
    rewrite Hinfo in HI. lia.
Qed.

Lemma destroy_exec idle L e v : einv idle L -> EVS L !! e = Some v -> EVALID v = LWEVENT_VALID ->
  IN_ISR (KD L) = 0 ->
  exists L' l, _lwevent_destroy e L = Some (MQX_OK, L') /\ einv idle L' /\
    EVS L' = <[e := Event 0 (EVALUE v) (EFLAGS v) (EAUTO v)]> (EVS L) /\ PC L' = PC L /\
    LWEVENTS L = Some l /\ LWEVENTS L' = Some (without e l) /\
    on (AUX_QUEUES (KD L')) (WAITING_TASKS e) = [] /\
    (forall t d, TD (KD L) !! t = Some d -> TD (KD L') !! t = Some (
       if decide (t ∈ on (AUX_QUEUES (KD L)) (WAITING_TASKS e)) then readied (undelayed d) else d)) /\
    (forall t, TD (KD L) !! t = None -> TD (KD L') !! t = None) /\ LWEVENT_BITS L' = LWEVENT_BITS L.
Proof.
  intros [Hs Hb] Hv Hva Hi. pose proof Hs as [Hp Hr _].
  destruct (i_list _ _ Hb e v Hv Hva) as [l El].
  destruct (release_all_run (WAITING_TASKS e) _ (KD L) (i_kinv _ _ Hb) eq_refl) as (k1 & E & Hk1 & Hc & Hq & Ht & Hn).
  set (v' := Event 0 (EVALUE v) (EFLAGS v) (EAUTO v)). set (L1 := set_EVS (<[e := v']>) L).
  assert (base idle L1) as Hb1 by (apply base_event; [done|by eapply (i_event _ _ Hb)|done|done]).
  assert (base idle (set_KD k1 L1)) as Hb2.
  { eapply (base_release idle L1 e v'); [done|apply lookup_insert_eq|done|done|exact Ht|exact Hn]. }
  assert (forall u, is_ready (KD L) u -> is_ready k1 u) as Hrd.
  { intros u (d & Hd & Hsd). unfold is_ready. rewrite (Ht u d Hd). case_decide; by eexists. }
  set (L2 := set_LIST (Some (without e l)) (set_KD k1 L1)).
  destruct (ev_check_ending idle L2) as (k2 & E2 & He2 & Hsw).
  { split; [|destruct Hc as (Ea & _); cbn; rewrite Ea; by apply Hrd|by apply ev_base_list].
    cbn. eapply pre_ctl; [exact Hp|done|apply Hrd, Hp|done]. }
  exists (set_KD k2 L2), l. split_and!; try done.
  - unfold _lwevent_destroy, _lwevent_destroy_internal.
    rewrite (bind_run _ _ _ _ _ (eq_refl : gets id L = Some (L, L))). unfold id. rewrite Hi. cbn [negb Z.eqb].
    rewrite (bind_run _ _ _ _ _ (get_e_run e v L Hv)), Hva, Z.eqb_refl. cbn [negb].
    rewrite (bind_run _ _ _ _ _ (eq_refl : set_e e v' L = Some (tt, L1))).
    rewrite (bind_run _ _ _ _ _ (kern_run _ L1 tt k1 E)).
    rewrite (bind_run _ _ _ l (set_KD k1 L1)) by (unfold lift_opt; by rewrite El).
    rewrite (bind_run _ _ _ _ _ (eq_refl : modify (set_LIST (Some (without e l))) _ = Some (tt, L2))).
    by rewrite (bind_run _ _ _ _ _ (kern_run _ L2 tt k2 E2)).
  - cbn. by rewrite (switched_aux _ _ Hsw).
  - pose proof (switched_lists _ _ Hsw) as (Et & _). cbn. rewrite Et. exact Ht.
  - pose proof (switched_lists _ _ Hsw) as (Et & _). cbn. rewrite Et. exact Hn.
Qed.

Lemma destroy_good idle L e : einv idle L -> can idle L (ADestroy e) ->
  wp False (run_action (ADestroy e)) L (good idle L).
Proof.
  intros He (_ & v & Hv). unfold run_action. eapply wp_run; [done|]. unfold id.
  assert (forall r, _lwevent_destroy e L = Some (r, L) ->
    wp False (_lwevent_destroy e;; mret []) L (good idle L)) as Hret
    by (intros r E; eapply wp_run; [exact E|]; by apply good_refl).
  destruct (Z.eqb_spec (IN_ISR (KD L)) 0) as [Hi|Hi].
  - destruct (Z.eqb_spec (EVALID v) LWEVENT_VALID) as [Hva|Hva].
    + destruct (destroy_exec idle L e v He Hv Hva Hi) as (L' & l & E & He' & Ee & Epc & _ & _ & _ & Ht & Hn & Ebt).
      eapply wp_run; [exact E|]. split; [done|]. eapply conserve_event; [done|done|set_solver| |].
      * intros e' i Hne. by eapply (pend_release idle L L' e); [apply He|..].
      * intros i _ Ha _. split; [done|]. unfold budget at 1. rewrite Ee, lookup_insert_eq. cbn.
        change (tally _ []) with 0. pose proof (budget_nonneg L e i). lia.
    + apply (Hret MQX_LWEVENT_INVALID). unfold _lwevent_destroy, _lwevent_destroy_internal.
      rewrite (bind_run _ _ _ _ _ (eq_refl : gets id L = Some (L, L))). unfold id. rewrite Hi. cbn [negb Z.eqb].
      rewrite (bind_run _ _ _ _ _ (get_e_run e v L Hv)). by rewrite (proj2 (Z.eqb_neq _ _) Hva).
  - apply (Hret MQX_CANNOT_CALL_FUNCTION_FROM_ISR). unfold _lwevent_destroy, _lwevent_destroy_internal.
    rewrite (bind_run _ _ _ _ _ (eq_refl : gets id L = Some (L, L))). unfold id.
    by rewrite (proj2 (Z.eqb_neq _ _) Hi).
Qed.

(** *** Going on *)

Lemma base_leave idle L t : base idle L -> is_ready (KD L) t -> base idle (set_PC (delete t) L).
Proof.
  intros [H1 H2 H3 H4 H5 H6 H7] (d & Hd & Hr). split; try done; cbn [KD PC EVS set_PC].
  - intros u e He H10. rewrite lookup_delete_ne; [by apply H2|]. intros <-. simplify_eq. by rewrite Hr in H10.
  - intros u p. rewrite lookup_delete. case_decide; [done|]. by apply H3.
  - intros u e p. rewrite lookup_delete. case_decide; [done|]. by apply H6.
Qed.

Lemma resume_run idle L t p d v : einv idle L -> ACTIVE_PTR (KD L) = t -> PC L !! t = Some p ->
  TD (KD L) !! t = Some d -> EVS L !! PC_event p = Some v ->
  resume L = Some (if EVALID v =? 0 then MQX_LWEVENT_INVALID
                   else if PC_timed p && negb (INFO d =? 0) then LWEVENT_WAIT_TIMEOUT else MQX_OK,
                   set_PC (delete t) L).
Proof.
  intros He Ha Hp Hd Hv. unfold resume. rewrite (bind_run _ _ _ _ _ (zoom_active L)), Ha.
  rewrite (bind_run _ _ _ _ _ (eq_refl : gets id L = Some (L, L))). unfold id.
  rewrite (bind_run _ _ L p L) by (unfold lift_opt; by rewrite Hp).
  set (L1 := set_PC (delete t) L).
  rewrite (bind_run _ _ _ _ _ (eq_refl : modify (set_PC (delete t)) L = Some (tt, L1))).
  erewrite bind_run; [|by apply kern_run, get_td_run]. rewrite set_KD_same.
  by rewrite (bind_run _ _ _ _ _ (get_e_run (PC_event p) v L1 Hv)).
Qed.

Lemma ev_resume_good idle L : einv idle L -> can idle L AResume ->
  wp False (run_action AResume) L (good idle L).
Proof.
  intros He (Hi & p & Hp). pose proof He as [Hs Hb]. pose proof (sys_run _ _ Hs) as Hrd. destruct Hrd as (d & Hd & Hr).
  set (t := ACTIVE_PTR (KD L)) in *.
  destruct (i_pc _ _ Hb _ _ Hp) as (_ & v & Hv). set (L' := set_PC (delete t) L).
  unfold run_action. eapply wp_run; [done|]. unfold id. fold t.
  eapply (wp_run _ _ _ _ p L); [unfold lift_opt; by rewrite Hp|].
  eapply wp_run; [by eapply resume_run|]. fold L'. eapply wp_end; [done|]. unfold id.
  assert (einv idle L') as He' by (split; [done|]; apply base_leave; [done|by exists d]).
  assert (forall e i u, u <> t -> answered L e i u = answered L' e i u) as Hsame.
  { intros e i u Hu. unfold answered, ended, L', bits. cbn. by rewrite lookup_delete_ne. }
  assert (forall e i, answered L' e i t = false) as Hgone.
  { intros e i. unfold answered, ended, L'. cbn. by rewrite lookup_delete, decide_True. }
  assert (forall e i, pend L' e i <= pend L e i) as Hle.
  { intros e i. apply pend_le; [done|]. intros u. destruct (decide (u = t)) as [->|Hu]; [by rewrite Hgone|].
    by rewrite (Hsame e i u Hu). }
  destruct (Z.eqb_spec (EVALID v) 0) as [Hva|Hva]; [by apply good_same|].
  destruct (PC_timed p && negb (INFO d =? 0)) eqn:Et; [by apply good_same|].
  fold t. fold L'. change (wait_events L' (PC_event p) t (Returned MQX_OK)) with [Delivered (PC_event p) t (bits L t)].
  split; [done|]. intros e i Hi' Ha _. split; [done|].
  rewrite !tally_cons. change (tally _ []) with 0. cbn [gives sets rests]. specialize (Hle e i).
  unfold budget. change (EVS L') with (EVS L). destruct (Z.eqb_spec (PC_event p) e) as [<-|Hne]; cbn [andb].
  - rewrite Hv, (proj2 (Z.eqb_neq _ _) Hva). destruct (Z.testbit (bits L t) i) eqn:Eb; [|lia].
    assert (pend L (PC_event p) i = pend L' (PC_event p) i + 1); [|lia].
    apply (count_flip _ _ _ t); [unfold tasks; apply NoDup_elements|unfold tasks; apply elem_of_elements, elem_of_dom; by exists d
      |apply Hgone| |intros u Hu; symmetry; by apply Hsame].
    unfold answered, ended. rewrite Hp, Hd, Hr, Eb, Z.eqb_refl. change (Z.testbit READY 10) with false. cbn.
    by destruct (PC_timed p), (INFO d =? 0).
  - destruct (EVS L !! e) as [w|]; [|lia]. destruct (EVALID w =? 0); lia.
Qed.

Lemma ev_call_good idle L c : einv idle L -> can idle L (ACall c) ->
  wp False (run_action (ACall c)) L (good idle L).
Proof.
  intros He (Hq & Ha & _). destruct (einv_call idle L c He Ha Hq) as (k & E & He' & Hf).
  unfold run_action. eapply wp_run; [done|]. eapply wp_run; [apply kern_run; exact E|].
  apply good_same; [done|done|]. intros e i. by eapply pend_frame; [apply He|].
Qed.

(** Every action that is a correct use is done without a fault. *)
Lemma ev_action_good idle L x : einv idle L -> can idle L x -> wp False (run_action x) L (good idle L).
Proof.
  destruct x as [e flags|e|e m|e m|e m|e m all tick|e m all tick|e m all n| |c]; intros He Ha.
  - by apply create_good.
  - by apply destroy_good.
  - by apply set_good.
  - by apply clear_good.
  - by apply auto_good.
  - destruct Ha as (A1 & A2 & A3). unfold run_action. eapply wp_run; [done|]. by apply ev_wait_good.
  - destruct Ha as (A1 & A2 & A3). unfold run_action. eapply wp_run; [done|]. by apply ev_wait_good.
  - destruct Ha as (A1 & A2 & A3). unfold run_action. eapply wp_run; [done|]. unfold _lwevent_wait_ticks.
    case_if; by apply ev_wait_good.
  - by apply ev_resume_good.
  - by apply ev_call_good.
Qed.

(** The states that actions reach, with what happened to the bits. *)
Inductive ereach (idle : Z) (L0 : ev) : list trace_event -> ev -> Prop :=
  | ereach_start : ereach idle L0 [] L0
  | ereach_step tr L x t L' : ereach idle L0 tr L -> can idle L x ->
      run_action x L = Some (t, L') -> ereach idle L0 (tr ++ t) L'.

Lemma ereach_good idle L0 tr L : einv idle L0 -> ereach idle L0 tr L -> good idle L0 tr L.
Proof.
  intros H0. induction 1 as [|tr L x t L' _ [He Hc] Ha E]; [by apply good_refl|].
  pose proof (ev_action_good idle L x He Ha) as Hg. unfold wp in Hg. rewrite E in Hg.
  destruct Hg as [He' Hc']. split; [done|]. by eapply conserve_trans.
Qed.

(** ** The properties *)

(** What is missing, bit by bit: a wait for all the bits of [mask] misses one of
    them, a wait for any misses each. *)
Definition lacking (all : bool) (mask v : Z) : Prop :=
  if all then exists i, 0 <= i /\ Z.testbit mask i = true /\ Z.testbit v i = false
  else forall i, 0 <= i -> Z.testbit mask i = true -> Z.testbit v i = false.

Lemma some_bit x : x <> 0 -> exists i, 0 <= i /\ Z.testbit x i = true.
Proof.
  intros H. destruct (Z.lt_trichotomy x 0) as [Hx|[Hx|Hx]]; [|done|].
  - exists (Z.log2 (Z.abs x) + 1). pose proof (Z.log2_nonneg (Z.abs x)). split; [lia|].
    apply (Z.bits_iff_neg x); lia.
  - exists (Z.log2 x). split; [apply Z.log2_nonneg|by apply Z.bit_log2].
Qed.

Lemma missing_bit m v : Z.land m v <> m -> exists i, 0 <= i /\ Z.testbit m i = true /\ Z.testbit v i = false.
Proof.
  intros H. assert (Z.ldiff m v <> 0) as Hd.
  { intros H0. apply H, Z.bits_inj'. intros i Hi. rewrite Z.land_spec.
    pose proof (f_equal (fun x => Z.testbit x i) H0) as Hb. cbn beta in Hb. rewrite Z.ldiff_spec, Z.bits_0 in Hb.
    by destruct (Z.testbit m i), (Z.testbit v i). }
  apply some_bit in Hd as (i & Hi & Hb). rewrite Z.ldiff_spec in Hb.
  apply andb_true_iff in Hb as [H1 H2]. apply negb_true_iff in H2. by exists i.
Qed.

Lemma met_lacking all mask v : met all mask v = false <-> lacking all mask v.
Proof.
  unfold met, lacking. destruct all; cbn [andb orb negb].
  - rewrite orb_false_r, Z.eqb_neq. split; [apply missing_bit|]. intros (i & Hi & H1 & H2) H.
    rewrite <-H, Z.land_spec, H2, andb_false_r in H1. done.
  - rewrite negb_false_iff, Z.eqb_eq. split.
    + intros H i Hi Hm. pose proof (f_equal (fun x => Z.testbit x i) H) as Hb. cbn beta in Hb.
      rewrite Z.land_spec, Hm, Z.bits_0 in Hb. done.
    + intros H. apply Z.bits_inj'. intros i Hi. rewrite Z.land_spec, Z.bits_0.
      destruct (Z.testbit mask i) eqn:E; [|done]. by rewrite (H i Hi E).
Qed.

(** C15: No wakeup is lost: in any reachable state no task waits for a valid event
    whose bits are enough for it. *)
Theorem lwevent_no_lost_wakeup idle L0 tr L e v t :
  einv idle L0 -> ereach idle L0 tr L -> EVS L !! e = Some v -> EVALID v = LWEVENT_VALID ->
  t ∈ on (AUX_QUEUES (KD L)) (WAITING_TASKS e) ->
  exists p, PC L !! t = Some p /\ PC_event p = e /\ bits L t = PC_mask p /\
    met (PC_all p) (PC_mask p) (EVALUE v) = false /\ lacking (PC_all p) (PC_mask p) (EVALUE v).
Proof.
  intros H0 Hr Hv Hva Ht. destruct (ereach_good _ _ _ _ H0 Hr) as [[_ Hb] _].
  apply in_aux in Ht as (d & Hd & H10 & HI); [|apply Hb].
  destruct (i_blocked _ _ Hb t d Hd H10) as (p & Hp & Hi & _ & Ha & Hm).
  assert (met (PC_all p) (PC_mask p) (EVALUE v) = false) as Hn
    by (rewrite <-Ha, <-Hm; by apply (i_unmet _ _ Hb t d e v)).
  exists p. split_and!; [done| |done|done|by apply met_lacking].
  unfold WAITING_TASKS in *. lia.
Qed.

(** C3: A set gives the bits to the tasks that wait as the specification says: in
    the order in which they came, each gets those of its bits that are there, if
    they are enough, and takes those that clear themselves away from the rest;
    the others wait on in order. *)
Theorem lwevent_set_signals idle L e v m :
  einv idle L -> EVS L !! e = Some v -> EVALID v = LWEVENT_VALID ->
  exists L' got stay rest, _lwevent_set e m L = Some (MQX_OK, L') /\ einv idle L' /\
    signal (EAUTO v) (Z.lor (EVALUE v) m) (waiter_of L <$> on (AUX_QUEUES (KD L)) (WAITING_TASKS e)) =
      (got, stay, rest) /\
    EVS L' = <[e := with_VALUE rest v]> (EVS L) /\
    on (AUX_QUEUES (KD L')) (WAITING_TASKS e) = W_task <$> stay /\
    (forall t b, (t, b) ∈ got -> bits L' t = b /\
       exists d, TD (KD L') !! t = Some d /\ STATE d = READY /\ INFO d = 0) /\
    (forall u, u ∉ got.*1 -> TD (KD L') !! u = TD (KD L) !! u /\ bits L' u = bits L u).
Proof.
  intros He Hv Hva. destruct (set_exec idle L e v m He Hv Hva) as (L' & got & stay & rest & E & Es & []).
  exists L', got, stay, rest. by split_and!.
Qed.


(** A wait that was ended by a set returns [MQX_OK], and
    [_lwevent_get_signalled] then gives all the bits that were asked for, or some
    of them. *)
Theorem lwevent_wait_answered idle L0 tr L p d v :
  einv idle L0 -> ereach idle L0 tr L -> PC L !! ACTIVE_PTR (KD L) = Some p ->
  TD (KD L) !! ACTIVE_PTR (KD L) = Some d -> INFO d = 0 ->
  EVS L !! PC_event p = Some v -> EVALID v = LWEVENT_VALID ->
  exists L' b, resume L = Some (MQX_OK, L') /\ _lwevent_get_signalled L' = Some (b, L') /\
    answers (PC_all p) (PC_mask p) b.
Proof.
  intros H0 Hr Hp Hd HI Hv Hva. destruct (ereach_good _ _ _ _ H0 Hr) as [He _].
  pose proof He as [Hs Hb]. destruct (sys_run _ _ Hs) as (d' & Hd' & Hst). simplify_eq.
  exists (set_PC (delete (ACTIVE_PTR (KD L))) L), (bits L (ACTIVE_PTR (KD L))). split_and!.
  - rewrite (resume_run idle L _ p d v He eq_refl Hp Hd Hv), Hva, HI. cbn. by rewrite andb_false_r.
  - unfold _lwevent_get_signalled. rewrite (bind_run _ _ _ _ _ (zoom_active _)). done.
  - eapply (i_got _ _ Hb); [done|done| |done]. by rewrite Hst.
Qed.

(** Every call that the program may make, and every interrupt and switch,
    ends without a fault, in any reachable state. *)
Theorem lwevent_total idle L0 tr L x :
  einv idle L0 -> ereach idle L0 tr L -> can idle L x -> exists t L', run_action x L = Some (t, L').
Proof.
  intros H0 Hr Ha. destruct (ereach_good _ _ _ _ H0 Hr) as [He _].
  pose proof (ev_action_good idle L x He Ha) as Hg. apply wp_total in Hg as (t & L' & E & _); [eauto|tauto].
Qed.

(** C38: An event that is destroyed and created again answers the waits for the
    old one: they return [MQX_OK] and [_lwevent_get_signalled] gives their whole
    mask, although no bit was ever set. *)
Theorem lwevent_recreated_answers idle L e v t p flags :
  einv idle L -> EVS L !! e = Some v -> EVALID v = LWEVENT_VALID -> IN_ISR (KD L) = 0 ->
  t ∈ on (AUX_QUEUES (KD L)) (WAITING_TASKS e) -> PC L !! t = Some p -> PC_timed p = false ->
  exists L1 L2 v2, _lwevent_destroy e L = Some (MQX_OK, L1) /\
    _lwevent_create e flags L1 = Some (MQX_OK, L2) /\ einv idle L2 /\
    EVS L2 !! e = Some v2 /\ EVALUE v2 = 0 /\ PC L2 !! t = Some p /\
    forall L3, einv idle L3 -> ACTIVE_PTR (KD L3) = t -> PC L3 !! t = Some p -> EVS L3 !! e = Some v2 ->
      bits L3 t = bits L2 t ->
      exists L4, resume L3 = Some (MQX_OK, L4) /\ _lwevent_get_signalled L4 = Some (PC_mask p, L4).
Proof.
  intros He Hv Hva Hi Ht Hp Htm. pose proof He as [Hs Hb].
  apply in_aux in Ht as (d & Hd & H10 & HI); [|apply Hb].
  destruct (i_blocked _ _ Hb t d Hd H10) as (p' & Hp' & Hpi & _ & _ & Hm). simplify_eq.
  assert (PC_event p = e) as Hpe by (unfold WAITING_TASKS in *; lia).
  destruct (destroy_exec idle L e v He Hv Hva Hi) as (L1 & l & E & He1 & Ee & Epc & El & El1 & Eq & _).
  set (auto := if negb (Z.land flags LWEVENT_AUTO_CLEAR =? 0) then 4294967295 else 0).
  destruct (sys_empty idle (KD L1) (WAITING_TASKS e) (proj1 He1) Eq) as [Hs1 Ha].
  set (k1 := set_AUX_QUEUES (<[WAITING_TASKS e := []]>) (KD L1)) in Hs1. set (v2 := Event LWEVENT_VALID 0 flags auto).
  set (L2 := set_EVS (<[e := v2]>) (set_LIST (Some (without e l ++ [e])) (set_KD k1 L1))).
  assert (bits L1 = bits L) as Hbits.
  { unfold bits. assert (LWEVENT_BITS L1 = LWEVENT_BITS L) as ->; [|done].
    revert E. unfold _lwevent_destroy, _lwevent_destroy_internal, mbind, M_bind, gets, zoom, modify, set_e, get_e, lift_opt, id, mret, M_ret.
    repeat (case_match; try done; cbn in *; simplify_eq/=); by intros [= <-]. }
  exists L1, L2, v2. split_and!; [done| | |apply lookup_insert_eq|done|cbn; by rewrite Epc|].
  - unfold _lwevent_create, _lwevent_create_internal.
    unfold mbind, M_bind, zoom, modify, gets, set_e, id. cbn -[v2]. rewrite El1. cbn -[v2].
    rewrite bool_decide_false by (rewrite elem_of_without; tauto). done.
  - split; [exact Hs1|]. apply base_event.
    + apply ev_base_list, ev_base_frame; [apply He1|apply Hs1|by apply frame_eq|done].
    + by eapply (i_event _ _ Hb).
    + by eexists.
    + intros _ u d2 Hd2 Hu HI2. exfalso.
      assert (u ∈ on (AUX_QUEUES (KD L1)) (WAITING_TASKS e)) as Hin by (apply in_aux; [apply He1|eauto]).
      rewrite Eq in Hin. by apply elem_of_nil in Hin.
  - intros L3 He3 Ha3 Hp3 Hv3 Hb3. destruct (i_pc _ _ (proj2 He3) _ _ Hp3) as ([d3 Hd3] & _).
    exists (set_PC (delete t) L3). split.
    + rewrite <-Hpe in Hv3. rewrite (resume_run idle L3 t p d3 v2 He3 Ha3 Hp3 Hd3 Hv3). cbn -[Z.eqb].
      by rewrite Htm.
    + unfold _lwevent_get_signalled. rewrite (bind_run _ _ _ _ _ (zoom_active _)).
      assert (bits L3 t = PC_mask p) as Eb by (rewrite Hb3; change (bits L2) with (bits L1); by rewrite Hbits, Hm).
      rewrite (bind_run _ _ _ _ _ (eq_refl : gets id _ = Some (set_PC (delete t) L3, set_PC (delete t) L3))).
      rewrite <-Eb, <-Ha3. done.
Qed.

(** *** Examples *)

Lemma einv_start idle k : sys idle k ->
  (forall t d, TD k !! t = Some d -> Z.testbit (STATE d) 10 = false) -> einv idle (Ev k ∅ None ∅ ∅).
Proof.
  intros Hs Ht. split; [done|]. split.
  - apply Hs.
  - intros t d Hd H10. by rewrite (Ht t d Hd) in H10.
  - intros t p Hp. destruct (lookup_empty_Some (M := gmap Z) t p Hp).
  - intros e v Hv. destruct (lookup_empty_Some (M := gmap Z) e v Hv).
  - intros t d e v _ _ _ Hv. destruct (lookup_empty_Some (M := gmap Z) e v Hv).
  - intros t d p Hp. destruct (lookup_empty_Some (M := gmap Z) t p Hp).
  - intros e v Hv. destruct (lookup_empty_Some (M := gmap Z) e v Hv).
Qed.

(** Tasks 1 and 2 are ready at priority 3, and 1 runs. *)
Definition ex_ev : ev := Ev (after (Ready 2) (after (Ready 1) ex_boot)) ∅ None ∅ ∅.

Lemma ex_ev_einv : einv 9 ex_ev.
Proof.
  apply einv_start.
  - apply after_sys; [apply after_sys; [exact ex_boot_sys|]|];
      (eexists; split; [vm_compute; reflexivity|]; right; vm_compute; reflexivity).
  - assert (map_Forall (fun _ d => Z.testbit (STATE d) 10 = false) (TD (KD ex_ev))) as H; [|exact H].
    apply (bool_decide_eq_true_1 _). vm_compute. reflexivity.
Qed.

Definition eafter (x : action) (L : ev) : ev :=
  match run_action x L with Some (_, L') => L' | None => L end.

(** An event at 300 whose bits clear themselves; 1 waits for both of the bits 5; 2
    sets 1, and then 4, and yields to 1, whose wait returns. *)
Definition ex_created : ev := eafter (ACreate 300 1) ex_ev.
Definition ex_waits : ev := eafter (AWaitTicks 300 5 true 0) ex_created.
Definition ex_one : ev := eafter (ASet 300 1) ex_waits.
Definition ex_both : ev := eafter (ASet 300 4) ex_one.
Definition ex_back : ev := eafter (ACall Yield) ex_both.


Ltac ex_yield := split; [reflexivity|]; split; [exact I|]; right; intros _; vm_compute; reflexivity.
Ltac ex_wait :=
  split; [intros _; vm_compute; reflexivity|]; split; [eexists; vm_compute; reflexivity|];
  intros _; vm_compute; discriminate.
Ltac ex_can := split; [intros _; vm_compute; reflexivity|eexists; vm_compute; reflexivity].

Lemma ex_created_reach : ereach 9 ex_ev [AutoSet 300 4294967295] ex_created.
Proof.
  change [AutoSet 300 4294967295] with ([] ++ [AutoSet 300 4294967295]).
  eapply (ereach_step _ _ [] ex_ev (ACreate 300 1)); [constructor| |vm_compute; reflexivity].
  split; [intros _; vm_compute; reflexivity|]. split; [lia|]. split; [vm_compute; reflexivity|done].
Qed.

Lemma ex_ev_waits_reach : ereach 9 ex_ev [AutoSet 300 4294967295] ex_waits.
Proof.
  change [AutoSet 300 4294967295] with ([AutoSet 300 4294967295] ++ []).
  eapply (ereach_step _ _ _ ex_created (AWaitTicks 300 5 true 0)); [apply ex_created_reach|ex_wait|vm_compute; reflexivity].
Qed.

Lemma ex_one_reach : ereach 9 ex_ev [AutoSet 300 4294967295; Signalled 300 1] ex_one.
Proof.
  change [AutoSet 300 4294967295; Signalled 300 1] with ([AutoSet 300 4294967295] ++ [Signalled 300 1]).
  eapply (ereach_step _ _ _ ex_waits (ASet 300 1)); [apply ex_ev_waits_reach|ex_can|vm_compute; reflexivity].
Qed.

Definition ex_trace : list trace_event := [AutoSet 300 4294967295; Signalled 300 1; Signalled 300 4].

Lemma ex_ev_back_reach : ereach 9 ex_ev ex_trace ex_back.
Proof.
  change ex_trace with (([AutoSet 300 4294967295; Signalled 300 1] ++ [Signalled 300 4]) ++ []).
  eapply (ereach_step _ _ _ ex_both (ACall Yield)); [|ex_yield|vm_compute; reflexivity].
  eapply (ereach_step _ _ _ ex_one (ASet 300 4)); [apply ex_one_reach|ex_can|vm_compute; reflexivity].
Qed.



Lemma ex_created_einv : einv 9 ex_created.
Proof. apply (ereach_good 9 ex_ev _ ex_created ex_ev_einv ex_created_reach). Qed.

Lemma ex_one_einv : einv 9 ex_one.
Proof. apply (ereach_good 9 ex_ev _ ex_one ex_ev_einv ex_one_reach). Qed.

Lemma ex_one_queue : 1 ∈ on (AUX_QUEUES (KD ex_one)) (WAITING_TASKS 300).
Proof.
  assert (on (AUX_QUEUES (KD ex_one)) (WAITING_TASKS 300) = [1]) as -> by (vm_compute; reflexivity).
  apply elem_of_cons. left. reflexivity.
Qed.

Lemma lwevent_no_lost_wakeup_witness : exists p, PC ex_one !! 1 = Some p /\ lacking true 5 1.
Proof.
  destruct (EVS ex_one !! 300) as [v|] eqn:E; [|vm_compute in E; discriminate].
  destruct (lwevent_no_lost_wakeup 9 ex_ev _ ex_one 300 v 1 ex_ev_einv ex_one_reach E) as (p & Hp & _ & _ & _ & Hm);
    [vm_compute in E; injection E as <-; reflexivity|exact ex_one_queue|].
  exists p. split; [exact Hp|]. vm_compute in E, Hp. injection E as <-. injection Hp as <-. exact Hm.
Defined.

Lemma lwevent_set_signals_witness : exists L', _lwevent_set 300 4 ex_one = Some (MQX_OK, L') /\ bits L' 1 = 5.
Proof.
  destruct (EVS ex_one !! 300) as [v|] eqn:E; [|vm_compute in E; discriminate].
  destruct (lwevent_set_signals 9 ex_one 300 v 4 ex_one_einv E) as (L' & got & stay & rest & E' & _ & Es & _ & _ & Hg & _);
    [vm_compute in E; injection E as <-; reflexivity|].
  exists L'. split; [exact E'|]. apply (Hg 1 5).
  vm_compute in E. injection E as <-. vm_compute in Es. injection Es as <- _ _. apply elem_of_cons. left. reflexivity.
Defined.


Lemma lwevent_wait_answered_witness : exists L' b, resume ex_back = Some (MQX_OK, L') /\
  _lwevent_get_signalled L' = Some (b, L') /\ b = 5.
Proof.
  destruct (PC ex_back !! 1) as [p|] eqn:Ep; [|vm_compute in Ep; discriminate].
  destruct (TD (KD ex_back) !! 1) as [d|] eqn:Ed; [|vm_compute in Ed; discriminate].
  destruct (EVS ex_back !! PC_event p) as [v|] eqn:Ev;
    [|vm_compute in Ep; injection Ep as <-; vm_compute in Ev; discriminate].
  destruct (lwevent_wait_answered 9 ex_ev ex_trace ex_back p d v ex_ev_einv ex_ev_back_reach) as (L' & b & E1 & E2 & H);
    [exact Ep|exact Ed|vm_compute in Ed; injection Ed as <-; reflexivity|exact Ev| |].
  - vm_compute in Ep. injection Ep as <-. vm_compute in Ev. injection Ev as <-. reflexivity.
  - exists L', b. split; [exact E1|]. split; [exact E2|]. vm_compute in Ep. injection Ep as <-. exact H.
Defined.

Lemma lwevent_total_witness : exists t L', run_action (ASet 300 4) ex_one = Some (t, L').
Proof. apply (lwevent_total 9 ex_ev _ ex_one _ ex_ev_einv ex_one_reach). ex_can. Defined.

Lemma lwevent_recreated_answers_witness : exists L1 L2, _lwevent_destroy 300 ex_one = Some (MQX_OK, L1) /\
  _lwevent_create 300 0 L1 = Some (MQX_OK, L2).
Proof.
  destruct (EVS ex_one !! 300) as [v|] eqn:Ev; [|vm_compute in Ev; discriminate].
  destruct (PC ex_one !! 1) as [p|] eqn:Ep; [|vm_compute in Ep; discriminate].
  destruct (lwevent_recreated_answers 9 ex_one 300 v 1 p 0 ex_one_einv Ev) as (L1 & L2 & v2 & E1 & E2 & _);
    [vm_compute in Ev; injection Ev as <-; reflexivity|vm_compute; reflexivity|exact ex_one_queue|exact Ep
    |vm_compute in Ep; injection Ep as <-; reflexivity|].
  exists L1, L2. split; [exact E1|exact E2].
Defined.
End Lwevent.
