(* ===== verification/Heap.v ===== *)
(** * The system's memory as its clients use it

    The kernel's components take their structures from [_mem_alloc_system] and
    its relatives, which a configuration maps to one of the two allocators
    (mqx.h, "special memory allocator option").  [SystemHeap] names the
    operations, [HeapLaws] states what the clients rely on, and the instances
    at the end are the lightweight memory manager of [Lwmem]: its default pool
    gives the memory out.  The clients' theorems are proved from the laws. *)

From S2P Require Import Prelude Lwmem.

Module Heap.

(** ** The interface *)

(** A region of memory that a client may use: its size, and whether it came
    from the allocator or is memory of the application. *)
Record region := Reg { bytes : Z; dynamic : bool }.

Abbreviation regions := (gmap Z region).

(** [a] is the address of a word within one of the regions. *)
Definition room (B : regions) (a : Z) : Prop :=
  exists r g, B !! r = Some g /\ r <= a /\ a + 4 <= r + bytes g /\ (a - r) mod 4 = 0.

Class SystemHeap (S : Type) := {
  _mem_alloc_system : Z -> M S Z;
  _mem_alloc_system_zero : Z -> M S Z;
  _mem_free : Z -> M S Z;
  _mem_set_type : Z -> Z -> M S bool;
  load_word : Z -> M S Z;
  store_word : Z -> Z -> M S unit
}.

(** [keeps w w' B]: the words of the regions are the same. *)
Definition keeps (w w' : Z -> Z) (B : regions) : Prop := forall a, room B a -> w' a = w a.

Class HeapLaws (S : Type) `{SystemHeap S} := {
  word : S -> Z -> Z;
  owns : S -> regions -> Prop;
  owns_region s B r g : owns s B -> B !! r = Some g ->
    0 < r /\ r mod 4 = 0 /\ 0 <= bytes g /\ r + bytes g < 2 ^ 32;
  owns_apart s B r1 g1 r2 g2 : owns s B -> B !! r1 = Some g1 -> B !! r2 = Some g2 -> r1 <> r2 ->
    r1 + bytes g1 <= r2 \/ r2 + bytes g2 <= r1;
  load_law s B a : owns s B -> room B a -> load_word a s = Some (word s a, s);
  store_law s B a v : owns s B -> room B a ->
    exists s', store_word a v s = Some (tt, s') /\ owns s' B /\
      word s' a = v /\ (forall b, b <> a -> word s' b = word s b);
  alloc_law s B n : owns s B -> 0 <= n -> n + 27 < 2 ^ 32 ->
    exists r s', _mem_alloc_system n s = Some (r, s') /\ keeps (word s) (word s') B /\
      (r = 0 /\ owns s' B \/ B !! r = None /\ owns s' (<[r := Reg n true]> B));
  alloc_zero_law s B n : owns s B -> 0 <= n -> n + 27 < 2 ^ 32 ->
    exists r s', _mem_alloc_system_zero n s = Some (r, s') /\ keeps (word s) (word s') B /\
      (r = 0 /\ owns s' B \/
       B !! r = None /\ owns s' (<[r := Reg n true]> B) /\
       (forall a, r <= a < r + n -> (a - r) mod 4 = 0 -> word s' a = 0));
  free_law s B r g : owns s B -> B !! r = Some g -> dynamic g = true ->
    exists s', _mem_free r s = Some (0, s') /\ owns s' (delete r B) /\
      keeps (word s) (word s') (delete r B);
  set_type_law s B r g t : owns s B -> B !! r = Some g -> dynamic g = true ->
    exists s', _mem_set_type r t s = Some (true, s') /\ owns s' B /\ keeps (word s) (word s') B
}.

(** ** Facts about regions *)

Lemma room_in (B : regions) r g i : B !! r = Some g -> 0 <= i -> i + 4 <= bytes g -> i mod 4 = 0 -> room B (r + i).
Proof.
  intros Hr Hi Hn H4. exists r, g. split_and!; [done|lia|lia|]. by replace (r + i - r) with i by lia.
Qed.

Lemma room_insert (B : regions) r g a : B !! r = None -> room B a -> room (<[r := g]> B) a.
Proof.
  intros Hr (q & h & Hq & Ha). exists q, h. split; [|done]. rewrite lookup_insert_ne; [done|congruence].
Qed.

Lemma room_delete (B : regions) r a : room (delete r B) a -> room B a.
Proof.
  intros (q & h & Hq & Ha). exists q, h. split; [|done]. by apply lookup_delete_Some in Hq as [_ ?].
Qed.

Lemma heap_keeps_trans w1 w2 w3 B : keeps w1 w2 B -> keeps w2 w3 B -> keeps w1 w3 B.
Proof. intros H1 H2 a Ha. rewrite H2 by done. by apply H1. Qed.

(** [upd a v w]: the memory [w] after the word at [a] was written. *)
Definition upd (a v : Z) (w : Z -> Z) : Z -> Z := fun b => if b =? a then v else w b.

Lemma upd_eq a v w : upd a v w a = v.
Proof. unfold upd. by rewrite Z.eqb_refl. Qed.

Lemma upd_ne a v w b : b <> a -> upd a v w b = w b.
Proof. intros H. unfold upd. by rewrite (proj2 (Z.eqb_neq b a)). Qed.

(** Read words of an updated memory, the addresses being compared by [lia]. *)
Ltac look := repeat first [rewrite upd_eq | rewrite upd_ne by lia].

(** The words [l] stand from [a] on. *)
Fixpoint words_at (w : Z -> Z) (a : Z) (l : list Z) : Prop :=
  match l with
  | [] => True
  | v :: l => w a = v /\ words_at w (a + 4) l
  end.

Lemma words_at_move w w' l : forall a b,
  (forall i, 0 <= i < zlen l -> w' (b + 4 * i) = w (a + 4 * i)) ->
  words_at w a l -> words_at w' b l.
Proof.
  induction l as [|v l IH]; intros a b Hw; [done|]. intros [H1 H2]. split.
  - rewrite <-H1. specialize (Hw 0 ltac:(simpl; lia)). by rewrite !Z.add_0_r in Hw.
  - apply (IH (a + 4)); [|done]. intros i Hi. specialize (Hw (i + 1) ltac:(simpl; lia)).
    replace (b + 4 + 4 * i) with (b + 4 * (i + 1)) by lia. by replace (a + 4 + 4 * i) with (a + 4 * (i + 1)) by lia.
Qed.

Lemma words_at_ext w w' l a :
  (forall i, 0 <= i < zlen l -> w' (a + 4 * i) = w (a + 4 * i)) ->
  words_at w a l -> words_at w' a l.
Proof. apply words_at_move. Qed.

Lemma words_at_app w a l1 l2 : words_at w a (l1 ++ l2) <-> words_at w a l1 /\ words_at w (a + 4 * zlen l1) l2.
Proof.
  revert a. induction l1 as [|v l1 IH]; intros a; cbn [app words_at length].
  - rewrite Z.add_0_r. tauto.
  - rewrite IH. replace (a + 4 + 4 * zlen l1) with (a + 4 * Z.of_nat (S (length l1))) by lia. tauto.
Qed.

Section clients.
Context {St : Type} `{HeapLaws St}.

(** Words of one region differ from words of another. *)
Lemma room_apart s B r1 g1 r2 g2 a : owns s B -> B !! r1 = Some g1 -> B !! r2 = Some g2 -> r1 <> r2 ->
  r1 <= a < r1 + bytes g1 -> r2 <= a < r2 + bytes g2 -> False.
Proof. intros Ho H1 H2 Hne Ha1 Ha2. destruct (owns_apart s B r1 g1 r2 g2); [done..|lia|lia]. Qed.

(** [_mem_zero] and the assignment of a structure, on whole words. *)
Fixpoint zero_words (a : Z) (n : nat) : M St unit :=
  match n with
  | O => mret tt
  | S n => store_word a 0;; zero_words (a + 4) n
  end.
Definition _mem_zero (a number_of_bytes : Z) : M St unit :=
  zero_words a (Z.to_nat (number_of_bytes / 4)).

Fixpoint copy_words (n : nat) (dst src : Z) : M St unit :=
  match n with
  | O => mret tt
  | S n => v ← load_word src; store_word dst v;; copy_words n (dst + 4) (src + 4)
  end.

Fixpoint read_words (n : nat) (a : Z) : M St (list Z) :=
  match n with
  | O => mret []
  | S n => v ← load_word a; l ← read_words n (a + 4); mret (v :: l)
  end.

(** The memory of [s] is [w], and the regions [B] are the client's. *)
Record heap_is (s : St) (B : regions) (w : Z -> Z) : Prop := {
  hi_owns : owns s B;
  hi_word : forall b, word s b = w b
}.

Lemma heap_is_ext s B w w' : heap_is s B w -> (forall b, w' b = w b) -> heap_is s B w'.
Proof. intros [Ho Hw] He. split; [done|]. intros b. by rewrite He, Hw. Qed.

Lemma heap_load s B w a : heap_is s B w -> room B a -> load_word a s = Some (w a, s).
Proof. intros [Ho Hw] Ha. rewrite <-Hw. by eapply load_law. Qed.

Lemma heap_store s B w a v : heap_is s B w -> room B a ->
  exists s', store_word a v s = Some (tt, s') /\ heap_is s' B (upd a v w).
Proof.
  intros [Ho Hw] Ha. destruct (store_law s B a v Ho Ha) as (s' & R & Ho' & He & Hne).
  exists s'. split; [done|]. split; [done|]. intros b. unfold upd.
  destruct (Z.eqb_spec b a) as [->|Hb]; [done|]. by rewrite Hne.
Qed.

Lemma heap_is_word s B w : heap_is s B w -> heap_is s B (word s).
Proof. by intros [Ho _]. Qed.

Lemma heap_keeps s B w s' B' : heap_is s B w -> keeps (word s) (word s') B' -> keeps w (word s') B'.
Proof. intros [_ Hw] Hk a Ha. rewrite <-Hw. by apply Hk. Qed.

(** What a client has after an allocation of [n] bytes that returned [r]. *)
Definition allocated (B : regions) (n r : Z) : regions :=
  if r =? 0 then B else <[r := Reg n true]> B.

Lemma heap_alloc s B w n : heap_is s B w -> 0 <= n -> n + 27 < 2 ^ 32 ->
  exists r s', _mem_alloc_system n s = Some (r, s') /\ keeps w (word s') B /\
    heap_is s' (allocated B n r) (word s') /\ (r <> 0 -> B !! r = None).
Proof.
  intros Hh Hn Hn'. destruct (alloc_law s B n (hi_owns _ _ _ Hh) Hn Hn') as (r & s' & R & Hk & Hres).
  exists r, s'. split; [done|]. split; [by eapply heap_keeps|]. unfold allocated.
  destruct Hres as [[-> Ho]|[Hr Ho]]; [done|].
  destruct (owns_region _ _ r (Reg n true) Ho) as [Hpos _]; [apply lookup_insert_eq|].
  rewrite (proj2 (Z.eqb_neq r 0)) by lia. done.
Qed.

Lemma heap_alloc_zero s B w n : heap_is s B w -> 0 <= n -> n + 27 < 2 ^ 32 ->
  exists r s', _mem_alloc_system_zero n s = Some (r, s') /\ keeps w (word s') B /\
    heap_is s' (allocated B n r) (word s') /\ (r <> 0 -> B !! r = None) /\
    (r <> 0 -> forall i, 0 <= i < n -> i mod 4 = 0 -> word s' (r + i) = 0).
Proof.
  intros Hh Hn Hn'. destruct (alloc_zero_law s B n (hi_owns _ _ _ Hh) Hn Hn') as (r & s' & R & Hk & Hres).
  exists r, s'. split; [done|]. split; [by eapply heap_keeps|]. unfold allocated.
  destruct Hres as [[-> Ho]|(Hr & Ho & Hz)]; [done|].
  destruct (owns_region _ _ r (Reg n true) Ho) as [Hpos _]; [apply lookup_insert_eq|].
  rewrite (proj2 (Z.eqb_neq r 0)) by lia. split; [done|]. split; [done|]. intros _ i Hi H4.
  apply Hz; [lia|]. by replace (r + i - r) with i by lia.
Qed.

Lemma heap_free s B w r g : heap_is s B w -> B !! r = Some g -> dynamic g = true ->
  exists s', _mem_free r s = Some (0, s') /\ keeps w (word s') (delete r B) /\
    heap_is s' (delete r B) (word s').
Proof.
  intros Hh Hg Ed. destruct (free_law s B r g (hi_owns _ _ _ Hh) Hg Ed) as (s' & R & Ho & Hk).
  exists s'. split_and!; [done|by eapply heap_keeps|done].
Qed.

Lemma heap_set_type s B w r g t : heap_is s B w -> B !! r = Some g -> dynamic g = true ->
  exists s', _mem_set_type r t s = Some (true, s') /\ keeps w (word s') B /\ heap_is s' B (word s').
Proof.
  intros Hh Hg Ed. destruct (set_type_law s B r g t (hi_owns _ _ _ Hh) Hg Ed) as (s' & R & Ho & Hk).
  exists s'. split_and!; [done|by eapply heap_keeps|done].
Qed.

(** [n] words from [a] on are cleared. *)
Definition zeroed (a : Z) (n : nat) (w : Z -> Z) : Z -> Z := fun b =>
  if (a <=? b) && (b <? a + 4 * Z.of_nat n) && ((b - a) mod 4 =? 0) then 0 else w b.

Lemma zeroed_in a n w i : 0 <= i < 4 * Z.of_nat n -> i mod 4 = 0 -> zeroed a n w (a + i) = 0.
Proof.
  intros Hi H4. unfold zeroed. rewrite (proj2 (Z.leb_le _ _)), (proj2 (Z.ltb_lt _ _)) by lia.
  replace (a + i - a) with i by lia. by rewrite H4.
Qed.

Lemma zeroed_out a n w b : b < a \/ a + 4 * Z.of_nat n <= b -> zeroed a n w b = w b.
Proof.
  intros Hb. unfold zeroed. destruct (Z.leb_spec a b), (Z.ltb_spec b (a + 4 * Z.of_nat n)); done || lia.
Qed.

Lemma zero_words_heap n : forall s B w a, heap_is s B w ->
  (forall i, 0 <= i < Z.of_nat n -> room B (a + 4 * i)) ->
  exists s', zero_words a n s = Some (tt, s') /\ heap_is s' B (zeroed a n w).
Proof.
  induction n as [|n IH]; intros s B w a Hh Hr.
  - exists s. split; [done|]. eapply heap_is_ext; [done|]. intros b. apply zeroed_out. lia.
  - cbn [zero_words]. destruct (heap_store s B w a 0 Hh) as (s1 & R1 & H1).
    { replace a with (a + 4 * 0) by lia. apply Hr. lia. }
    rewrite (bind_run _ _ _ _ _ R1).
    destruct (IH s1 B (upd a 0 w) (a + 4) H1) as (s2 & R2 & H2).
    { intros i Hi. replace (a + 4 + 4 * i) with (a + 4 * (i + 1)) by lia. apply Hr. lia. }
    exists s2. split; [done|]. eapply heap_is_ext; [done|]. intros b. unfold zeroed, upd.
    replace (b - (a + 4)) with (b - a + -1 * 4) by lia. rewrite Z_mod_plus_full.
    destruct (Z.leb_spec a b), (Z.leb_spec (a + 4) b), (Z.ltb_spec b (a + 4 * Z.of_nat (S n))),
      (Z.ltb_spec b (a + 4 + 4 * Z.of_nat n)), (Z.eqb_spec b a), (Z.eqb_spec ((b - a) mod 4) 0);
      cbn [andb]; try done; try lia.
    + subst b. by rewrite Z.sub_diag in *.
    + exfalso. zdm.
Qed.

(** [n] words from [src] on stand at [dst]. *)
Lemma copy_words_heap n : forall s B w dst src, heap_is s B w ->
  (forall i, 0 <= i < Z.of_nat n -> room B (dst + 4 * i) /\ room B (src + 4 * i)) ->
  dst + 4 * Z.of_nat n <= src \/ src + 4 * Z.of_nat n <= dst ->
  exists s' w', copy_words n dst src s = Some (tt, s') /\ heap_is s' B w' /\
    (forall i, 0 <= i < Z.of_nat n -> w' (dst + 4 * i) = w (src + 4 * i)) /\
    (forall b, b < dst \/ dst + 4 * Z.of_nat n <= b -> w' b = w b).
Proof.
  induction n as [|n IH]; intros s B w dst src Hh Hr Hd.
  - exists s, w. split_and!; [done|done|lia|done].
  - cbn [copy_words]. destruct (Hr 0 ltac:(lia)) as [Hr1 Hr2]. rewrite !Z.add_0_r in *.
    rewrite (bind_run _ _ _ _ _ (heap_load s B w src Hh Hr2)).
    destruct (heap_store s B w dst (w src) Hh Hr1) as (s1 & R1 & H1).
    rewrite (bind_run _ _ _ _ _ R1).
    destruct (IH s1 B (upd dst (w src) w) (dst + 4) (src + 4) H1) as (s2 & w2 & R2 & H2 & Hin & Hout).
    { intros i Hi. replace (dst + 4 + 4 * i) with (dst + 4 * (i + 1)) by lia.
      replace (src + 4 + 4 * i) with (src + 4 * (i + 1)) by lia. apply Hr. lia. }
    { lia. }
    exists s2, w2. split_and!; [done|done| |].
    + intros i Hi. destruct (Z.eq_dec i 0) as [->|Hi0].
      * rewrite !Z.mul_0_r, !Z.add_0_r, Hout by lia. apply upd_eq.
      * replace (dst + 4 * i) with (dst + 4 + 4 * (i - 1)) by lia. rewrite Hin by lia.
        rewrite upd_ne by lia. f_equal. lia.
    + intros b Hb. rewrite Hout by lia. apply upd_ne. lia.
Qed.

Lemma read_words_heap n : forall s B w a, heap_is s B w ->
  (forall i, 0 <= i < Z.of_nat n -> room B (a + 4 * i)) ->
  exists l, read_words n a s = Some (l, s) /\ length l = n /\ words_at w a l.
Proof.
  induction n as [|n IH]; intros s B w a Hh Hr; [by exists []|].
  cbn [read_words]. pose proof (Hr 0 ltac:(lia)) as H0'. rewrite Z.add_0_r in H0'.
  rewrite (bind_run _ _ _ _ _ (heap_load s B w a Hh H0')).
  destruct (IH s B w (a + 4) Hh) as (l & R & Hlen & Hl).
  { intros i Hi. replace (a + 4 + 4 * i) with (a + 4 * (i + 1)) by lia. apply Hr. lia. }
  exists (w a :: l). rewrite (bind_run _ _ _ _ _ R). split_and!; [done|simpl; lia|done].
Qed.

Lemma words_at_length w a l l' : words_at w a l -> words_at w a l' -> length l = length l' -> l = l'.
Proof.
  revert a l'. induction l as [|v l IH]; intros a [|v' l'] H1 H2 Hl; try done.
  destruct H1 as [<- H1], H2 as [<- H2]. f_equal. eapply IH; [done..|]. simpl in Hl. lia.
Qed.

(** The memory as a part of a client's state. *)
Section zoomed.
Context {K : Type} {get : K -> St} {set : St -> K -> K} `{!ZoomLaw get set}.

Lemma wp_get bad {A} L B w a (f : Z -> M K A) P :
  heap_is (get L) B w -> room B a -> wp bad (f (w a)) L P ->
  wp bad (x ← zoom get set (load_word a); f x) L P.
Proof. intros Hh Ha Hp. eapply wp_run; [|done]. apply zoom_read. by eapply heap_load. Qed.

Lemma wp_put bad {A} L B w a v (f : unit -> M K A) P :
  heap_is (get L) B w -> room B a ->
  (forall st, heap_is st B (upd a v w) -> wp bad (f tt) (set st L) P) ->
  wp bad (x ← zoom get set (store_word a v); f x) L P.
Proof.
  intros Hh Ha Hp. destruct (heap_store _ _ _ a v Hh Ha) as (st & R & Hst).
  eapply wp_run; [by apply zoom_run|by apply Hp].
Qed.

Lemma wp_put_end bad L B w a v (P : unit -> K -> Prop) :
  heap_is (get L) B w -> room B a ->
  (forall st, heap_is st B (upd a v w) -> P tt (set st L)) ->
  wp bad (zoom get set (store_word a v)) L P.
Proof.
  intros Hh Ha Hp. destruct (heap_store _ _ _ a v Hh Ha) as (st & R & Hst).
  eapply wp_end; [by apply zoom_run|by apply Hp].
Qed.
End zoomed.

End clients.

(** ** The lightweight memory manager as the system's memory

    With [MQX_USE_LWMEM_ALLOCATOR] the names above are those of [Lwmem]; the
    calls run without interference from other tasks. *)

Section lwmem.
Import Lwmem.

(** Walks of a pool visit each of its blocks at most once. *)
Definition walk_fuel (s : state) : nat := S (size (mem s)).

#[export] Instance lwmem_heap : SystemHeap state := {
  _mem_alloc_system n := fun s => _lwmem_alloc_system (mret tt) (walk_fuel s) n s;
  _mem_alloc_system_zero n := fun s => _lwmem_alloc_system_zero (mret tt) (walk_fuel s) n s;
  _mem_free p := fun s => _lwmem_free (mret tt) (walk_fuel s) p s;
  _mem_set_type := _lwmem_set_type;
  load_word := load;
  store_word := store
}.

(** A region is the payload of a block of the system, or outside the pool. *)
Definition region_ok (s : state) (x : pool) (l : blocks) (r : Z) (g : region) : Prop :=
  0 < r /\ r mod 4 = 0 /\ 0 <= bytes g /\ r + bytes g < 2 ^ 32 /\
  mapped (mem s) r (r + bytes g) /\
  if dynamic g
  then exists sz u, (r - 12, sz, Used u) ∈ layout (POOL_ALLOC_START_PTR x) l /\
         12 + bytes g <= sz /\ w16 u = SYSTEM_TASK_NUMBER
  else r + bytes g <= POOL_ALLOC_START_PTR x \/ POOL_ALLOC_END_PTR x <= r.

Record pool_owns (s : state) (B : regions) (x : pool) (l : blocks) : Prop := {
  po_wf : pool_wf s (KERNEL_LWMEM_POOL s) x l;
  po_task : TASK_NUMBER_FROM_TASKID (SYSTEM_TASK_ID s) = SYSTEM_TASK_NUMBER;
  po_regions : map_Forall (region_ok s x l) B;
  po_apart : forall r1 g1 r2 g2, B !! r1 = Some g1 -> B !! r2 = Some g2 -> r1 <> r2 ->
    r1 + bytes g1 <= r2 \/ r2 + bytes g2 <= r1
}.

(** *** Layouts *)

Lemma layout_apart m p a l e n a1 s1 k1 a2 s2 k2 : heap m p a l e n ->
  (a1, s1, k1) ∈ layout a l -> (a2, s2, k2) ∈ layout a l ->
  a1 = a2 /\ s1 = s2 /\ k1 = k2 \/ a1 + s1 <= a2 \/ a2 + s2 <= a1.
Proof.
  revert a. induction l as [|[z k] l IH]; intros a; simpl; [by rewrite elem_of_nil|].
  intros (Hz & _ & _ & _ & _ & Hl) H1 H2.
  apply elem_of_cons in H1 as [[= -> -> ->]|H1], H2 as [[= -> -> ->]|H2].
  - by left.
  - pose proof (layout_range _ _ _ _ _ _ _ _ _ Hl H2). lia.
  - pose proof (layout_range _ _ _ _ _ _ _ _ _ Hl H1). lia.
  - by eapply IH.
Qed.

Lemma layout_used m p a l e n ad sz u : heap m p a l e n -> (ad, sz, Used u) ∈ layout a l ->
  16 <= sz /\ m !! (ad + 8) = Some u.
Proof.
  revert a. induction l as [|[z k] l IH]; intros a; simpl; [by rewrite elem_of_nil|].
  intros (Hz & _ & _ & _ & H8 & Hl) Hin.
  apply elem_of_cons in Hin as [[= -> -> <-]|Hin]; [done|by eapply IH].
Qed.

(** A block is either free or in use. *)
Lemma layout_kind m p a l e n ad s1 k1 s2 k2 : heap m p a l e n ->
  (ad, s1, k1) ∈ layout a l -> (ad, s2, k2) ∈ layout a l -> k1 = k2.
Proof.
  revert a. induction l as [|[z k] l IH]; intros a; simpl; [by rewrite elem_of_nil|].
  intros (Hz & _ & _ & _ & _ & Hl) H1 H2.
  apply elem_of_cons in H1 as [[= -> -> ->]|H1], H2 as [[= -> ->]|H2].
  - done.
  - pose proof (layout_range _ _ _ _ _ _ _ _ _ Hl H2). lia.
  - pose proof (layout_range _ _ _ _ _ _ _ _ _ Hl H1). lia.
  - by eapply IH.
Qed.

Lemma layout_split a l ad sz k : (ad, sz, k) ∈ layout a l ->
  exists l1 l2, l = l1 ++ (sz, k) :: l2 /\ ad = endof a l1.
Proof.
  revert a. induction l as [|[z k'] l IH]; intros a; simpl; [by rewrite elem_of_nil|].
  intros [[= -> -> ->]|Hin]%elem_of_cons; [by exists [], l|].
  destruct (IH _ Hin) as (l1 & l2 & -> & ->). exists ((z, k') :: l1), l2.
  split; [done|]. apply endof_cons.
Qed.

(** Writing into a block in use leaves the structure of the pool. *)
Lemma heap_payload m p a l e n ad sz u y v : heap m p a l e n ->
  (ad, sz, Used u) ∈ layout a l -> ad + 12 <= y < ad + sz -> heap (<[y := v]> m) p a l e n.
Proof.
  revert a. induction l as [|[z k] l IH]; intros a; simpl; [by rewrite elem_of_nil|].
  intros (H1 & H2 & H3 & H4 & H5 & Hl) Hin Hy.
  apply elem_of_cons in Hin as [[= -> -> <-]|Hin].
  - rewrite !lookup_insert_ne by lia. split_and!; [done..|].
    eapply heap_frame; [done|]. intros w Hw. by rewrite lookup_insert_ne by lia.
  - pose proof (layout_range _ _ _ _ _ _ _ _ _ Hl Hin).
    rewrite !lookup_insert_ne by lia. split_and!; [done..|]. by apply IH.
Qed.

(** The first word of a block in use may change its type, not its owner. *)
Lemma heap_retype m p a l1 sz u u' l2 e n : heap m p a (l1 ++ (sz, Used u) :: l2) e n ->
  heap (<[endof a l1 + 8 := u']> m) p a (l1 ++ (sz, Used u') :: l2) e n.
Proof.
  intros [H1 H2]%heap_app. apply heap_app. simpl in *. destruct H2 as (Hz & Hz4 & B0 & B4 & B8 & H2).
  split; [|rewrite lookup_insert_eq, !lookup_insert_ne by lia; split_and!; try done].
  all: (eapply heap_frame; [done|]); intros w Hw; by rewrite lookup_insert_ne by lia.
Qed.

Lemma heap_blocks m p a l e n : heap m p a l e n -> (length l <= size m)%nat.
Proof.
  intros Hl. assert (exists L : list Z, NoDup L /\ length L = length l /\
    (forall y, y ∈ L -> a <= y /\ y ∈ dom m)) as (L & Hnd & Hlen & Hdom).
  { revert a Hl. induction l as [|[z k] l IH]; intros a; simpl.
    - intros _. exists []. split_and!; [constructor|done|set_solver].
    - intros (Hz & _ & H3 & _ & _ & Hl). destruct (IH _ Hl) as (L & Hnd & Hlen & Hdom).
      exists (a :: L). split_and!.
      + constructor; [|done]. intros Hin. destruct (Hdom _ Hin). lia.
      + simpl. lia.
      + intros y [->|Hy]%elem_of_cons; [split; [lia|by eapply elem_of_dom_2]|].
        destruct (Hdom _ Hy). split; [lia|done]. }
  rewrite <-Hlen, <-(size_dom m), <-(size_list_to_set (C := gset Z) L) by done.
  apply subseteq_size. intros y Hy%elem_of_list_to_set. by apply Hdom.
Qed.

(** *** Preservation of the regions *)

Lemma region_word s B x l a : pool_owns s B x l -> room B a -> is_Some (mem s !! a).
Proof.
  intros [_ _ Hr _] (r & g & Hg & H1 & H2 & H4). destruct (Hr r g Hg) as (_ & R4 & _ & _ & Hm & _).
  apply Hm; [lia|]. zdm.
Qed.

Lemma region_frame s s' p x l r g : frame s s' p x l -> region_ok s x l r g ->
  agree (mem s) (mem s') r (r + bytes g).
Proof.
  intros F (_ & _ & _ & _ & _ & Hd) y Hy. destruct (dynamic g).
  - destruct Hd as (sz & u & Hin & Hsz & _). apply (fr_used _ _ _ _ _ F _ _ _ Hin). lia.
  - apply (fr_out _ _ _ _ _ F). lia.
Qed.

(** The blocks in use of the regions are still there. *)
Definition still_used (B : regions) (a : Z) (l l' : blocks) : Prop :=
  forall r g sz u, B !! r = Some g -> (r - 12, sz, Used u) ∈ layout a l -> (r - 12, sz, Used u) ∈ layout a l'.

Lemma owns_frame s s' B x x' l l' : pool_owns s B x l ->
  (forall r g, B !! r = Some g -> agree (mem s) (mem s') r (r + bytes g)) ->
  pool_wf s' (KERNEL_LWMEM_POOL s) x' l' -> same_pool x x' ->
  KERNEL_LWMEM_POOL s' = KERNEL_LWMEM_POOL s -> SYSTEM_TASK_ID s' = SYSTEM_TASK_ID s ->
  still_used B (POOL_ALLOC_START_PTR x) l l' ->
  pool_owns s' B x' l'.
Proof.
  intros [Hwf Ht Hr Ha] Hag Hwf' [_ Ss Se] Hk Hs Hu. split; [by rewrite Hk|by rewrite Hs| |done].
  intros r g Hg. destruct (Hr r g Hg) as (R1 & R4 & R0 & R32 & Hm & Hd).
  split_and!; [done..| |].
  - intros y Hy Hy4. rewrite (Hag r g Hg) by done. by apply Hm.
  - rewrite Ss, Se. destruct (dynamic g); [|done]. destruct Hd as (sz & u & Hin & Hsz). eauto 8.
Qed.

Lemma owns_delete s B x l r : pool_owns s B x l -> pool_owns s (delete r B) x l.
Proof.
  intros [Hwf Ht Hr Ha]. split; [done..| |].
  - intros q g [_ Hq]%lookup_delete_Some. by apply Hr.
  - intros r1 g1 r2 g2 [_ H1]%lookup_delete_Some [_ H2]%lookup_delete_Some. by eapply Ha.
Qed.

Definition mem_word (s : state) (a : Z) : Z := default 0 (mem s !! a).

Lemma keeps_agree s s' B x l : pool_owns s B x l ->
  (forall r g, B !! r = Some g -> agree (mem s) (mem s') r (r + bytes g)) ->
  keeps (mem_word s) (mem_word s') B.
Proof.
  intros Hown Hag a (r & g & Hg & Ha). unfold mem_word. rewrite (Hag r g Hg) by lia. done.
Qed.

(** *** Allocation *)

Lemma first_fit_layout req u m p e n l : forall a b z l',
  heap m p a l e n -> first_fit req u a l = Some (b, z, l') ->
  req <= z /\ (b, z, Used u) ∈ layout a l' /\
  (exists sz, (b, sz, Free) ∈ layout a l) /\
  (forall ad q v, (ad, q, Used v) ∈ layout a l -> (ad, q, Used v) ∈ layout a l').
Proof.
  induction l as [|[sz k] l IH]; intros a b z l'; simpl; [done|].
  intros (Hz & _ & _ & _ & _ & Hl).
  assert (match first_fit req u (a + sz) l with
          | Some (r, z, l'') => Some (r, z, (sz, k) :: l'') | None => None end = Some (b, z, l') ->
    req <= z /\ (b, z, Used u) ∈ layout a l' /\
    (exists q, (b, q, Free) ∈ (a, sz, k) :: layout (a + sz) l) /\
    (forall ad q v, (ad, q, Used v) ∈ (a, sz, k) :: layout (a + sz) l -> (ad, q, Used v) ∈ layout a l')) as Hrec.
  { destruct (first_fit req u (a + sz) l) as [[[r' z'] l'']|] eqn:E; [|done]. intros [= -> -> <-].
    destruct (IH _ _ _ _ Hl E) as (H1 & H2 & (q & H3) & H4). cbn [layout]. split_and!.
    - done.
    - by right.
    - exists q. by right.
    - intros ad q' v [He|Hin]%elem_of_cons; [rewrite He; by left|right; by apply H4]. }
  destruct k; [|by apply Hrec]. destruct (Z.leb_spec req sz) as [Hle|]; [|by apply Hrec].
  intros [= <- <- <-]. clear Hrec IH. unfold carve, carved_size.
  destruct (Z.leb_spec 16 (sz - req)); cbn [app layout]; split_and!; try lia; try (by left).
  - exists sz. by left.
  - intros ad q v [?|Hin]%elem_of_cons; [done|]. right. right. by replace (a + req + (sz - req)) with (a + sz) by lia.
  - exists sz. by left.
  - intros ad q v [?|Hin]%elem_of_cons; [done|]. by right.
Qed.

Lemma owns_insert s B x l b z n u : pool_owns s B x l ->
  (b, z, Used u) ∈ layout (POOL_ALLOC_START_PTR x) l -> w16 u = SYSTEM_TASK_NUMBER ->
  0 <= n -> 12 + n <= z ->
  (forall r g, B !! r = Some g -> dynamic g = true -> r - 12 <> b) -> b mod 4 = 0 ->
  pool_owns s (<[b + 12 := Reg n true]> B) x l.
Proof.
  intros [Hwf Ht Hr Ha] Hin Hu Hn Hz Hnew H4.
  pose proof (wf_heap _ _ _ _ Hwf) as Hh. pose proof (wf_start _ _ _ _ Hwf). pose proof (wf_end _ _ _ _ Hwf).
  pose proof (layout_range _ _ _ _ _ _ _ _ _ Hh Hin) as Hb.
  assert (forall r g, B !! r = Some g -> r + bytes g <= b + 12 \/ b + 12 + n <= r) as Hap.
  { intros r g Hg. destruct (Hr r g Hg) as (_ & _ & _ & _ & _ & Hd). destruct (dynamic g) eqn:Ed.
    - destruct Hd as (sz & v & Hin' & Hsz & _). pose proof (Hnew _ _ Hg Ed).
      destruct (layout_apart _ _ _ _ _ _ _ _ _ _ _ _ Hh Hin Hin') as [?|?]; [intuition lia|lia].
    - lia. }
  split; [done..| |].
  - intros r g [[<- <-]|[_ Hg]]%lookup_insert_Some; [|by apply Hr]. unfold region_ok. cbn [bytes dynamic].
    split_and!; [lia|zdm|lia|lia| |].
    + intros y Hy Hy4. apply (wf_mapped _ _ _ _ Hwf); [lia|done].
    + exists z, u. split_and!; [|lia|done]. by replace (b + 12 - 12) with b by lia.
  - intros r1 g1 r2 g2 [[<- <-]|[_ H1]]%lookup_insert_Some [[<- <-]|[_ H2]]%lookup_insert_Some Hne.
    + done.
    + cbn [bytes]. pose proof (Hap _ _ H2). lia.
    + cbn [bytes]. pose proof (Hap _ _ H1). lia.
    + by eapply Ha.
Qed.

Lemma layout_aligned m p a l e n ad sz k : heap m p a l e n -> a mod 4 = 0 ->
  (ad, sz, k) ∈ layout a l -> ad mod 4 = 0.
Proof.
  revert a. induction l as [|[z k'] l IH]; intros a; simpl; [by rewrite elem_of_nil|].
  intros (_ & Hz4 & _ & _ & _ & Hl) Ha [[= -> _ _]|Hin]%elem_of_cons; [done|].
  eapply IH; [done|zdm|done].
Qed.

(** Both allocations, [zero] telling which. *)
Lemma lwmem_alloc_heap s B x l n zero : pool_owns s B x l -> 0 <= n -> n + 27 < 2 ^ 32 ->
  exists r s', _lwmem_alloc_internal (mret tt) (walk_fuel s) n (SYSTEM_TASK_ID s) (KERNEL_LWMEM_POOL s) zero s =
      Some (r, s') /\ keeps (mem_word s) (mem_word s') B /\
    exists x' l', (r = 0 /\ pool_owns s' B x' l' \/
      B !! r = None /\ pool_owns s' (<[r := Reg n true]> B) x' l' /\
      (zero = true -> forall a, r <= a < r + n -> (a - r) mod 4 = 0 -> mem_word s' a = 0)).
Proof.
  intros Hown Hn Hn32. pose proof Hown as [Hwf Ht Hr Ha]. pose proof (wf_heap _ _ _ _ Hwf) as Hh.
  destruct (alloc_internal_run s (KERNEL_LWMEM_POOL s) x l n ((n + 27) / 16 * 16) (SYSTEM_TASK_ID s) zero (walk_fuel s))
    as (r & s' & R & x' & Hsp & _ & F & Hres);
    [done|by apply adjust_size_val|zdm|zdm|pose proof (heap_blocks _ _ _ _ _ _ Hh); unfold walk_fuel; lia|].
  exists r, s'. split; [done|]. pose proof (fun r g Hg => region_frame _ _ _ _ _ r g F (Hr r g Hg)) as Hag.
  split; [by eapply keeps_agree|]. rewrite Ht in Hres.
  destruct (first_fit _ _ _ l) as [[[b z] l']|] eqn:Hff.
  - destruct Hres as (-> & Hwf' & _ & _ & Hz). exists x', l'. right.
    destruct (first_fit_layout _ _ _ _ _ _ _ _ _ _ _ Hh Hff) as (Hreq & Hnew & (sz & Hfree) & Hkeep).
    assert (12 + n <= z /\ 16 <= z) as [Hsize Hz16] by (split; zdm). unfold sizeof_BLOCK in *.
    pose proof (layout_aligned _ _ _ _ _ _ _ _ _ Hh (wf_start_aligned _ _ _ _ Hwf) Hfree) as Hb4.
    assert (forall r g, B !! r = Some g -> dynamic g = true -> r - 12 <> b) as Hne.
    { intros r g Hg Ed <-. destruct (Hr _ _ Hg) as (_ & _ & _ & _ & _ & Hd). rewrite Ed in Hd.
      destruct Hd as (q & v & Hin & _).
      by apply (layout_kind _ _ _ _ _ _ _ _ _ _ _ Hh Hfree) in Hin. }
    rewrite <-(sp_start _ _ Hsp) in Hnew.
    pose proof (layout_range _ _ _ _ _ _ _ _ _ (wf_heap _ _ _ _ Hwf') Hnew) as Hrg.
    rewrite (sp_start _ _ Hsp), (sp_end _ _ Hsp) in Hrg.
    assert (pool_owns s' B x' l') as Hown'.
    { eapply owns_frame; [done..|apply F|apply F|]. intros q g qs v _ Hin. by apply Hkeep. }
    split_and!.
    + destruct (B !! (b + 12)) as [g|] eqn:Hg; [|done]. exfalso.
      destruct (Hr _ _ Hg) as (_ & _ & ? & _ & _ & Hd). destruct (dynamic g) eqn:Ed; [|lia].
      apply (Hne _ _ Hg Ed). lia.
    + by eapply owns_insert.
    + intros Hzero y Hy Hy4. unfold mem_word. rewrite (Hz Hzero); [done|lia|clear -Hy4 Hb4; zdm].
  - destruct Hres as (-> & Hwf' & Hm & _). exists x', l. left. split; [done|].
    eapply owns_frame; [done..|apply F|apply F|]. by intros q g qs v _ Hin.
Qed.

(** *** Writing, typing and releasing *)

Lemma insert_mapped (m : gmap Z Z) a v lo hi : mapped m lo hi -> mapped (<[a := v]> m) lo hi.
Proof. intros Hm y Hy Hy4. apply insert_keeps_some. by apply Hm. Qed.

Lemma owns_store s B x l a v : pool_owns s B x l -> room B a ->
  pool_owns (set_mem (<[a := v]>) s) B x l.
Proof.
  intros [Hwf Ht Hr Ha] (r & g & Hg & Hra & Hrg & _). split; [|done| |done].
  - destruct (Hr _ _ Hg) as (_ & _ & _ & _ & _ & Hd). destruct Hwf as [W1 W2 W3 W4 W5 W6 W7 W8].
    split; try done; [by apply insert_mapped|]. cbn [mem set_mem]. destruct (dynamic g).
    + destruct Hd as (sz & u & Hin & Hsz & _). eapply heap_payload; [done..|lia].
    + eapply heap_frame; [done|]. intros w Hw. by rewrite lookup_insert_ne by lia.
  - intros q h Hq. destruct (Hr _ _ Hq) as (R1 & R4 & R0 & R32 & Hm & Hd).
    split_and!; try done. by apply insert_mapped.
Qed.

Lemma used_free a l1 sz k l2 ad q v : (ad, q, Used v) ∈ layout a (l1 ++ (sz, k) :: l2) ->
  ad <> endof a l1 -> (ad, q, Used v) ∈ layout a (l1 ++ (sz, Free) :: l2).
Proof.
  rewrite !layout_app. cbn [layout]. intros [Hin|[[= -> _ _]|Hin]%elem_of_cons]%elem_of_app Hne; [|done|];
    apply elem_of_app; [by left|right; by right].
Qed.

Lemma used_absorb ad q v sz l2 : forall l1 a, (ad, q, Used v) ∈ layout a (l1 ++ (sz, Free) :: l2) ->
  (ad, q, Used v) ∈ layout a (absorb_prev l1 sz l2).
Proof.
  induction l1 as [|[z k] l1 IH]; intros a Hin; [done|].
  destruct l1 as [|y l1].
  - destruct k; [|done]. cbn [app layout absorb_prev] in *.
    apply elem_of_cons in Hin as [?|[?|Hin]%elem_of_cons]; [done..|]. right.
    by rewrite Z.add_assoc.
  - assert (absorb_prev ((z, k) :: y :: l1) sz l2 = (z, k) :: absorb_prev (y :: l1) sz l2) as -> by (by destruct k).
    cbn [app layout] in *. apply elem_of_cons in Hin as [->|Hin]; [by left|]. right. by apply IH.
Qed.

Lemma used_release a l1 sz l2 ad q v : (ad, q, Used v) ∈ layout a (l1 ++ (sz, Free) :: l2) ->
  (ad, q, Used v) ∈ layout a (release l1 sz l2).
Proof.
  intros Hin. unfold release. destruct l2 as [|[fz [|u]] l2]; cbn [absorb_next]; [by apply used_absorb| |by apply used_absorb].
  apply used_absorb. revert Hin. rewrite !layout_app. cbn [layout].
  intros [Hin|[?|[?|Hin]%elem_of_cons]%elem_of_cons]%elem_of_app; [|done..|]; apply elem_of_app; [by left|].
  right. right. by rewrite Z.add_assoc.
Qed.

Lemma lwmem_free_heap s B x l r g : pool_owns s B x l -> B !! r = Some g -> dynamic g = true ->
  exists s' x' l', _lwmem_free (mret tt) (walk_fuel s) r s = Some (0, s') /\
    pool_owns s' (delete r B) x' l' /\ keeps (mem_word s) (mem_word s') (delete r B).
Proof.
  intros Hown Hg Ed. pose proof Hown as [Hwf Ht Hr Ha]. pose proof (wf_heap _ _ _ _ Hwf) as Hh.
  destruct (Hr _ _ Hg) as (_ & _ & _ & _ & _ & Hd). rewrite Ed in Hd. destruct Hd as (sz & u & Hin & Hsz & Hu).
  destruct (layout_split _ _ _ _ _ Hin) as (l1 & l2 & -> & Hend).
  destruct (lwmem_free_run s (KERNEL_LWMEM_POOL s) x l1 sz u l2 (walk_fuel s))
    as (s' & R & x' & Hsp & _ & _ & Hwf' & F).
  { done. }
  { pose proof (heap_blocks _ _ _ _ _ _ Hh) as Hb. rewrite length_app in Hb. unfold walk_fuel. lia. }
  { by right. }
  rewrite <-Hend in R. unfold sizeof_BLOCK in R. replace (r - 12 + 12) with r in R by lia.
  assert (forall q h, delete r B !! q = Some h -> region_ok s x (l1 ++ (sz, Free) :: l2) q h) as Hr'.
  { intros q h [Hne Hq]%lookup_delete_Some. destruct (Hr _ _ Hq) as (R1 & R4 & R0 & R32 & Hm & Hd).
    split_and!; try done. destruct (dynamic h); [|done]. destruct Hd as (z & v & Hin' & Hz).
    exists z, v. split; [|done]. eapply used_free; [done|lia]. }
  assert (forall q h, delete r B !! q = Some h -> agree (mem s) (mem s') q (q + bytes h)) as Hag
    by (intros q h Hq; by eapply region_frame, Hr').
  exists s', x', (release l1 sz l2). split_and!; [done| |by eapply keeps_agree, Hag; apply owns_delete].
  eapply owns_frame; [by apply owns_delete|done..|apply F|apply F|].
  intros q h z v [Hne Hq]%lookup_delete_Some Hin'. apply used_release. eapply used_free; [done|lia].
Qed.

Lemma lwmem_set_type_heap s B x l r g t : pool_owns s B x l -> B !! r = Some g -> dynamic g = true ->
  exists s' l', _lwmem_set_type r t s = Some (true, s') /\
    pool_owns s' B x l' /\ keeps (mem_word s) (mem_word s') B.
Proof.
  intros Hown Hg Ed. pose proof Hown as [Hwf Ht Hr Ha]. pose proof (wf_heap _ _ _ _ Hwf) as Hh.
  destruct (Hr _ _ Hg) as (R1 & _ & Rb & R32 & _ & Hd). rewrite Ed in Hd. destruct Hd as (sz & u & Hin & Hsz & Hu).
  destruct (layout_used _ _ _ _ _ _ _ _ _ Hh Hin) as [_ Hu8].
  pose proof (layout_range _ _ _ _ _ _ _ _ _ Hh Hin) as Hrange. pose proof (wf_start _ _ _ _ Hwf) as Hst.
  destruct (layout_split _ _ _ _ _ Hin) as (l1 & l2 & -> & Hend).
  set (u' := w16 t * 65536 + w16 u).
  assert (w16 u' = SYSTEM_TASK_NUMBER) as Hu'.
  { unfold u'. rewrite Hu. unfold SYSTEM_TASK_NUMBER, wrap. change (2 ^ 16) with 65536. zdm. }
  assert (_lwmem_set_type r t s = Some (true, set_mem (<[r - 12 + 8 := u']>) s)) as R.
  { unfold _lwmem_set_type. rewrite (proj2 (Z.eqb_neq r NULL)) by (unfold NULL; lia). cbn [negb].
    unfold set_MEM_TYPE, GET_LWMEMBLOCK_PTR, sizeof_BLOCK. rewrite wrap_small by lia. rewrite bind_assoc.
    erewrite bind_run by (by apply load_run). by erewrite bind_run by (apply store_run; eauto). }
  assert (forall q h, B !! q = Some h -> agree (mem s) (mem (set_mem (<[r - 12 + 8 := u']>) s)) q (q + bytes h)) as Hag.
  { intros q h Hq y Hy. cbn [mem set_mem]. rewrite lookup_insert_ne; [done|]. intros He.
    destruct (Hr _ _ Hq) as (_ & _ & _ & _ & _ & Hd'). destruct (dynamic h).
    - destruct Hd' as (z & v & Hin' & Hz & _).
      destruct (layout_apart _ _ _ _ _ _ _ _ _ _ _ _ Hh Hin Hin') as [?|?]; [intuition lia|lia].
    - lia. }
  exists (set_mem (<[r - 12 + 8 := u']>) s), (l1 ++ (sz, Used u') :: l2).
  split_and!; [done| |by eapply keeps_agree].
  assert (forall ad z v, (ad, z, Used v) ∈ layout (POOL_ALLOC_START_PTR x) (l1 ++ (sz, Used u) :: l2) ->
    w16 v = SYSTEM_TASK_NUMBER -> exists v', (ad, z, Used v') ∈ layout (POOL_ALLOC_START_PTR x) (l1 ++ (sz, Used u') :: l2) /\
    w16 v' = SYSTEM_TASK_NUMBER) as Hkeep.
  { intros ad z v. rewrite !layout_app. cbn [layout].
    intros [Hi|[[= -> -> _]|Hi]%elem_of_cons]%elem_of_app Hv.
    - exists v. split; [|done]. apply elem_of_app. by left.
    - exists u'. split; [|done]. apply elem_of_app. right. by left.
    - exists v. split; [|done]. apply elem_of_app. right. by right. }
  split; [|done| |done].
  - destruct Hwf as [W1 W2 W3 W4 W5 W6 W7 W8]. split; try done; [by apply insert_mapped| |].
    + cbn [mem set_mem]. rewrite Hend. by apply heap_retype with u.
    + rewrite W8, !first_free_app. done.
  - intros q h Hq. destruct (Hr _ _ Hq) as (Q1 & Q4 & Q0 & Q32 & Hm & Hd').
    split_and!; try done; [by apply insert_mapped|]. destruct (dynamic h); [|done].
    destruct Hd' as (z & v & Hin' & Hz & Hv). destruct (Hkeep _ _ _ Hin' Hv) as (v' & ? & ?). eauto.
Qed.

#[export] Instance lwmem_laws : HeapLaws state.
Proof.
  unshelve refine {| word := mem_word; owns s B := exists x l, pool_owns s B x l |}.
  - intros s B r g (x & l & Ho) Hg. destruct (po_regions _ _ _ _ Ho _ _ Hg) as (? & ? & ? & ? & _). done.
  - intros s B r1 g1 r2 g2 (x & l & Ho). apply Ho.
  - intros s B a (x & l & Ho) Ha. destruct (region_word _ _ _ _ _ Ho Ha) as [v Hv].
    unfold mem_word. rewrite Hv. by apply load_run.
  - intros s B a v (x & l & Ho) Ha. exists (set_mem (<[a := v]>) s). split_and!.
    + apply store_run. by eapply region_word.
    + exists x, l. by apply owns_store.
    + unfold mem_word. cbn [mem set_mem]. by rewrite lookup_insert_eq.
    + intros b Hb. unfold mem_word. cbn [mem set_mem]. by rewrite lookup_insert_ne.
  - intros s B n (x & l & Ho) Hn H32.
    destruct (lwmem_alloc_heap s B x l n false Ho Hn H32) as (r & s' & R & Hk & x' & l' & Hres).
    exists r, s'. split_and!; [done..|]. destruct Hres as [[-> ?]|(? & ? & _)]; [left|right]; eauto.
  - intros s B n (x & l & Ho) Hn H32.
    destruct (lwmem_alloc_heap s B x l n true Ho Hn H32) as (r & s' & R & Hk & x' & l' & Hres).
    exists r, s'. split_and!; [done..|]. destruct Hres as [[-> ?]|(? & ? & ?)]; [left|right]; eauto 6.
  - intros s B r g (x & l & Ho) Hg Ed.
    destruct (lwmem_free_heap s B x l r g Ho Hg Ed) as (s' & x' & l' & R & ? & ?). eauto 6.
  - intros s B r g t (x & l & Ho) Hg Ed.
    destruct (lwmem_set_type_heap s B x l r g t Ho Hg Ed) as (s' & l' & R & ? & ?). eauto 6.
Defined.

(** *** A system for the examples *)

(** [n] words of zeros from [lo] on. *)
Fixpoint fill (lo : Z) (n : nat) (m : gmap Z Z) : gmap Z Z :=
  match n with
  | O => m
  | S n => <[lo := 0]> (fill (lo + 4) n m)
  end.

Lemma fill_mapped lo n m : mapped m lo (lo + 4 * Z.of_nat n) \/ lo mod 4 = 0 -> mapped (fill lo n m) lo (lo + 4 * Z.of_nat n).
Proof.
  intros Hm a Ha Ha4. destruct Hm as [Hm|Hlo].
  - specialize (Hm a Ha Ha4). clear Ha Ha4. revert lo. induction n as [|n IH]; intros lo; [done|].
    apply insert_keeps_some, IH.
  - revert lo Ha Hlo. induction n as [|n IH]; intros lo Ha Hlo; [lia|]. cbn [fill].
    destruct (Z.eq_dec a lo) as [->|Hne]; [rewrite lookup_insert_eq; eauto|].
    rewrite lookup_insert_ne by done. apply IH; [|zdm]. split; [zdm|lia].
Qed.

Lemma fill_outer lo n m lo' hi' : mapped m lo' hi' -> mapped (fill lo n m) lo' hi'.
Proof.
  intros Hm a Ha Ha4. specialize (Hm a Ha Ha4). revert lo. induction n as [|n IH]; intros lo; [done|].
  apply insert_keeps_some, IH.
Qed.

(** A pool of 1024 bytes at 16, and two areas of the application, of 48 bytes
    at 2048 and of 256 bytes at 2304. *)
Definition boot_mem : gmap Z Z := <[16 := 1024]> (<[20 := 7]> (fill 16 256 (fill 2048 12 (fill 2304 64 ∅)))).
Definition boot_pool : pool := Pool LWMEM_POOL_VALID 16 1040 16 16 16 16 16 16 16.
Definition boot : state := State boot_mem {[7 := boot_pool]} (Some [7]) 7 65538 131071 0.
Definition boot_areas : gmap Z Z := {[2048 := 48; 2304 := 256]}.
Definition boot_regions : regions := (fun z => Reg z false) <$> boot_areas.

Lemma boot_owns : owns boot boot_regions.
Proof.
  exists boot_pool, [(1024, Free)].
  assert (mapped boot_mem 16 1040) as Hm1.
  { do 2 apply insert_mapped. apply (fill_mapped 16 256). by right. }
  assert (mapped boot_mem 2048 2096) as Hm2.
  { do 2 apply insert_mapped. apply fill_outer. apply (fill_mapped 2048 12). by right. }
  assert (mapped boot_mem 2304 2560) as Hm3.
  { do 2 apply insert_mapped. do 2 apply fill_outer. apply (fill_mapped 2304 64). by right. }
  split.
  - by split.
  - done.
  - intros r g Hg. unfold boot_regions, boot_areas in Hg.
    apply lookup_fmap_Some in Hg as (z & <- & Hz).
    apply lookup_insert_Some in Hz as [[<- <-]|[_ [<- <-]%lookup_singleton_Some]];
      (split_and!; [done|done|done|done|done|right; done]).
  - intros r1 g1 r2 g2 H1 H2 Hne. unfold boot_regions, boot_areas in H1, H2.
    apply lookup_fmap_Some in H1 as (z1 & <- & Hz1). apply lookup_fmap_Some in H2 as (z2 & <- & Hz2).
    apply lookup_insert_Some in Hz1 as [[<- <-]|[_ [<- <-]%lookup_singleton_Some]];
      apply lookup_insert_Some in Hz2 as [[<- <-]|[_ [<- <-]%lookup_singleton_Some]]; cbn [bytes]; lia.
Qed.

End lwmem.

End Heap.
