(* ===== verification/Lwlog.v ===== *)
(** * Lightweight logs: [kernel/lwlog.c]

    A log is a header followed by a ring of entries of twelve words, in memory
    of the system's allocator or of the caller.  The memory is the interface
    of [Heap], the time stamps are those of [Clocks].  Entries are written at
    the place after [WRITE_PTR]; [OLDEST_PTR] and [CURRENT_ENTRIES] delimit
    what is in the log, and [READ_PTR] with [READS] is the position of a reader
    that asks for one entry after the other.

    The functions mask interrupts while they work on a log, so each is one
    step.  [_lwlog_create_internal] prepares the header, which nobody else
    knows yet, before it masks them; the semaphore of
    [_lwlog_create_component] makes that function one step. *)

From S2P Require Import Prelude Lwmem Clocks Heap.

Module Lwlog.

Export Heap.

(** ** Data *)

Definition NULL : Z := 0.
Definition MQX_OK : Z := 0.
Definition MQX_INVALID_POINTER : Z := 1.
Definition MQX_OUT_OF_MEMORY : Z := 4.
Definition MQX_CANNOT_CALL_FUNCTION_FROM_ISR : Z := 13.
Definition MQX_COMPONENT_DOES_NOT_EXIST : Z := 24.
Definition MQX_INVALID_COMPONENT_HANDLE : Z := 25.
Definition MQX_INVALID_COMPONENT_BASE : Z := 26.
Definition LOG_INVALID : Z := 1280.               (* LOG_ERROR_BASE | 0x00 *)
Definition LOG_EXISTS : Z := 1281.
Definition LOG_DOES_NOT_EXIST : Z := 1282.
Definition LOG_FULL : Z := 1283.
Definition LOG_ENTRY_NOT_AVAILABLE : Z := 1284.
Definition LOG_DISABLED : Z := 1285.
Definition LOG_INVALID_READ_TYPE : Z := 1286.
Definition LOG_INVALID_SIZE : Z := 1287.

Definition LOG_MAXIMUM_NUMBER : Z := 16.
Definition LOG_OVERWRITE : Z := 1.
Definition LOG_READ_NEWEST : Z := 1.
Definition LOG_READ_OLDEST : Z := 2.
Definition LOG_READ_NEXT : Z := 3.
Definition LOG_READ_OLDEST_AND_DELETE : Z := 4.

Definition LWLOG_VALID : Z := 1819765863.         (* 0x6C776C67 *)
Definition LWLOG_ENABLED : Z := 4096.             (* 0x1000 *)
Definition LWLOG_STATIC : Z := 1.
Definition LWLOG_DYNAMIC : Z := 2.
Definition MEM_TYPE_LWLOG_COMPONENT : Z := 13.
Definition MEM_TYPE_LWLOG : Z := 14.

(** Addresses of the fields of [LWLOG_HEADER_STRUCT]. *)
Definition FLAGS (h : Z) : Z := h.
Definition NUMBER (h : Z) : Z := h + 4.
Definition CURRENT_ENTRIES (h : Z) : Z := h + 8.
Definition MAX_ENTRIES (h : Z) : Z := h + 12.
Definition READS (h : Z) : Z := h + 16.
Definition TYPE (h : Z) : Z := h + 20.
Definition WRITE_PTR (h : Z) : Z := h + 24.
Definition READ_PTR (h : Z) : Z := h + 28.
Definition OLDEST_PTR (h : Z) : Z := h + 32.
Definition FIRST_ENTRY (h : Z) : Z := h + 36.

(** Of [LWLOG_ENTRY_STRUCT], with [MQX_LWLOG_TIME_STAMP_IN_TICKS]. *)
Definition SEQUENCE_NUMBER (e : Z) : Z := e.
Definition TIMESTAMP (e : Z) : Z := e + 4.
Definition DATA (e : Z) : Z := e + 16.
Definition NEXT_PTR (e : Z) : Z := e + 44.

Definition sizeof_ENTRY : Z := 48.
Definition sizeof_HEADER : Z := 84.
Definition sizeof_COMPONENT : Z := 68.

(** Of [LWLOG_COMPONENT_STRUCT]. *)
Definition VALID (c : Z) : Z := c.
Definition LOGS (c n : Z) : Z := c + 4 + 4 * n.

Section lwlog.
Context {St : Type} `{HeapLaws St}.

(** The memory, [kernel_data->KERNEL_COMPONENTS[KERNEL_LWLOG]], and of the
    kernel data and the active task what the functions use. *)
Record lw := Lw {
  HEAP : St; KERNEL_LWLOG : Z; IN_ISR : bool; DISABLED_LEVEL : Z; CLOCK : Clocks.clock
}.

Definition set_HEAP (s : St) (L : lw) : lw := Lw s (KERNEL_LWLOG L) (IN_ISR L) (DISABLED_LEVEL L) (CLOCK L).
Definition set_LWLOG (c : Z) (L : lw) : lw := Lw (HEAP L) c (IN_ISR L) (DISABLED_LEVEL L) (CLOCK L).
Definition set_LEVEL (f : Z -> Z) (L : lw) : lw := Lw (HEAP L) (KERNEL_LWLOG L) (IN_ISR L) (f (DISABLED_LEVEL L)) (CLOCK L).

Abbreviation heap := (zoom HEAP set_HEAP).

#[export] Instance heap_zoom : ZoomLaw HEAP set_HEAP.
Proof. by intros []. Qed.

Abbreviation get a := (heap (load_word a)).
Abbreviation put a v := (heap (store_word a v)).

Definition _int_disable : M lw unit := modify (set_LEVEL (fun n => n + 1)).
Definition _int_enable : M lw unit := modify (set_LEVEL (fun n => if n =? 0 then 0 else n - 1)).

(** ** The operations *)

Definition _lwlog_create_component : M lw Z :=
  isr ← gets IN_ISR;
  if isr : bool then mret MQX_CANNOT_CALL_FUNCTION_FROM_ISR
  else
    c ← gets KERNEL_LWLOG;
    if negb (c =? NULL) then mret MQX_OK
    else
      log_component_ptr ← heap (_mem_alloc_system_zero sizeof_COMPONENT);
      if log_component_ptr =? NULL then mret MQX_OUT_OF_MEMORY
      else
        heap (_mem_set_type log_component_ptr MEM_TYPE_LWLOG_COMPONENT);;
        modify (set_LWLOG log_component_ptr);;
        put (VALID log_component_ptr) LWLOG_VALID;;
        mret MQX_OK.

(** The loop that links the entries; the result is the last of them. *)
Fixpoint link_entries (n : nat) (entry_ptr : Z) : M lw Z :=
  match n with
  | O => mret entry_ptr
  | S n => put (NEXT_PTR entry_ptr) (entry_ptr + sizeof_ENTRY);; link_entries n (entry_ptr + sizeof_ENTRY)
  end.

(** The header after the checks of [_lwlog_create_internal]. *)
Definition init_header (max_size flags log_header_ptr : Z) : M lw unit :=
  heap (_mem_zero log_header_ptr sizeof_HEADER);;
  put (FLAGS log_header_ptr) flags;;
  f ← get (FLAGS log_header_ptr);
  put (FLAGS log_header_ptr) (Z.lor f LWLOG_ENABLED);;
  put (NUMBER log_header_ptr) 1;;
  put (MAX_ENTRIES log_header_ptr) max_size;;
  let entry_ptr := FIRST_ENTRY log_header_ptr in
  put (READ_PTR log_header_ptr) entry_ptr;;
  put (OLDEST_PTR log_header_ptr) entry_ptr;;
  entry_ptr ← link_entries (Z.to_nat (w32 (max_size - 1))) entry_ptr;
  put (WRITE_PTR log_header_ptr) entry_ptr;;
  r ← get (READ_PTR log_header_ptr);
  put (NEXT_PTR entry_ptr) r.

(** The rest of [_lwlog_create_internal], when the component is there and the
    log was not seen to exist. *)
Definition publish_log (result log_number max_size flags log_header_ptr log_component_ptr : Z) : M lw Z :=
  v ← get (VALID log_component_ptr);
  if negb (v =? LWLOG_VALID) then mret MQX_INVALID_COMPONENT_BASE
  else
    init_header max_size flags log_header_ptr;;
    _int_disable;;
    old ← get (LOGS log_component_ptr log_number);
    if negb (old =? NULL) then _int_enable;; mret LOG_EXISTS
    else
      put (LOGS log_component_ptr log_number) log_header_ptr;;
      _int_enable;;
      mret result.

Definition _lwlog_create_internal (log_number max_size flags log_header_ptr : Z) : M lw Z :=
  if LOG_MAXIMUM_NUMBER <=? log_number then mret LOG_INVALID
  else
    c ← gets KERNEL_LWLOG;
    if c =? NULL then
      result ← _lwlog_create_component;
      log_component_ptr ← gets KERNEL_LWLOG;
      if log_component_ptr =? NULL then mret result
      else publish_log result log_number max_size flags log_header_ptr log_component_ptr
    else
      old ← get (LOGS c log_number);
      if negb (old =? NULL) then mret LOG_EXISTS
      else publish_log MQX_OK log_number max_size flags log_header_ptr c.

Definition _lwlog_create_at (log_number max_size flags where_ : Z) : M lw Z :=
  if max_size =? 0 then mret LOG_INVALID_SIZE
  else if where_ =? NULL then mret MQX_INVALID_POINTER
  else
    result ← _lwlog_create_internal log_number max_size flags where_;
    (if result =? MQX_OK then put (TYPE where_) LWLOG_STATIC else mret tt);;
    mret result.

Definition _lwlog_calculate_size (entries : Z) : Z :=
  if entries =? 0 then 0 else w32 (sizeof_HEADER + w32 ((entries - 1) * sizeof_ENTRY)).

Definition _lwlog_create (log_number max_size flags : Z) : M lw Z :=
  if max_size =? 0 then mret LOG_INVALID_SIZE
  else
    log_header_ptr ← heap (_mem_alloc_system_zero (w32 (sizeof_HEADER + w32 ((max_size - 1) * sizeof_ENTRY))));
    if log_header_ptr =? NULL then mret MQX_OUT_OF_MEMORY
    else
      heap (_mem_set_type log_header_ptr MEM_TYPE_LWLOG);;
      result ← _lwlog_create_internal log_number max_size flags log_header_ptr;
      (if result =? MQX_OK then put (TYPE log_header_ptr) LWLOG_DYNAMIC
       else heap (_mem_free log_header_ptr);; mret tt);;
      mret result.

(** The checks at the start of [_lwlog_destroy], [_lwlog_disable] and
    [_lwlog_enable]: [k] runs with interrupts masked. *)
Definition with_log (log_number : Z) (k : Z -> Z -> M lw Z) : M lw Z :=
  if LOG_MAXIMUM_NUMBER <=? log_number then mret LOG_INVALID
  else
    c ← gets KERNEL_LWLOG;
    if c =? NULL then mret MQX_COMPONENT_DOES_NOT_EXIST
    else
      v ← get (VALID c);
      if negb (v =? LWLOG_VALID) then mret MQX_INVALID_COMPONENT_HANDLE
      else
        _int_disable;;
        log_header_ptr ← get (LOGS c log_number);
        if log_header_ptr =? NULL then _int_enable;; mret LOG_DOES_NOT_EXIST
        else k c log_header_ptr.

Definition _lwlog_destroy (log_number : Z) : M lw Z :=
  with_log log_number (fun c log_header_ptr =>
    put (LOGS c log_number) NULL;;
    _int_enable;;
    type ← get (TYPE log_header_ptr);
    (if type =? LWLOG_DYNAMIC then heap (_mem_free log_header_ptr);; mret tt else mret tt);;
    mret MQX_OK).

Definition _lwlog_disable (log_number : Z) : M lw Z :=
  with_log log_number (fun _ log_header_ptr =>
    f ← get (FLAGS log_header_ptr);
    put (FLAGS log_header_ptr) (Z.land f (Z.lnot LWLOG_ENABLED));;
    _int_enable;;
    mret MQX_OK).

Definition _lwlog_enable (log_number : Z) : M lw Z :=
  with_log log_number (fun _ log_header_ptr =>
    f ← get (FLAGS log_header_ptr);
    put (FLAGS log_header_ptr) (Z.lor f LWLOG_ENABLED);;
    _int_enable;;
    mret MQX_OK).

(** The entry to read, with the pointers and counters updated. *)
Definition find_entry (read_type h : Z) : M lw (Z + Z) :=
  if read_type =? LOG_READ_OLDEST_AND_DELETE then
    n ← get (CURRENT_ENTRIES h);
    put (CURRENT_ENTRIES h) (w32 (n - 1));;
    log_ptr ← get (OLDEST_PTR h);
    next ← get (NEXT_PTR log_ptr);
    put (OLDEST_PTR h) next;;
    next ← get (NEXT_PTR log_ptr);
    put (READ_PTR h) next;;
    put (READS h) 0;;
    mret (inl log_ptr)
  else if read_type =? LOG_READ_OLDEST then
    log_ptr ← get (OLDEST_PTR h);
    next ← get (NEXT_PTR log_ptr);
    put (READ_PTR h) next;;
    put (READS h) 1;;
    mret (inl log_ptr)
  else if read_type =? LOG_READ_NEXT then
    log_ptr ← get (READ_PTR h);
    wp ← get (WRITE_PTR h);
    wnext ← get (NEXT_PTR wp);
    reads ← get (READS h);
    n ← get (CURRENT_ENTRIES h);
    if (log_ptr =? wnext) && (n <=? reads) then mret (inr LOG_ENTRY_NOT_AVAILABLE)
    else
      next ← get (NEXT_PTR log_ptr);
      put (READ_PTR h) next;;
      put (READS h) (w32 (reads + 1));;
      mret (inl log_ptr)
  else if read_type =? LOG_READ_NEWEST then
    n ← get (CURRENT_ENTRIES h);
    put (READS h) n;;
    log_ptr ← get (WRITE_PTR h);
    mret (inl log_ptr)
  else mret (inr LOG_INVALID_READ_TYPE).

Definition _lwlog_read (log_number read_type entry_ptr : Z) : M lw Z :=
  if LOG_MAXIMUM_NUMBER <=? log_number then mret LOG_INVALID
  else if entry_ptr =? NULL then mret MQX_INVALID_POINTER
  else
    c ← gets KERNEL_LWLOG;
    if c =? NULL then mret MQX_COMPONENT_DOES_NOT_EXIST
    else
      _int_disable;;
      v ← get (VALID c);
      if negb (v =? LWLOG_VALID) then _int_enable;; mret MQX_INVALID_COMPONENT_HANDLE
      else
        log_header_ptr ← get (LOGS c log_number);
        if log_header_ptr =? NULL then _int_enable;; mret LOG_DOES_NOT_EXIST
        else
          n ← get (CURRENT_ENTRIES log_header_ptr);
          if n =? 0 then _int_enable;; mret LOG_ENTRY_NOT_AVAILABLE
          else
            e ← find_entry read_type log_header_ptr;
            match e with
            | inr code => _int_enable;; mret code
            | inl log_ptr =>
                heap (copy_words 12 entry_ptr log_ptr);;
                _int_enable;;
                mret MQX_OK
            end.

(** The log becomes empty. *)
Definition reset_log (h : Z) : M lw unit :=
  put (READS h) 0;;
  put (CURRENT_ENTRIES h) 0;;
  put (NUMBER h) 1;;
  let entry_ptr := FIRST_ENTRY h in
  n ← get (MAX_ENTRIES h);
  put (WRITE_PTR h) (w32 (entry_ptr + w32 (n - 1) * sizeof_ENTRY));;
  put (READ_PTR h) entry_ptr;;
  put (OLDEST_PTR h) entry_ptr.

Definition _lwlog_reset (log_number : Z) : M lw Z :=
  if LOG_MAXIMUM_NUMBER <=? log_number then mret LOG_INVALID
  else
    c ← gets KERNEL_LWLOG;
    if c =? NULL then mret MQX_COMPONENT_DOES_NOT_EXIST
    else
      _int_disable;;
      v ← get (VALID c);
      if negb (v =? LWLOG_VALID) then mret MQX_INVALID_COMPONENT_HANDLE
      else
        h ← get (LOGS c log_number);
        if h =? NULL then _int_enable;; mret LOG_DOES_NOT_EXIST
        else
          reset_log h;;
          _int_enable;;
          mret MQX_OK.

(** [*data_ptr++ = p1; ...] *)
Fixpoint put_words (data_ptr : Z) (l : list Z) : M lw unit :=
  match l with
  | [] => mret tt
  | p :: l => put data_ptr p;; put_words (data_ptr + 4) l
  end.

(** The time stamp of an entry, [hw] being the counter of the hardware timer.
    [TICKS] is a little-endian pair of words. *)
Definition stamp (c : Clocks.clock) (hw : option Z) : Clocks.ticks :=
  Clocks._psp_add_ticks (Clocks.HW_TICKS_PER_TICK c)
    (Clocks.Ticks (Clocks.TICKS (Clocks.TIME c)) (Clocks._time_get_hwticks hw)) (Clocks.TIME_OFFSET c).

Definition stamp_words (t : Clocks.ticks) : list Z :=
  [w32 (Clocks.TICKS t); Clocks.TICKS t / 2 ^ 32; Clocks.HW_TICKS t].

(** Make room for an entry at [log_ptr]: [false] if the log is full. *)
Definition take_slot (h log_ptr : Z) : M lw bool :=
  n ← get (CURRENT_ENTRIES h);
  m ← get (MAX_ENTRIES h);
  if m <=? n then
    f ← get (FLAGS h);
    if negb (Z.land f LOG_OVERWRITE =? 0) then
      r ← get (READ_PTR h);
      (if log_ptr =? r then next ← get (NEXT_PTR log_ptr); put (READ_PTR h) next else mret tt);;
      next ← get (NEXT_PTR log_ptr);
      put (OLDEST_PTR h) next;;
      mret true
    else mret false
  else put (CURRENT_ENTRIES h) (w32 (n + 1));; mret true.

Definition _lwlog_write_internal (hw : option Z) (log_number p1 p2 p3 p4 p5 p6 p7 : Z) : M lw Z :=
  c ← gets KERNEL_LWLOG;
  h ← get (LOGS c log_number);
  v ← get (VALID c);
  if negb (v =? LWLOG_VALID) then mret MQX_INVALID_COMPONENT_HANDLE
  else if h =? NULL then mret LOG_DOES_NOT_EXIST
  else
    f ← get (FLAGS h);
    if Z.land f LWLOG_ENABLED =? 0 then mret LOG_DISABLED
    else
      wp ← get (WRITE_PTR h);
      log_ptr ← get (NEXT_PTR wp);
      room ← take_slot h log_ptr;
      if negb room then mret LOG_FULL
      else
        clk ← gets CLOCK;
        put_words (TIMESTAMP log_ptr) (stamp_words (stamp clk hw));;
        number ← get (NUMBER h);
        put (NUMBER h) (w32 (number + 1));;
        put (SEQUENCE_NUMBER log_ptr) number;;
        put_words (DATA log_ptr) [p1; p2; p3; p4; p5; p6; p7];;
        put (WRITE_PTR h) log_ptr;;
        mret MQX_OK.

Definition _lwlog_write (hw : option Z) (log_number p1 p2 p3 p4 p5 p6 p7 : Z) : M lw Z :=
  if LOG_MAXIMUM_NUMBER <=? log_number then mret LOG_INVALID
  else
    c ← gets KERNEL_LWLOG;
    if c =? NULL then mret MQX_COMPONENT_DOES_NOT_EXIST
    else
      _int_disable;;
      result ← _lwlog_write_internal hw log_number p1 p2 p3 p4 p5 p6 p7;
      _int_enable;;
      mret result.

(** The walk along the entries in [_lwlog_test], [j] counting down from
    [MAX_ENTRIES]: does it stay between the bounds? *)
Fixpoint test_entries (j : nat) (min_ptr max_ptr entry_ptr : Z) : M lw bool :=
  next ← get (NEXT_PTR entry_ptr);
  if next =? NULL then mret true
  else
    match j with
    | O => mret true
    | S j =>
        if (next <? min_ptr) || (max_ptr <=? next) then mret false
        else test_entries j min_ptr max_ptr next
    end.

(** One log of the test; [sizeof(LWLOG_HEADER_STRUCT_PTR)] is 4. *)
Definition test_log (h : Z) : M lw bool :=
  m ← get (MAX_ENTRIES h);
  let min_ptr := h + 4 in
  let max_ptr := w32 (min_ptr + w32 (sizeof_ENTRY * m)) in
  let outside p := (p <? min_ptr) || (max_ptr <=? p) in
  r ← get (READ_PTR h);
  w ← get (WRITE_PTR h);
  o ← get (OLDEST_PTR h);
  if outside r || outside w || outside o then mret false
  else test_entries (Z.to_nat m) min_ptr max_ptr (FIRST_ENTRY h).

(** The loop over the [n] logs from [i] on. *)
Fixpoint test_logs (n : nat) (c i : Z) : M lw (Z * Z) :=
  match n with
  | O => _int_enable;; mret (MQX_OK, 0)
  | S n =>
      h ← get (LOGS c i);
      ok ← (if h =? NULL then mret true else test_log h);
      if negb ok then _int_enable;; mret (LOG_INVALID, i)
      else test_logs n c (i + 1)
  end.

(** [log_error_ptr] is the address the number of the bad log is stored at; the
    result is the code and what is stored there. *)
Definition _lwlog_test (log_error_ptr : Z) : M lw (Z * Z) :=
  if log_error_ptr =? NULL then mret (MQX_INVALID_POINTER, 0)
  else
    c ← gets KERNEL_LWLOG;
    if c =? NULL then mret (MQX_OK, 0)
    else
      _int_disable;;
      v ← get (VALID c);
      if negb (v =? LWLOG_VALID) then _int_enable;; mret (MQX_INVALID_COMPONENT_BASE, 0)
      else test_logs (Z.to_nat LOG_MAXIMUM_NUMBER) c 0.

(** ** Abstract specification

    A log is the list of its entries, the oldest first.  [a_next] is the place
    in the list of the entry that [LOG_READ_NEXT] returns, [a_reads] the
    counter that decides when the reader has seen everything. *)

Record entry := Entry { SEQUENCE : Z; STAMP : Clocks.ticks; PARAMS : list Z }.

Definition entry_words (x : entry) : list Z := SEQUENCE x :: stamp_words (STAMP x) ++ PARAMS x.

Record alog := ALog {
  a_at : option Z;        (* the memory of the caller, if it is there *)
  a_max : Z; a_overwrite : bool; a_enabled : bool; a_number : Z;
  a_entries : list entry; a_next : Z; a_reads : Z
}.

Abbreviation logs := (gmap Z alog).

Definition with_enabled (b : bool) (a : alog) : alog :=
  ALog (a_at a) (a_max a) (a_overwrite a) b (a_number a) (a_entries a) (a_next a) (a_reads a).
Definition with_cursor (k r : Z) (a : alog) : alog :=
  ALog (a_at a) (a_max a) (a_overwrite a) (a_enabled a) (a_number a) (a_entries a) k r.
Definition with_entries (l : list entry) (number k : Z) (a : alog) : alog :=
  ALog (a_at a) (a_max a) (a_overwrite a) (a_enabled a) number l k (a_reads a).

Definition new_log (at_ : option Z) (max_size flags : Z) : alog :=
  ALog at_ max_size (Z.testbit flags 0) true 1 [] 0 0.

Definition a_full (a : alog) : bool := a_max a <=? zlen (a_entries a).

Definition awrite (t : Clocks.ticks) (p : list Z) (a : alog) : Z * alog :=
  let x := Entry (a_number a) t p in
  let number := w32 (a_number a + 1) in
  if negb (a_enabled a) then (LOG_DISABLED, a)
  else if negb (a_full a) then (MQX_OK, with_entries (a_entries a ++ [x]) number (a_next a) a)
  else if negb (a_overwrite a) then (LOG_FULL, a)
  else
    (* the oldest entry goes; a reader that stands at it, or has read all
       entries, is moved to the entry after it *)
    let k := if (a_next a =? 0) || (a_next a =? a_max a) then 0 else a_next a - 1 in
    (MQX_OK, with_entries (tail (a_entries a) ++ [x]) number k a).

(** Has the reader seen everything?  In a full log the counter decides. *)
Definition a_done (a : alog) : bool :=
  (a_next a =? zlen (a_entries a)) ||
  ((a_next a =? 0) && a_full a && (zlen (a_entries a) <=? a_reads a)).

Definition aread (read_type : Z) (a : alog) : Z * option entry * alog :=
  match a_entries a with
  | [] => (LOG_ENTRY_NOT_AVAILABLE, None, a)
  | x :: l =>
      if read_type =? LOG_READ_OLDEST_AND_DELETE
      then (MQX_OK, Some x, with_cursor 0 0 (with_entries l (a_number a) 0 a))
      else if read_type =? LOG_READ_OLDEST then (MQX_OK, Some x, with_cursor 1 1 a)
      else if read_type =? LOG_READ_NEXT then
        if a_done a then (LOG_ENTRY_NOT_AVAILABLE, None, a)
        else (MQX_OK, a_entries a !! Z.to_nat (a_next a), with_cursor (a_next a + 1) (a_reads a + 1) a)
      else if read_type =? LOG_READ_NEWEST
      then (MQX_OK, last (a_entries a), with_cursor (a_next a) (zlen (a_entries a)) a)
      else (LOG_INVALID_READ_TYPE, None, a)
  end.

Definition areset (a : alog) : alog :=
  ALog (a_at a) (a_max a) (a_overwrite a) (a_enabled a) 1 [] 0 0.

(** What a program asks for; [OClock] stands for the clock interrupts. *)
Inductive op :=
  | OCreate (n max_size flags : Z) | OCreateAt (n max_size flags where_ : Z) | ODestroy (n : Z)
  | OEnable (n : Z) | ODisable (n : Z) | OReset (n : Z)
  | ORead (n read_type buffer : Z) | OWrite (hw : option Z) (n p1 p2 p3 p4 p5 p6 p7 : Z)
  | OTest (error_ptr : Z) | OClock (c : Clocks.clock).

(** A code, with the entry that was read, or what the test reports. *)
Inductive res := RCode (r : Z) | RRead (r : Z) (l : list Z) | RTest (r : Z * Z) | RNone.

Definition set_CLOCK (c : Clocks.clock) (L : lw) : lw := Lw (HEAP L) (KERNEL_LWLOG L) (IN_ISR L) (DISABLED_LEVEL L) c.

Definition exec (o : op) : M lw res :=
  match o with
  | OCreate n max_size flags => r ← _lwlog_create n max_size flags; mret (RCode r)
  | OCreateAt n max_size flags where_ => r ← _lwlog_create_at n max_size flags where_; mret (RCode r)
  | ODestroy n => r ← _lwlog_destroy n; mret (RCode r)
  | OEnable n => r ← _lwlog_enable n; mret (RCode r)
  | ODisable n => r ← _lwlog_disable n; mret (RCode r)
  | OReset n => r ← _lwlog_reset n; mret (RCode r)
  | ORead n read_type buffer =>
      r ← _lwlog_read n read_type buffer;
      l ← (if r =? MQX_OK then heap (read_words 11 buffer) else mret []);
      mret (RRead r l)
  | OWrite hw n p1 p2 p3 p4 p5 p6 p7 => r ← _lwlog_write hw n p1 p2 p3 p4 p5 p6 p7; mret (RCode r)
  | OTest error_ptr => r ← _lwlog_test error_ptr; mret (RTest r)
  | OClock c => modify (set_CLOCK c);; mret RNone
  end.

Fixpoint run (ops : list op) : M lw (list res) :=
  match ops with
  | [] => mret []
  | o :: ops => r ← exec o; rs ← run ops; mret (r :: rs)
  end.

(** [s_ready]: the component has been created. *)
Record spec := Spec { s_ready : bool; s_logs : logs; s_clock : Clocks.clock }.

Definition set_logs (f : logs -> logs) (s : spec) : spec := Spec (s_ready s) (f (s_logs s)) (s_clock s).

(** An operation on log [n], if it exists. *)
Definition on_log (n : Z) (s : spec) (k : alog -> Z * alog) : Z * spec :=
  if LOG_MAXIMUM_NUMBER <=? n then (LOG_INVALID, s)
  else if negb (s_ready s) then (MQX_COMPONENT_DOES_NOT_EXIST, s)
  else match s_logs s !! n with
       | None => (LOG_DOES_NOT_EXIST, s)
       | Some a => let (r, a') := k a in (r, set_logs (<[n := a']>) s)
       end.

Definition acreate (given : bool) (n : Z) (a : alog) (s : spec) : Z * spec :=
  if LOG_MAXIMUM_NUMBER <=? n then (LOG_INVALID, s)
  else if bool_decide (is_Some (s_logs s !! n)) then (LOG_EXISTS, s)
  else if negb given then (MQX_OUT_OF_MEMORY, s)
  else (MQX_OK, Spec true (<[n := a]> (s_logs s)) (s_clock s)).

(** [given]: the system had the memory that was asked for. *)
Definition aexec (given : bool) (o : op) (s : spec) : res * spec :=
  match o with
  | OCreate n max_size flags =>
      if max_size =? 0 then (RCode LOG_INVALID_SIZE, s)
      else if negb given then (RCode MQX_OUT_OF_MEMORY, s)
      else let (r, s) := acreate true n (new_log None max_size flags) s in (RCode r, s)
  | OCreateAt n max_size flags where_ =>
      if max_size =? 0 then (RCode LOG_INVALID_SIZE, s)
      else if where_ =? NULL then (RCode MQX_INVALID_POINTER, s)
      else let (r, s) := acreate given n (new_log (Some where_) max_size flags) s in (RCode r, s)
  | ODestroy n =>
      let (r, s') := on_log n s (fun a => (MQX_OK, a)) in
      (RCode r, if r =? MQX_OK then set_logs (delete n) s else s)
  | OEnable n => let (r, s) := on_log n s (fun a => (MQX_OK, with_enabled true a)) in (RCode r, s)
  | ODisable n => let (r, s) := on_log n s (fun a => (MQX_OK, with_enabled false a)) in (RCode r, s)
  | OReset n => let (r, s) := on_log n s (fun a => (MQX_OK, areset a)) in (RCode r, s)
  | ORead n read_type buffer =>
      if LOG_MAXIMUM_NUMBER <=? n then (RRead LOG_INVALID [], s)
      else if buffer =? NULL then (RRead MQX_INVALID_POINTER [], s)
      else
        let (r, s') := on_log n s (fun a => let '(r, _, a') := aread read_type a in (r, a')) in
        let x := a ← s_logs s !! n; (aread read_type a).1.2 in
        (RRead r (if r =? MQX_OK then from_option entry_words [] x else []), s')
  | OWrite hw n p1 p2 p3 p4 p5 p6 p7 =>
      let (r, s) := on_log n s (awrite (stamp (s_clock s) hw) [p1; p2; p3; p4; p5; p6; p7]) in (RCode r, s)
  | OTest error_ptr => (RTest (if error_ptr =? NULL then MQX_INVALID_POINTER else MQX_OK, 0), s)
  | OClock c => (RNone, Spec (s_ready s) (s_logs s) c)
  end.

Fixpoint arun (given : list bool) (ops : list op) (s : spec) : list res * spec :=
  match ops, given with
  | o :: ops, g :: given =>
      let (r, s1) := aexec g o s in let (rs, s2) := arun given ops s1 in (r :: rs, s2)
  | _, _ => ([], s)
  end.

(** ** Representation *)

Definition slot (h k : Z) : Z := FIRST_ENTRY h + sizeof_ENTRY * k.
Definition log_bytes (a : alog) : Z := 36 + sizeof_ENTRY * a_max a.

(** The [j]-th place of a ring of [n] from place [o] on. *)
Definition pos (n o j : Z) : Z := (o + j) mod n.

(** The ring of [n] linked slots, with the entries [l] from slot [o] on. *)
Record ring_at (w : Z -> Z) (h o n : Z) (l : list entry) : Prop := {
  ra_links : forall i, 0 <= i < n -> w (NEXT_PTR (slot h i)) = slot h (pos n i 1);
  ra_params : Forall (fun x => length (PARAMS x) = 7%nat) l;
  ra_words : forall j x, l !! j = Some x -> words_at w (slot h (pos n o (Z.of_nat j))) (entry_words x)
}.

(** The words [w] at [h] are the log [a], whose oldest entry is in slot [o]. *)
Record log_at (w : Z -> Z) (h o : Z) (a : alog) : Prop := {
  la_max : 1 <= a_max a;
  la_pos : 0 <= o < a_max a;
  la_len : zlen (a_entries a) <= a_max a;
  la_next : 0 <= a_next a <= zlen (a_entries a);
  la_reads : a_next a <= a_reads a < 2 ^ 32;
  la_overwrite : Z.testbit (w (FLAGS h)) 0 = a_overwrite a;
  la_enabled : Z.testbit (w (FLAGS h)) 12 = a_enabled a;
  la_number : w (NUMBER h) = a_number a;
  la_current : w (CURRENT_ENTRIES h) = zlen (a_entries a);
  la_max_word : w (MAX_ENTRIES h) = a_max a;
  la_reads_word : w (READS h) = a_reads a;
  la_write : w (WRITE_PTR h) = slot h (pos (a_max a) o (zlen (a_entries a) - 1));
  la_read : w (READ_PTR h) = slot h (pos (a_max a) o (a_next a));
  la_oldest : w (OLDEST_PTR h) = slot h o;
  la_ring : ring_at w h o (a_max a) (a_entries a)
}.

(** The type word and the region of a log. *)
Definition log_region (w : Z -> Z) (B : regions) (h : Z) (a : alog) : Prop :=
  match a_at a with
  | None => w (TYPE h) = LWLOG_DYNAMIC /\ B !! h = Some (Reg (log_bytes a) true)
  | Some where_ => w (TYPE h) = LWLOG_STATIC /\ h = where_ /\
      exists z, B !! h = Some (Reg z false) /\ log_bytes a <= z
  end.

(** [UA]: the regions of the application, by address; [at_] gives the address
    of each log. *)
Record sound (UA : gmap Z Z) (level : Z) (L : lw) (s : spec) (B : regions) (w : Z -> Z) (at_ : gmap Z Z) : Prop := {
  so_heap : heap_is (HEAP L) B w;
  so_isr : IN_ISR L = false;
  so_level : DISABLED_LEVEL L = level;
  so_clock : CLOCK L = s_clock s;
  so_user : forall r z, UA !! r = Some z -> B !! r = Some (Reg z false);
  so_none : s_ready s = false -> KERNEL_LWLOG L = 0 /\ s_logs s = ∅;
  so_component : s_ready s = true -> B !! KERNEL_LWLOG L = Some (Reg sizeof_COMPONENT true) /\
    w (VALID (KERNEL_LWLOG L)) = LWLOG_VALID /\
    (forall n, 0 <= n < LOG_MAXIMUM_NUMBER -> w (LOGS (KERNEL_LWLOG L) n) = default NULL (at_ !! n));
  so_at : forall n, is_Some (at_ !! n) <-> is_Some (s_logs s !! n);
  so_inj : forall n1 n2 h, at_ !! n1 = Some h -> at_ !! n2 = Some h -> n1 = n2;
  so_log : forall n a h, s_logs s !! n = Some a -> at_ !! n = Some h ->
    0 <= n < LOG_MAXIMUM_NUMBER /\ h <> KERNEL_LWLOG L /\ log_region w B h a /\ exists o, log_at w h o a
}.

Definition inv (UA : gmap Z Z) (level : Z) (L : lw) (s : spec) : Prop :=
  0 <= level /\ exists B w at_, sound UA level L s B w at_.

(** What the callers respect: a buffer, or the memory for a log, is memory of
    theirs that holds no log; the sizes can be represented; a reader does not
    ask for the next entry 2^32 times without starting again. *)
Definition unused (UA : gmap Z Z) (s : spec) (r size : Z) : Prop :=
  from_option (fun z => size <= z) False (UA !! r) /\
  map_Forall (fun _ a => a_at a <> Some r) (s_logs s).

Definition can (UA : gmap Z Z) (s : spec) (o : op) : Prop :=
  match o with
  | OCreate n max_size _ => 0 <= n /\ 0 <= max_size /\ sizeof_HEADER + (max_size - 1) * sizeof_ENTRY + 27 < 2 ^ 32
  | OCreateAt n max_size _ where_ =>
      0 <= n /\ 0 <= max_size /\ (where_ = NULL \/ unused UA s where_ (36 + sizeof_ENTRY * max_size))
  | ODestroy n | OEnable n | ODisable n | OReset n | OWrite _ n _ _ _ _ _ _ _ => 0 <= n
  | ORead n read_type buffer =>
      0 <= n /\ (buffer = NULL \/ unused UA s buffer sizeof_ENTRY) /\
      (read_type <> LOG_READ_NEXT \/ from_option (fun a => a_reads a + 1 < 2 ^ 32) True (s_logs s !! n))
  | OTest _ | OClock _ => True
  end.

#[export] Instance unused_dec UA s r size : Decision (unused UA s r size).
Proof. unfold unused. destruct (UA !! r); cbn; apply _. Defined.

#[export] Instance can_dec UA s o : Decision (can UA s o).
Proof. destruct o; cbn; try apply _. destruct (s_logs s !! n); cbn; apply _. Defined.

(** Whether or not the system has the memory for a log. *)
Definition needs_memory (o : op) : bool :=
  match o with OCreate _ _ _ | OCreateAt _ _ _ _ => true | _ => false end.

Fixpoint cans (UA : gmap Z Z) (ops : list op) (s : spec) : Prop :=
  match ops with
  | [] => True
  | o :: ops =>
      can UA s o /\ cans UA ops (aexec true o s).2 /\
      (if needs_memory o then cans UA ops (aexec false o s).2 else True)
  end.

#[export] Instance cans_dec UA ops s : Decision (cans UA ops s).
Proof.
  revert s. induction ops as [|o ops IH]; intros s; cbn; [apply _|].
  destruct (needs_memory o); apply _.
Defined.

(** ** Positions in the ring *)

Lemma pos_range n o j : 0 < n -> 0 <= pos n o j < n.
Proof. intros Hn. apply Z.mod_pos_bound. lia. Qed.

Lemma pos_0 n o : 0 <= o < n -> pos n o 0 = o.
Proof. intros H1. unfold pos. rewrite Z.add_0_r. by apply Z.mod_small. Qed.

Lemma pos_full n o : 0 <= o < n -> pos n o n = o.
Proof. intros H1. unfold pos. rewrite <-(Z.mul_1_l n) at 1. rewrite Z_mod_plus_full. by apply Z.mod_small. Qed.

Lemma pos_pos n o i j : 0 < n -> pos n (pos n o i) j = pos n o (i + j).
Proof. intros Hn. unfold pos. rewrite Zplus_mod_idemp_l. f_equal. lia. Qed.

Lemma pos_inj n o i j : 0 <= i < n -> 0 <= j < n -> pos n o i = pos n o j -> i = j.
Proof.
  unfold pos. intros Hi Hj He.
  pose proof (Z.div_mod (o + i) n ltac:(lia)). pose proof (Z.div_mod (o + j) n ltac:(lia)).
  assert ((o + i) / n = (o + j) / n) by nia. nia.
Qed.

(** [i] and [j] are at most a round apart. *)
Lemma pos_eq n o i j : 0 < n -> 0 <= i <= n -> 0 <= j <= n ->
  pos n o i = pos n o j -> i = j \/ i = 0 /\ j = n \/ i = n /\ j = 0.
Proof.
  intros Hn Hi Hj He.
  assert (forall k, pos n o k = pos n o (k mod n)) as Hm by (intros k; unfold pos; by rewrite Zplus_mod_idemp_r).
  rewrite (Hm i), (Hm j) in He. apply pos_inj in He; [|by apply Z.mod_pos_bound..].
  destruct (Z.eq_dec i n) as [->|], (Z.eq_dec j n) as [->|]; [lia| | |].
  - rewrite Z.mod_same, (Z.mod_small j) in He by lia. lia.
  - rewrite Z.mod_same, (Z.mod_small i) in He by lia. lia.
  - rewrite !Z.mod_small in He by lia. lia.
Qed.

Lemma slot_inj h i j : slot h i = slot h j -> i = j.
Proof. unfold slot, sizeof_ENTRY. lia. Qed.

(** ** Regions of logs *)

Lemma region_room w (B : regions) h a i : log_region w B h a -> 0 <= i -> i + 4 <= log_bytes a -> i mod 4 = 0 ->
  room B (h + i).
Proof.
  unfold log_region. intros Hr Hi Hn H4. destruct (a_at a) as [q|].
  - destruct Hr as (_ & _ & z & Hr & Hz). eapply room_in; [done|done|cbn [bytes]; lia|done].
  - destruct Hr as [_ Hr]. eapply room_in; [done..|cbn [bytes]; lia|done].
Qed.

Lemma region_bound s w (B : regions) h a : heap_is s B w -> log_region w B h a ->
  0 < h /\ h mod 4 = 0 /\ h + log_bytes a < 2 ^ 32.
Proof.
  intros Hh. unfold log_region. destruct (a_at a) as [q|].
  - intros (_ & _ & z & Hr & Hz). destruct (owns_region _ _ _ _ (hi_owns _ _ _ Hh) Hr) as (? & ? & _ & Hb).
    cbn [bytes] in Hb. split_and!; [done|done|lia].
  - intros [_ Hr]. by destruct (owns_region _ _ _ _ (hi_owns _ _ _ Hh) Hr) as (? & ? & _ & ?).
Qed.

Lemma slot_room w (B : regions) h a k i : log_region w B h a -> 0 <= k < a_max a -> 0 <= i <= 44 -> i mod 4 = 0 ->
  room B (slot h k + i).
Proof.
  intros Hr Hk Hi H4. unfold slot, FIRST_ENTRY, sizeof_ENTRY.
  replace (h + 36 + 48 * k + i) with (h + (36 + 48 * k + i)) by lia.
  eapply region_room; [done|lia|unfold log_bytes, sizeof_ENTRY; lia|zdm].
Qed.

(** Only the words from [h] to the end of the log's region differ. *)
Definition only (h n : Z) (w w' : Z -> Z) : Prop := forall b, b < h \/ h + n <= b -> w' b = w b.

Lemma only_refl h n w : only h n w w.
Proof. done. Qed.

Lemma only_trans h n w1 w2 w3 : only h n w1 w2 -> only h n w2 w3 -> only h n w1 w3.
Proof. intros H1 H2 b Hb. rewrite H2 by done. by apply H1. Qed.

Lemma only_upd h n w a v : h <= a < h + n -> only h n w (upd a v w).
Proof. intros Ha b Hb. apply upd_ne. lia. Qed.

Lemma ring_at_ext w w' h o n l : 0 < n ->
  (forall k i, 0 <= k < n -> 0 <= i <= 44 -> i mod 4 = 0 -> w' (slot h k + i) = w (slot h k + i)) ->
  ring_at w h o n l -> ring_at w' h o n l.
Proof.
  intros Hn Hw [Hl Hp Hx]. split; [|done|].
  - intros i Hi. unfold NEXT_PTR. rewrite Hw by (reflexivity || lia). by apply Hl.
  - intros j x Hj. eapply words_at_ext; [|by apply Hx].
    assert (length (PARAMS x) = 7%nat) as Hlen.
    { by eapply (Forall_lookup_1 (fun x => length (PARAMS x) = 7%nat)). }
    intros i Hi. cbn [entry_words stamp_words app length] in Hi. rewrite Hlen in Hi.
    apply Hw; [by apply pos_range|lia|zdm].
Qed.

Lemma ring_tail w h o n x l : 0 < n -> ring_at w h o n (x :: l) -> ring_at w h (pos n o 1) n l.
Proof.
  intros Hn [Hl Hp Hx]. split; [done|by inversion Hp|]. intros j y Hj. rewrite pos_pos by done.
  replace (1 + Z.of_nat j) with (Z.of_nat (S j)) by lia. by apply Hx.
Qed.

Lemma log_at_ext w w' h o a :
  (forall i, 0 <= i < log_bytes a -> i mod 4 = 0 -> i <> 20 -> w' (h + i) = w (h + i)) ->
  log_at w h o a -> log_at w' h o a.
Proof.
  intros Hw []. unfold log_bytes, sizeof_ENTRY in Hw.
  assert (w' (FLAGS h) = w (FLAGS h)) as Hf.
  { unfold FLAGS. replace h with (h + 0) by lia. apply Hw; (reflexivity || lia). }
  split; rewrite ?Hf; try done;
    unfold NUMBER, CURRENT_ENTRIES, MAX_ENTRIES, READS, WRITE_PTR, READ_PTR, OLDEST_PTR in *;
    try (by rewrite Hw by (reflexivity || lia)).
  eapply ring_at_ext; [lia| |done]. intros k i Hk Hi H4. unfold slot, FIRST_ENTRY, sizeof_ENTRY.
  replace (h + 36 + 48 * k + i) with (h + (36 + 48 * k + i)) by lia. apply Hw; [lia|zdm|lia].
Qed.

(** ** Operations on one log *)

Lemma header_room w (B : regions) h a : log_region w B h a -> 1 <= a_max a ->
  room B (FLAGS h) /\ room B (NUMBER h) /\ room B (CURRENT_ENTRIES h) /\ room B (MAX_ENTRIES h) /\
  room B (READS h) /\ room B (TYPE h) /\ room B (WRITE_PTR h) /\ room B (READ_PTR h) /\ room B (OLDEST_PTR h).
Proof.
  intros Hr Hm. assert (room B (FLAGS h)).
  { unfold FLAGS. replace h with (h + 0) by lia. eapply region_room; [done|lia| |done]. unfold log_bytes, sizeof_ENTRY. lia. }
  split_and!; [done|..]; (eapply region_room; [done|lia| |reflexivity]); unfold log_bytes, sizeof_ENTRY; lia.
Qed.

(** The state after an operation on the log at [h]. *)
Definition touched (L : lw) (B : regions) (w : Z -> Z) (h n : Z) (L' : lw) (a' : alog) : Prop :=
  exists st w' o', L' = set_HEAP st L /\ heap_is st B w' /\ only h n w w' /\
    w' (TYPE h) = w (TYPE h) /\ log_at w' h o' a'.

Ltac addr := unfold NEXT_PTR, SEQUENCE_NUMBER, TIMESTAMP, DATA, slot, FIRST_ENTRY, sizeof_ENTRY, FLAGS, NUMBER,
  CURRENT_ENTRIES, MAX_ENTRIES, READS, TYPE, WRITE_PTR, READ_PTR, OLDEST_PTR.

(** Read words of the updated memory. *)
Ltac wlook := repeat first [rewrite upd_eq | rewrite upd_ne by (addr; lia)].

Ltac ring_ext := let k := fresh "k" in let i := fresh "i" in intros k i ? ? ?; addr; look; reflexivity.
Ltac only_step := repeat first [apply only_refl | eapply only_trans; [|apply only_upd; addr; unfold log_bytes, sizeof_ENTRY; lia]].

Lemma touched_same L B w h n o a : heap_is (HEAP L) B w -> log_at w h o a -> touched L B w h n L a.
Proof. intros Hh Ha. exists (HEAP L), w, o. split_and!; try done. by destruct L. Qed.

Ltac wroom := first [eassumption | match goal with Hr : forall k, room _ _ |- _ => apply Hr end].
Ltac wget := eapply wp_get; [eassumption|wroom|].
Ltac wput := eapply wp_put; [eassumption|wroom|]; intros ?st ?Hst; cbn beta.

Lemma find_delete L B w h o a x l : heap_is (HEAP L) B w -> log_region w B h a -> log_at w h o a ->
  a_entries a = x :: l ->
  wp False (find_entry LOG_READ_OLDEST_AND_DELETE h) L (fun e L' =>
    e = inl (slot h o) /\
    touched L B w h 36 L' (with_cursor 0 0 (with_entries l (a_number a) 0 a))).
Proof.
  intros Hh Hr Ha Hx. pose proof Ha as [H1 H2 H3 H4 H5 H6 H7 H8 H9 H10 H11 H12 H13 H14 H15].
  destruct (header_room _ _ _ _ Hr H1) as (R0 & R1 & R2 & R3 & R4 & R5 & R6 & R7 & R8).
  destruct (region_bound _ _ _ _ _ Hh Hr) as (Hh0 & Hh4 & Hbound). unfold log_bytes, sizeof_ENTRY in Hbound.
  assert (room B (NEXT_PTR (slot h o))) as Rn by (apply (slot_room w B h a o 44); done || lia).
  assert (w (NEXT_PTR (slot h o)) = slot h (pos (a_max a) o 1)) as Hnext by (by apply H15).
  unfold find_entry. rewrite Z.eqb_refl.
  wget. wput. wget. wlook. rewrite H14. wget. wlook. rewrite Hnext. wput. wget. wlook. rewrite Hnext. wput. wput.
  apply wp_ret. split; [done|].
  rewrite Hx in H3, H4, H9. cbn [length] in H3, H4, H9.
  eexists _, _, (pos (a_max a) o 1). split_and!; [reflexivity|eassumption| |by wlook|].
  - only_step.
  - split; cbn [a_max a_entries a_next a_reads a_overwrite a_enabled a_number with_cursor with_entries]; wlook;
      try done; try lia; try (by apply pos_range; lia).
    + rewrite H9, wrap_small by lia. lia.
    + rewrite H12, pos_pos by lia. do 2 f_equal. rewrite Hx. simpl length. lia.
    + by rewrite pos_0 by (apply pos_range; lia).
    + eapply ring_at_ext; [lia|ring_ext|]. apply ring_tail with x; [lia|by rewrite <-Hx].
Qed.

Lemma find_oldest L B w h o a x l : heap_is (HEAP L) B w -> log_region w B h a -> log_at w h o a ->
  a_entries a = x :: l ->
  wp False (find_entry LOG_READ_OLDEST h) L (fun e L' =>
    e = inl (slot h o) /\ touched L B w h 36 L' (with_cursor 1 1 a)).
Proof.
  intros Hh Hr Ha Hx. pose proof Ha as [H1 H2 H3 H4 H5 H6 H7 H8 H9 H10 H11 H12 H13 H14 H15].
  destruct (header_room _ _ _ _ Hr H1) as (R0 & R1 & R2 & R3 & R4 & R5 & R6 & R7 & R8).
  destruct (region_bound _ _ _ _ _ Hh Hr) as (Hh0 & Hh4 & Hbound). unfold log_bytes, sizeof_ENTRY in Hbound.
  assert (room B (NEXT_PTR (slot h o))) as Rn by (apply (slot_room w B h a o 44); done || lia).
  assert (w (NEXT_PTR (slot h o)) = slot h (pos (a_max a) o 1)) as Hnext by (by apply H15).
  unfold find_entry. change (LOG_READ_OLDEST =? LOG_READ_OLDEST_AND_DELETE) with false. rewrite Z.eqb_refl. cbn iota.
  wget. rewrite H14. wget. rewrite Hnext. wput. wput. apply wp_ret. split; [done|].
  pose proof (f_equal length Hx) as Hl. cbn [length] in Hl.
  eexists _, _, o. split_and!; [reflexivity|eassumption|only_step|by wlook|].
  split; cbn; wlook; try done; try lia. eapply ring_at_ext; [lia|ring_ext|done].
Qed.

Lemma find_next L B w h o a : heap_is (HEAP L) B w -> log_region w B h a -> log_at w h o a ->
  a_entries a <> [] -> a_reads a + 1 < 2 ^ 32 ->
  wp False (find_entry LOG_READ_NEXT h) L (fun e L' =>
    if a_done a then e = inr LOG_ENTRY_NOT_AVAILABLE /\ L' = L
    else a_next a < zlen (a_entries a) /\ e = inl (slot h (pos (a_max a) o (a_next a))) /\
      touched L B w h 36 L' (with_cursor (a_next a + 1) (a_reads a + 1) a)).
Proof.
  intros Hh Hr Ha Hx Hreads. pose proof Ha as [H1 H2 H3 H4 H5 H6 H7 H8 H9 H10 H11 H12 H13 H14 H15].
  destruct (header_room _ _ _ _ Hr H1) as (R0 & R1 & R2 & R3 & R4 & R5 & R6 & R7 & R8).
  destruct (region_bound _ _ _ _ _ Hh Hr) as (Hh0 & Hh4 & Hbound). unfold log_bytes, sizeof_ENTRY in Hbound.
  set (N := a_max a) in *. set (n := zlen (a_entries a)) in *.
  assert (0 < n) as Hn by (unfold n; destruct (a_entries a); [done|simpl; lia]).
  assert (forall k, room B (NEXT_PTR (slot h (pos N o k)))) as Rn.
  { intros k. apply (slot_room w B h a _ 44); [done|apply pos_range; lia|lia|done]. }
  assert (forall k, w (NEXT_PTR (slot h (pos N o k))) = slot h (pos N o (k + 1))) as Hnext.
  { intros k. destruct H15 as [Hl _ _]. rewrite Hl by (apply pos_range; lia). by rewrite pos_pos by lia. }
  unfold find_entry. change (LOG_READ_NEXT =? LOG_READ_OLDEST_AND_DELETE) with false.
  change (LOG_READ_NEXT =? LOG_READ_OLDEST) with false. rewrite Z.eqb_refl. cbn iota.
  wget. rewrite H13. wget. rewrite H12. wget. rewrite Hnext. replace (n - 1 + 1) with n by lia.
  wget. rewrite H11. wget. rewrite H9.
  assert ((slot h (pos N o (a_next a)) =? slot h (pos N o n)) && (n <=? a_reads a) = a_done a) as ->.
  { unfold a_done, a_full. fold N n. apply eq_true_iff_eq.
    rewrite andb_true_iff, orb_true_iff, !andb_true_iff, !Z.eqb_eq, !Z.leb_le. split.
    - intros [He Hrd]. apply slot_inj, pos_eq in He; [|lia..]. lia.
    - intros [He|[[He HN] Hrd]]; rewrite He; [split; [done|lia]|]. split; [|done].
      rewrite pos_0 by done. replace n with N by lia. by rewrite pos_full. }
  destruct (a_done a) eqn:Ed; [by apply wp_ret|].
  assert (a_next a < n) as Hk.
  { unfold a_done in Ed. fold n in Ed. apply orb_false_elim in Ed as [Ed _]. zreflect. lia. }
  wget. rewrite Hnext. wput. wput. apply wp_ret. split; [done|]. split; [done|].
  eexists _, _, o. split_and!; [reflexivity|eassumption|only_step|by wlook|].
  split; cbn; wlook; try done; try lia; [by rewrite wrap_small by lia|]. eapply ring_at_ext; [lia|ring_ext|done].
Qed.

Lemma find_newest L B w h o a : heap_is (HEAP L) B w -> log_region w B h a -> log_at w h o a ->
  a_entries a <> [] ->
  wp False (find_entry LOG_READ_NEWEST h) L (fun e L' =>
    e = inl (slot h (pos (a_max a) o (zlen (a_entries a) - 1))) /\
    touched L B w h 36 L' (with_cursor (a_next a) (zlen (a_entries a)) a)).
Proof.
  intros Hh Hr Ha Hx. pose proof Ha as [H1 H2 H3 H4 H5 H6 H7 H8 H9 H10 H11 H12 H13 H14 H15].
  destruct (header_room _ _ _ _ Hr H1) as (R0 & R1 & R2 & R3 & R4 & R5 & R6 & R7 & R8).
  destruct (region_bound _ _ _ _ _ Hh Hr) as (Hh0 & Hh4 & Hbound). unfold log_bytes, sizeof_ENTRY in Hbound.
  unfold find_entry. change (LOG_READ_NEWEST =? LOG_READ_OLDEST_AND_DELETE) with false.
  change (LOG_READ_NEWEST =? LOG_READ_OLDEST) with false.
  change (LOG_READ_NEWEST =? LOG_READ_NEXT) with false. rewrite Z.eqb_refl. cbn iota.
  wget. wput. wget. wlook. rewrite H12. apply wp_ret. split; [done|].
  eexists _, _, o. split_and!; [reflexivity|eassumption|only_step|by wlook|].
  split; cbn; wlook; try done; try lia. eapply ring_at_ext; [lia|ring_ext|done].
Qed.

Lemma put_words_run L B w a l : heap_is (HEAP L) B w ->
  (forall i, 0 <= i < zlen l -> room B (a + 4 * i)) ->
  exists st w', put_words a l L = Some (tt, set_HEAP st L) /\ heap_is st B w' /\
    words_at w' a l /\ only a (4 * zlen l) w w'.
Proof.
  revert L w a. induction l as [|v l IH]; intros L w a Hh Hr.
  - exists (HEAP L), w. split_and!; [by destruct L|done|done|apply only_refl].
  - cbn [put_words]. pose proof (Hr 0 ltac:(simpl; lia)) as Ha. rewrite Z.add_0_r in Ha.
    destruct (heap_store _ _ _ a v Hh Ha) as (st1 & R1 & H1).
    rewrite (bind_run _ _ _ _ _ (zoom_run _ _ _ _ R1)).
    destruct (IH (set_HEAP st1 L) (upd a v w) (a + 4) H1) as (st & w' & R & Hst & Hl & Ho).
    { intros i Hi. replace (a + 4 + 4 * i) with (a + 4 * (i + 1)) by lia. apply Hr. simpl. lia. }
    exists st, w'. split_and!; [done|done| |].
    + split; [|done]. rewrite Ho by lia. apply upd_eq.
    + intros b Hb. simpl length in Hb. rewrite Ho by lia. apply upd_ne. lia.
Qed.

(** A free slot is filled with the entry [x]. *)
Lemma ring_write w w' h o n l x : 0 <= o < n -> zlen l < n -> ring_at w h o n l ->
  let t := pos n o (zlen l) in
  (forall b, b < slot h t \/ NEXT_PTR (slot h t) <= b -> FIRST_ENTRY h <= b -> w' b = w b) ->
  length (PARAMS x) = 7%nat -> words_at w' (slot h t) (entry_words x) ->
  ring_at w' h o n (l ++ [x]).
Proof.
  intros Ho Hl [Hlinks Hparams Hwords] t Hw Hx Hxw.
  assert (0 <= t < n) as Ht by (apply pos_range; lia). split.
  - intros i Hi. rewrite Hw; [by apply Hlinks| |]; addr.
    + destruct (Z.lt_total i t) as [?|[->|?]]; lia.
    + lia.
  - apply Forall_app. split; [done|]. by constructor.
  - intros j y Hj. apply lookup_app_Some in Hj as [Hj|[Hlen Hj]].
    + pose proof (lookup_lt_Some _ _ _ Hj) as Hlt.
      assert (pos n o (Z.of_nat j) <> t) as Hne by (intros He; apply pos_inj in He; lia).
      assert (0 <= pos n o (Z.of_nat j) < n) by (apply pos_range; lia).
      eapply words_at_ext; [|by apply Hwords].
      assert (length (PARAMS y) = 7%nat) as Hy by (by eapply (Forall_lookup_1 (fun x => length (PARAMS x) = 7%nat))).
      intros i Hi. cbn [entry_words stamp_words app length] in Hi. rewrite Hy in Hi.
      apply Hw; addr; [|lia]. destruct (Z.lt_ge_cases (pos n o (Z.of_nat j)) t); lia.
    + assert (j = length l) as ->.
      { apply lookup_lt_Some in Hj. simpl in Hj. lia. }
      rewrite Nat.sub_diag in Hj. by simplify_eq/=.
Qed.

(** What a write does to the entries in the log. *)
Definition kept (a : alog) : list entry := if a_full a then tail (a_entries a) else a_entries a.
Definition moved (a : alog) : Z :=
  if a_full a then (if (a_next a =? 0) || (a_next a =? a_max a) then 0 else a_next a - 1) else a_next a.

Lemma awrite_ok t p a : a_enabled a = true -> (a_full a = true -> a_overwrite a = true) ->
  awrite t p a = (MQX_OK, with_entries (kept a ++ [Entry (a_number a) t p]) (w32 (a_number a + 1)) (moved a) a).
Proof.
  intros He Ho. unfold awrite, kept, moved. rewrite He. cbn [negb].
  destruct (a_full a); cbn [negb]; [|done]. by rewrite Ho.
Qed.

(** The update of [READ_PTR] when the oldest entry goes. *)
Lemma skip_reader_run L B w h t next b : heap_is (HEAP L) B w -> room B (READ_PTR h) -> room B (NEXT_PTR t) ->
  w (NEXT_PTR t) = next ->
  wp False (if b : bool then next ← get (NEXT_PTR t); put (READ_PTR h) next else mret tt) L (fun _ L' =>
    exists st w', L' = set_HEAP st L /\ heap_is st B w' /\
      w' (READ_PTR h) = (if b then next else w (READ_PTR h)) /\ forall c, c <> READ_PTR h -> w' c = w c).
Proof.
  intros Hh Hr Ht <-. destruct b.
  - wget. eapply wp_put_end; [done|done|]. intros st Hst. eexists _, _. split_and!; [done|done|by wlook|].
    intros c Hc. by rewrite upd_ne.
  - apply wp_ret. exists (HEAP L), w. split_and!; try done. by destruct L.
Qed.

Lemma take_slot_run L B w h o a : heap_is (HEAP L) B w -> log_region w B h a -> log_at w h o a ->
  let t := slot h (pos (a_max a) o (zlen (a_entries a))) in
  wp False (take_slot h t) L (fun ok L' =>
    if a_full a && negb (a_overwrite a) then ok = false /\ L' = L
    else ok = true /\ exists st w' o', L' = set_HEAP st L /\ heap_is st B w' /\ 0 <= o' < a_max a /\
      t = slot h (pos (a_max a) o' (zlen (kept a))) /\ zlen (kept a) < a_max a /\
      ring_at w h o' (a_max a) (kept a) /\ 0 <= moved a <= zlen (kept a) + 1 /\ moved a <= a_reads a /\
      w' (CURRENT_ENTRIES h) = zlen (kept a) + 1 /\ w' (READ_PTR h) = slot h (pos (a_max a) o' (moved a)) /\
      w' (OLDEST_PTR h) = slot h o' /\
      (forall b, b <> CURRENT_ENTRIES h -> b <> READ_PTR h -> b <> OLDEST_PTR h -> w' b = w b)).
Proof.
  intros Hh Hr Ha t. pose proof Ha as [H1 H2 H3 H4 H5 H6 H7 H8 H9 H10 H11 H12 H13 H14 H15].
  destruct (header_room _ _ _ _ Hr H1) as (R0 & R1 & R2 & R3 & R4 & R5 & R6 & R7 & R8).
  destruct (region_bound _ _ _ _ _ Hh Hr) as (Hh0 & Hh4 & Hbound). unfold log_bytes, sizeof_ENTRY in Hbound.
  unfold kept, moved, a_full. set (N := a_max a) in *. set (n := zlen (a_entries a)) in *.
  assert (room B (NEXT_PTR t)) as Rt.
  { apply (slot_room w B h a _ 44); [done|apply pos_range; lia|lia|done]. }
  assert (h + 36 <= t) as Ht36 by (pose proof (pos_range N o n ltac:(lia)); unfold t; addr; lia).
  unfold take_slot. wget. rewrite H9. wget. rewrite H10.
  destruct (Z.leb_spec N n) as [HN|HN]; cbn [andb].
  2:{ wput. apply wp_ret. split; [done|].
      eexists _, _, o. split_and!; [reflexivity|eassumption|..]; try done; try lia; wlook; try done.
      - rewrite wrap_small; lia.
      - intros b ? ? ?. by rewrite upd_ne. }
  assert (n = N) as HnN by lia.
  assert (w (NEXT_PTR t) = slot h (pos N o 1)) as Hnext.
  { unfold t. rewrite HnN, pos_full by done. by apply H15. }
  assert (negb (Z.land (w (FLAGS h)) LOG_OVERWRITE =? 0) = a_overwrite a) as Hov.
  { rewrite <-H6. change LOG_OVERWRITE with (Z.ones 1). rewrite Z.land_ones by lia.
    rewrite Z.bit0_odd. change (2 ^ 1) with 2. rewrite Zmod_odd. by destruct (Z.odd _). }
  wget. rewrite Hov. destruct (a_overwrite a); cbn [negb andb]; [|by apply wp_ret].
  destruct (a_entries a) as [|x l] eqn:Hx; [cbn in n; lia|]. cbn [tail].
  assert (n = zlen l + 1) as Hnl by (unfold n; simpl length; lia).
  wget. rewrite H13.
  assert ((t =? slot h (pos N o (a_next a))) = (a_next a =? 0) || (a_next a =? N)) as ->.
  { unfold t. apply eq_true_iff_eq. rewrite orb_true_iff, !Z.eqb_eq. rewrite HnN. split.
    - intros He. apply slot_inj, pos_eq in He; [|lia..]. lia.
    - intros [He|He]; rewrite He; [|done]. by rewrite pos_full, pos_0. }
  apply wp_bind. eapply wp_mono; [|by apply skip_reader_run].
  intros _ L1 (st1 & w1 & -> & Hst1 & Hrd & Hw1). rewrite H13 in Hrd.
  wget. rewrite Hw1, Hnext by (addr; lia). wput. apply wp_ret. split; [done|].
  set (b0 := (a_next a =? 0) || (a_next a =? N)) in *.
  assert (b0 = true /\ (a_next a = 0 \/ a_next a = N) \/ b0 = false /\ 0 < a_next a) as Hb0.
  { unfold b0. destruct (Z.eqb_spec (a_next a) 0), (Z.eqb_spec (a_next a) N); cbn [orb]; lia. }
  eexists _, _, (pos N o 1). split_and!; [reflexivity|eassumption|..].
  - apply pos_range. lia.
  - apply pos_range. lia.
  - unfold t. rewrite pos_pos by lia. do 2 f_equal. lia.
  - lia.
  - apply ring_tail with x; [lia|exact H15].
  - destruct b0; lia.
  - destruct b0; lia.
  - destruct b0; lia.
  - wlook. rewrite Hw1 by (addr; lia). rewrite H9. lia.
  - wlook. rewrite Hrd. destruct b0; [by rewrite pos_0 by (apply pos_range; lia)|].
    rewrite pos_pos by lia. do 2 f_equal. lia.
  - by wlook.
  - intros b ? ? ?. rewrite upd_ne by done. by apply Hw1.
Qed.


Lemma land_pow2 f k : 0 <= k -> (Z.land f (2 ^ k) =? 0) = negb (Z.testbit f k).
Proof.
  intros Hk. assert (Z.land f (2 ^ k) = if Z.testbit f k then 2 ^ k else 0) as ->.
  { apply Z.bits_inj'. intros i Hi. rewrite Z.land_spec, Z.pow2_bits_eqb by done.
    destruct (Z.eqb_spec k i) as [<-|Hne].
    - rewrite andb_true_r. destruct (Z.testbit f k); [by rewrite Z.pow2_bits_true|by rewrite Z.bits_0].
    - rewrite andb_false_r. destruct (Z.testbit f k); [by rewrite Z.pow2_bits_false|by rewrite Z.bits_0]. }
  pose proof (Z.pow_pos_nonneg 2 k ltac:(lia) Hk). destruct (Z.testbit f k); [by apply Z.eqb_neq; lia|done].
Qed.

Lemma write_run L B w h o a hw p1 p2 p3 p4 p5 p6 p7 n :
  heap_is (HEAP L) B w -> log_region w B h a -> log_at w h o a ->
  room B (LOGS (KERNEL_LWLOG L) n) -> room B (VALID (KERNEL_LWLOG L)) ->
  w (LOGS (KERNEL_LWLOG L) n) = h -> w (VALID (KERNEL_LWLOG L)) = LWLOG_VALID ->
  wp False (_lwlog_write_internal hw n p1 p2 p3 p4 p5 p6 p7) L (fun r L' =>
    let '(r', a') := awrite (stamp (CLOCK L) hw) [p1; p2; p3; p4; p5; p6; p7] a in
    r = r' /\ touched L B w h (log_bytes a) L' a').
Proof.
  intros Hh Hr Ha Rl Rv Hl Hv. pose proof Ha as [H1 H2 H3 H4 H5 H6 H7 H8 H9 H10 H11 H12 H13 H14 H15].
  destruct (header_room _ _ _ _ Hr H1) as (R0 & R1 & R2 & R3 & R4 & R5 & R6 & R7 & R8).
  destruct (region_bound _ _ _ _ _ Hh Hr) as (Hh0 & Hh4 & Hbound). unfold log_bytes, sizeof_ENTRY in Hbound.
  set (N := a_max a) in *. set (m := zlen (a_entries a)) in *.
  assert (forall k i, 0 <= k < N -> 0 <= i <= 44 -> i mod 4 = 0 -> room B (slot h k + i)) as Rs
    by (intros k i ? ? ?; by eapply slot_room).
  unfold _lwlog_write_internal. apply wp_gets. wget. rewrite Hl. wget. rewrite Hv, Z.eqb_refl. cbn [negb].
  rewrite (proj2 (Z.eqb_neq h NULL)) by (unfold NULL; lia).
  wget. change LWLOG_ENABLED with (2 ^ 12). rewrite land_pow2 by lia. rewrite H7.
  destruct (a_enabled a) eqn:Hen; cbn [negb].
  2:{ apply wp_ret. unfold awrite. rewrite Hen. cbn [negb]. split; [done|]. by apply touched_same with o. }
  wget. rewrite H12.
  eapply wp_get; [eassumption|apply Rs; [apply pos_range; lia|lia|done]|].
  rewrite (ra_links _ _ _ _ _ H15) by (apply pos_range; lia). rewrite pos_pos by lia. replace (m - 1 + 1) with m by lia.
  apply wp_bind. eapply wp_mono; [|by apply take_slot_run].
  intros ok L1. cbn beta. destruct (a_full a && negb (a_overwrite a)) eqn:Hf.
  { intros [-> ->]. cbn [negb]. apply wp_ret. apply andb_prop in Hf as [Hf Hov]. apply negb_true_iff in Hov.
    unfold awrite. rewrite Hen, Hf, Hov. cbn [negb]. split; [done|]. by apply touched_same with o. }
  intros (-> & st1 & w1 & o' & -> & Hst1 & Ho' & Ht & Hk & Hring & Hmv & Hmvr & Hc1 & Hr1 & Hol1 & Hout1). cbn [negb].
  rewrite awrite_ok; [|done|intros Hfull; rewrite Hfull in Hf; by destruct (a_overwrite a)].
  fold N in Hk, Ht, Hring, Hr1, Ho'. fold m in Ht. set (e := slot h (pos N o m)) in *. clearbody e.
  set (q := pos N o' (zlen (kept a))) in *. assert (0 <= q < N) as Hq by (apply pos_range; lia).
  assert (forall a0 i, a0 = e + i -> 0 <= i <= 44 -> i mod 4 = 0 -> room B a0) as Re
    by (intros a0 i -> ? ?; rewrite Ht; by apply Rs).
  assert (h + 36 <= e /\ e + 48 <= h + (36 + 48 * N)) as He by (rewrite Ht; addr; lia).
  apply wp_gets. cbn [CLOCK set_HEAP]. set (ts := stamp (CLOCK L) hw).
  destruct (put_words_run (set_HEAP st1 L) B w1 (TIMESTAMP e) (stamp_words ts) Hst1)
    as (st2 & w2 & R2' & Hst2 & Hw2 & Ho2).
  { intros i Hi. apply (Re _ (4 + 4 * i)); [unfold TIMESTAMP; lia|cbn in Hi; lia|zdm]. }
  eapply wp_run; [exact R2'|]. cbn [length stamp_words] in Ho2.
  assert (forall b, b <> CURRENT_ENTRIES h -> b <> READ_PTR h -> b <> OLDEST_PTR h -> b < e + 4 \/ e + 16 <= b ->
    w2 b = w b) as Hout2.
  { intros b ? ? ? ?. rewrite Ho2 by (addr; lia). by apply Hout1. }
  wget. rewrite Hout2 by (addr; lia). rewrite H8. wput.
  eapply wp_put; [eassumption|apply (Re _ 0); [unfold SEQUENCE_NUMBER; lia|lia|done]|]. intros st4 Hst4. cbn beta.
  destruct (put_words_run (set_HEAP st4 (set_HEAP st (set_HEAP st2 (set_HEAP st1 L)))) B _ (DATA e)
    [p1; p2; p3; p4; p5; p6; p7] Hst4) as (st5 & w5 & R5' & Hst5 & Hw5 & Ho5).
  { intros i Hi. apply (Re _ (16 + 4 * i)); [unfold DATA; lia|cbn in Hi; lia|zdm]. }
  eapply wp_run; [exact R5'|]. cbn [length] in Ho5.
  wput. apply wp_ret. split; [done|].
  assert (forall b, b <> NUMBER h -> b < e \/ e + 44 <= b -> w5 b = w2 b) as Hout5.
  { intros b Hb Hbe. rewrite Ho5 by (addr; lia). rewrite !upd_ne by first [done | addr; lia]. done. }
  assert (w5 (NUMBER h) = w32 (a_number a + 1)) as Hnum5.
  { rewrite Ho5 by (addr; lia). rewrite upd_ne by (addr; lia). apply upd_eq. }
  assert (forall b, b < e \/ e + 44 <= b -> b <> NUMBER h -> b <> WRITE_PTR h -> b <> CURRENT_ENTRIES h ->
    b <> READ_PTR h -> b <> OLDEST_PTR h -> upd (WRITE_PTR h) e w5 b = w b) as Hfin.
  { intros b ? ? ? ? ? ?. rewrite upd_ne by done. rewrite Hout5 by done. apply Hout2; (done || lia). }
  eexists _, _, o'. split_and!; [reflexivity|eassumption| | |].
  - intros b Hb. unfold log_bytes, sizeof_ENTRY in Hb. fold N in Hb. apply Hfin; addr; lia.
  - apply Hfin; addr; lia.
  - assert (forall b, h <= b < h + 36 -> b <> NUMBER h -> b <> WRITE_PTR h -> upd (WRITE_PTR h) e w5 b = w1 b) as Hhd.
    { intros b ? ? ?. rewrite upd_ne by done. rewrite Hout5 by lia. apply Ho2. addr. lia. }
    assert (zlen (kept a ++ [Entry (a_number a) ts [p1; p2; p3; p4; p5; p6; p7]]) = zlen (kept a) + 1) as Hlen by zlia.
    split; cbn [a_max a_entries a_next a_reads a_overwrite a_enabled a_number with_entries]; rewrite ?Hlen; fold N;
      try done; try lia.
    + by rewrite Hfin by (addr; lia).
    + rewrite Hfin by (addr; lia). congruence.
    + by rewrite upd_ne by (addr; lia).
    + by rewrite Hhd by (addr; lia).
    + by rewrite Hfin by (addr; lia).
    + by rewrite Hfin by (addr; lia).
    + rewrite upd_eq, Ht. do 2 f_equal. unfold q. f_equal. lia.
    + by rewrite Hhd by (addr; lia).
    + by rewrite Hhd by (addr; lia).
    + apply (ring_write w); [done|done|done| |done|].
      * intros b Hb Hb'. fold q in Hb. rewrite <-Ht in Hb. apply Hfin; unfold NEXT_PTR in *; revert Hb'; addr; lia.
      * fold q. rewrite <-Ht. cbn [entry_words SEQUENCE STAMP PARAMS]. split; [|apply words_at_app; split].
        -- rewrite upd_ne by (addr; lia). rewrite Ho5 by (addr; lia). apply upd_eq.
        -- eapply words_at_ext; [|exact Hw2]. intros i Hi. cbn in Hi.
           rewrite upd_ne by (addr; lia). rewrite Ho5 by (addr; lia). by rewrite !upd_ne by (addr; lia).
        -- cbn [stamp_words length]. replace (e + 4 + 4 * Z.of_nat 3) with (DATA e) by (unfold DATA; lia).
           eapply words_at_ext; [|exact Hw5]. intros i Hi. cbn in Hi. apply upd_ne. addr. lia.
Qed.

Lemma reset_run L B w h o a : heap_is (HEAP L) B w -> log_region w B h a -> log_at w h o a ->
  wp False (reset_log h) L
    (fun _ L' => touched L B w h (log_bytes a) L' (areset a)).
Proof.
  intros Hh Hr Ha. pose proof Ha as [H1 H2 H3 H4 H5 H6 H7 H8 H9 H10 H11 H12 H13 H14 H15].
  destruct (header_room _ _ _ _ Hr H1) as (R0 & R1 & R2 & R3 & R4 & R5 & R6 & R7 & R8).
  destruct (region_bound _ _ _ _ _ Hh Hr) as (Hh0 & Hh4 & Hbound). unfold log_bytes, sizeof_ENTRY in Hbound.
  unfold reset_log. wput. wput. wput. wget. wlook. rewrite H10. rewrite (wrap_small 32 (a_max a - 1)) by lia.
  rewrite wrap_small by (addr; lia). wput. wput. eapply wp_put_end; [eassumption|wroom|]. intros st5 Hst5.
  eexists _, _, 0. split_and!; [reflexivity|eassumption|only_step|by wlook|].
  split; cbn; wlook; try done; try lia.
  - unfold pos. rewrite <-(Z.mod_unique (0 + (Z.of_nat 0 - 1)) (a_max a) (-1) (a_max a - 1)) by lia. addr. lia.
  - rewrite pos_0 by lia. addr. lia.
  - addr. lia.
  - eapply ring_at_ext; [lia|ring_ext|]. by split; [apply H15|constructor|].
Qed.

Lemma flags_run L B w h o a f' b : heap_is (HEAP L) B w -> log_region w B h a -> log_at w h o a ->
  Z.testbit f' 0 = a_overwrite a -> Z.testbit f' 12 = b ->
  wp False (put (FLAGS h) f') L (fun _ L' => touched L B w h (log_bytes a) L' (with_enabled b a)).
Proof.
  intros Hh Hr Ha Hb0 Hb12. pose proof Ha as [H1 H2 H3 H4 H5 H6 H7 H8 H9 H10 H11 H12 H13 H14 H15].
  destruct (header_room _ _ _ _ Hr H1) as (R0 & _).
  eapply wp_put_end; [eassumption|wroom|]. intros st5 Hst5.
  eexists _, _, o. split_and!; [reflexivity|eassumption|only_step|by wlook|].
  split; cbn; wlook; try done; try lia. eapply ring_at_ext; [lia|ring_ext|done].
Qed.

(** *** A new header *)

Lemma link_entries_run L B w n e : heap_is (HEAP L) B w ->
  (forall i, 0 <= i < Z.of_nat n -> room B (e + 48 * i + 44)) ->
  exists st w', link_entries n e L = Some (e + 48 * Z.of_nat n, set_HEAP st L) /\ heap_is st B w' /\
    (forall i, 0 <= i < Z.of_nat n -> w' (e + 48 * i + 44) = e + 48 * (i + 1)) /\
    (forall b, (forall i, 0 <= i < Z.of_nat n -> b <> e + 48 * i + 44) -> w' b = w b).
Proof.
  revert L w e. induction n as [|n IH]; intros L w e Hh Hr.
  - exists (HEAP L), w. split_and!; [|done|lia|done]. cbn [link_entries].
    replace (e + 48 * Z.of_nat 0) with e by lia. by destruct L.
  - cbn [link_entries]. pose proof (Hr 0 ltac:(lia)) as Ha. replace (e + 48 * 0 + 44) with (NEXT_PTR e) in Ha by (unfold NEXT_PTR; lia).
    destruct (heap_store _ _ _ (NEXT_PTR e) (e + sizeof_ENTRY) Hh Ha) as (st1 & R1 & H1).
    rewrite (bind_run _ _ _ _ _ (zoom_run _ _ _ _ R1)). unfold sizeof_ENTRY in *.
    destruct (IH (set_HEAP st1 L) _ (e + 48) H1) as (st & w' & R & Hst & Hl & Ho).
    { intros i Hi. replace (e + 48 + 48 * i + 44) with (e + 48 * (i + 1) + 44) by lia. apply Hr. lia. }
    exists st, w'. split_and!; [|done| |].
    + rewrite R. do 2 f_equal. lia.
    + intros i Hi. destruct (Z.eq_dec i 0) as [->|].
      * rewrite Ho by lia. unfold NEXT_PTR. replace (e + 48 * 0 + 44) with (e + 44) by lia. rewrite upd_eq. lia.
      * replace (e + 48 * i + 44) with (e + 48 + 48 * (i - 1) + 44) by lia. rewrite Hl by lia. lia.
    + intros b Hb. rewrite Ho.
      * apply upd_ne. unfold NEXT_PTR. pose proof (Hb 0 ltac:(lia)). lia.
      * intros i Hi. pose proof (Hb (i + 1) ltac:(lia)). lia.
Qed.

Lemma init_header_run L B w h g max_size flags at_ : heap_is (HEAP L) B w -> B !! h = Some g ->
  36 + 48 * max_size <= bytes g -> 1 <= max_size ->
  wp False (init_header max_size flags h) L (fun _ L' => exists st w', L' = set_HEAP st L /\
    heap_is st B w' /\ only h (36 + 48 * max_size) w w' /\ log_at w' h 0 (new_log at_ max_size flags)).
Proof.
  intros Hh Hg Hsz Hmax. destruct (owns_region _ _ _ _ (hi_owns _ _ _ Hh) Hg) as (Hh0 & _ & _ & Hbound).
  assert (forall a0 i, a0 = h + i -> 0 <= i -> i + 4 <= 36 + 48 * max_size -> i mod 4 = 0 -> room B a0) as Rh
    by (intros a0 i -> ? ? ?; eapply room_in; [exact Hg|done|lia|done]).
  assert (room B (FLAGS h)) by (apply (Rh _ 0); (reflexivity || unfold FLAGS; lia)).
  assert (room B (NUMBER h)) by (apply (Rh _ 4); (reflexivity || lia)).
  assert (room B (MAX_ENTRIES h)) by (apply (Rh _ 12); (reflexivity || lia)).
  assert (room B (WRITE_PTR h)) by (apply (Rh _ 24); (reflexivity || lia)).
  assert (room B (READ_PTR h)) by (apply (Rh _ 28); (reflexivity || lia)).
  assert (room B (OLDEST_PTR h)) by (apply (Rh _ 32); (reflexivity || lia)).
  unfold init_header, _mem_zero. change (Z.to_nat (sizeof_HEADER / 4)) with 21%nat.
  destruct (zero_words_heap 21 _ B w h Hh) as (st1 & R1 & Hst1).
  { intros i Hi. apply (Rh _ (4 * i)); [lia|lia|lia|zdm]. }
  eapply wp_run; [by apply zoom_run|]. set (w1 := zeroed h 21 w) in *.
  wput. wget. rewrite upd_eq. wput. wput. wput. wput. wput.
  rewrite (wrap_small 32 (max_size - 1)) by lia.
  match goal with |- wp _ _ ?L5 _ =>
    destruct (link_entries_run L5 B _ (Z.to_nat (max_size - 1)) (FIRST_ENTRY h) Hst5) as (st6 & w6 & R6 & Hst6 & Hl6 & Ho6)
  end.
  { intros i Hi. apply (Rh _ (36 + 48 * i + 44)); [unfold FIRST_ENTRY; lia|lia|lia|zdm]. }
  rewrite Z2Nat.id in * by lia. unfold FIRST_ENTRY in Ho6, Hl6.
  eapply wp_run; [exact R6|]. set (last_ := FIRST_ENTRY h + 48 * (max_size - 1)).
  assert (last_ = h + 36 + 48 * (max_size - 1)) as Hlast by done.
  assert (forall b, b < h + 36 -> w6 b = upd (OLDEST_PTR h) (h + 36) (upd (READ_PTR h) (h + 36)
    (upd (MAX_ENTRIES h) max_size (upd (NUMBER h) 1 (upd (FLAGS h) (Z.lor flags LWLOG_ENABLED)
    (upd (FLAGS h) flags w1))))) b) as Hhd by (intros b Hb; rewrite Ho6; [done|lia]).
  wput. wget. rewrite upd_ne by (addr; lia). rewrite Hhd by (addr; lia). rewrite upd_ne by (addr; lia). rewrite upd_eq.
  eapply wp_put_end; [eassumption|apply (Rh _ (36 + 48 * (max_size - 1) + 44)); [unfold NEXT_PTR; lia|lia|lia|zdm]|].
  intros st8 Hst8. eexists _, _. split_and!; [reflexivity|exact Hst8| |].
  - intros b Hb. rewrite !upd_ne by (addr; lia). rewrite Ho6 by lia. rewrite !upd_ne by (addr; lia).
    apply zeroed_out. lia.
  - assert (forall b, h <= b < h + 36 -> b <> WRITE_PTR h ->
      upd (NEXT_PTR last_) (h + 36) (upd (WRITE_PTR h) last_ w6) b = upd (OLDEST_PTR h) (h + 36) (upd (READ_PTR h) (h + 36)
      (upd (MAX_ENTRIES h) max_size (upd (NUMBER h) 1 (upd (FLAGS h) (Z.lor flags LWLOG_ENABLED)
      (upd (FLAGS h) flags w1))))) b) as Hhdr.
    { intros b Hb Hbw. rewrite upd_ne by (addr; lia). rewrite upd_ne by done. apply Hhd. lia. }
    assert (Z.testbit (Z.lor flags LWLOG_ENABLED) 0 = Z.testbit flags 0 /\ Z.testbit (Z.lor flags LWLOG_ENABLED) 12 = true) as [Hb0 Hb12].
    { rewrite !Z.lor_spec. change (Z.testbit LWLOG_ENABLED 0) with false. change (Z.testbit LWLOG_ENABLED 12) with true.
      by rewrite orb_false_r, orb_true_r. }
    assert (forall i, 0 <= i < 84 -> i mod 4 = 0 -> w1 (h + i) = 0) as Hz by (intros i Hi Hi4; apply zeroed_in; [lia|done]).
    split; cbn [a_max a_entries a_next a_reads a_overwrite a_enabled a_number new_log length Z.of_nat]; try lia.
    + rewrite Hhdr by (addr; lia). wlook. done.
    + rewrite Hhdr by (addr; lia). wlook. done.
    + rewrite Hhdr by (addr; lia). by wlook.
    + rewrite Hhdr by (addr; lia). wlook. by apply Hz.
    + rewrite Hhdr by (addr; lia). by wlook.
    + rewrite Hhdr by (addr; lia). wlook. by apply Hz.
    + rewrite upd_ne by (addr; lia). rewrite upd_eq. unfold pos.
      rewrite <-(Z.mod_unique (0 + (Z.of_nat 0 - 1)) max_size (-1) (max_size - 1)) by lia. done.
    + rewrite Hhdr by (addr; lia). wlook. rewrite pos_0 by lia. addr. lia.
    + rewrite Hhdr by (addr; lia). wlook. addr. lia.
    + split; [|constructor|done]. intros i Hi. destruct (Z.eq_dec i (max_size - 1)) as [->|Hne].
      * replace (NEXT_PTR (slot h (max_size - 1))) with (NEXT_PTR last_) by (unfold last_; addr; lia).
        rewrite upd_eq. unfold pos. replace (max_size - 1 + 1) with max_size by lia. rewrite Z.mod_same by lia. addr. lia.
      * rewrite !upd_ne by (addr; lia). replace (NEXT_PTR (slot h i)) with (h + 36 + 48 * i + 44) by (addr; lia).
        rewrite Hl6 by lia. unfold pos. rewrite Z.mod_small by lia. addr. lia.
Qed.

(** ** The invariant under writes *)

Lemma log_region_some w (B : regions) h a : log_region w B h a -> exists g, B !! h = Some g /\ log_bytes a <= bytes g.
Proof.
  unfold log_region. destruct (a_at a) as [q|]; [intros (_ & _ & z & Hr & Hz)|intros [_ Hr]]; eexists; by split.
Qed.

Lemma only_apart s (B : regions) w w' r g n h x i : heap_is s B w -> B !! r = Some g -> n <= bytes g -> only r n w w' ->
  B !! h = Some x -> h <> r -> 0 <= i < bytes x -> w' (h + i) = w (h + i).
Proof.
  intros Hh Hr Hn Ho Hx Hne Hi. apply Ho. destruct (owns_apart _ _ _ _ _ _ (hi_owns _ _ _ Hh) Hr Hx); [done|lia|lia].
Qed.

Lemma other_log s (B : regions) w w' r g n h o a : heap_is s B w -> B !! r = Some g -> n <= bytes g -> only r n w w' ->
  h <> r -> 1 <= a_max a -> log_region w B h a -> log_at w h o a -> log_region w' B h a /\ log_at w' h o a.
Proof.
  intros Hh Hr Hn Ho Hne Hm Hreg Ha. destruct (log_region_some _ _ _ _ Hreg) as (x & Hx & Hb).
  assert (forall i, 0 <= i < log_bytes a -> w' (h + i) = w (h + i)) as Hw
    by (intros i Hi; eapply only_apart; [exact Hh|exact Hr|done..|lia]).
  split; [|eapply log_at_ext; [|done]; intros i Hi _ _; by apply Hw].
  unfold log_region, TYPE in *. by rewrite Hw by (unfold log_bytes, sizeof_ENTRY; lia).
Qed.

Section sound.
Context {UA : gmap Z Z} {level : Z}.

Lemma sound_ready L s B w at_ n h : sound UA level L s B w at_ -> at_ !! n = Some h -> s_ready s = true.
Proof.
  intros S Hn. destruct (s_ready s) eqn:E; [done|]. destruct (so_none _ _ _ _ _ _ _ S E) as [_ Hl].
  destruct (proj1 (so_at _ _ _ _ _ _ _ S n)) as [a Ha]; [by exists h|]. by rewrite Hl in Ha.
Qed.

Lemma component_kept L s B w at_ st w' r g n : sound UA level L s B w at_ -> heap_is st B w' ->
  B !! r = Some g -> n <= bytes g -> only r n w w' -> (s_ready s = true -> r <> KERNEL_LWLOG L) ->
  s_ready s = true -> forall i, 0 <= i < sizeof_COMPONENT -> w' (KERNEL_LWLOG L + i) = w (KERNEL_LWLOG L + i).
Proof.
  intros S Hst Hr Hn Ho Hc Hready i Hi. destruct (so_component _ _ _ _ _ _ _ S Hready) as (Hb & _ & _).
  eapply only_apart; [apply S|exact Hr|done..| |done]. by apply not_eq_sym, Hc.
Qed.

(** The log at [h] becomes [a']. *)
Lemma sound_update_words L s B w at_ n a h st w' o' a' : sound UA level L s B w at_ -> s_logs s !! n = Some a ->
  at_ !! n = Some h -> heap_is st B w' -> only h (log_bytes a) w w' -> w' (TYPE h) = w (TYPE h) ->
  log_at w' h o' a' -> a_at a' = a_at a -> a_max a' = a_max a ->
  sound UA level (set_HEAP st L) (set_logs (<[n := a']>) s) B w' at_.
Proof.
  intros S Hn Hat Hst Ho Ht Ha' Ea Em.
  destruct (so_log _ _ _ _ _ _ _ S n a h Hn Hat) as (Hn16 & Hc & Hreg & o & Ha).
  destruct (log_region_some _ _ _ _ Hreg) as (g & Hg & Hb).
  pose proof (component_kept _ _ _ _ _ _ _ _ _ _ S Hst Hg Hb Ho (fun _ => Hc)) as Hck.
  destruct S as [S1 S2 S3 S4 S5 S6 S7 S8 S9 S10]. split; try done.
  - intros E. destruct (S6 E) as [_ Hl]. by rewrite Hl in Hn.
  - intros E. destruct (S7 E) as (C1 & C2 & C3). split_and!; [done| |].
    + unfold VALID in *. rewrite <-C2. specialize (Hck E 0 ltac:(unfold sizeof_COMPONENT; lia)).
      by rewrite Z.add_0_r in Hck.
    + intros k Hk. rewrite <-(C3 k Hk). unfold LOGS, LOG_MAXIMUM_NUMBER in *.
      rewrite <-!Z.add_assoc. apply Hck; [done|unfold sizeof_COMPONENT; lia].
  - intros k. cbn [s_logs set_logs]. rewrite S8. destruct (Z.eq_dec n k) as [<-|].
    + rewrite lookup_insert_eq, Hn. by split; intros _; eexists.
    + by rewrite lookup_insert_ne.
  - intros k x hk Hk Hatk. cbn [s_logs set_logs] in Hk.
    apply lookup_insert_Some in Hk as [[<- <-]|[Hne Hk]].
    + simplify_eq. split; [done|]. split; [done|]. split; [|by exists o'].
      unfold log_region, log_bytes in *. rewrite Ea, Em, Ht. done.
    + destruct (S10 k x hk Hk Hatk) as (K1 & K2 & K3 & ok & K4). split; [done|]. split; [done|].
      destruct (other_log _ B w w' h g (log_bytes a) hk ok x S1 Hg Hb Ho) as [? ?]; [|apply K4|done|done|eauto].
      intros ->. by apply Hne, (S9 n k h).
Qed.

Lemma sound_update L s B w at_ n a h L' a' : sound UA level L s B w at_ -> s_logs s !! n = Some a ->
  at_ !! n = Some h -> touched L B w h (log_bytes a) L' a' -> a_at a' = a_at a -> a_max a' = a_max a ->
  exists w', sound UA level L' (set_logs (<[n := a']>) s) B w' at_.
Proof.
  intros S Hn Hat (st & w' & o' & -> & Hst & Ho & Ht & Ha') Ea Em. exists w'. by eapply sound_update_words.
Qed.

(** Memory of the application that holds no log is written. *)
Lemma sound_write L s B w at_ st w' r z n : sound UA level L s B w at_ -> heap_is st B w' ->
  UA !! r = Some z -> n <= z -> only r n w w' -> (forall k h, at_ !! k = Some h -> h <> r) ->
  sound UA level (set_HEAP st L) s B w' at_.
Proof.
  intros S Hst Hr Hn Ho Hno. pose proof (so_user _ _ _ _ _ _ _ S _ _ Hr) as Hg.
  assert (s_ready s = true -> r <> KERNEL_LWLOG L) as Hrc.
  { intros E ->. destruct (so_component _ _ _ _ _ _ _ S E) as (Hc & _). by simplify_eq. }
  pose proof (component_kept _ _ _ _ _ _ _ _ _ n S Hst Hg Hn Ho Hrc) as Hck.
  destruct S as [S1 S2 S3 S4 S5 S6 S7 S8 S9 S10]. split; try done.
  - intros E. destruct (S7 E) as (C1 & C2 & C3). split_and!; [done| |].
    + unfold VALID in *. rewrite <-C2. specialize (Hck E 0 ltac:(unfold sizeof_COMPONENT; lia)).
      by rewrite Z.add_0_r in Hck.
    + intros k Hk. rewrite <-(C3 k Hk). unfold LOGS, LOG_MAXIMUM_NUMBER in *.
      rewrite <-!Z.add_assoc. apply Hck; [done|unfold sizeof_COMPONENT; lia].
  - intros k x hk Hk Hatk. destruct (S10 k x hk Hk Hatk) as (K1 & K2 & K3 & ok & K4). split; [done|]. split; [done|].
    destruct (other_log _ B w w' r _ n hk ok x S1 Hg Hn Ho) as [? ?]; [by eapply Hno|apply K4|done|done|eauto].
Qed.

(** The component of a sound state. *)
Lemma sound_component L s B w at_ n : sound UA level L s B w at_ -> s_ready s = true -> 0 <= n < LOG_MAXIMUM_NUMBER ->
  room B (VALID (KERNEL_LWLOG L)) /\ room B (LOGS (KERNEL_LWLOG L) n) /\ 0 < KERNEL_LWLOG L /\
  w (VALID (KERNEL_LWLOG L)) = LWLOG_VALID /\ w (LOGS (KERNEL_LWLOG L) n) = default NULL (at_ !! n).
Proof.
  intros S E Hn. destruct (so_component _ _ _ _ _ _ _ S E) as (C1 & C2 & C3).
  destruct (owns_region _ _ _ _ (hi_owns _ _ _ (so_heap _ _ _ _ _ _ _ S)) C1) as (Hpos & _).
  unfold LOG_MAXIMUM_NUMBER in *. split_and!; [| |done|done|by apply C3].
  - unfold VALID. replace (KERNEL_LWLOG L) with (KERNEL_LWLOG L + 0) by lia. eapply room_in; done.
  - unfold LOGS. replace (KERNEL_LWLOG L + 4 + 4 * n) with (KERNEL_LWLOG L + (4 + 4 * n)) by lia.
    eapply room_in; [done|lia|cbn [bytes]; unfold sizeof_COMPONENT; lia|zdm].
Qed.

Lemma sound_at L s B w at_ n h : sound UA level L s B w at_ -> at_ !! n = Some h ->
  exists a o, s_logs s !! n = Some a /\ 0 < h /\ h + log_bytes a < 2 ^ 32 /\ h <> KERNEL_LWLOG L /\
    log_region w B h a /\ log_at w h o a.
Proof.
  intros S Hat. destruct (proj1 (so_at _ _ _ _ _ _ _ S n)) as [a Ha]; [by exists h|].
  destruct (so_log _ _ _ _ _ _ _ S _ _ _ Ha Hat) as (_ & Hc & Hr & o & Hl).
  destruct (region_bound _ _ _ _ _ (so_heap _ _ _ _ _ _ _ S) Hr) as (? & _ & ?). eauto 10.
Qed.

Definition mask (L : lw) : lw := set_LEVEL (fun n => n + 1) L.

Lemma unmask L st : 0 <= DISABLED_LEVEL L ->
  set_LEVEL (fun n => if n =? 0 then 0 else n - 1) (set_HEAP st (mask L)) = set_HEAP st L.
Proof.
  intros Hl. destruct L as [a b c d e]. cbn in *. unfold set_LEVEL, set_HEAP, mask. cbn. f_equal.
  rewrite (proj2 (Z.eqb_neq _ _)) by lia. lia.
Qed.

Lemma unmask_same L : 0 <= DISABLED_LEVEL L -> set_LEVEL (fun n => if n =? 0 then 0 else n - 1) (mask L) = L.
Proof.
  intros Hl. pose proof (unmask L (HEAP L) Hl) as E. by destruct L.
Qed.

(** What the operations on a log find before they do their work. *)
Record found (L : lw) (s : spec) (B : regions) (w : Z -> Z) (at_ : gmap Z Z) (n h o : Z) (a : alog) : Prop := {
  fd_ready : s_ready s = true;
  fd_n : 0 <= n < LOG_MAXIMUM_NUMBER;
  fd_log : s_logs s !! n = Some a;
  fd_at : at_ !! n = Some h;
  fd_h : 0 < h;
  fd_c : 0 < KERNEL_LWLOG L;
  fd_region : log_region w B h a;
  fd_log_at : log_at w h o a;
  fd_valid_room : room B (VALID (KERNEL_LWLOG L));
  fd_logs_room : room B (LOGS (KERNEL_LWLOG L) n);
  fd_valid : w (VALID (KERNEL_LWLOG L)) = LWLOG_VALID;
  fd_logs : w (LOGS (KERNEL_LWLOG L) n) = h
}.

(** The four cases of an operation on a log. *)
Lemma sound_cases L s B w at_ n : sound UA level L s B w at_ -> 0 <= n ->
  LOG_MAXIMUM_NUMBER <= n \/
  n < LOG_MAXIMUM_NUMBER /\ s_ready s = false /\ KERNEL_LWLOG L = 0 \/
  n < LOG_MAXIMUM_NUMBER /\ s_ready s = true /\ s_logs s !! n = None /\ 0 < KERNEL_LWLOG L /\
    room B (VALID (KERNEL_LWLOG L)) /\ room B (LOGS (KERNEL_LWLOG L) n) /\
    w (VALID (KERNEL_LWLOG L)) = LWLOG_VALID /\ w (LOGS (KERNEL_LWLOG L) n) = NULL \/
  exists h o a, found L s B w at_ n h o a.
Proof.
  intros S Hn. destruct (Z.le_gt_cases LOG_MAXIMUM_NUMBER n) as [?|Hn']; [by left|right].
  destruct (s_ready s) eqn:E; [right|left; split; [done|]; split; [done|]; by destruct (so_none _ _ _ _ _ _ _ S E)].
  destruct (sound_component _ _ _ _ _ n S E ltac:(lia)) as (R1 & R2 & Hc & Hv & Hl).
  destruct (at_ !! n) as [h|] eqn:Hat.
  - right. destruct (sound_at _ _ _ _ _ _ _ S Hat) as (a & o & Ha & Hh & _ & Hhc & Hr & Ho).
    exists h, o, a. by split.
  - left. split_and!; try done. destruct (s_logs s !! n) eqn:Ha; [|done].
    destruct (proj2 (so_at _ _ _ _ _ _ _ S n)) as [x Hx]; [by eexists|]. congruence.
Qed.

Lemma on_log_found L s B w at_ n h o a k : found L s B w at_ n h o a ->
  on_log n s k = let (r, a') := k a in (r, set_logs (<[n := a']>) s).
Proof.
  intros F. unfold on_log. rewrite (proj2 (Z.leb_gt _ _)) by apply F. rewrite (fd_ready _ _ _ _ _ _ _ _ _ F).
  by rewrite (fd_log _ _ _ _ _ _ _ _ _ F).
Qed.

Lemma with_log_wp L s B w at_ n k P : sound UA level L s B w at_ -> 0 <= level -> 0 <= n ->
  (forall r, on_log n s (fun a => (MQX_OK, a)) = (r, s) -> r <> MQX_OK ->
     (forall ak, on_log n s ak = (r, s)) -> P r L) ->
  (forall h o a, found L s B w at_ n h o a -> wp False (k (KERNEL_LWLOG L) h) (mask L) P) ->
  wp False (with_log n k) L P.
Proof.
  intros S Hlv Hn Herr Hk. unfold with_log. pose proof (so_level _ _ _ _ _ _ _ S) as El.
  destruct (sound_cases L s B w at_ n S Hn) as [Hge|[(Hlt & E & Hc)|[(Hlt & E & Ha & Hc & R1 & R2 & Hv & Hl)|(h & o & a & F)]]].
  - rewrite (proj2 (Z.leb_le _ _)) by done. apply wp_ret. apply Herr; [|done|]; intros; unfold on_log;
      by rewrite (proj2 (Z.leb_le _ _)).
  - rewrite (proj2 (Z.leb_gt _ _)) by done. apply wp_gets. rewrite Hc. apply wp_ret.
    apply Herr; [|done|]; intros; unfold on_log; rewrite (proj2 (Z.leb_gt _ _)) by done; by rewrite E.
  - rewrite (proj2 (Z.leb_gt _ _)) by done. apply wp_gets. rewrite (proj2 (Z.eqb_neq _ _)) by (unfold NULL; lia).
    eapply wp_get; [apply S|done|]. rewrite Hv, Z.eqb_refl. cbn [negb]. apply wp_modify.
    eapply wp_get; [apply S|done|]. rewrite Hl, Z.eqb_refl. apply wp_modify. apply wp_ret.
    fold (mask L). rewrite unmask_same by lia.
    apply Herr; [|done|]; intros; unfold on_log; rewrite (proj2 (Z.leb_gt _ _)) by done; by rewrite E, Ha.
  - pose proof F as [E Hn' _ _ Hh Hc _ _ R1 R2 Hv Hl].
    rewrite (proj2 (Z.leb_gt _ _)) by lia. apply wp_gets. rewrite (proj2 (Z.eqb_neq _ _)) by (unfold NULL; lia).
    eapply wp_get; [apply S|done|]. rewrite Hv, Z.eqb_refl. cbn [negb]. apply wp_modify.
    eapply wp_get; [apply S|done|]. rewrite Hl, (proj2 (Z.eqb_neq _ _)) by (unfold NULL; lia).
    by apply (Hk h o a).
Qed.

(** The code and the state are those of the specification. *)
Definition outcome (r : Z) (L' : lw) (x : Z * spec) : Prop := r = x.1 /\ inv UA level L' x.2.

Lemma outcome_same L s B w at_ r x : sound UA level L s B w at_ -> 0 <= level -> x = (r, s) -> outcome r L x.
Proof. intros S Hl ->. split; [done|]. split; [done|]. by exists B, w, at_. Qed.

Lemma outcome_touched L s B w at_ n h o a r a' L' k : sound UA level L s B w at_ -> 0 <= level ->
  found L s B w at_ n h o a -> k a = (r, a') -> a_at a' = a_at a -> a_max a' = a_max a ->
  touched L B w h (log_bytes a) L' a' -> outcome r L' (on_log n s k).
Proof.
  intros S Hl F Hk Ea Em Ht. rewrite (on_log_found _ _ _ _ _ _ _ _ _ _ F), Hk. split; [done|]. split; [done|].
  destruct (sound_update _ _ _ _ _ _ _ _ _ _ S (fd_log _ _ _ _ _ _ _ _ _ F) (fd_at _ _ _ _ _ _ _ _ _ F) Ht Ea Em)
    as [w' S']. by exists B, w', at_.
Qed.

(** A state touched under the mask, with the mask taken off. *)
Lemma touched_unmask L B w h n L1 a' : touched (mask L) B w h n L1 a' -> 0 <= DISABLED_LEVEL L ->
  touched L B w h n (set_LEVEL (fun n => if n =? 0 then 0 else n - 1) L1) a'.
Proof.
  intros (st & w' & o' & -> & ?) Hl. exists st, w', o'. split; [by apply unmask|done].
Qed.

Lemma flags_handler L s B w at_ n b (g : Z -> Z) : sound UA level L s B w at_ -> 0 <= level -> 0 <= n ->
  (forall f, Z.testbit (g f) 0 = Z.testbit f 0) -> (forall f, Z.testbit (g f) 12 = b) ->
  wp False (with_log n (fun _ h => f ← get (FLAGS h); put (FLAGS h) (g f);; _int_enable;; mret MQX_OK)) L
    (fun r L' => outcome r L' (on_log n s (fun a => (MQX_OK, with_enabled b a)))).
Proof.
  intros S Hl Hn H0' H12'. pose proof (so_level _ _ _ _ _ _ _ S) as El. eapply with_log_wp; [done..| |].
  - intros r _ _ Hr. by eapply outcome_same.
  - intros h o a F. pose proof F as [E Hn' Ha Hat Hh Hc Hreg Hla _ _ _ _].
    pose proof (so_heap _ _ _ _ _ _ _ S) as Hheap.
    destruct (header_room _ _ _ _ Hreg (la_max _ _ _ _ Hla)) as (R0 & _).
    eapply wp_get; [exact Hheap|done|]. apply wp_bind.
    eapply wp_mono; [|eapply (flags_run (mask L) B w h o a _ b); try done; rewrite ?H0', ?H12'; (done || apply Hla)].
    intros u L1 Ht. apply wp_modify, wp_ret.
    eapply outcome_touched; [exact S|done|exact F|reflexivity..|apply touched_unmask; [done|lia]].
Qed.

Lemma disable_run L s B w at_ n : sound UA level L s B w at_ -> 0 <= level -> 0 <= n ->
  wp False (_lwlog_disable n) L (fun r L' => outcome r L' (on_log n s (fun a => (MQX_OK, with_enabled false a)))).
Proof.
  intros S Hl Hn. apply flags_handler with B w at_; [done..| |]; intros f; rewrite Z.land_spec, Z.lnot_spec by lia.
  - change (Z.testbit LWLOG_ENABLED 0) with false. by rewrite andb_true_r.
  - change (Z.testbit LWLOG_ENABLED 12) with true. by rewrite andb_false_r.
Qed.

Lemma enable_run L s B w at_ n : sound UA level L s B w at_ -> 0 <= level -> 0 <= n ->
  wp False (_lwlog_enable n) L (fun r L' => outcome r L' (on_log n s (fun a => (MQX_OK, with_enabled true a)))).
Proof.
  intros S Hl Hn. apply flags_handler with B w at_; [done..| |]; intros f; rewrite Z.lor_spec.
  - change (Z.testbit LWLOG_ENABLED 0) with false. by rewrite orb_false_r.
  - change (Z.testbit LWLOG_ENABLED 12) with true. by rewrite orb_true_r.
Qed.

Lemma awrite_same t p a : a_at (awrite t p a).2 = a_at a /\ a_max (awrite t p a).2 = a_max a.
Proof.
  unfold awrite. destruct (a_enabled a); cbn [negb]; [|done]. destruct (a_full a); cbn [negb]; [|done].
  by destruct (a_overwrite a).
Qed.

Lemma lwlog_write_run L s B w at_ n hw p1 p2 p3 p4 p5 p6 p7 : sound UA level L s B w at_ -> 0 <= level -> 0 <= n ->
  wp False (_lwlog_write hw n p1 p2 p3 p4 p5 p6 p7) L (fun r L' =>
    outcome r L' (on_log n s (awrite (stamp (s_clock s) hw) [p1; p2; p3; p4; p5; p6; p7]))).
Proof.
  intros S Hlv Hn. pose proof (so_level _ _ _ _ _ _ _ S) as El. unfold _lwlog_write.
  destruct (sound_cases L s B w at_ n S Hn) as [Hge|[(Hlt & E & Hc)|[(Hlt & E & Ha & Hc & R1 & R2 & Hv & Hl)|(h & o & a & F)]]].
  - rewrite (proj2 (Z.leb_le _ _)) by done. apply wp_ret. eapply outcome_same; [done..|].
    unfold on_log. by rewrite (proj2 (Z.leb_le _ _)).
  - rewrite (proj2 (Z.leb_gt _ _)) by done. apply wp_gets. rewrite Hc. apply wp_ret. eapply outcome_same; [done..|].
    unfold on_log. rewrite (proj2 (Z.leb_gt _ _)) by done. by rewrite E.
  - rewrite (proj2 (Z.leb_gt _ _)) by done. apply wp_gets. rewrite (proj2 (Z.eqb_neq _ _)) by (unfold NULL; lia).
    apply wp_modify, wp_bind. fold (mask L). unfold _lwlog_write_internal. apply wp_gets.
    eapply wp_get; [apply S|done|]. cbn [KERNEL_LWLOG mask set_LEVEL]. rewrite Hl.
    eapply wp_get; [apply S|done|]. rewrite Hv, Z.eqb_refl. cbn [negb]. apply wp_ret, wp_modify, wp_ret.
    rewrite unmask_same by lia. eapply outcome_same; [done..|].
    unfold on_log. rewrite (proj2 (Z.leb_gt _ _)) by done. by rewrite E, Ha.
  - pose proof F as [E Hn' Ha Hat Hh Hc Hreg Hla R1 R2 Hv Hl].
    rewrite (proj2 (Z.leb_gt _ _)) by lia. apply wp_gets. rewrite (proj2 (Z.eqb_neq _ _)) by (unfold NULL; lia).
    apply wp_modify, wp_bind. fold (mask L).
    eapply wp_mono; [|eapply (write_run (mask L)); try done; apply S]. cbn [CLOCK mask set_LEVEL].
    rewrite (so_clock _ _ _ _ _ _ _ S). intros r L1 Hres. apply wp_modify, wp_ret.
    destruct (awrite_same (stamp (s_clock s) hw) [p1; p2; p3; p4; p5; p6; p7] a) as [Ea Em].
    destruct (awrite _ _ a) as [r' a'] eqn:Ew. destruct Hres as [-> Ht].
    eapply outcome_touched; [exact S|done|exact F|exact Ew|done|done|apply touched_unmask; [done|lia]].
Qed.

Lemma lwlog_reset_run L s B w at_ n : sound UA level L s B w at_ -> 0 <= level -> 0 <= n ->
  wp False (_lwlog_reset n) L (fun r L' => outcome r L' (on_log n s (fun a => (MQX_OK, areset a)))).
Proof.
  intros S Hlv Hn. pose proof (so_level _ _ _ _ _ _ _ S) as El. unfold _lwlog_reset.
  destruct (sound_cases L s B w at_ n S Hn) as [Hge|[(Hlt & E & Hc)|[(Hlt & E & Ha & Hc & R1 & R2 & Hv & Hl)|(h & o & a & F)]]].
  - rewrite (proj2 (Z.leb_le _ _)) by done. apply wp_ret. eapply outcome_same; [done..|].
    unfold on_log. by rewrite (proj2 (Z.leb_le _ _)).
  - rewrite (proj2 (Z.leb_gt _ _)) by done. apply wp_gets. rewrite Hc. apply wp_ret. eapply outcome_same; [done..|].
    unfold on_log. rewrite (proj2 (Z.leb_gt _ _)) by done. by rewrite E.
  - rewrite (proj2 (Z.leb_gt _ _)) by done. apply wp_gets. rewrite (proj2 (Z.eqb_neq _ _)) by (unfold NULL; lia).
    apply wp_modify. fold (mask L).
    eapply wp_get; [apply S|done|]. rewrite Hv, Z.eqb_refl. cbn [negb].
    eapply wp_get; [apply S|done|]. rewrite Hl. apply wp_modify, wp_ret.
    rewrite unmask_same by lia. eapply outcome_same; [done..|].
    unfold on_log. rewrite (proj2 (Z.leb_gt _ _)) by done. by rewrite E, Ha.
  - pose proof F as [E Hn' Ha Hat Hh Hc Hreg Hla R1 R2 Hv Hl].
    rewrite (proj2 (Z.leb_gt _ _)) by lia. apply wp_gets. rewrite (proj2 (Z.eqb_neq _ _)) by (unfold NULL; lia).
    apply wp_modify. fold (mask L).
    eapply wp_get; [apply S|done|]. rewrite Hv, Z.eqb_refl. cbn [negb].
    eapply wp_get; [apply S|done|]. rewrite Hl, (proj2 (Z.eqb_neq _ _)) by (unfold NULL; lia).
    apply wp_bind. eapply wp_mono; [|eapply (reset_run (mask L)); try done; apply S].
    intros u L1 Ht. apply wp_modify, wp_ret.
    eapply outcome_touched; [exact S|done|exact F|reflexivity..|apply touched_unmask; [done|lia]].
Qed.

Lemma ring_words w h o n l j x : ring_at w h o n l -> l !! j = Some x ->
  words_at w (slot h (pos n o (Z.of_nat j))) (entry_words x) /\ length (entry_words x) = 11%nat.
Proof.
  intros [_ Hp Hw] Hj. split; [by apply Hw|].
  pose proof (Forall_lookup_1 (fun x => length (PARAMS x) = 7%nat) _ _ _ Hp Hj) as Hx. cbn. by rewrite Hx.
Qed.

(** The entry that is read stands in a slot. *)
Definition stands (w : Z -> Z) (h : Z) (a : alog) (p : Z) (x : entry) : Prop :=
  exists k, 0 <= k < a_max a /\ p = slot h k /\ words_at w p (entry_words x) /\ length (entry_words x) = 11%nat.

Lemma stands_at w h o a k x : log_at w h o a -> 0 <= k -> a_entries a !! Z.to_nat k = Some x ->
  stands w h a (slot h (pos (a_max a) o k)) x.
Proof.
  intros Ha Hk Hx. exists (pos (a_max a) o k). split; [apply pos_range; destruct Ha; lia|]. split; [done|].
  rewrite <-(Z2Nat.id k) by done. by apply (ring_words _ _ _ _ (a_entries a)), Hx; apply Ha.
Qed.

Lemma find_run L B w h o a ty : heap_is (HEAP L) B w -> log_region w B h a -> log_at w h o a ->
  a_entries a <> [] -> (ty <> LOG_READ_NEXT \/ a_reads a + 1 < 2 ^ 32) ->
  wp False (find_entry ty h) L (fun e L' =>
    let '(r, x, a') := aread ty a in
    match e with
    | inr code => code = r /\ r <> MQX_OK /\ a' = a /\ L' = L
    | inl p => r = MQX_OK /\ (exists x0, x = Some x0 /\ stands w h a p x0) /\ touched L B w h 36 L' a'
    end).
Proof.
  intros Hh Hr Ha Hne Hrd. destruct (a_entries a) as [|x l] eqn:Hx; [done|]. unfold aread. rewrite Hx.
  assert (slot h o = slot h (pos (a_max a) o 0)) as Hso by (by rewrite pos_0 by apply Ha).
  destruct (Z.eqb_spec ty LOG_READ_OLDEST_AND_DELETE) as [->|H1].
  { eapply wp_mono; [|by eapply find_delete]. intros e L' [-> Ht]. split; [done|]. split; [|done].
    exists x. split; [done|]. rewrite Hso. apply stands_at; [done|lia|by rewrite Hx]. }
  destruct (Z.eqb_spec ty LOG_READ_OLDEST) as [->|H2].
  { eapply wp_mono; [|by eapply find_oldest]. intros e L' [-> Ht]. split; [done|]. split; [|done].
    exists x. split; [done|]. rewrite Hso. apply stands_at; [done|lia|by rewrite Hx]. }
  destruct (Z.eqb_spec ty LOG_READ_NEXT) as [->|H3].
  { destruct Hrd as [?|Hrd]; [done|]. eapply wp_mono; [|eapply find_next; [done..|by rewrite Hx|done]]. intros e L'. destruct (a_done a).
    - by intros [-> ->].
    - intros (Hk & -> & Ht). split; [done|]. split; [|done]. rewrite <-Hx.
      destruct (lookup_lt_is_Some_2 (a_entries a) (Z.to_nat (a_next a))) as [y Hy]; [pose proof (la_next _ _ _ _ Ha); lia|].
      exists y. split; [done|]. apply stands_at; [done|apply Ha|done]. }
  destruct (Z.eqb_spec ty LOG_READ_NEWEST) as [->|H4].
  { eapply wp_mono; [|eapply find_newest; [done..|by rewrite Hx]]. intros e L' [-> Ht]. rewrite <-Hx. split; [done|]. split; [|done].
    destruct (lookup_lt_is_Some_2 (a_entries a) (pred (length (a_entries a)))) as [y Hy]; [rewrite Hx; simpl; lia|].
    exists y. split; [by rewrite last_lookup|]. apply stands_at; [done|rewrite Hx; simpl; lia|].
    by replace (Z.to_nat (zlen (a_entries a) - 1)) with (pred (length (a_entries a))) by lia. }
  unfold find_entry. rewrite !(proj2 (Z.eqb_neq _ _)) by done. by apply wp_ret.
Qed.

(** The code, the state, and what a successful reader finds in its buffer. *)
Definition read_outcome (s : spec) (n ty buffer r : Z) (L' : lw) : Prop :=
  let x := on_log n s (fun a => let '(r, _, a') := aread ty a in (r, a')) in
  r = x.1 /\ exists B w at_, sound UA level L' x.2 B w at_ /\
    (r = MQX_OK -> exists a x0, s_logs s !! n = Some a /\ (aread ty a).1.2 = Some x0 /\
       words_at w buffer (entry_words x0) /\ length (entry_words x0) = 11%nat).

Lemma read_outcome_same L s B w at_ n ty buffer r : sound UA level L s B w at_ -> r <> MQX_OK ->
  on_log n s (fun a => let '(r, _, a') := aread ty a in (r, a')) = (r, s) -> read_outcome s n ty buffer r L.
Proof. intros S Hr E. unfold read_outcome. rewrite E. split; [done|]. exists B, w, at_. by split. Qed.

Lemma sound_insert_same L s B w at_ n a : sound UA level L s B w at_ -> s_logs s !! n = Some a ->
  set_logs (<[n := a]>) s = s.
Proof. intros _ Ha. destruct s as [x y z]. unfold set_logs. cbn in *. by rewrite insert_id. Qed.

Lemma aread_same ty a r x a' : aread ty a = (r, x, a') -> a_at a' = a_at a /\ a_max a' = a_max a.
Proof.
  unfold aread. destruct (a_entries a) as [|y l]; [by intros [= <- <- <-]|].
  repeat (destruct (_ =? _); [try destruct (a_done a); by intros [= <- <- <-]|]). by intros [= <- <- <-].
Qed.

Lemma lwlog_read_run L s B w at_ n ty buffer z : sound UA level L s B w at_ -> 0 <= level -> 0 <= n ->
  buffer <> NULL -> UA !! buffer = Some z -> sizeof_ENTRY <= z ->
  map_Forall (fun _ a => a_at a <> Some buffer) (s_logs s) ->
  (ty <> LOG_READ_NEXT \/ from_option (fun a => a_reads a + 1 < 2 ^ 32) True (s_logs s !! n)) ->
  wp False (_lwlog_read n ty buffer) L (fun r L' => read_outcome s n ty buffer r L').
Proof.
  intros S Hlv Hn Hbuf Hz Hz48 Hfree Hrd. pose proof (so_level _ _ _ _ _ _ _ S) as El. unfold _lwlog_read.
  rewrite (proj2 (Z.eqb_neq buffer NULL)) by done.
  destruct (sound_cases L s B w at_ n S Hn) as [Hge|[(Hlt & E & Hc)|[(Hlt & E & Ha & Hc & R1 & R2 & Hv & Hl)|(h & o & a & F)]]].
  - rewrite (proj2 (Z.leb_le _ _)) by done. apply wp_ret. eapply read_outcome_same; [done..|].
    unfold on_log. by rewrite (proj2 (Z.leb_le _ _)).
  - rewrite (proj2 (Z.leb_gt _ _)) by done. apply wp_gets. rewrite Hc. apply wp_ret. eapply read_outcome_same; [done..|].
    unfold on_log. rewrite (proj2 (Z.leb_gt _ _)) by done. by rewrite E.
  - rewrite (proj2 (Z.leb_gt _ _)) by done. apply wp_gets. rewrite (proj2 (Z.eqb_neq _ _)) by (unfold NULL; lia).
    apply wp_modify. fold (mask L).
    eapply wp_get; [apply S|done|]. rewrite Hv, Z.eqb_refl. cbn [negb].
    eapply wp_get; [apply S|done|]. rewrite Hl. apply wp_modify, wp_ret.
    rewrite unmask_same by lia. eapply read_outcome_same; [done..|].
    unfold on_log. rewrite (proj2 (Z.leb_gt _ _)) by done. by rewrite E, Ha.
  - pose proof F as [E Hn' Ha Hat Hh Hc Hreg Hla R1 R2 Hv Hl]. pose proof (so_heap _ _ _ _ _ _ _ S) as Hheap.
    destruct (header_room _ _ _ _ Hreg (la_max _ _ _ _ Hla)) as (_ & _ & R3 & _).
    rewrite Ha in Hrd. cbn in Hrd.
    rewrite (proj2 (Z.leb_gt _ _)) by lia. apply wp_gets. rewrite (proj2 (Z.eqb_neq _ _)) by (unfold NULL; lia).
    apply wp_modify. fold (mask L).
    eapply wp_get; [exact Hheap|done|]. rewrite Hv, Z.eqb_refl. cbn [negb].
    eapply wp_get; [exact Hheap|done|]. rewrite Hl, (proj2 (Z.eqb_neq _ _)) by (unfold NULL; lia).
    eapply wp_get; [exact Hheap|done|]. rewrite (la_current _ _ _ _ Hla).
    destruct (decide (a_entries a = [])) as [Hnil|Hne].
    { rewrite Hnil. cbn [length Z.of_nat Z.eqb]. apply wp_modify, wp_ret. rewrite unmask_same by lia.
      eapply read_outcome_same; [done..|]. rewrite (on_log_found _ _ _ _ _ _ _ _ _ _ F). unfold aread. rewrite Hnil.
      by rewrite (sound_insert_same _ _ _ _ _ _ _ S Ha). }
    rewrite (proj2 (Z.eqb_neq _ _)) by (destruct (a_entries a); [done|simpl; lia]).
    apply wp_bind. eapply wp_mono; [|by eapply (find_run (mask L))].
    intros e L1. destruct (aread ty a) as [[r x] a'] eqn:Er. destruct e as [p|code].
    2:{ intros (-> & Hr & -> & ->). apply wp_modify, wp_ret. rewrite unmask_same by lia.
        eapply read_outcome_same; [done..|]. rewrite (on_log_found _ _ _ _ _ _ _ _ _ _ F), Er.
        by rewrite (sound_insert_same _ _ _ _ _ _ _ S Ha). }
    intros (-> & (x0 & -> & (k & Hk & -> & Hw & Hlen)) & (st & w1 & o1 & -> & Hst & Ho1 & Ht & Ha1)).
    assert (forall h0 a0 k0, at_ !! k0 = Some h0 -> s_logs s !! k0 = Some a0 -> h0 <> buffer) as Hnb.
    { intros h0 a0 k0 Hk0 Ha0 ->. destruct (so_log _ _ _ _ _ _ _ S _ _ _ Ha0 Hk0) as (_ & _ & Hreg0 & _).
      pose proof (so_user _ _ _ _ _ _ _ S _ _ Hz). unfold log_region in Hreg0. destruct (a_at a0) as [q|] eqn:Eq.
      - destruct Hreg0 as (_ & -> & _). by apply (Hfree k0 a0 Ha0).
      - destruct Hreg0 as [_ Hreg0]. by simplify_eq. }
    pose proof (so_user _ _ _ _ _ _ _ S _ _ Hz) as Hzb.
    destruct (log_region_some _ _ _ _ Hreg) as (g & Hg & Hgb).
    assert (buffer + z <= h \/ h + bytes g <= buffer) as Hap.
    { destruct (owns_apart _ _ _ _ _ _ (hi_owns _ _ _ Hheap) Hzb Hg); [|by left|by right].
      apply not_eq_sym. by eapply Hnb. }
    unfold log_bytes in Hgb.
    destruct (copy_words_heap 12 st B w1 buffer (slot h k) Hst) as (st2 & w2 & R & Hst2 & Hin & Hout).
    { intros i Hi. split; [eapply room_in; [done|lia|cbn [bytes]; unfold sizeof_ENTRY in *; lia|zdm]|].
      eapply slot_room; [exact Hreg|done|lia|zdm]. }
    { unfold slot, FIRST_ENTRY, sizeof_ENTRY in *. lia. }
    eapply wp_run; [by apply zoom_run|]. apply wp_modify, wp_ret.
    unfold read_outcome. rewrite (on_log_found _ _ _ _ _ _ _ _ _ _ F), Er. split; [done|].
    exists B, w2, at_. split.
    + assert (sound UA level (set_HEAP st L) (set_logs (<[n := a']>) s) B w1 at_) as S1.
      { eapply sound_update_words; [exact S|exact Ha|exact Hat|done| |done|exact Ha1| |].
        - intros b Hb. apply Ho1. unfold log_bytes, sizeof_ENTRY in Hb. pose proof (la_max _ _ _ _ Hla). lia.
        - by destruct (aread_same _ _ _ _ _ Er).
        - by destruct (aread_same _ _ _ _ _ Er). }
      replace (set_LEVEL _ _) with (set_HEAP st2 (set_HEAP st L)); [|by rewrite <-(unmask (set_HEAP st L)) by (cbn; lia)].
      eapply sound_write; [exact S1|done|exact Hz|exact Hz48| |].
      * intros b Hb. apply Hout. unfold sizeof_ENTRY in Hb. lia.
      * intros k0 h0 Hk0. destruct (sound_at _ _ _ _ _ _ _ S Hk0) as (a0 & _ & Ha0 & _). by eapply Hnb.
    + intros _. exists a, x0. rewrite Er. split_and!; [done|done| |done].
      eapply (words_at_move w); [|exact Hw]. intros i Hi. rewrite Hlen in Hi. rewrite Hin by lia.
      apply Ho1. unfold slot, FIRST_ENTRY, sizeof_ENTRY. lia.
Qed.

(** A region that belongs to somebody. *)
Definition in_use (L : lw) (s : spec) (at_ : gmap Z Z) (r : Z) : Prop :=
  is_Some (UA !! r) \/ s_ready s = true /\ r = KERNEL_LWLOG L \/ exists n, at_ !! n = Some r.

Lemma log_moved w w' (B B' : regions) h o a : log_region w B h a -> log_at w h o a -> B' !! h = B !! h ->
  (forall i, 0 <= i < log_bytes a -> i mod 4 = 0 -> w' (h + i) = w (h + i)) ->
  log_region w' B' h a /\ log_at w' h o a.
Proof.
  intros Hr Ha HB Hw. split; [|eapply log_at_ext; [|done]; intros i Hi H4 _; by apply Hw].
  unfold log_region, TYPE in *. rewrite HB.
  rewrite Hw; [done| |done]. pose proof (la_max _ _ _ _ Ha). unfold log_bytes, sizeof_ENTRY. lia.
Qed.

(** Other regions come or go. *)
Lemma sound_rebase L s B w at_ st B' w' : sound UA level L s B w at_ -> heap_is st B' w' ->
  (forall r, in_use L s at_ r -> B' !! r = B !! r) ->
  (forall a, room B a -> room B' a -> w' a = w a) ->
  sound UA level (set_HEAP st L) s B' w' at_.
Proof.
  intros S Hst HB Hw. pose proof S as [S1 S2 S3 S4 S5 S6 S7 S8 S9 S10].
  assert (forall r g i, in_use L s at_ r -> B !! r = Some g -> 0 <= i -> i + 4 <= bytes g -> i mod 4 = 0 ->
    w' (r + i) = w (r + i)) as Hsame.
  { intros r g i Hu Hg Hi Hn H4. apply Hw; eapply room_in; try done. by rewrite HB. }
  split; try done.
  - intros r z Hr. rewrite HB; [by apply S5|]. left. by eexists.
  - intros E. destruct (S7 E) as (C1 & C2 & C3). cbn [KERNEL_LWLOG set_HEAP].
    assert (in_use L s at_ (KERNEL_LWLOG L)) as Hu by (right; by left). split_and!; [by rewrite HB| |].
    + pose proof (Hsame (KERNEL_LWLOG L) _ 0 Hu C1) as H0'. rewrite Z.add_0_r in H0'.
      unfold VALID in *. by rewrite H0'.
    + intros n Hn. rewrite <-(C3 n Hn). unfold LOGS, LOG_MAXIMUM_NUMBER in *. rewrite <-Z.add_assoc.
      apply (Hsame (KERNEL_LWLOG L) (Reg sizeof_COMPONENT true)); [done|done|lia| |zdm].
      cbn [bytes]. unfold sizeof_COMPONENT. lia.
  - intros n a h Ha Hat. destruct (S10 n a h Ha Hat) as (K1 & K2 & K3 & o & K4). split; [done|]. split; [done|].
    assert (in_use L s at_ h) as Hu by (right; right; by exists n).
    destruct (log_region_some _ _ _ _ K3) as (g & Hg & Hgb).
    destruct (log_moved w w' B B' h o a K3 K4 (HB h Hu)) as [? ?]; [|eauto].
    intros i Hi H4. apply (Hsame h g); [done|done|lia| |done].
    unfold log_bytes, sizeof_ENTRY in *. zdm.
Qed.

(** Memory that was just given out belongs to nobody. *)
Lemma in_use_known L s B w at_ r : sound UA level L s B w at_ -> in_use L s at_ r -> is_Some (B !! r).
Proof.
  intros S [[z Hz]|[[E ->]|[n Hn]]].
  - eexists. by apply S.
  - destruct (so_component _ _ _ _ _ _ _ S E) as (C & _). by eexists.
  - destruct (sound_at _ _ _ _ _ _ _ S Hn) as (a & o & _ & _ & _ & _ & Hr & _).
    destruct (log_region_some _ _ _ _ Hr) as (g & Hg & _). by eexists.
Qed.

Lemma sound_allocated L s B w at_ st n r : sound UA level L s B w at_ -> keeps w (word st) B ->
  heap_is st (allocated B n r) (word st) -> (r <> 0 -> B !! r = None) ->
  sound UA level (set_HEAP st L) s (allocated B n r) (word st) at_.
Proof.
  intros S Hk Hst Hr. eapply sound_rebase; [exact S|done| |].
  - intros q Hq. unfold allocated. destruct (Z.eqb_spec r 0); [done|].
    destruct (in_use_known _ _ _ _ _ _ S Hq) as [g Hg]. rewrite lookup_insert_ne; [done|]. intros <-.
    by rewrite Hr in Hg.
  - intros a Ha _. by apply Hk.
Qed.

Lemma sound_deleted L s B w at_ st r : sound UA level L s B w at_ -> keeps w (word st) (delete r B) ->
  heap_is st (delete r B) (word st) -> ~ in_use L s at_ r ->
  sound UA level (set_HEAP st L) s (delete r B) (word st) at_.
Proof.
  intros S Hk Hst Hr. eapply sound_rebase; [exact S|done| |].
  - intros q Hq. rewrite lookup_delete_ne; [done|]. by intros ->.
  - intros a _ Ha. by apply Hk.
Qed.

Lemma set_HEAP_HEAP st1 st2 L : set_HEAP st2 (set_HEAP st1 L) = set_HEAP st2 L.
Proof. done. Qed.

(** Creating the component: no memory, or an empty table of logs. *)
Lemma create_component_run L s B w at_ : sound UA level L s B w at_ -> s_ready s = false ->
  wp False _lwlog_create_component L (fun r L' =>
    r = MQX_OUT_OF_MEMORY /\ (exists w', sound UA level L' s B w' at_) \/
    r = MQX_OK /\ exists w', B !! KERNEL_LWLOG L' = None /\ 0 < KERNEL_LWLOG L' /\ keeps w w' B /\
      sound UA level L' (Spec true (s_logs s) (s_clock s)) (<[KERNEL_LWLOG L' := Reg sizeof_COMPONENT true]> B) w' at_).
Proof.
  intros S E. destruct (so_none _ _ _ _ _ _ _ S E) as [Hc Hnone]. pose proof (so_heap _ _ _ _ _ _ _ S) as Hheap.
  unfold _lwlog_create_component. apply wp_gets. rewrite (so_isr _ _ _ _ _ _ _ S). apply wp_gets.
  rewrite Hc. cbn [negb Z.eqb]. change (NULL =? NULL) with true. cbn [negb].
  destruct (heap_alloc_zero _ _ _ sizeof_COMPONENT Hheap) as (r & st & R & Hk & Hst & Hr & Hz); [done|done|].
  eapply wp_run; [by apply zoom_run|]. pose proof (sound_allocated _ _ _ _ _ _ _ _ S Hk Hst Hr) as S1.
  unfold allocated in *. destruct (Z.eqb_spec r NULL) as [->|Hr0].
  { apply wp_ret. left. split; [done|]. exists (word st). exact S1. }
  rewrite (proj2 (Z.eqb_neq r 0)) in * by done.
  destruct (heap_set_type _ _ _ r (Reg sizeof_COMPONENT true) MEM_TYPE_LWLOG_COMPONENT Hst)
    as (st2 & R2 & Hk2 & Hst2); [apply lookup_insert_eq|done|].
  eapply wp_run; [by apply zoom_run|]. apply wp_modify.
  destruct (owns_region _ _ r _ (hi_owns _ _ _ Hst) (lookup_insert_eq _ _ _)) as (Hpos & _ & _ & Hb).
  assert (forall i, 0 <= i -> i + 4 <= 68 -> i mod 4 = 0 -> room (<[r := Reg sizeof_COMPONENT true]> B) (r + i)) as Rc.
  { intros i ? ? ?. eapply room_in; [apply lookup_insert_eq|done|done|done]. }
  assert (room (<[r := Reg sizeof_COMPONENT true]> B) (VALID r)) as Rv.
  { replace (VALID r) with (r + 0) by (unfold VALID; lia). by apply Rc. }
  eapply wp_put; [exact Hst2|exact Rv|]. intros st3 Hst3.
  apply wp_ret. right. split; [done|]. exists (upd (VALID r) LWLOG_VALID (word st2)). cbn [KERNEL_LWLOG set_HEAP set_LWLOG].
  assert (keeps w (upd (VALID r) LWLOG_VALID (word st2)) B) as Hkeep.
  { intros a Ha. pose proof (room_insert B r (Reg sizeof_COMPONENT true) a (Hr Hr0) Ha) as Ha'.
    rewrite upd_ne; [rewrite Hk2 by done; by apply Hk|]. unfold VALID. intros ->.
    destruct Ha as (q & g & Hq & Hq1 & Hq2 & _).
    eapply (room_apart _ _ r (Reg sizeof_COMPONENT true) q g r (hi_owns _ _ _ Hst)); [apply lookup_insert_eq| | | |].
    - rewrite lookup_insert_ne; [done|]. intros <-. by rewrite Hr in Hq.
    - intros <-. by rewrite Hr in Hq.
    - cbn [bytes]. unfold sizeof_COMPONENT. lia.
    - lia. }
  split_and!; [by apply Hr|done|done|].
  assert (sound UA level (set_HEAP st3 L) s (<[r := Reg sizeof_COMPONENT true]> B) (upd (VALID r) LWLOG_VALID (word st2)) at_) as S3.
  { eapply sound_rebase; [exact S|done| |].
    - intros q Hq. destruct (in_use_known _ _ _ _ _ _ S Hq) as [g Hg]. rewrite lookup_insert_ne; [done|]. intros <-.
      by rewrite Hr in Hg.
    - intros a Ha _. by apply Hkeep. }
  destruct S3 as [T1 T2 T3 T4 T5 T6 T7 T8 T9 T10]. split; try done.
  - intros _. cbn [KERNEL_LWLOG set_HEAP set_LWLOG]. split_and!; [apply lookup_insert_eq|apply upd_eq|].
    intros n Hn. unfold LOG_MAXIMUM_NUMBER in Hn. unfold VALID, LOGS. rewrite upd_ne by lia.
    rewrite <-Z.add_assoc. rewrite Hk2 by (apply Rc; [lia|lia|zdm]).
    rewrite Hz; [|done|unfold sizeof_COMPONENT; lia|zdm].
    destruct (at_ !! n) as [h|] eqn:Hat; [|done]. pose proof (sound_ready _ _ _ _ _ _ _ S Hat). congruence.
  - intros n a h Ha. cbn [s_logs] in Ha. by rewrite Hnone in Ha.
Qed.

(** Before [TYPE] is set, the new log [n] at [h] is there but for that word. *)
Definition published (L' : lw) (s : spec) (at_ : gmap Z Z) (n h : Z) (g : region) (a : alog) : Prop :=
  exists B' w', B' !! h = Some g /\ heap_is (HEAP L') B' w' /\
    forall st t, heap_is st B' (upd (TYPE h) t w') -> log_region (upd (TYPE h) t w') B' h a ->
      sound UA level (set_HEAP st L') (Spec true (<[n := a]> (s_logs s)) (s_clock s)) B' (upd (TYPE h) t w') (<[n := h]> at_).

Lemma publish_run L s B w at_ n h g max_size flags p : sound UA level L s B w at_ -> 0 <= level ->
  0 <= n < LOG_MAXIMUM_NUMBER -> 1 <= max_size -> B !! h = Some g -> 36 + 48 * max_size <= bytes g ->
  s_ready s = true -> s_logs s !! n = None -> (forall k hk, at_ !! k = Some hk -> hk <> h) -> h <> KERNEL_LWLOG L ->
  wp False (publish_log MQX_OK n max_size flags h (KERNEL_LWLOG L)) L
    (fun r L' => r = MQX_OK /\ published L' s at_ n h g (new_log p max_size flags)).
Proof.
  intros S Hlv Hn Hmax Hg Hsz E Hnone Hfree Hc. pose proof (so_heap _ _ _ _ _ _ _ S) as Hheap.
  pose proof (so_level _ _ _ _ _ _ _ S) as El.
  destruct (sound_component _ _ _ _ _ n S E Hn) as (R1 & R2 & Hcp & Hv & Hl).
  assert (at_ !! n = None) as Hat.
  { destruct (at_ !! n) as [hk|] eqn:Hk; [|done]. destruct (proj1 (so_at _ _ _ _ _ _ _ S n)) as [x Hx]; [by exists hk|congruence]. }
  unfold publish_log. eapply wp_get; [exact Hheap|done|]. rewrite Hv, Z.eqb_refl. cbn [negb].
  apply wp_bind. eapply wp_mono; [|by eapply (init_header_run L B w h g max_size flags p)].
  intros u L1 (st1 & w1 & -> & Hst1 & Ho1 & Hlog1).
  destruct (so_component _ _ _ _ _ _ _ S E) as (C1 & C2 & C3).
  assert (forall i, 0 <= i < 68 -> w1 (KERNEL_LWLOG L + i) = w (KERNEL_LWLOG L + i)) as Hcw.
  { intros i Hi. eapply only_apart; [exact Hheap|exact Hg|exact Hsz|exact Ho1|exact C1| |exact Hi]. done. }
  assert (w1 (LOGS (KERNEL_LWLOG L) n) = NULL) as Hl1.
  { unfold LOGS, LOG_MAXIMUM_NUMBER in *. rewrite <-Z.add_assoc, Hcw by lia. rewrite Z.add_assoc, Hl, Hat. done. }
  apply wp_modify. eapply wp_get; [exact Hst1|exact R2|]. cbn [KERNEL_LWLOG set_HEAP set_LEVEL].
  rewrite Hl1. change (negb (NULL =? NULL)) with false. cbn iota.
  eapply wp_put; [exact Hst1|exact R2|]. intros st2 Hst2. apply wp_modify, wp_ret. split; [done|].
  set (w2 := upd (LOGS (KERNEL_LWLOG L) n) h w1) in *.
  replace (set_LEVEL _ _) with (set_HEAP st2 L) by (symmetry; apply (unmask (set_HEAP st1 L)); cbn; lia).
  exists B, w2. split; [done|]. split; [done|]. intros st t Hst Hreg.
  destruct S as [S1 S2 S3 S4 S5 S6 S7 S8 S9 S10].
  assert (forall r x i, B !! r = Some x -> r <> h -> 0 <= i < bytes x -> upd (TYPE h) t w2 (r + i) =
    upd (LOGS (KERNEL_LWLOG L) n) h w (r + i)) as Hother.
  { intros r x i Hx Hne Hi. rewrite upd_ne.
    - unfold w2, upd. destruct (r + i =? _); [done|]. by apply (only_apart (HEAP L) B w w1 h g (36 + 48 * max_size) r x i).
    - intros He. eapply (room_apart _ _ r x h g (r + i) (hi_owns _ _ _ S1)); [done|done|done|lia|].
      unfold TYPE in He. lia. }
  split; cbn [s_logs s_ready s_clock KERNEL_LWLOG set_HEAP]; try done.
  - intros _. split; [done|]. split.
    + unfold VALID in *. replace (KERNEL_LWLOG L) with (KERNEL_LWLOG L + 0) at 1 by lia.
      erewrite Hother; [|exact C1|done|done]. rewrite Z.add_0_r, upd_ne by (unfold LOGS; lia). done.
    + intros k Hk. unfold LOGS, LOG_MAXIMUM_NUMBER in *. rewrite <-Z.add_assoc.
      erewrite Hother; [|exact C1|done|cbn [bytes]; unfold sizeof_COMPONENT; lia]. unfold LOGS.
      destruct (Z.eq_dec k n) as [->|Hne].
      * rewrite Z.add_assoc, upd_eq, lookup_insert_eq. done.
      * rewrite upd_ne by lia. rewrite lookup_insert_ne by done. rewrite Z.add_assoc. by apply C3.
  - intros k. destruct (Z.eq_dec n k) as [<-|Hne].
    + rewrite !lookup_insert_eq. by split; intros _; eexists.
    + rewrite !lookup_insert_ne by done. apply S8.
  - intros n1 n2 h0. rewrite !lookup_insert_Some. intros [[<- <-]|[Hn1 H1]] [[<- E2]|[Hn2 H2]].
    + done.
    + exfalso. by eapply (Hfree n2).
    + exfalso. subst h0. by eapply (Hfree n1).
    + by eapply S9.
  - intros k a0 h0. rewrite !lookup_insert_Some. intros [[<- <-]|[Hk Ha0]] [[E1 E2]|[Hk2 Hat0]]; try done.
    + subst h0. split; [done|]. split; [done|]. split; [done|]. exists 0.
      eapply log_at_ext; [|exact Hlog1]. intros i Hi _ Hi20. unfold log_bytes, new_log, sizeof_ENTRY in Hi. cbn [a_max] in Hi.
      rewrite upd_ne by (unfold TYPE; lia). unfold w2. apply upd_ne. intros He.
      eapply (room_apart _ _ h g (KERNEL_LWLOG L) _ (h + i) (hi_owns _ _ _ S1)); [done|exact C1|done|lia|].
      rewrite He. unfold LOGS, LOG_MAXIMUM_NUMBER in *. cbn [bytes]. unfold sizeof_COMPONENT. lia.
    + destruct (S10 k a0 h0 Ha0 Hat0) as (K1 & K2 & K3 & o & K4). split; [done|]. split; [done|].
      destruct (log_region_some _ _ _ _ K3) as (x & Hx & Hxb).
      destruct (log_moved w (upd (TYPE h) t w2) B B h0 o a0 K3 K4 eq_refl) as [? ?]; [|eauto].
      intros i Hi H4. erewrite Hother; [|exact Hx|by eapply Hfree|lia]. apply upd_ne. intros He.
      eapply (room_apart _ _ h0 x (KERNEL_LWLOG L) _ (h0 + i) (hi_owns _ _ _ S1)); [done|exact C1|done|lia|].
      rewrite He. unfold LOGS, LOG_MAXIMUM_NUMBER in *. cbn [bytes]. unfold sizeof_COMPONENT. lia.
Qed.

(** [_lwlog_create_internal] refuses, or the log is there. *)
Definition created (s : spec) (B : regions) (at_ : gmap Z Z) (n h : Z) (g : region) (a : alog) (r : Z) (L' : lw) : Prop :=
  r <> MQX_OK /\ (exists w', sound UA level L' s B w' at_) /\ (s_ready s = true -> h <> KERNEL_LWLOG L') /\
    ((forall given, acreate given n a s = (r, s)) \/ r = MQX_OUT_OF_MEMORY /\ acreate false n a s = (r, s)) \/
  r = MQX_OK /\ acreate true n a s = (r, Spec true (<[n := a]> (s_logs s)) (s_clock s)) /\ published L' s at_ n h g a.

Lemma create_internal_run L s B w at_ n h g max_size flags p : sound UA level L s B w at_ -> 0 <= level ->
  0 <= n -> 1 <= max_size -> B !! h = Some g -> 36 + 48 * max_size <= bytes g ->
  (forall k hk, at_ !! k = Some hk -> hk <> h) -> (s_ready s = true -> h <> KERNEL_LWLOG L) ->
  wp False (_lwlog_create_internal n max_size flags h) L (created s B at_ n h g (new_log p max_size flags)).
Proof.
  intros S Hlv Hn Hmax Hg Hsz Hfree Hc. unfold _lwlog_create_internal.
  pose proof (so_heap _ _ _ _ _ _ _ S) as Hheap.
  destruct (Z.leb_spec LOG_MAXIMUM_NUMBER n) as [Hge|Hlt].
  { apply wp_ret. left. split; [done|]. split; [by exists w|]. split; [done|]. left. intros given. unfold acreate.
    by rewrite (proj2 (Z.leb_le _ _)). }
  apply wp_gets. destruct (s_ready s) eqn:E.
  - destruct (sound_component _ _ _ _ _ n S E ltac:(lia)) as (R1 & R2 & Hcp & Hv & Hl).
    rewrite (proj2 (Z.eqb_neq _ _)) by (unfold NULL; lia).
    eapply wp_get; [exact Hheap|done|]. rewrite Hl. destruct (at_ !! n) as [hk|] eqn:Hat; cbn [from_option id].
    + destruct (sound_at _ _ _ _ _ _ _ S Hat) as (a & o & Ha & Hhk & _).
      rewrite (proj2 (Z.eqb_neq hk NULL)) by (unfold NULL; lia). cbn [negb]. apply wp_ret. left.
      split; [done|]. split; [by exists w|]. split; [intros _; by apply Hc|]. left. intros given. unfold acreate.
      rewrite (proj2 (Z.leb_gt _ _)) by done. by rewrite bool_decide_true by (by eexists).
    + change (negb (NULL =? NULL)) with false. cbn iota.
      assert (s_logs s !! n = None) as Hnone.
      { destruct (s_logs s !! n) eqn:Ha; [|done]. destruct (proj2 (so_at _ _ _ _ _ _ _ S n)) as [x Hx]; [by eexists|congruence]. }
      eapply wp_mono; [|eapply (publish_run L s B w at_ n h g max_size flags p); try done; by apply Hc].
      intros r L' [-> Hp]. right. split; [done|]. split; [|done]. unfold acreate.
      rewrite (proj2 (Z.leb_gt _ _)) by done. rewrite bool_decide_false; [done|]. rewrite Hnone. by intros [? ?].
  - destruct (so_none _ _ _ _ _ _ _ S E) as [Hk Hnone]. rewrite Hk. change (0 =? NULL) with true. cbn iota.
    assert (forall given a, acreate given n a s = if given then (MQX_OK, Spec true (<[n := a]> (s_logs s)) (s_clock s)) else (MQX_OUT_OF_MEMORY, s)) as Hac.
    { intros given a. unfold acreate. rewrite (proj2 (Z.leb_gt _ _)) by done.
      rewrite bool_decide_false; [by destruct given|]. rewrite Hnone, lookup_empty. by intros [? ?]. }
    apply wp_bind. eapply wp_mono; [|by eapply create_component_run].
    intros r L1 [[-> [w' S1]]|(-> & w' & HB & Hpos & Hkeep & S1)]; apply wp_gets.
    + destruct (so_none _ _ _ _ _ _ _ S1 E) as [Hk1 _]. rewrite Hk1. change (0 =? NULL) with true. cbn iota.
      apply wp_ret. left. split; [done|]. split; [by exists w'|]. split; [by rewrite E|]. right. split; [done|]. by rewrite Hac.
    + rewrite (proj2 (Z.eqb_neq _ _)) by (unfold NULL; lia).
      assert (h <> KERNEL_LWLOG L1) as Hne by (intros ->; congruence).
      eapply wp_mono; [|eapply (publish_run L1 (Spec true (s_logs s) (s_clock s)) _ w' at_ n h g max_size flags p);
        try done; [by rewrite lookup_insert_ne|cbn [s_logs]; by rewrite Hnone]].
      intros r L' [-> Hp]. right. split; [done|]. split; [by rewrite Hac|done].
Qed.

Lemma lwlog_create_at_run L s B w at_ n max_size flags where_ : sound UA level L s B w at_ -> 0 <= level ->
  can UA s (OCreateAt n max_size flags where_) ->
  wp False (_lwlog_create_at n max_size flags where_) L (fun r L' => exists given s',
    aexec given (OCreateAt n max_size flags where_) s = (RCode r, s') /\ inv UA level L' s').
Proof.
  intros S Hlv (Hn & Hmax & Hwh). unfold _lwlog_create_at. cbn [aexec].
  destruct (Z.eqb_spec max_size 0) as [->|Hm].
  { apply wp_ret. exists true, s. split; [done|]. split; [done|]. by exists B, w, at_. }
  destruct (Z.eqb_spec where_ NULL) as [->|Hw0].
  { apply wp_ret. exists true, s. split; [done|]. split; [done|]. by exists B, w, at_. }
  destruct Hwh as [?|[Hz Hun]]; [done|]. destruct (UA !! where_) as [z|] eqn:Hua; [|done]. cbn in Hz.
  unfold sizeof_ENTRY in Hz. pose proof (so_user _ _ _ _ _ _ _ S _ _ Hua) as Hg.
  assert (forall k hk, at_ !! k = Some hk -> hk <> where_) as Hfree.
  { intros k hk Hk ->. destruct (sound_at _ _ _ _ _ _ _ S Hk) as (a & o & Ha & _ & _ & _ & Hreg & _).
    unfold log_region in Hreg. destruct (a_at a) as [q|] eqn:Eq.
    - destruct Hreg as (_ & -> & _). by apply (Hun k a Ha).
    - destruct Hreg as [_ Hreg]. by simplify_eq. }
  apply wp_bind. eapply wp_mono; [|eapply (create_internal_run L s B w at_ n where_ _ max_size flags (Some where_)); try done; [lia|]].
  2:{ intros E ->. destruct (so_component _ _ _ _ _ _ _ S E) as (Hcc & _). by simplify_eq. }
  intros r L1 [(Hr & [w' S1] & _ & Hac)|(-> & Hac & Hp)].
  - rewrite (proj2 (Z.eqb_neq r MQX_OK)) by done. apply wp_bind, wp_ret, wp_ret.
    destruct Hac as [Hac|[-> Hac]]; [exists true, s; rewrite (Hac true)|exists false, s; rewrite Hac];
      (split; [done|]; split; [done|]; by exists B, w', at_).
  - change (MQX_OK =? MQX_OK) with true. cbn iota.
    destruct Hp as (B' & w' & Hg' & Hst & Hnext).
    assert (room B' (TYPE where_)) as Rt by (eapply room_in; [exact Hg'|lia|cbn [bytes]; lia|done]).
    eapply wp_put; [exact Hst|done|]. intros st Hst2. apply wp_ret.
    eexists true, _. rewrite Hac. split; [done|]. split; [done|]. eexists B', _, _. apply Hnext; [done|].
    split; [apply upd_eq|]. split; [done|]. eexists. split; [exact Hg'|]. unfold log_bytes, sizeof_ENTRY, new_log. cbn [a_max]. lia.
Qed.

(** Words of the client's regions did not change. *)
Lemma sound_keeps L s B w at_ st : sound UA level L s B w at_ -> keeps w (word st) B -> heap_is st B (word st) ->
  sound UA level (set_HEAP st L) s B (word st) at_.
Proof. intros S Hk Hst. eapply sound_rebase; [exact S|done|done|]. intros a Ha _. by apply Hk. Qed.

Lemma lwlog_create_run L s B w at_ n max_size flags : sound UA level L s B w at_ -> 0 <= level ->
  can UA s (OCreate n max_size flags) ->
  wp False (_lwlog_create n max_size flags) L (fun r L' => exists given s',
    aexec given (OCreate n max_size flags) s = (RCode r, s') /\ inv UA level L' s').
Proof.
  intros S Hlv (Hn & Hmax & Hsize). unfold _lwlog_create. cbn [aexec].
  destruct (Z.eqb_spec max_size 0) as [->|Hm].
  { apply wp_ret. exists true, s. split; [done|]. split; [done|]. by exists B, w, at_. }
  unfold sizeof_HEADER, sizeof_ENTRY in *. rewrite (wrap_small 32 ((max_size - 1) * 48)) by lia.
  rewrite wrap_small by lia. set (size := 84 + (max_size - 1) * 48) in *.
  destruct (heap_alloc_zero _ _ _ size (so_heap _ _ _ _ _ _ _ S)) as (h & st & R & Hk & Hst & Hh & _); [lia|lia|].
  eapply wp_run; [by apply zoom_run|]. pose proof (sound_allocated _ _ _ _ _ _ _ _ S Hk Hst Hh) as S1.
  unfold allocated in *. destruct (Z.eqb_spec h NULL) as [->|Hh0].
  { apply wp_ret. exists false, s. split; [done|]. split; [done|]. by exists B, (word st), at_. }
  rewrite (proj2 (Z.eqb_neq h 0)) in * by done. specialize (Hh Hh0).
  destruct (heap_set_type _ _ _ h (Reg size true) MEM_TYPE_LWLOG Hst) as (st2 & R2 & Hk2 & Hst2);
    [apply lookup_insert_eq|done|].
  eapply wp_run; [by apply zoom_run|]. pose proof (sound_keeps _ _ _ _ _ _ S1 Hk2 Hst2) as S2. rewrite set_HEAP_HEAP in *.
  set (B1 := <[h := Reg size true]> B) in *.
  assert (~ in_use L s at_ h) as Hnew.
  { intros Hu. destruct (in_use_known _ _ _ _ _ _ S Hu). congruence. }
  apply wp_bind. eapply wp_mono; [|eapply (create_internal_run _ s B1 _ at_ n h (Reg size true) max_size flags None);
    [exact S2|done|done|lia|apply lookup_insert_eq|cbn [bytes]; lia| |]].
  2:{ intros k hk Hk0 ->. apply Hnew. right. right. by exists k. }
  2:{ intros E ->. apply Hnew. right. by left. }
  intros r L1 [(Hr & [w' S3] & Hc & Hac)|(-> & Hac & Hp)].
  - rewrite (proj2 (Z.eqb_neq r MQX_OK)) by done.
    destruct (heap_free _ _ _ h (Reg size true) (so_heap _ _ _ _ _ _ _ S3)) as (st3 & R3 & Hk3 & Hst3);
      [apply lookup_insert_eq|done|].
    apply wp_bind. eapply wp_run; [by apply zoom_run|]. apply wp_ret, wp_ret.
    assert (~ in_use L1 s at_ h) as Hnew1.
    { intros [[z Hz]|[[E He]|[k Hk0]]].
      - pose proof (so_user _ _ _ _ _ _ _ S3 _ _ Hz) as Hb. unfold B1 in Hb. rewrite lookup_insert_eq in Hb. done.
      - by apply Hc.
      - apply Hnew. right. right. by exists k. }
    pose proof (sound_deleted _ _ _ _ _ _ _ S3 Hk3 Hst3 Hnew1) as S4.
    destruct Hac as [Hac|[-> Hac]]; [exists true, s; cbn [negb]; rewrite (Hac true)|exists false, s];
      (split; [done|]; split; [done|]; by eexists _, _, at_).
  - change (MQX_OK =? MQX_OK) with true. cbn iota.
    destruct Hp as (B' & w' & Hg' & Hst' & Hnext).
    assert (room B' (TYPE h)) as Rt by (eapply room_in; [exact Hg'|lia|cbn [bytes]; lia|done]).
    eapply wp_put; [exact Hst'|done|]. intros st3 Hst3. apply wp_ret.
    eexists true, _. cbn [negb]. rewrite Hac. split; [done|]. split; [done|]. eexists B', _, _. apply Hnext; [done|].
    split; [apply upd_eq|]. rewrite Hg'. do 2 f_equal. unfold log_bytes, sizeof_ENTRY, new_log, size. cbn [a_max]. lia.
Qed.

(** The table no longer names the log [n]. *)
Lemma sound_forget L s B w at_ n h o a st : sound UA level L s B w at_ -> found L s B w at_ n h o a ->
  heap_is st B (upd (LOGS (KERNEL_LWLOG L) n) NULL w) ->
  sound UA level (set_HEAP st L) (set_logs (delete n) s) B (upd (LOGS (KERNEL_LWLOG L) n) NULL w) (delete n at_).
Proof.
  intros S F Hst. destruct S as [S1 S2 S3 S4 S5 S6 S7 S8 S9 S10].
  pose proof F as [E Hn Ha Hat Hh Hc Hreg Hla R1 R2 Hv Hl]. destruct (S7 E) as (C1 & C2 & C3).
  split; cbn [s_ready s_logs s_clock set_logs KERNEL_LWLOG set_HEAP]; try done.
  - intros E'. congruence.
  - intros _. split; [done|]. split; [rewrite upd_ne; [done|]; unfold VALID, LOGS; lia|].
    intros k Hk. destruct (Z.eq_dec n k) as [<-|Hne].
    + by rewrite upd_eq, lookup_delete_eq.
    + rewrite upd_ne by (unfold LOGS; lia). rewrite lookup_delete_ne by done. by apply C3.
  - intros k. destruct (Z.eq_dec n k) as [<-|Hne].
    + rewrite !lookup_delete_eq. by split; intros [? ?].
    + rewrite !lookup_delete_ne by done. apply S8.
  - intros n1 n2 h0 [_ H1]%lookup_delete_Some [_ H2]%lookup_delete_Some. by eapply S9.
  - intros k a0 h0 [_ Ha0]%lookup_delete_Some [_ Hat0]%lookup_delete_Some.
    destruct (S10 k a0 h0 Ha0 Hat0) as (K1 & K2 & K3 & ok & K4). split; [done|]. split; [done|].
    destruct (log_region_some _ _ _ _ K3) as (x & Hx & Hxb).
    destruct (log_moved w (upd (LOGS (KERNEL_LWLOG L) n) NULL w) B B h0 ok a0 K3 K4 eq_refl) as [? ?]; [|eauto].
    intros i Hi _. apply upd_ne. intros He.
    eapply (room_apart _ _ h0 x (KERNEL_LWLOG L) _ (h0 + i) (hi_owns _ _ _ S1)); [done|exact C1|done|lia|].
    rewrite He. unfold LOGS, LOG_MAXIMUM_NUMBER in *. cbn [bytes]. unfold sizeof_COMPONENT. lia.
Qed.

Lemma destroy_run L s B w at_ n : sound UA level L s B w at_ -> 0 <= level -> 0 <= n ->
  wp False (_lwlog_destroy n) L (fun r L' =>
    let x := on_log n s (fun a => (MQX_OK, a)) in
    r = x.1 /\ inv UA level L' (if r =? MQX_OK then set_logs (delete n) s else s)).
Proof.
  intros S Hlv Hn. pose proof (so_level _ _ _ _ _ _ _ S) as El. eapply with_log_wp; [done..| |].
  - intros r Hr Hne _. rewrite Hr, (proj2 (Z.eqb_neq r MQX_OK)) by done. split; [done|]. split; [done|]. by exists B, w, at_.
  - intros h o a F. rewrite (on_log_found _ _ _ _ _ _ _ _ _ _ F).
    pose proof F as [E Hn' Ha Hat Hh Hc Hreg Hla R1 R2 Hv Hl].
    pose proof (so_heap _ _ _ _ _ _ _ S) as Hheap.
    destruct (header_room _ _ _ _ Hreg (la_max _ _ _ _ Hla)) as (_ & _ & _ & _ & _ & Rt & _).
    eapply wp_put; [exact Hheap|exact R2|]. intros st Hst. apply wp_modify. rewrite unmask by lia.
    pose proof (sound_forget _ _ _ _ _ _ _ _ _ _ S F Hst) as S1.
    eapply wp_get; [exact Hst|exact Rt|].
    assert (upd (LOGS (KERNEL_LWLOG L) n) NULL w (TYPE h) = w (TYPE h)) as ->.
    { apply upd_ne. intros He. destruct (so_component _ _ _ _ _ _ _ S E) as (C1 & _).
      destruct (log_region_some _ _ _ _ Hreg) as (x & Hx & Hxb). pose proof (la_max _ _ _ _ Hla).
      destruct (so_log _ _ _ _ _ _ _ S _ _ _ Ha Hat) as (_ & Hne & _).
      eapply (room_apart _ _ h x (KERNEL_LWLOG L) _ (TYPE h) (hi_owns _ _ _ Hheap)); [done|exact C1|done| |].
      - unfold TYPE, log_bytes, sizeof_ENTRY in *. lia.
      - rewrite He. unfold LOGS, LOG_MAXIMUM_NUMBER in *. cbn [bytes]. unfold sizeof_COMPONENT. lia. }
    unfold log_region in Hreg. destruct (a_at a) as [q|] eqn:Eq.
    + destruct Hreg as (-> & _). change (LWLOG_STATIC =? LWLOG_DYNAMIC) with false. cbn iota.
      apply wp_bind, wp_ret, wp_ret. split; [done|]. change (MQX_OK =? MQX_OK) with true. cbn iota.
      split; [done|]. by eexists _, _, _.
    + destruct Hreg as (-> & Hg). rewrite Z.eqb_refl.
      destruct (heap_free _ _ _ _ _ Hst Hg) as (st2 & R & Hk & Hst2); [done|].
      apply wp_bind. eapply wp_run; [by apply zoom_run|]. apply wp_ret, wp_ret. split; [done|].
      change (MQX_OK =? MQX_OK) with true. cbn iota. split; [done|].
      assert (~ in_use (set_HEAP st L) (set_logs (delete n) s) (delete n at_) h) as Hnew.
      { intros [[z Hz]|[[_ Hhc]|[k Hk0]]].
        - pose proof (so_user _ _ _ _ _ _ _ S _ _ Hz). congruence.
        - destruct (so_log _ _ _ _ _ _ _ S _ _ _ Ha Hat) as (_ & Hne & _). done.
        - apply lookup_delete_Some in Hk0 as [Hne Hk0]. apply Hne. by eapply (so_inj _ _ _ _ _ _ _ S). }
      exists (delete h B), (word st2), (delete n at_). by apply (sound_deleted _ _ _ _ _ _ _ S1).
Qed.

(** *** The test of sound logs *)

Lemma test_entries_run L B w h a : heap_is (HEAP L) B w -> log_region w B h a -> forall o, log_at w h o a -> forall j i,
  0 <= i < a_max a ->
  test_entries j (h + 4) (h + 4 + 48 * a_max a) (slot h i) L = Some (true, L).
Proof.
  intros Hh Hr o Ha. destruct (region_bound _ _ _ _ _ Hh Hr) as (Hh0 & _ & Hb). unfold log_bytes, sizeof_ENTRY in Hb.
  induction j as [|j IH]; intros i Hi; cbn [test_entries];
    (erewrite bind_run; [|apply zoom_read; eapply heap_load; [exact Hh|]; apply (slot_room w B h a i 44); (done || lia)]);
    fold (NEXT_PTR (slot h i)); rewrite (ra_links _ _ _ _ _ (la_ring _ _ _ _ Ha)) by done;
    pose proof (pos_range (a_max a) i 1 ltac:(lia)) as Hp;
    rewrite (proj2 (Z.eqb_neq _ NULL)) by (unfold NULL; addr; lia); [done|].
  rewrite (proj2 (Z.ltb_ge _ _)), (proj2 (Z.leb_gt _ _)) by (addr; lia). cbn [orb]. by apply IH.
Qed.

Lemma test_log_run L B w h o a : heap_is (HEAP L) B w -> log_region w B h a -> log_at w h o a ->
  test_log h L = Some (true, L).
Proof.
  intros Hh Hr Ha. pose proof Ha as [H1 H2 H3 H4 H5 H6 H7 H8 H9 H10 H11 H12 H13 H14 H15].
  destruct (header_room _ _ _ _ Hr H1) as (R0 & R1 & R2 & R3 & R4 & R5 & R6 & R7 & R8).
  destruct (region_bound _ _ _ _ _ Hh Hr) as (Hh0 & _ & Hb). unfold log_bytes, sizeof_ENTRY in Hb.
  unfold test_log.
  rewrite (bind_run _ _ _ _ _ (zoom_read _ _ _ (heap_load _ _ _ _ Hh R3))), H10.
  rewrite (bind_run _ _ _ _ _ (zoom_read _ _ _ (heap_load _ _ _ _ Hh R7))), H13.
  rewrite (bind_run _ _ _ _ _ (zoom_read _ _ _ (heap_load _ _ _ _ Hh R6))), H12.
  rewrite (bind_run _ _ _ _ _ (zoom_read _ _ _ (heap_load _ _ _ _ Hh R8))), H14.
  unfold sizeof_ENTRY. rewrite (wrap_small 32 (48 * a_max a)) by lia. rewrite wrap_small by lia.
  assert (forall k, 0 <= k < a_max a -> (slot h k <? h + 4) || (h + 4 + 48 * a_max a <=? slot h k) = false) as Hin.
  { intros k Hk. rewrite (proj2 (Z.ltb_ge _ _)), (proj2 (Z.leb_gt _ _)) by (addr; lia). done. }
  rewrite !Hin by (done || apply pos_range; lia). cbn [orb].
  replace (FIRST_ENTRY h) with (slot h 0) by (addr; lia).
  eapply test_entries_run; [done..|lia].
Qed.

Lemma log_test_run L s B w at_ e : sound UA level L s B w at_ -> 0 <= level ->
  _lwlog_test e L = Some ((if e =? NULL then MQX_INVALID_POINTER else MQX_OK, 0), L).
Proof.
  intros S Hlv. pose proof (so_level _ _ _ _ _ _ _ S) as El. unfold _lwlog_test. destruct (e =? NULL); [done|].
  erewrite bind_run by reflexivity. destruct (s_ready s) eqn:E.
  2:{ destruct (so_none _ _ _ _ _ _ _ S E) as [-> _]. done. }
  destruct (sound_component _ _ _ _ _ 0 S E ltac:(done)) as (R1 & _ & Hcp & Hv & _).
  rewrite (proj2 (Z.eqb_neq _ _)) by (unfold NULL; lia). erewrite bind_run by reflexivity.
  pose proof (so_heap _ _ _ _ _ _ _ S) as Hheap. fold (mask L).
  rewrite (bind_run _ _ (mask L) _ _ (zoom_read _ (mask L) _ (heap_load _ _ _ _ Hheap R1))), Hv, Z.eqb_refl. cbn [negb].
  assert (forall m i, 0 <= i -> i + Z.of_nat m <= LOG_MAXIMUM_NUMBER ->
    test_logs m (KERNEL_LWLOG L) i (mask L) = Some ((MQX_OK, 0), L)) as Hall.
  { induction m as [|m IH]; intros i Hi Him; cbn [test_logs].
    - unfold _int_enable, modify. erewrite bind_run by reflexivity. unfold mret, M_ret. by rewrite unmask_same by lia.
    - destruct (sound_component _ _ _ _ _ i S E ltac:(lia)) as (_ & R2 & _ & _ & Hl).
      rewrite (bind_run _ _ (mask L) _ _ (zoom_read _ (mask L) _ (heap_load _ _ _ _ Hheap R2))), Hl.
      destruct (at_ !! i) as [h|] eqn:Hat; cbn [from_option id].
      + destruct (sound_at _ _ _ _ _ _ _ S Hat) as (a & o & Ha & Hh & _ & _ & Hr & Ho).
        rewrite (proj2 (Z.eqb_neq h NULL)) by (unfold NULL; lia).
        erewrite (bind_run _ _ (mask L)) by (by apply (test_log_run (mask L) B w h o a)). cbn [negb]. apply IH; lia.
      + change (NULL =? NULL) with true. cbn iota. erewrite bind_run by reflexivity. cbn [negb]. apply IH; lia. }
  by apply Hall.
Qed.

(** Each operation does what the specification says. *)
Lemma log_exec_refines L s o : inv UA level L s -> can UA s o ->
  exists given r s' L', exec o L = Some (r, L') /\ aexec given o s = (r, s') /\ inv UA level L' s' /\
    (given = true \/ needs_memory o = true).
Proof.
  intros (Hlv & B & w & at_ & S) Hcan.
  assert (forall (m : M lw Z) (x : Z * spec),
    wp False m L (fun r L' => outcome r L' x) ->
    exists L', m L = Some (x.1, L') /\ inv UA level L' x.2) as Hout.
  { intros m x Hwp. destruct (wp_total _ _ _ _ Hwp) as (r & L' & R & -> & Hinv); [tauto|]. by exists L'. }
  destruct o as [n max_size flags|n max_size flags where_|n|n|n|n|n ty buffer|hw n p1 p2 p3 p4 p5 p6 p7|e|c];
    cbn [exec can needs_memory] in *.
  - pose proof (lwlog_create_run _ _ _ _ _ n max_size flags S Hlv Hcan) as Hwp.
    destruct (wp_total _ _ _ _ Hwp) as (r & L' & R & given & s' & Ha & Hi); [tauto|].
    exists given, (RCode r), s', L'. rewrite (bind_run _ _ _ _ _ R). split_and!; try done. by right.
  - pose proof (lwlog_create_at_run _ _ _ _ _ n max_size flags where_ S Hlv Hcan) as Hwp.
    destruct (wp_total _ _ _ _ Hwp) as (r & L' & R & given & s' & Ha & Hi); [tauto|].
    exists given, (RCode r), s', L'. rewrite (bind_run _ _ _ _ _ R). split_and!; try done. by right.
  - destruct (wp_total _ _ _ _ (destroy_run _ _ _ _ _ n S Hlv Hcan)) as (r & L' & R & Hr & Hi); [tauto|].
    exists true, (RCode r), (if r =? MQX_OK then set_logs (delete n) s else s), L'.
    rewrite (bind_run _ _ _ _ _ R). cbn [aexec].
    destruct (on_log n s (fun a => (MQX_OK, a))) as [r' s'] eqn:E. cbn in Hr. subst r'. split_and!; try done. by left.
  - destruct (Hout _ _ (enable_run _ _ _ _ _ n S Hlv Hcan)) as (L' & R & Hi). exists true. cbn [aexec].
    destruct (on_log n s _) as [r s'] eqn:E. exists (RCode r), s', L'. rewrite (bind_run _ _ _ _ _ R). split_and!; try done. by left.
  - destruct (Hout _ _ (disable_run _ _ _ _ _ n S Hlv Hcan)) as (L' & R & Hi). exists true. cbn [aexec].
    destruct (on_log n s _) as [r s'] eqn:E. exists (RCode r), s', L'. rewrite (bind_run _ _ _ _ _ R). split_and!; try done. by left.
  - destruct (Hout _ _ (lwlog_reset_run _ _ _ _ _ n S Hlv Hcan)) as (L' & R & Hi). exists true. cbn [aexec].
    destruct (on_log n s _) as [r s'] eqn:E. exists (RCode r), s', L'. rewrite (bind_run _ _ _ _ _ R). split_and!; try done. by left.
  - destruct Hcan as (Hn & Hbuf & Hrd). exists true. cbn [aexec].
    destruct (Z.leb_spec LOG_MAXIMUM_NUMBER n) as [Hge|Hlt].
    { exists (RRead LOG_INVALID []), s, L. unfold _lwlog_read. rewrite (proj2 (Z.leb_le _ _)) by done.
      split; [done|]. split; [done|]. split; [|by left]. split; [done|]. by exists B, w, at_. }
    destruct (Z.eqb_spec buffer NULL) as [->|Hb].
    { exists (RRead MQX_INVALID_POINTER []), s, L. unfold _lwlog_read. rewrite (proj2 (Z.leb_gt _ _)) by done.
      split; [done|]. split; [done|]. split; [|by left]. split; [done|]. by exists B, w, at_. }
    destruct Hbuf as [?|[Hz Hfree]]; [done|]. destruct (UA !! buffer) as [z|] eqn:Hua; [|done]. cbn in Hz.
    destruct (wp_total _ _ _ _ (lwlog_read_run _ _ _ _ _ n ty buffer z S Hlv Hn Hb Hua Hz Hfree Hrd))
      as (r & L' & R & Hr & B' & w' & at' & S' & Hok); [tauto|].
    rewrite (bind_run _ _ _ _ _ R). destruct (on_log n s _) as [r' s'] eqn:E. cbn [fst snd] in *. subst r'.
    destruct (Z.eqb_spec r MQX_OK) as [->|Hne].
    + destruct (Hok eq_refl) as (a & x0 & Ha & Hx & Hw & Hlen).
      destruct (read_words_heap 11 (HEAP L') B' w' buffer (so_heap _ _ _ _ _ _ _ S')) as (l & R2 & Hl & Hwl).
      { intros i Hi. eapply room_in; [by apply S'|lia|cbn [bytes]; unfold sizeof_ENTRY in *; lia|zdm]. }
      assert (l = entry_words x0) as -> by (eapply words_at_length; [done..|congruence]).
      rewrite (bind_run _ _ _ _ _ (zoom_read _ L' _ R2)).
      eexists _, s', L'. split; [done|]. rewrite Ha. cbn [mbind option_bind]. rewrite Hx. split; [done|]. split; [|by left].
      split; [done|]. by exists B', w', at'.
    + rewrite bind_ret_l. eexists _, s', L'. split; [done|]. split; [done|]. split; [|by left]. split; [done|]. by exists B', w', at'.
  - destruct (Hout _ _ (lwlog_write_run _ _ _ _ _ n hw p1 p2 p3 p4 p5 p6 p7 S Hlv Hcan)) as (L' & R & Hi). exists true. cbn [aexec].
    destruct (on_log n s _) as [r s'] eqn:E. exists (RCode r), s', L'. rewrite (bind_run _ _ _ _ _ R). split_and!; try done. by left.
  - eexists true, _, s, L. rewrite (bind_run _ _ _ _ _ (log_test_run _ _ _ _ _ e S Hlv)). split; [done|]. split; [done|].
    split; [|by left]. split; [done|]. by exists B, w, at_.
  - eexists true, _, _, (set_CLOCK c L). split; [done|]. split; [done|]. split; [|by left]. split; [done|].
    exists B, w, at_. destruct S. by split.
Qed.

End sound.

(** ** The theorems *)

(** C10: Every program of operations on lightweight logs (creating them in the
    system's memory or in the caller's, destroying, enabling, disabling,
    resetting, writing, the four ways of reading, and the consistency test),
    run on any allocator that keeps the laws of [Heap], returns without a
    fault, and its results are those of the specification on lists, for the
    requests for memory that were met. *)
Theorem lwlog_trace_refines UA level L s ops (Hinv : inv UA level L s) (Hcan : cans UA ops s) :
  exists given L', length given = length ops /\
    run ops L = Some ((arun given ops s).1, L') /\ inv UA level L' (arun given ops s).2.
Proof.
  revert L s Hinv Hcan. induction ops as [|o ops IH]; intros L s Hinv Hcan; [by exists [], L|].
  destruct Hcan as (Ho & Ht & Hf).
  destruct (log_exec_refines L s o Hinv Ho) as (given & r & s' & L1 & R & Ha & Hinv1 & Hg).
  destruct (IH L1 s' Hinv1) as (gs & L2 & Hlen & R2 & Hinv2).
  { destruct given; [by rewrite Ha in Ht|]. destruct Hg as [?|Hg]; [done|]. by rewrite Hg, Ha in Hf. }
  exists (given :: gs), L2. cbn [arun run length]. rewrite Ha. rewrite (bind_run _ _ _ _ _ R), (bind_run _ _ _ _ _ R2).
  destruct (arun gs ops s') as [rs s2]. split; [by rewrite Hlen|done].
Qed.

(** *** Programs that need no memory *)

Definition srun (ops : list op) (s : spec) : list res * spec := arun (replicate (length ops) true) ops s.

Lemma srun_cons o ops s : srun (o :: ops) s =
  let (r, s1) := aexec true o s in let (rs, s2) := srun ops s1 in (r :: rs, s2).
Proof. done. Qed.

Lemma srun_app ops1 ops2 s : srun (ops1 ++ ops2) s =
  let (rs1, s1) := srun ops1 s in let (rs2, s2) := srun ops2 s1 in (rs1 ++ rs2, s2).
Proof.
  revert s. induction ops1 as [|o ops1 IH]; intros s; cbn [app].
  { change (srun [] s) with (@nil res, s). cbn iota. by destruct (srun ops2 s). }
  rewrite !srun_cons. destruct (aexec true o s) as [r s1]. rewrite IH. destruct (srun ops1 s1) as [rs1 s2].
  by destruct (srun ops2 s2).
Qed.

Fixpoint plain (UA : gmap Z Z) (ops : list op) (s : spec) : Prop :=
  match ops with
  | [] => True
  | o :: ops => can UA s o /\ needs_memory o = false /\ plain UA ops (aexec true o s).2
  end.

#[export] Instance plain_dec UA ops s : Decision (plain UA ops s).
Proof. revert s. induction ops as [|o ops IH]; intros s; cbn; apply _. Defined.

Lemma plain_app UA ops1 ops2 s : plain UA ops1 s -> plain UA ops2 (srun ops1 s).2 -> plain UA (ops1 ++ ops2) s.
Proof.
  revert s. induction ops1 as [|o ops1 IH]; intros s; [done|]. intros (H1 & H2 & H3) H4. split; [done|]. split; [done|].
  apply IH; [done|]. rewrite srun_cons in H4. destruct (aexec true o s) as [r s1]. cbn [snd] in *. by destruct (srun ops1 s1).
Qed.

Lemma run_plain UA level L s ops : inv UA level L s -> plain UA ops s ->
  exists L', run ops L = Some ((srun ops s).1, L') /\ inv UA level L' (srun ops s).2.
Proof.
  revert L s. induction ops as [|o ops IH]; intros L s Hinv Hp; [by exists L|]. destruct Hp as (Ho & Hn & Hp).
  destruct (log_exec_refines L s o Hinv Ho) as (given & r & s' & L1 & R & Ha & Hinv1 & [->|Hg]); [|congruence].
  rewrite Ha in Hp. destruct (IH L1 s' Hinv1 Hp) as (L2 & R2 & Hinv2). exists L2. rewrite srun_cons, Ha. cbn [run].
  rewrite (bind_run _ _ _ _ _ R), (bind_run _ _ _ _ _ R2). by destruct (srun ops s').
Qed.

(** *** Writing and reading back *)

Record args := Args { w_hw : option Z; w_1 : Z; w_2 : Z; w_3 : Z; w_4 : Z; w_5 : Z; w_6 : Z; w_7 : Z }.

Definition w_params (d : args) : list Z := [w_1 d; w_2 d; w_3 d; w_4 d; w_5 d; w_6 d; w_7 d].
Definition write_op (n : Z) (d : args) : op := OWrite (w_hw d) n (w_1 d) (w_2 d) (w_3 d) (w_4 d) (w_5 d) (w_6 d) (w_7 d).

(** The entries that calls of [_lwlog_write] make, numbered from [number]. *)
Fixpoint numbered (c : Clocks.clock) (number : Z) (ds : list args) : list entry :=
  match ds with
  | [] => []
  | d :: ds => Entry number (stamp c (w_hw d)) (w_params d) :: numbered c (w32 (number + 1)) ds
  end.

Definition last_n {A} (n : Z) (l : list A) : list A := drop (length l - Z.to_nat n) l.

Lemma last_n_all {A} n (l : list A) : zlen l <= n -> last_n n l = l.
Proof. intros Hl. unfold last_n. by replace (length l - Z.to_nat n)%nat with 0%nat by lia. Qed.

Lemma last_n_snoc {A} n (l : list A) x : 1 <= n -> zlen l <= n ->
  (if n <=? zlen l then tail l else l) ++ [x] = last_n n (l ++ [x]).
Proof.
  intros Hn Hl. unfold last_n. rewrite length_app. cbn [length]. destruct (Z.leb_spec n (zlen l)).
  - replace (length l + 1 - Z.to_nat n)%nat with 1%nat by lia. destruct l as [|y l]; [simpl in *; lia|done].
  - by replace (length l + 1 - Z.to_nat n)%nat with 0%nat by lia.
Qed.

Lemma last_n_app {A} n (l1 l2 : list A) : 0 <= n -> last_n n (last_n n l1 ++ l2) = last_n n (l1 ++ l2).
Proof.
  intros Hn. unfold last_n. rewrite !length_app, length_drop.
  destruct (decide (length l1 <= Z.to_nat n)%nat).
  - replace (length l1 - Z.to_nat n)%nat with 0%nat by lia. rewrite drop_0. do 2 f_equal. lia.
  - rewrite <-drop_app_le by lia. rewrite drop_drop. f_equal. lia.
Qed.

Lemma last_n_length {A} n (l : list A) : 0 <= n -> zlen (last_n n l) = Z.min n (zlen l).
Proof. intros Hn. unfold last_n. rewrite length_drop. lia. Qed.

Lemma set_logs_twice n a1 a2 s : set_logs (<[n := a2]>) (set_logs (<[n := a1]>) s) = set_logs (<[n := a2]>) s.
Proof. unfold set_logs. cbn. by rewrite insert_insert_eq. Qed.

Lemma on_log_some n s a k : n < LOG_MAXIMUM_NUMBER -> s_ready s = true -> s_logs s !! n = Some a ->
  on_log n s k = let (r, a') := k a in (r, set_logs (<[n := a']>) s).
Proof. intros Hn Hr Ha. unfold on_log. rewrite (proj2 (Z.leb_gt _ _)) by done. by rewrite Hr, Ha. Qed.

(** A log that takes every entry. *)
Record accepts (n : Z) (s : spec) (a : alog) : Prop := {
  ac_n : 0 <= n < LOG_MAXIMUM_NUMBER;
  ac_ready : s_ready s = true;
  ac_log : s_logs s !! n = Some a;
  ac_enabled : a_enabled a = true;
  ac_overwrite : a_overwrite a = true;
  ac_max : 1 <= a_max a;
  ac_len : zlen (a_entries a) <= a_max a
}.

Lemma accepts_write n s a d : accepts n s a ->
  let a' := with_entries (last_n (a_max a) (a_entries a ++ numbered (s_clock s) (a_number a) [d])) (w32 (a_number a + 1)) (moved a) a in
  aexec true (write_op n d) s = (RCode MQX_OK, set_logs (<[n := a']>) s) /\ accepts n (set_logs (<[n := a']>) s) a'.
Proof.
  intros [H1 H2 H3 H4 H5 H6 H7] a'. cbn [aexec write_op].
  rewrite (on_log_some n s a) by (done || lia). rewrite awrite_ok by done.
  assert (kept a ++ [Entry (a_number a) (stamp (s_clock s) (w_hw d)) [w_1 d; w_2 d; w_3 d; w_4 d; w_5 d; w_6 d; w_7 d]] =
    a_entries a') as ->.
  { unfold kept, a_full. cbn [a_entries a' with_entries numbered]. by rewrite last_n_snoc. }
  split; [done|]. split; try done.
  - cbn [s_logs set_logs]. apply lookup_insert_eq.
  - cbn [a_entries a' with_entries a_max]. rewrite last_n_length by lia. lia.
Qed.

Lemma srun_writes UA n ds : forall s a, accepts n s a ->
  exists a', srun (write_op n <$> ds) s = (replicate (length ds) (RCode MQX_OK), set_logs (<[n := a']>) s) /\
    accepts n (set_logs (<[n := a']>) s) a' /\ plain UA (write_op n <$> ds) s /\
    a_entries a' = last_n (a_max a) (a_entries a ++ numbered (s_clock s) (a_number a) ds) /\
    a_max a' = a_max a /\ a_at a' = a_at a /\ a_reads a' = a_reads a /\
    (a_full a = true -> a_next a = 0 \/ a_next a = a_max a -> a_full a' = true /\ (ds <> [] -> a_next a' = 0)).
Proof.
  induction ds as [|d ds IH]; intros s a Ha.
  - exists a. destruct Ha as [H1 H2 H3 H4 H5 H6 H7]. cbn [fmap list_fmap length replicate numbered].
    assert (set_logs (<[n := a]>) s = s) as -> by (destruct s; unfold set_logs; cbn in *; by rewrite insert_id).
    rewrite app_nil_r, last_n_all by done. split_and!; try done.
  - destruct (accepts_write n s a d Ha) as [He Ha1]. set (a1 := with_entries _ _ _ a) in *.
    destruct (IH _ _ Ha1) as (a' & Hs & Ha' & Hp & Hl & Hm & Hat & Hrd & Hfull). rewrite set_logs_twice in *.
    exists a'. cbn [fmap list_fmap]. rewrite srun_cons, He. split_and!; try done.
    + by rewrite Hs.
    + cbn [plain can needs_memory write_op]. split; [apply Ha|]. split; [done|]. by rewrite He.
    + rewrite Hl. cbn [a1 with_entries a_max a_entries a_number s_clock set_logs numbered].
      rewrite last_n_app by (destruct Ha; lia). by rewrite <-app_assoc.
    + intros Hf Hn. destruct Hfull as [Hf' Hn'].
      * unfold a_full in *. cbn [a1 with_entries a_max a_entries]. rewrite last_n_length by (destruct Ha; lia).
        zreflect. apply Z.leb_le. rewrite length_app. simpl length. lia.
      * left. cbn [a1 with_entries a_next]. unfold moved. rewrite Hf. destruct Hn as [-> | ->]; [done|].
        by rewrite Z.eqb_refl, orb_true_r.
      * split; [done|]. intros _. destruct ds as [|d' ds]; [|by apply Hn'].
        cbn [fmap list_fmap] in Hs. assert (a1 = a') as <-.
        { destruct s as [x y z]. unfold srun in Hs. cbn in Hs. injection Hs as Hs.
          apply (f_equal (fun m => m !! n)) in Hs. rewrite !lookup_insert_eq in Hs. by simplify_eq. }
        cbn [a1 with_entries a_next]. unfold moved. rewrite Hf. destruct Hn as [-> | ->]; [done|].
        by rewrite Z.eqb_refl, orb_true_r.
Qed.

Record readable (UA : gmap Z Z) (n buffer : Z) (s : spec) (a : alog) : Prop := {
  rd_n : 0 <= n < LOG_MAXIMUM_NUMBER;
  rd_ready : s_ready s = true;
  rd_log : s_logs s !! n = Some a;
  rd_buffer : buffer <> NULL;
  rd_unused : unused UA s buffer sizeof_ENTRY
}.

Lemma readable_update UA n buffer s a a' : readable UA n buffer s a -> a_at a' = a_at a ->
  readable UA n buffer (set_logs (<[n := a']>) s) a'.
Proof.
  intros [R1 R2 R3 R4 [R5 R6]] Ea. split; [done|done| |done|split; [done|]]; cbn [s_logs set_logs].
  - apply lookup_insert_eq.
  - intros k x [[<- <-]|[_ Hk]]%lookup_insert_Some; [rewrite Ea; by apply (R6 n a)|by apply (R6 k x)].
Qed.

Lemma aexec_read UA n ty buffer s a r x a' : readable UA n buffer s a -> aread ty a = (r, x, a') ->
  aexec true (ORead n ty buffer) s =
    (RRead r (if r =? MQX_OK then from_option entry_words [] x else []), set_logs (<[n := a']>) s).
Proof.
  intros [R1 R2 R3 R4 R5] Hr. cbn [aexec]. rewrite (proj2 (Z.leb_gt _ _)) by lia.
  rewrite (proj2 (Z.eqb_neq _ _)) by done. rewrite (on_log_some n s a) by (done || lia). rewrite R3. cbn [mbind option_bind].
  by rewrite Hr.
Qed.

Definition found_entry (x : entry) : res := RRead MQX_OK (entry_words x).
Definition nothing_left : res := RRead LOG_ENTRY_NOT_AVAILABLE [].

(** A reader that has just read the [a_next]-th entry reads the others. *)
Lemma srun_nexts UA n buffer m : forall s a, readable UA n buffer s a -> a_max a < 2 ^ 31 -> 1 <= a_next a ->
  a_reads a = a_next a -> a_next a + Z.of_nat m = zlen (a_entries a) -> zlen (a_entries a) <= a_max a ->
  (srun (replicate (S m) (ORead n LOG_READ_NEXT buffer)) s).1 =
    (found_entry <$> drop (Z.to_nat (a_next a)) (a_entries a)) ++ [nothing_left] /\
  plain UA (replicate (S m) (ORead n LOG_READ_NEXT buffer)) s.
Proof.
  induction m as [|m IH]; intros s a Hr Hm Hk Hrd Hlen Hmax; rewrite replicate_S, srun_cons; cbn [plain can needs_memory].
  all: assert (a_entries a <> []) as Hne by (intros He; rewrite He in Hlen; simpl in Hlen; lia).
  all: assert (can UA s (ORead n LOG_READ_NEXT buffer)) as Hcan
    by (destruct Hr as [R1 R2 R3 R4 R5]; split; [lia|]; split; [by right|]; right; rewrite R3; cbn; lia).
  - assert (a_done a = true) as Hd by (unfold a_done; rewrite (proj2 (Z.eqb_eq (a_next a) _)) by lia; done).
    assert (aread LOG_READ_NEXT a = (LOG_ENTRY_NOT_AVAILABLE, None, a)) as Ha.
    { unfold aread. destruct (a_entries a); [done|]. cbn. by rewrite Hd. }
    rewrite (aexec_read UA n _ _ s a _ _ _ Hr Ha). cbn [replicate srun]. split; [|done].
    rewrite drop_ge by lia. done.
  - assert (a_done a = false) as Hd.
    { unfold a_done. rewrite (proj2 (Z.eqb_neq (a_next a) (zlen _))), (proj2 (Z.eqb_neq (a_next a) 0)) by lia. done. }
    destruct (lookup_lt_is_Some_2 (a_entries a) (Z.to_nat (a_next a))) as [x Hx]; [lia|].
    assert (aread LOG_READ_NEXT a = (MQX_OK, Some x, with_cursor (a_next a + 1) (a_reads a + 1) a)) as Ha.
    { unfold aread. destruct (a_entries a) eqn:He; [done|]. cbn. by rewrite Hd, Hx. }
    rewrite (aexec_read UA n _ _ s a _ _ _ Hr Ha). cbn [snd].
    destruct (IH (set_logs (<[n := with_cursor (a_next a + 1) (a_reads a + 1) a]>) s)
      (with_cursor (a_next a + 1) (a_reads a + 1) a)) as [Hs Hp]; cbn [with_cursor a_max a_next a_reads a_entries];
      [by eapply readable_update|lia..|].
    split; [|done]. destruct (srun (replicate (S m) _) _) as [rs s2]. cbn [fst] in *. rewrite Hs.
    cbn [with_cursor a_next a_entries]. rewrite (drop_S _ x (Z.to_nat (a_next a)) Hx).
    by replace (Z.to_nat (a_next a + 1)) with (S (Z.to_nat (a_next a))) by lia.
Qed.

(** The oldest entry, then the next ones until there are no more. *)
Definition read_all (n buffer : Z) (m : nat) : list op :=
  ORead n LOG_READ_OLDEST buffer :: replicate m (ORead n LOG_READ_NEXT buffer).

Lemma srun_read_all UA n buffer s a : readable UA n buffer s a -> a_max a < 2 ^ 31 -> a_entries a <> [] ->
  zlen (a_entries a) <= a_max a ->
  (srun (read_all n buffer (length (a_entries a))) s).1 = (found_entry <$> a_entries a) ++ [nothing_left] /\
  plain UA (read_all n buffer (length (a_entries a))) s.
Proof.
  intros Hr Hm Hne Hlen. unfold read_all. rewrite srun_cons. cbn [plain can needs_memory].
  destruct (a_entries a) as [|x l] eqn:He; [done|].
  assert (aread LOG_READ_OLDEST a = (MQX_OK, Some x, with_cursor 1 1 a)) as Ha by (unfold aread; by rewrite He).
  rewrite (aexec_read UA n _ _ s a _ _ _ Hr Ha). cbn [snd length].
  destruct (srun_nexts UA n buffer (length l) (set_logs (<[n := with_cursor 1 1 a]>) s) (with_cursor 1 1 a)) as [Hs Hp];
    cbn [with_cursor a_max a_next a_reads a_entries]; rewrite ?He; [by eapply readable_update|done|lia|done|simpl length; lia|done|].
  split.
  - destruct (srun (replicate (S (length l)) _) _) as [rs s2]. cbn [fst] in *. rewrite Hs.
      cbn [with_cursor a_next a_entries]. by rewrite He.
  - split; [|done]. destruct Hr as [R1 R2 R3 R4 R5]. split; [lia|]. split; [by right|]. by left.
Qed.

Lemma inv_log UA level L s n a : inv UA level L s -> s_logs s !! n = Some a ->
  0 <= n < LOG_MAXIMUM_NUMBER /\ s_ready s = true /\ 1 <= a_max a < 2 ^ 31 /\ zlen (a_entries a) <= a_max a.
Proof.
  intros (_ & B & w & at_ & S) Ha. destruct (proj2 (so_at _ _ _ _ _ _ _ S n)) as [h Hat]; [by eexists|].
  destruct (so_log _ _ _ _ _ _ _ S _ _ _ Ha Hat) as (Hn & _ & Hr & o & Hl).
  destruct (region_bound _ _ _ _ _ (so_heap _ _ _ _ _ _ _ S) Hr) as (? & _ & Hb). unfold log_bytes, sizeof_ENTRY in Hb.
  destruct Hl. split; [done|]. split; [by eapply sound_ready|]. split; [lia|done].
Qed.

(** C12: Reading a log back: after any number of writes to an enabled log that
    overwrites, a reader that asks for the oldest entry and then for the next
    ones gets, in the order of writing, the last entries that fit into the log,
    with consecutive sequence numbers, the time stamps of their writes and the
    parameters written, and then nothing. *)
Theorem lwlog_read_back UA level L s n a ds buffer (Hinv : inv UA level L s) (Ha : s_logs s !! n = Some a)
  (Hen : a_enabled a = true) (Hov : a_overwrite a = true) (Hbuf : buffer <> NULL) (Hun : unused UA s buffer sizeof_ENTRY)
  (Hds : a_entries a ++ numbered (s_clock s) (a_number a) ds <> []) :
  let l := last_n (a_max a) (a_entries a ++ numbered (s_clock s) (a_number a) ds) in
  exists L', run ((write_op n <$> ds) ++ read_all n buffer (length l)) L =
    Some (replicate (length ds) (RCode MQX_OK) ++ (found_entry <$> l) ++ [nothing_left], L').
Proof.
  intros l. destruct (inv_log _ _ _ _ _ _ Hinv Ha) as (Hn & Hr & Hm & Hl).
  assert (accepts n s a) as Hac by (split; done || lia).
  destruct (srun_writes UA n ds s a Hac) as (a' & Hs & Hac' & Hp & Hl' & Hm' & Hat' & _). fold l in Hl'.
  assert (readable UA n buffer (set_logs (<[n := a']>) s) a') as Hrd.
  { eapply readable_update; [|done]. by split. }
  destruct (srun_read_all UA n buffer (set_logs (<[n := a']>) s) a' Hrd) as [Hs2 Hp2]; [lia| |apply Hac'|].
  { rewrite Hl'. intros Hnil. apply Hds. apply (f_equal (@length entry)) in Hnil. apply length_zero_iff_nil.
    pose proof (last_n_length (a_max a) (a_entries a ++ numbered (s_clock s) (a_number a) ds) ltac:(lia)) as Hlen.
    fold l in Hlen. rewrite Hnil in Hlen. simpl in Hlen. lia. }
  rewrite Hl' in Hs2, Hp2.
  destruct (run_plain UA level L s ((write_op n <$> ds) ++ read_all n buffer (length l)) Hinv) as (L' & R & _).
  { apply plain_app; [done|]. by rewrite Hs. }
  exists L'. rewrite R. do 2 f_equal. rewrite srun_app, Hs. destruct (srun (read_all _ _ _) _) as [rs s2].
  cbn [fst] in *. by rewrite Hs2.
Qed.

(** C40: A reader that has read every entry of a full log with
    [LOG_READ_NEXT] is told that there is nothing more, however many entries
    are written to the log afterwards: the writes move the reader past the new
    entries, and the count of its reads stays. *)
Theorem lwlog_reader_stuck UA level L s n a ds buffer (Hinv : inv UA level L s) (Ha : s_logs s !! n = Some a)
  (Hen : a_enabled a = true) (Hov : a_overwrite a = true) (Hbuf : buffer <> NULL) (Hun : unused UA s buffer sizeof_ENTRY)
  (Hfull : zlen (a_entries a) = a_max a) (Hall : a_next a = a_max a) (Hrd : a_max a <= a_reads a)
  (Hbound : a_reads a + 1 < 2 ^ 32) (Hds : ds <> []) :
  exists L', run ((write_op n <$> ds) ++ [ORead n LOG_READ_NEXT buffer]) L =
    Some (replicate (length ds) (RCode MQX_OK) ++ [nothing_left], L').
Proof.
  destruct (inv_log _ _ _ _ _ _ Hinv Ha) as (Hn & Hr & Hm & Hl).
  assert (accepts n s a) as Hac by (split; done || lia).
  destruct (srun_writes UA n ds s a Hac) as (a' & Hs & Hac' & Hp & Hl' & Hm' & Hat' & Hrd' & Hf).
  destruct Hf as [Hf Hn']; [by apply Z.leb_le; lia|by right|]. specialize (Hn' Hds).
  assert (readable UA n buffer (set_logs (<[n := a']>) s) a') as Hread.
  { eapply readable_update; [|done]. by split. }
  assert (a_done a' = true) as Hd.
  { unfold a_done. rewrite Hn', Hf. cbn [Z.eqb andb]. unfold a_full in Hf. zreflect.
    pose proof (ac_len _ _ _ Hac'). rewrite (proj2 (Z.leb_le _ _)) by lia. apply orb_true_r. }
  assert (aread LOG_READ_NEXT a' = (LOG_ENTRY_NOT_AVAILABLE, None, a')) as Hx.
  { unfold aread. destruct (a_entries a'); [done|]. cbn. by rewrite Hd. }
  destruct (run_plain UA level L s ((write_op n <$> ds) ++ [ORead n LOG_READ_NEXT buffer]) Hinv) as (L' & R & _).
  { apply plain_app; [done|]. rewrite Hs. cbn [snd plain can needs_memory]. split; [|done].
    destruct Hread as [Q1 Q2 Q3 Q4 Q5]. split; [lia|]. split; [by right|]. right. rewrite Q3. cbn. lia. }
  exists L'. rewrite R. do 2 f_equal. rewrite srun_app, Hs, srun_cons.
  by rewrite (aexec_read UA n _ _ _ _ _ _ _ Hread Hx).
Qed.

(** A reset of logs whose component is damaged returns with interrupts
    masked; the other operations unmask them. *)
Lemma lwlog_reset_masked L B w n : heap_is (HEAP L) B w -> 0 <= n < LOG_MAXIMUM_NUMBER -> KERNEL_LWLOG L <> NULL ->
  room B (VALID (KERNEL_LWLOG L)) -> w (VALID (KERNEL_LWLOG L)) <> LWLOG_VALID ->
  _lwlog_reset n L = Some (MQX_INVALID_COMPONENT_HANDLE, set_LEVEL (fun l => l + 1) L) /\
  _lwlog_disable n L = Some (MQX_INVALID_COMPONENT_HANDLE, L).
Proof.
  intros Hh Hn Hc Hr Hv. unfold _lwlog_reset, _lwlog_disable, with_log.
  rewrite (proj2 (Z.leb_gt _ _)) by lia. split; (erewrite bind_run by reflexivity);
    rewrite (proj2 (Z.eqb_neq _ _)) by done.
  - erewrite bind_run by reflexivity.
    rewrite (bind_run _ _ (mask L) _ _ (zoom_read _ (mask L) _ (heap_load _ _ _ _ Hh Hr))).
    by rewrite (proj2 (Z.eqb_neq _ _)).
  - rewrite (bind_run _ _ _ _ _ (zoom_read _ L _ (heap_load _ _ _ _ Hh Hr))).
    by rewrite (proj2 (Z.eqb_neq _ _)).
Qed.

End lwlog.


(** ** Examples *)

Definition ex_lw : lw := Lw boot 0 false 0 Clocks.demo_clock.
Definition ex_none : spec := Spec false ∅ Clocks.demo_clock.

Lemma ex_none_inv : inv boot_areas 0 ex_lw ex_none.
Proof.
  split; [done|]. exists boot_regions, (word boot), ∅. split; try done.
  - split; [apply boot_owns|done].
  - intros r z Hr. unfold boot_regions. by rewrite lookup_fmap, Hr.
  - intros n. cbn. by rewrite !lookup_empty.
Qed.

(** A log of two entries, created in the system's memory, and one of three in
    the caller's. *)
Definition ex_dynamic : spec := Spec true {[3 := new_log None 2 LOG_OVERWRITE]} Clocks.demo_clock.
Definition ex_static : spec :=
  Spec true (<[5 := new_log (Some 2304) 3 LOG_OVERWRITE]> (s_logs ex_dynamic)) Clocks.demo_clock.

(** The state after a request for memory that was met. *)
Lemma met_inv UA level L s o s' : inv (St := Lwmem.state) UA level L s -> can UA s o ->
  fst <$> exec o L = Some (RCode MQX_OK) -> (aexec false o s).1 <> RCode MQX_OK -> (aexec true o s).2 = s' ->
  exists L', exec o L = Some (RCode MQX_OK, L') /\ inv UA level L' s'.
Proof.
  intros Hi Hc He Hf <-. destruct (log_exec_refines L s o Hi Hc) as (given & r & s' & L1 & R & Ha & Hinv1 & Hg).
  rewrite R in He. cbn in He. simplify_eq. exists L1. split; [done|]. destruct given; [by rewrite Ha|]. by rewrite Ha in Hf.
Qed.

Lemma log_run_cons (L L1 L2 : lw (St := Lwmem.state)) o r ops rs : exec o L = Some (r, L1) -> run ops L1 = Some (rs, L2) ->
  run (o :: ops) L = Some (r :: rs, L2).
Proof. intros R1 R2. cbn [run]. by rewrite (bind_run _ _ _ _ _ R1), (bind_run _ _ _ _ _ R2). Qed.

Lemma ex_static_inv : exists L, inv boot_areas 0 L ex_static /\
  run [OCreate 3 2 LOG_OVERWRITE; OCreateAt 5 3 LOG_OVERWRITE 2304] ex_lw = Some ([RCode MQX_OK; RCode MQX_OK], L).
Proof.
  destruct (met_inv boot_areas 0 ex_lw ex_none (OCreate 3 2 LOG_OVERWRITE) ex_dynamic ex_none_inv)
    as (L1 & R1 & H1); [done|by vm_compute|done|done|].
  destruct (met_inv boot_areas 0 L1 ex_dynamic (OCreateAt 5 3 LOG_OVERWRITE 2304) ex_static H1) as (L2 & R2 & H2);
    [by apply (bool_decide_eq_true_1 _); vm_compute| |done|done|].
  - assert (fst <$> (exec (OCreate 3 2 LOG_OVERWRITE);; exec (OCreateAt 5 3 LOG_OVERWRITE 2304)) ex_lw =
      Some (RCode MQX_OK)) as He by by vm_compute.
    by rewrite (bind_run _ _ _ _ _ R1) in He.
  - exists L2. split; [done|]. by do 2 (eapply log_run_cons; [done|]).
Qed.

(** A program that uses every operation. *)
Definition ex_ops : list op :=
  [OTest 1; OCreate 3 2 LOG_OVERWRITE; OCreateAt 5 3 0 2304; OCreate 3 1 0; OTest 1;
   OWrite (Some 7) 3 11 12 13 14 15 16 17; OWrite None 3 21 22 23 24 25 26 27; OWrite None 3 31 32 33 34 35 36 37;
   ORead 3 LOG_READ_OLDEST 2048; ORead 3 LOG_READ_NEXT 2048; ORead 3 LOG_READ_NEXT 2048; ORead 3 LOG_READ_NEWEST 2048;
   ORead 3 LOG_READ_OLDEST_AND_DELETE 2048; OClock Clocks.demo_clock; ODisable 5; OWrite None 5 1 2 3 4 5 6 7; OEnable 5;
   OWrite None 5 1 2 3 4 5 6 7; OReset 5; ORead 5 LOG_READ_OLDEST 2048; ODestroy 3; ODestroy 3; OTest 0].

Lemma lwlog_trace_refines_witness : inv boot_areas 0 ex_lw ex_none /\ cans boot_areas ex_ops ex_none /\
  exists given L', length given = length ex_ops /\
    run ex_ops ex_lw = Some ((arun given ex_ops ex_none).1, L') /\ inv boot_areas 0 L' (arun given ex_ops ex_none).2.
Proof.
  assert (cans boot_areas ex_ops ex_none) as Hc by (apply (bool_decide_eq_true_1 _); vm_compute; done).
  split; [apply ex_none_inv|]. split; [done|].
  exact (lwlog_trace_refines boot_areas 0 ex_lw ex_none ex_ops ex_none_inv Hc).
Defined.

(** Its results are those of the specification when there is memory. *)
Example ex_log_run : fst <$> run ex_ops ex_lw = Some (srun ex_ops ex_none).1.
Proof. vm_compute. reflexivity. Qed.

Definition ex_call (k : Z) : args := Args (Some k) k (k + 1) (k + 2) (k + 3) (k + 4) (k + 5) (k + 6).

Lemma lwlog_read_back_witness : exists L L', inv boot_areas 0 L ex_static /\
  run ((write_op 5 <$> [ex_call 1; ex_call 2; ex_call 3; ex_call 4]) ++ read_all 5 2048 3) L =
    Some (replicate 4 (RCode MQX_OK) ++
      (found_entry <$> drop 1 (numbered Clocks.demo_clock 1 [ex_call 1; ex_call 2; ex_call 3; ex_call 4])) ++
      [nothing_left], L').
Proof.
  destruct ex_static_inv as (L & Hi & _). exists L.
  destruct (lwlog_read_back boot_areas 0 L ex_static 5 (new_log (Some 2304) 3 LOG_OVERWRITE)
    [ex_call 1; ex_call 2; ex_call 3; ex_call 4] 2048 Hi) as (L' & R);
    [done|done|done|done|by apply (bool_decide_eq_true_1 _); vm_compute|done|].
  exists L'. split; [exact Hi|exact R].
Defined.

(** After five entries, and a reader that has read the last three. *)
Definition ex_before : list op :=
  (write_op 5 <$> [ex_call 1; ex_call 2; ex_call 3; ex_call 4; ex_call 5]) ++ read_all 5 2048 2.

Lemma lwlog_reader_stuck_witness : exists L L', inv boot_areas 0 L (srun ex_before ex_static).2 /\
  run ((write_op 5 <$> [ex_call 6; ex_call 7]) ++ [ORead 5 LOG_READ_NEXT 2048]) L =
    Some ([RCode MQX_OK; RCode MQX_OK; RRead LOG_ENTRY_NOT_AVAILABLE []], L').
Proof.
  destruct ex_static_inv as (L0 & Hi0 & _).
  destruct (run_plain boot_areas 0 L0 ex_static ex_before Hi0) as (L & _ & Hi);
    [by apply (bool_decide_eq_true_1 _); vm_compute|].
  exists L.
  destruct (lwlog_reader_stuck boot_areas 0 L (srun ex_before ex_static).2 5
    (default (new_log None 0 0) (s_logs (srun ex_before ex_static).2 !! 5)) [ex_call 6; ex_call 7] 2048 Hi) as (L' & R);
    [by vm_compute|done|done|done|by apply (bool_decide_eq_true_1 _); vm_compute|done|done|done|done|done|].
  exists L'. split; [exact Hi|exact R].
Defined.

(** The number of bytes for a log is computed in 32 bits: a log of 2^28 + 1
    entries is given the bytes of one entry. *)
Example ex_size_wraps : _lwlog_calculate_size (2 ^ 28 + 1) = _lwlog_calculate_size 1.
Proof. reflexivity. Qed.

End Lwlog.
