(* ===== verification/Lwtimer.v ===== *)
(** * Lightweight timers: [kernel/lwtimer.c]

    A periodic queue counts the ticks of its period in [EXPIRY] and holds its
    timers in the order of their offsets; [TIMER_PTR] is the last timer that
    was processed in this period.  The links are those of [Queue]: the list of
    periodic queues hangs on [kernel_data->LWTIMERS], the timers of a queue on
    its field [TIMERS].  The functions of the timers belong to the application
    and may call the operations of this file themselves; they are the
    parameter [isr].

    Interrupts are masked while a function changes the lists, so each of the
    operations is one step, and so is the clock tick that calls
    [_lwtimer_isr_internal]. *)

From Stdlib Require Import Sorting.Sorted.
From S2P Require Import Prelude Queue.

Module Lwtimer.

Export Queue.

(** ** Data *)

Definition MQX_INVALID_PARAMETER : Z := 12.
Definition MQX_LWTIMER_INVALID : Z := 64.         (* MQX_ERROR_BASE | 0x40 *)
Definition LWTIMER_VALID : Z := 1819767913.       (* 0x6C777469 *)

Record period := Per {
  PERIOD : Z; EXPIRY : Z; WAIT : Z; TIMER_PTR : Z; PVALID : Z
}.

Record timer := Tmr {
  RELATIVE_TICKS : Z; TVALID : Z; TIMER_FUNCTION : Z; PARAMETER : Z; PERIOD_PTR : Z
}.

(** [LINK] is the first field of both structures, so the address of a
    structure is that of its queue element; this is the address of [TIMERS]
    within an [LWTIMER_PERIOD_STRUCT]. *)
Definition TIMERS (period_ptr : Z) : Z := period_ptr + 20.

(** The links, the structures by address, and whether [LWTIMER_ISR] is set. *)
Record lt := Lt {
  QS : store; PERIODS : gmap Z period; TMRS : gmap Z timer; LWTIMER_ISR : bool
}.

Definition set_QS (q : store) (L : lt) : lt := Lt q (PERIODS L) (TMRS L) (LWTIMER_ISR L).
Definition set_PERIODS (f : gmap Z period -> gmap Z period) (L : lt) : lt :=
  Lt (QS L) (f (PERIODS L)) (TMRS L) (LWTIMER_ISR L).
Definition set_TMRS (f : gmap Z timer -> gmap Z timer) (L : lt) : lt :=
  Lt (QS L) (PERIODS L) (f (TMRS L)) (LWTIMER_ISR L).
Definition set_ISR (b : bool) (L : lt) : lt := Lt (QS L) (PERIODS L) (TMRS L) b.

Abbreviation links := (zoom QS set_QS).

#[export] Instance links_zoom : ZoomLaw QS set_QS.
Proof. by intros []. Qed.

Definition get_period (p : Z) : M lt period := fun L => lift_opt (PERIODS L !! p) L.
Definition get_timer (t : Z) : M lt timer := fun L => lift_opt (TMRS L !! t) L.

(** Stores of fields; the structure must be there. *)
Definition set_period (p : Z) (v : period) : M lt unit :=
  get_period p;; modify (set_PERIODS (<[p := v]>)).
Definition set_timer (t : Z) (v : timer) : M lt unit :=
  get_timer t;; modify (set_TMRS (<[t := v]>)).

Definition with_TIMER_PTR (x : Z) (v : period) : period := Per (PERIOD v) (EXPIRY v) (WAIT v) x (PVALID v).
Definition with_EXPIRY (x : Z) (v : period) : period := Per (PERIOD v) x (WAIT v) (TIMER_PTR v) (PVALID v).
Definition with_WAIT (x : Z) (v : period) : period := Per (PERIOD v) (EXPIRY v) x (TIMER_PTR v) (PVALID v).
Definition with_PVALID (x : Z) (v : period) : period := Per (PERIOD v) (EXPIRY v) (WAIT v) (TIMER_PTR v) x.
Definition with_TVALID (x : Z) (d : timer) : timer :=
  Tmr (RELATIVE_TICKS d) x (TIMER_FUNCTION d) (PARAMETER d) (PERIOD_PTR d).

Section lwtimer.

(** The address of [kernel_data->LWTIMERS]. *)
Context (LWTIMERS : Z).

(** ** The operations *)

Definition _lwtimer_create_periodic_queue (period_ptr period wait_ticks : Z) : M lt Z :=
  v ← get_period period_ptr;
  set_period period_ptr (Per period 0 wait_ticks (TIMER_PTR v) (PVALID v));;
  links (_QUEUE_INIT (TIMERS period_ptr) 0);;
  set_period period_ptr (Per period 0 wait_ticks (TIMERS period_ptr) (PVALID v));;
  next ← links (get_NEXT LWTIMERS);
  (if next =? NULL then links (_QUEUE_INIT LWTIMERS 0);; modify (set_ISR true) else mret tt);;
  set_period period_ptr (Per period 0 wait_ticks (TIMERS period_ptr) LWTIMER_VALID);;
  links (_QUEUE_ENQUEUE LWTIMERS period_ptr);;
  mret MQX_OK.

(** The search of [_lwtimer_add_timer_to_queue], [n] being the number of
    timers left to look at. *)
Fixpoint add_loop (n : nat) (qe_ptr ticks : Z) : M lt Z :=
  match n with
  | O => mret qe_ptr
  | S n =>
      qe_ptr ← links (get_NEXT qe_ptr);
      d ← get_timer qe_ptr;
      if ticks <=? RELATIVE_TICKS d then links (get_PREV qe_ptr)
      else add_loop n qe_ptr ticks
  end.

Definition _lwtimer_add_timer_to_queue (period_ptr timer_ptr ticks func parameter : Z) : M lt Z :=
  v ← get_period period_ptr;
  if negb (PVALID v =? LWTIMER_VALID) then mret MQX_LWTIMER_INVALID
  else if PERIOD v <=? ticks then mret MQX_INVALID_PARAMETER
  else
    d ← get_timer timer_ptr;
    set_timer timer_ptr (Tmr ticks (TVALID d) func parameter period_ptr);;
    size ← links (_QUEUE_GET_SIZE (TIMERS period_ptr));
    qe_ptr ← add_loop (Z.to_nat size) (TIMERS period_ptr) ticks;
    set_timer timer_ptr (Tmr ticks LWTIMER_VALID func parameter period_ptr);;
    links (_QUEUE_INSERT (TIMERS period_ptr) qe_ptr timer_ptr);;
    mret MQX_OK.

Definition _lwtimer_cancel_timer (timer_ptr : Z) : M lt Z :=
  d ← get_timer timer_ptr;
  if negb (TVALID d =? LWTIMER_VALID) then mret MQX_LWTIMER_INVALID
  else
    let period_ptr := PERIOD_PTR d in
    v ← get_period period_ptr;
    if negb (PVALID v =? LWTIMER_VALID) then mret MQX_LWTIMER_INVALID
    else
      set_timer timer_ptr (with_TVALID 0 d);;
      (if timer_ptr =? TIMER_PTR v then
         prev ← links (get_PREV timer_ptr);
         set_period period_ptr (with_TIMER_PTR prev v)
       else mret tt);;
      links (_QUEUE_REMOVE (TIMERS period_ptr) timer_ptr);;
      mret MQX_OK.

Definition _lwtimer_cancel_period (period_ptr : Z) : M lt Z :=
  v ← get_period period_ptr;
  if negb (PVALID v =? LWTIMER_VALID) then mret MQX_LWTIMER_INVALID
  else
    set_period period_ptr (with_PVALID 0 v);;
    links (_QUEUE_REMOVE LWTIMERS period_ptr);;
    mret MQX_OK.

(** ** The clock tick *)

Section isr.

(** What the function of a timer does when it is called with a parameter. *)
Context (isr : Z -> Z -> M lt unit).

(** The [for] loop over the timers of a queue.  The result names the timers
    whose functions were called, in order. *)
Fixpoint expire_loop (fuel : nat) (period_ptr timer_ptr : Z) : M lt (list Z) :=
  match fuel with
  | O => fault
  | S fuel =>
      if timer_ptr =? TIMERS period_ptr then mret []
      else
        d ← get_timer timer_ptr;
        v ← get_period period_ptr;
        if EXPIRY v <? RELATIVE_TICKS d then mret []
        else
          set_period period_ptr (with_TIMER_PTR timer_ptr v);;
          isr (TIMER_FUNCTION d) (PARAMETER d);;
          next ← links (get_NEXT timer_ptr);
          called ← expire_loop fuel period_ptr next;
          mret (timer_ptr :: called)
  end.

Definition period_tick (fuel : nat) (period_ptr : Z) : M lt (list Z) :=
  v ← get_period period_ptr;
  if negb (WAIT v =? 0) then
    set_period period_ptr (with_WAIT (w32 (WAIT v - 1)) v);; mret []
  else
    timer_ptr ← links (get_NEXT (TIMER_PTR v));
    called ← expire_loop fuel period_ptr timer_ptr;
    v ← get_period period_ptr;
    let expiry := w32 (EXPIRY v + 1) in
    set_period period_ptr (with_EXPIRY expiry v);;
    (if expiry =? PERIOD v then
       set_period period_ptr (with_TIMER_PTR (TIMERS period_ptr) (with_EXPIRY 0 v))
     else mret tt);;
    mret called.

(** The [while] loop of [_lwtimer_isr_internal]. *)
Fixpoint isr_loop (fuel inner : nat) (period_ptr : Z) : M lt (list Z) :=
  match fuel with
  | O => fault
  | S fuel =>
      if period_ptr =? LWTIMERS then mret []
      else
        called ← period_tick inner period_ptr;
        next ← links (get_NEXT period_ptr);
        rest ← isr_loop fuel inner next;
        mret (called ++ rest)
  end.

(** No more periodic queues, or timers, can be listed than there are. *)
Definition _lwtimer_isr_internal : M lt (list Z) :=
  L ← gets id;
  period_ptr ← links (get_NEXT LWTIMERS);
  isr_loop (S (size (PERIODS L))) (S (size (TMRS L))) period_ptr.

(** The call in [_time_notify_kernel]. *)
Definition lwtimer_tick : M lt (list Z) :=
  L ← gets id;
  if LWTIMER_ISR L then _lwtimer_isr_internal else mret [].

End isr.

(** ** The test *)

(** The loop over the timers of one queue: a timer that is not valid. *)
Fixpoint test_timers (fuel : nat) (period_ptr timer_ptr : Z) : M lt (option Z) :=
  match fuel with
  | O => fault
  | S fuel =>
      if timer_ptr =? TIMERS period_ptr then mret None
      else
        d ← get_timer timer_ptr;
        if negb (TVALID d =? LWTIMER_VALID) then mret (Some timer_ptr)
        else next ← links (get_NEXT timer_ptr); test_timers fuel period_ptr next
  end.

(** What [_lwtimer_test] returns, what it stores through its two pointers, and
    whether it has enabled the interrupts again that it disabled. *)
Record verdict := Verdict {
  RESULT : Z; PERIOD_ERROR : Z; TIMER_ERROR : Z; ENABLED : bool
}.

Fixpoint test_periods (fuel inner : nat) (period_ptr : Z) : M lt verdict :=
  match fuel with
  | O => fault
  | S fuel =>
      if period_ptr =? LWTIMERS then mret (Verdict MQX_OK NULL NULL true)
      else
        v ← get_period period_ptr;
        if negb (PVALID v =? LWTIMER_VALID)
        then mret (Verdict MQX_LWTIMER_INVALID period_ptr NULL true)
        else
          r ← links (_queue_test (TIMERS period_ptr));
          if negb (r.1 =? MQX_OK)
          then mret (Verdict r.1 period_ptr (default NULL r.2) true)
          else
            timer_ptr ← links (get_NEXT (TIMERS period_ptr));
            bad ← test_timers inner period_ptr timer_ptr;
            match bad with
            | Some t => mret (Verdict MQX_LWTIMER_INVALID period_ptr t false)
            | None => next ← links (get_NEXT period_ptr); test_periods fuel inner next
            end
  end.

Definition _lwtimer_test : M lt verdict :=
  L ← gets id;
  next ← links (get_NEXT LWTIMERS);
  if next =? NULL then mret (Verdict MQX_OK NULL NULL true)
  else
    r ← links (_queue_test LWTIMERS);
    if negb (r.1 =? MQX_OK) then mret (Verdict r.1 (default NULL r.2) NULL true)
    else
      period_ptr ← links (get_NEXT LWTIMERS);
      test_periods (S (size (PERIODS L))) (S (size (TMRS L))) period_ptr.

(** ** Abstract specification

    [once f]: the function [f] cancels the timer that called it (the timer is
    its parameter); every other function leaves the timers alone. *)

Class Functions := { isr : Z -> Z -> M lt unit; once : Z -> bool }.

Class FunctionLaws `{Functions} :=
  isr_acts f x L :
    isr f x L = (if once f then _lwtimer_cancel_timer x;; mret tt else mret tt) L.

Record atimer := At { at_ptr : Z; at_ticks : Z; at_func : Z }.

(** A periodic queue: the position within the period, the ticks to wait, the
    timers before the position of [TIMER_PTR] and those still to come. *)
Record aper := Ap {
  ap_ptr : Z; ap_period : Z; ap_phase : Z; ap_wait : Z;
  ap_done : list atimer; ap_todo : list atimer
}.

(** [orphans]: the timers left behind in periodic queues that were cancelled. *)
Record spec := Spec { queues : list aper; orphans : gmap Z Z }.

Definition all_timers (a : aper) : list atimer := ap_done a ++ ap_todo a.
Definition ptrs (l : list atimer) : list Z := at_ptr <$> l.
Definition periods (s : spec) : list Z := ap_ptr <$> queues s.
Definition queued (s : spec) : list Z := queues s ≫= (fun a => ptrs (all_timers a)).

(** Before the first timer of the same or a greater offset. *)
Fixpoint place (x : atimer) (l : list atimer) : list atimer :=
  match l with
  | [] => [x]
  | y :: l' => if at_ticks x <=? at_ticks y then x :: l else y :: place x l'
  end.

Definition aadd (x : atimer) (a : aper) : aper :=
  if existsb (fun y => at_ticks x <=? at_ticks y) (ap_done a)
  then Ap (ap_ptr a) (ap_period a) (ap_phase a) (ap_wait a) (place x (ap_done a)) (ap_todo a)
  else Ap (ap_ptr a) (ap_period a) (ap_phase a) (ap_wait a) (ap_done a) (place x (ap_todo a)).

Definition drop_timer (t : Z) (l : list atimer) : list atimer := filter (fun x => at_ptr x <> t) l.

Definition acancel (t : Z) (a : aper) : aper :=
  Ap (ap_ptr a) (ap_period a) (ap_phase a) (ap_wait a) (drop_timer t (ap_done a)) (drop_timer t (ap_todo a)).

(** The timers at the front that are due at a position, and the others. *)
Fixpoint expire (phase : Z) (l : list atimer) : list atimer * list atimer :=
  match l with
  | [] => ([], [])
  | x :: l' =>
      if phase <? at_ticks x then ([], l)
      else let (now, later) := expire phase l' in (x :: now, later)
  end.

Section spec.
Context `{Functions}.

Definition keep (l : list atimer) : list atimer := filter (fun x => once (at_func x) = false) l.

(** One tick: the timers whose functions are called, and what is next. *)
Definition atick (a : aper) : list Z * aper :=
  if negb (ap_wait a =? 0)
  then ([], Ap (ap_ptr a) (ap_period a) (ap_phase a) (w32 (ap_wait a - 1)) (ap_done a) (ap_todo a))
  else
    let (now, later) := expire (ap_phase a) (ap_todo a) in
    let expiry := w32 (ap_phase a + 1) in
    (ptrs now,
     if expiry =? ap_period a
     then Ap (ap_ptr a) (ap_period a) 0 0 [] (ap_done a ++ keep now ++ later)
     else Ap (ap_ptr a) (ap_period a) expiry 0 (ap_done a ++ keep now) later).

End spec.

(** The operations of a program with timers, with the clock. *)
Inductive op :=
  | OCreate (p period wait : Z) | OAdd (p t ticks func parameter : Z)
  | OCancel (t : Z) | OCancelPeriod (p : Z) | OTick.

(** What an operation returns: a code, or the timers that were called. *)
Inductive res := RCode (r : Z) | RCalled (l : list Z).

Definition on_period (p : Z) (f : aper -> aper) (qs : list aper) : list aper :=
  (fun a => if ap_ptr a =? p then f a else a) <$> qs.

Definition abandon (a : aper) (o : gmap Z Z) : gmap Z Z :=
  foldr (fun t => <[t := ap_ptr a]>) o (ptrs (all_timers a)).

Section run.
Context `{Functions}.

Definition exec (o : op) : M lt res :=
  match o with
  | OCreate p period wait => r ← _lwtimer_create_periodic_queue p period wait; mret (RCode r)
  | OAdd p t ticks func parameter => r ← _lwtimer_add_timer_to_queue p t ticks func parameter; mret (RCode r)
  | OCancel t => r ← _lwtimer_cancel_timer t; mret (RCode r)
  | OCancelPeriod p => r ← _lwtimer_cancel_period p; mret (RCode r)
  | OTick => l ← lwtimer_tick isr; mret (RCalled l)
  end.

Fixpoint run (ops : list op) : M lt (list res) :=
  match ops with
  | [] => mret []
  | o :: ops => r ← exec o; rs ← run ops; mret (r :: rs)
  end.

Definition aexec (o : op) (s : spec) : res * spec :=
  match o with
  | OCreate p period wait => (RCode MQX_OK, Spec (queues s ++ [Ap p period 0 wait [] []]) (orphans s))
  | OAdd p t ticks func parameter =>
      match find (fun a => ap_ptr a =? p) (queues s) with
      | None => (RCode MQX_LWTIMER_INVALID, s)
      | Some a =>
          if ap_period a <=? ticks then (RCode MQX_INVALID_PARAMETER, s)
          else (RCode MQX_OK, Spec (on_period p (aadd (At t ticks func)) (queues s)) (delete t (orphans s)))
      end
  | OCancel t =>
      if bool_decide (t ∈ queued s)
      then (RCode MQX_OK, Spec (acancel t <$> queues s) (orphans s))
      else (RCode MQX_LWTIMER_INVALID, s)
  | OCancelPeriod p =>
      match find (fun a => ap_ptr a =? p) (queues s) with
      | None => (RCode MQX_LWTIMER_INVALID, s)
      | Some a => (RCode MQX_OK, Spec (filter (fun a => ap_ptr a <> p) (queues s)) (abandon a (orphans s)))
      end
  | OTick =>
      let l := atick <$> queues s in (RCalled (l ≫= fst), Spec (snd <$> l) (orphans s))
  end.

Fixpoint arun (ops : list op) (s : spec) : list res * spec :=
  match ops with
  | [] => ([], s)
  | o :: ops => let (r, s1) := aexec o s in let (rs, s2) := arun ops s1 in (r :: rs, s2)
  end.

(** ** Representation

    [PA] and [TA] are the addresses of the structures that the application
    uses for periodic queues and timers. *)

Context (PA TA : list Z).

(** What the callers respect: a structure is initialised, or added, while it
    is in no list; the structure of a periodic queue is not used again while
    timers point to it that were left behind when it was cancelled. *)
Definition can (s : spec) (o : op) : Prop :=
  match o with
  | OCreate p period wait =>
      p ∈ PA /\ p ∉ periods s /\ map_Forall (fun _ q => q <> p) (orphans s) /\
      0 <= period < 2 ^ 32 /\ 0 <= wait < 2 ^ 32
  | OAdd p t ticks func parameter =>
      p ∈ PA /\ t ∈ TA /\ t ∉ queued s /\ 0 <= ticks /\ (once func = true -> parameter = t)
  | OCancel t => t ∈ TA
  | OCancelPeriod p => p ∈ PA
  | OTick => True
  end.

#[export] Instance can_dec s o : Decision (can s o).
Proof. destruct o; cbn; apply _. Defined.

Fixpoint cans (ops : list op) (s : spec) : Prop :=
  match ops with
  | [] => True
  | o :: ops => can s o /\ cans ops (snd (aexec o s))
  end.

#[export] Instance cans_dec ops : forall s, Decision (cans ops s).
Proof. induction ops as [|o ops IH]; intros s; cbn; apply _. Defined.

(** The structures do not overlap. *)
Record pools : Prop := {
  p_nodup : NoDup (NULL :: LWTIMERS :: PA ++ (TIMERS <$> PA) ++ TA);
  p_few : zlen PA < 65535 /\ zlen TA < 65535
}.

Definition timer_ok (L : lt) (p : Z) (x : atimer) : Prop :=
  exists parameter,
    TMRS L !! at_ptr x = Some (Tmr (at_ticks x) LWTIMER_VALID (at_func x) parameter p) /\
    (once (at_func x) = true -> parameter = at_ptr x).

(** A periodic queue as the structure and the links have it. *)
Record per_ok (L : lt) (a : aper) : Prop := {
  po_struct : PERIODS L !! ap_ptr a =
    Some (Per (ap_period a) (ap_phase a) (ap_wait a)
              (last_from (TIMERS (ap_ptr a)) (ptrs (ap_done a))) LWTIMER_VALID);
  po_links : queue_repr (QS L) (TIMERS (ap_ptr a)) (ptrs (all_timers a)) 0;
  po_timers : forall x, x ∈ all_timers a -> timer_ok L (ap_ptr a) x
}.

Record aok (a : aper) : Prop := {
  ao_sorted : StronglySorted (fun x y => at_ticks x <= at_ticks y) (all_timers a);
  ao_ticks : forall x, x ∈ all_timers a -> 0 <= at_ticks x < ap_period a;
  ao_period : 0 <= ap_period a < 2 ^ 32;
  ao_phase : 0 <= ap_phase a < 2 ^ 32 /\ (ap_period a <> 0 -> ap_phase a < ap_period a);
  ao_wait : 0 <= ap_wait a < 2 ^ 32
}.

(** The structure of a periodic queue that is not listed. *)
Definition spare (L : lt) (p : Z) : Prop :=
  has_links (QS L) p /\ has_links (QS L) (TIMERS p) /\
  is_Some (SIZE (QS L) !! TIMERS p) /\ is_Some (MAX (QS L) !! TIMERS p) /\
  exists v, PERIODS L !! p = Some v /\ PVALID v <> LWTIMER_VALID.

(** A timer that is in no queue. *)
Definition idle (L : lt) (s : spec) (t : Z) : Prop :=
  has_links (QS L) t /\ exists d, TMRS L !! t = Some d /\
    (TVALID d = LWTIMER_VALID ->
       orphans s !! t = Some (PERIOD_PTR d) /\ PERIOD_PTR d ∈ PA /\ PERIOD_PTR d ∉ periods s).

Definition list_ok (L : lt) (s : spec) : Prop :=
  if LWTIMER_ISR L then queue_repr (QS L) LWTIMERS (periods s) 0
  else queues s = [] /\ NEXT (QS L) !! LWTIMERS = Some NULL /\ is_Some (PREV (QS L) !! LWTIMERS) /\
       is_Some (SIZE (QS L) !! LWTIMERS) /\ is_Some (MAX (QS L) !! LWTIMERS).

Record inv (L : lt) (s : spec) : Prop := {
  i_list : list_ok L s;
  i_per : forall a, a ∈ queues s -> per_ok L a /\ aok a;
  i_spare : forall p, p ∈ PA -> p ∉ periods s -> spare L p;
  i_idle : forall t, t ∈ TA -> t ∉ queued s -> idle L s t;
  i_periods : NoDup (periods s) /\ periods s ⊆ PA;
  i_queued : NoDup (queued s) /\ queued s ⊆ TA
}.

End run.

(** ** The structures do not overlap *)

Section pools.
Context (PA TA : list Z) (Hpools : pools PA TA).

Lemma pool_facts :
  (forall p, p ∈ PA -> p <> NULL /\ p <> LWTIMERS /\ p ∉ TA /\ (forall p', p' ∈ PA -> p <> TIMERS p')) /\
  (forall p, p ∈ PA -> TIMERS p <> NULL /\ TIMERS p <> LWTIMERS /\ TIMERS p ∉ TA) /\
  (forall t, t ∈ TA -> t <> NULL /\ t <> LWTIMERS) /\ LWTIMERS <> NULL.
Proof.
  destruct Hpools as [Hn _].
  apply NoDup_cons in Hn as [H0 Hn]. apply NoDup_cons in Hn as [H1 Hn].
  apply NoDup_app in Hn as (_ & H2 & Hn). apply NoDup_app in Hn as (_ & H3 & _).
  assert (forall p, p ∈ PA -> TIMERS p ∈ TIMERS <$> PA) as Hf by (intros; by apply list_elem_of_fmap_2).
  rewrite elem_of_cons, !elem_of_app in H0. rewrite !elem_of_app in H1.
  split_and!.
  - intros p Hp. split_and!.
    + intros ->. tauto.
    + intros ->. tauto.
    + intros Ht. destruct (H2 _ Hp). set_solver.
    + intros p' Hp' ->. destruct (H2 _ Hp). rewrite elem_of_app. eauto.
  - intros p Hp. pose proof (Hf _ Hp). split_and!; [intros E; rewrite E in *; tauto..|eauto].
  - intros t Ht. split; intros ->; tauto.
  - intros E. rewrite E in *. tauto.
Qed.

Lemma elem_of_queued t s : t ∈ queued s <-> exists a, a ∈ queues s /\ t ∈ ptrs (all_timers a).
Proof. unfold queued. rewrite list_elem_of_bind. naive_solver. Qed.

Lemma elem_of_periods p s : p ∈ periods s <-> exists a, a ∈ queues s /\ ap_ptr a = p.
Proof. unfold periods. rewrite list_elem_of_fmap. naive_solver. Qed.

Lemma queued_mid q1 a q2 o :
  queued (Spec (q1 ++ a :: q2) o) ≡ₚ ptrs (all_timers a) ++ queued (Spec (q1 ++ q2) o).
Proof.
  unfold queued. simpl. rewrite !bind_app, bind_cons. rewrite !app_assoc. f_equiv. apply Permutation_app_comm.
Qed.

Lemma periods_mid q1 a q2 o : periods (Spec (q1 ++ a :: q2) o) = periods (Spec q1 o) ++ ap_ptr a :: periods (Spec q2 o).
Proof. unfold periods. simpl. by rewrite fmap_app, fmap_cons. Qed.


(** ** What an operation on one queue leaves alone *)

Context `{Functions}.

(** Two stores agree outside [X]. *)
Record agree (X : list Z) (s s' : store) : Prop := {
  ag_next : forall p, p ∉ X -> NEXT s' !! p = NEXT s !! p;
  ag_prev : forall p, p ∉ X -> PREV s' !! p = PREV s !! p;
  ag_size : forall p, p ∉ X -> SIZE s' !! p = SIZE s !! p;
  ag_max : forall p, p ∉ X -> MAX s' !! p = MAX s !! p
}.

Lemma same_agree X s s' : same_outside X s s' -> agree X s s'.
Proof. intros [H1 H2 H3 H4]. by split. Qed.

Lemma agree_sub X Y s s' : X ⊆ Y -> agree X s s' -> agree Y s s'.
Proof. intros HXY [H1 H2 H3 H4]. split; auto. Qed.

Lemma agree_trans X s1 s2 s3 : agree X s1 s2 -> agree X s2 s3 -> agree X s1 s3.
Proof. intros [A1 A2 A3 A4] [B1 B2 B3 B4]. split; intros; [rewrite B1, A1|rewrite B2, A2|rewrite B3, A3|rewrite B4, A4]; done. Qed.

Lemma repr_agree X s s' q l max :
  agree X s s' -> (forall x, x ∈ q :: l -> x ∉ X) -> queue_repr s q l max -> queue_repr s' q l max.
Proof.
  intros [HN HP HS HM] HX [Hs Hnd Hnull Hsz Hmax Hr Hmr]. split; try done.
  - apply (lseg_frame s); [| |done]; intros a Ha; [apply HN|apply HP]; apply HX; set_solver.
  - rewrite HS by (apply HX; set_solver). done.
  - rewrite HM by (apply HX; set_solver). done.
Qed.

Lemma per_ok_frame X L L' a :
  per_ok L a -> agree X (QS L) (QS L') ->
  (forall x, x ∈ TIMERS (ap_ptr a) :: ptrs (all_timers a) -> x ∉ X) ->
  PERIODS L' !! ap_ptr a = PERIODS L !! ap_ptr a ->
  (forall t, t ∈ ptrs (all_timers a) -> TMRS L' !! t = TMRS L !! t) -> per_ok L' a.
Proof.
  intros [H1 H2 H3] Hs HX Hp Ht. split.
  - by rewrite Hp.
  - by eapply repr_agree.
  - intros x Hx. destruct (H3 x Hx) as (y & Hy & Ho). exists y. split; [|done].
    rewrite Ht; [done|]. by apply list_elem_of_fmap_2.
Qed.

Lemma links_frame X s s' p : agree X s s' -> p ∉ X -> has_links s p -> has_links s' p.
Proof. intros [H1 H2 _ _] Hp [? ?]. unfold has_links. by rewrite H1, H2 by done. Qed.

Lemma spare_frame X L L' p :
  spare L p -> agree X (QS L) (QS L') -> p ∉ X -> TIMERS p ∉ X ->
  PERIODS L' !! p = PERIODS L !! p -> spare L' p.
Proof.
  intros (H1 & H2 & H3 & H4 & H5) Hs Hp Ht E. unfold spare. rewrite E.
  split_and!; [by eapply links_frame..| | |done].
  - by rewrite (ag_size _ _ _ Hs).
  - by rewrite (ag_max _ _ _ Hs).
Qed.

Lemma idle_frame X L L' s s' t :
  idle PA L s t -> agree X (QS L) (QS L') -> t ∉ X -> TMRS L' !! t = TMRS L !! t ->
  orphans s' !! t = orphans s !! t -> periods s' ⊆ periods s -> idle PA L' s' t.
Proof.
  intros (H1 & d & H2 & H3) Hs Ht E Eo Hp. split; [by eapply links_frame|].
  exists d. rewrite E, Eo. split; [done|]. intros Hd. destruct (H3 Hd) as (? & ? & Hn).
  split_and!; [done..|]. intros Hi. by apply Hn, Hp.
Qed.

Lemma listed_set L s a : inv PA TA L s -> a ∈ queues s -> LWTIMER_ISR L = true.
Proof.
  intros Hi Ha. pose proof (i_list _ _ _ _ Hi) as Hl. unfold list_ok in Hl.
  destruct (LWTIMER_ISR L); [done|]. destruct Hl as [E _]. rewrite E in Ha. set_solver.
Qed.

Lemma inv_repr L s a : inv PA TA L s -> a ∈ queues s -> queue_repr (QS L) LWTIMERS (periods s) 0.
Proof.
  intros Hi Ha. pose proof (i_list _ _ _ _ Hi) as Hl. unfold list_ok in Hl.
  by rewrite (listed_set L s a) in Hl.
Qed.

(** The queue of [a] changes, and the timers [ts]. *)
Lemma inv_focus X ts L L' q1 a a' q2 o o' :
  inv PA TA L (Spec (q1 ++ a :: q2) o) -> ap_ptr a' = ap_ptr a ->
  same_outside X (QS L) (QS L') -> X ⊆ TIMERS (ap_ptr a) :: ts -> ts ⊆ TA ->
  ptrs (all_timers a) ⊆ ts -> ptrs (all_timers a') ⊆ ts ->
  (forall t, t ∈ ts -> t ∉ queued (Spec (q1 ++ q2) o)) ->
  (forall p, p <> ap_ptr a -> PERIODS L' !! p = PERIODS L !! p) ->
  (forall t, t ∉ ts -> TMRS L' !! t = TMRS L !! t /\ o' !! t = o !! t) ->
  LWTIMER_ISR L' = LWTIMER_ISR L -> per_ok L' a' -> aok a' -> NoDup (ptrs (all_timers a')) ->
  (forall t, t ∈ ts -> t ∉ ptrs (all_timers a') -> idle PA L' (Spec (q1 ++ a' :: q2) o') t) ->
  inv PA TA L' (Spec (q1 ++ a' :: q2) o').
Proof.
  intros Hi Hp Hs0 HX Hts Ha1 Ha2 Hd HP HT HI Hk Hok Hnd Hid.
  pose proof (same_agree _ _ _ Hs0) as Hs.
  pose proof (i_periods _ _ _ _ Hi) as [Hpn Hps]. pose proof (i_queued _ _ _ _ Hi) as [Hqn Hqs].
  destruct pool_facts as (F1 & F2 & F3 & _).
  assert (periods (Spec (q1 ++ a' :: q2) o') = periods (Spec (q1 ++ a :: q2) o)) as Epp
    by (rewrite !periods_mid, Hp; done).
  assert (ap_ptr a ∈ PA) as Hpa by (apply Hps; rewrite periods_mid; set_solver).
  assert (forall x, x ∈ PA -> x ∉ X) as HXp.
  { intros x Hx Hin. destruct (F1 x Hx) as (_ & _ & Hn & Hq).
    apply HX, elem_of_cons in Hin as [->|Hin]; [by apply (Hq _ Hpa)|]. by apply Hn, Hts. }
  assert (forall x, x ∈ PA -> x <> ap_ptr a -> TIMERS x ∉ X) as HXt.
  { intros x Hx Hne Hin. apply HX, elem_of_cons in Hin as [Hin|Hin]; [unfold TIMERS in Hin; lia|].
    destruct (F2 x Hx) as (_ & _ & Hn). by apply Hn, Hts. }
  assert (LWTIMERS ∉ X) as HXl.
  { intros Hin. apply HX, elem_of_cons in Hin as [Hin|Hin]; [destruct (F2 _ Hpa) as (_ & Hn & _); congruence|].
    by apply (F3 LWTIMERS (Hts _ Hin)). }
  assert (forall t, t ∈ TA -> t ∉ ts -> t ∉ X) as HXq.
  { intros t Ht Hn Hin. apply HX, elem_of_cons in Hin as [->|Hin]; [|done].
    destruct (F2 _ Hpa) as (_ & _ & Hn'). by apply Hn'. }
  assert (forall b, b ∈ q1 ++ q2 -> ap_ptr b <> ap_ptr a /\ b ∈ q1 ++ a :: q2) as Hb.
  { intros b Hb. split; [|set_solver]. intros E. rewrite periods_mid in Hpn.
    apply NoDup_app in Hpn as (_ & Hpn & Hpn2). apply NoDup_cons in Hpn2 as [Hpn2 _].
    assert (ap_ptr b ∈ periods (Spec q1 o) \/ ap_ptr b ∈ periods (Spec q2 o)) as [Hin|Hin].
    { unfold periods. simpl. apply elem_of_app in Hb as [Hb|Hb]; [left|right]; by apply list_elem_of_fmap_2. }
    - apply (Hpn _ Hin). rewrite E. by left.
    - by rewrite E in Hin. }
  assert (forall b t, b ∈ q1 ++ q2 -> t ∈ ptrs (all_timers b) -> t ∉ ts) as Hbt.
  { intros b t Hbin Ht Hin. apply (Hd t Hin), elem_of_queued. eauto. }
  split.
  - pose proof (i_list _ _ _ _ Hi) as Hl. unfold list_ok in *. rewrite HI.
    destruct (LWTIMER_ISR L); [|by destruct Hl as [E _]; destruct q1]. rewrite Epp.
    eapply repr_agree; [done| |done]. intros x Hx. apply elem_of_cons in Hx as [->|Hx]; [done|]. auto.
  - intros b Hbin. assert (b = a' \/ b ∈ q1 ++ q2) as [->|Hin] by (simpl in Hbin; set_solver); [done|].
    destruct (Hb b Hin) as [Hne Hbin']. destruct (i_per _ _ _ _ Hi b Hbin') as [Hkb Hokb]. split; [|done].
    assert (ap_ptr b ∈ PA) as HbP by (apply Hps, elem_of_periods; eauto).
    apply (per_ok_frame X L); [done..| | |].
    + intros x Hx. apply elem_of_cons in Hx as [->|Hx]; [by apply HXt|].
      apply HXq; [|by eapply Hbt]. apply Hqs, elem_of_queued. eauto.
    + by apply HP.
    + intros t Ht. apply HT. by eapply Hbt.
  - intros p HpP Hpn'. rewrite Epp in Hpn'. apply (spare_frame X L); [by eapply i_spare|done|auto| |].
    + apply HXt; [done|]. intros ->. apply Hpn'. rewrite periods_mid. set_solver.
    + apply HP. intros ->. apply Hpn'. rewrite periods_mid. set_solver.
  - intros t Ht Hn. destruct (decide (t ∈ ts)) as [Hin|Hin].
    + apply Hid; [done|]. intros Hin'. apply Hn. rewrite queued_mid. set_solver.
    + destruct (HT t Hin) as [E1 E2]. apply (idle_frame X L L' (Spec (q1 ++ a :: q2) o)); [|done|auto|done|done|by rewrite Epp].
      eapply i_idle; [done..|]. rewrite queued_mid in *. set_solver.
  - by rewrite Epp.
  - rewrite queued_mid. rewrite queued_mid in Hqn, Hqs. apply NoDup_app in Hqn as (_ & _ & Hqn). split.
    + change (queued (Spec (q1 ++ q2) o')) with (queued (Spec (q1 ++ q2) o)). apply NoDup_app. split_and!; [done| |done]. auto.
    + change (queued (Spec (q1 ++ q2) o')) with (queued (Spec (q1 ++ q2) o)). set_solver.
Qed.


(** ** Running the primitives *)

Lemma get_period_run L p v : PERIODS L !! p = Some v -> get_period p L = Some (v, L).
Proof. intros E. unfold get_period. by rewrite E. Qed.

Lemma get_timer_run L t d : TMRS L !! t = Some d -> get_timer t L = Some (d, L).
Proof. intros E. unfold get_timer. by rewrite E. Qed.

Lemma set_period_run L p v w : PERIODS L !! p = Some w ->
  set_period p v L = Some (tt, set_PERIODS (<[p := v]>) L).
Proof. intros E. unfold set_period. by rewrite (bind_run _ _ _ _ _ (get_period_run _ _ _ E)). Qed.

Lemma set_timer_run L t d w : TMRS L !! t = Some w ->
  set_timer t d L = Some (tt, set_TMRS (<[t := d]>) L).
Proof. intros E. unfold set_timer. by rewrite (bind_run _ _ _ _ _ (get_timer_run _ _ _ E)). Qed.

#[local] Abbreviation links_run := (zoom_run (get := QS) (set := set_QS)).
#[local] Abbreviation links_read := (zoom_read (get := QS) (set := set_QS)).

(** ** Lists of timers *)

Lemma ptrs_app l1 l2 : ptrs (l1 ++ l2) = ptrs l1 ++ ptrs l2.
Proof. apply fmap_app. Qed.

Lemma ptrs_mid l1 x l2 : ptrs (l1 ++ x :: l2) = ptrs l1 ++ at_ptr x :: ptrs l2.
Proof. by rewrite ptrs_app. Qed.

Lemma drop_app t l1 l2 : drop_timer t (l1 ++ l2) = drop_timer t l1 ++ drop_timer t l2.
Proof. apply filter_app. Qed.

Lemma drop_cons t x l : drop_timer t (x :: l) = if decide (at_ptr x = t) then drop_timer t l else x :: drop_timer t l.
Proof. unfold drop_timer. rewrite filter_cons. repeat case_decide; done. Qed.

Lemma drop_absent t l : t ∉ ptrs l -> drop_timer t l = l.
Proof.
  induction l as [|x l IH]; intros Hn; [done|]. cbn in Hn. apply not_elem_of_cons in Hn as [Hx Hn].
  rewrite drop_cons, decide_False by congruence. f_equal. by apply IH.
Qed.

Lemma drop_elem t x l : x ∈ drop_timer t l <-> x ∈ l /\ at_ptr x <> t.
Proof. unfold drop_timer. rewrite list_elem_of_filter. tauto. Qed.

Lemma drop_mid l1 x l2 : NoDup (ptrs (l1 ++ x :: l2)) -> drop_timer (at_ptr x) (l1 ++ x :: l2) = l1 ++ l2.
Proof.
  rewrite ptrs_app. cbn. intros Hn. apply NoDup_app in Hn as (_ & Hd & Hn). apply NoDup_cons in Hn as [Hn _].
  rewrite drop_app, drop_cons, decide_True by done.
  rewrite (drop_absent _ l1); [|intros Hin; apply (Hd _ Hin); by left]. f_equal. by apply drop_absent.
Qed.

Lemma drop_last h t l : last_from h (ptrs l) <> t -> last_from h (ptrs (drop_timer t l)) = last_from h (ptrs l).
Proof.
  induction l as [|x l _] using rev_ind; [done|]. rewrite drop_app, drop_cons. rewrite ptrs_mid, last_from_app. intros Hx. cbn in Hx.
  rewrite decide_False by done. cbn [drop_timer]. by rewrite ptrs_mid, last_from_app.
Qed.

Lemma ptrs_split t l : t ∈ ptrs l -> exists l1 x l2, l = l1 ++ x :: l2 /\ at_ptr x = t.
Proof.
  intros Hin. apply list_elem_of_fmap in Hin as (x & -> & Hx).
  apply list_elem_of_split in Hx as (l1 & l2 & ->). eauto.
Qed.

Lemma sorted_drop t (R : atimer -> atimer -> Prop) l : StronglySorted R l -> StronglySorted R (drop_timer t l).
Proof.
  induction 1 as [|x l Hl IH Hx]; [constructor|]. rewrite drop_cons.
  case_decide; [done|]. constructor; [done|]. rewrite list.Forall_forall in *. intros y Hy.
  apply Hx. by apply drop_elem in Hy as [? _].
Qed.

Lemma all_acancel t a : all_timers (acancel t a) = drop_timer t (all_timers a).
Proof. unfold all_timers. cbn. by rewrite drop_app. Qed.

Lemma acancel_ok t a : aok a -> aok (acancel t a).
Proof.
  intros [H1 H2 H3 H4 H5]. split; rewrite ?all_acancel; try done; [by apply sorted_drop|].
  intros x Hx. apply H2. by apply drop_elem in Hx as [? _].
Qed.

(** ** Cancelling a timer *)

(** A queued timer splits the queue; [TIMER_PTR] steps back if it points to it. *)
Lemma cancel_split h a t : NoDup (h :: ptrs (all_timers a)) -> t ∈ ptrs (all_timers a) ->
  exists l1 x l2, all_timers a = l1 ++ x :: l2 /\ at_ptr x = t /\
    last_from h (ptrs (drop_timer t (ap_done a))) =
    (if t =? last_from h (ptrs (ap_done a)) then last_from h (ptrs l1) else last_from h (ptrs (ap_done a))).
Proof.
  intros Hn Ht. destruct (Z.eqb_spec t (last_from h (ptrs (ap_done a)))) as [E|E].
  - unfold all_timers in *. destruct (ap_done a) as [|y d1 _] using rev_ind.
    + cbn in E. subst. by apply NoDup_cons in Hn as [Hn _].
    + rewrite ptrs_mid, last_from_app in E. cbn in E. exists d1, y, (ap_todo a).
      split_and!; [by rewrite <-app_assoc|done|]. rewrite <-app_assoc in Hn. apply NoDup_cons in Hn as [_ Hn].
      rewrite ptrs_app in Hn. apply NoDup_app in Hn as (_ & Hd & _).
      rewrite drop_app, drop_cons, decide_True by done. cbn. rewrite app_nil_r, drop_absent; [done|].
      intros Hin. apply (Hd _ Hin). rewrite E. by left.
  - destruct (ptrs_split t _ Ht) as (l1 & x & l2 & El & Ex). exists l1, x, l2.
    split_and!; [done..|]. apply drop_last. congruence.
Qed.

Lemma cancel_mid L q1 a q2 o t :
  inv PA TA L (Spec (q1 ++ a :: q2) o) -> t ∈ ptrs (all_timers a) ->
  exists L', _lwtimer_cancel_timer t L = Some (MQX_OK, L') /\
    inv PA TA L' (Spec (q1 ++ acancel t a :: q2) o) /\ NEXT (QS L') !! t = NEXT (QS L) !! t.
Proof.
  intros Hi Ht. assert (a ∈ q1 ++ a :: q2) as Ha by set_solver.
  destruct (i_per _ _ _ _ Hi a Ha) as [[Hp Hq Ht'] Hok].
  pose proof (i_queued _ _ _ _ Hi) as [Hqn Hqs]. rewrite queued_mid in Hqn, Hqs.
  apply NoDup_app in Hqn as (Hn & Hd & _).
  destruct (cancel_split _ a t (repr_nodup _ _ _ _ Hq) Ht) as (l1 & x & l2 & El & Ex & Elast).
  destruct (Ht' x) as (par & Hx & _); [rewrite El; set_solver|]. rewrite Ex in Hx.
  pose proof Hq as Hq'. rewrite El, ptrs_app in Hq'. cbn in Hq'. rewrite Ex in Hq'.
  destruct (QUEUE_REMOVE_spec _ _ _ _ _ _ Hq') as (s' & Hrun & Hq2 & Hs & Hl).
  assert (t ∉ TIMERS (ap_ptr a) :: ptrs l1 ++ ptrs l2) as Htn.
  { pose proof (repr_nodup _ _ _ _ Hq') as Hn'. rewrite app_comm_cons in Hn'.
    apply NoDup_app in Hn' as (_ & Hn1 & Hn2). apply NoDup_cons in Hn2 as [Hn2 _].
    rewrite app_comm_cons, not_elem_of_app. split; [|done]. intros Hin. apply (Hn1 _ Hin). by left. }
  assert (drop_timer t (all_timers a) = l1 ++ l2) as Edrop
    by (rewrite El, <-Ex; apply drop_mid; rewrite <-El; done).
  set (v' := Per (ap_period a) (ap_phase a) (ap_wait a)
               (last_from (TIMERS (ap_ptr a)) (ptrs (drop_timer t (ap_done a)))) LWTIMER_VALID).
  set (d0 := Tmr (at_ticks x) 0 (at_func x) par (ap_ptr a)).
  set (L' := Lt s' (<[ap_ptr a := v']> (PERIODS L)) (<[t := d0]> (TMRS L)) (LWTIMER_ISR L)).
  exists L'. split_and!.
  - unfold _lwtimer_cancel_timer. rewrite (bind_run _ _ _ _ _ (get_timer_run _ _ _ Hx)). cbn [TVALID PERIOD_PTR].
    rewrite Z.eqb_refl. cbn [negb]. rewrite (bind_run _ _ _ _ _ (get_period_run _ _ _ Hp)). cbn [PVALID].
    rewrite Z.eqb_refl. cbn [negb]. rewrite (bind_run _ _ _ _ _ (set_timer_run _ _ _ _ Hx)).
    set (L1 := set_TMRS _ L). cbn [TIMER_PTR].
    assert (PREV (QS L) !! t = Some (last_from (TIMERS (ap_ptr a)) (ptrs l1))) as Hprev.
    { pose proof (repr_lseg _ _ _ _ Hq') as Hls. apply lseg_cons_app in Hls as [Hls _].
      by eapply edge_prev, lseg_last. }
    rewrite (bind_run _ _ _ tt (set_PERIODS (<[ap_ptr a := v']>) L1)).
    + rewrite (bind_run _ _ _ tt L'); [done|]. exact (links_run (_QUEUE_REMOVE (TIMERS (ap_ptr a)) t) (set_PERIODS _ L1) tt s' Hrun).
    + unfold v'. rewrite Elast. destruct (t =? _).
      * erewrite bind_run; [|apply links_read, get_PREV_run; exact Hprev]. by eapply set_period_run.
      * unfold mret, M_ret, set_PERIODS. cbn. rewrite insert_id by done. done.
  - eapply (inv_focus (TIMERS (ap_ptr a) :: ptrs l1 ++ ptrs l2) (ptrs (all_timers a)) L L' q1 a).
    all: try done.
    + rewrite El, ptrs_app. cbn. set_solver.
    + set_solver.
    + rewrite all_acancel, Edrop, El, !ptrs_app. cbn. set_solver.
    + intros p Hne. unfold L'. cbn. by rewrite lookup_insert_ne.
    + intros u Hu. unfold L'. cbn. rewrite lookup_insert_ne; [done|]. intros ->. done.
    + split.
      * unfold L'. cbn. by rewrite lookup_insert_eq.
      * unfold L'. cbn [QS]. rewrite all_acancel, Edrop, ptrs_app. done.
      * intros y Hy. rewrite all_acancel in Hy. apply drop_elem in Hy as [Hy Hne].
        destruct (Ht' y Hy) as (z & Hz & Ho). exists z. split; [|done]. unfold L'. cbn. by rewrite lookup_insert_ne.
    + by apply acancel_ok.
    + rewrite all_acancel, Edrop, ptrs_app. rewrite El, ptrs_app in Hn. cbn in Hn.
      apply NoDup_app in Hn as (? & Hn1 & Hn2). apply NoDup_cons in Hn2 as [_ Hn2]. apply NoDup_app.
      split_and!; [done| |done]. intros u Hu Hu2. apply (Hn1 u Hu). by right.
    + intros u Hu Hu2. assert (u = t) as ->.
      { rewrite all_acancel, Edrop, ptrs_app in Hu2. rewrite El, ptrs_app in Hu. cbn in Hu. set_solver. }
      split; [done|]. exists d0. unfold L'. cbn. rewrite lookup_insert_eq. split; [done|]. by intros [=].
  - unfold L'. cbn [QS]. by apply (so_next _ _ _ Hs).
Qed.

(** ** Adding a timer *)

(** The timer goes behind all timers of smaller offsets at the front. *)
Lemma place_split x l : exists l1 l2, l = l1 ++ l2 /\ place x l = l1 ++ x :: l2 /\
  (forall y, y ∈ l1 -> at_ticks y < at_ticks x) /\
  match l2 with [] => True | y :: _ => at_ticks x <= at_ticks y end.
Proof.
  induction l as [|y l (l1 & l2 & -> & E & H1 & H2)].
  - exists [], []. split_and!; [done..|set_solver|done].
  - cbn. destruct (Z.leb_spec (at_ticks x) (at_ticks y)).
    + exists [], (y :: l1 ++ l2). split_and!; [done..|set_solver|done].
    + exists (y :: l1), l2. rewrite E. split_and!; [done..| |done].
      intros z Hz. apply elem_of_cons in Hz as [->|Hz]; auto.
Qed.

Lemma place_app_front x l1 l2 : existsb (fun y => at_ticks x <=? at_ticks y) l1 = true ->
  place x (l1 ++ l2) = place x l1 ++ l2.
Proof.
  induction l1 as [|y l1 IH]; [done|]. cbn. destruct (at_ticks x <=? at_ticks y); [done|].
  cbn. intros E. by rewrite IH.
Qed.

Lemma place_app_back x l1 l2 : existsb (fun y => at_ticks x <=? at_ticks y) l1 = false ->
  place x (l1 ++ l2) = l1 ++ place x l2.
Proof.
  induction l1 as [|y l1 IH]; [done|]. cbn. destruct (at_ticks x <=? at_ticks y); [done|].
  cbn. intros E. by rewrite IH.
Qed.

Lemma all_aadd x a : all_timers (aadd x a) = place x (all_timers a).
Proof.
  unfold aadd, all_timers. destruct (existsb _ _) eqn:E; cbn.
  - by rewrite place_app_front.
  - by rewrite place_app_back.
Qed.

Lemma last_place h x l : existsb (fun y => at_ticks x <=? at_ticks y) l = true ->
  last_from h (ptrs (place x l)) = last_from h (ptrs l).
Proof.
  intros E. destruct (place_split x l) as (l1 & l2 & -> & -> & H1 & _). destruct l2 as [|y l2].
  - exfalso. apply existsb_exists in E as (y & Hy & E). apply list_elem_of_In in Hy.
    rewrite app_nil_r in Hy. specialize (H1 y Hy). zreflect. lia.
  - by rewrite !ptrs_mid, !last_from_app.
Qed.

Lemma last_aadd h x a : last_from h (ptrs (ap_done (aadd x a))) = last_from h (ptrs (ap_done a)).
Proof. unfold aadd. destruct (existsb _ _) eqn:E; cbn; [by apply last_place|done]. Qed.

Lemma aadd_fields x a : ap_ptr (aadd x a) = ap_ptr a /\ ap_period (aadd x a) = ap_period a /\
  ap_phase (aadd x a) = ap_phase a /\ ap_wait (aadd x a) = ap_wait a.
Proof. unfold aadd. by destruct (existsb _ _). Qed.

Lemma elem_of_place y x l : y ∈ place x l <-> y = x \/ y ∈ l.
Proof. destruct (place_split x l) as (l1 & l2 & -> & -> & _). set_solver. Qed.

Lemma sorted_place x l : StronglySorted (fun x y => at_ticks x <= at_ticks y) l ->
  StronglySorted (fun x y => at_ticks x <= at_ticks y) (place x l).
Proof.
  induction 1 as [|y l Hl IH Hy]; cbn; [repeat constructor|].
  destruct (Z.leb_spec (at_ticks x) (at_ticks y)).
  - constructor; [by constructor|]. rewrite list.Forall_forall in *. intros z Hz.
    apply elem_of_cons in Hz as [->|Hz]; [done|]. specialize (Hy z Hz). lia.
  - constructor; [done|]. rewrite list.Forall_forall in *. intros z Hz.
    apply elem_of_place in Hz as [->|Hz]; [lia|auto].
Qed.

Lemma aadd_ok x a : aok a -> 0 <= at_ticks x < ap_period a -> aok (aadd x a).
Proof.
  intros [H1 H2 H3 H4 H5] Hx. destruct (aadd_fields x a) as (_ & E1 & E2 & E3).
  split; rewrite ?all_aadd, ?E1, ?E2, ?E3; try done; [by apply sorted_place|].
  intros y Hy. apply elem_of_place in Hy as [->|Hy]; auto.
Qed.

(** The search ends at the timer before the place. *)
Lemma add_loop_run L q l l2 r max : queue_repr (QS L) q (ptrs l) max ->
  (forall y, y ∈ l -> exists d, TMRS L !! at_ptr y = Some d /\ RELATIVE_TICKS d = at_ticks y) ->
  match l2 with [] => True | y :: _ => r <= at_ticks y end ->
  forall l1 l0, l = l0 ++ l1 ++ l2 -> (forall y, y ∈ l1 -> at_ticks y < r) ->
  add_loop (length (l1 ++ l2)) (last_from q (ptrs l0)) r L = Some (last_from q (ptrs (l0 ++ l1)), L).
Proof.
  intros Hq Ht H2. induction l1 as [|y l1 IH]; intros l0 El H1.
  - rewrite app_nil_r. cbn [app]. destruct l2 as [|y l2]; [done|]. cbn [length add_loop].
    pose proof (repr_lseg _ _ _ _ Hq) as Hl. rewrite El in Hl. cbn [app] in Hl. rewrite ptrs_mid in Hl.
    apply lseg_cons_app in Hl as [Hl _]. apply lseg_last in Hl.
    rewrite (bind_run _ _ _ _ _ (links_read _ _ _ (get_NEXT_run _ _ _ (edge_next _ _ _ Hl)))).
    destruct (Ht y) as (d & Hd & Er); [rewrite El; set_solver|].
    rewrite (bind_run _ _ _ _ _ (get_timer_run _ _ _ Hd)), Er, (proj2 (Z.leb_le _ _) H2).
    apply links_read, get_PREV_run, (edge_prev _ _ _ Hl).
  - cbn [app length add_loop].
    pose proof (repr_lseg _ _ _ _ Hq) as Hl. rewrite El in Hl. cbn [app] in Hl. rewrite ptrs_mid in Hl.
    apply lseg_cons_app in Hl as [Hl _]. apply lseg_last in Hl.
    rewrite (bind_run _ _ _ _ _ (links_read _ _ _ (get_NEXT_run _ _ _ (edge_next _ _ _ Hl)))).
    destruct (Ht y) as (d & Hd & Er); [rewrite El; set_solver|].
    rewrite (bind_run _ _ _ _ _ (get_timer_run _ _ _ Hd)), Er.
    rewrite (proj2 (Z.leb_gt _ _)) by (apply H1; by left).
    specialize (IH (l0 ++ [y])). rewrite ptrs_mid, last_from_app in IH. cbn [ptrs fmap list_fmap last_from] in IH.
    rewrite IH; [by rewrite <-app_assoc|by rewrite <-app_assoc|]. intros z Hz. apply H1. by right.
Qed.

Lemma ptrs_length l : length (ptrs l) = length l.
Proof. apply length_fmap. Qed.

Lemma nodup_few (l l' : list Z) : NoDup l -> l ⊆ l' -> zlen l <= zlen l'.
Proof. intros Hn Hs. apply inj_le, submseteq_length, NoDup_submseteq; done. Qed.

(** Distinct keys of a map are not more than its size. *)
Lemma NoDup_subset_length {A} (l : list Z) (m : gmap Z A) : NoDup l ->
  (forall x, x ∈ l -> is_Some (m !! x)) -> (length l <= size m)%nat.
Proof.
  intros Hn Hm. rewrite <-(size_dom (D := gset Z)), <-(size_list_to_set (C := gset Z) l Hn).
  apply subseteq_size. intros x Hx. apply elem_of_list_to_set in Hx. apply elem_of_dom. auto.
Qed.

Lemma few_timers a s L : inv PA TA L s -> a ∈ queues s -> zlen (ptrs (all_timers a)) < 65535.
Proof.
  intros Hi Ha. destruct Hpools as [_ [_ Hf]]. pose proof (i_queued _ _ _ _ Hi) as [_ Hq].
  destruct (i_per _ _ _ _ Hi a Ha) as [[_ Hr _] _]. apply repr_nodup, NoDup_cons in Hr as [_ Hr].
  assert (zlen (ptrs (all_timers a)) <= zlen TA); [|lia]. apply nodup_few; [done|].
  intros x Hx. apply Hq, elem_of_queued. eauto.
Qed.

Lemma add_mid L q1 a q2 o t r f x :
  inv PA TA L (Spec (q1 ++ a :: q2) o) -> t ∈ TA -> t ∉ queued (Spec (q1 ++ a :: q2) o) ->
  0 <= r < ap_period a -> (once f = true -> x = t) ->
  exists L', _lwtimer_add_timer_to_queue (ap_ptr a) t r f x L = Some (MQX_OK, L') /\
    inv PA TA L' (Spec (q1 ++ aadd (At t r f) a :: q2) (delete t o)).
Proof.
  intros Hi HtA Htq Hr Hx. assert (a ∈ q1 ++ a :: q2) as Ha by set_solver.
  destruct (i_per _ _ _ _ Hi a Ha) as [[Hp Hq Ht] Hok].
  pose proof (i_queued _ _ _ _ Hi) as [Hqn Hqs]. rewrite queued_mid in Hqn, Hqs, Htq.
  apply not_elem_of_app in Htq as [Hta Htq].
  apply NoDup_app in Hqn as (Hn & Hd & _).
  destruct (i_idle _ _ _ _ Hi t HtA) as [Hl (d & Hd0 & _)].
  { rewrite queued_mid, not_elem_of_app. done. }
  destruct (place_split (At t r f) (all_timers a)) as (l1 & l2 & El & Ep & H1 & H2). cbn in H1, H2.
  assert (ap_ptr a ∈ PA) as HpP by (apply (i_periods _ _ _ _ Hi), elem_of_periods; eauto).
  destruct pool_facts as (_ & F2 & F3 & _).
  destruct (F2 _ HpP) as (_ & _ & Htp).
  destruct (QUEUE_INSERT_spec (QS L) (TIMERS (ap_ptr a)) (ptrs l1) (ptrs l2) t 0) as (s' & Hrun & Hq2 & Hs).
  { by rewrite <-ptrs_app, <-El. }
  { done. }
  { rewrite <-ptrs_app, <-El. rewrite !not_elem_of_cons. split_and!; [by apply F3| |done]. by intros ->. }
  { rewrite <-ptrs_app, <-El. pose proof (few_timers a _ _ Hi Ha). lia. }
  set (d0 := Tmr r LWTIMER_VALID f x (ap_ptr a)).
  set (L' := Lt s' (PERIODS L) (<[t := d0]> (TMRS L)) (LWTIMER_ISR L)).
  exists L'. split.
  - unfold _lwtimer_add_timer_to_queue. rewrite (bind_run _ _ _ _ _ (get_period_run _ _ _ Hp)).
    cbn [PVALID PERIOD]. rewrite Z.eqb_refl, (proj2 (Z.leb_gt _ _)) by lia. cbn [negb].
    rewrite (bind_run _ _ _ _ _ (get_timer_run _ _ _ Hd0)), (bind_run _ _ _ _ _ (set_timer_run _ _ _ _ Hd0)).
    set (L1 := set_TMRS _ L).
    rewrite (bind_run _ _ _ _ _ (links_read (_QUEUE_GET_SIZE _) L1 _ (get_SIZE_run _ _ _ (repr_size _ _ _ _ Hq)))).
    rewrite Nat2Z.id, ptrs_length.
    assert (forall y, y ∈ all_timers a -> at_ptr y <> t) as Hne.
    { intros y Hy E. apply Hta. rewrite <-E. by apply list_elem_of_fmap_2. }
    rewrite El at 1. rewrite (bind_run _ _ _ (last_from (TIMERS (ap_ptr a)) (ptrs l1)) L1).
    2: { apply (add_loop_run L1 _ (all_timers a) l2 r 0) with (l0 := []); [done| |done|by rewrite El|done].
         intros y Hy. destruct (Ht y Hy) as (z & Hz & _). exists (Tmr (at_ticks y) LWTIMER_VALID (at_func y) z (ap_ptr a)). split; [|done]. unfold L1. cbn.
         rewrite lookup_insert_ne; [exact Hz|]. specialize (Hne y Hy). congruence. }
    rewrite (bind_run _ _ _ tt (set_TMRS (<[t := d0]>) L1)).
    2: { eapply set_timer_run. unfold L1. cbn. by rewrite lookup_insert_eq. }
    rewrite (bind_run _ _ _ tt L'); [done|].
    rewrite (links_run (_QUEUE_INSERT _ _ _) (set_TMRS _ L1) tt s' Hrun).
    unfold L', L1, set_QS, set_TMRS. cbn. by rewrite insert_insert_eq.
  - assert (ptrs (all_timers (aadd (At t r f) a)) = ptrs l1 ++ t :: ptrs l2) as Eall
      by (rewrite all_aadd, Ep, ptrs_mid; done).
    assert (ptrs (all_timers a) = ptrs l1 ++ ptrs l2) as Ea by (rewrite El, ptrs_app; done).
    destruct (aadd_fields (At t r f) a) as (E1 & E2 & E3 & E4).
    eapply (inv_focus (TIMERS (ap_ptr a) :: t :: ptrs l1 ++ ptrs l2) (t :: ptrs (all_timers a)) L L' q1 a); try done.
    + rewrite Ea. set_solver.
    + rewrite <-(app_nil_r (ptrs (all_timers a))). set_solver.
    + set_solver.
    + rewrite Eall, Ea. set_solver.
    + intros u Hu. apply elem_of_cons in Hu as [->|Hu]; [done|auto].
    + intros u Hu. apply not_elem_of_cons in Hu as [Hu _]. unfold L'. cbn.
      by rewrite lookup_insert_ne, lookup_delete_ne.
    + split; rewrite ?E1, ?E2, ?E3, ?E4.
      * unfold L'. cbn [PERIODS]. by rewrite last_aadd.
      * rewrite Eall. done.
      * intros y Hy. rewrite all_aadd in Hy. apply elem_of_place in Hy as [->|Hy].
        -- exists x. unfold L'. cbn. by rewrite lookup_insert_eq.
        -- destruct (Ht y Hy) as (z & Hz & Ho). exists z. split; [|done]. unfold L'. cbn.
           rewrite lookup_insert_ne; [done|]. intros E. apply Hta. rewrite E. by apply list_elem_of_fmap_2.
    + by apply aadd_ok.
    + rewrite Eall. rewrite Ea in Hn, Hta. apply NoDup_app in Hn as (Hn1 & Hn2 & Hn3).
      apply not_elem_of_app in Hta as [? ?]. apply NoDup_app. rewrite NoDup_cons. split_and!; try done.
      intros u Hu Hu2. apply elem_of_cons in Hu2 as [->|Hu2]; [done|by eapply Hn2].
    + intros u Hu Hu2. exfalso. rewrite Eall in Hu2. rewrite Ea in Hu. set_solver.
Qed.

(** ** The clock tick *)

Definition struct_of (a : aper) : period :=
  Per (ap_period a) (ap_phase a) (ap_wait a)
      (last_from (TIMERS (ap_ptr a)) (ptrs (ap_done a))) LWTIMER_VALID.

(** Only the structure of the queue changes. *)
Lemma inv_struct L q1 a a' q2 o :
  inv PA TA L (Spec (q1 ++ a :: q2) o) -> ap_ptr a' = ap_ptr a ->
  all_timers a' = all_timers a -> aok a' ->
  inv PA TA (set_PERIODS (<[ap_ptr a := struct_of a']>) L) (Spec (q1 ++ a' :: q2) o).
Proof.
  intros Hi Ep Ea Hok. assert (a ∈ q1 ++ a :: q2) as Ha by set_solver.
  destruct (i_per _ _ _ _ Hi a Ha) as [[Hp Hq Ht] _].
  pose proof (i_queued _ _ _ _ Hi) as [Hqn Hqs]. rewrite queued_mid in Hqn, Hqs.
  apply NoDup_app in Hqn as (Hn & Hd & _).
  eapply (inv_focus [] (ptrs (all_timers a)) L _ q1 a); try done; rewrite ?Ea; try done.
  - set_solver.
  - set_solver.
  - intros p Hne. cbn. by rewrite lookup_insert_ne.
  - split; rewrite ?Ea, ?Ep; try done. cbn. rewrite lookup_insert_eq. unfold struct_of. by rewrite Ep.
Qed.

Context `{!FunctionLaws}.

Lemma next_timer L q1 a q2 o l1 x l2 : inv PA TA L (Spec (q1 ++ a :: q2) o) ->
  all_timers a = l1 ++ x :: l2 ->
  NEXT (QS L) !! at_ptr x = Some (hd (TIMERS (ap_ptr a)) (ptrs l2)) /\ at_ptr x <> TIMERS (ap_ptr a).
Proof.
  intros Hi El. assert (a ∈ q1 ++ a :: q2) as Ha by set_solver.
  destruct (i_per _ _ _ _ Hi a Ha) as [[_ Hq _] _]. rewrite El, ptrs_mid in Hq. split.
  - pose proof (repr_lseg _ _ _ _ Hq) as Hl. apply lseg_cons_app in Hl as [_ Hl].
    by apply lseg_first, edge_next in Hl.
  - pose proof (repr_nodup _ _ _ _ Hq) as Hn. intros E. rewrite E in Hn. apply NoDup_cons in Hn. set_solver.
Qed.

Lemma expire_run fuel : forall L q1 a q2 o,
  inv PA TA L (Spec (q1 ++ a :: q2) o) -> (length (ap_todo a) < fuel)%nat ->
  exists L', let (now, later) := expire (ap_phase a) (ap_todo a) in
    expire_loop isr fuel (ap_ptr a) (hd (TIMERS (ap_ptr a)) (ptrs (ap_todo a))) L = Some (ptrs now, L') /\
    inv PA TA L' (Spec (q1 ++ Ap (ap_ptr a) (ap_period a) (ap_phase a) (ap_wait a)
                               (ap_done a ++ keep now) later :: q2) o).
Proof.
  induction fuel as [|fuel IH]; intros L q1 a q2 o Hi Hf; [lia|].
  destruct a as [p P e w dn todo] eqn:Ea. cbn [ap_todo ap_phase ap_ptr ap_period ap_wait ap_done] in *.
  destruct todo as [|x todo]; cbn [expire].
  { exists L. cbn. rewrite Z.eqb_refl, app_nil_r. split; done. }
  assert (a ∈ q1 ++ a :: q2) as Ha by set_solver. rewrite <-Ea in Hi.
  destruct (i_per _ _ _ _ Hi a Ha) as [[Hp Hq Ht] Hok].
  assert (all_timers a = dn ++ x :: todo) as El by (by rewrite Ea).
  destruct (next_timer _ _ _ _ _ _ _ _ Hi El) as [Hnext Hne].
  destruct (Ht x) as (par & Hx & Ho); [rewrite El; set_solver|].
  rewrite Ea in Hp, Hx, Hnext, Hne. cbn [ap_ptr ap_period ap_phase ap_wait ap_done] in Hp, Hx, Hnext, Hne.
  cbn [expire_loop ptrs fmap list_fmap hd]. rewrite (proj2 (Z.eqb_neq _ _) Hne).
  rewrite (bind_run _ _ _ _ _ (get_timer_run _ _ _ Hx)), (bind_run _ _ _ _ _ (get_period_run _ _ _ Hp)).
  cbn [EXPIRY RELATIVE_TICKS].
  destruct (e <? at_ticks x).
  { exists L. rewrite app_nil_r. rewrite Ea in Hi. split; done. }
  rewrite (bind_run _ _ _ _ _ (set_period_run _ _ _ _ Hp)).
  set (a1 := Ap p P e w (dn ++ [x]) todo).
  assert (all_timers a1 = all_timers a) as E1 by (rewrite El; unfold a1, all_timers; cbn; by rewrite <-app_assoc).
  assert (inv PA TA (set_PERIODS (<[p := with_TIMER_PTR (at_ptr x)
      (Per P e w (last_from (TIMERS p) (ptrs dn)) LWTIMER_VALID)]>) L) (Spec (q1 ++ a1 :: q2) o)) as Hi1.
  { assert (struct_of a1 = with_TIMER_PTR (at_ptr x) (Per P e w (last_from (TIMERS p) (ptrs dn)) LWTIMER_VALID)) as <-
      by (unfold struct_of, a1, with_TIMER_PTR; cbn; by rewrite ptrs_mid, last_from_app).
    replace p with (ap_ptr a) by (by rewrite Ea). apply inv_struct; [done|by rewrite Ea|done|].
    destruct Hok as [O1 O2 O3 O4 O5]. split; rewrite ?E1; rewrite Ea in *; done. }
  set (L1 := set_PERIODS _ L) in *. cbn [TIMER_FUNCTION PARAMETER].
  set (a2 := Ap p P e w (dn ++ keep [x]) todo).
  assert (exists L2, isr (at_func x) par L1 = Some (tt, L2) /\
    inv PA TA L2 (Spec (q1 ++ a2 :: q2) o) /\ NEXT (QS L2) !! at_ptr x = NEXT (QS L1) !! at_ptr x) as (L2 & E2 & Hi2 & Hn2).
  { rewrite isr_acts. unfold a2, keep. rewrite filter_cons. destruct (once (at_func x)).
    - rewrite (Ho eq_refl). destruct (cancel_mid L1 q1 a1 q2 o (at_ptr x)) as (L2 & E2 & Hi2 & Hn2).
      { done. } { rewrite E1, El, ptrs_mid. set_solver. }
      exists L2. rewrite (bind_run _ _ _ _ _ E2). split_and!; [done| |done].
      rewrite decide_False by done. cbn [filter]. rewrite app_nil_r.
      assert (acancel (at_ptr x) a1 = Ap p P e w dn todo) as <-; [|done].
      pose proof (repr_nodup _ _ _ _ Hq) as Hnd. apply NoDup_cons in Hnd as [_ Hnd].
      rewrite El in Hnd. unfold acancel, a1. cbn [ap_ptr ap_period ap_phase ap_wait ap_done ap_todo].
      rewrite drop_mid; [rewrite app_nil_r, (drop_absent _ todo); [done|]|].
      + rewrite ptrs_mid in Hnd. apply NoDup_app in Hnd as (_ & _ & Hnd). by apply NoDup_cons in Hnd as [? _].
      + rewrite ptrs_mid in *. apply NoDup_app in Hnd as (N1 & N2 & N3). apply NoDup_app.
        split_and!; [done| |apply NoDup_singleton]. intros u Hu ->%list_elem_of_singleton. apply (N2 _ Hu). by left.
    - exists L1. rewrite decide_True by done. done. }
  rewrite (bind_run _ _ _ _ _ E2), (bind_run _ _ _ _ _ (links_read _ _ _ (get_NEXT_run _ _ _ (eq_trans Hn2 Hnext)))).
  destruct (IH L2 q1 a2 q2 o Hi2) as (L3 & H3); [cbn in *; lia|].
  unfold a2 in H3. cbn [ap_todo ap_phase ap_ptr ap_period ap_wait ap_done] in H3. exists L3.
  destruct (expire e todo) as [now later]. destruct H3 as [E3 Hi3]. split.
  - by rewrite (bind_run _ _ _ _ _ E3).
  - rewrite <-app_assoc in Hi3. unfold keep in *. rewrite <-filter_app in Hi3. done.
Qed.

Lemma expire_app e l : let (now, later) := expire e l in l = now ++ later.
Proof.
  induction l as [|x l IH]; cbn; [done|]. destruct (e <? at_ticks x); [done|].
  destruct (expire e l). cbn. by rewrite IH.
Qed.

Lemma sorted_keep (R : atimer -> atimer -> Prop) l1 now l2 :
  StronglySorted R (l1 ++ now ++ l2) -> StronglySorted R (l1 ++ keep now ++ l2).
Proof.
  induction l1 as [|x l1 IH]; cbn [app].
  - induction now as [|x now IH]; cbn [app]; [done|]. intros Hs. apply StronglySorted_inv in Hs as [Hs Hx].
    unfold keep. rewrite filter_cons. case_decide; [|by apply IH]. constructor; [by apply IH|].
    rewrite list.Forall_forall in *. intros y Hy. apply Hx. unfold keep in Hy.
    rewrite elem_of_app, list_elem_of_filter in Hy. set_solver.
  - intros Hs. apply StronglySorted_inv in Hs as [Hs Hx]. constructor; [by apply IH|].
    rewrite list.Forall_forall in *. intros y Hy. apply Hx. unfold keep in Hy.
    rewrite !elem_of_app, list_elem_of_filter in Hy. set_solver.
Qed.

(** The queue after its due timers were called, at any position. *)
Lemma aok_after a e : aok a -> 0 <= e < 2 ^ 32 -> (ap_period a <> 0 -> e < ap_period a) ->
  let (now, later) := expire (ap_phase a) (ap_todo a) in
  aok (Ap (ap_ptr a) (ap_period a) e 0 (ap_done a ++ keep now) later) /\
  aok (Ap (ap_ptr a) (ap_period a) e 0 [] (ap_done a ++ keep now ++ later)).
Proof.
  intros [O1 O2 O3 O4 O5] He1 He2. pose proof (expire_app (ap_phase a) (ap_todo a)) as Ex.
  destruct (expire _ _) as [now later]. unfold all_timers in O1, O2. rewrite Ex in O1, O2.
  apply sorted_keep in O1.
  assert (forall x, x ∈ ap_done a ++ keep now ++ later -> 0 <= at_ticks x < ap_period a) as Hx.
  { intros x Hx. apply O2. unfold keep in Hx. rewrite !elem_of_app, list_elem_of_filter in Hx. set_solver. }
  split; split; unfold all_timers; cbn; rewrite <-?app_assoc; try done.
Qed.

Lemma period_tick_run L q1 a q2 o fuel : inv PA TA L (Spec (q1 ++ a :: q2) o) -> (length TA < fuel)%nat ->
  exists L', period_tick isr fuel (ap_ptr a) L = Some ((atick a).1, L') /\
    inv PA TA L' (Spec (q1 ++ (atick a).2 :: q2) o) /\ ap_ptr (atick a).2 = ap_ptr a.
Proof.
  intros Hi Hf. assert (a ∈ q1 ++ a :: q2) as Ha by set_solver.
  destruct (i_per _ _ _ _ Hi a Ha) as [[Hp Hq Ht] Hok]. pose proof Hok as [O1 O2 O3 O4 O5].
  unfold period_tick, atick. rewrite (bind_run _ _ _ _ _ (get_period_run _ _ _ Hp)).
  cbn [WAIT TIMER_PTR]. destruct (Z.eqb_spec (ap_wait a) 0) as [Ew|Ew]; cbn [negb].
  2: { rewrite (bind_run _ _ _ _ _ (set_period_run _ _ _ _ Hp)). eexists. split; [done|]. split; [|done].
       apply (inv_struct _ _ _ (Ap (ap_ptr a) (ap_period a) (ap_phase a) (w32 (ap_wait a - 1)) (ap_done a) (ap_todo a)));
         [done..|]. split; try done. cbn. by apply wrap_range. }
  assert (NEXT (QS L) !! last_from (TIMERS (ap_ptr a)) (ptrs (ap_done a)) =
    Some (hd (TIMERS (ap_ptr a)) (ptrs (ap_todo a)))) as Hnext.
  { pose proof (repr_lseg _ _ _ _ Hq) as Hl. unfold all_timers in Hl. rewrite ptrs_app in Hl.
    apply lseg_app in Hl as [_ Hl]. by apply lseg_first, edge_next in Hl. }
  rewrite (bind_run _ _ _ _ _ (links_read _ _ _ (get_NEXT_run _ _ _ Hnext))).
  destruct (expire_run fuel L q1 a q2 o Hi) as (L1 & H1).
  { pose proof (i_queued _ _ _ _ Hi) as [_ Hqs]. pose proof (repr_nodup _ _ _ _ Hq) as Hnd.
    apply NoDup_cons in Hnd as [_ Hnd].
    assert (zlen (ptrs (all_timers a)) <= zlen TA) as Hle.
    { apply nodup_few; [done|]. intros x Hx. apply Hqs, elem_of_queued. eauto. }
    rewrite ptrs_length in Hle. unfold all_timers in Hle. rewrite length_app in Hle. lia. }
  pose proof (fun e He1 He2 => aok_after a e Hok He1 He2) as Hok'.
  destruct (expire (ap_phase a) (ap_todo a)) as [now later]. destruct H1 as [E1 Hi1].
  rewrite (bind_run _ _ _ _ _ E1). set (a1 := Ap _ _ _ _ _ _) in Hi1.
  destruct (i_per _ _ _ _ Hi1 a1 ltac:(set_solver)) as [[Hp1 _ _] _]. cbn [ap_ptr] in Hp1.
  rewrite (bind_run _ _ _ _ _ (get_period_run _ _ _ Hp1)). cbn [EXPIRY PERIOD].
  rewrite (bind_run _ _ _ _ _ (set_period_run _ _ _ _ Hp1)). unfold a1 at 1 2. cbn [ap_phase ap_period].
  pose proof (wrap_range 32 (ap_phase a + 1) ltac:(lia)) as Hw.
  destruct (Z.eqb_spec (w32 (ap_phase a + 1)) (ap_period a)) as [Eq|Eq].
  - set (L2 := set_PERIODS _ L1). destruct (Hok' 0) as [_ Hok2]; [lia|lia|].
    set (a2 := Ap (ap_ptr a) (ap_period a) 0 0 [] (ap_done a ++ keep now ++ later)) in *.
    exists (set_PERIODS (<[ap_ptr a := struct_of a2]>) L1). split_and!; [|cbn|done].
    + rewrite (bind_run _ _ _ tt (set_PERIODS (<[ap_ptr a := struct_of a2]>) L1)); [done|].
      erewrite set_period_run by (unfold L2; cbn; by rewrite lookup_insert_eq).
      unfold L2, set_PERIODS. cbn. rewrite insert_insert_eq. unfold struct_of, a2. cbn. by rewrite Ew.
    + apply (inv_struct L1 q1 a1 a2); [done|done| |done]. unfold all_timers, a1, a2. cbn. by rewrite <-app_assoc.
  - assert (ap_period a <> 0 -> w32 (ap_phase a + 1) < ap_period a) as Hlt.
    { intros Hne. rewrite wrap_small in * by lia. lia. }
    destruct (Hok' _ Hw Hlt) as [Hok2 _].
    set (a2 := Ap (ap_ptr a) (ap_period a) (w32 (ap_phase a + 1)) 0 (ap_done a ++ keep now) later) in *.
    exists (set_PERIODS (<[ap_ptr a := struct_of a2]>) L1). split_and!; [|cbn|done].
    + unfold mret at 1, M_ret. cbn. unfold struct_of, a2, a1, with_EXPIRY. cbn. by rewrite Ew.
    + by apply (inv_struct L1 q1 a1 a2).
Qed.

Lemma isr_loop_run inner : (length TA < inner)%nat -> forall fuel L q1 q2 o,
  inv PA TA L (Spec (q1 ++ q2) o) -> LWTIMER_ISR L = true -> (length q2 < fuel)%nat ->
  exists L', isr_loop isr fuel inner (hd LWTIMERS (ap_ptr <$> q2)) L = Some ((atick <$> q2) ≫= fst, L') /\
    inv PA TA L' (Spec (q1 ++ (snd <$> (atick <$> q2))) o).
Proof.
  intros Hin. induction fuel as [|fuel IH]; intros L q1 q2 o Hi Hset Hf; [lia|].
  destruct q2 as [|a q2]; cbn [isr_loop fmap list_fmap hd].
  - rewrite Z.eqb_refl. by exists L.
  - assert (a ∈ q1 ++ a :: q2) as Ha by set_solver.
    pose proof (inv_repr L _ a Hi Ha) as Hr. rewrite periods_mid in Hr.
    pose proof (repr_nodup _ _ _ _ Hr) as Hn.
    rewrite (proj2 (Z.eqb_neq _ _)).
    2: { intros E. rewrite E in Hn. apply NoDup_cons in Hn as [Hn _]. set_solver. }
    destruct (period_tick_run L q1 a q2 o inner Hi Hin) as (L1 & E1 & Hi1 & Ep).
    rewrite (bind_run _ _ _ _ _ E1).
    assert ((atick a).2 ∈ q1 ++ (atick a).2 :: q2) as Ha1 by set_solver.
    pose proof (inv_repr L1 _ _ Hi1 Ha1) as Hr1. rewrite periods_mid, Ep in Hr1.
    assert (NEXT (QS L1) !! ap_ptr a = Some (hd LWTIMERS (ap_ptr <$> q2))) as Hnext.
    { pose proof (repr_lseg _ _ _ _ Hr1) as Hl. apply lseg_cons_app in Hl as [_ Hl].
      by apply lseg_first, edge_next in Hl. }
    rewrite (bind_run _ _ _ _ _ (links_read _ _ _ (get_NEXT_run _ _ _ Hnext))).
    destruct (IH L1 (q1 ++ [(atick a).2]) q2 o) as (L2 & E2 & Hi2).
    { by rewrite <-app_assoc. } { by eapply listed_set. } { cbn in Hf. lia. }
    exists L2. rewrite (bind_run _ _ _ _ _ E2). split; [done|]. by rewrite <-app_assoc in Hi2.
Qed.

Lemma lwtimer_tick_run L s : inv PA TA L s ->
  exists L', lwtimer_tick isr L = Some ((atick <$> queues s) ≫= fst, L') /\
    inv PA TA L' (Spec (snd <$> (atick <$> queues s)) (orphans s)).
Proof.
  intros Hi. destruct s as [qs o]. cbn [queues orphans]. unfold lwtimer_tick.
  pose proof (i_list _ _ _ _ Hi) as Hl. unfold list_ok in Hl.
  rewrite (bind_run (gets id) _ L L L) by done.
  destruct (LWTIMER_ISR L) eqn:Eset.
  2: { destruct Hl as [Hq _]. cbn in Hq. subst qs. by exists L. }
  unfold _lwtimer_isr_internal. rewrite (bind_run (gets id) _ L L L) by done.
  rewrite (bind_run _ _ _ _ _ (links_read _ _ _ (get_NEXT_run _ _ _ (repr_next _ _ _ _ Hl)))).
  pose proof (i_periods _ _ _ _ Hi) as [Hpn Hps].
  destruct (isr_loop_run (S (size (TMRS L)))) with (fuel := S (size (PERIODS L))) (L := L) (q1 := @nil aper) (q2 := qs) (o := o)
    as (L' & E & Hi'); [|done|done| |by exists L'].
  - assert (length TA <= size (TMRS L))%nat; [|lia]. apply NoDup_subset_length.
    + destruct Hpools as [Hn _]. apply NoDup_cons in Hn as [_ Hn]. apply NoDup_cons in Hn as [_ Hn].
      apply NoDup_app in Hn as (_ & _ & Hn). by apply NoDup_app in Hn as (_ & _ & Hn).
    + intros t Ht. destruct (decide (t ∈ queued (Spec qs o))) as [Hq|Hq].
      * apply elem_of_queued in Hq as (a & Ha & Hta). destruct (i_per _ _ _ _ Hi a Ha) as [[_ _ Hx] _].
        apply list_elem_of_fmap in Hta as (x & -> & Hin). destruct (Hx x Hin) as (par & E & _). eauto.
      * destruct (i_idle _ _ _ _ Hi t Ht Hq) as (_ & d & E & _). eauto.
  - assert (length qs <= size (PERIODS L))%nat; [|lia].
    rewrite <-(length_fmap ap_ptr). apply NoDup_subset_length; [done|].
    intros p Hp. apply (elem_of_periods p (Spec qs o)) in Hp as (a & Ha & <-).
    destruct (i_per _ _ _ _ Hi a Ha) as [[E _ _] _]. eauto.
Qed.

(** ** Creating and cancelling a queue *)

Lemma init_run s q max : has_links s q -> is_Some (SIZE s !! q) -> is_Some (MAX s !! q) -> q <> NULL ->
  exists s', _QUEUE_INIT q max s = Some (tt, s') /\ queue_repr s' q [] (w16 max) /\ agree [q] s s'.
Proof.
  intros [[? Hn] [? Hp]] [? Hs] [? Hm] Hq. pose proof (wrap_range 16 max ltac:(lia)) as Hw.
  eexists. split; [unfold _QUEUE_INIT; qrun|]. split.
  - split; simpl; rewrite ?lookup_insert_eq; try done.
    + split; simpl; by rewrite lookup_insert_eq.
    + apply NoDup_singleton.
    + set_solver.
  - split; simpl; intros p Hne%not_elem_of_cons; destruct Hne as [Hne _]; by rewrite !lookup_insert_ne by done.
Qed.

Lemma find_period p qs : match find (fun a => ap_ptr a =? p) qs with
  | Some a => exists q1 q2, qs = q1 ++ a :: q2 /\ ap_ptr a = p
  | None => p ∉ ap_ptr <$> qs
  end.
Proof.
  induction qs as [|b qs IH]; cbn; [set_solver|]. destruct (Z.eqb_spec (ap_ptr b) p) as [E|E].
  - by exists [], qs.
  - destruct (find _ qs) as [a|].
    + destruct IH as (q1 & q2 & -> & Ea). by exists (b :: q1), q2.
    + set_solver.
Qed.

(** The structure of a queue that is not listed is not valid. *)
Lemma unlisted L s p : inv PA TA L s -> p ∈ PA -> p ∉ periods s ->
  exists v, PERIODS L !! p = Some v /\ (PVALID v =? LWTIMER_VALID) = false.
Proof.
  intros Hi Hp Hn. destruct (i_spare _ _ _ _ Hi p Hp Hn) as (_ & _ & _ & _ & v & E & Hv).
  exists v. split; [done|]. by apply Z.eqb_neq.
Qed.

Lemma abandon_lookup a o t : abandon a o !! t =
  if decide (t ∈ ptrs (all_timers a)) then Some (ap_ptr a) else o !! t.
Proof.
  unfold abandon. induction (ptrs (all_timers a)) as [|u l IH]; [done|]. cbn [foldr].
  destruct (decide (u = t)) as [->|Hne].
  - rewrite lookup_insert_eq, decide_True by by left. done.
  - rewrite lookup_insert_ne, IH by done. repeat case_decide; set_solver.
Qed.

Lemma cancel_period_mid L q1 a q2 o : inv PA TA L (Spec (q1 ++ a :: q2) o) ->
  exists L', _lwtimer_cancel_period (ap_ptr a) L = Some (MQX_OK, L') /\
    inv PA TA L' (Spec (q1 ++ q2) (abandon a o)) /\
    TMRS L' = TMRS L /\ agree (LWTIMERS :: periods (Spec (q1 ++ q2) o)) (QS L) (QS L').
Proof.
  intros Hi. assert (a ∈ q1 ++ a :: q2) as Ha by set_solver.
  destruct (i_per _ _ _ _ Hi a Ha) as [[Hp Hq Ht] Hok].
  pose proof (i_periods _ _ _ _ Hi) as [Hpn Hps]. rewrite periods_mid in Hpn, Hps.
  pose proof (i_queued _ _ _ _ Hi) as [Hqn Hqs]. rewrite queued_mid in Hqn, Hqs.
  apply NoDup_app in Hqn as (Hn & Hd & Hqn).
  pose proof (inv_repr L _ a Hi Ha) as Hr. rewrite periods_mid in Hr.
  destruct (QUEUE_REMOVE_spec _ _ _ _ _ _ Hr) as (s' & Hrun & Hr2 & Hs & Hl).
  destruct pool_facts as (F1 & F2 & F3 & _).
  assert (forall b o', periods (Spec (q1 ++ q2) o') = periods (Spec q1 b) ++ periods (Spec q2 b)) as Epp
    by (intros; unfold periods; simpl; by rewrite fmap_app).
  set (X := LWTIMERS :: periods (Spec q1 o) ++ periods (Spec q2 o)) in *.
  pose proof (same_agree _ _ _ Hs) as Hag.
  assert (ap_ptr a ∈ PA) as HpP by (apply Hps; set_solver).
  assert (forall x, x ∈ X -> x = LWTIMERS \/ x ∈ PA) as HX by (intros x Hx; unfold X in Hx; set_solver).
  assert (forall p, p ∈ PA -> TIMERS p ∉ X) as HXt.
  { intros p HpA Hx. destruct (F2 p HpA) as (_ & Hne & _). destruct (HX _ Hx) as [E|E]; [done|].
    destruct (F1 _ E) as (_ & _ & _ & F). by apply (F p HpA). }
  assert (forall t, t ∈ TA -> t ∉ X) as HXq.
  { intros t HtA Hx. destruct (HX _ Hx) as [E|E]; [by apply (F3 t HtA)|]. destruct (F1 _ E) as (_ & _ & F & _). done. }
  apply NoDup_app in Hpn as (N1 & N2 & N3). apply NoDup_cons in N3 as [N3 N4].
  assert (ap_ptr a ∉ periods (Spec q1 o) ++ periods (Spec q2 o)) as Han.
  { rewrite not_elem_of_app. split; [|done]. intros Hin. apply (N2 _ Hin). by left. }
  set (v' := Per (ap_period a) (ap_phase a) (ap_wait a) (last_from (TIMERS (ap_ptr a)) (ptrs (ap_done a))) 0).
  set (L' := Lt s' (<[ap_ptr a := v']> (PERIODS L)) (TMRS L) (LWTIMER_ISR L)).
  exists L'. split; [|split; [split|split; [done|by rewrite (Epp o)]]].
  - unfold _lwtimer_cancel_period. rewrite (bind_run _ _ _ _ _ (get_period_run _ _ _ Hp)).
    cbn [PVALID]. rewrite Z.eqb_refl. cbn [negb]. rewrite (bind_run _ _ _ _ _ (set_period_run _ _ _ _ Hp)).
    rewrite (bind_run _ _ _ tt L'); [done|].
    exact (links_run (_QUEUE_REMOVE LWTIMERS (ap_ptr a)) (set_PERIODS (<[ap_ptr a := v']>) L) tt s' Hrun).
  - unfold list_ok. assert (LWTIMER_ISR L' = true) as -> by exact (listed_set L _ a Hi Ha).
    rewrite (Epp o). done.
  - intros b Hb. cbn in Hb. assert (b ∈ q1 ++ a :: q2) as Hb' by set_solver.
    destruct (i_per _ _ _ _ Hi b Hb') as [Hkb Hokb]. split; [|done].
    assert (ap_ptr b ∈ periods (Spec q1 o) ++ periods (Spec q2 o)) as HbP.
    { rewrite <-(Epp o o). apply elem_of_periods. eauto. }
    apply (per_ok_frame X L); [done..| | |done].
    + intros x Hx. apply elem_of_cons in Hx as [->|Hx]; [apply HXt; set_solver|]. apply HXq, Hqs.
      rewrite <-(queued_mid q1 a q2 o). apply elem_of_queued. eauto.
    + cbn. rewrite lookup_insert_ne; [done|]. intros E. apply Han. by rewrite E.
  - intros p HpA Hpn. rewrite (Epp o) in Hpn. destruct (decide (p = ap_ptr a)) as [->|Hne].
    + assert (has_links (QS L) (TIMERS (ap_ptr a))) as Hlt
        by (split; [rewrite (repr_next _ _ _ _ Hq)|rewrite (repr_prev _ _ _ _ Hq)]; done).
      split_and!; [done|by eapply links_frame, Hlt; auto| | |].
      * cbn. rewrite (ag_size _ _ _ Hag), (repr_size _ _ _ _ Hq); auto.
      * cbn. rewrite (ag_max _ _ _ Hag), (repr_max _ _ _ _ Hq); auto.
      * exists v'. cbn. by rewrite lookup_insert_eq.
    + apply (spare_frame X L); [|done| |auto|].
      * apply (i_spare _ _ _ _ Hi); [done|]. rewrite periods_mid. set_solver.
      * unfold X. destruct (F1 p HpA) as (_ & ? & _). set_solver.
      * cbn. by rewrite lookup_insert_ne.
  - intros t HtA Htn. destruct (decide (t ∈ ptrs (all_timers a))) as [Hin|Hin].
    + split.
      * eapply links_frame; [exact Hag|auto|]. eapply lseg_links; [by apply (repr_lseg _ _ _ _ Hq)|done].
      * apply list_elem_of_fmap in Hin as (x & -> & Hin). destruct (Ht x Hin) as (par & E & _).
        eexists. split; [exact E|]. intros _. cbn [orphans PERIOD_PTR]. rewrite abandon_lookup, decide_True
          by by apply list_elem_of_fmap_2. split_and!; [done..|]. by rewrite (Epp o).
    + apply (idle_frame X L L' (Spec (q1 ++ a :: q2) o)); [|done|auto|done| |].
      * apply (i_idle _ _ _ _ Hi); [done|]. rewrite queued_mid, not_elem_of_app. done.
      * cbn [orphans]. by rewrite abandon_lookup, decide_False.
      * rewrite periods_mid, (Epp o). set_solver.
  - rewrite (Epp o). split; [|set_solver]. apply NoDup_app. split_and!; [done| |done].
    intros x Hx Hx2. apply (N2 x Hx). by right.
  - split; [done|]. set_solver.
Qed.

(** [LWTIMERS] is initialised with the first queue. *)
Lemma first_create L s1 m qs o p : inv PA TA L (Spec qs o) -> p ∈ PA -> agree [TIMERS p] (QS L) s1 ->
  exists s2, (forall k : M lt Z, (next ← links (get_NEXT LWTIMERS);
      (if next =? NULL then links (_QUEUE_INIT LWTIMERS 0);; modify (set_ISR true) else mret tt);; k)
        (Lt s1 m (TMRS L) (LWTIMER_ISR L)) = k (Lt s2 m (TMRS L) true)) /\
    queue_repr s2 LWTIMERS (periods (Spec qs o)) 0 /\ agree [LWTIMERS] s1 s2.
Proof.
  intros Hi HpA A1. pose proof pool_facts as (F1 & F2 & F3 & F4). destruct (F2 p HpA) as (Nt & Ntl & NtT).
  pose proof (i_periods _ _ _ _ Hi) as [Hnd Hps].
  pose proof (i_list _ _ _ _ Hi) as Hli. unfold list_ok in Hli. destruct (LWTIMER_ISR L) eqn:Eset.
  - assert (queue_repr s1 LWTIMERS (periods (Spec qs o)) 0) as R.
    { eapply repr_agree; [exact A1| |exact Hli]. intros x Hx. apply elem_of_cons in Hx as [->|Hx]; [set_solver|].
      rewrite list_elem_of_singleton. intros ->. destruct (F1 _ (Hps _ Hx)) as (_ & _ & _ & F). by apply (F p HpA). }
    exists s1. split_and!; [|done|by split]. intros k.
    erewrite bind_run; [|apply links_read, get_NEXT_run; exact (repr_next _ _ _ _ R)].
    rewrite (proj2 (Z.eqb_neq _ _)); [done|]. pose proof (repr_null _ _ _ _ R) as Hnull.
    intros E. rewrite <-E in Hnull. apply Hnull. destruct (periods _); set_solver.
  - destruct Hli as (Eq & En & Hp & Hs & Hm). cbn in Eq. subst qs.
    assert (LWTIMERS ∉ [TIMERS p]) as Hne by set_solver.
    destruct (init_run s1 LWTIMERS 0) as (s2 & E2 & R2 & A2).
    { split; [rewrite (ag_next _ _ _ A1)|rewrite (ag_prev _ _ _ A1)]; eauto. }
    { by rewrite (ag_size _ _ _ A1). } { by rewrite (ag_max _ _ _ A1). } { done. }
    exists s2. split_and!; [|done|done]. intros k.
    erewrite bind_run; [|apply links_read, get_NEXT_run; cbn; rewrite (ag_next _ _ _ A1); done].
    cbn [Z.eqb]. rewrite Z.eqb_refl, bind_assoc. by erewrite bind_run; [|apply links_run; exact E2].
Qed.

(** What creating a queue does to the structures and the links. *)
Lemma create_run L qs o p P w : inv PA TA L (Spec qs o) -> p ∈ PA -> p ∉ periods (Spec qs o) ->
  exists s', _lwtimer_create_periodic_queue p P w L =
      Some (MQX_OK, Lt s' (<[p := Per P 0 w (TIMERS p) LWTIMER_VALID]> (PERIODS L)) (TMRS L) true) /\
    queue_repr s' LWTIMERS (periods (Spec qs o) ++ [p]) 0 /\ queue_repr s' (TIMERS p) [] 0 /\
    agree (TIMERS p :: LWTIMERS :: p :: periods (Spec qs o)) (QS L) s'.
Proof.
  intros Hi HpA Hpn. pose proof pool_facts as (F1 & F2 & F3 & F4).
  destruct (F1 p HpA) as (Np & Npl & NpT & NpP). destruct (F2 p HpA) as (Nt & Ntl & NtT).
  destruct (i_spare _ _ _ _ Hi p HpA Hpn) as (Hl & Hlt & Hsz & Hmx & v & Hv & _).
  pose proof (i_periods _ _ _ _ Hi) as [Hnd Hps].
  destruct (init_run (QS L) (TIMERS p) 0 Hlt Hsz Hmx Nt) as (s1 & E1 & R1 & A1).
  destruct (first_create L s1 (<[p := Per P 0 w (TIMERS p) (PVALID v)]> (PERIODS L)) qs o p Hi HpA A1)
    as (s2 & E2 & R2 & A2).
  destruct (QUEUE_ENQUEUE_spec s2 LWTIMERS (periods (Spec qs o)) p 0 R2) as (s3 & E3 & R3 & A3).
  { eapply links_frame; [exact A2|set_solver|]. eapply links_frame; [exact A1| |done].
    rewrite list_elem_of_singleton. by apply NpP. }
  { rewrite !not_elem_of_cons. done. }
  { destruct Hpools as [_ [Hf _]]. pose proof (nodup_few _ _ Hnd Hps). lia. }
  apply same_agree in A3. exists s3. split_and!; [|done| |].
  - unfold _lwtimer_create_periodic_queue. rewrite (bind_run _ _ _ _ _ (get_period_run _ _ _ Hv)).
    rewrite (bind_run _ _ _ _ _ (set_period_run _ _ _ _ Hv)).
    set (L1 := set_PERIODS _ L). rewrite (bind_run _ _ _ _ _ (links_run _ L1 tt s1 E1)).
    rewrite (bind_run _ _ _ tt (Lt s1 (<[p := Per P 0 w (TIMERS p) (PVALID v)]> (PERIODS L)) (TMRS L) (LWTIMER_ISR L))).
    2: { erewrite set_period_run by (cbn; by rewrite lookup_insert_eq).
         unfold set_PERIODS. cbn. by rewrite insert_insert_eq. }
    rewrite E2. rewrite (bind_run _ _ _ tt (Lt s2 (<[p := Per P 0 w (TIMERS p) LWTIMER_VALID]> (PERIODS L)) (TMRS L) true)).
    2: { erewrite set_period_run by (cbn; by rewrite lookup_insert_eq).
         unfold set_PERIODS. cbn. by rewrite insert_insert_eq. }
    erewrite bind_run; [done|]. by apply (links_run _ (Lt s2 _ _ _) tt s3).
  - eapply repr_agree; [exact A3| |eapply repr_agree; [exact A2| |exact R1]].
    + intros x ->%list_elem_of_singleton. rewrite !not_elem_of_cons. split_and!; [done|by intros E; eapply NpP|].
      intros Hin. destruct (F1 _ (Hps _ Hin)) as (_ & _ & _ & F). by apply (F p HpA).
    + intros x ->%list_elem_of_singleton. by rewrite list_elem_of_singleton.
  - eapply agree_trans; [eapply agree_sub; [|exact A1]; set_solver|].
    eapply agree_trans; [eapply agree_sub; [|exact A2]; set_solver|].
    eapply agree_sub; [|exact A3]. set_solver.
Qed.

Lemma create_mid L qs o p P w : inv PA TA L (Spec qs o) ->
  p ∈ PA -> p ∉ periods (Spec qs o) -> (forall t, o !! t <> Some p) -> 0 <= P < 2 ^ 32 -> 0 <= w < 2 ^ 32 ->
  exists L', _lwtimer_create_periodic_queue p P w L = Some (MQX_OK, L') /\
    inv PA TA L' (Spec (qs ++ [Ap p P 0 w [] []]) o).
Proof.
  intros Hi HpA Hpn Ho HP Hw. pose proof pool_facts as (F1 & F2 & F3 & F4).
  pose proof (i_periods _ _ _ _ Hi) as [Hnd Hps]. pose proof (i_queued _ _ _ _ Hi) as [Hqn Hqs].
  destruct (create_run L qs o p P w Hi HpA Hpn) as (s' & E & R1 & R2 & A).
  set (X := TIMERS p :: LWTIMERS :: p :: periods (Spec qs o)) in *. set (L' := Lt s' _ _ _) in *.
  assert (forall x, x ∈ X -> x = TIMERS p \/ x = LWTIMERS \/ x ∈ PA) as HX.
  { intros x Hx. unfold X in Hx. rewrite !elem_of_cons in Hx. naive_solver. }
  assert (periods (Spec (qs ++ [Ap p P 0 w [] []]) o) = periods (Spec qs o) ++ [p]) as Epp
    by (unfold periods; simpl; by rewrite fmap_app).
  assert (queued (Spec (qs ++ [Ap p P 0 w [] []]) o) = queued (Spec qs o)) as Eqq
    by (unfold queued; simpl; rewrite bind_app; apply app_nil_r).
  assert (forall p', p' ∈ PA -> p' <> p -> TIMERS p' ∉ X) as HXt.
  { intros p' Hp' Hne Hx. destruct (F2 p' Hp') as (_ & Hne' & _). destruct (HX _ Hx) as [E'|[E'|E']];
      [unfold TIMERS in E'; lia|done|]. destruct (F1 _ E') as (_ & _ & _ & F). by apply (F p' Hp'). }
  assert (forall t, t ∈ TA -> t ∉ X) as HXq.
  { intros t HtA Hx. destruct (HX _ Hx) as [->|[E'|E']]; [by apply (F2 p HpA)|by apply (F3 t HtA)|].
    destruct (F1 _ E') as (_ & _ & F & _). done. }
  exists L'. split; [done|]. split.
  - unfold list_ok. cbn [L' LWTIMER_ISR QS]. by rewrite Epp.
  - intros b Hb. cbn in Hb. apply elem_of_app in Hb as [Hb| ->%list_elem_of_singleton].
    + destruct (i_per _ _ _ _ Hi b Hb) as [Hkb Hokb]. split; [|done].
      assert (ap_ptr b ∈ periods (Spec qs o)) as Hbp by (apply elem_of_periods; eauto).
      assert (ap_ptr b <> p) as Hne by (by intros E'; rewrite E' in Hbp).
      apply (per_ok_frame X L); [done..| | |done].
      * intros x Hx. apply elem_of_cons in Hx as [->|Hx]; [by apply HXt; [apply Hps|]|]. apply HXq, Hqs.
        apply elem_of_queued. eauto.
      * cbn. by rewrite lookup_insert_ne.
    + assert (aok (Ap p P 0 w [] [])) as Hok.
      { split; try done; [constructor|set_solver|split; [done|]]. cbn. lia. }
      split; [split|exact Hok].
      * cbn. by rewrite lookup_insert_eq.
      * exact R2.
      * intros x Hx. by apply elem_of_nil in Hx.
  - intros p' Hp' Hn'. rewrite Epp in Hn'. apply not_elem_of_app in Hn' as [Hn' Hne].
    rewrite list_elem_of_singleton in Hne. apply (spare_frame X L); [by eapply i_spare|done| |by apply HXt|].
    + destruct (F1 p' Hp') as (_ & ? & _ & F). unfold X. rewrite !not_elem_of_cons. split_and!; [by apply F|done..].
    + cbn. by rewrite lookup_insert_ne.
  - intros t HtA Htn. rewrite Eqq in Htn. destruct (i_idle _ _ _ _ Hi t HtA Htn) as (Hlk & d & Hd & Hv2).
    split; [eapply links_frame; [exact A|auto|done]|]. exists d. split; [done|]. intros Hval.
    destruct (Hv2 Hval) as (H1 & H2 & H3). split_and!; [done..|]. rewrite Epp, not_elem_of_app.
    split; [done|]. rewrite list_elem_of_singleton. intros E'. apply (Ho t). cbn in H1. by rewrite <-E'.
  - rewrite Epp. split; [|set_solver]. apply NoDup_app. split_and!; [done| |apply NoDup_singleton].
    intros x Hx ->%list_elem_of_singleton. done.
  - by rewrite Eqq.
Qed.

(** ** Operations refine the specification *)

Lemma acancel_other t a : t ∉ ptrs (all_timers a) -> acancel t a = a.
Proof.
  unfold all_timers. rewrite ptrs_app, not_elem_of_app. intros [H1 H2]. unfold acancel.
  rewrite !drop_absent by done. by destruct a.
Qed.

Lemma fmap_other {A} (f : A -> A) (l : list A) : (forall x, x ∈ l -> f x = x) -> f <$> l = l.
Proof.
  induction l as [|x l IH]; intros Hf; [done|]. cbn. rewrite Hf by by left. f_equal. apply IH.
  intros y Hy. apply Hf. by right.
Qed.

Lemma acancel_map L q1 a q2 o t : inv PA TA L (Spec (q1 ++ a :: q2) o) -> t ∈ ptrs (all_timers a) ->
  acancel t <$> (q1 ++ a :: q2) = q1 ++ acancel t a :: q2.
Proof.
  intros Hi Ht. pose proof (i_queued _ _ _ _ Hi) as [Hn _]. rewrite queued_mid in Hn.
  apply NoDup_app in Hn as (_ & Hd & _).
  assert (forall b, b ∈ q1 ++ q2 -> acancel t b = b) as Hb.
  { intros b Hb. apply acancel_other. intros Hin. apply (Hd t Ht), elem_of_queued. eauto. }
  rewrite fmap_app, fmap_cons. f_equal; [|f_equal]; apply fmap_other; intros b Hin; apply Hb; set_solver.
Qed.

Lemma others_ptr L q1 a q2 o b : inv PA TA L (Spec (q1 ++ a :: q2) o) -> b ∈ q1 ++ q2 -> ap_ptr b <> ap_ptr a.
Proof.
  intros Hi Hb E. pose proof (i_periods _ _ _ _ Hi) as [Hn _]. rewrite periods_mid in Hn.
  apply NoDup_app in Hn as (_ & Hn & Hn2). apply NoDup_cons in Hn2 as [Hn2 _].
  apply elem_of_app in Hb as [Hb|Hb].
  - apply (Hn (ap_ptr a)); [|by left]. apply elem_of_periods. eauto.
  - apply Hn2, elem_of_periods. eauto.
Qed.

Lemma on_period_map L q1 a q2 o f : inv PA TA L (Spec (q1 ++ a :: q2) o) ->
  on_period (ap_ptr a) f (q1 ++ a :: q2) = q1 ++ f a :: q2.
Proof.
  intros Hi. unfold on_period. rewrite fmap_app, fmap_cons, Z.eqb_refl.
  f_equal; [|f_equal]; apply fmap_other; intros b Hb; rewrite (proj2 (Z.eqb_neq _ _)); try done;
    eapply others_ptr; try done; set_solver.
Qed.

Lemma filter_all {A} (P : A -> Prop) `{!forall x, Decision (P x)} (l : list A) :
  (forall x, x ∈ l -> P x) -> filter P l = l.
Proof.
  induction l as [|x l IH]; intros Hf; [done|]. rewrite filter_cons_True by (apply Hf; by left).
  f_equal. apply IH. intros y Hy. apply Hf. by right.
Qed.

Lemma cancel_period_map L q1 a q2 o : inv PA TA L (Spec (q1 ++ a :: q2) o) ->
  filter (fun b => ap_ptr b <> ap_ptr a) (q1 ++ a :: q2) = q1 ++ q2.
Proof.
  intros Hi. rewrite filter_app, filter_cons_False by (intros E; by apply E).
  f_equal; apply filter_all; intros b Hb; eapply others_ptr; try done; set_solver.
Qed.

Lemma exec_refines_spec L s op : inv PA TA L s -> can PA TA s op ->
  exists L', exec op L = Some ((aexec op s).1, L') /\ inv PA TA L' (aexec op s).2.
Proof.
  intros Hi Hc. destruct s as [qs o]. destruct op as [p P w|p t r f x|t|p|]; cbn [can aexec exec] in *.
  - destruct Hc as (H1 & H2 & H3 & H4 & H5). destruct (create_mid L qs o p P w) as (L' & E & Hi'); [done..| |done|done|].
    { intros t E. by apply (H3 t p E). }
    exists L'. by rewrite (bind_run _ _ _ _ _ E).
  - destruct Hc as (H1 & H2 & H3 & H4 & H5). pose proof (find_period p qs) as Hf. cbn [queues orphans].
    destruct (find _ qs) as [a|].
    + destruct Hf as (q1 & q2 & -> & <-). assert (a ∈ q1 ++ a :: q2) as Ha by set_solver.
      destruct (Z.leb_spec (ap_period a) r).
      * exists L. split; [|done]. destruct (i_per _ _ _ _ Hi a Ha) as [[Hp _ _] _].
        unfold _lwtimer_add_timer_to_queue. rewrite bind_assoc, (bind_run _ _ _ _ _ (get_period_run _ _ _ Hp)).
        cbn [PVALID PERIOD]. by rewrite Z.eqb_refl, (proj2 (Z.leb_le _ _)).
      * destruct (add_mid L q1 a q2 o t r f x) as (L' & E & Hi'); [done|done|done|lia|done|].
        exists L'. rewrite (bind_run _ _ _ _ _ E). split; [done|]. cbn [snd]. by rewrite (on_period_map L q1 a q2 o).
    + exists L. split; [|done]. destruct (unlisted L _ p Hi H1 Hf) as (v & Hv & Ev).
      unfold _lwtimer_add_timer_to_queue. rewrite bind_assoc, (bind_run _ _ _ _ _ (get_period_run _ _ _ Hv)). by rewrite Ev.
  - case_bool_decide as Hq.
    + pose proof Hq as Hq'. apply elem_of_queued in Hq' as (a & Ha & Hta). cbn in Ha.
      apply list_elem_of_split in Ha as (q1 & q2 & ->).
      destruct (cancel_mid L q1 a q2 o t Hi Hta) as (L' & E & Hi' & _).
      exists L'. rewrite (bind_run _ _ _ _ _ E). split; [done|]. cbn [snd queues orphans].
      by rewrite (acancel_map L q1 a q2 o).
    + exists L. split; [|done]. destruct (i_idle _ _ _ _ Hi t Hc Hq) as (_ & d & Hd & Hv).
      unfold _lwtimer_cancel_timer. rewrite bind_assoc, (bind_run _ _ _ _ _ (get_timer_run _ _ _ Hd)).
      destruct (Z.eqb_spec (TVALID d) LWTIMER_VALID) as [E|E]; cbn [negb]; [|done].
      destruct (Hv E) as (_ & H2 & H3). destruct (unlisted L _ _ Hi H2 H3) as (v & Hv2 & Ev).
      rewrite bind_assoc, (bind_run _ _ _ _ _ (get_period_run _ _ _ Hv2)). by rewrite Ev.
  - pose proof (find_period p qs) as Hf. cbn [queues orphans]. destruct (find _ qs) as [a|].
    + destruct Hf as (q1 & q2 & -> & <-). destruct (cancel_period_mid L q1 a q2 o Hi) as (L' & E & Hi' & _).
      exists L'. rewrite (bind_run _ _ _ _ _ E). split; [done|]. cbn [snd]. by rewrite (cancel_period_map L q1 a q2 o).
    + exists L. split; [|done]. destruct (unlisted L _ p Hi Hc Hf) as (v & Hv & Ev).
      unfold _lwtimer_cancel_period. rewrite bind_assoc, (bind_run _ _ _ _ _ (get_period_run _ _ _ Hv)). by rewrite Ev.
  - destruct (lwtimer_tick_run L _ Hi) as (L' & E & Hi'). exists L'. by rewrite (bind_run _ _ _ _ _ E).
Qed.

Lemma run_refines_spec ops : forall L s, inv PA TA L s -> cans PA TA ops s ->
  exists L', run ops L = Some ((arun ops s).1, L') /\ inv PA TA L' (arun ops s).2.
Proof.
  induction ops as [|op ops IH]; intros L s Hi Hc; cbn [run arun cans] in *; [by exists L|].
  destruct Hc as [Hc Hcs]. destruct (exec_refines_spec L s op Hi Hc) as (L1 & E1 & Hi1).
  rewrite (bind_run _ _ _ _ _ E1). destruct (aexec op s) as [r s1]. cbn [fst snd] in *.
  destruct (IH L1 s1 Hi1 Hcs) as (L2 & E2 & Hi2). exists L2. rewrite (bind_run _ _ _ _ _ E2).
  by destruct (arun ops s1).
Qed.

(** ** When a timer is due *)

(** [i] ticks from now: when the queue has waited, a timer still to come in
    this period at its offset, or at once if that has passed; then every
    period at its offset.  A timer whose function cancels it is due once. *)
Definition due (a : aper) (x : atimer) (i : Z) : Prop :=
  let j := i - ap_wait a in
  0 <= j /\
  ((x ∈ ap_todo a /\ j = Z.max 0 (at_ticks x - ap_phase a)) \/
   (ap_period a <= ap_phase a + j /\ (ap_phase a + j) mod ap_period a = at_ticks x /\
    (once (at_func x) = true -> x ∉ ap_todo a /\ ap_phase a + j < 2 * ap_period a))).

Definition sound (a : aper) : Prop := aok a /\ NoDup (ptrs (all_timers a)).

Lemma ptrs_elem x l : x ∈ l -> at_ptr x ∈ ptrs l.
Proof. apply list_elem_of_fmap_2. Qed.

Lemma ptr_inj l x y : NoDup (ptrs l) -> x ∈ l -> y ∈ l -> at_ptr x = at_ptr y -> x = y.
Proof.
  intros Hn Hx Hy E. apply list_elem_of_lookup in Hx as [i Hi], Hy as [j Hj].
  assert (i = j) as ->; [|congruence]. eapply NoDup_lookup; [exact Hn| |]; unfold ptrs; rewrite list_lookup_fmap.
  - by rewrite Hi.
  - by rewrite Hj, E.
Qed.

(** Of a sorted list, exactly the timers that are due now are taken. *)
Lemma expire_spec e l : StronglySorted (fun x y => at_ticks x <= at_ticks y) l ->
  let (now, later) := expire e l in
  (forall x, x ∈ now -> at_ticks x <= e) /\ (forall x, x ∈ later -> e < at_ticks x).
Proof.
  induction 1 as [|x l Hl IH Hx]; cbn; [set_solver|]. destruct (Z.ltb_spec e (at_ticks x)).
  - split; [set_solver|]. intros y Hy. apply elem_of_cons in Hy as [->|Hy]; [done|].
    rewrite list.Forall_forall in Hx. specialize (Hx y Hy). lia.
  - destruct (expire e l) as [now later]. destruct IH as [S1 S2]. split; [|done].
    intros y Hy. apply elem_of_cons in Hy as [->|Hy]; [done|auto].
Qed.

Lemma sorted_back {A} (R : A -> A -> Prop) l1 l2 : StronglySorted R (l1 ++ l2) -> StronglySorted R l2.
Proof. induction l1 as [|x l1 IH]; [done|]. intros Hs. apply StronglySorted_inv in Hs as [Hs _]. auto. Qed.

Lemma sub_nodup (l1 l2 : list atimer) : l1 `sublist_of` l2 -> NoDup (ptrs l2) -> NoDup (ptrs l1).
Proof. intros Hs Hn. eapply sublist_NoDup; [exact Hn|]. by apply fmap_sublist. Qed.

(** The cases of a tick. *)
Lemma atick_cases a : sound a ->
  (0 < ap_wait a /\ atick a = ([], Ap (ap_ptr a) (ap_period a) (ap_phase a) (ap_wait a - 1) (ap_done a) (ap_todo a))) \/
  (ap_wait a = 0 /\ exists now later, ap_todo a = now ++ later /\
     (forall x, x ∈ now -> at_ticks x <= ap_phase a) /\ (forall x, x ∈ later -> ap_phase a < at_ticks x) /\
     ((ap_phase a + 1 = ap_period a /\
       atick a = (ptrs now, Ap (ap_ptr a) (ap_period a) 0 0 [] (ap_done a ++ keep now ++ later))) \/
      (ap_phase a + 1 < ap_period a /\
       atick a = (ptrs now, Ap (ap_ptr a) (ap_period a) (ap_phase a + 1) 0 (ap_done a ++ keep now) later)) \/
      (all_timers a = [] /\ (atick a).1 = [] /\ all_timers (atick a).2 = []))).
Proof.
  intros [[O1 O2 O3 O4 O5] Hn]. unfold atick. destruct (Z.eqb_spec (ap_wait a) 0) as [E|E]; cbn [negb].
  - right. split; [done|]. pose proof (expire_app (ap_phase a) (ap_todo a)) as Ex.
    pose proof (expire_spec (ap_phase a) (ap_todo a) (sorted_back _ _ _ O1)) as Hs.
    destruct (expire _ _) as [now later]. exists now, later. destruct Hs as [Hs1 Hs2]. split_and!; [done..|].
    destruct (decide (ap_period a = 0)) as [Ep|Ep].
    + right. right. assert (all_timers a = []) as En.
      { destruct (all_timers a) as [|x l] eqn:El; [done|]. pose proof (O2 x ltac:(by left)). lia. }
      unfold all_timers in En. apply app_eq_nil in En as [E1 E2]. rewrite E2 in Ex. symmetry in Ex.
      apply app_eq_nil in Ex as [-> ->]. split; [unfold all_timers; by rewrite E1, E2|].
      destruct (_ =? _); cbn; unfold all_timers; cbn; by rewrite E1.
    + destruct O4 as [O4 O4']. specialize (O4' Ep). rewrite wrap_small by lia.
      destruct (Z.eqb_spec (ap_phase a + 1) (ap_period a)); [left|right; left]; (split; [lia|done]).
  - left. split; [lia|]. by rewrite wrap_small by lia.
Qed.

Lemma keep_elem x l : x ∈ keep l <-> x ∈ l /\ once (at_func x) = false.
Proof. unfold keep. rewrite list_elem_of_filter. tauto. Qed.

Lemma keep_sublist l : keep l `sublist_of` l.
Proof. apply sublist_filter. Qed.

Lemma atick_all a : sound a -> all_timers (atick a).2 `sublist_of` all_timers a.
Proof.
  intros Hs. destruct (atick_cases a Hs) as [[_ ->]|(_ & now & later & E & _ & _ & Hc)]; [done|].
  unfold all_timers at 2. rewrite E.
  destruct Hc as [[_ ->]|[[_ ->]|(Ha & _ & ->)]]; unfold all_timers; cbn.
  - apply sublist_app; [done|]. apply sublist_app; [apply keep_sublist|done].
  - rewrite <-app_assoc. apply sublist_app; [done|]. apply sublist_app; [apply keep_sublist|done].
  - apply sublist_nil_l.
Qed.

Lemma atick_sound a : sound a -> sound (atick a).2.
Proof.
  intros Hs. pose proof Hs as [Ho Hn]. split; [|by eapply sub_nodup, Hn; apply atick_all].
  pose proof Ho as [O1 O2 O3 O4 O5]. unfold atick. destruct (Z.eqb_spec (ap_wait a) 0) as [E|E]; cbn [negb].
  - pose proof (fun e He1 He2 => aok_after a e Ho He1 He2) as Ha. pose proof (wrap_range 32 (ap_phase a + 1) ltac:(lia)) as Hw.
    destruct (expire _ _) as [now later]. destruct (Z.eqb_spec (w32 (ap_phase a + 1)) (ap_period a)); cbn.
    + apply Ha; lia.
    + apply Ha; [done|]. intros Hne. rewrite wrap_small in * by lia. lia.
  - cbn. split; try done. cbn. apply wrap_range. lia.
Qed.

Lemma atick_due a x : sound a -> x ∈ all_timers a -> at_ptr x ∈ (atick a).1 <-> due a x 0.
Proof.
  intros Hs Hx. pose proof Hs as [[O1 O2 O3 O4 O5] Hn]. pose proof (O2 x Hx) as Hr.
  destruct O4 as [O4 O4']. specialize (O4' ltac:(lia)). unfold due.
  destruct (atick_cases a Hs) as [[Hw ->]|(Hw & now & later & E & H1 & H2 & Hc)]; cbn [fst].
  { split; [set_solver|lia]. }
  assert ((atick a).1 = ptrs now) as ->.
  { destruct Hc as [[_ ->]|[[_ ->]|(Ha & _)]]; [done..|]. rewrite Ha in Hx. set_solver. }
  rewrite Hw. split.
  - intros Hin. apply list_elem_of_fmap in Hin as (y & Ey & Hy).
    assert (x = y) as ->.
    { eapply (ptr_inj (all_timers a)); [done..| |done]. unfold all_timers. rewrite E. set_solver. }
    specialize (H1 y Hy). split; [lia|]. left. split; [rewrite E; set_solver|lia].
  - intros [_ [[Ht Hj]|(Hj & _)]]; [|lia]. apply ptrs_elem. rewrite E in Ht.
    apply elem_of_app in Ht as [Ht|Ht]; [done|]. specialize (H2 x Ht). lia.
Qed.

Lemma mod_first (p r i : Z) : 0 <= r < p -> 0 <= i -> (i = r \/ (p <= i /\ i mod p = r)) <-> i mod p = r.
Proof.
  intros Hr Hi. split.
  - intros [->|[_ ?]]; [by apply Z.mod_small|done].
  - intros Hm. destruct (Z.lt_ge_cases i p) as [Hl|Hl]; [left|by right]. by rewrite Z.mod_small in Hm by lia.
Qed.

(** What is due later is what will be due after a tick. *)
Lemma atick_shift a x i : sound a -> x ∈ all_timers a -> 0 <= i ->
  if decide (at_ptr x ∈ ptrs (all_timers (atick a).2)) then due (atick a).2 x i <-> due a x (i + 1)
  else ~ due a x (i + 1).
Proof.
  intros Hs Hx Hi. pose proof Hs as [[O1 O2 O3 O4 O5] Hn]. pose proof (O2 x Hx) as Hr.
  destruct O4 as [O4 O4']. specialize (O4' ltac:(lia)).
  assert (x ∈ all_timers (atick a).2 <-> at_ptr x ∈ ptrs (all_timers (atick a).2)) as Hin.
  { split; [apply ptrs_elem|]. intros Hp. apply list_elem_of_fmap in Hp as (y & E & Hy).
    assert (x = y) as ->; [|done]. eapply (ptr_inj (all_timers a)); [done..| |done].
    eapply sublist_subseteq, Hy. by apply atick_all. }
  assert (x ∈ ap_done a -> x ∉ ap_todo a) as Hdt.
  { apply NoDup_fmap_1 in Hn. unfold all_timers in Hn. apply NoDup_app in Hn as (_ & Hn & _). auto. }
  unfold all_timers in Hx. apply elem_of_app in Hx.
  unfold due. destruct (atick_cases a Hs) as [[Hw E]|(Hw & now & later & E & H1 & H2 & [[Hp Ea]|[[Hp Ea]|(Ha & _)]])].
  - rewrite E in *. cbn [snd ap_wait ap_todo ap_phase ap_period] in *. rewrite decide_True.
    + replace (i + 1 - ap_wait a) with (i - (ap_wait a - 1)) by lia. done.
    + apply Hin. unfold all_timers. cbn. by apply elem_of_app.
  - rewrite Ea in *. cbn [snd ap_wait ap_todo ap_phase ap_period] in *.
    unfold all_timers in Hin. cbn [ap_done ap_todo app] in Hin. rewrite !elem_of_app, keep_elem in Hin.
    rewrite Hw, !Z.sub_0_r. replace (ap_phase a + (i + 1)) with (i + 1 * ap_period a) by lia.
    rewrite Z.mod_add by lia. rewrite E in *. rewrite !elem_of_app in *.
    assert (x ∉ later) as Hl by (intros Hl; specialize (H2 x Hl); lia).
    pose proof (mod_first (ap_period a) (at_ticks x) i Hr Hi) as Hm.
    case_decide as Hd.
    + apply Hin in Hd. rewrite !elem_of_app, keep_elem. destruct (once (at_func x)) eqn:Eo.
      * assert (x ∈ ap_done a) as Hdn by naive_solver. specialize (Hdt Hdn). split.
        -- intros [_ [[_ E']|(_ & _ & F)]]; [|naive_solver]. split; [lia|]. right.
           split_and!; [lia|rewrite Z.mod_small; lia|]. intros _. split; [naive_solver|lia].
        -- intros [_ [[? _]|(_ & E' & F)]]; [naive_solver|]. destruct (F eq_refl) as [_ F']. split; [done|]. left.
           split; [by left|]. rewrite Z.mod_small in E' by lia. lia.
      * split.
        -- intros [_ E']. split; [lia|]. right. split_and!; [lia| |done]. apply Hm.
           destruct E' as [[_ E']|(E1 & E2 & _)]; [left; lia|by right].
        -- intros [_ [[_ F]|(_ & F & _)]]; [lia|]. split; [done|]. apply Hm in F as [F|[F1 F2]].
           ++ left. split; [|lia]. naive_solver.
           ++ right. split_and!; done.
    + rewrite !elem_of_app. intros [_ [[_ F]|(_ & _ & F)]]; [lia|]. assert (x ∈ now /\ once (at_func x) = true) as [? Eo].
      { destruct (once (at_func x)); naive_solver. }
      destruct (F Eo) as [F' _]. naive_solver.
  - rewrite Ea in *. cbn [snd ap_wait ap_todo ap_phase ap_period] in *.
    unfold all_timers in Hin. cbn [ap_done ap_todo] in Hin. rewrite !elem_of_app, keep_elem in Hin.
    rewrite Hw, !Z.sub_0_r. replace (ap_phase a + (i + 1)) with (ap_phase a + 1 + i) by lia.
    rewrite E in *. rewrite !elem_of_app in *.
    assert (x ∈ now -> x ∉ later) as Hl by (intros Hl Hl2; specialize (H1 x Hl); specialize (H2 x Hl2); lia).
    assert (x ∈ now -> Z.max 0 (at_ticks x - ap_phase a) = 0) as Hz by (intros Hl2; specialize (H1 x Hl2); lia).
    assert (x ∈ later -> Z.max 0 (at_ticks x - ap_phase a) = Z.max 0 (at_ticks x - (ap_phase a + 1)) + 1) as Hz2
      by (intros Hl2; specialize (H2 x Hl2); lia).
    case_decide as Hd.
    + apply Hin in Hd. rewrite !elem_of_app. split.
      * intros [_ [[F1 F2]|(F1 & F2 & F3)]]; (split; [lia|]).
        -- left. split; [by right|]. rewrite Hz2 by done. lia.
        -- right. split_and!; [done..|]. intros Eo. destruct (F3 Eo). split; [|done].
           intros [?|?]; [|done]. destruct Hd as [[?|[? ?]]|?]; [naive_solver|congruence|done].
      * intros [_ [[F1 F2]|(F1 & F2 & F3)]]; (split; [lia|]).
        -- destruct F1 as [F1|F1]; [rewrite Hz in F2 by done; lia|]. left. split; [done|]. rewrite Hz2 in F2 by done. lia.
        -- right. split_and!; [done..|]. intros Eo. destruct (F3 Eo). split; [naive_solver|done].
    + assert (x ∈ now /\ once (at_func x) = true) as [Hw' Eo] by (destruct (once (at_func x)); naive_solver).
      rewrite !elem_of_app. intros [_ [[_ F]|(_ & _ & F)]]; [rewrite Hz in F by done; lia|]. destruct (F Eo) as [F' _]. naive_solver.
  - exfalso. unfold all_timers in Ha. apply app_eq_nil in Ha as [E1 E2]. rewrite E1, E2 in Hx. set_solver.
Qed.

(** The timers called at the [i]-th tick from now. *)
Fixpoint called (i : nat) (a : aper) : list Z :=
  match i with O => (atick a).1 | S i => called i (atick a).2 end.

Lemma called_queued i : forall a t, sound a -> t ∈ called i a -> t ∈ ptrs (all_timers a).
Proof.
  induction i as [|i IH]; cbn; intros a t Hs Ht.
  - destruct (atick_cases a Hs) as [[_ E]|(_ & now & later & E & _ & _ & [[_ Ea]|[[_ Ea]|(_ & Ea & _)]])].
    + rewrite E in Ht. set_solver.
    + rewrite Ea in Ht. unfold all_timers. rewrite E, !ptrs_app. set_solver.
    + rewrite Ea in Ht. unfold all_timers. rewrite E, !ptrs_app. set_solver.
    + rewrite Ea in Ht. set_solver.
  - apply IH in Ht; [|by apply atick_sound]. apply list_elem_of_fmap in Ht as (x & -> & Hx).
    apply ptrs_elem. eapply sublist_subseteq, Hx. by apply atick_all.
Qed.

Lemma called_due i : forall a x, sound a -> x ∈ all_timers a -> at_ptr x ∈ called i a <-> due a x (Z.of_nat i).
Proof.
  induction i as [|i IH]; intros a x Hs Hx; cbn [called]; [by apply atick_due|].
  replace (Z.of_nat (S i)) with (Z.of_nat i + 1) by lia.
  pose proof (atick_shift a x (Z.of_nat i) Hs Hx ltac:(lia)) as Hsh. pose proof (atick_sound a Hs) as Hs'.
  case_decide as Hd.
  - rewrite <-Hsh. apply IH; [done|]. apply list_elem_of_fmap in Hd as (y & E & Hy).
    assert (x = y) as ->; [|done]. destruct Hs. eapply (ptr_inj (all_timers a)); [done..| |done].
    eapply sublist_subseteq, Hy. by apply atick_all.
  - split; [|done]. intros Hin. exfalso. by apply Hd, (called_queued i).
Qed.

Lemma ticks_called n : forall qs o i, (i < n)%nat ->
  (arun (replicate n OTick) (Spec qs o)).1 !! i = Some (RCalled (qs ≫= called i)).
Proof.
  induction n as [|n IH]; intros qs o i Hi; [lia|]. cbn [replicate arun aexec queues orphans].
  specialize (IH (snd <$> (atick <$> qs)) o). destruct (arun (replicate n OTick) _) as [rs s']. cbn [fst] in *.
  destruct i as [|i]; cbn.
  - do 2 f_equal. clear. induction qs as [|a qs IH]; cbn; [done|]. by rewrite IH.
  - rewrite IH by lia. do 2 f_equal. clear. induction qs as [|a qs IH]; cbn; [done|]. by rewrite IH.
Qed.

Lemma inv_sound L s a : inv PA TA L s -> a ∈ queues s -> sound a.
Proof.
  intros Hi Ha. destruct (i_per _ _ _ _ Hi a Ha) as [[_ Hr _] Hok]. split; [done|].
  by apply repr_nodup, NoDup_cons in Hr as [_ Hr].
Qed.

(** ** Testing the lists *)

Lemma queue_test_ok s q l max : queue_repr s q l max -> _queue_test q s = Some ((MQX_OK, None), s).
Proof.
  intros Hr. unfold _queue_test. pose proof (repr_lseg _ _ _ _ Hr) as Hs.
  rewrite (bind_run _ _ _ _ _ (get_SIZE_run _ _ _ (repr_size _ _ _ _ Hr))).
  rewrite (bind_run _ _ _ _ _ (get_NEXT_run _ _ _ (repr_next _ _ _ _ Hr))), Nat2Z.id.
  pose proof (repr_nodup _ _ _ _ Hr) as Hn. apply NoDup_cons in Hn as [Hn _].
  apply lseg_walked in Hs as [Hw He].
  erewrite bind_run by (apply queue_test_loop_complete; [done..|apply He]). cbn iota.
  rewrite Z.eqb_refl. cbn [negb].
  rewrite (bind_run _ _ _ _ _ (get_PREV_run _ _ _ (repr_prev _ _ _ _ Hr))). by rewrite Z.eqb_refl.
Qed.

(** The lists of [s] are sound, and all timers but [bad] are valid. *)
Record all_but (bad : option Z) (L : lt) (qs : list aper) : Prop := {
  ab_list : queue_repr (QS L) LWTIMERS (ap_ptr <$> qs) 0;
  ab_per : forall a, a ∈ qs -> exists v, PERIODS L !! ap_ptr a = Some v /\ PVALID v = LWTIMER_VALID;
  ab_links : forall a, a ∈ qs -> queue_repr (QS L) (TIMERS (ap_ptr a)) (ptrs (all_timers a)) 0;
  ab_timer : forall a t, a ∈ qs -> t ∈ ptrs (all_timers a) ->
    exists d, TMRS L !! t = Some d /\ (TVALID d = LWTIMER_VALID <-> bad <> Some t)
}.

Definition find_bad (bad : option Z) (l : list Z) : option Z :=
  match bad with Some t => if decide (t ∈ l) then Some t else None | None => None end.

Lemma find_bad_cons bad x l : bad <> Some x -> find_bad bad (x :: l) = find_bad bad l.
Proof.
  intros Hb. unfold find_bad. destruct bad as [t|]; [|done].
  repeat case_decide; try done; set_solver.
Qed.

Lemma test_timers_run bad L qs a : all_but bad L qs -> a ∈ qs -> forall fuel l0 l,
  ptrs (all_timers a) = l0 ++ l -> (length l < fuel)%nat ->
  test_timers fuel (ap_ptr a) (hd (TIMERS (ap_ptr a)) l) L = Some (find_bad bad l, L).
Proof.
  intros Hb Ha. induction fuel as [|fuel IH]; intros l0 l El Hf; [lia|].
  pose proof (ab_links _ _ _ Hb a Ha) as Hr. rewrite El in Hr.
  destruct l as [|t l]; cbn [test_timers hd].
  - rewrite Z.eqb_refl. by destruct bad.
  - rewrite (proj2 (Z.eqb_neq _ _)).
    2: { pose proof (repr_nodup _ _ _ _ Hr) as Hn. intros E. rewrite E in Hn. apply NoDup_cons in Hn as [Hn _].
         apply Hn. set_solver. }
    destruct (ab_timer _ _ _ Hb a t Ha) as (d & Hd & Hv); [rewrite El; set_solver|].
    rewrite (bind_run _ _ _ _ _ (get_timer_run _ _ _ Hd)).
    destruct (Z.eqb_spec (TVALID d) LWTIMER_VALID) as [E|E]; cbn [negb].
    + apply Hv in E. rewrite find_bad_cons by done.
      pose proof (repr_lseg _ _ _ _ Hr) as Hl. apply lseg_cons_app in Hl as [_ Hl]. apply lseg_first, edge_next in Hl.
      rewrite (bind_run _ _ _ _ _ (links_read _ _ _ (get_NEXT_run _ _ _ Hl))).
      apply (IH (l0 ++ [t])); [by rewrite <-app_assoc|cbn in Hf; lia].
    + assert (bad = Some t) as -> by (destruct (decide (bad = Some t)); [done|tauto]).
      unfold find_bad. by rewrite decide_True by by left.
Qed.

(** What the loop over the queues returns. *)
Fixpoint judge (bad : option Z) (qs : list aper) : verdict :=
  match qs with
  | [] => Verdict MQX_OK NULL NULL true
  | a :: qs =>
      match find_bad bad (ptrs (all_timers a)) with
      | Some t => Verdict MQX_LWTIMER_INVALID (ap_ptr a) t false
      | None => judge bad qs
      end
  end.

Lemma test_periods_run bad L qs inner : all_but bad L qs ->
  (forall a, a ∈ qs -> (length (all_timers a) < inner)%nat) ->
  forall fuel q1 q2, qs = q1 ++ q2 -> (length q2 < fuel)%nat ->
  test_periods fuel inner (hd LWTIMERS (ap_ptr <$> q2)) L = Some (judge bad q2, L).
Proof.
  intros Hb Hin. induction fuel as [|fuel IH]; intros q1 q2 Eq Hf; [lia|].
  pose proof (ab_list _ _ _ Hb) as Hr. rewrite Eq, fmap_app in Hr.
  destruct q2 as [|a q2]; cbn [test_periods fmap list_fmap hd judge].
  - by rewrite Z.eqb_refl.
  - cbn [fmap list_fmap] in Hr. rewrite (proj2 (Z.eqb_neq _ _)).
    2: { pose proof (repr_nodup _ _ _ _ Hr) as Hn. intros E. rewrite E in Hn. apply NoDup_cons in Hn as [Hn _].
         apply Hn. set_solver. }
    assert (a ∈ qs) as Ha by (rewrite Eq; set_solver). destruct (ab_per _ _ _ Hb a Ha) as (v & Hv & Ev).
    rewrite (bind_run _ _ _ _ _ (get_period_run _ _ _ Hv)), Ev, Z.eqb_refl. cbn [negb].
    pose proof (ab_links _ _ _ Hb a Ha) as Hra.
    rewrite (bind_run _ _ _ _ _ (links_read _ _ _ (queue_test_ok _ _ _ _ Hra))). cbn [fst]. rewrite Z.eqb_refl. cbn [negb].
    rewrite (bind_run _ _ _ _ _ (links_read _ _ _ (get_NEXT_run _ _ _ (repr_next _ _ _ _ Hra)))).
    rewrite (bind_run _ _ _ _ _ (test_timers_run bad L qs a Hb Ha inner [] _ eq_refl
      ltac:(rewrite ptrs_length; by apply Hin))).
    destruct (find_bad bad _) as [t|]; [done|].
    pose proof (repr_lseg _ _ _ _ Hr) as Hl. apply lseg_cons_app in Hl as [_ Hl]. apply lseg_first, edge_next in Hl.
    rewrite (bind_run _ _ _ _ _ (links_read _ _ _ (get_NEXT_run _ _ _ Hl))).
    apply (IH (q1 ++ [a])); [by rewrite <-app_assoc|cbn in Hf; lia].
Qed.

Lemma test_run bad L qs : all_but bad L qs -> _lwtimer_test L = Some (judge bad qs, L).
Proof.
  intros Hb. pose proof (ab_list _ _ _ Hb) as Hr. unfold _lwtimer_test.
  rewrite (bind_run (gets id) _ L L L) by done.
  rewrite (bind_run _ _ _ _ _ (links_read _ _ _ (get_NEXT_run _ _ _ (repr_next _ _ _ _ Hr)))).
  pose proof (repr_null _ _ _ _ Hr) as Hnull.
  rewrite (proj2 (Z.eqb_neq _ _)).
  2: { intros E. rewrite <-E in Hnull. apply Hnull. destruct qs; set_solver. }
  rewrite (bind_run _ _ _ _ _ (links_read _ _ _ (queue_test_ok _ _ _ _ Hr))). cbn [fst]. rewrite Z.eqb_refl. cbn [negb].
  rewrite (bind_run _ _ _ _ _ (links_read _ _ _ (get_NEXT_run _ _ _ (repr_next _ _ _ _ Hr)))).
  apply (test_periods_run bad L qs _ Hb) with (q1 := []); [|done|].
  - intros a Ha. pose proof (ab_links _ _ _ Hb a Ha) as Hra. apply repr_nodup, NoDup_cons in Hra as [_ Hn].
    rewrite <-ptrs_length. assert (length (ptrs (all_timers a)) <= size (TMRS L))%nat; [|unfold id; lia].
    apply NoDup_subset_length; [done|]. intros t Ht. destruct (ab_timer _ _ _ Hb a t Ha Ht) as (d & E & _). eauto.
  - pose proof (repr_nodup _ _ _ _ Hr) as Hn. apply NoDup_cons in Hn as [_ Hn].
    assert (length qs <= size (PERIODS L))%nat; [|unfold id; lia]. rewrite <-(length_fmap ap_ptr).
    apply NoDup_subset_length; [done|]. intros p Hp. apply list_elem_of_fmap in Hp as (a & -> & Ha).
    destruct (ab_per _ _ _ Hb a Ha) as (v & E & _). eauto.
Qed.

Lemma judge_none qs : judge None qs = Verdict MQX_OK NULL NULL true.
Proof. induction qs as [|a qs IH]; [done|]. cbn. done. Qed.

Lemma judge_mid q1 a q2 t : (forall b, b ∈ q1 -> t ∉ ptrs (all_timers b)) -> t ∈ ptrs (all_timers a) ->
  judge (Some t) (q1 ++ a :: q2) = Verdict MQX_LWTIMER_INVALID (ap_ptr a) t false.
Proof.
  intros Hq Ht. induction q1 as [|b q1 IH]; cbn [app judge].
  - unfold find_bad. by rewrite decide_True.
  - unfold find_bad at 1. rewrite decide_False by (apply Hq; by left). apply IH. intros c Hc. apply Hq. by right.
Qed.

(** A sound state, with [VALID] of a timer overwritten. *)
Lemma spoilt L s a t v : inv PA TA L s -> a ∈ queues s -> t ∈ ptrs (all_timers a) -> v <> LWTIMER_VALID ->
  all_but None L (queues s) /\ all_but (Some t) (set_TMRS (alter (with_TVALID v) t) L) (queues s).
Proof.
  intros Hi Ha Ht Hv. split; split; cbn [set_TMRS QS PERIODS TMRS].
  1, 5: exact (inv_repr L s a Hi Ha).
  1, 4: intros b Hb; destruct (i_per _ _ _ _ Hi b Hb) as [[Hp _ _] _]; eauto.
  1, 3: intros b Hb; by destruct (i_per _ _ _ _ Hi b Hb) as [[_ Hq _] _].
  - intros b u Hb Hu. destruct (i_per _ _ _ _ Hi b Hb) as [[_ _ Hx] _].
    apply list_elem_of_fmap in Hu as (x & -> & Hu). destruct (Hx x Hu) as (par & E & _).
    eexists. split; [exact E|done].
  - intros b u Hb Hu. destruct (i_per _ _ _ _ Hi b Hb) as [[_ _ Hx] _].
    apply list_elem_of_fmap in Hu as (x & -> & Hu). destruct (Hx x Hu) as (par & E & _).
    destruct (decide (at_ptr x = t)) as [Et|Hne].
    + rewrite Et in *. rewrite lookup_alter_eq, E. eexists. split; [done|]. cbn. by split; [|intros []].
    + rewrite lookup_alter_ne by done. rewrite E. eexists. split; [done|]. cbn. split; [|done]. congruence.
Qed.

(** ** Properties *)

(** C9: Programs of timer operations and clock ticks return what they return on
    the lists of periodic queues and timers, and call the same functions in the
    same order, including functions that cancel their own timer; no link is
    followed wrongly. *)
Theorem lwtimer_trace_refines ops L s : inv PA TA L s -> cans PA TA ops s ->
  exists L', run ops L = Some ((arun ops s).1, L') /\ inv PA TA L' (arun ops s).2.
Proof. apply run_refines_spec. Qed.

(** C11: While no timer is added or cancelled, the function of a timer is called
    at exactly the ticks at which it is due: once the queue has waited, at its
    offset in every period, or at once if its offset had passed when the timer
    was added behind all timers that were already processed. *)
Theorem lwtimer_on_schedule L s a x n : inv PA TA L s -> a ∈ queues s -> x ∈ all_timers a ->
  exists rs L', run (replicate n OTick) L = Some (rs, L') /\
    forall i, (i < n)%nat -> exists l, rs !! i = Some (RCalled l) /\
      (at_ptr x ∈ l <-> due a x (Z.of_nat i)).
Proof.
  intros Hi Ha Hx. destruct s as [qs o]. cbn [queues] in Ha.
  destruct (run_refines_spec (replicate n OTick) L _ Hi) as (L' & E & _).
  { clear. generalize (Spec qs o) as s. induction n; cbn; eauto. }
  eexists _, L'. split; [exact E|]. intros i Hin. exists (qs ≫= called i). split; [by apply ticks_called|].
  pose proof (inv_sound L _ a Hi Ha) as Hs. rewrite <-(called_due i a x Hs Hx), list_elem_of_bind. split.
  - intros (b & Hb & Hq). assert (b = a) as ->; [|done].
    pose proof (called_queued i b _ (inv_sound L _ b Hi Hq) Hb) as Hb'.
    apply list_elem_of_split in Ha as (q1 & q2 & ->). pose proof (i_queued _ _ _ _ Hi) as [Hn _].
    rewrite queued_mid in Hn. apply NoDup_app in Hn as (_ & Hd & _).
    assert (b = a \/ b ∈ q1 ++ q2) as [Hba|Hba] by set_solver; [done|].
    exfalso. apply (Hd (at_ptr x)); [by apply ptrs_elem|]. apply elem_of_queued. eauto.
  - eauto.
Qed.

(** The links of a timer that was left behind when its queue was cancelled,
    after the queue was created again. *)
Lemma recreate_run L q1 a q2 o t P w : inv PA TA L (Spec (q1 ++ a :: q2) o) -> t ∈ ptrs (all_timers a) ->
  let p := ap_ptr a in exists L1 L2 d u v,
    _lwtimer_cancel_period p L = Some (MQX_OK, L1) /\
    _lwtimer_create_periodic_queue p P w L1 = Some (MQX_OK, L2) /\
    PERIODS L2 !! p = Some (Per P 0 w (TIMERS p) LWTIMER_VALID) /\ queue_repr (QS L2) (TIMERS p) [] 0 /\
    TMRS L2 !! t = Some d /\ TVALID d = LWTIMER_VALID /\ PERIOD_PTR d = p /\ t <> TIMERS p /\
    PREV (QS L2) !! t = Some u /\ NEXT (QS L2) !! t = Some v /\
    is_Some (NEXT (QS L2) !! u) /\ is_Some (PREV (QS L2) !! v).
Proof.
  intros Hi Ht. set (p := ap_ptr a). assert (a ∈ q1 ++ a :: q2) as Ha by set_solver.
  destruct (i_per _ _ _ _ Hi a Ha) as [[_ Hq Hx] _]. pose proof pool_facts as (F1 & F2 & F3 & F4).
  pose proof (i_periods _ _ _ _ Hi) as [_ Hps]. pose proof (i_queued _ _ _ _ Hi) as [_ Hqs].
  assert (p ∈ PA) as HpA by (apply Hps, elem_of_periods; eauto).
  destruct (cancel_period_mid L q1 a q2 o Hi) as (L1 & E1 & Hi1 & ET & A1). fold p in E1.
  assert (periods (Spec (q1 ++ q2) (abandon a o)) ⊆ PA /\ p ∉ periods (Spec (q1 ++ q2) (abandon a o))) as [Hps1 Hp1].
  { split; [apply (i_periods _ _ _ _ Hi1)|]. intros (b & Hb & E)%elem_of_periods. by eapply others_ptr in E. }
  destruct (create_run L1 (q1 ++ q2) (abandon a o) p P w Hi1 HpA Hp1) as (s2 & E2 & _ & R2 & A2).
  set (L2 := Lt s2 _ _ _) in E2.
  assert (forall u, u ∈ ptrs (all_timers a) -> NEXT s2 !! u = NEXT (QS L) !! u /\ PREV s2 !! u = PREV (QS L) !! u) as Hlk.
  { intros u Hu. assert (u ∈ TA) as HuT by (apply Hqs; rewrite queued_mid; set_solver).
    assert (u ∉ PA) as HuP by (intros HuP; destruct (F1 u HuP) as (_ & _ & F & _); done).
    destruct (F3 u HuT) as [_ Hul].
    assert (u ∉ TIMERS p :: LWTIMERS :: p :: periods (Spec (q1 ++ q2) (abandon a o))) as Hu2.
    { rewrite !not_elem_of_cons. split_and!; [|done| |by intros Hin; apply HuP, Hps1].
      - intros ->. by apply (F2 p HpA).
      - by intros ->. }
    assert (u ∉ LWTIMERS :: periods (Spec (q1 ++ q2) o)) as Hu1 by (rewrite !not_elem_of_cons in *; tauto).
    by rewrite (ag_next _ _ _ A2 u Hu2), (ag_prev _ _ _ A2 u Hu2), (ag_next _ _ _ A1 u Hu1), (ag_prev _ _ _ A1 u Hu1). }
  destruct (ptrs_split t _ Ht) as (l1 & x & l2 & El & Ex). rewrite El, ptrs_mid, Ex in Hq. fold p in Hq.
  pose proof (repr_lseg _ _ _ _ Hq) as Hl. apply lseg_cons_app in Hl as [Hl1 Hl2].
  apply lseg_last in Hl1 as [_ Hprev]. apply lseg_first in Hl2 as [Hnext _].
  destruct (Hlk t Ht) as [Ent Ept]. rewrite Hnext in Ent. rewrite Hprev in Ept.
  assert (forall u, u ∈ TIMERS p :: ptrs (all_timers a) -> has_links s2 u) as Hsome.
  { intros u Hu. apply elem_of_cons in Hu as [->|Hu].
    - split; [rewrite (repr_next _ _ _ _ R2)|rewrite (repr_prev _ _ _ _ R2)]; done.
    - unfold has_links. destruct (Hlk u Hu) as [-> ->]. destruct (i_per _ _ _ _ Hi a Ha) as [[_ Hq0 _] _].
      eapply lseg_links, Hu. apply (repr_lseg _ _ _ _ Hq0). }
  assert (ptrs (all_timers a) = ptrs l1 ++ t :: ptrs l2) as Eall by (rewrite El, ptrs_mid, Ex; done).
  destruct (Hsome (last_from (TIMERS p) (ptrs l1))) as [HN _].
  { rewrite Eall. pose proof (last_from_in (TIMERS p) (ptrs l1)). set_solver. }
  destruct (Hsome (hd (TIMERS p) (ptrs l2))) as [_ HP].
  { rewrite Eall. destruct (ptrs l2); set_solver. }
  destruct (Hx x) as (par & Ed & _); [rewrite El; set_solver|]. rewrite Ex in Ed. fold p in Ed.
  assert (t <> TIMERS p) as Hne.
  { intros ->. pose proof (repr_nodup _ _ _ _ Hq) as Hn. apply NoDup_cons in Hn as [Hn _]. apply Hn. set_solver. }
  exists L1, L2, (Tmr (at_ticks x) LWTIMER_VALID (at_func x) par p),
    (last_from (TIMERS p) (ptrs l1)), (hd (TIMERS p) (ptrs l2)).
  assert (TMRS L2 !! t = TMRS L !! t) as ET' by (cbn; by rewrite ET).
  split_and!; try done; [cbn; by rewrite lookup_insert_eq|by rewrite ET'].
Qed.

Lemma run_cons op ops L r L1 rs L2 : exec op L = Some (r, L1) -> run ops L1 = Some (rs, L2) ->
  run (op :: ops) L = Some (r :: rs, L2).
Proof. intros E1 E2. cbn [run]. by rewrite (bind_run _ _ _ _ _ E1), (bind_run _ _ _ _ _ E2). Qed.

(** C39: Cancelling a periodic queue leaves its timers marked as valid: when the
    structure is used again, cancelling such a timer is accepted, works on the
    links of the old list and leaves an empty queue that counts 65535 timers. *)
Theorem lwtimer_stale_cancel L q1 a q2 o t P w :
  inv PA TA L (Spec (q1 ++ a :: q2) o) -> t ∈ ptrs (all_timers a) ->
  exists L', run [OCancelPeriod (ap_ptr a); OCreate (ap_ptr a) P w; OCancel t] L =
      Some ([RCode MQX_OK; RCode MQX_OK; RCode MQX_OK], L') /\
    SIZE (QS L') !! TIMERS (ap_ptr a) = Some 65535.
Proof.
  intros Hi Ht. destruct (recreate_run L q1 a q2 o t P w Hi Ht) as
    (L1 & L2 & d & u & v & E1 & E2 & Hp & R & Hd & Hv & Ho & Hne & Hprev & Hnext & HN & HP).
  set (p := ap_ptr a) in *.
  set (s3 := Store (<[u := v]> (NEXT (QS L2))) (<[v := u]> (PREV (QS L2)))
                   (<[TIMERS p := 65535]> (SIZE (QS L2))) (MAX (QS L2))).
  exists (set_QS s3 (set_TMRS (<[t := with_TVALID 0 d]>) L2)). split; [|cbn; by rewrite lookup_insert_eq].
  eapply run_cons; [cbn [exec]; by rewrite (bind_run _ _ _ _ _ E1)|].
  eapply run_cons; [cbn [exec]; by rewrite (bind_run _ _ _ _ _ E2)|].
  eapply run_cons; [|done]. cbn [exec]. erewrite bind_run; [done|].
  unfold _lwtimer_cancel_timer. rewrite (bind_run _ _ _ _ _ (get_timer_run _ _ _ Hd)), Hv, Ho, Z.eqb_refl. cbn [negb].
  rewrite (bind_run _ _ _ _ _ (get_period_run _ _ _ Hp)).
  cbn [PVALID TIMER_PTR]. rewrite Z.eqb_refl, (proj2 (Z.eqb_neq _ _) Hne). cbn [negb].
  rewrite (bind_run _ _ _ _ _ (set_timer_run _ _ _ _ Hd)), bind_ret_l.
  erewrite bind_run; [done|]. apply (links_run _ (set_TMRS _ L2) tt s3). cbn [QS set_TMRS].
  unfold _QUEUE_REMOVE, _QUEUE_UNLINK. rewrite bind_assoc, (bind_run _ _ _ _ _ (get_PREV_run _ _ _ Hprev)).
  rewrite bind_assoc, (bind_run _ _ _ _ _ (get_NEXT_run _ _ _ Hnext)).
  rewrite bind_assoc, (bind_run _ _ _ _ _ (set_NEXT_run _ _ _ HN)).
  rewrite (bind_run _ _ _ _ _ (set_PREV_run (Store _ _ _ _) _ _ HP)). cbn [NEXT PREV SIZE MAX].
  pose proof (repr_size _ _ _ _ R) as Hsz. cbn [length Z.of_nat] in Hsz.
  erewrite bind_run; [|apply get_SIZE_run; exact Hsz]. apply set_SIZE_run. cbn [SIZE]. rewrite Hsz. eauto.
Qed.

(** On sound lists [_lwtimer_test] finds nothing.  If the mark of a queued
    timer is overwritten it reports the timer and its queue, but returns
    without enabling the interrupts that it disabled. *)
Theorem lwtimer_test_verdict L s a t v : inv PA TA L s -> a ∈ queues s -> t ∈ ptrs (all_timers a) ->
  v <> LWTIMER_VALID ->
  _lwtimer_test L = Some (Verdict MQX_OK NULL NULL true, L) /\
  let L' := set_TMRS (alter (with_TVALID v) t) L in
  _lwtimer_test L' = Some (Verdict MQX_LWTIMER_INVALID (ap_ptr a) t false, L').
Proof.
  intros Hi Ha Ht Hv. destruct (spoilt L s a t v Hi Ha Ht Hv) as [H1 H2].
  split; [by rewrite (test_run None L _ H1), judge_none|].
  cbn. rewrite (test_run _ _ _ H2). destruct s as [qs o]. cbn [queues] in *.
  apply list_elem_of_split in Ha as (q1 & q2 & ->). rewrite judge_mid; [done| |done].
  intros b Hb Hin. pose proof (i_queued _ _ _ _ Hi) as [Hn _]. rewrite queued_mid in Hn.
  apply NoDup_app in Hn as (_ & Hd & _). apply (Hd t Ht), elem_of_queued. exists b. split; [cbn; set_solver|done].
Qed.

(** The state before the first queue is created. *)
Lemma inv_start L : LWTIMER_ISR L = false -> NEXT (QS L) !! LWTIMERS = Some NULL ->
  is_Some (PREV (QS L) !! LWTIMERS) -> is_Some (SIZE (QS L) !! LWTIMERS) -> is_Some (MAX (QS L) !! LWTIMERS) ->
  (forall p, p ∈ PA -> spare L p) ->
  (forall t, t ∈ TA -> has_links (QS L) t /\ exists d, TMRS L !! t = Some d /\ TVALID d <> LWTIMER_VALID) ->
  inv PA TA L (Spec [] ∅).
Proof.
  intros Hl Hn Hp Hs Hm HP HT. split.
  - unfold list_ok. by rewrite Hl.
  - intros a Ha. by apply elem_of_nil in Ha.
  - auto.
  - intros t Ht _. destruct (HT t Ht) as (? & d & Hd & Hv). split; [done|]. by exists d.
  - split; [constructor|]. intros x Hx. by apply elem_of_nil in Hx.
  - split; [constructor|]. intros x Hx. by apply elem_of_nil in Hx.
Qed.

End pools.
End lwtimer.

(** ** An example *)

(** Function 1 cancels the timer it is called for; the others do nothing. *)
#[export] Instance ex_functions : Functions := {|
  isr f x := if f =? 1 then _lwtimer_cancel_timer x;; mret tt else mret tt;
  once f := f =? 1
|}.

#[export] Instance ex_laws : FunctionLaws.
Proof. intros f x L. done. Qed.

Definition ex_nodes : list Z := [1000; 100; 120; 200; 220; 300; 400; 500].
Definition ex_boot : lt :=
  Lt (Store (list_to_map ((fun p => (p, 0)) <$> ex_nodes)) (list_to_map ((fun p => (p, 0)) <$> ex_nodes))
            (list_to_map [(1000, 0); (120, 7); (220, 7)]) (list_to_map [(1000, 0); (120, 7); (220, 7)]))
     (list_to_map [(100, Per 0 0 0 0 0); (200, Per 0 0 0 0 0)])
     (list_to_map ((fun t => (t, Tmr 0 0 0 0 0)) <$> [300; 400; 500])) false.

Lemma ex_pools : pools 1000 [100; 200] [300; 400; 500].
Proof. split; [|done]. apply (bool_decide_eq_true_1 _). vm_compute. done. Qed.

Lemma ex_boot_inv : inv 1000 [100; 200] [300; 400; 500] ex_boot (Spec [] ∅).
Proof.
  apply inv_start; [done|done|by eexists..| |].
  - intros p Hp. assert (p = 100 \/ p = 200) as [-> | ->] by set_solver;
      (split_and!; [split|split| | |eexists; split]); try (by eexists); done.
  - intros t Ht. assert (t = 300 \/ t = 400 \/ t = 500) as [->|[->| ->]] by set_solver;
      (split; [split|eexists; split]); try (by eexists); done.
Qed.

(** A queue of period 4 that waits for one tick, a timer at offset 2, one at
    offset 1 that cancels itself, and one of another queue. *)
Definition ex_setup : list op :=
  [OCreate 100 4 1; OAdd 100 300 2 0 0; OAdd 100 400 1 1 400; OCreate 200 3 0; OAdd 200 500 0 0 7].
Definition ex_ops : list op :=
  ex_setup ++ [OTick; OTick; OTick; OTick; OTick; OTick; OTick; OTick; OAdd 200 400 5 0 0; OCancel 500; OCancel 500;
               OCancelPeriod 200; OCancel 300].

Lemma ex_cans : cans [100; 200] [300; 400; 500] ex_ops (Spec [] ∅).
Proof. apply (bool_decide_eq_true_1 _). vm_compute. done. Qed.

Definition ex_spec : spec := (arun ex_setup (Spec [] ∅)).2.

Lemma ex_state : exists L, run 1000 ex_setup ex_boot = Some ((arun ex_setup (Spec [] ∅)).1, L) /\
  inv 1000 [100; 200] [300; 400; 500] L ex_spec.
Proof.
  apply run_refines_spec; [apply ex_pools|apply _|apply ex_boot_inv|].
  apply (bool_decide_eq_true_1 _). vm_compute. done.
Qed.

Lemma lwtimer_trace_refines_witness : exists L',
  run 1000 ex_ops ex_boot =
    Some ((RCode <$> [0; 0; 0; 0; 0]) ++
          (RCalled <$> [[500]; []; [400]; [300; 500]; []; []; [500]; [300]]) ++
          (RCode <$> [12; 0; 64; 0; 0]), L') /\
  inv 1000 [100; 200] [300; 400; 500] L' (arun ex_ops (Spec [] ∅)).2.
Proof.
  exact (lwtimer_trace_refines 1000 [100; 200] [300; 400; 500] ex_pools ex_ops ex_boot (Spec [] ∅) ex_boot_inv ex_cans).
Defined.

(** The code computes the same. *)
Example ex_run : fst <$> run 1000 ex_ops ex_boot = Some (arun ex_ops (Spec [] ∅)).1.
Proof. vm_compute. reflexivity. Qed.

Definition ex_queue : aper := Ap 100 4 0 1 [] [At 400 1 1; At 300 2 0].

Lemma lwtimer_on_schedule_witness : exists L rs L', inv 1000 [100; 200] [300; 400; 500] L ex_spec /\
  run 1000 (replicate 8 OTick) L = Some (rs, L') /\
  forall i, (i < 8)%nat -> exists l, rs !! i = Some (RCalled l) /\
    (300 ∈ l <-> due ex_queue (At 300 2 0) (Z.of_nat i)).
Proof.
  destruct ex_state as (L & _ & Hi). exists L.
  destruct (lwtimer_on_schedule 1000 [100; 200] [300; 400; 500] ex_pools L ex_spec ex_queue (At 300 2 0) 8 Hi)
    as (rs & L' & E & H); [by left|by right; left|]. eauto.
Defined.

(** With a fresh queue the time is [wait + offset], and then every period. *)
Example ex_due i : due ex_queue (At 300 2 0) i <-> 1 <= i /\ (i - 1) mod 4 = 2.
Proof.
  unfold due. cbn. split.
  - intros [H1 [[_ H2]|(H2 & H3 & _)]]; (split; [lia|]); [|done]. by replace (i - 1) with 2 by lia.
  - intros [H1 H2]. split; [lia|]. destruct (Z.lt_ge_cases (i - 1) 4).
    + left. split; [by right; left|]. rewrite Z.mod_small in H2; lia.
    + right. by split_and!.
Qed.

Lemma lwtimer_stale_cancel_witness : exists L L', inv 1000 [100; 200] [300; 400; 500] L ex_spec /\
  run 1000 [OCancelPeriod 100; OCreate 100 6 0; OCancel 300] L =
    Some ([RCode MQX_OK; RCode MQX_OK; RCode MQX_OK], L') /\
  SIZE (QS L') !! 120 = Some 65535.
Proof.
  destruct ex_state as (L & _ & Hi). exists L.
  destruct (lwtimer_stale_cancel 1000 [100; 200] [300; 400; 500] ex_pools L [] ex_queue
    [Ap 200 3 0 0 [] [At 500 0 0]] ∅ 300 6 0 Hi) as (L' & E & Hs); [by right; left|]. eauto.
Defined.

Lemma lwtimer_test_verdict_witness : exists L, inv 1000 [100; 200] [300; 400; 500] L ex_spec /\
  _lwtimer_test 1000 L = Some (Verdict MQX_OK NULL NULL true, L) /\
  let L' := set_TMRS (alter (with_TVALID 0) 500) L in
  _lwtimer_test 1000 L' = Some (Verdict MQX_LWTIMER_INVALID 200 500 false, L').
Proof.
  destruct ex_state as (L & _ & Hi). exists L. split; [done|].
  exact (lwtimer_test_verdict 1000 [100; 200] [300; 400; 500] ex_pools L ex_spec
    (Ap 200 3 0 0 [] [At 500 0 0]) 500 0 Hi ltac:(by right; left) ltac:(by left) ltac:(done)).
Defined.

(** A function that moves its own timer to an earlier offset of the period is
    not within [FunctionLaws]: timer 400, which was called at offset 1, is
    called again when timer 300 at offset 2 moves in front of it. *)
Definition ex_mover : Functions := {|
  isr f x := if f =? 2 then _lwtimer_cancel_timer x;; _lwtimer_add_timer_to_queue 100 x 0 0 0;; mret tt else mret tt;
  once f := false
|}.

Example ex_called_twice :
  fst <$> @run 1000 ex_mover
    [OCreate 100 4 0; OAdd 100 400 1 0 0; OAdd 100 300 2 2 300; OTick; OTick; OTick; OTick] ex_boot =
  Some [RCode 0; RCode 0; RCode 0; RCalled []; RCalled [400]; RCalled [300; 400]; RCalled []].
Proof. vm_compute. reflexivity. Qed.

End Lwtimer.
