(* ===== verification/Mfsio.v ===== *)
(** * Sector input and output of the MFS file system

    [mfs/source/generic/mfs_rw.c] and [mfs_data_sector.c]: the transfer of
    sectors to and from the block device with retries and read-back
    verification, and the one-sector buffers for directories and for data.

    The block device is whatever driver the file system was mounted on, called
    through the file interface ([fseek], [read], [write], [ioctl]); it is the
    type class [Device], and what its drivers promise is [DeviceLaws]. *)

From stdpp Require Import base list.
From S2P Require Import Prelude.

Open Scope Z_scope.

Module Mfsio.

Definition MFS_NO_ERROR : Z := 0.
Definition MFS_DISK_IS_WRITE_PROTECTED : Z := 12307.   (* FS_ERROR_BASE|19 *)
Definition MFS_NOT_A_DOS_DISK : Z := 12314.            (* FS_ERROR_BASE|26 *)
Definition MFS_SECTOR_NOT_FOUND : Z := 12315.          (* FS_ERROR_BASE|27 *)
Definition MFS_WRITE_FAULT : Z := 12317.               (* FS_ERROR_BASE|29 *)
Definition MFS_READ_FAULT : Z := 12318.                (* FS_ERROR_BASE|30 *)
Definition IO_ERROR : Z := -1.
Definition IO_ERROR_INVALID_IOCTL_CMD : Z := 2569.     (* IO_ERROR_BASE|0x09 *)
Definition MAX_UINT_32 : Z := 4294967295.
Definition MFSCFG_MAX_WRITE_RETRIES : Z := 1.
Definition MFSCFG_MAX_READ_RETRIES : Z := 1.

Inductive cache_policy := MFS_WRITE_THROUGH_CACHE | MFS_MIXED_MODE_CACHE | MFS_WRITE_BACK_CACHE.

Inductive fat_type := MFS_FAT12 | MFS_FAT16 | MFS_FAT32.

#[export] Instance fat_type_eq_dec : EqDecision fat_type.
Proof. solve_decision. Defined.

(** What mounting a drive computes once: the BIOS parameter block, the layout
    derived from it and the cache policies. *)
Record geometry := Geometry {
  FAT_TYPE : fat_type;
  SECTOR_POWER : Z;
  SECTORS_PER_CLUSTER : Z;
  NUMBER_OF_FAT : Z;
  SECTORS_PER_FAT : Z;          (* BPB *)
  FAT_SIZE : Z;                 (* BPB32 *)
  MEGA_SECTORS : Z;
  FAT_START_SECTOR : Z;
  ROOT_START_SECTOR : Z;
  DATA_START_SECTOR : Z;
  LAST_CLUSTER : Z;
  CLUSTER_POWER_BYTES : Z;
  FAT_CACHE_SIZE : Z;
  BLOCK_MODE : bool;
  READ_ONLY : bool;
  DOS_DISK : bool;
  WRITE_CACHE_POLICY : cache_policy;
  FAT_CACHE_POLICY : cache_policy;
}.

Definition SECTOR_SIZE (g : geometry) : Z := 2 ^ SECTOR_POWER g.

(** The part of [MFS_DRIVE_STRUCT] that changes while the drive is mounted. *)
Record drive (D : Type) := Drive {
  DEV : D;
  DIR_SECTOR_DIRTY : bool;
  DIR_SECTOR_NUMBER : Z;
  DIR_SECTOR : list Z;
  FAT_CACHE_START : Z;
  FAT_CACHE_DIRTY : bool;
  FAT_CACHE : list Z;
  DATA_SECTOR_DIRTY : bool;
  DATA_SECTOR_NUMBER : Z;
  DATA_SECTOR : list Z;
  FREE_COUNT : Z;
  NEXT_FREE_CLUSTER : Z;
  READBACK_SECTOR : option (list Z);
}.
Arguments Drive {D}. Arguments DEV {D}. Arguments DIR_SECTOR_DIRTY {D}.
Arguments DIR_SECTOR_NUMBER {D}. Arguments DIR_SECTOR {D}. Arguments FAT_CACHE_START {D}.
Arguments FAT_CACHE_DIRTY {D}. Arguments FAT_CACHE {D}. Arguments DATA_SECTOR_DIRTY {D}.
Arguments DATA_SECTOR_NUMBER {D}. Arguments DATA_SECTOR {D}. Arguments FREE_COUNT {D}.
Arguments NEXT_FREE_CLUSTER {D}. Arguments READBACK_SECTOR {D}.

(** Field updates. *)
Definition set_DEV {D} (d : D) (s : drive D) : drive D :=
  Drive d (DIR_SECTOR_DIRTY s) (DIR_SECTOR_NUMBER s) (DIR_SECTOR s) (FAT_CACHE_START s) (FAT_CACHE_DIRTY s) (FAT_CACHE s) (DATA_SECTOR_DIRTY s) (DATA_SECTOR_NUMBER s) (DATA_SECTOR s) (FREE_COUNT s) (NEXT_FREE_CLUSTER s) (READBACK_SECTOR s).
Definition set_DIR {D} (dirty : bool) (n : Z) (buf : list Z) (s : drive D) : drive D :=
  Drive (DEV s) dirty n buf (FAT_CACHE_START s) (FAT_CACHE_DIRTY s) (FAT_CACHE s) (DATA_SECTOR_DIRTY s) (DATA_SECTOR_NUMBER s) (DATA_SECTOR s) (FREE_COUNT s) (NEXT_FREE_CLUSTER s) (READBACK_SECTOR s).
Definition set_FAT {D} (start : Z) (dirty : bool) (buf : list Z) (s : drive D) : drive D :=
  Drive (DEV s) (DIR_SECTOR_DIRTY s) (DIR_SECTOR_NUMBER s) (DIR_SECTOR s) start dirty buf (DATA_SECTOR_DIRTY s) (DATA_SECTOR_NUMBER s) (DATA_SECTOR s) (FREE_COUNT s) (NEXT_FREE_CLUSTER s) (READBACK_SECTOR s).
Definition set_DATA {D} (dirty : bool) (n : Z) (buf : list Z) (s : drive D) : drive D :=
  Drive (DEV s) (DIR_SECTOR_DIRTY s) (DIR_SECTOR_NUMBER s) (DIR_SECTOR s) (FAT_CACHE_START s) (FAT_CACHE_DIRTY s) (FAT_CACHE s) dirty n buf (FREE_COUNT s) (NEXT_FREE_CLUSTER s) (READBACK_SECTOR s).
Definition set_FREE {D} (n : Z) (s : drive D) : drive D :=
  Drive (DEV s) (DIR_SECTOR_DIRTY s) (DIR_SECTOR_NUMBER s) (DIR_SECTOR s) (FAT_CACHE_START s) (FAT_CACHE_DIRTY s) (FAT_CACHE s) (DATA_SECTOR_DIRTY s) (DATA_SECTOR_NUMBER s) (DATA_SECTOR s) n (NEXT_FREE_CLUSTER s) (READBACK_SECTOR s).
Definition set_NEXT_FREE {D} (n : Z) (s : drive D) : drive D :=
  Drive (DEV s) (DIR_SECTOR_DIRTY s) (DIR_SECTOR_NUMBER s) (DIR_SECTOR s) (FAT_CACHE_START s) (FAT_CACHE_DIRTY s) (FAT_CACHE s) (DATA_SECTOR_DIRTY s) (DATA_SECTOR_NUMBER s) (DATA_SECTOR s) (FREE_COUNT s) n (READBACK_SECTOR s).
Definition set_READBACK {D} (buf : option (list Z)) (s : drive D) : drive D :=
  Drive (DEV s) (DIR_SECTOR_DIRTY s) (DIR_SECTOR_NUMBER s) (DIR_SECTOR s) (FAT_CACHE_START s) (FAT_CACHE_DIRTY s) (FAT_CACHE s) (DATA_SECTOR_DIRTY s) (DATA_SECTOR_NUMBER s) (DATA_SECTOR s) (FREE_COUNT s) (NEXT_FREE_CLUSTER s) buf.

(** The driver of the block device, as [fseek], [write], [read] and [ioctl] of
    the file interface reach it. [write data n d] and [read n d] ask for [n]
    units (bytes, or sectors when the device works in blocks) at the current
    position; they give the number transferred or [IO_ERROR], and [read] also
    the bytes that it stored at the start of the buffer. [ERROR] is the error
    field of the open device file. *)
Class Device (D : Type) := {
  fseek : Z -> D -> D;
  write : list Z -> Z -> D -> Z * D;
  read : Z -> D -> Z * list Z * D;
  ERROR : D -> Z;
  ioctl_flush : D -> Z * D;
}.

(** ** Transfers *)

(** Bytes stored at the start of a buffer. *)
Definition overlay (bs buf : list Z) : list Z := bs ++ drop (length bs) buf.

Section Sectors.
Context {D : Type} `{Device D} (g : geometry).

Definition MFS_is_read_only : bool := READ_ONLY g.

Definition shifter : Z := if BLOCK_MODE g then 0 else SECTOR_POWER g.

Definition seek_loc (sector_number : Z) : Z :=
  to_signed 32 (w32 (Z.shiftl sector_number shifter)).

(** The number of bytes that [num] units take in the buffer. *)
Definition step_bytes (num : Z) : nat := Z.to_nat (Z.shiftl num (SECTOR_POWER g - shifter)).

Fixpoint write_loop (fuel : nat) (max_retries : Z) (data_ptr : list Z)
    (expect_num attempts : Z) (d : D) : option (Z * Z * D) :=
  match fuel with
  | O => None
  | S fuel =>
      if (0 <? expect_num) && (attempts <=? max_retries) then
        let '(num, d) := write data_ptr expect_num d in
        if num =? IO_ERROR then Some (MFS_WRITE_FAULT, expect_num, d)
        else if 0 <? num then
          write_loop fuel max_retries (drop (step_bytes num) data_ptr) (expect_num - num) (0 + 1) d
        else write_loop fuel max_retries data_ptr expect_num (attempts + 1) d
      else Some (MFS_NO_ERROR, expect_num, d)
  end.

Fixpoint readback_loop (fuel : nat) (data_ptr readback : list Z) (expect_num : Z) (d : D)
  : option (Z * Z * list Z * D) :=
  match fuel with
  | O => None
  | S fuel =>
      if 0 <? expect_num then
        let '(num, bs, d) := read (Z.shiftl 1 shifter) d in
        let readback := overlay bs readback in
        if negb (num =? Z.shiftl 1 shifter) then Some (ERROR d, expect_num, readback, d)
        else if negb (bool_decide (take (Z.to_nat (SECTOR_SIZE g)) data_ptr
                                   = take (Z.to_nat (SECTOR_SIZE g)) readback))
        then Some (MFS_WRITE_FAULT, expect_num, readback, d)
        else readback_loop fuel (drop (step_bytes num) data_ptr) readback (expect_num - num) d
      else Some (MFS_NO_ERROR, expect_num, readback, d)
  end.

(** Enough steps for a loop that either transfers or counts an attempt. *)
Definition loop_fuel (expect_num max_retries : Z) : nat :=
  Z.to_nat (expect_num * (max_retries + 2) + max_retries + 2).

Definition MFS_Write_device_sectors (sector_number sector_count max_retries : Z)
    (buffer_ptr : list Z) : M (drive D) (Z * option Z) :=
  if MFS_is_read_only then mret (MFS_DISK_IS_WRITE_PROTECTED, None) else
  if MEGA_SECTORS g <? sector_number then mret (MFS_SECTOR_NOT_FOUND, None) else
  let expect_num := to_signed 32 (w32 (Z.shiftl sector_count shifter)) in
  s ← gets id;
  let d := fseek (seek_loc sector_number) (DEV s) in
  '(error, rest, d) ←
     lift_opt (write_loop (loop_fuel expect_num max_retries) max_retries buffer_ptr expect_num 0 d);
  modify (set_DEV d);;
  '(error, rest) ←
    (if 0 <? rest then mret (ERROR d, rest)
     else match READBACK_SECTOR s with
     | Some readback =>
         let d := fseek (seek_loc sector_number) d in
         '(error', rest, readback, d) ←
            lift_opt (readback_loop (loop_fuel expect_num 0) buffer_ptr readback expect_num d);
         modify (fun s => set_DEV d (set_READBACK (Some readback) s));;
         mret (if error' =? MFS_NO_ERROR then error else error', rest)
     | None => mret (error, rest)
     end);
  let error := if (error =? MFS_NO_ERROR) && negb (rest =? 0) then MFS_WRITE_FAULT else error in
  mret (error, Some (Z.shiftr (Z.shiftl sector_count shifter - rest) shifter)).

Definition MFS_Write_device_sector (sector_number : Z) (sector_ptr : list Z) : M (drive D) Z :=
  '(error, _) ← MFS_Write_device_sectors sector_number 1 MFSCFG_MAX_WRITE_RETRIES sector_ptr;
  mret error.

(** Reading gives the new content of the buffer. *)
Fixpoint read_loop (fuel : nat) (max_retries : Z) (done_ buffer_ptr : list Z)
    (expect_num attempts : Z) (d : D) : option (Z * Z * list Z * D) :=
  match fuel with
  | O => None
  | S fuel =>
      if (0 <? expect_num) && (attempts <=? max_retries) then
        let '(num, bs, d) := read expect_num d in
        let buffer_ptr := overlay bs buffer_ptr in
        if num =? IO_ERROR then Some (MFS_READ_FAULT, expect_num, done_ ++ buffer_ptr, d)
        else if 0 <? num then
          read_loop fuel max_retries (done_ ++ take (step_bytes num) buffer_ptr)
            (drop (step_bytes num) buffer_ptr) (expect_num - num) (0 + 1) d
        else read_loop fuel max_retries done_ buffer_ptr expect_num (attempts + 1) d
      else Some (MFS_NO_ERROR, expect_num, done_ ++ buffer_ptr, d)
  end.

Definition MFS_Read_device_sectors (sector_number sector_count max_retries : Z)
    (buffer_ptr : list Z) : M (drive D) (Z * option Z * list Z) :=
  if MEGA_SECTORS g <? w32 (sector_number + sector_count - 1)
  then mret (MFS_SECTOR_NOT_FOUND, None, buffer_ptr) else
  let expect_num := to_signed 32 (w32 (Z.shiftl sector_count shifter)) in
  s ← gets id;
  let d := fseek (seek_loc sector_number) (DEV s) in
  '(error, rest, buffer_ptr, d) ←
     lift_opt (read_loop (loop_fuel expect_num max_retries) max_retries [] buffer_ptr expect_num 0 d);
  modify (set_DEV d);;
  let error := if 0 <? rest then ERROR d else error in
  let error := if (error =? MFS_NO_ERROR) && negb (rest =? 0) then MFS_READ_FAULT else error in
  mret (error, Some (Z.shiftr (Z.shiftl sector_count shifter - rest) shifter), buffer_ptr).

Definition MFS_Read_device_sector (sector_number : Z) (sector_ptr : list Z)
  : M (drive D) (Z * list Z) :=
  '(error, _, buf) ← MFS_Read_device_sectors sector_number 1 MFSCFG_MAX_READ_RETRIES sector_ptr;
  mret (error, buf).

(** ** The directory sector buffer *)

Definition MFS_Invalidate_directory_sector : M (drive D) Z :=
  if MFS_is_read_only then mret MFS_NO_ERROR else
  modify (fun s => set_DIR false MAX_UINT_32 (DIR_SECTOR s) s);;
  mret MFS_NO_ERROR.

Definition MFS_Flush_directory_sector_buffer : M (drive D) Z :=
  if MFS_is_read_only then mret MFS_NO_ERROR else
  s ← gets id;
  if DIR_SECTOR_DIRTY s then
    error_code ← MFS_Write_device_sector (DIR_SECTOR_NUMBER s) (DIR_SECTOR s);
    modify (fun s => set_DIR false (DIR_SECTOR_NUMBER s) (DIR_SECTOR s) s);;
    mret error_code
  else mret MFS_NO_ERROR.

Definition CLUSTER_TO_SECTOR (x : Z) : Z :=
  w32 ((x - 2) * SECTORS_PER_CLUSTER g + DATA_START_SECTOR g).

(** [true] in the result stands for the pointer to the buffer, [false] for
    [NULL]; the error is [None] where the code leaves it as it was. *)
Definition MFS_Read_directory_sector (cluster sector : Z) : M (drive D) (bool * option Z) :=
  let abs_sector := if cluster =? 0 then w32 (ROOT_START_SECTOR g + sector)
                    else w32 (CLUSTER_TO_SECTOR cluster + sector) in
  if (cluster =? 0) && (DATA_START_SECTOR g <=? abs_sector) then
    e ← MFS_Flush_directory_sector_buffer;
    modify (fun s => set_DIR (DIR_SECTOR_DIRTY s) 0 (DIR_SECTOR s) s);;
    mret (false, Some e)
  else if MEGA_SECTORS g <? abs_sector then
    e ← MFS_Flush_directory_sector_buffer;
    mret (false, Some e)
  else
    s ← gets id;
    if negb (abs_sector =? DIR_SECTOR_NUMBER s) then
      e ← MFS_Flush_directory_sector_buffer;
      if negb (e =? 0) then mret (false, Some e) else
      '(e, buf) ← MFS_Read_device_sector abs_sector (DIR_SECTOR s);
      modify (fun s => set_DIR (DIR_SECTOR_DIRTY s) (DIR_SECTOR_NUMBER s) buf s);;
      if negb (e =? 0) then
        MFS_Invalidate_directory_sector;;
        mret (false, Some e)
      else
        modify (fun s => set_DIR (DIR_SECTOR_DIRTY s) abs_sector (DIR_SECTOR s) s);;
        mret (true, Some e)
    else mret (true, Some MFS_NO_ERROR).

(** ** The data sector buffer ([mfs_data_sector.c]) *)

Definition MFS_Flush_data_sector_buffer : M (drive D) Z :=
  if MFS_is_read_only then mret MFS_NO_ERROR else
  s ← gets id;
  if DATA_SECTOR_DIRTY s then
    error_code ← MFS_Write_device_sector (DATA_SECTOR_NUMBER s) (DATA_SECTOR s);
    (if error_code =? MFS_NO_ERROR
     then modify (fun s => set_DATA false (DATA_SECTOR_NUMBER s) (DATA_SECTOR s) s) else mret tt);;
    mret error_code
  else mret MFS_NO_ERROR.

Definition MFS_Invalidate_data_sector : M (drive D) Z :=
  if MFS_is_read_only then mret MFS_NO_ERROR else
  modify (fun s => set_DATA false MAX_UINT_32 (DATA_SECTOR s) s);;
  mret MFS_NO_ERROR.

Definition MFS_Read_data_sector (sector_number : Z) (hw_read : bool) : M (drive D) Z :=
  s ← gets id;
  if negb (sector_number =? DATA_SECTOR_NUMBER s) then
    MFS_Flush_data_sector_buffer;;
    MFS_Invalidate_data_sector;;
    error ←
      (if hw_read then
         '(e, buf) ← MFS_Read_device_sector sector_number (DATA_SECTOR s);
         modify (fun s => set_DATA (DATA_SECTOR_DIRTY s) (DATA_SECTOR_NUMBER s) buf s);;
         mret e
       else mret MFS_NO_ERROR);
    (if error =? MFS_NO_ERROR
     then modify (fun s => set_DATA (DATA_SECTOR_DIRTY s) sector_number (DATA_SECTOR s) s)
     else mret tt);;
    mret error
  else mret MFS_NO_ERROR.

End Sectors.

(** ** What a driver promises *)

Definition byte (l : list Z) (i : Z) : Z := nth (Z.to_nat i) l 0.

Abbreviation is_byte b := (0 <= b < 256).

(** The number of bytes of a unit of transfer. *)
Definition unit_size (g : geometry) : Z := if BLOCK_MODE g then SECTOR_SIZE g else 1.

(** A device holds an array of bytes and a position. A transfer moves at most
    what was asked for, a prefix of it; a transfer that fails leaves the rest
    of the device as it was, and a write that fails may leave anything in the
    range it was asked to write. *)
Class DeviceLaws (D : Type) `{Device D} (g : geometry) := {
  img : D -> Z -> Z;
  pos : D -> Z;
  img_byte : forall d x, is_byte (img d x);
  fseek_law : forall p d, 0 <= p ->
    pos (fseek p d) = p /\ forall x, img (fseek p d) x = img d x;
  write_law : forall data n d num d', 0 < n -> n * unit_size g <= zlen data ->
    Forall (fun b => is_byte b) data -> write data n d = (num, d') ->
    -1 <= num <= n /\
    (0 <= num -> pos d' = pos d + num /\
       forall x, img d' x = (if (pos d * unit_size g <=? x) && (x <? (pos d + num) * unit_size g)
                             then byte data (x - pos d * unit_size g) else img d x)) /\
    (num < 0 -> forall x, x < pos d * unit_size g \/ (pos d + n) * unit_size g <= x ->
                          img d' x = img d x);
  read_law : forall n d num bs d', 0 < n -> read n d = (num, bs, d') ->
    -1 <= num <= n /\ zlen bs <= n * unit_size g /\ Forall (fun b => is_byte b) bs /\
    (forall x, img d' x = img d x) /\
    (0 <= num -> pos d' = pos d + num /\ num * unit_size g <= zlen bs /\
       forall i, 0 <= i < num * unit_size g -> byte bs i = img d (pos d * unit_size g + i));
}.

(** A device that always makes progress on requests inside [cap] units. *)
Definition reliable {D} `{DeviceLaws D g} (cap : Z) : Prop :=
  (forall data n d, 0 < n -> 0 <= pos d -> pos d + n <= cap -> 0 < (write data n d).1) /\
  (forall n d, 0 < n -> 0 <= pos d -> pos d + n <= cap -> 0 < (read n d).1.1).

(** The layout of a drive fits the 32-bit arithmetic of the seeks. *)
Record geometry_ok (g : geometry) : Prop := {
  ok_power : 0 <= SECTOR_POWER g <= 16;
  ok_mega : 0 <= MEGA_SECTORS g;
  ok_cap : (MEGA_SECTORS g + 1) * SECTOR_SIZE g < 2 ^ 31;
}.

(** ** Facts on buffers *)

Lemma byte_app_l l1 l2 i : 0 <= i < zlen l1 -> byte (l1 ++ l2) i = byte l1 i.
Proof. intros Hi. unfold byte. apply app_nth1. lia. Qed.

Lemma byte_app_r l1 l2 i : zlen l1 <= i -> byte (l1 ++ l2) i = byte l2 (i - zlen l1).
Proof. intros Hi. unfold byte. rewrite app_nth2 by lia. f_equal. lia. Qed.

Lemma byte_drop n l i : 0 <= i -> byte (drop n l) i = byte l (Z.of_nat n + i).
Proof.
  intros Hi. unfold byte. rewrite nth_skipn. f_equal. lia.
Qed.

Lemma byte_take n l i : 0 <= i < Z.of_nat n -> byte (take n l) i = byte l i.
Proof.
  intros Hi. unfold byte. rewrite nth_firstn. by rewrite (proj2 (Nat.ltb_lt _ _)) by lia.
Qed.

Lemma byte_out l i : zlen l <= i -> byte l i = 0.
Proof. intros Hi. unfold byte. apply nth_overflow. lia. Qed.

Lemma byte_is_byte l i : Forall (fun b => is_byte b) l -> is_byte (byte l i).
Proof.
  intros Hl. unfold byte. destruct (nth_in_or_default (Z.to_nat i) l 0) as [Hin| ->]; [|lia].
  rewrite Forall_forall in Hl. apply Hl. by apply list_elem_of_In.
Qed.

Lemma list_byte_ext l1 l2 :
  length l1 = length l2 -> (forall i, 0 <= i < zlen l1 -> byte l1 i = byte l2 i) -> l1 = l2.
Proof.
  intros Hl Hi. apply (nth_ext l1 l2 0 0 Hl). intros n Hn.
  specialize (Hi (Z.of_nat n) ltac:(lia)). unfold byte in Hi. by rewrite Nat2Z.id in Hi.
Qed.

Lemma overlay_len bs buf : zlen bs <= zlen buf -> zlen (overlay bs buf) = zlen buf.
Proof. intros Hl. unfold overlay. rewrite length_app, length_drop. lia. Qed.

Lemma overlay_byte bs buf i : 0 <= i < zlen bs -> byte (overlay bs buf) i = byte bs i.
Proof. intros Hi. unfold overlay. by apply byte_app_l. Qed.

Lemma overlay_bytes bs buf :
  Forall (fun b => is_byte b) bs -> Forall (fun b => is_byte b) buf ->
  Forall (fun b => is_byte b) (overlay bs buf).
Proof. intros. unfold overlay. apply Forall_app. split; [done|by apply Forall_drop]. Qed.

(** ** The loops end and transfer what they report *)

Definition in_range (lo n x : Z) : bool := (lo <=? x) && (x <? lo + n).

Lemma in_range_true lo n x : lo <= x < lo + n -> in_range lo n x = true.
Proof. unfold in_range. intros H. rewrite (proj2 (Z.leb_le _ _)), (proj2 (Z.ltb_lt _ _)); [done|lia..]. Qed.

Lemma in_range_false lo n x : x < lo \/ lo + n <= x -> in_range lo n x = false.
Proof.
  unfold in_range. intros [H|H]; [rewrite (proj2 (Z.leb_gt _ _)) by lia; done|].
  rewrite (proj2 (Z.ltb_ge _ _)) by lia. apply andb_false_r.
Qed.

(** Case analysis on whether a byte lies in a range. *)
Lemma in_range_spec lo n x :
  (in_range lo n x = true /\ lo <= x < lo + n) \/
  (in_range lo n x = false /\ (x < lo \/ lo + n <= x)).
Proof.
  unfold in_range. destruct (Z.leb_spec lo x), (Z.ltb_spec x (lo + n)); simpl; auto with lia.
Qed.

Section Loops.
Context {D : Type} (g : geometry) `{HL : DeviceLaws D g} (Hg : geometry_ok g).

Lemma unit_pos : 0 < unit_size g.
Proof.
  unfold unit_size, SECTOR_SIZE. pose proof (ok_power g Hg).
  destruct (BLOCK_MODE g); [apply Z.pow_pos_nonneg|]; lia.
Qed.

Lemma unit_shift num :
  Z.shiftl num (SECTOR_POWER g - shifter g) = num * unit_size g.
Proof.
  unfold shifter, unit_size, SECTOR_SIZE. pose proof (ok_power g Hg).
  destruct (BLOCK_MODE g); rewrite Z.shiftl_mul_pow2 by lia; [by rewrite Z.sub_0_r|].
  by rewrite Z.sub_diag.
Qed.

Lemma step_bytes_eq num : 0 <= num -> Z.of_nat (step_bytes g num) = num * unit_size g.
Proof. intros Hn. unfold step_bytes. rewrite unit_shift. pose proof unit_pos. nia. Qed.

(** A sector is [2^shifter] units of transfer. *)
Lemma sector_units n : Z.shiftl n (shifter g) * unit_size g = n * SECTOR_SIZE g.
Proof.
  unfold shifter, unit_size, SECTOR_SIZE. pose proof (ok_power g Hg).
  destruct (BLOCK_MODE g); rewrite Z.shiftl_mul_pow2 by lia; lia.
Qed.

Lemma write_loop_run fuel R data expect attempts d :
  0 <= attempts <= R + 1 -> 0 <= expect -> expect * unit_size g <= zlen data ->
  Forall (fun b => is_byte b) data ->
  expect * (R + 2) + (R + 1 - attempts) < Z.of_nat fuel ->
  exists e rest d', write_loop g fuel R data expect attempts d = Some (e, rest, d') /\
    0 <= rest <= expect /\
    (rest = 0 -> e = MFS_NO_ERROR /\
       forall x, img d' x = if in_range (pos d * unit_size g) (expect * unit_size g) x
                            then byte data (x - pos d * unit_size g) else img d x) /\
    (forall x, in_range (pos d * unit_size g) (expect * unit_size g) x = false ->
               img d' x = img d x) /\
    (forall cap, reliable cap -> 1 <= R -> attempts <= R -> 0 <= pos d ->
       pos d + expect <= cap -> rest = 0).
Proof.
  revert data expect attempts d. induction fuel as [|fuel IH];
    intros data expect attempts d Ha He Hd Hb Hf; [nia|].
  pose proof unit_pos as Hu. simpl.
  destruct (Z.ltb_spec 0 expect) as [He'|He']; simpl.
  2: { exists MFS_NO_ERROR, expect, d. split_and!; try done; try lia.
       intros _. split; [done|]. intros x. rewrite in_range_false; [done|lia]. }
  destruct (Z.leb_spec attempts R) as [HR|HR]; simpl.
  2: { exists MFS_NO_ERROR, expect, d. split_and!; try done; lia. }
  destruct (write data expect d) as [num d1] eqn:E.
  destruct (write_law data expect d num d1 He' Hd Hb E) as (Hn & Hok & Hfail).
  destruct (Z.eqb_spec num IO_ERROR) as [->|Hne]; unfold IO_ERROR in *.
  { exists MFS_WRITE_FAULT, expect, d1. split_and!; try done; try lia.
    - intros x Hx. apply Hfail; [lia|]. destruct (in_range_spec (pos d * unit_size g)
        (expect * unit_size g) x) as [[? _]|[_ ?]]; [congruence|lia].
    - intros cap [Hw _] _ _ Hp Hc. specialize (Hw data expect d He' Hp Hc). rewrite E in Hw. simpl in Hw. lia. }
  destruct (Hok ltac:(lia)) as [Hpos Himg].
  destruct (Z.ltb_spec 0 num) as [Hnum|Hnum].
  - assert (Z.of_nat (step_bytes g num) = num * unit_size g) as Hs by (apply step_bytes_eq; lia).
    destruct (IH (drop (step_bytes g num) data) (expect - num) 1 d1) as (e & rest & d' & E' & Hr & Hz & Ho & Hrel).
    1-2: lia. 1: rewrite length_drop; nia. 1: by apply Forall_drop. 1: nia.
    exists e, rest, d'. rewrite Hpos in *. split_and!; [done|lia|lia| | |].
    + intros H0. destruct (Hz H0) as [-> Hx]. split; [done|]. intros x. rewrite Hx, Himg.
      destruct (in_range_spec ((pos d + num) * unit_size g) ((expect - num) * unit_size g) x) as [[-> ?]|[-> ?]].
      * rewrite in_range_true by nia. rewrite byte_drop by lia. f_equal. lia.
      * destruct (Z.leb_spec (pos d * unit_size g) x), (Z.ltb_spec x ((pos d + num) * unit_size g)); simpl.
        1: rewrite in_range_true by nia; done.
        all: rewrite in_range_false by nia; done.
    + intros x Hx. rewrite Ho, Himg.
      * destruct (Z.leb_spec (pos d * unit_size g) x), (Z.ltb_spec x ((pos d + num) * unit_size g)); simpl; try done.
        rewrite in_range_true in Hx by nia. done.
      * destruct (in_range_spec (pos d * unit_size g) (expect * unit_size g) x) as [[? _]|[_ ?]]; [congruence|].
        apply in_range_false. nia.
    + intros cap Hc H1 H2 Hp Hcap. by apply (Hrel cap); try lia.
  - assert (num = 0) as -> by lia. rewrite Z.add_0_r in *.
    destruct (IH data expect (attempts + 1) d1) as (e & rest & d' & E' & Hr & Hz & Ho & Hrel); try done; try lia.
    assert (forall x, img d1 x = img d x) as Hsame.
    { intros x. rewrite Himg. destruct (Z.leb_spec (pos d * unit_size g) x), (Z.ltb_spec x (pos d * unit_size g)); simpl; try done; lia. }
    exists e, rest, d'. rewrite Hpos in *. split_and!; [done|lia|lia| | |].
    + intros H0. destruct (Hz H0) as [-> Hx]. split; [done|]. intros x. by rewrite Hx, Hsame.
    + intros x Hx. by rewrite Ho, Hsame.
    + intros cap [Hw _] _ _ Hp Hc. specialize (Hw data expect d He' Hp Hc). rewrite E in Hw. simpl in Hw. lia.
Qed.

Lemma read_loop_run fuel R dn buffer expect attempts d :
  0 <= attempts <= R + 1 -> 0 <= expect -> expect * unit_size g <= zlen buffer ->
  Forall (fun b => is_byte b) buffer ->
  expect * (R + 2) + (R + 1 - attempts) < Z.of_nat fuel ->
  exists e rest buf d', read_loop g fuel R dn buffer expect attempts d = Some (e, rest, dn ++ buf, d') /\
    0 <= rest <= expect /\ length buf = length buffer /\ Forall (fun b => is_byte b) buf /\
    (forall x, img d' x = img d x) /\
    (forall i, expect * unit_size g <= i -> byte buf i = byte buffer i) /\
    (rest = 0 -> e = MFS_NO_ERROR /\
       forall i, 0 <= i < expect * unit_size g -> byte buf i = img d (pos d * unit_size g + i)) /\
    (forall cap, reliable cap -> 1 <= R -> attempts <= R -> 0 <= pos d ->
       pos d + expect <= cap -> rest = 0).
Proof.
  revert dn buffer expect attempts d. induction fuel as [|fuel IH];
    intros dn buffer expect attempts d Ha He Hd Hb Hf; [nia|].
  pose proof unit_pos as Hu. simpl.
  destruct (Z.ltb_spec 0 expect) as [He'|He']; simpl.
  2: { exists MFS_NO_ERROR, expect, buffer, d. split_and!; try done; try lia.
       intros _. split; [done|]. intros; lia. }
  destruct (Z.leb_spec attempts R) as [HR|HR]; simpl.
  2: { exists MFS_NO_ERROR, expect, buffer, d. split_and!; try done; lia. }
  destruct (read expect d) as [[num bs] d1] eqn:E.
  destruct (read_law expect d num bs d1 He' E) as (Hn & Hlen & Hbs & Himg & Hok).
  assert (zlen (overlay bs buffer) = zlen buffer) as Hol by (apply overlay_len; lia).
  pose proof (overlay_bytes bs buffer Hbs Hb) as Hob.
  assert (forall i, expect * unit_size g <= i -> byte (overlay bs buffer) i = byte buffer i) as Hbeyond.
  { intros i Hi. unfold overlay. rewrite byte_app_r, byte_drop by nia. f_equal. nia. }
  destruct (Z.eqb_spec num IO_ERROR) as [->|Hne]; unfold IO_ERROR in *.
  { exists MFS_READ_FAULT, expect, (overlay bs buffer), d1. split_and!; try done; try lia.
    intros cap [_ Hw] _ _ Hp Hc. specialize (Hw expect d He' Hp Hc). rewrite E in Hw. simpl in Hw. lia. }
  destruct (Hok ltac:(lia)) as (Hpos & Hnlen & Hdata).
  destruct (Z.ltb_spec 0 num) as [Hnum|Hnum].
  - assert (Z.of_nat (step_bytes g num) = num * unit_size g) as Hs by (apply step_bytes_eq; lia).
    set (ov := overlay bs buffer) in *.
    destruct (IH (dn ++ take (step_bytes g num) ov) (drop (step_bytes g num) ov) (expect - num) 1 d1)
      as (e & rest & buf & d' & E' & Hr & Hl & Hby & Hi & Hbey & Hz & Hrel).
    1-2: lia. 1: rewrite length_drop; nia. 1: by apply Forall_drop. 1: nia.
    assert (zlen (take (step_bytes g num) ov) = num * unit_size g) as Htl by (rewrite length_take; nia).
    rewrite length_drop in Hl.
    exists e, rest, (take (step_bytes g num) ov ++ buf), d'. split_and!.
    + rewrite <- app_assoc in E'. exact E'.
    + lia.
    + lia.
    + rewrite length_app. lia.
    + apply Forall_app. split; [by apply Forall_take|done].
    + intros x. by rewrite Hi.
    + intros i Hi'. rewrite byte_app_r by nia. rewrite Hbey by nia. rewrite byte_drop by nia.
      rewrite <- Hbeyond by nia. f_equal. lia.
    + intros H0. destruct (Hz H0) as [-> Hx]. split; [done|]. intros i Hi'.
      destruct (Z.ltb_spec i (num * unit_size g)).
      * rewrite byte_app_l, byte_take by lia. unfold ov. rewrite overlay_byte by lia. apply Hdata. lia.
      * rewrite byte_app_r by lia. rewrite Hx by nia. rewrite Himg, Hpos. f_equal. nia.
    + intros cap Hc H1 H2 Hp Hcap. apply (Hrel cap); try done; lia.
  - assert (num = 0) as -> by lia. rewrite Z.add_0_r in *.
    destruct (IH dn (overlay bs buffer) expect (attempts + 1) d1)
      as (e & rest & buf & d' & E' & Hr & Hl & Hby & Hi & Hbey & Hz & Hrel); try done; try lia.
    exists e, rest, buf, d'. split_and!; try done; try lia.
    + intros x. by rewrite Hi.
    + intros i Hi'. by rewrite Hbey, Hbeyond.
    + intros H0. destruct (Hz H0) as [-> Hx]. split; [done|]. intros i Hi'. by rewrite Hx, Himg, Hpos.
    + intros cap [_ Hw] _ _ Hp Hc. specialize (Hw expect d He' Hp Hc). rewrite E in Hw. simpl in Hw. lia.
Qed.

Lemma shifter_units n : 0 <= n -> 0 <= Z.shiftl n (shifter g) /\ n <= Z.shiftl n (shifter g).
Proof.
  unfold shifter. pose proof (ok_power g Hg). intros Hn.
  assert (1 <= 2 ^ SECTOR_POWER g) by (change 1 with (2 ^ 0); apply Z.pow_le_mono_r; lia).
  destruct (BLOCK_MODE g); rewrite Z.shiftl_mul_pow2 by lia; nia.
Qed.

(** Reading back changes nothing on the device. *)
Lemma readback_loop_run fuel data rb n d :
  0 <= n -> zlen rb = SECTOR_SIZE g -> n < Z.of_nat fuel ->
  exists e rest rb' d', readback_loop g fuel data rb (Z.shiftl n (shifter g)) d = Some (e, rest, rb', d') /\
    0 <= rest /\ length rb' = length rb /\ (forall x, img d' x = img d x).
Proof.
  revert data rb n d. induction fuel as [|fuel IH]; intros data rb n d Hn Hrb Hf; [lia|].
  destruct (shifter_units n Hn) as [Hsn _]. destruct (shifter_units 1 ltac:(lia)) as [_ Hs1].
  pose proof (sector_units 1) as Hsu. simpl.
  destruct (Z.ltb_spec 0 (Z.shiftl n (shifter g))) as [Hpos'|Hpos'].
  2: { exists MFS_NO_ERROR, (Z.shiftl n (shifter g)), rb, d. split_and!; try done; lia. }
  destruct (read (Z.shiftl 1 (shifter g)) d) as [[num bs] d1] eqn:E.
  destruct (read_law (Z.shiftl 1 (shifter g)) d num bs d1 ltac:(lia) E) as (Hnn & Hlen & Hbs & Himg & Hok).
  assert (length (overlay bs rb) = length rb) as Hol.
  { apply Nat2Z.inj. rewrite overlay_len by lia. done. }
  destruct (Z.eqb_spec num (Z.shiftl 1 (shifter g))) as [->|Hne]; simpl.
  2: { exists (ERROR d1), (Z.shiftl n (shifter g)), (overlay bs rb), d1. by split_and!. }
  case_bool_decide; simpl.
  2: { exists MFS_WRITE_FAULT, (Z.shiftl n (shifter g)), (overlay bs rb), d1. by split_and!. }
  assert (Z.shiftl n (shifter g) - Z.shiftl 1 (shifter g) = Z.shiftl (n - 1) (shifter g)) as ->.
  { pose proof (ok_power g Hg). unfold shifter. destruct (BLOCK_MODE g); rewrite !Z.shiftl_mul_pow2 by lia; lia. }
  assert (1 <= n) by (destruct (decide (n = 0)) as [->|]; [rewrite Z.shiftl_0_l in Hpos'; lia|lia]).
  destruct (IH (drop (step_bytes g (Z.shiftl 1 (shifter g))) data) (overlay bs rb) (n - 1) d1)
    as (e & rest & rb' & d' & E' & Hr & Hl & Hi); try lia.
  exists e, rest, rb', d'. split_and!; [done|done|lia|]. intros x. by rewrite Hi.
Qed.

(** ** Sectors *)

Lemma seek_loc_eq sector :
  0 <= sector <= MEGA_SECTORS g ->
  seek_loc g sector = Z.shiftl sector (shifter g) /\ 0 <= seek_loc g sector.
Proof.
  intros Hs. destruct (shifter_units sector ltac:(lia)) as [Hsh0 _].
  pose proof (sector_units sector) as Hu. pose proof unit_pos as Hp. pose proof (ok_cap g Hg).
  assert (0 < SECTOR_SIZE g) by (unfold SECTOR_SIZE; apply Z.pow_pos_nonneg; pose proof (ok_power g Hg); lia).
  unfold seek_loc. assert (Z.shiftl sector (shifter g) < 2 ^ 31) as Hlt.
  { apply Z.le_lt_trans with (Z.shiftl sector (shifter g) * unit_size g); [nia|].
    rewrite Hu. apply Z.le_lt_trans with (MEGA_SECTORS g * SECTOR_SIZE g); nia. }
  rewrite wrap_small by lia. rewrite to_signed_small by lia. done.
Qed.

Lemma expect_eq : to_signed 32 (w32 (Z.shiftl 1 (shifter g))) = Z.shiftl 1 (shifter g).
Proof.
  pose proof (ok_power g Hg). destruct (shifter_units 1 ltac:(lia)) as [Hsh0 _].
  assert (Z.shiftl 1 (shifter g) <= 2 ^ 16) as Hle.
  { unfold shifter. destruct (BLOCK_MODE g); rewrite Z.shiftl_mul_pow2 by lia; [done|].
    rewrite Z.mul_1_l. apply Z.pow_le_mono_r; lia. }
  rewrite wrap_small by lia. rewrite to_signed_small; lia.
Qed.

(** Where sector [s] lies on the device. *)
Definition in_sector (s x : Z) : bool := in_range (s * SECTOR_SIZE g) (SECTOR_SIZE g) x.

(** Everything but the device and the read-back buffer. *)
Definition same_buffers (s s' : drive D) : Prop :=
  DIR_SECTOR_DIRTY s' = DIR_SECTOR_DIRTY s /\ DIR_SECTOR_NUMBER s' = DIR_SECTOR_NUMBER s /\
  DIR_SECTOR s' = DIR_SECTOR s /\ FAT_CACHE_START s' = FAT_CACHE_START s /\
  FAT_CACHE_DIRTY s' = FAT_CACHE_DIRTY s /\ FAT_CACHE s' = FAT_CACHE s /\
  DATA_SECTOR_DIRTY s' = DATA_SECTOR_DIRTY s /\ DATA_SECTOR_NUMBER s' = DATA_SECTOR_NUMBER s /\
  DATA_SECTOR s' = DATA_SECTOR s /\ FREE_COUNT s' = FREE_COUNT s /\
  NEXT_FREE_CLUSTER s' = NEXT_FREE_CLUSTER s.

Definition readback_ok (s : drive D) : Prop :=
  match READBACK_SECTOR s with Some rb => zlen rb = SECTOR_SIZE g | None => True end.

Definition dev_reliable (s : drive D) : Prop :=
  READBACK_SECTOR s = None /\ reliable (Z.shiftl (MEGA_SECTORS g + 1) (shifter g)).

(** Writing a sector: when the code is [MFS_NO_ERROR] the sector holds the
    data; whatever the code, no other sector changes. *)
Lemma write_sector_run sector data s :
  READ_ONLY g = false -> 0 <= sector <= MEGA_SECTORS g ->
  SECTOR_SIZE g <= zlen data -> Forall (fun b => is_byte b) data -> readback_ok s ->
  exists e s', MFS_Write_device_sector g sector data s = Some (e, s') /\
    same_buffers s s' /\ readback_ok s' /\
    (e = MFS_NO_ERROR -> forall x, img (DEV s') x =
       if in_sector sector x then byte data (x - sector * SECTOR_SIZE g) else img (DEV s) x) /\
    (forall x, in_sector sector x = false -> img (DEV s') x = img (DEV s) x) /\
    (dev_reliable s -> e = MFS_NO_ERROR /\ dev_reliable s').
Proof.
  intros Hro Hs Hd Hb Hrb. unfold MFS_Write_device_sector, MFS_Write_device_sectors, MFS_is_read_only.
  rewrite Hro. rewrite (proj2 (Z.ltb_ge _ _)) by lia. rewrite expect_eq.
  destruct (seek_loc_eq sector Hs) as [Hl Hl0]. destruct (fseek_law (seek_loc g sector) (DEV s) Hl0) as [Hp Hi].
  destruct (shifter_units 1 ltac:(lia)) as [He _]. pose proof (sector_units 1) as Hu1.
  pose proof (sector_units sector) as Hus.
  destruct (write_loop_run (loop_fuel (Z.shiftl 1 (shifter g)) MFSCFG_MAX_WRITE_RETRIES) MFSCFG_MAX_WRITE_RETRIES
     data (Z.shiftl 1 (shifter g)) 0 (fseek (seek_loc g sector) (DEV s)))
    as (e & rest & d' & E & Hr & Hz & Ho & Hrel); try done.
  { rewrite Hu1. lia. }
  { unfold loop_fuel, MFSCFG_MAX_WRITE_RETRIES. lia. }
  rewrite Hp, Hl, Hus, Hu1, Z.mul_1_l in Hz, Ho. rewrite Hl in Hi. fold (in_sector sector) in Hz, Ho.
  assert (dev_reliable s -> rest = 0) as Hrel0.
  { intros [_ Hc]. apply (Hrel _ Hc); try done; rewrite Hp; [lia|]. rewrite Hl.
    pose proof (ok_power g Hg). unfold shifter in *. destruct (BLOCK_MODE g); rewrite !Z.shiftl_mul_pow2 in * by lia; nia. }
  unfold mbind, M_bind, gets, lift_opt, modify, mret, M_ret. simpl. rewrite E. simpl.
  destruct (Z.ltb_spec 0 rest) as [Hrest|Hrest]; simpl.
  - eexists _, _. split; [done|]. split; [done|]. split; [done|].
    assert (negb (rest =? 0) = true) as Hn by (rewrite (proj2 (Z.eqb_neq _ _)) by lia; done).
    rewrite Hn, andb_true_r. split_and!.
    + intros H0. exfalso. destruct (Z.eqb_spec (ERROR d') MFS_NO_ERROR); unfold MFS_NO_ERROR, MFS_WRITE_FAULT in *; lia.
    + intros x Hx. simpl. by (rewrite Ho by done; rewrite Hi).
    + intros Hr'. specialize (Hrel0 Hr'). lia.
  - assert (rest = 0) as -> by lia. destruct (Hz eq_refl) as [-> Hx]. simpl.
    destruct (READBACK_SECTOR s) as [rb|] eqn:Erb; simpl.
    + destruct (fseek_law (seek_loc g sector) d' Hl0) as [_ Hi2].
      assert (zlen rb = SECTOR_SIZE g) as Hrbl by (unfold readback_ok in Hrb; by rewrite Erb in Hrb).
      destruct (readback_loop_run (loop_fuel (Z.shiftl 1 (shifter g)) 0) data rb 1 (fseek (seek_loc g sector) d'))
        as (e2 & rest2 & rb2 & d2 & E2 & Hr2 & Hl2 & Hi3); [lia|done| |].
      { unfold loop_fuel. destruct (shifter_units 1 ltac:(lia)). lia. }
      rewrite E2. simpl. eexists _, _. split; [done|]. split; [done|].
      split; [unfold readback_ok; simpl; lia|]. split_and!.
      * intros _ x. simpl. by rewrite Hi3, Hi2, Hx, Hi.
      * intros x Hx'. simpl. rewrite Hi3, Hi2. by (rewrite Ho by done; rewrite Hi).
      * intros [Hn _]. congruence.
    + eexists _, _. split; [done|]. split; [done|]. split; [unfold readback_ok; simpl; by rewrite Erb|]. split_and!.
      * intros _ x. simpl. by rewrite Hx, Hi.
      * intros x Hx'. simpl. by (rewrite Ho by done; rewrite Hi).
      * intros [Hn Hc]. split; [done|]. by split.
Qed.

(** Reading a sector never changes the device; when the code is
    [MFS_NO_ERROR] the buffer starts with the sector. *)
Lemma read_sector_run sector buffer s :
  0 <= sector <= MEGA_SECTORS g -> MEGA_SECTORS g < 2 ^ 31 ->
  SECTOR_SIZE g <= zlen buffer -> Forall (fun b => is_byte b) buffer ->
  exists e buf s', MFS_Read_device_sector g sector buffer s = Some ((e, buf), s') /\
    same_buffers s s' /\ READBACK_SECTOR s' = READBACK_SECTOR s /\
    length buf = length buffer /\ Forall (fun b => is_byte b) buf /\
    (forall x, img (DEV s') x = img (DEV s) x) /\
    (forall i, SECTOR_SIZE g <= i -> byte buf i = byte buffer i) /\
    (e = MFS_NO_ERROR -> forall i, 0 <= i < SECTOR_SIZE g ->
       byte buf i = img (DEV s) (sector * SECTOR_SIZE g + i)) /\
    (dev_reliable s -> e = MFS_NO_ERROR).
Proof.
  intros Hs Hm Hd Hb. unfold MFS_Read_device_sector, MFS_Read_device_sectors.
  replace (sector + 1 - 1) with sector by lia. rewrite (wrap_small 32 sector) by lia.
  rewrite (proj2 (Z.ltb_ge _ _)) by lia. rewrite expect_eq.
  destruct (seek_loc_eq sector Hs) as [Hl Hl0]. destruct (fseek_law (seek_loc g sector) (DEV s) Hl0) as [Hp Hi].
  destruct (shifter_units 1 ltac:(lia)) as [He _]. pose proof (sector_units 1) as Hu1.
  pose proof (sector_units sector) as Hus.
  destruct (read_loop_run (loop_fuel (Z.shiftl 1 (shifter g)) MFSCFG_MAX_READ_RETRIES) MFSCFG_MAX_READ_RETRIES
     [] buffer (Z.shiftl 1 (shifter g)) 0 (fseek (seek_loc g sector) (DEV s)))
    as (e & rest & buf & d' & E & Hr & Hlen & Hby & Himg & Hbey & Hz & Hrel); try done.
  { rewrite Hu1. lia. }
  { unfold loop_fuel, MFSCFG_MAX_READ_RETRIES. lia. }
  rewrite Hp, Hl, Hus, Hu1, Z.mul_1_l in Hz. rewrite Hu1, Z.mul_1_l in Hbey. rewrite Hl in Hi, Himg.
  assert (dev_reliable s -> rest = 0) as Hrel0.
  { intros [_ Hc]. apply (Hrel _ Hc); try done; rewrite Hp; [lia|]. rewrite Hl.
    pose proof (ok_power g Hg). unfold shifter in *. destruct (BLOCK_MODE g); rewrite !Z.shiftl_mul_pow2 in * by lia; nia. }
  unfold mbind, M_bind, gets, lift_opt, modify, mret, M_ret. simpl. rewrite E. simpl.
  eexists _, _, _. split; [done|]. split; [done|]. split; [done|]. split; [done|]. split; [done|].
  split. { intros x. simpl. by rewrite Himg, Hi. }
  split; [done|]. split.
  - destruct (Z.ltb_spec 0 rest) as [Hrest|Hrest].
    + assert (negb (rest =? 0) = true) as Hn by (rewrite (proj2 (Z.eqb_neq _ _)) by lia; done).
      rewrite Hn, andb_true_r. intros H0. exfalso.
      destruct (Z.eqb_spec (ERROR d') MFS_NO_ERROR); unfold MFS_NO_ERROR, MFS_READ_FAULT in *; lia.
    + assert (rest = 0) as -> by lia. destruct (Hz eq_refl) as [-> Hx]. intros _ i Hi'. by rewrite Hx, Hi.
  - intros Hr'. rewrite (Hrel0 Hr'). simpl. destruct (Hz (Hrel0 Hr')) as [-> _]. done.
Qed.

End Loops.
End Mfsio.
