(* ===== verification/Fat.v ===== *)
(** * The file allocation table of the MFS file system

    [mfs/source/generic/mfs_fat.c] and [mfs_cluster.c], with [MFS_unlock] and
    [MFS_lock_dos_disk] of [mfs_misc.c] and [MFS_Flush_caches] of [mfs_rw.c]:
    the cache of FAT sectors, the FAT12, FAT16 and FAT32 entry formats, and the
    chains of clusters that files are made of. The model runs one operation at
    a time, as the semaphore of the drive makes the callers do. *)

From stdpp Require Import base list.
From S2P Require Import Prelude Mfsio.

Open Scope Z_scope.

Module Fat.
Export Mfsio.

Definition MFS_DISK_FULL : Z := 12389.               (* FS_ERROR_BASE|101 *)
Definition MFS_LOST_CHAIN : Z := 12448.              (* FS_ERROR_BASE|160 *)
Definition MFS_INVALID_CLUSTER_NUMBER : Z := 12450.  (* FS_ERROR_BASE|162 *)
Definition FSI_UNKNOWN : Z := 4294967295.
Definition CLUSTER_INVALID : Z := 1.
Definition CLUSTER_UNUSED : Z := 0.
Definition CLUSTER_MIN_GOOD : Z := 2.
Definition CLUSTER_BAD : Z := 268435447.             (* 0xFFFFFF7 *)
Definition CLUSTER_EOF : Z := 268435455.             (* 0xFFFFFFF *)
Definition CLUSTER_MAX_12 : Z := 4088.               (* 0xFF8 *)
Definition CLUSTER_MAX_16 : Z := 65528.              (* 0xFFF8 *)
Definition CLUSTER_MAX_32 : Z := 268435448.          (* 0xFFFFFF8 *)

Section Fat.
Context {D : Type} `{Device D} (g : geometry).

(** ** The cache of FAT sectors *)

Definition fat_size : Z :=
  match FAT_TYPE g with MFS_FAT32 => FAT_SIZE g | _ => SECTORS_PER_FAT g end.

Fixpoint flush_sectors (n : nat) (i fat : Z) : M (drive D) Z :=
  match n with
  | O => mret MFS_NO_ERROR
  | S n =>
      s ← gets id;
      error_code ← MFS_Write_device_sector g
        (w32 (FAT_START_SECTOR g + FAT_CACHE_START s + i + fat * fat_size))
        (drop (Z.to_nat (SECTOR_SIZE g * i)) (FAT_CACHE s));
      if error_code =? MFS_NO_ERROR then flush_sectors n (i + 1) fat else mret error_code
  end.

Fixpoint flush_copies (n : nat) (fat : Z) : M (drive D) Z :=
  match n with
  | O => mret MFS_NO_ERROR
  | S n =>
      error_code ← flush_sectors (Z.to_nat (FAT_CACHE_SIZE g)) 0 fat;
      if error_code =? MFS_NO_ERROR then flush_copies n (fat + 1) else mret error_code
  end.

Definition MFS_Flush_fat_cache : M (drive D) Z :=
  if MFS_is_read_only g then mret MFS_NO_ERROR else
  s ← gets id;
  if FAT_CACHE_DIRTY s then
    error_code ← flush_copies (Z.to_nat (NUMBER_OF_FAT g)) 0;
    (if error_code =? MFS_NO_ERROR
     then modify (fun s => set_FAT (FAT_CACHE_START s) false (FAT_CACHE s) s) else mret tt);;
    mret error_code
  else mret MFS_NO_ERROR.

Definition MFS_Write_back_fat : M (drive D) Z :=
  if MFS_is_read_only g then mret MFS_DISK_IS_WRITE_PROTECTED else
  match FAT_CACHE_POLICY g with
  | MFS_WRITE_THROUGH_CACHE => MFS_Flush_fat_cache
  | _ => mret MFS_NO_ERROR
  end.

(** Fill the cache with the sectors from [needed_sector] on. *)
Fixpoint read_window (n : nat) (i needed_sector : Z) : M (drive D) Z :=
  match n with
  | O => mret MFS_NO_ERROR
  | S n =>
      s ← gets id;
      let at_ := Z.to_nat (SECTOR_SIZE g * i) in
      '(error_code, buf) ← MFS_Read_device_sector g
        (w32 (FAT_START_SECTOR g + needed_sector + i)) (drop at_ (FAT_CACHE s));
      modify (fun s => set_FAT (FAT_CACHE_START s) (FAT_CACHE_DIRTY s)
                               (take at_ (FAT_CACHE s) ++ buf) s);;
      if error_code =? MFS_NO_ERROR then read_window n (i + 1) needed_sector else mret error_code
  end.

Definition MFS_Read_fat (offset : Z) : M (drive D) Z :=
  let needed_sector := offset / SECTOR_SIZE g in
  let needed_end_sector :=
    match FAT_TYPE g with MFS_FAT12 => w32 (offset + 1) / SECTOR_SIZE g | _ => needed_sector end in
  s ← gets id;
  if (needed_sector <? FAT_CACHE_START s)
     || (w32 (w32 (FAT_CACHE_START s + FAT_CACHE_SIZE g) - 1) <? needed_end_sector) then
    error_code ← MFS_Flush_fat_cache;
    if negb (error_code =? 0) then mret error_code else
    let last := w32 (fat_size - FAT_CACHE_SIZE g) in
    let needed_sector := if last <? needed_sector then last else needed_sector in
    error_code ← read_window (Z.to_nat (FAT_CACHE_SIZE g)) 0 needed_sector;
    (if error_code =? MFS_NO_ERROR
     then modify (fun s => set_FAT needed_sector false (FAT_CACHE s) s) else mret tt);;
    mret error_code
  else mret MFS_NO_ERROR.

(** ** The bytes of an entry

    [p] is an index into the cache; an index outside of it is a fault. *)

Definition get_byte (p : Z) : M (drive D) Z :=
  s ← gets id;
  if 0 <=? p then lift_opt (FAT_CACHE s !! Z.to_nat p) else fault.

Definition set_byte (p b : Z) : M (drive D) unit :=
  s ← gets id;
  if (0 <=? p) && (p <? zlen (FAT_CACHE s)) then
    modify (fun s => set_FAT (FAT_CACHE_START s) (FAT_CACHE_DIRTY s)
                             (<[Z.to_nat p := b]> (FAT_CACHE s)) s)
  else fault.

Definition ftoh0 (p : Z) : M (drive D) Z :=
  b0 ← get_byte p; b1 ← get_byte (p + 1);
  mret (Z.lor b0 (Z.shiftl (Z.land b1 15) 8)).

Definition ftoh1 (p : Z) : M (drive D) Z :=
  b0 ← get_byte p; b1 ← get_byte (p + 1);
  mret (Z.lor (Z.shiftr (Z.land b0 240) 4) (Z.shiftl b1 4)).

Definition htof0 (p x : Z) : M (drive D) unit :=
  set_byte p (w8 x);;
  b1 ← get_byte (p + 1); set_byte (p + 1) (Z.land b1 240);;
  b1 ← get_byte (p + 1); set_byte (p + 1) (Z.lor b1 (Z.land (w8 (Z.shiftr x 8)) 15)).

Definition htof1 (p x : Z) : M (drive D) unit :=
  b0 ← get_byte p; set_byte p (Z.land b0 15);;
  b0 ← get_byte p; set_byte p (Z.lor b0 (Z.land (w8 (Z.shiftl x 4)) 240));;
  set_byte (p + 1) (w8 (Z.shiftr x 4)).

Definition mqx_dtohs (p : Z) : M (drive D) Z :=
  b1 ← get_byte (p + 1); b0 ← get_byte p;
  mret (Z.lor (Z.shiftl b1 8) b0).

Definition mqx_htods (p x : Z) : M (drive D) unit :=
  set_byte (p + 1) (Z.land (Z.shiftr x 8) 255);;
  set_byte p (Z.land x 255).

Definition mqx_dtohl (p : Z) : M (drive D) Z :=
  b3 ← get_byte (p + 3); b2 ← get_byte (p + 2); b1 ← get_byte (p + 1); b0 ← get_byte p;
  mret (Z.lor (Z.lor (Z.lor (Z.shiftl b3 24) (Z.shiftl b2 16)) (Z.shiftl b1 8)) b0).

Definition htof32 (p x : Z) : M (drive D) unit :=
  b3 ← get_byte (p + 3);
  set_byte (p + 3) (w8 (Z.lor (Z.land b3 240) (Z.land (Z.shiftr x 24) 15)));;
  set_byte (p + 2) (w8 (Z.shiftr x 16));;
  set_byte (p + 1) (w8 (Z.shiftr x 8));;
  set_byte p (w8 x).

(** ** Reading and writing an entry *)

(** The offset of an entry in the FAT. *)
Definition entry_offset (fat_entry : Z) : Z :=
  match FAT_TYPE g with
  | MFS_FAT16 => w32 (Z.shiftl fat_entry 1)
  | MFS_FAT12 => w32 (fat_entry + Z.shiftr fat_entry 1)
  | MFS_FAT32 => w32 (Z.shiftl fat_entry 2)
  end.

(** The pointer into the cache. *)
Definition fat_ptr (offset : Z) : M (drive D) Z :=
  gets (fun s => offset - FAT_CACHE_START s * SECTOR_SIZE g).

(** The cluster number, or [CLUSTER_EOF] with an error. *)
Definition MFS_get_cluster_from_fat (fat_entry : Z) : M (drive D) (Z * Z) :=
  if LAST_CLUSTER g <? fat_entry then mret (MFS_INVALID_CLUSTER_NUMBER, CLUSTER_EOF)
  else if fat_entry <? CLUSTER_MIN_GOOD then mret (MFS_INVALID_CLUSTER_NUMBER, CLUSTER_EOF)
  else
    error ← MFS_Read_fat (entry_offset fat_entry);
    if negb (error =? MFS_NO_ERROR) then mret (error, CLUSTER_EOF)
    else
      p ← fat_ptr (entry_offset fat_entry);
      cluster_number ←
        match FAT_TYPE g with
        | MFS_FAT12 =>
            c ← (if Z.land fat_entry 1 =? 0 then ftoh0 p else ftoh1 p);
            mret (if CLUSTER_MAX_12 <=? c then CLUSTER_EOF else c)
        | MFS_FAT16 =>
            c ← mqx_dtohs p;
            mret (if CLUSTER_MAX_16 <=? c then CLUSTER_EOF else c)
        | MFS_FAT32 =>
            c ← mqx_dtohl p;
            mret (if CLUSTER_MAX_32 <=? c then CLUSTER_EOF else c)
        end;
      mret (error, Z.land cluster_number 268435455).

Definition MFS_Increment_free_clusters : M (drive D) unit :=
  if MFS_is_read_only g then mret tt else
  s ← gets id;
  if negb (FREE_COUNT s =? FSI_UNKNOWN) then modify (set_FREE (w32 (FREE_COUNT s + 1)))
  else mret tt.

Definition MFS_Decrement_free_clusters : M (drive D) unit :=
  if MFS_is_read_only g then mret tt else
  s ← gets id;
  if negb (FREE_COUNT s =? FSI_UNKNOWN) then modify (set_FREE (w32 (FREE_COUNT s - 1)))
  else mret tt.

(** Store an entry and give what was there. *)
Definition exchange_entry (fat_entry p code : Z) : M (drive D) Z :=
  match FAT_TYPE g with
  | MFS_FAT12 =>
      if Z.land fat_entry 1 =? 0
      then code_prev ← ftoh0 p; htof0 p code;; mret code_prev
      else code_prev ← ftoh1 p; htof1 p code;; mret code_prev
  | MFS_FAT16 => code_prev ← mqx_dtohs p; mqx_htods p code;; mret code_prev
  | MFS_FAT32 => code_prev ← mqx_dtohl p; htof32 p code;; mret code_prev
  end.

Definition MFS_Put_fat (fat_entry code : Z) : M (drive D) Z :=
  if MFS_is_read_only g then mret MFS_DISK_IS_WRITE_PROTECTED else
  if LAST_CLUSTER g <? fat_entry then mret MFS_INVALID_CLUSTER_NUMBER
  else if fat_entry <? CLUSTER_MIN_GOOD then mret MFS_INVALID_CLUSTER_NUMBER
  else
    error_code ← MFS_Read_fat (entry_offset fat_entry);
    if negb (error_code =? 0) then mret error_code
    else
      p ← fat_ptr (entry_offset fat_entry);
      modify (fun s => set_FAT (FAT_CACHE_START s) true (FAT_CACHE s) s);;
      code_prev ← exchange_entry fat_entry p code;
      (if (code =? CLUSTER_UNUSED) && negb (code_prev =? CLUSTER_UNUSED)
       then MFS_Increment_free_clusters
       else if negb (code =? CLUSTER_UNUSED) && (code_prev =? CLUSTER_UNUSED)
       then MFS_Decrement_free_clusters
       else mret tt);;
      mret error_code.

(** ** Chains ([mfs_cluster.c]) *)

(** One of the two loops of the search; [None] when it found nothing. *)
Fixpoint find_loop (n : nat) (cluster : Z) : M (drive D) (option Z) :=
  match n with
  | O => mret None
  | S n =>
      '(error_code, cluster_status) ← MFS_get_cluster_from_fat cluster;
      if negb (error_code =? MFS_NO_ERROR) then mret (Some CLUSTER_INVALID)
      else if cluster_status =? CLUSTER_UNUSED then
        modify (set_NEXT_FREE cluster);; mret (Some cluster)
      else find_loop n (cluster + 1)
  end.

Definition MFS_Find_unused_cluster_from (cluster_number : Z) : M (drive D) Z :=
  if MFS_is_read_only g then mret CLUSTER_INVALID else
  let max_clusters := LAST_CLUSTER g in
  r ← find_loop (Z.to_nat (max_clusters + 1 - cluster_number)) cluster_number;
  match r with
  | Some c => mret c
  | None =>
      r ← find_loop (Z.to_nat (cluster_number - CLUSTER_MIN_GOOD)) CLUSTER_MIN_GOOD;
      mret (default CLUSTER_INVALID r)
  end.

(** A link that is neither a cluster of the drive nor the end of a chain. *)
Definition bad_link (next_cluster : Z) : bool :=
  ((LAST_CLUSTER g <? next_cluster) || (next_cluster <? CLUSTER_MIN_GOOD))
  && negb (next_cluster =? CLUSTER_EOF).

Fixpoint release_loop (fuel : nat) (cluster_number : Z) : M (drive D) unit :=
  match fuel with
  | O => fault
  | S fuel =>
      '(error_code, next_cluster) ← MFS_get_cluster_from_fat cluster_number;
      if negb (error_code =? MFS_NO_ERROR) then mret tt
      else if bad_link next_cluster then mret tt
      else
        let first_sector := CLUSTER_TO_SECTOR g cluster_number in
        let last_sector := w32 (first_sector + SECTORS_PER_CLUSTER g - 1) in
        s ← gets id;
        (if (first_sector <=? DATA_SECTOR_NUMBER s) && (DATA_SECTOR_NUMBER s <=? last_sector)
         then MFS_Invalidate_data_sector g else mret MFS_NO_ERROR);;
        error_code ← MFS_Put_fat cluster_number CLUSTER_UNUSED;
        if negb (error_code =? 0) then mret tt
        else if next_cluster =? CLUSTER_EOF then mret tt
        else release_loop fuel next_cluster
  end.

Definition chain_fuel : nat := Z.to_nat (LAST_CLUSTER g).

(** Every way out of the loop ends in [MFS_Write_back_fat], whose code is the
    result. *)
Definition MFS_Release_chain (cluster_number : Z) : M (drive D) Z :=
  if MFS_is_read_only g then mret MFS_DISK_IS_WRITE_PROTECTED else
  if (CLUSTER_MIN_GOOD <=? cluster_number) && (cluster_number <=? LAST_CLUSTER g) then
    release_loop chain_fuel cluster_number;;
    MFS_Write_back_fat
  else mret MFS_NO_ERROR.

(** To the last cluster of a chain: [inl] an error, [inr] the cluster. *)
Fixpoint walk_loop (fuel : nat) (cluster_number : Z) : M (drive D) (Z + Z) :=
  match fuel with
  | O => fault
  | S fuel =>
      '(error_code, next_cluster) ← MFS_get_cluster_from_fat cluster_number;
      if negb (error_code =? MFS_NO_ERROR) then mret (inl error_code)
      else if bad_link next_cluster then mret (inl MFS_LOST_CHAIN)
      else if negb (next_cluster =? CLUSTER_EOF) then walk_loop fuel next_cluster
      else mret (inr cluster_number)
  end.

(** Link clusters to the end of the chain: [inl] an error, or the last cluster,
    the number of clusters linked, those still missing and the first one. *)
Fixpoint extend_loop (n : nat) (cluster_number extended : Z) (added_cluster : option Z)
  : M (drive D) (Z + Z * Z * Z * option Z) :=
  match n with
  | O => mret (inr (cluster_number, extended, 0, added_cluster))
  | S n' =>
      next_cluster ← MFS_Find_unused_cluster_from (cluster_number + 1);
      if next_cluster =? CLUSTER_INVALID
      then mret (inr (cluster_number, extended, Z.of_nat n, added_cluster))
      else
        error_code ← MFS_Put_fat cluster_number next_cluster;
        if negb (error_code =? MFS_NO_ERROR) then mret (inl error_code)
        else extend_loop n' next_cluster (extended + 1)
               (if extended =? 0 then Some next_cluster else added_cluster)
  end.

(** The code and [*added_cluster], which is [None] where it is not stored. *)
Definition MFS_Extend_chain (fuel : nat) (cluster_number num_clusters : Z)
  : M (drive D) (Z * option Z) :=
  if MFS_is_read_only g then mret (MFS_DISK_IS_WRITE_PROTECTED, None) else
  if (cluster_number <? CLUSTER_MIN_GOOD) || (LAST_CLUSTER g <? cluster_number)
  then mret (MFS_INVALID_CLUSTER_NUMBER, None) else
  if num_clusters <=? 0 then mret (MFS_NO_ERROR, None) else
  r ← walk_loop fuel cluster_number;
  match r with
  | inl error_code => mret (error_code, None)
  | inr cluster_number =>
      r ← extend_loop (Z.to_nat num_clusters) cluster_number 0 None;
      match r with
      | inl error_code => mret (error_code, None)
      | inr (cluster_number, extended, rest, added_cluster) =>
          error_code ← (if negb (extended =? 0) then MFS_Put_fat cluster_number CLUSTER_EOF
                        else mret MFS_NO_ERROR);
          mret (if negb (rest =? 0) && (error_code =? 0) then MFS_DISK_FULL else error_code,
                added_cluster)
      end
  end.

Definition MFS_Add_cluster_to_chain (fuel : nat) (cluster_number : Z) : M (drive D) (Z * option Z) :=
  MFS_Extend_chain fuel cluster_number 1.

Fixpoint clear_loop (n : nat) (sector : Z) : M (drive D) Z :=
  match n with
  | O => mret MFS_NO_ERROR
  | S n =>
      s ← gets id;
      error_code ← MFS_Write_device_sector g sector (DIR_SECTOR s);
      if error_code =? MFS_NO_ERROR then clear_loop n (w32 (sector + 1)) else mret error_code
  end.

Definition MFS_Clear_cluster (cluster : Z) : M (drive D) Z :=
  if MFS_is_read_only g then mret MFS_DISK_IS_WRITE_PROTECTED else
  error_code ← MFS_Flush_directory_sector_buffer g;
  let sector := CLUSTER_TO_SECTOR g cluster in
  modify (fun s => set_DIR (DIR_SECTOR_DIRTY s) (DIR_SECTOR_NUMBER s)
                     (replicate (Z.to_nat (SECTOR_SIZE g)) 0
                      ++ drop (Z.to_nat (SECTOR_SIZE g)) (DIR_SECTOR s)) s);;
  error_code ← (if error_code =? MFS_NO_ERROR
                then clear_loop (Z.to_nat (SECTORS_PER_CLUSTER g)) sector else mret error_code);
  modify (fun s => set_DIR (DIR_SECTOR_DIRTY s) sector (DIR_SECTOR s) s);;
  mret error_code.

(** ** The drive as a whole *)

Definition MFS_lock_dos_disk : Z := if DOS_DISK g then MFS_NO_ERROR else MFS_NOT_A_DOS_DISK.

Definition flush_policy (p : cache_policy) (flush_if_mixed_mode : bool) : bool :=
  match p with
  | MFS_MIXED_MODE_CACHE => flush_if_mixed_mode
  | MFS_WRITE_BACK_CACHE => false
  | MFS_WRITE_THROUGH_CACHE => true
  end.

Definition ioctl_flush_output : M (drive D) Z :=
  s ← gets id;
  let '(e, d) := ioctl_flush (DEV s) in
  modify (set_DEV d);; mret e.

Definition MFS_unlock (flush_if_mixed_mode : bool) : M (drive D) Z :=
  error ←
    (if flush_policy (WRITE_CACHE_POLICY g) flush_if_mixed_mode then
       error ← MFS_Flush_directory_sector_buffer g;
       if error =? MFS_NO_ERROR then MFS_Flush_data_sector_buffer g else mret error
     else mret MFS_NO_ERROR);
  if (error =? MFS_NO_ERROR) && flush_policy (FAT_CACHE_POLICY g) flush_if_mixed_mode then
    error ← MFS_Flush_fat_cache;
    if error =? MFS_NO_ERROR then
      error ← ioctl_flush_output;
      mret (if error =? IO_ERROR_INVALID_IOCTL_CMD then MFS_NO_ERROR else error)
    else mret error
  else mret error.

Definition MFS_Flush_caches : M (drive D) Z :=
  if MFS_is_read_only g then mret MFS_NO_ERROR else
  r1 ← MFS_Flush_directory_sector_buffer g;
  r2 ← MFS_Flush_data_sector_buffer g;
  r3 ← MFS_Flush_fat_cache;
  r4 ← ioctl_flush_output;
  let return_code := if r1 =? MFS_NO_ERROR then r2 else r1 in
  let return_code := if return_code =? MFS_NO_ERROR then r3 else return_code in
  mret (if negb (r4 =? IO_ERROR_INVALID_IOCTL_CMD) && (return_code =? MFS_NO_ERROR)
        then r4 else return_code).

(** Count the clusters from [k] on whose entry satisfies [want]; the first
    error ends the count. *)
Fixpoint count_loop (n : nat) (want : Z) (k slots : Z) : M (drive D) (Z * Z) :=
  match n with
  | O => mret (MFS_NO_ERROR, slots)
  | S n =>
      '(error_code, cluster_status) ← MFS_get_cluster_from_fat k;
      if negb (error_code =? MFS_NO_ERROR) then mret (error_code, slots)
      else count_loop n want (k + 1) (if cluster_status =? want then slots + 1 else slots)
  end.

Definition clusters : nat := Z.to_nat (LAST_CLUSTER g + 1 - CLUSTER_MIN_GOOD).

Definition MFS_Bad_clusters : M (drive D) Z :=
  if negb (MFS_lock_dos_disk =? MFS_NO_ERROR) then mret MFS_lock_dos_disk else
  '(_, bad_slots) ← count_loop clusters CLUSTER_BAD CLUSTER_MIN_GOOD 0;
  MFS_unlock false;;
  mret bad_slots.

Definition MFS_Last_cluster : M (drive D) Z :=
  if negb (MFS_lock_dos_disk =? MFS_NO_ERROR) then mret MFS_lock_dos_disk else
  MFS_unlock false;;
  mret (LAST_CLUSTER g).

(** The error and the number of free clusters. *)
Definition MFS_Get_disk_free_space_internal : M (drive D) (Z * Z) :=
  s ← gets id;
  if FREE_COUNT s =? FSI_UNKNOWN then
    '(error_code, free_slots) ← count_loop clusters CLUSTER_UNUSED CLUSTER_MIN_GOOD 0;
    (if error_code =? MFS_NO_ERROR then modify (set_FREE free_slots) else mret tt);;
    mret (error_code, free_slots)
  else mret (MFS_NO_ERROR, FREE_COUNT s).

Definition MFS_Get_disk_free_space : M (drive D) Z :=
  if negb (MFS_lock_dos_disk =? MFS_NO_ERROR) then mret 0 else
  '(error_code, clusters_free) ← MFS_Get_disk_free_space_internal;
  let bytes_free := if error_code =? MFS_NO_ERROR
                    then wrap 64 (Z.shiftl clusters_free (CLUSTER_POWER_BYTES g)) else 0 in
  MFS_unlock false;;
  mret bytes_free.

End Fat.

(** ** The layout of a FAT drive *)

Definition entry_max (g : geometry) : Z :=
  match FAT_TYPE g with
  | MFS_FAT12 => CLUSTER_MAX_12 | MFS_FAT16 => CLUSTER_MAX_16 | MFS_FAT32 => CLUSTER_MAX_32
  end.

(** The offset of an entry and the offset after its last byte, without the
    32-bit wrap. *)
Definition offset_of (g : geometry) (c : Z) : Z :=
  match FAT_TYPE g with MFS_FAT12 => c + c / 2 | MFS_FAT16 => 2 * c | MFS_FAT32 => 4 * c end.
Definition width (g : geometry) : Z := match FAT_TYPE g with MFS_FAT32 => 4 | _ => 2 end.

Record fat_ok (g : geometry) : Prop := {
  fo_geometry : geometry_ok g;
  fo_writable : READ_ONLY g = false;
  fo_sector : 2 <= SECTOR_POWER g;
  fo_cache : 0 < FAT_CACHE_SIZE g <= fat_size g;
  fo_cache12 : FAT_TYPE g = MFS_FAT12 -> 2 <= FAT_CACHE_SIZE g \/ fat_size g = 1;
  fo_copies : 1 <= NUMBER_OF_FAT g;
  fo_start : 0 <= FAT_START_SECTOR g;
  fo_room : FAT_START_SECTOR g + NUMBER_OF_FAT g * fat_size g <= MEGA_SECTORS g + 1;
  fo_last : 2 <= LAST_CLUSTER g < entry_max g;
  fo_entries : offset_of g (LAST_CLUSTER g) + width g <= fat_size g * SECTOR_SIZE g;
}.

Section Cache.
Context {D : Type} (g : geometry) `{HL : DeviceLaws D g} (Hg : fat_ok g).

#[local] Abbreviation SS := (SECTOR_SIZE g).

Lemma ss_pos : 4 <= SS.
Proof.
  unfold SECTOR_SIZE. change 4 with (2 ^ 2). pose proof (fo_sector g Hg).
  apply Z.pow_le_mono_r; lia.
Qed.

Lemma mega_small : MEGA_SECTORS g < 2 ^ 29.
Proof. pose proof (ok_cap g (fo_geometry g Hg)). pose proof ss_pos. nia. Qed.

(** Byte [x] of the FAT as the cache shows it: from the cache where it holds
    the byte, and from the first copy on the device elsewhere. *)
Definition fatb (s : drive D) (x : Z) : Z :=
  if in_range (FAT_CACHE_START s * SS) (FAT_CACHE_SIZE g * SS) x
  then byte (FAT_CACHE s) (x - FAT_CACHE_START s * SS)
  else img (DEV s) (FAT_START_SECTOR g * SS + x).

Definition loaded (s : drive D) : Prop :=
  0 <= FAT_CACHE_START s /\ FAT_CACHE_START s + FAT_CACHE_SIZE g <= fat_size g.

Record cache_ok (s : drive D) : Prop := {
  co_len : zlen (FAT_CACHE s) = FAT_CACHE_SIZE g * SS;
  co_bytes : Forall (fun b => is_byte b) (FAT_CACHE s);
  co_readback : readback_ok g s;
  co_start : (FAT_CACHE_START s = MAX_UINT_32 /\ FAT_CACHE_DIRTY s = false) \/ loaded s;
  co_clean : FAT_CACHE_DIRTY s = false -> loaded s ->
    forall i, 0 <= i < FAT_CACHE_SIZE g * SS ->
      byte (FAT_CACHE s) i = img (DEV s) ((FAT_START_SECTOR g + FAT_CACHE_START s) * SS + i);
}.

(** Where copy number [fat] of the cached sectors lies on the device. *)
Definition window (s : drive D) (fat : Z) : Z :=
  (FAT_START_SECTOR g + FAT_CACHE_START s + fat * fat_size g) * SS.
Definition in_window (s : drive D) (fat x : Z) : bool :=
  in_range (window s fat) (FAT_CACHE_SIZE g * SS) x.

(** The copies of the FAT agree wherever the cache has nothing newer. *)
Definition mirrored (s : drive D) : Prop :=
  forall fat x, 0 <= fat < NUMBER_OF_FAT g -> 0 <= x < fat_size g * SS ->
    (FAT_CACHE_DIRTY s = true ->
     in_range (FAT_CACHE_START s * SS) (FAT_CACHE_SIZE g * SS) x = false) ->
    img (DEV s) ((FAT_START_SECTOR g + fat * fat_size g) * SS + x)
    = img (DEV s) (FAT_START_SECTOR g * SS + x).

(** The device outside of all copies of the FAT is the same. *)
Definition outside_same (s s' : drive D) : Prop :=
  forall x, x < FAT_START_SECTOR g * SS \/
            (FAT_START_SECTOR g + NUMBER_OF_FAT g * fat_size g) * SS <= x ->
    img (DEV s') x = img (DEV s) x.

Lemma same_buffers_refl (s : drive D) : same_buffers s s.
Proof. done. Qed.

Lemma same_buffers_trans (s1 s2 s3 : drive D) :
  same_buffers s1 s2 -> same_buffers s2 s3 -> same_buffers s1 s3.
Proof. unfold same_buffers. intuition congruence. Qed.

Lemma flush_sectors_run n i fat s :
  zlen (FAT_CACHE s) = FAT_CACHE_SIZE g * SS -> Forall (fun b => is_byte b) (FAT_CACHE s) ->
  readback_ok g s -> loaded s -> 0 <= fat < NUMBER_OF_FAT g -> 0 <= i ->
  i + Z.of_nat n = FAT_CACHE_SIZE g ->
  exists e s', flush_sectors g n i fat s = Some (e, s') /\ same_buffers s s' /\ readback_ok g s' /\
    (e = MFS_NO_ERROR -> forall j, i * SS <= j < FAT_CACHE_SIZE g * SS ->
       img (DEV s') (window s fat + j) = byte (FAT_CACHE s) j) /\
    (forall x, in_range (window s fat + i * SS) (Z.of_nat n * SS) x = false ->
       img (DEV s') x = img (DEV s) x) /\
    (dev_reliable g s -> e = MFS_NO_ERROR /\ dev_reliable g s').
Proof.
  revert i s. induction n as [|n IH]; intros i s Hlen Hby Hrb Hl Hf Hi Hn.
  { exists MFS_NO_ERROR, s. split_and!; try done. intros _ j Hj. nia. }
  pose proof ss_pos as Hss. pose proof mega_small as Hms.
  pose proof (fo_cache g Hg). pose proof (fo_room g Hg). pose proof (fo_start g Hg).
  destruct Hl as [Hl1 Hl2]. simpl. rewrite (bind_run _ _ s s s) by done.
  set (sector := FAT_START_SECTOR g + FAT_CACHE_START s + i + fat * fat_size g).
  assert (0 <= sector <= MEGA_SECTORS g) as Hsec by (unfold sector; nia).
  rewrite (wrap_small 32 sector) by lia.
  destruct (write_sector_run g (fo_geometry g Hg) sector (drop (Z.to_nat (SECTOR_SIZE g * i)) (FAT_CACHE s)) s)
    as (e & s1 & E & Hb & Hr & Hw & Ho & Hrel); try done.
  { apply Hg. }
  { rewrite length_drop. nia. }
  { by apply Forall_drop. }
  rewrite (bind_run _ _ _ _ _ E). 
  assert (sector * SS = window s fat + i * SS) as Hsw by (unfold sector, window; lia).
  assert (in_sector g sector = in_range (window s fat + i * SS) SS) as Hins.
  { unfold in_sector. by rewrite Hsw. }
  rewrite Hins in *.
  pose proof Hb as (_ & _ & _ & Hcs & _ & Hcc & _).
  destruct (Z.eqb_spec e MFS_NO_ERROR) as [He|He].
  2: { exists e, s1. split_and!; try done.
       - intros x Hx. apply Ho. destruct (in_range_spec (window s fat + i * SS) SS x) as [[_ ?]|[-> _]]; [|done].
         rewrite in_range_true in Hx by nia. done. }
  destruct (IH (i + 1) s1) as (e2 & s2 & E2 & Hb2 & Hr2 & Hw2 & Ho2 & Hrel2); try lia.
  1,2: by rewrite Hcc. 1: done. 1: unfold loaded; by rewrite Hcs.
  assert (forall f, window s1 f = window s f) as Hwin by (intros f; unfold window; by rewrite Hcs).
  rewrite Hwin, Hcc in *.
  exists e2, s2. split_and!; [done|by eapply same_buffers_trans|done| | |].
  - intros He2 j Hj. destruct (Z.leb_spec ((i + 1) * SS) j); [apply Hw2; [done|lia]|].
    rewrite Ho2 by (apply in_range_false; nia). rewrite (Hw He), in_range_true by nia.
    rewrite byte_drop by nia. f_equal. nia.
  - intros x Hx. destruct (in_range_spec (window s fat + i * SS) (Z.of_nat (S n) * SS) x) as [[? _]|[_ Hx']]; [congruence|].
    rewrite Ho2 by (apply in_range_false; nia). apply Ho. apply in_range_false. nia.
  - intros Hd. destruct (Hrel Hd) as [_ Hd1]. apply Hrel2, Hd1.
Qed.

Lemma flush_copies_run n fat s :
  zlen (FAT_CACHE s) = FAT_CACHE_SIZE g * SS -> Forall (fun b => is_byte b) (FAT_CACHE s) ->
  readback_ok g s -> loaded s -> 0 <= fat -> fat + Z.of_nat n = NUMBER_OF_FAT g ->
  exists e s', flush_copies g n fat s = Some (e, s') /\ same_buffers s s' /\ readback_ok g s' /\
    (e = MFS_NO_ERROR -> forall f j, fat <= f < NUMBER_OF_FAT g -> 0 <= j < FAT_CACHE_SIZE g * SS ->
       img (DEV s') (window s f + j) = byte (FAT_CACHE s) j) /\
    (forall x, (forall f, fat <= f < NUMBER_OF_FAT g -> in_window s f x = false) ->
       img (DEV s') x = img (DEV s) x) /\
    (dev_reliable g s -> e = MFS_NO_ERROR /\ dev_reliable g s').
Proof.
  revert fat s. induction n as [|n IH]; intros fat s Hlen Hby Hrb Hl Hf Hn.
  { exists MFS_NO_ERROR, s. split_and!; try done. intros _ f j ?. lia. }
  pose proof ss_pos as Hss. pose proof (fo_cache g Hg). simpl.
  destruct (flush_sectors_run (Z.to_nat (FAT_CACHE_SIZE g)) 0 fat s)
    as (e & s1 & E & Hb & Hr & Hw & Ho & Hrel); try done; try lia.
  rewrite (bind_run _ _ _ _ _ E). rewrite Z2Nat.id in Ho by lia.
  rewrite Z.mul_0_l, Z.add_0_r in *.
  pose proof Hb as (_ & _ & _ & Hcs & _ & Hcc & _).
  destruct (Z.eqb_spec e MFS_NO_ERROR) as [He|He].
  2: { exists e, s1. split_and!; try done.
       - intros x Hx. apply Ho. apply (Hx fat). lia. }
  destruct (IH (fat + 1) s1) as (e2 & s2 & E2 & Hb2 & Hr2 & Hw2 & Ho2 & Hrel2); try lia.
  1,2: by rewrite Hcc. 1: done. 1: unfold loaded; by rewrite Hcs.
  assert (forall f, window s1 f = window s f) as Hwin by (intros f; unfold window; by rewrite Hcs).
  assert (forall f x, in_window s1 f x = in_window s f x) as Hinw by (intros f x; unfold in_window; by rewrite Hwin).
  exists e2, s2. split_and!; [done|by eapply same_buffers_trans|done| | |].
  - intros He2 f j Hf' Hj. destruct (decide (f = fat)) as [->|].
    + rewrite Ho2; [by apply Hw|]. intros f Hf2. rewrite Hinw. unfold in_window, window.
      apply in_range_false. left. assert (fat_size g <= (f - fat) * fat_size g) by nia. nia.
    + rewrite <- Hwin, Hw2, Hcc by lia. done.
  - intros x Hx. rewrite Ho2; [apply Ho, Hx; lia|]. intros f Hf'. rewrite Hinw. apply Hx. lia.
  - intros Hd. destruct (Hrel Hd) as [_ Hd1]. apply Hrel2, Hd1.
Qed.

(** Everything but the device, the FAT cache and the read-back buffer. *)
Definition same_other (s s' : drive D) : Prop :=
  DIR_SECTOR_DIRTY s' = DIR_SECTOR_DIRTY s /\ DIR_SECTOR_NUMBER s' = DIR_SECTOR_NUMBER s /\
  DIR_SECTOR s' = DIR_SECTOR s /\ DATA_SECTOR_DIRTY s' = DATA_SECTOR_DIRTY s /\
  DATA_SECTOR_NUMBER s' = DATA_SECTOR_NUMBER s /\ DATA_SECTOR s' = DATA_SECTOR s /\
  FREE_COUNT s' = FREE_COUNT s /\ NEXT_FREE_CLUSTER s' = NEXT_FREE_CLUSTER s.

Lemma same_other_refl (s : drive D) : same_other s s.
Proof. done. Qed.

Lemma same_other_trans (s1 s2 s3 : drive D) :
  same_other s1 s2 -> same_other s2 s3 -> same_other s1 s3.
Proof. unfold same_other. intuition congruence. Qed.

Lemma same_buffers_other (s s' : drive D) : same_buffers s s' -> same_other s s'.
Proof. unfold same_buffers, same_other. tauto. Qed.

Definition fatb_same (s s' : drive D) : Prop :=
  forall x, 0 <= x < fat_size g * SS -> fatb s' x = fatb s x.

(** What an operation that only moves the cache guarantees. *)
Record moves (s s' : drive D) : Prop := {
  mv_cache : cache_ok s';
  mv_mirror : mirrored s';
  mv_fatb : fatb_same s s';
  mv_other : same_other s s';
  mv_outside : outside_same s s';
  mv_reliable : dev_reliable g s -> dev_reliable g s';
}.

Lemma moves_refl s : cache_ok s -> mirrored s -> moves s s.
Proof. by constructor. Qed.

Lemma moves_trans s1 s2 s3 : moves s1 s2 -> moves s2 s3 -> moves s1 s3.
Proof.
  intros [? ? F1 O1 X1 R1] [? ? F2 O2 X2 R2]. constructor; [done|done| | | |].
  - intros x Hx. by rewrite F2, F1.
  - by eapply same_other_trans.
  - intros x Hx. by rewrite X2, X1.
  - auto.
Qed.

(** A byte of a copy of the FAT lies in the window of that copy at most. *)
Lemma in_window_copy (s : drive D) f f' x :
  loaded s -> 0 <= x < fat_size g * SS -> f <> f' ->
  in_window s f ((FAT_START_SECTOR g + f' * fat_size g) * SS + x) = false.
Proof.
  intros [? ?] Hx Hff. unfold in_window, window. pose proof ss_pos. pose proof (fo_cache g Hg).
  apply in_range_false. destruct (Z.lt_ge_cases f f').
  - right. assert (fat_size g <= (f' - f) * fat_size g) by nia. nia.
  - left. assert (fat_size g <= (f - f') * fat_size g) by nia. nia.
Qed.

Lemma in_window_self (s : drive D) f x :
  in_window s f ((FAT_START_SECTOR g + f * fat_size g) * SS + x)
  = in_range (FAT_CACHE_START s * SS) (FAT_CACHE_SIZE g * SS) x.
Proof.
  unfold in_window, window.
  destruct (in_range_spec (FAT_CACHE_START s * SS) (FAT_CACHE_SIZE g * SS) x) as [[-> ?]|[-> ?]].
  - apply in_range_true. lia.
  - apply in_range_false. lia.
Qed.

Lemma copy_byte (s : drive D) f x :
  window s f + (x - FAT_CACHE_START s * SS) = (FAT_START_SECTOR g + f * fat_size g) * SS + x.
Proof. unfold window. lia. Qed.

Lemma unloaded_range (s : drive D) x :
  FAT_CACHE_START s = MAX_UINT_32 -> 0 <= x < fat_size g * SS ->
  in_range (FAT_CACHE_START s * SS) (FAT_CACHE_SIZE g * SS) x = false.
Proof.
  intros -> Hx. apply in_range_false. left. pose proof ss_pos. unfold MAX_UINT_32.
  pose proof (fo_room g Hg). pose proof (fo_copies g Hg). pose proof mega_small. pose proof (fo_start g Hg).
  assert (fat_size g <= NUMBER_OF_FAT g * fat_size g) by nia. nia.
Qed.

Lemma flush_run s :
  cache_ok s -> mirrored s ->
  exists e s', MFS_Flush_fat_cache g s = Some (e, s') /\ moves s s' /\
    FAT_CACHE_START s' = FAT_CACHE_START s /\ FAT_CACHE s' = FAT_CACHE s /\
    (e = MFS_NO_ERROR -> FAT_CACHE_DIRTY s' = false) /\
    (dev_reliable g s -> e = MFS_NO_ERROR).
Proof.
  intros Hc Hm. unfold MFS_Flush_fat_cache, MFS_is_read_only. rewrite (fo_writable g Hg).
  rewrite (bind_run _ _ s s s) by done.
  destruct (FAT_CACHE_DIRTY s) eqn:Ed.
  2: { exists MFS_NO_ERROR, s. split_and!; done. }
  destruct (co_start s Hc) as [[_ ?]|Hl]; [congruence|]. pose proof Hl as [Hl1 Hl2].
  pose proof ss_pos as Hss. pose proof (fo_copies g Hg) as Hcp. pose proof (fo_cache g Hg) as Hcz.
  destruct (flush_copies_run (Z.to_nat (NUMBER_OF_FAT g)) 0 s) as (e & s1 & E & Hb & Hr & Hw & Ho & Hrel);
    try apply Hc; try done; try lia.
  rewrite (bind_run _ _ _ _ _ E).
  pose proof Hb as (_ & _ & _ & Hcs & Hcd & Hcc & _).
  assert (forall f x, 0 <= f < NUMBER_OF_FAT g -> 0 <= x < fat_size g * SS ->
     in_range (FAT_CACHE_START s * SS) (FAT_CACHE_SIZE g * SS) x = false ->
     img (DEV s1) ((FAT_START_SECTOR g + f * fat_size g) * SS + x)
     = img (DEV s) ((FAT_START_SECTOR g + f * fat_size g) * SS + x)) as Hkeep.
  { intros f x Hf Hx Hr'. apply Ho. intros f' Hf'. destruct (decide (f' = f)) as [->|].
    - by rewrite in_window_self. - by apply in_window_copy. }
  assert (forall x, 0 <= x < fat_size g * SS ->
     in_range (FAT_CACHE_START s * SS) (FAT_CACHE_SIZE g * SS) x = false ->
     img (DEV s1) (FAT_START_SECTOR g * SS + x) = img (DEV s) (FAT_START_SECTOR g * SS + x)) as Hkeep0.
  { intros x Hx Hr'. pose proof (Hkeep 0 x ltac:(lia) Hx Hr') as Hk. by rewrite Z.mul_0_l, Z.add_0_r in Hk. }
  assert (forall s2, FAT_CACHE_START s2 = FAT_CACHE_START s -> FAT_CACHE s2 = FAT_CACHE s ->
            DEV s2 = DEV s1 -> fatb_same s s2) as Hfb.
  { intros s2 H1 H2 H3 x Hx. unfold fatb. rewrite H1, H2, H3.
    destruct (in_range (FAT_CACHE_START s * SS) (FAT_CACHE_SIZE g * SS) x) eqn:Ei; [done|by apply Hkeep0]. }
  assert (outside_same s s1) as Hout.
  { intros x Hx. apply Ho. intros f Hf. unfold in_window, window. apply in_range_false.
    assert (f * fat_size g + fat_size g <= NUMBER_OF_FAT g * fat_size g) by nia.
    assert (0 <= f * fat_size g) by nia. nia. }
  destruct (Z.eqb_spec e MFS_NO_ERROR) as [He|He].
  - rewrite (bind_run _ _ _ _ _ eq_refl). eexists _, _. split; [done|]. simpl. split_and!; try done.
    constructor; simpl.
    + constructor; simpl; rewrite ?Hcc, ?Hcs; try apply Hc; try done.
      * right. unfold loaded. simpl. by rewrite ?Hcs.
      * intros _ _ i Hi. rewrite <- (Hw He 0 i) by lia. f_equal. unfold window. lia.
    + intros f x Hf Hx _. simpl.
      destruct (in_range_spec (FAT_CACHE_START s * SS) (FAT_CACHE_SIZE g * SS) x) as [[Hin ?]|[Hin ?]].
      * rewrite <- copy_byte with (s := s). rewrite (Hw He) by lia.
        transitivity (img (DEV s1) (window s 0 + (x - FAT_CACHE_START s * SS))).
        -- by rewrite (Hw He) by lia.
        -- rewrite copy_byte. f_equal. lia.
      * rewrite Hkeep, Hkeep0 by done. by apply Hm.
    + by apply Hfb.
    + apply same_buffers_other in Hb. exact Hb.
    + exact Hout.
    + intros Hd. destruct (Hrel Hd) as [_ Hd']. exact Hd'.
  - rewrite (bind_run _ _ _ _ _ eq_refl). exists e, s1. split; [done|]. split_and!; try done; [|intros Hd; by destruct (Hrel Hd)].
    constructor.
    + constructor; rewrite ?Hcc, ?Hcs, ?Hcd; try apply Hc; try done.
      * right. unfold loaded. by rewrite ?Hcs.
      * congruence.
    + intros f x Hf Hx Hdx. rewrite Hcd, Hcs in Hdx. specialize (Hdx Ed).
      rewrite Hkeep, Hkeep0 by done. apply Hm; [done|done|]. by intros _.
    + by apply Hfb.
    + by apply same_buffers_other.
    + exact Hout.
    + intros Hd. by destruct (Hrel Hd).
Qed.

(** Refilling the window. Up to the sector that fails, the buffer holds the new
    sectors; the device does not change. *)
Lemma read_window_run n i ns s :
  zlen (FAT_CACHE s) = FAT_CACHE_SIZE g * SS -> Forall (fun b => is_byte b) (FAT_CACHE s) ->
  0 <= ns -> ns + FAT_CACHE_SIZE g <= fat_size g -> 0 <= i ->
  i + Z.of_nat n = FAT_CACHE_SIZE g ->
  exists e s', read_window g n i ns s = Some (e, s') /\ same_other s s' /\
    READBACK_SECTOR s' = READBACK_SECTOR s /\
    FAT_CACHE_START s' = FAT_CACHE_START s /\ FAT_CACHE_DIRTY s' = FAT_CACHE_DIRTY s /\
    zlen (FAT_CACHE s') = FAT_CACHE_SIZE g * SS /\ Forall (fun b => is_byte b) (FAT_CACHE s') /\
    (forall x, img (DEV s') x = img (DEV s) x) /\
    (forall j, 0 <= j < i * SS -> byte (FAT_CACHE s') j = byte (FAT_CACHE s) j) /\
    (e = MFS_NO_ERROR -> forall j, i * SS <= j < FAT_CACHE_SIZE g * SS ->
       byte (FAT_CACHE s') j = img (DEV s) ((FAT_START_SECTOR g + ns) * SS + j)) /\
    (dev_reliable g s -> e = MFS_NO_ERROR).
Proof.
  revert i s. induction n as [|n IH]; intros i s Hlen Hby Hns Hns2 Hi Hn.
  { exists MFS_NO_ERROR, s. split_and!; try done. intros _ j Hj. nia. }
  pose proof ss_pos as Hss. pose proof mega_small as Hms.
  pose proof (fo_cache g Hg). pose proof (fo_room g Hg). pose proof (fo_start g Hg). pose proof (fo_copies g Hg).
  simpl. rewrite (bind_run _ _ s s s) by done.
  set (sector := FAT_START_SECTOR g + ns + i).
  assert (0 <= sector <= MEGA_SECTORS g) as Hsec.
  { unfold sector. assert (fat_size g <= NUMBER_OF_FAT g * fat_size g) by nia. lia. }
  rewrite (wrap_small 32 sector) by lia.
  set (at_ := Z.to_nat (SECTOR_SIZE g * i)).
  assert (Z.of_nat at_ = i * SS) as Hat by (unfold at_; nia).
  destruct (read_sector_run g (fo_geometry g Hg) sector (drop at_ (FAT_CACHE s)) s)
    as (e & buf & s1 & E & Hb & Hrb & Hl & Hbb & Himg & Hbey & Hrd & Hrel); try done; try lia.
  { rewrite length_drop. nia. }
  { by apply Forall_drop. }
  rewrite (bind_run _ _ _ _ _ E). simpl. rewrite (bind_run _ _ _ _ _ eq_refl).
  pose proof Hb as (_ & _ & _ & Hcs & Hcd & Hcc & _).
  rewrite length_drop in Hl.
  assert (zlen (take at_ (FAT_CACHE s)) = i * SS) as Htl by (rewrite length_take; nia).
  set (s2 := set_FAT (FAT_CACHE_START s1) (FAT_CACHE_DIRTY s1) (take at_ (FAT_CACHE s1) ++ buf) s1).
  assert (FAT_CACHE s2 = take at_ (FAT_CACHE s) ++ buf) as Hc2 by (unfold s2; simpl; by rewrite Hcc).
  assert (zlen (FAT_CACHE s2) = FAT_CACHE_SIZE g * SS) as Hlen2 by (rewrite Hc2, length_app; nia).
  assert (Forall (fun b => is_byte b) (FAT_CACHE s2)) as Hby2.
  { rewrite Hc2. apply Forall_app. split; [by apply Forall_take|done]. }
  assert (forall j, 0 <= j < i * SS -> byte (FAT_CACHE s2) j = byte (FAT_CACHE s) j) as Hlow.
  { intros j Hj. rewrite Hc2, byte_app_l, byte_take by lia. done. }
  assert (same_other s s2) as Hso by (apply same_buffers_other in Hb; exact Hb).
  destruct (Z.eqb_spec e MFS_NO_ERROR) as [He|He].
  2: { exists e, s2. split_and!; done. }
  assert (forall j, i * SS <= j < (i + 1) * SS ->
     byte (FAT_CACHE s2) j = img (DEV s) ((FAT_START_SECTOR g + ns) * SS + j)) as Hmid.
  { intros j Hj. rewrite Hc2, byte_app_r by lia. rewrite (Hrd He) by nia. f_equal. unfold sector. nia. }
  destruct (IH (i + 1) s2) as (e2 & s3 & E2 & Hso2 & Hrb2 & Hcs2 & Hcd2 & Hl2 & Hb2 & Hi2 & Hlo2 & Hhi2 & Hrel2);
    try done; try lia.
  exists e2, s3. split_and!; try done.
  - by eapply same_other_trans.
  - by rewrite Hrb2.
  - by rewrite Hcs2.
  - by rewrite Hcd2.
  - intros x. by rewrite Hi2, <- Himg.
  - intros j Hj. rewrite Hlo2 by nia. by apply Hlow.
  - intros He2 j Hj. destruct (Z.leb_spec ((i + 1) * SS) j).
    + rewrite (Hhi2 He2) by lia. apply Himg.
    + rewrite Hlo2 by nia. apply Hmid. lia.
  - intros Hd. apply Hrel2. destruct Hd as [Hd1 Hd2]. split; [|done].
    unfold s2. simpl. by rewrite Hrb.
Qed.

(** An access inside the FAT: the bytes from [o] to [o + w - 1]. *)
Definition in_fat (o w : Z) : Prop :=
  0 <= o /\ o + w <= fat_size g * SS /\
  ((FAT_TYPE g = MFS_FAT12 /\ w = 2) \/ (FAT_TYPE g <> MFS_FAT12 /\ o mod w = 0 /\ (w = 2 \/ w = 4))).

Definition holds (s : drive D) (o w : Z) : Prop :=
  FAT_CACHE_START s * SS <= o /\ o + w <= (FAT_CACHE_START s + FAT_CACHE_SIZE g) * SS.

(** The last byte of an access lies in the sector that the code computes. *)
Lemma end_sector o w :
  in_fat o w ->
  (o + w - 1) / SS
  = match FAT_TYPE g with MFS_FAT12 => w32 (o + 1) / SS | _ => o / SS end.
Proof.
  intros (H0 & H1 & H2). pose proof ss_pos as Hss.
  assert (fat_size g * SS < 2 ^ 31) as Hf.
  { pose proof (ok_cap g (fo_geometry g Hg)). pose proof (fo_room g Hg). pose proof (fo_copies g Hg).
    pose proof (fo_start g Hg). pose proof (fo_cache g Hg).
    assert (fat_size g <= NUMBER_OF_FAT g * fat_size g) by nia. nia. }
  destruct H2 as [[-> ->]|(Hn & Hm & Hw)].
  - rewrite wrap_small by lia. f_equal. lia.
  - assert (o / SS = (o + w - 1) / SS) as Heq.
    { assert (exists k, SS = w * k) as [k Hk].
      { unfold SECTOR_SIZE. pose proof (fo_sector g Hg). destruct Hw as [-> | ->].
        - exists (2 ^ (SECTOR_POWER g - 1)). change 2 with (2 ^ 1) at 2. rewrite <- Z.pow_add_r by lia. f_equal. lia.
        - exists (2 ^ (SECTOR_POWER g - 2)). change 4 with (2 ^ 2). rewrite <- Z.pow_add_r by lia. f_equal. lia. }
      assert (0 < w) by lia. assert (0 < k) by nia.
      rewrite Hk. rewrite <- !Z.div_div by lia. f_equal.
      apply Z.div_unique with (w - 1); [left; lia|].
      pose proof (Z.div_mod o w ltac:(lia)). lia. }
    destruct (FAT_TYPE g); congruence.
Qed.

Lemma moves_load s s1 :
  (forall x, img (DEV s1) x = img (DEV s) x) -> same_other s s1 ->
  READBACK_SECTOR s1 = READBACK_SECTOR s -> readback_ok g s -> FAT_CACHE_DIRTY s = false ->
  cache_ok s -> mirrored s -> loaded s1 -> FAT_CACHE_DIRTY s1 = false ->
  zlen (FAT_CACHE s1) = FAT_CACHE_SIZE g * SS -> Forall (fun b => is_byte b) (FAT_CACHE s1) ->
  (forall j, 0 <= j < FAT_CACHE_SIZE g * SS ->
     byte (FAT_CACHE s1) j = img (DEV s) ((FAT_START_SECTOR g + FAT_CACHE_START s1) * SS + j)) ->
  moves s s1.
Proof.
  intros Himg Hso Hrb Hrok Hd Hc Hm Hl Hd1 Hlen Hby Hdata.
  assert (forall x, 0 <= x < fat_size g * SS -> fatb s x = img (DEV s) (FAT_START_SECTOR g * SS + x)) as Hfs.
  { intros x Hx. unfold fatb.
    destruct (in_range_spec (FAT_CACHE_START s * SS) (FAT_CACHE_SIZE g * SS) x) as [[Hi Hr]|[-> _]]; [|done].
    rewrite Hi. destruct (co_start s Hc) as [[Hmx _]|Hl0].
    - rewrite unloaded_range in Hi; done.
    - rewrite (co_clean s Hc Hd Hl0) by lia. f_equal. lia. }
  constructor.
  - constructor; try done.
    + unfold readback_ok. by rewrite Hrb.
    + by right.
    + intros _ _ j Hj. by rewrite Hdata, Himg.
  - intros f x Hf Hx _. rewrite !Himg. apply Hm; [done..|]. rewrite Hd. done.
  - intros x Hx. rewrite Hfs by done. unfold fatb.
    destruct (in_range_spec (FAT_CACHE_START s1 * SS) (FAT_CACHE_SIZE g * SS) x) as [[-> Hr]|[-> _]].
    + rewrite Hdata by lia. f_equal. lia.
    + apply Himg.
  - done.
  - intros x _. apply Himg.
  - unfold dev_reliable. by rewrite Hrb.
Qed.

(** After [MFS_Read_fat] succeeds, the cache holds the bytes it was asked for,
    and the FAT is the same. *)
Lemma read_fat_run o w s :
  cache_ok s -> mirrored s -> in_fat o w ->
  exists e s', MFS_Read_fat g o s = Some (e, s') /\
    (e = MFS_NO_ERROR -> moves s s' /\ loaded s' /\ holds s' o w) /\
    same_other s s' /\ outside_same s s' /\
    (dev_reliable g s -> e = MFS_NO_ERROR).
Proof.
  intros Hc Hm Hin. pose proof (end_sector o w Hin) as Hend. pose proof Hin as (Ho & How & Hk).
  pose proof ss_pos as Hss. pose proof (fo_cache g Hg) as Hcz. pose proof mega_small as Hms.
  pose proof (fo_room g Hg). pose proof (fo_copies g Hg). pose proof (fo_start g Hg).
  assert (fat_size g < 2 ^ 30) as Hfsz by (assert (fat_size g <= NUMBER_OF_FAT g * fat_size g) by nia; lia).
  assert (2 <= w) as Hw2 by lia.
  unfold MFS_Read_fat. cbv zeta. rewrite <- Hend.
  set (ns := o / SS). set (es := (o + w - 1) / SS).
  assert (ns * SS <= o < (ns + 1) * SS) as Hns by (unfold ns; pose proof (Z.div_mod o SS); pose proof (Z.mod_pos_bound o SS); lia).
  assert (es * SS <= o + w - 1 < (es + 1) * SS) as Hes
    by (unfold es; pose proof (Z.div_mod (o + w - 1) SS); pose proof (Z.mod_pos_bound (o + w - 1) SS); lia).
  assert (0 <= ns /\ ns <= es < fat_size g) as Hb by nia.
  rewrite (bind_run _ _ s s s) by done.
  destruct (_ || _) eqn:Ewin.
  - destruct (flush_run s Hc Hm) as (e & s1 & E & Hmv & Hcs & Hcc & Hcd & Hrel).
    rewrite (bind_run _ _ _ _ _ E).
    destruct (Z.eqb_spec e 0) as [He|He]; simpl.
    2: { exists e, s1. split; [done|]. split; [done|]. split_and!; [apply Hmv|apply Hmv|done]. }
    rewrite (wrap_small 32) by lia.
    set (ns' := if fat_size g - FAT_CACHE_SIZE g <? ns then fat_size g - FAT_CACHE_SIZE g else ns).
    assert (0 <= ns' /\ ns' + FAT_CACHE_SIZE g <= fat_size g /\ ns' <= ns /\ es < ns' + FAT_CACHE_SIZE g) as (Hn1 & Hn2 & Hn3 & Hn4).
    { unfold ns'. destruct (Z.ltb_spec (fat_size g - FAT_CACHE_SIZE g) ns); split_and!; try lia.
      destruct (decide (es = ns)); [lia|]. assert (FAT_TYPE g = MFS_FAT12) as H12.
      { destruct (decide (FAT_TYPE g = MFS_FAT12)); [done|]. exfalso. apply n. unfold es, ns.
        rewrite Hend. destruct (FAT_TYPE g); congruence. }
      destruct Hk as [[_ ->]|[? _]]; [|done]. destruct (fo_cache12 g Hg H12); nia. }
    pose proof (mv_cache _ _ Hmv) as Hc1.
    destruct (read_window_run (Z.to_nat (FAT_CACHE_SIZE g)) 0 ns' s1)
      as (e2 & s2 & E2 & Hso & Hrb & Hcs2 & Hcd2 & Hl2 & Hby2 & Hi2 & _ & Hdat & Hrel2);
      try apply Hc1; try lia.
    rewrite (bind_run _ _ _ _ _ E2).
    assert (same_other s s2) as Hso2 by (eapply same_other_trans; [apply Hmv|done]).
    assert (outside_same s s2) as Hout2.
    { intros x Hx. rewrite Hi2. by apply (mv_outside _ _ Hmv). }
    destruct (Z.eqb_spec e2 MFS_NO_ERROR) as [He2|He2].
    + rewrite (bind_run _ _ _ _ _ eq_refl). eexists _, _. split; [done|].
      split; [|split_and!; [exact Hso2|exact Hout2|done]].
      intros _. assert (loaded (set_FAT ns' false (FAT_CACHE s2) s2)) as Hld by (split; simpl; lia).
      split; [|split; [done|unfold holds; simpl; nia]].
      eapply moves_trans; [done|]. apply moves_load; simpl; try done; try apply Hmv; try apply Hc1.
      * by apply Hcd.
      * intros j Hj. apply (Hdat He2). lia.
    + rewrite (bind_run _ _ _ _ _ eq_refl). exists e2, s2. split; [done|]. split; [done|].
      split_and!; [done|done|]. intros Hd. apply Hrel2. by apply (mv_reliable _ _ Hmv).
  - exists MFS_NO_ERROR, s. split; [done|]. split; [|done]. intros _. split; [by apply moves_refl|].
    apply orb_false_elim in Ewin as [E1 E2]. zreflect.
    destruct (co_start s Hc) as [[Hmx _]|Hl]; [unfold MAX_UINT_32 in Hmx; lia|].
    split; [done|]. destruct Hl as [Hl1 Hl2]. rewrite !wrap_small in E2 by (rewrite ?wrap_small; lia).
    unfold holds. nia.
Qed.

(** ** The bytes of an entry *)

Lemma lor_shiftl_add x y k : 0 <= k -> 0 <= x < 2 ^ k -> Z.lor x (Z.shiftl y k) = x + y * 2 ^ k.
Proof.
  intros Hk Hx. rewrite Z.shiftl_mul_pow2 by done. symmetry. rewrite Z.add_nocarry_lxor.
  - rewrite Z.lxor_lor; [done|]. apply Z.bits_inj'. intros n Hn. rewrite Z.land_spec, Z.bits_0.
    destruct (Z.lt_ge_cases n k).
    + rewrite Z.mul_pow2_bits_low by lia. apply andb_false_r.
    + destruct (decide (x = 0)) as [->|]; [by rewrite Z.bits_0|].
      rewrite (Z.bits_above_log2 x n); [done|lia|]. apply Z.lt_le_trans with k; [|done]. apply Z.log2_lt_pow2; lia.
  - apply Z.bits_inj'. intros n Hn. rewrite Z.land_spec, Z.bits_0.
    destruct (Z.lt_ge_cases n k).
    + rewrite Z.mul_pow2_bits_low by lia. apply andb_false_r.
    + destruct (decide (x = 0)) as [->|]; [by rewrite Z.bits_0|].
      rewrite (Z.bits_above_log2 x n); [done|lia|]. apply Z.lt_le_trans with k; [|done]. apply Z.log2_lt_pow2; lia.
Qed.

Lemma land_low x k : 0 <= k -> Z.land x (Z.ones k) = x mod 2 ^ k.
Proof. intros. by apply Z.land_ones. Qed.

Lemma land_15 x : Z.land x 15 = x mod 16.
Proof. exact (land_low x 4 ltac:(lia)). Qed.
Lemma land_255 x : Z.land x 255 = x mod 256.
Proof. exact (land_low x 8 ltac:(lia)). Qed.
Lemma land_28 x : Z.land x 268435455 = x mod 268435456.
Proof. exact (land_low x 28 ltac:(lia)). Qed.

(** The high half of a byte. *)
Lemma land_240 b : is_byte b -> Z.land b 240 = 16 * (b / 16).
Proof.
  intros Hb. assert (Z.lnot (2 ^ 4 - 1) = -16) as E by done.
  replace 240 with (Z.land (-16) (Z.ones 8)) by done.
  rewrite Z.land_assoc, land_low, <- E, land_lnot_low by lia. zdm.
Qed.

Lemma shiftr_div x k : 0 <= k -> Z.shiftr x k = x / 2 ^ k.
Proof. apply Z.shiftr_div_pow2. Qed.

Definition upd (f : Z -> Z) (p v : Z) : Z -> Z := fun i => if i =? p then v else f i.

(** A cache that [F] describes. *)
Definition stored (s s' : drive D) (F : Z -> Z) : Prop :=
  exists cache, s' = set_FAT (FAT_CACHE_START s) (FAT_CACHE_DIRTY s) cache s /\
    length cache = length (FAT_CACHE s) /\ Forall (fun b => is_byte b) cache /\
    forall i, 0 <= i -> byte cache i = F i.

Definition bytes_ok (s : drive D) : Prop := Forall (fun b => is_byte b) (FAT_CACHE s).

Lemma stored_refl s : bytes_ok s -> stored s s (byte (FAT_CACHE s)).
Proof. intros Hb. exists (FAT_CACHE s). split; [by destruct s|done]. Qed.

Lemma get_byte_run p s s' F :
  stored s s' F -> 0 <= p < zlen (FAT_CACHE s) -> get_byte p s' = Some (F p, s').
Proof.
  intros (cache & -> & Hl & _ & HF) Hp. unfold get_byte. rewrite (bind_run _ _ _ _ _ eq_refl). simpl.
  rewrite (proj2 (Z.leb_le 0 p)) by lia. unfold lift_opt. rewrite <- HF by lia.
  destruct (lookup_lt_is_Some_2 cache (Z.to_nat p)) as [b Hb]; [lia|]. rewrite Hb.
  unfold byte. by rewrite (nth_lookup_Some _ _ _ _ Hb).
Qed.

Lemma set_byte_run p b s s' F :
  stored s s' F -> 0 <= p < zlen (FAT_CACHE s) -> is_byte b ->
  exists s2, set_byte p b s' = Some (tt, s2) /\ stored s s2 (upd F p b).
Proof.
  intros (cache & -> & Hl & Hby & HF) Hp Hb. unfold set_byte. rewrite (bind_run _ _ _ _ _ eq_refl). simpl.
  rewrite (proj2 (Z.leb_le 0 p)), (proj2 (Z.ltb_lt p _)) by lia. simpl.
  eexists. split; [done|]. exists (<[Z.to_nat p := b]> cache). split; [done|].
  split; [by rewrite length_insert|]. split; [by apply Forall_insert|].
  intros i Hi. unfold upd, byte. destruct (Z.eqb_spec i p) as [->|].
  - apply nth_lookup_Some. apply list_lookup_insert_eq. lia.
  - rewrite !nth_lookup, list_lookup_insert_ne by lia. rewrite <- nth_lookup. by apply HF.
Qed.

Lemma stored_byte s s' F p : stored s s' F -> 0 <= p -> is_byte (F p).
Proof. intros (cache & _ & _ & Hb & HF) Hp. rewrite <- HF by done. by apply byte_is_byte. Qed.

(** Entries as numbers. *)
Definition raw_at (c o : Z) (b : Z -> Z) : Z :=
  match FAT_TYPE g with
  | MFS_FAT12 => if c mod 2 =? 0 then b o + 256 * (b (o + 1) mod 16) else b o / 16 + 16 * b (o + 1)
  | MFS_FAT16 => b o + 256 * b (o + 1)
  | MFS_FAT32 => b o + 256 * b (o + 1) + 65536 * b (o + 2) + 16777216 * b (o + 3)
  end.

Definition raw_entry (c : Z) (b : Z -> Z) : Z := raw_at c (offset_of g c) b.

(** What storing [code] over the entry [old] leaves. *)
Definition store_entry (old code : Z) : Z :=
  match FAT_TYPE g with
  | MFS_FAT12 => code mod 4096
  | MFS_FAT16 => code mod 65536
  | MFS_FAT32 => old / 268435456 * 268435456 + code mod 268435456
  end.

(** The bytes of entry [c] replaced by those of [code]. *)
Definition store_bytes (c code o : Z) (b : Z -> Z) : Z -> Z :=
  match FAT_TYPE g with
  | MFS_FAT12 =>
      if c mod 2 =? 0 then upd (upd b o (code mod 256)) (o + 1) (16 * (b (o + 1) / 16) + code / 256 mod 16)
      else upd (upd b o (b o mod 16 + 16 * (code mod 16))) (o + 1) (code / 16 mod 256)
  | MFS_FAT16 => upd (upd b (o + 1) (code / 256 mod 256)) o (code mod 256)
  | MFS_FAT32 =>
      upd (upd (upd (upd b (o + 3) (16 * (b (o + 3) / 16) + code / 16777216 mod 16))
                    (o + 2) (code / 65536 mod 256)) (o + 1) (code / 256 mod 256)) o (code mod 256)
  end.

Lemma land_1 c : Z.land c 1 = c mod 2.
Proof. exact (land_low c 1 ltac:(lia)). Qed.

Lemma lor_low a b : 0 <= b < 16 -> Z.lor (16 * a) b = 16 * a + b.
Proof.
  intros Hb. rewrite Z.lor_comm. pose proof (lor_shiftl_add b a 4 ltac:(lia) ltac:(lia)) as E.
  rewrite Z.shiftl_mul_pow2 in E by lia. replace (16 * a) with (a * 2 ^ 4) by lia. lia.
Qed.

Lemma lor_mul_add a b k : 0 <= k -> 0 <= b < 2 ^ k -> Z.lor (a * 2 ^ k) b = a * 2 ^ k + b.
Proof.
  intros Hk Hb. rewrite <- Z.shiftl_mul_pow2, Z.lor_comm, lor_shiftl_add by done.
  rewrite Z.shiftl_mul_pow2 by done. lia.
Qed.

Lemma le32 b0 b1 b2 b3 :
  is_byte b0 -> is_byte b1 -> is_byte b2 -> is_byte b3 ->
  Z.lor (Z.lor (Z.lor (Z.shiftl b3 24) (Z.shiftl b2 16)) (Z.shiftl b1 8)) b0
  = b0 + 256 * b1 + 65536 * b2 + 16777216 * b3.
Proof.
  intros. rewrite !Z.shiftl_mul_pow2 by lia. rewrite lor_mul_add by lia.
  replace (b3 * 2 ^ 24 + b2 * 2 ^ 16) with ((b3 * 2 ^ 8 + b2) * 2 ^ 16) by lia. rewrite lor_mul_add by lia.
  replace ((b3 * 2 ^ 8 + b2) * 2 ^ 16 + b1 * 2 ^ 8) with ((b3 * 2 ^ 16 + b2 * 2 ^ 8 + b1) * 2 ^ 8) by lia.
  rewrite lor_mul_add by lia. lia.
Qed.

Lemma lor_byte_hi x y : is_byte x -> Z.lor x (Z.shiftl y 8) = x + 256 * y.
Proof. intros. rewrite lor_shiftl_add by lia. lia. Qed.

Lemma lor_nibble_hi x y : 0 <= x < 16 -> Z.lor x (Z.shiftl y 4) = x + 16 * y.
Proof. intros. rewrite lor_shiftl_add by lia. lia. Qed.

(** Take the next byte of an entry. *)
Ltac get_step Hst :=
  erewrite bind_run; [|eapply get_byte_run; [exact Hst|lia]].

Lemma read_entry_run c p s s' F :
  stored s s' F -> 0 <= p -> p + width g <= zlen (FAT_CACHE s) ->
  (match FAT_TYPE g with
   | MFS_FAT12 => if Z.land c 1 =? 0 then ftoh0 p else ftoh1 p
   | MFS_FAT16 => mqx_dtohs p
   | MFS_FAT32 => mqx_dtohl p
   end) s' = Some (raw_at c p F, s').
Proof.
  intros Hst H0 Hlen. unfold raw_at, width in *.
  assert (forall i, 0 <= i -> is_byte (F i)) as Hb by (intros; by eapply stored_byte).
  destruct (FAT_TYPE g).
  - rewrite land_1. destruct (c mod 2 =? 0).
    + unfold ftoh0. do 2 get_step Hst. by rewrite lor_byte_hi, land_15 by auto.
    + unfold ftoh1. do 2 get_step Hst. rewrite land_240, shiftr_div by auto with lia.
      rewrite lor_nibble_hi; [|pose proof (Hb p H0); zdm]. unfold mret, M_ret. do 3 f_equal. zdm.
  - unfold mqx_dtohs. do 2 get_step Hst. by rewrite Z.lor_comm, lor_byte_hi by auto.
  - unfold mqx_dtohl. do 4 get_step Hst. rewrite le32 by auto with lia. done.
Qed.

(** Store the next byte of an entry. *)
Ltac set_step Hst H2 :=
  let s := fresh "s" in let E := fresh "E" in
  edestruct set_byte_run as (s & E & H2); [exact Hst| | |erewrite bind_run by exact E];
    [lia| |].

Lemma stored_ext s s' F G : (forall i, 0 <= i -> F i = G i) -> stored s s' F -> stored s s' G.
Proof.
  intros HFG (cache & E & Hl & Hb & HF). exists cache. split_and!; try done.
  intros i Hi. by rewrite HF, HFG.
Qed.

Lemma htof0_run p x s s' F :
  stored s s' F -> 0 <= p -> p + 2 <= zlen (FAT_CACHE s) ->
  exists s2, htof0 p x s' = Some (tt, s2) /\
    stored s s2 (upd (upd F p (x mod 256)) (p + 1) (16 * (F (p + 1) / 16) + x / 256 mod 16)).
Proof.
  intros Hst H0 Hlen. unfold htof0. change (w8 x) with (x mod 256).
  set_step Hst Hst1; [zdm|]. get_step Hst1.
  set (b1 := upd F p (x mod 256) (p + 1)). assert (b1 = F (p + 1)) as Hb1.
  { unfold b1, upd. by rewrite (proj2 (Z.eqb_neq _ _)) by lia. }
  rewrite Hb1. pose proof (stored_byte _ _ _ (p + 1) Hst ltac:(lia)). rewrite land_240 by done.
  set_step Hst1 Hst2; [zdm|]. get_step Hst2. rewrite land_15, shiftr_div by lia.
  unfold upd at 1. rewrite Z.eqb_refl. rewrite lor_low by zdm.
  edestruct set_byte_run as (s3 & E9 & Hst3); [exact Hst2| | |exists s3; split; [exact E9|]]; [lia| |].
  { unfold wrap. zdm. }
  eapply stored_ext, Hst3. intros i Hi. unfold upd. destruct (i =? p + 1); [|done].
  unfold wrap. zdm.
Qed.

Lemma htof1_run p x s s' F :
  stored s s' F -> 0 <= p -> p + 2 <= zlen (FAT_CACHE s) ->
  exists s2, htof1 p x s' = Some (tt, s2) /\
    stored s s2 (upd (upd F p (F p mod 16 + 16 * (x mod 16))) (p + 1) (x / 16 mod 256)).
Proof.
  intros Hst H0 Hlen. unfold htof1. get_step Hst. rewrite land_15.
  set_step Hst Hst1; [zdm|]. get_step Hst1. unfold upd at 1. rewrite Z.eqb_refl.
  assert (is_byte (w8 (Z.shiftl x 4))) as Hw by (apply wrap_range; lia).
  rewrite land_240 by done.
  assert (w8 (Z.shiftl x 4) / 16 = x mod 16) as E16.
  { unfold wrap. rewrite Z.shiftl_mul_pow2 by lia. zdm. }
  rewrite E16, Z.lor_comm, lor_low by zdm.
  set_step Hst1 Hst2; [zdm|].
  edestruct set_byte_run as (s3 & E9 & Hst3); [exact Hst2| | |exists s3; split; [exact E9|]]; [lia| |].
  { apply wrap_range. lia. }
  eapply stored_ext, Hst3. intros i Hi. unfold upd, wrap. rewrite shiftr_div by lia.
  destruct (i =? p + 1); [done|]. destruct (i =? p); [lia|done].
Qed.

Lemma htods_run p x s s' F :
  stored s s' F -> 0 <= p -> p + 2 <= zlen (FAT_CACHE s) ->
  exists s2, mqx_htods p x s' = Some (tt, s2) /\
    stored s s2 (upd (upd F (p + 1) (x / 256 mod 256)) p (x mod 256)).
Proof.
  intros Hst H0 Hlen. unfold mqx_htods. rewrite !land_255, shiftr_div by lia.
  set_step Hst Hst1; [zdm|].
  edestruct set_byte_run as (s3 & E9 & Hst3); [exact Hst1| | |exists s3; split; [exact E9|exact Hst3]]; [lia|zdm].
Qed.

Lemma htof32_run p x s s' F :
  stored s s' F -> 0 <= p -> p + 4 <= zlen (FAT_CACHE s) ->
  exists s2, htof32 p x s' = Some (tt, s2) /\
    stored s s2 (upd (upd (upd (upd F (p + 3) (16 * (F (p + 3) / 16) + x / 16777216 mod 16))
                      (p + 2) (x / 65536 mod 256)) (p + 1) (x / 256 mod 256)) p (x mod 256)).
Proof.
  intros Hst H0 Hlen. unfold htof32. get_step Hst.
  pose proof (stored_byte _ _ _ (p + 3) Hst ltac:(lia)).
  rewrite land_240, land_15, !shiftr_div, lor_low by (try done; zdm). unfold wrap.
  rewrite (Z.mod_small (16 * _ + _)) by zdm.
  set_step Hst Hst1; [zdm|]. set_step Hst1 Hst2; [zdm|]. set_step Hst2 Hst3; [zdm|].
  edestruct set_byte_run as (s4 & E9 & Hst4); [exact Hst3| | |exists s4; split; [exact E9|exact Hst4]]; [lia|zdm].
Qed.

Lemma exchange_run c p x s s' F :
  stored s s' F -> 0 <= p -> p + width g <= zlen (FAT_CACHE s) ->
  exists s2, exchange_entry g c p x s' = Some (raw_at c p F, s2) /\ stored s s2 (store_bytes c x p F).
Proof.
  intros Hst H0 Hlen. pose proof (read_entry_run c p s s' F Hst H0 Hlen) as Hrd.
  unfold exchange_entry, store_bytes, width in *. destruct (FAT_TYPE g).
  - rewrite land_1 in *. destruct (c mod 2 =? 0); rewrite (bind_run _ _ _ _ _ Hrd).
    + destruct (htof0_run p x s s' F Hst H0 Hlen) as (s2 & E & Hs). exists s2. by rewrite (bind_run _ _ _ _ _ E).
    + destruct (htof1_run p x s s' F Hst H0 Hlen) as (s2 & E & Hs). exists s2. by rewrite (bind_run _ _ _ _ _ E).
  - rewrite (bind_run _ _ _ _ _ Hrd).
    destruct (htods_run p x s s' F Hst H0 Hlen) as (s2 & E & Hs). exists s2. by rewrite (bind_run _ _ _ _ _ E).
  - rewrite (bind_run _ _ _ _ _ Hrd).
    destruct (htof32_run p x s s' F Hst H0 Hlen) as (s2 & E & Hs). exists s2. by rewrite (bind_run _ _ _ _ _ E).
Qed.

(** ** Entries do not overlap *)

(** The bytes an entry is read from. *)
Lemma raw_at_ext c o F G :
  (forall i, o <= i < o + width g -> F i = G i) -> raw_at c o F = raw_at c o G.
Proof.
  intros HFG. unfold raw_at, width in *.
  destruct (FAT_TYPE g); rewrite ?(HFG o), ?(HFG (o + 1)), ?(HFG (o + 2)), ?(HFG (o + 3)) by lia; done.
Qed.

Ltac upd_cases :=
  unfold upd;
  repeat match goal with |- context [?a =? ?b] => destruct (Z.eqb_spec a b); try lia end.

Lemma store_same c code F :
  0 <= c -> 0 <= code -> (forall i, is_byte (F i)) ->
  raw_entry c (store_bytes c code (offset_of g c) F) = store_entry (raw_entry c F) code.
Proof.
  intros Hc Hcode HF. unfold raw_entry, raw_at, store_bytes, store_entry.
  generalize (offset_of g c). intros o.
  pose proof (HF o). pose proof (HF (o + 1)). pose proof (HF (o + 2)). pose proof (HF (o + 3)).
  destruct (FAT_TYPE g).
  - destruct (c mod 2 =? 0); upd_cases; zdm.
  - upd_cases; zdm.
  - upd_cases; zdm.
Qed.

Lemma store_other c c' code F :
  0 <= c -> 0 <= c' -> c <> c' -> 0 <= code -> (forall i, is_byte (F i)) ->
  raw_entry c' (store_bytes c code (offset_of g c) F) = raw_entry c' F.
Proof.
  intros Hc Hc' Hne Hcode HF. unfold raw_entry, raw_at, store_bytes, offset_of.
  destruct (FAT_TYPE g).
  - pose proof (HF (c + c / 2)). pose proof (HF (c + c / 2 + 1)).
    destruct (Z.eqb_spec (c mod 2) 0), (Z.eqb_spec (c' mod 2) 0).
    + upd_cases; zdm.
    + upd_cases; try zdm. replace (c' + c' / 2) with (c + c / 2 + 1) by zdm. zdm.
    + upd_cases; try zdm. replace (c' + c' / 2 + 1) with (c + c / 2) by zdm. zdm.
    + upd_cases; zdm.
  - upd_cases; done.
  - upd_cases; done.
Qed.

(** ** The FAT as a function from clusters to links *)

Definition valid (c : Z) : Prop := 2 <= c <= LAST_CLUSTER g.

Definition raw (s : drive D) (c : Z) : Z := raw_entry c (fatb s).

(** The link that an entry stands for. *)
Definition norm (v : Z) : Z := if entry_max g <=? v then CLUSTER_EOF else v.
Definition links (s : drive D) (c : Z) : Z := norm (raw s c).

(** The clusters of the drive, and the free ones. *)
Definition all_clusters : list Z := seqZ 2 (LAST_CLUSTER g - 1).
Definition is_free (s : drive D) (c : Z) : Prop := links s c = 0.

#[local] Instance is_free_dec s c : Decision (is_free s c).
Proof. unfold is_free. apply _. Defined.

Definition free_list (s : drive D) : list Z := filter (is_free s) all_clusters.
Definition free_clusters (s : drive D) : Z := zlen (free_list s).

Record fat_inv (s : drive D) : Prop := {
  fi_cache : cache_ok s;
  fi_mirror : mirrored s;
  fi_clean : forall c, valid c -> raw s c < 2 ^ 28;
  fi_free : FREE_COUNT s = FSI_UNKNOWN \/ FREE_COUNT s = free_clusters s;
}.

Lemma fat_small : fat_size g * SS < 2 ^ 31.
Proof.
  pose proof (ok_cap g (fo_geometry g Hg)). pose proof (fo_room g Hg). pose proof (fo_copies g Hg).
  pose proof (fo_start g Hg). pose proof (fo_cache g Hg). pose proof ss_pos.
  assert (fat_size g <= NUMBER_OF_FAT g * fat_size g) by nia. nia.
Qed.

Lemma valid_offset c : valid c -> in_fat (offset_of g c) (width g) /\ entry_offset g c = offset_of g c.
Proof.
  intros [H2 Hl]. pose proof (fo_entries g Hg) as He. pose proof fat_small as Hf.
  assert (offset_of g c + width g <= fat_size g * SS /\ 0 <= offset_of g c) as [Ho H0].
  { unfold offset_of, width in *. destruct (FAT_TYPE g); try lia. split; zdm. }
  split.
  - split; [done|]. split; [done|]. unfold offset_of, width. destruct (FAT_TYPE g); [by left|right..].
    + split; [done|]. split; [|lia]. rewrite Z.mul_comm. apply Z.mod_mul. lia.
    + split; [done|]. split; [|lia]. rewrite Z.mul_comm. apply Z.mod_mul. lia.
  - unfold entry_offset, offset_of, width in *.
    destruct (FAT_TYPE g); rewrite ?Z.shiftl_mul_pow2, ?shiftr_div by lia.
    + change (2 ^ 1) with 2. apply wrap_small. lia.
    + rewrite wrap_small by lia. lia.
    + rewrite wrap_small by lia. lia.
Qed.

Lemma raw_at_shift c p k F G :
  (forall i, p <= i < p + width g -> F i = G (i + k)) -> raw_at c p F = raw_at c (p + k) G.
Proof.
  intros HFG. unfold raw_at, width in *.
  assert (forall j, p + j + k = p + k + j) as Hj by lia.
  destruct (FAT_TYPE g); rewrite ?(HFG p), ?(HFG (p + 1)), ?(HFG (p + 2)), ?(HFG (p + 3)), ?Hj by lia; done.
Qed.

Lemma fatb_byte s x : cache_ok s -> is_byte (fatb s x).
Proof.
  intros Hc. unfold fatb. case_match; [apply byte_is_byte, Hc|apply img_byte].
Qed.

Lemma raw_nonneg s c : cache_ok s -> 0 <= raw s c.
Proof.
  intros Hc. unfold raw, raw_entry, raw_at.
  pose proof (fatb_byte s (offset_of g c) Hc). pose proof (fatb_byte s (offset_of g c + 1) Hc).
  pose proof (fatb_byte s (offset_of g c + 2) Hc). pose proof (fatb_byte s (offset_of g c + 3) Hc).
  destruct (FAT_TYPE g); [destruct (c mod 2 =? 0); zdm|lia..].
Qed.

Lemma norm_zero v : norm v = 0 <-> v = 0.
Proof.
  unfold norm. assert (0 < entry_max g) by (unfold entry_max; by destruct (FAT_TYPE g)).
  destruct (Z.leb_spec (entry_max g) v); unfold CLUSTER_EOF; lia.
Qed.

Lemma moves_raw s s' c : moves s s' -> valid c -> raw s' c = raw s c.
Proof.
  intros Hm Hv. destruct (valid_offset c Hv) as [(H0 & H1 & _) _]. unfold raw, raw_entry.
  apply raw_at_ext. intros i Hi. apply (mv_fatb _ _ Hm). lia.
Qed.

Lemma moves_links s s' c : moves s s' -> valid c -> links s' c = links s c.
Proof. intros Hm Hv. unfold links. by rewrite (moves_raw _ _ _ Hm Hv). Qed.

Lemma elem_of_clusters c : c ∈ all_clusters <-> valid c.
Proof. unfold all_clusters, valid. rewrite elem_of_seqZ. lia. Qed.

Lemma filter_links_ext s s' (l : list Z) :
  (forall c, c ∈ l -> links s' c = links s c) -> filter (is_free s') l = filter (is_free s) l.
Proof.
  intros Hl. apply filter_ext_in. intros c Hc. unfold is_free. by rewrite Hl.
Qed.

Lemma free_list_ext s s' :
  (forall c, valid c -> links s' c = links s c) -> free_list s' = free_list s.
Proof. intros Hl. apply filter_links_ext. intros c Hc. by apply Hl, elem_of_clusters. Qed.

Lemma moves_inv s s' : fat_inv s -> moves s s' -> fat_inv s'.
Proof.
  intros [? ? Hcl Hfr] Hm. constructor; [apply Hm|apply Hm| |].
  - intros c Hv. rewrite (moves_raw _ _ _ Hm Hv). by apply Hcl.
  - destruct (mv_other _ _ Hm) as (_ & _ & _ & _ & _ & _ & -> & _).
    unfold free_clusters. rewrite (free_list_ext s s'); [done|]. intros c Hv. by apply moves_links.
Qed.

(** The cached bytes of an access that the window holds. *)
Lemma holds_byte s o w i :
  cache_ok s -> loaded s -> holds s o w -> o <= i < o + w ->
  byte (FAT_CACHE s) (i - FAT_CACHE_START s * SS) = fatb s i.
Proof.
  intros Hc Hl [H1 H2] Hi. unfold fatb. rewrite in_range_true; [done|]. lia.
Qed.

Lemma get_run c s :
  fat_inv s -> valid c ->
  exists e v s', MFS_get_cluster_from_fat g c s = Some ((e, v), s') /\
    (e = MFS_NO_ERROR -> v = links s c /\ moves s s') /\
    same_other s s' /\ outside_same s s' /\
    (dev_reliable g s -> e = MFS_NO_ERROR).
Proof.
  intros Hinv Hv. destruct (valid_offset c Hv) as [Hin Heo]. pose proof Hv as [Hv1 Hv2].
  unfold MFS_get_cluster_from_fat, CLUSTER_MIN_GOOD.
  rewrite (proj2 (Z.ltb_ge _ _)), (proj2 (Z.ltb_ge c 2)) by lia. rewrite Heo.
  destruct (read_fat_run _ _ s (fi_cache s Hinv) (fi_mirror s Hinv) Hin) as (e & s1 & E & Hok & Hso & Hout & Hrel).
  rewrite (bind_run _ _ _ _ _ E).
  destruct (Z.eqb_spec e MFS_NO_ERROR) as [He|He]; simpl.
  2: { exists e, CLUSTER_EOF, s1. split; [done|]. split; [done|]. done. }
  destruct (Hok He) as (Hmv & Hl & Hh). pose proof (mv_cache _ _ Hmv) as Hc1.
  unfold fat_ptr. rewrite (bind_run _ _ _ _ _ eq_refl).
  set (p := offset_of g c - FAT_CACHE_START s1 * SS).
  assert (0 <= p /\ p + width g <= zlen (FAT_CACHE s1)) as [Hp1 Hp2].
  { rewrite (co_len _ Hc1). destruct Hh. unfold p. lia. }
  pose proof (read_entry_run c p s1 s1 _ (stored_refl s1 (co_bytes _ Hc1)) Hp1 Hp2) as Hrd.
  assert (raw_at c p (byte (FAT_CACHE s1)) = raw s c) as Hraw.
  { rewrite <- (moves_raw _ _ c Hmv Hv). unfold raw, raw_entry.
    replace (offset_of g c) with (p + FAT_CACHE_START s1 * SS) by (unfold p; lia).
    apply raw_at_shift. intros i Hi.
    rewrite <- (holds_byte s1 (offset_of g c) (width g)); [f_equal; lia|done..|unfold p in *; lia]. }
  rewrite Hraw in Hrd.
  assert (Z.land (norm (raw s c)) 268435455 = links s c) as Hland.
  { rewrite land_28. unfold links, norm. pose proof (fi_clean s Hinv c Hv). pose proof (raw_nonneg s c (fi_cache s Hinv)).
    destruct (Z.leb_spec (entry_max g) (raw s c)); [done|]. apply Z.mod_small. lia. }
  exists e, (links s c), s1. split; [|split; [done|done]].
  unfold norm, entry_max in Hland. rewrite He. destruct (FAT_TYPE g).
  all: rewrite (bind_run _ _ s1 _ s1 (bind_run _ _ _ _ _ Hrd)); cbn beta.
  all: by rewrite Hland.
Qed.

(** ** Storing an entry *)

Lemma count_update (P Q : Z -> Prop) `{forall x, Decision (P x)} `{forall x, Decision (Q x)} c l :
  NoDup l -> c ∈ l -> (forall x, x ∈ l -> x <> c -> P x <-> Q x) ->
  zlen (filter Q l) = zlen (filter P l) + (if decide (Q c) then 1 else 0) - (if decide (P c) then 1 else 0).
Proof.
  induction l as [|x l IH]; intros Hnd Hc HPQ; [set_solver|].
  apply NoDup_cons in Hnd as [Hx Hnd]. rewrite !filter_cons.
  destruct (decide (x = c)) as [->|Hne].
  - assert (filter Q l = filter P l) as ->.
    { symmetry. apply filter_ext_in. set_solver. }
    do 2 case_decide; simpl; lia.
  - assert (c ∈ l) as Hcl by set_solver.
    specialize (IH Hnd Hcl ltac:(set_solver)). assert (P x <-> Q x) by (apply HPQ; set_solver).
    destruct (decide (P x)), (decide (Q x)); try tauto; simpl length; lia.
Qed.

Lemma free_clusters_le s : 0 <= free_clusters s <= LAST_CLUSTER g - 1.
Proof.
  unfold free_clusters, free_list. pose proof (length_filter (is_free s) all_clusters) as Hf.
  unfold all_clusters in Hf at 2. rewrite length_seqZ in Hf. pose proof (fo_last g Hg). lia.
Qed.

Lemma free_clusters_bound s : 0 <= free_clusters s < 2 ^ 28.
Proof.
  pose proof (free_clusters_le s). pose proof (fo_last g Hg).
  assert (entry_max g <= 2 ^ 28) by (unfold entry_max; by destruct (FAT_TYPE g)). lia.
Qed.

Lemma free_update s s' c v :
  valid c -> (forall c', valid c' -> links s' c' = if c' =? c then v else links s c') ->
  free_clusters s' = free_clusters s + (if v =? 0 then 1 else 0) - (if links s c =? 0 then 1 else 0).
Proof.
  intros Hv Hl. unfold free_clusters, free_list.
  rewrite (count_update (is_free s) (is_free s') c).
  - pose proof (Hl c Hv) as Hlc. rewrite Z.eqb_refl in Hlc.
    destruct (decide (is_free s' c)), (decide (is_free s c)), (Z.eqb_spec v 0), (Z.eqb_spec (links s c) 0);
      unfold is_free in *; lia.
  - apply NoDup_seqZ.
  - by apply elem_of_clusters.
  - intros x Hx Hne. apply elem_of_clusters in Hx. unfold is_free. rewrite Hl by done.
    by rewrite (proj2 (Z.eqb_neq x c)) by done.
Qed.

(** Codes that an entry can hold: clusters, reserved values below the
    terminators, and [CLUSTER_EOF]. *)
Definition code_ok (code : Z) : Prop := 0 <= code < entry_max g \/ code = CLUSTER_EOF.

Lemma store_link old code :
  code_ok code -> 0 <= old < 2 ^ 28 ->
  norm (store_entry old code) = code /\ 0 <= store_entry old code < 2 ^ 28.
Proof.
  intros Hcode Hold. unfold norm, store_entry, code_ok, entry_max, CLUSTER_MAX_12, CLUSTER_MAX_16,
    CLUSTER_MAX_32, CLUSTER_EOF in *.
  destruct (FAT_TYPE g).
  - destruct Hcode as [Hcode| ->]; [|done]. rewrite Z.mod_small by lia.
    rewrite (proj2 (Z.leb_gt _ _)) by lia. lia.
  - destruct Hcode as [Hcode| ->]; [|done]. rewrite Z.mod_small by lia.
    rewrite (proj2 (Z.leb_gt _ _)) by lia. lia.
  - rewrite (Z.div_small old) by lia.
    destruct Hcode as [Hcode| ->]; [|done]. rewrite Z.mod_small by lia.
    rewrite (proj2 (Z.leb_gt _ _)) by lia. lia.
Qed.

(** Outside of its entry, storing changes no byte. *)
Lemma store_bytes_shift c x p k F G i :
  (forall i, p <= i < p + width g -> F i = G (i + k)) -> p <= i < p + width g ->
  store_bytes c x p F i = store_bytes c x (p + k) G (i + k).
Proof.
  intros HFG Hi. unfold store_bytes, width in *.
  assert (forall j, p + j + k = p + k + j) as Hj by lia.
  destruct (FAT_TYPE g); [destruct (c mod 2 =? 0)|..];
    rewrite ?(HFG p), ?(HFG (p + 1)), ?(HFG (p + 2)), ?(HFG (p + 3)), ?Hj by lia; upd_cases; done.
Qed.

Lemma store_bytes_out c x p F i :
  ~ (p <= i < p + width g) -> store_bytes c x p F i = F i.
Proof.
  intros Hi. unfold store_bytes, width in *.
  destruct (FAT_TYPE g); [destruct (c mod 2 =? 0)|..]; upd_cases; done.
Qed.

(** The FAT after its cached bytes changed in one entry. *)
Lemma store_fatb s s2 c code :
  cache_ok s -> loaded s -> holds s (offset_of g c) (width g) -> valid c ->
  let p := offset_of g c - FAT_CACHE_START s * SS in
  stored s s2 (store_bytes c code p (byte (FAT_CACHE s))) ->
  forall x, 0 <= x < fat_size g * SS ->
    fatb s2 x = store_bytes c code (offset_of g c) (fatb s) x.
Proof.
  intros Hc Hl Hh Hv p (cache & -> & Hlen & Hby & HF) x Hx. pose proof Hh as [Hh1 Hh2].
  unfold fatb at 1. simpl.
  assert (forall i, p <= i < p + width g -> byte (FAT_CACHE s) i = fatb s (i + FAT_CACHE_START s * SS)) as Hpb.
  { intros i Hi. rewrite <- (holds_byte s (offset_of g c) (width g)); [f_equal; lia|done..|unfold p in *; lia]. }
  destruct (in_range_spec (FAT_CACHE_START s * SS) (FAT_CACHE_SIZE g * SS) x) as [[Hi Hr]|[Hi Hr]]; rewrite Hi.
  - rewrite HF by lia.
    destruct (decide (p <= x - FAT_CACHE_START s * SS < p + width g)) as [Hp|Hp].
    + rewrite (store_bytes_shift c code p (FAT_CACHE_START s * SS) _ (fatb s) _ Hpb Hp).
      f_equal; [unfold p; lia|lia].
    + rewrite !store_bytes_out by (unfold p in Hp; lia). unfold fatb. by rewrite Hi.
  - rewrite store_bytes_out by lia. unfold fatb. by rewrite Hi.
Qed.

(** Everything but the FAT, its cache and the free count. *)
Definition same_meta (s s' : drive D) : Prop :=
  DIR_SECTOR_DIRTY s' = DIR_SECTOR_DIRTY s /\ DIR_SECTOR_NUMBER s' = DIR_SECTOR_NUMBER s /\
  DIR_SECTOR s' = DIR_SECTOR s /\ DATA_SECTOR_DIRTY s' = DATA_SECTOR_DIRTY s /\
  DATA_SECTOR_NUMBER s' = DATA_SECTOR_NUMBER s /\ DATA_SECTOR s' = DATA_SECTOR s /\
  NEXT_FREE_CLUSTER s' = NEXT_FREE_CLUSTER s.

Lemma same_other_meta (s s' : drive D) : same_other s s' -> same_meta s s'.
Proof. unfold same_other, same_meta. tauto. Qed.

Record stores (c code : Z) (s s' : drive D) : Prop := {
  st_inv : fat_inv s';
  st_links : forall c', valid c' -> links s' c' = if c' =? c then code else links s c';
  st_known : FREE_COUNT s = FSI_UNKNOWN <-> FREE_COUNT s' = FSI_UNKNOWN;
  st_meta : same_meta s s';
  st_outside : outside_same s s';
  st_reliable : dev_reliable g s -> dev_reliable g s';
}.

(** The drive with an entry stored in the cache, before the free count. *)
Lemma stored_inv s s2 c code :
  cache_ok s -> mirrored s -> loaded s -> FAT_CACHE_DIRTY s = true ->
  holds s (offset_of g c) (width g) -> valid c ->
  stored s s2 (store_bytes c code (offset_of g c - FAT_CACHE_START s * SS) (byte (FAT_CACHE s))) ->
  cache_ok s2 /\ mirrored s2.
Proof.
  intros Hc Hm Hl Hd Hh Hv (cache & -> & Hlen & Hby & HF). split.
  - constructor; simpl; try done; try apply Hc.
    + rewrite Hlen. apply Hc.
    + congruence.
  - intros f x Hf Hx Hdx. simpl in *. by apply Hm.
Qed.

Lemma count_run code prev (s : drive D) :
  FREE_COUNT s = FSI_UNKNOWN \/ 0 <= FREE_COUNT s < 2 ^ 28 ->
  (FREE_COUNT s <> FSI_UNKNOWN -> code <> 0 -> prev = 0 -> 0 < FREE_COUNT s) ->
  exists s', (if (code =? CLUSTER_UNUSED) && negb (prev =? CLUSTER_UNUSED)
              then MFS_Increment_free_clusters g
              else if negb (code =? CLUSTER_UNUSED) && (prev =? CLUSTER_UNUSED)
              then MFS_Decrement_free_clusters g
              else mret tt) s = Some (tt, s') /\
    s' = set_FREE (if FREE_COUNT s =? FSI_UNKNOWN then FSI_UNKNOWN
                   else FREE_COUNT s + (if code =? 0 then 1 else 0) - (if prev =? 0 then 1 else 0)) s.
Proof.
  intros Hf Hpos. unfold MFS_Increment_free_clusters, MFS_Decrement_free_clusters, MFS_is_read_only, CLUSTER_UNUSED.
  rewrite (fo_writable g Hg).
  destruct (Z.eqb_spec code 0) as [->|Hc], (Z.eqb_spec prev 0) as [->|Hp]; simpl.
  - exists s. split; [done|]. destruct s; unfold set_FREE; simpl in *. f_equal.
    destruct (Z.eqb_spec FREE_COUNT0 FSI_UNKNOWN); lia.
  - rewrite (bind_run _ _ s s s) by done. destruct (Z.eqb_spec (FREE_COUNT s) FSI_UNKNOWN) as [E|E]; simpl.
    + exists s. split; [done|]. destruct s; unfold set_FREE; simpl in *. by f_equal.
    + eexists. split; [done|]. unfold modify. rewrite wrap_small by lia. f_equal. lia.
  - rewrite (bind_run _ _ s s s) by done. destruct (Z.eqb_spec (FREE_COUNT s) FSI_UNKNOWN) as [E|E]; simpl.
    + exists s. split; [done|]. destruct s; unfold set_FREE; simpl in *. by f_equal.
    + eexists. split; [done|]. specialize (Hpos E Hc eq_refl). rewrite wrap_small by lia. f_equal. lia.
  - exists s. split; [done|]. destruct s; unfold set_FREE; simpl in *. f_equal.
    destruct (Z.eqb_spec FREE_COUNT0 FSI_UNKNOWN); lia.
Qed.

Lemma put_run c code s :
  fat_inv s -> valid c -> code_ok code ->
  exists e s', MFS_Put_fat g c code s = Some (e, s') /\
    (e = MFS_NO_ERROR -> stores c code s s') /\
    same_meta s s' /\ outside_same s s' /\ (dev_reliable g s -> e = MFS_NO_ERROR).
Proof.
  intros Hinv Hv Hcode. destruct (valid_offset c Hv) as [Hin Heo]. pose proof Hv as [Hv1 Hv2].
  unfold MFS_Put_fat, MFS_is_read_only, CLUSTER_MIN_GOOD. rewrite (fo_writable g Hg).
  rewrite (proj2 (Z.ltb_ge _ _)), (proj2 (Z.ltb_ge c 2)) by lia. rewrite Heo.
  destruct (read_fat_run _ _ s (fi_cache s Hinv) (fi_mirror s Hinv) Hin) as (e & s1 & E & Hok & Hso & Hout & Hrel).
  rewrite (bind_run _ _ _ _ _ E).
  destruct (Z.eqb_spec e 0) as [He|He]; simpl.
  2: { exists e, s1. split; [done|]. split; [done|]. split; [by apply same_other_meta|done]. }
  destruct (Hok He) as (Hmv & Hl & Hh). pose proof (mv_cache _ _ Hmv) as Hc1.
  unfold fat_ptr. rewrite (bind_run _ _ _ _ _ eq_refl).
  rewrite (bind_run _ _ _ _ _ eq_refl).
  set (p := offset_of g c - FAT_CACHE_START s1 * SS).
  set (s1d := set_FAT (FAT_CACHE_START s1) true (FAT_CACHE s1) s1).
  assert (cache_ok s1d) as Hc1d.
  { constructor; simpl; try apply Hc1; [by right|congruence]. }
  assert (mirrored s1d) as Hm1d.
  { intros f x Hf Hx Hdx. simpl. apply (mv_mirror _ _ Hmv); [done..|]. intros _. by apply Hdx. }
  assert (0 <= p /\ p + width g <= zlen (FAT_CACHE s1d)) as [Hp1 Hp2].
  { simpl. rewrite (co_len _ Hc1). destruct Hh. unfold p. lia. }
  destruct (exchange_run c p code s1d s1d _ (stored_refl s1d (co_bytes _ Hc1d)) Hp1 Hp2) as (s2 & E2 & Hst).
  rewrite (bind_run _ _ _ _ _ E2).
  assert (raw_at c p (byte (FAT_CACHE s1d)) = raw s c) as Hraw.
  { rewrite <- (moves_raw _ _ c Hmv Hv). unfold raw, raw_entry.
    replace (offset_of g c) with (p + FAT_CACHE_START s1 * SS) by (unfold p; lia).
    apply raw_at_shift. intros i Hi. simpl.
    rewrite <- (holds_byte s1 (offset_of g c) (width g)); [f_equal; lia|done..|unfold p in *; lia]. }
  rewrite Hraw.
  pose proof (store_fatb s1d s2 c code Hc1d Hl Hh Hv Hst) as Hfb.
  destruct (stored_inv s1d s2 c code Hc1d Hm1d Hl eq_refl Hh Hv Hst) as [Hc2 Hm2].
  destruct Hst as (cache & Hs2 & _).
  (* entries *)
  assert (0 <= code) as Hcode0 by (destruct Hcode as [?| ->]; [lia|done]).
  pose proof (raw_nonneg s c (fi_cache s Hinv)) as Hr0. pose proof (fi_clean s Hinv c Hv) as Hr1.
  assert (forall x, 0 <= x < fat_size g * SS -> fatb s1d x = fatb s x) as Hf1.
  { intros x Hx. exact (mv_fatb _ _ Hmv x Hx). }
  assert (forall c', valid c' -> raw s2 c' = if c' =? c then store_entry (raw s c) code else raw s c') as Hraw2.
  { intros c' Hv'. destruct (valid_offset c' Hv') as [(Ho1 & Ho2 & _) _].
    assert (raw s2 c' = raw_entry c' (store_bytes c code (offset_of g c) (fatb s1d))) as ->.
    { unfold raw, raw_entry. apply raw_at_ext. intros i Hi. apply Hfb. lia. }
    assert (forall d, valid d -> raw_entry d (fatb s1d) = raw s d) as Hd.
    { intros d Hd. destruct (valid_offset d Hd) as [(? & ? & _) _]. apply raw_at_ext. intros i Hi. apply Hf1. lia. }
    destruct (Z.eqb_spec c' c) as [->|Hne].
    - rewrite store_same, Hd by (try done; try lia; intros; by apply fatb_byte). done.
    - destruct Hv'. rewrite store_other, Hd by (try done; try lia; intros; by apply fatb_byte). done. }
  destruct (store_link (raw s c) code Hcode ltac:(lia)) as [Hlk Hlr].
  assert (forall c', valid c' -> links s2 c' = if c' =? c then code else links s c') as Hlinks.
  { intros c' Hv'. unfold links. rewrite Hraw2 by done. by destruct (c' =? c). }
  (* the free count *)
  destruct (mv_other _ _ Hmv) as (O1 & O2 & O3 & O4 & O5 & O6 & O7 & O8).
  assert (FREE_COUNT s2 = FREE_COUNT s) as Hfc by (rewrite Hs2; exact O7).
  pose proof (free_clusters_bound s) as Hfb0. pose proof (free_clusters_bound s2) as Hfb2.
  pose proof (free_update s s2 c code Hv Hlinks) as Hfu.
  assert (links s c = 0 <-> raw s c = 0) as Hzero by apply norm_zero.
  assert ((if links s c =? 0 then 1 else 0) = (if raw s c =? 0 then 1 else 0)) as Hifz.
  { destruct (Z.eqb_spec (links s c) 0), (Z.eqb_spec (raw s c) 0); tauto || lia. }
  destruct (count_run code (raw s c) s2) as (s3 & E3 & Hs3).
  { rewrite Hfc. destruct (fi_free s Hinv) as [->| ->]; [by left|right; lia]. }
  { rewrite Hfc. intros Hk Hcn Hrz. destruct (fi_free s Hinv) as [?|Hfr]; [done|]. rewrite Hfr.
    rewrite (proj2 (Z.eqb_neq code 0)), Hifz, Hrz in Hfu by done. simpl in Hfu. lia. }
  rewrite (bind_run _ _ _ _ _ E3). exists e, s3. split; [done|].
  assert (same_meta s s3) as Hmeta by (rewrite Hs3, Hs2; by split_and!).
  assert (outside_same s s3) as Hout3.
  { intros x Hx. rewrite Hs3, Hs2. simpl. by apply (mv_outside _ _ Hmv). }
  split; [|split_and!; [exact Hmeta|exact Hout3|done]]. intros _.
  assert (forall c', links s3 c' = links s2 c') as Hl3 by (intros c'; by rewrite Hs3).
  constructor; try done.
  - rewrite Hs3. constructor; try apply Hc2; try done.
    + constructor; simpl; apply Hc2.
    + intros c' Hv'. change (raw s2 c' < 2 ^ 28). rewrite Hraw2 by done.
      destruct (c' =? c); [lia|by apply Hinv].
    + simpl. rewrite Hfc. destruct (fi_free s Hinv) as [->|Hfr]; [by left|right].
      rewrite (proj2 (Z.eqb_neq _ _)) by (unfold FSI_UNKNOWN; lia). 
      change (free_clusters (set_FREE _ s2)) with (free_clusters s2). lia.
  - intros c' Hv'. rewrite Hl3. by apply Hlinks.
  - rewrite Hs3. simpl. rewrite Hfc. destruct (fi_free s Hinv) as [->|Hfr]; [done|].
    assert (FREE_COUNT s <> FSI_UNKNOWN) by (unfold FSI_UNKNOWN; lia).
    rewrite (proj2 (Z.eqb_neq _ _)) by done. split; [done|]. unfold FSI_UNKNOWN. lia.
  - intros Hd. rewrite Hs3, Hs2. unfold dev_reliable. simpl. by apply (mv_reliable _ _ Hmv).
Qed.

(** ** Counting and searching *)

(** An operation that leaves every link and the free count as they were. *)
Record keeps (s s' : drive D) : Prop := {
  kp_inv : fat_inv s';
  kp_links : forall c, valid c -> links s' c = links s c;
  kp_count : FREE_COUNT s' = FREE_COUNT s;
  kp_data : DATA_SECTOR_DIRTY s' = DATA_SECTOR_DIRTY s /\ DATA_SECTOR_NUMBER s' = DATA_SECTOR_NUMBER s;
  kp_outside : outside_same s s';
  kp_reliable : dev_reliable g s -> dev_reliable g s';
}.

Lemma keeps_refl s : fat_inv s -> keeps s s.
Proof. by constructor. Qed.

Lemma keeps_trans s1 s2 s3 : keeps s1 s2 -> keeps s2 s3 -> keeps s1 s3.
Proof.
  intros [I1 L1 C1 [A1 B1] O1 R1] [I2 L2 C2 [A2 B2] O2 R2]. constructor; try done.
  - intros c Hv. by rewrite L2, L1.
  - congruence.
  - split; congruence.
  - intros x Hx. by rewrite O2, O1.
  - auto.
Qed.

Lemma moves_keeps s s' : fat_inv s -> moves s s' -> keeps s s'.
Proof.
  intros Hi Hm. constructor.
  - by eapply moves_inv.
  - intros c Hv. by apply moves_links.
  - apply (mv_other _ _ Hm).
  - split; apply (mv_other _ _ Hm).
  - apply Hm.
  - apply Hm.
Qed.

(** Reading an entry on a device that works. *)
Lemma get_ok c s :
  fat_inv s -> dev_reliable g s -> valid c ->
  exists s', MFS_get_cluster_from_fat g c s = Some ((MFS_NO_ERROR, links s c), s') /\ keeps s s' /\ moves s s'.
Proof.
  intros Hi Hd Hv. destruct (get_run c s Hi Hv) as (e & v & s' & E & Hok & _ & _ & Hrel).
  specialize (Hrel Hd) as ->. destruct (Hok eq_refl) as [-> Hm].
  exists s'. split; [done|]. split; [by apply moves_keeps|done].
Qed.

Lemma put_ok c code s :
  fat_inv s -> dev_reliable g s -> valid c -> code_ok code ->
  exists s', MFS_Put_fat g c code s = Some (MFS_NO_ERROR, s') /\ stores c code s s'.
Proof.
  intros Hi Hd Hv Hc. destruct (put_run c code s Hi Hv Hc) as (e & s' & E & Hok & _ & _ & Hrel).
  specialize (Hrel Hd) as ->. exists s'. split; [done|]. by apply Hok.
Qed.

Lemma keeps_known s s' : keeps s s' -> (FREE_COUNT s = FSI_UNKNOWN <-> FREE_COUNT s' = FSI_UNKNOWN).
Proof. intros Hk. by rewrite (kp_count _ _ Hk). Qed.

(** Setting fields that the FAT does not depend on. *)
Lemma inv_next s n : fat_inv s -> fat_inv (set_NEXT_FREE n s).
Proof. intros [Hc Hm Hcl Hf]. constructor; try done. destruct Hc. by constructor. Qed.

Lemma seqZ_S c n : seqZ c (Z.of_nat (S n)) = c :: seqZ (c + 1) (Z.of_nat n).
Proof. rewrite seqZ_cons by lia. f_equal. f_equal; lia. Qed.

Lemma find_loop_run n c s :
  fat_inv s -> dev_reliable g s -> 2 <= c -> c + Z.of_nat n <= LAST_CLUSTER g + 1 ->
  exists s', find_loop g n c s = Some (head (filter (is_free s) (seqZ c (Z.of_nat n))), s') /\ keeps s s'.
Proof.
  revert c s. induction n as [|n IH]; intros c s Hi Hd Hc Hn.
  { exists s. split; [by rewrite seqZ_nil by lia|by apply keeps_refl]. }
  assert (valid c) as Hv by (unfold valid; lia).
  destruct (get_ok c s Hi Hd Hv) as (s1 & E & Hk & _). simpl find_loop. rewrite (bind_run _ _ _ _ _ E).
  rewrite seqZ_S, filter_cons. simpl. unfold CLUSTER_UNUSED.
  destruct (Z.eqb_spec (links s c) 0) as [H0|H0].
  - rewrite decide_True by done. exists (set_NEXT_FREE c s1). split; [done|].
    destruct Hk. constructor; try done. by apply inv_next.
  - rewrite decide_False by done.
    destruct (IH (c + 1) s1) as (s2 & E2 & Hk2); [apply Hk|by apply (kp_reliable _ _ Hk)|lia|lia|].
    exists s2. rewrite E2. split; [|by eapply keeps_trans]. do 3 f_equal. apply filter_links_ext.
    intros x Hx. apply elem_of_seqZ in Hx. apply (kp_links _ _ Hk). unfold valid. lia.
Qed.

(** The order in which the search looks at the clusters. *)
Definition search_from (a : Z) : list Z := seqZ a (LAST_CLUSTER g + 1 - a) ++ seqZ 2 (a - 2).

Lemma search_from_elem a c : 2 <= a <= LAST_CLUSTER g + 1 -> c ∈ search_from a <-> valid c.
Proof. intros Ha. unfold search_from, valid. rewrite elem_of_app, !elem_of_seqZ. lia. Qed.

Lemma find_unused_run a s :
  fat_inv s -> dev_reliable g s -> 2 <= a <= LAST_CLUSTER g + 1 ->
  exists s', MFS_Find_unused_cluster_from g a s
    = Some (default CLUSTER_INVALID (head (filter (is_free s) (search_from a))), s') /\ keeps s s'.
Proof.
  intros Hi Hd Ha. unfold MFS_Find_unused_cluster_from, MFS_is_read_only, CLUSTER_MIN_GOOD.
  rewrite (fo_writable g Hg).
  destruct (find_loop_run (Z.to_nat (LAST_CLUSTER g + 1 - a)) a s Hi Hd) as (s1 & E & Hk); [lia|lia|].
  rewrite (bind_run _ _ _ _ _ E). rewrite Z2Nat.id in * by lia.
  unfold search_from. rewrite filter_app.
  destruct (filter (is_free s) (seqZ a (LAST_CLUSTER g + 1 - a))) as [|x l]; simpl.
  - destruct (find_loop_run (Z.to_nat (a - 2)) 2 s1) as (s2 & E2 & Hk2);
      [apply Hk|by apply (kp_reliable _ _ Hk)|lia|lia|].
    rewrite (bind_run _ _ _ _ _ E2). rewrite Z2Nat.id by lia. exists s2.
    split; [|by eapply keeps_trans]. unfold mret, M_ret. do 4 f_equal. apply filter_links_ext.
    intros c Hc. apply elem_of_seqZ in Hc. apply (kp_links _ _ Hk). unfold valid. lia.
  - by exists s1.
Qed.

Lemma count_loop_run n want c slots s :
  fat_inv s -> dev_reliable g s -> 2 <= c -> c + Z.of_nat n <= LAST_CLUSTER g + 1 ->
  exists s', count_loop g n want c slots s
    = Some ((MFS_NO_ERROR, slots + zlen (filter (fun c => links s c = want) (seqZ c (Z.of_nat n)))), s')
    /\ keeps s s' /\ moves s s'.
Proof.
  revert c slots s. induction n as [|n IH]; intros c slots s Hi Hd Hc Hn.
  { exists s. rewrite seqZ_nil by lia. simpl. rewrite Z.add_0_r. split; [done|].
    split; [by apply keeps_refl|apply moves_refl; apply Hi]. }
  assert (valid c) as Hv by (unfold valid; lia).
  destruct (get_ok c s Hi Hd Hv) as (s1 & E & Hk & Hm). simpl count_loop. rewrite (bind_run _ _ _ _ _ E). simpl.
  destruct (IH (c + 1) (if links s c =? want then slots + 1 else slots) s1) as (s2 & E2 & Hk2 & Hm2);
    [apply Hk|by apply (kp_reliable _ _ Hk)|lia|lia|].
  exists s2. rewrite E2. split; [|split; [by eapply keeps_trans|by eapply moves_trans]].
  rewrite seqZ_S, filter_cons.
  assert (filter (fun c => links s1 c = want) (seqZ (c + 1) (Z.of_nat n))
          = filter (fun c => links s c = want) (seqZ (c + 1) (Z.of_nat n))) as ->.
  { assert (forall x, x ∈ seqZ (c + 1) (Z.of_nat n) -> links s1 x = links s x) as Hx.
    { intros x Hx. apply elem_of_seqZ in Hx. apply (kp_links _ _ Hk). unfold valid. lia. }
    apply filter_ext_in. intros x Hin. by rewrite Hx. }
  do 3 f_equal. destruct (Z.eqb_spec (links s c) want) as [Hw|Hw].
  - rewrite decide_True by done. simpl. lia.
  - by rewrite decide_False.
Qed.

(** ** Chains *)

(** [path f c l e]: following [f] from [c] visits the clusters [l], and the
    last of them links to [e]. *)
Inductive path (f : Z -> Z) : Z -> list Z -> Z -> Prop :=
| path_one c : valid c -> path f c [c] (f c)
| path_cons c l e : valid c -> valid (f c) -> path f (f c) l e -> path f c (c :: l) e.

(** A chain of clusters ends with the mark of the end. *)
Definition chain (f : Z -> Z) (c : Z) (l : list Z) : Prop := path f c l CLUSTER_EOF.

Lemma eof_invalid : ~ valid CLUSTER_EOF.
Proof.
  unfold valid, CLUSTER_EOF. pose proof (fo_last g Hg).
  assert (entry_max g <= 268435448) by (unfold entry_max; by destruct (FAT_TYPE g)). lia.
Qed.

Lemma valid_not_bad c : valid c -> bad_link g c = false.
Proof.
  intros [H2 Hl]. unfold bad_link, CLUSTER_MIN_GOOD.
  rewrite (proj2 (Z.ltb_ge _ _)), (proj2 (Z.ltb_ge c 2)) by lia. done.
Qed.

Lemma valid_or_bad c : valid c \/ bad_link g c = true \/ c = CLUSTER_EOF.
Proof.
  unfold valid, bad_link, CLUSTER_MIN_GOOD.
  destruct (Z.ltb_spec (LAST_CLUSTER g) c), (Z.ltb_spec c 2), (Z.eqb_spec c CLUSTER_EOF); simpl; auto with lia.
Qed.

Lemma valid_code c : valid c -> code_ok c.
Proof. intros [H2 Hl]. left. pose proof (fo_last g Hg). lia. Qed.

Lemma path_valid f c l e x : path f c l e -> x ∈ l -> valid x.
Proof. induction 1; set_solver. Qed.

Lemma path_head f c l e : path f c l e -> exists l', l = c :: l'.
Proof. intros Hp. inversion Hp; eauto. Qed.

Lemma path_inv_one f c t e : path f c [t] e -> c = t /\ valid t /\ e = f t.
Proof.
  intros Hp. inversion Hp as [|? ? ? ? ? Hp']; subst; [done|]. by apply path_head in Hp' as [? ?].
Qed.

Lemma path_inv_cons f c x l e :
  path f c (x :: l) e -> l <> [] -> c = x /\ valid x /\ valid (f x) /\ path f (f x) l e.
Proof. intros Hp Hl. inversion Hp; subst; done. Qed.

Lemma app_singleton_ne {A} (l : list A) x : l ++ [x] <> [].
Proof. by destruct l. Qed.

Lemma path_ext f h c l e :
  path f c l e -> (forall x, x ∈ l -> h x = f x) -> path h c l e.
Proof.
  induction 1 as [c Hv|c l e Hv Hv' Hp IH]; intros Hx.
  - rewrite <- (Hx c) by set_solver. by constructor.
  - assert (h c = f c) as E by (apply Hx; set_solver).
    constructor; [done|by rewrite E|]. rewrite E. apply IH. set_solver.
Qed.

Lemma path_suffix f c l e x :
  path f c l e -> x ∈ l -> exists l1 l2, l = l1 ++ l2 /\ path f x l2 e.
Proof.
  induction 1 as [c Hv|c l e Hv Hv' Hp IH]; intros Hx.
  - apply list_elem_of_singleton in Hx as ->. exists [], [c]. split; [done|by constructor].
  - apply elem_of_cons in Hx as [->|Hx].
    + exists [], (c :: l). split; [done|by constructor].
    + destruct (IH Hx) as (l1 & l2 & -> & Hp2). by exists (c :: l1), l2.
Qed.

(** Paths that end outside of the clusters are determined by their start. *)
Lemma path_det f c l l' e e' :
  path f c l e -> path f c l' e' -> ~ valid e -> ~ valid e' -> l = l'.
Proof.
  intros Hp. revert l'. induction Hp as [c Hv|c l e Hv Hv' Hp IH]; intros l' Hp' He He'.
  - inversion Hp'; subst; [done|]. done.
  - inversion Hp'; subst; [done|]. f_equal. by apply IH.
Qed.

Lemma path_NoDup f c l e : path f c l e -> ~ valid e -> NoDup l.
Proof.
  induction 1 as [c Hv|c l e Hv Hv' Hp IH]; intros He; [apply NoDup_singleton|].
  apply NoDup_cons. split; [|by apply IH]. intros Hin.
  destruct (path_suffix _ _ _ _ _ Hp Hin) as (l1 & l2 & E & Hp2).
  assert (path f c (c :: l) e) as Hc by (by constructor).
  pose proof (path_det _ _ _ _ _ _ Hc Hp2 He He) as E2.
  apply (f_equal length) in E. rewrite <- E2, length_app in E. simpl in E. lia.
Qed.

(** ** Releasing a chain *)

(** The data buffer belongs to cluster [c]. *)
Definition in_cluster (c n : Z) : bool :=
  (CLUSTER_TO_SECTOR g c <=? n) && (n <=? w32 (CLUSTER_TO_SECTOR g c + SECTORS_PER_CLUSTER g - 1)).

(** The clusters [l] were freed, and the data buffer dropped if it was one of
    theirs. *)
Record freed (l : list Z) (s s' : drive D) : Prop := {
  fr_inv : fat_inv s';
  fr_links : forall c, valid c -> links s' c = if decide (c ∈ l) then 0 else links s c;
  fr_known : FREE_COUNT s = FSI_UNKNOWN <-> FREE_COUNT s' = FSI_UNKNOWN;
  fr_data : (DATA_SECTOR_DIRTY s', DATA_SECTOR_NUMBER s')
            = if existsb (fun c => in_cluster c (DATA_SECTOR_NUMBER s)) l
              then (false, MAX_UINT_32) else (DATA_SECTOR_DIRTY s, DATA_SECTOR_NUMBER s);
  fr_outside : outside_same s s';
  fr_reliable : dev_reliable g s -> dev_reliable g s';
}.

(** What the loop frees: up to a bad link or the end; a link back to a freed
    cluster finds its entry unused, which is a bad link. *)
Inductive releases (f : Z -> Z) : Z -> list Z -> Prop :=
| rel_bad c : bad_link g (f c) = true -> releases f c []
| rel_last c : f c = CLUSTER_EOF -> releases f c [c]
| rel_next c l : valid (f c) -> releases (fun x => if x =? c then 0 else f x) (f c) l ->
    releases f c (c :: l).

Lemma keeps_freed s s' : keeps s s' -> freed [] s s'.
Proof.
  intros [? ? Hc [H1 H2] ? ?]. constructor; try done.
  - by rewrite Hc.
  - simpl. congruence.
Qed.

Lemma releases_ext f h c l :
  releases f c l -> valid c -> (forall x, valid x -> f x = h x) -> releases h c l.
Proof.
  intros Hr. revert h. induction Hr as [f c Hb|f c He|f c l Hv Hr IH]; intros h Hc Hfh.
  - apply rel_bad. by rewrite <- Hfh.
  - apply rel_last. by rewrite <- Hfh.
  - apply rel_next; [by rewrite <- Hfh|]. rewrite <- Hfh by done. apply IH; [done|].
    intros x Hx. case_match; [done|by apply Hfh].
Qed.

Lemma release_loop_run fuel c s :
  fat_inv s -> dev_reliable g s -> valid c ->
  LAST_CLUSTER g - 1 - free_clusters s < Z.of_nat fuel ->
  exists l s', release_loop g fuel c s = Some (tt, s') /\ freed l s s' /\ releases (links s) c l.
Proof.
  revert c s. induction fuel as [|fuel IH]; intros c s Hi Hd Hv Hf.
  { exfalso. pose proof (free_clusters_le s). lia. }
  destruct (get_ok c s Hi Hd Hv) as (s1 & E & Hk & _). simpl. rewrite (bind_run _ _ _ _ _ E). simpl.
  destruct (bad_link g (links s c)) eqn:Eb.
  { exists [], s1. split; [done|]. split; [by apply keeps_freed|by apply rel_bad]. }
  rewrite (bind_run _ _ s1 s1 s1) by done.
  set (hit := in_cluster c (DATA_SECTOR_NUMBER s1)).
  assert (exists s2, (if (CLUSTER_TO_SECTOR g c <=? DATA_SECTOR_NUMBER s1) &&
         (DATA_SECTOR_NUMBER s1 <=? w32 (CLUSTER_TO_SECTOR g c + SECTORS_PER_CLUSTER g - 1))
      then MFS_Invalidate_data_sector g else mret MFS_NO_ERROR) s1 = Some (MFS_NO_ERROR, s2) /\
      s2 = if hit then set_DATA false MAX_UINT_32 (DATA_SECTOR s1) s1 else s1) as (s2 & E2 & Hs2).
  { unfold hit, in_cluster. destruct (_ && _); eexists; (split; [|done]); [|done].
    unfold MFS_Invalidate_data_sector, MFS_is_read_only. by rewrite (fo_writable g Hg). }
  rewrite (bind_run _ _ _ _ _ E2).
  assert (fat_inv s2 /\ dev_reliable g s2 /\ (forall x, links s2 x = links s1 x) /\
          FREE_COUNT s2 = FREE_COUNT s1 /\ (forall x, img (DEV s2) x = img (DEV s1) x)) as (Hi2 & Hd2 & Hl2 & Hc2 & Hx2).
  { pose proof (kp_inv _ _ Hk) as Hi1. pose proof (kp_reliable _ _ Hk Hd) as Hd1.
    rewrite Hs2. destruct hit; [|done]. split_and!; try done. destruct Hi1 as [[]]. constructor; try done. }
  destruct (put_ok c CLUSTER_UNUSED s2 Hi2 Hd2 Hv) as (s3 & E3 & Hst); [left; pose proof (fo_last g Hg); unfold CLUSTER_UNUSED; lia|].
  rewrite (bind_run _ _ _ _ _ E3). simpl.
  assert (freed [c] s s3) as Hfr.
  { constructor.
    - apply Hst.
    - intros x Hx. rewrite (st_links _ _ _ _ Hst) by done. rewrite Hl2, (kp_links _ _ Hk) by done.
      destruct (Z.eqb_spec x c); [by rewrite decide_True by set_solver|by rewrite decide_False by set_solver].
    - rewrite <- (st_known _ _ _ _ Hst), Hc2. by apply keeps_known.
    - destruct (st_meta _ _ _ _ Hst) as (_ & _ & _ & -> & -> & _). simpl. rewrite orb_false_r.
      destruct (kp_data _ _ Hk) as [Ha Hb]. rewrite <- Hb. fold hit. rewrite Hs2. destruct hit; simpl; congruence.
    - intros x Hx. rewrite (st_outside _ _ _ _ Hst), Hx2 by done. by apply (kp_outside _ _ Hk).
    - intros _. by apply (st_reliable _ _ _ _ Hst). }
  destruct (Z.eqb_spec (links s c) CLUSTER_EOF) as [He|He].
  { exists [c], s3. split; [done|]. split; [done|]. by apply rel_last. }
  assert (valid (links s c)) as Hv'.
  { destruct (valid_or_bad (links s c)) as [?|[?|?]]; [done|congruence|done]. }
  assert (free_clusters s3 = free_clusters s + 1) as Hfc.
  { pose proof (free_update s s3 c 0 Hv) as Hfu. rewrite Hfu.
    - simpl. rewrite (proj2 (Z.eqb_neq (links s c) 0)); [lia|]. unfold valid in Hv'. lia.
    - intros x Hx. rewrite (fr_links _ _ _ Hfr) by done.
      destruct (Z.eqb_spec x c); [by rewrite decide_True by set_solver|by rewrite decide_False by set_solver]. }
  destruct (IH (links s c) s3) as (l & s4 & E4 & Hfr4 & Hr4); [apply Hfr|by apply (fr_reliable _ _ _ Hfr)|done|lia|].
  exists (c :: l), s4. split; [done|]. split.
  - constructor.
    + apply Hfr4.
    + intros x Hx. rewrite (fr_links _ _ _ Hfr4), (fr_links _ _ _ Hfr) by done.
      destruct (decide (x ∈ l)); [by rewrite decide_True by set_solver|].
      destruct (decide (x ∈ [c])); [rewrite decide_True by set_solver|rewrite decide_False by set_solver]; done.
    + rewrite (fr_known _ _ _ Hfr). apply (fr_known _ _ _ Hfr4).
    + rewrite (fr_data _ _ _ Hfr4). pose proof (fr_data _ _ _ Hfr) as Hda. simpl in Hda |- *. rewrite orb_false_r in Hda.
      destruct (in_cluster c (DATA_SECTOR_NUMBER s)); simpl; injection Hda as -> ->; [|done].
      by destruct (existsb _ l).
    + intros x Hx. rewrite (fr_outside _ _ _ Hfr4) by done. by apply (fr_outside _ _ _ Hfr).
    + intros _. by apply (fr_reliable _ _ _ Hfr4), (fr_reliable _ _ _ Hfr).
  - apply rel_next; [done|]. eapply releases_ext; [exact Hr4|done|].
    intros x Hx. rewrite (fr_links _ _ _ Hfr) by done.
    destruct (Z.eqb_spec x c); [by rewrite decide_True by set_solver|by rewrite decide_False by set_solver].
Qed.

Lemma bad_zero : bad_link g 0 = true.
Proof. unfold bad_link. simpl. by rewrite orb_true_r. Qed.

Lemma bad_eof : bad_link g CLUSTER_EOF = false.
Proof. unfold bad_link. rewrite Z.eqb_refl. apply andb_false_r. Qed.

Lemma releases_det f c l l' : releases f c l -> releases f c l' -> l = l'.
Proof.
  intros Hr. revert l'. induction Hr as [f c Hb|f c He|f c l Hv Hr IH]; intros l' Hr'; inversion Hr'; subst; try done.
  - exfalso. rewrite H0, bad_eof in Hb. done.
  - exfalso. rewrite valid_not_bad in Hb; done.
  - exfalso. rewrite He, bad_eof in H0. done.
  - exfalso. rewrite He in H0. by apply eof_invalid.
  - exfalso. rewrite valid_not_bad in H0; done.
  - exfalso. rewrite H0 in Hv. by apply eof_invalid.
  - f_equal. by apply IH.
Qed.

Lemma path_zero f c l e :
  path f (f c) l e -> c ∉ l -> path (fun x => if x =? c then 0 else f x) (f c) l e.
Proof.
  intros Hp Hc. eapply path_ext; [exact Hp|]. intros x Hx. simpl.
  rewrite (proj2 (Z.eqb_neq x c)); [done|]. by intros ->.
Qed.

Lemma chain_releases f c l :
  chain f c l -> NoDup l -> releases f c l.
Proof.
  unfold chain. revert f c. induction l as [|x l IH]; intros f c Hp Hnd; [inversion Hp|].
  apply NoDup_cons in Hnd as [Hc Hnd]. destruct (decide (l = [])) as [->|Hl].
  - destruct (path_inv_one _ _ _ _ Hp) as (-> & _ & He). by apply rel_last.
  - destruct (path_inv_cons _ _ _ _ _ Hp Hl) as (-> & _ & Hv & Hp').
    apply rel_next; [done|]. apply IH; [by apply path_zero|done].
Qed.

Lemma broken_releases f c l x e :
  path f c (l ++ [x]) e -> NoDup (l ++ [x]) -> bad_link g e = true -> releases f c l.
Proof.
  revert f c. induction l as [|y l IH]; intros f c Hp Hnd He; simpl in *.
  - destruct (path_inv_one _ _ _ _ Hp) as (-> & _ & ->). by apply rel_bad.
  - destruct (path_inv_cons _ _ _ _ _ Hp (app_singleton_ne l x)) as (-> & _ & Hv & Hp').
    apply NoDup_cons in Hnd as [Hc Hnd]. apply rel_next; [done|]. apply IH; [by apply path_zero|done|done].
Qed.

Lemma loop_releases f c l e :
  path f c l e -> NoDup l -> valid e -> e ∈ l \/ f e = 0 -> releases f c l.
Proof.
  revert f c. induction l as [|x l IH]; intros f c Hp Hnd Hve He; [inversion Hp|].
  apply NoDup_cons in Hnd as [Hc Hnd]. destruct (decide (l = [])) as [->|Hl].
  - destruct (path_inv_one _ _ _ _ Hp) as (-> & _ & ->). apply rel_next; [done|]. apply rel_bad. simpl.
    destruct (Z.eqb_spec (f x) x) as [E|E]; [apply bad_zero|].
    destruct He as [He|He]; [by apply list_elem_of_singleton in He|]. rewrite He. apply bad_zero.
  - destruct (path_inv_cons _ _ _ _ _ Hp Hl) as (-> & _ & Hv & Hp').
    apply rel_next; [done|]. apply IH; [by apply path_zero|done|done|].
    destruct He as [He|He].
    + apply elem_of_cons in He as [->|He]; [right; by rewrite Z.eqb_refl|by left].
    + right. by case_match.
Qed.

Lemma freed_moves l s s1 s2 : freed l s s1 -> moves s1 s2 -> freed l s s2.
Proof.
  intros [I L C Da O R] Hm. pose proof (mv_other _ _ Hm) as (_ & _ & _ & E4 & E5 & _ & E7 & _). constructor.
  - by eapply moves_inv.
  - intros c Hv. rewrite (moves_links _ _ _ Hm Hv). by apply L.
  - by rewrite E7.
  - by rewrite E4, E5.
  - intros x Hx. rewrite (mv_outside _ _ Hm) by done. by apply O.
  - intros Hd. by apply (mv_reliable _ _ Hm), R.
Qed.

Lemma write_back_run s :
  fat_inv s -> dev_reliable g s ->
  exists s', MFS_Write_back_fat g s = Some (MFS_NO_ERROR, s') /\ moves s s' /\
    (FAT_CACHE_POLICY g = MFS_WRITE_THROUGH_CACHE -> FAT_CACHE_DIRTY s' = false).
Proof.
  intros Hi Hd. unfold MFS_Write_back_fat, MFS_is_read_only. rewrite (fo_writable g Hg).
  destruct (FAT_CACHE_POLICY g).
  - destruct (flush_run s (fi_cache s Hi) (fi_mirror s Hi)) as (e & s' & E & Hm & _ & _ & Hcl & Hrel).
    specialize (Hrel Hd) as ->. exists s'. split; [done|]. split; [done|]. intros _. by apply Hcl.
  - exists s. split; [done|]. split; [by apply moves_refl; apply Hi|done].
  - exists s. split; [done|]. split; [by apply moves_refl; apply Hi|done].
Qed.

Lemma release_run c s :
  fat_inv s -> dev_reliable g s -> valid c ->
  exists l s', MFS_Release_chain g c s = Some (MFS_NO_ERROR, s') /\ freed l s s' /\
    releases (links s) c l /\
    (FAT_CACHE_POLICY g = MFS_WRITE_THROUGH_CACHE -> FAT_CACHE_DIRTY s' = false).
Proof.
  intros Hi Hd Hv. unfold MFS_Release_chain, MFS_is_read_only, CLUSTER_MIN_GOOD. rewrite (fo_writable g Hg).
  destruct Hv as [Hv1 Hv2]. rewrite (proj2 (Z.leb_le 2 c)), (proj2 (Z.leb_le c _)) by lia. simpl.
  destruct (release_loop_run (chain_fuel g) c s Hi Hd ltac:(done)) as (l & s1 & E & Hfr & Hr).
  { unfold chain_fuel. pose proof (free_clusters_le s). lia. }
  rewrite (bind_run _ _ _ _ _ E).
  destruct (write_back_run s1 (fr_inv _ _ _ Hfr) (fr_reliable _ _ _ Hfr Hd)) as (s2 & E2 & Hm & Hcl).
  exists l, s2. split; [done|]. split; [by eapply freed_moves|]. done.
Qed.

(** ** Extending a chain *)

(** The clusters that the search looks at before it comes back to [c]. *)
Definition others (c : Z) : list Z := seqZ (c + 1) (LAST_CLUSTER g - c) ++ seqZ 2 (c - 2).

Lemma search_from_others c : valid c -> search_from (c + 1) = others c ++ [c].
Proof.
  intros [H2 Hl]. unfold search_from, others. rewrite <- app_assoc.
  replace (LAST_CLUSTER g + 1 - (c + 1)) with (LAST_CLUSTER g - c) by lia. f_equal.
  replace (c + 1 - 2) with (c - 2 + 1) by lia. rewrite seqZ_app by lia. f_equal.
  replace (2 + (c - 2)) with c by lia. done.
Qed.

Lemma clusters_perm c : valid c -> all_clusters ≡ₚ others c ++ [c].
Proof.
  intros [H2 Hl]. unfold all_clusters, others.
  replace (LAST_CLUSTER g - 1) with ((c - 2) + (1 + (LAST_CLUSTER g - c))) by lia.
  rewrite seqZ_app, seqZ_app by lia. replace (2 + (c - 2)) with c by lia.
  change (seqZ c 1) with [c]. solve_Permutation.
Qed.

(** Free clusters other than [c]. *)
Definition avail (s : drive D) (c : Z) : Z := free_clusters s - (if links s c =? 0 then 1 else 0).

Lemma avail_others s c : valid c -> zlen (filter (is_free s) (others c)) = avail s c.
Proof.
  intros Hv. unfold avail, free_clusters, free_list.
  rewrite (Permutation_length (filter_Permutation _ _ _ (clusters_perm c Hv))).
  rewrite filter_app, length_app, filter_cons. unfold is_free at 3.
  destruct (Z.eqb_spec (links s c) 0); [rewrite decide_True by done|rewrite decide_False by done]; simpl; lia.
Qed.

Lemma search_hit s c :
  valid c -> 0 < avail s c ->
  exists y, head (filter (is_free s) (search_from (c + 1))) = Some y /\ valid y /\ y <> c /\ links s y = 0.
Proof.
  intros Hv Ha. rewrite <- (avail_others s c Hv) in Ha. rewrite search_from_others, filter_app by done.
  destruct (filter (is_free s) (others c)) as [|y l] eqn:E; [simpl in Ha; lia|]. exists y. split; [done|].
  assert (y ∈ filter (is_free s) (others c)) as Hy by (rewrite E; set_solver).
  apply list_elem_of_filter in Hy as [Hf Hy]. unfold others in Hy. rewrite elem_of_app, !elem_of_seqZ in Hy.
  destruct Hv. split_and!; [unfold valid; lia|lia|done].
Qed.

Lemma search_last s c :
  valid c -> avail s c = 0 ->
  head (filter (is_free s) (search_from (c + 1))) = (if links s c =? 0 then Some c else None).
Proof.
  intros Hv Ha. pose proof (avail_others s c Hv) as Ho. rewrite search_from_others, filter_app by done.
  destruct (filter (is_free s) (others c)); [|simpl in Ho; lia]. rewrite filter_cons. unfold is_free at 1. simpl.
  destruct (Z.eqb_spec (links s c) 0); [by rewrite decide_True|by rewrite decide_False].
Qed.

Fixpoint link_up (f : Z -> Z) (c : Z) (new : list Z) : Z -> Z :=
  match new with
  | [] => f
  | x :: l => link_up (fun y => if y =? c then x else f y) x l
  end.

(** What the operations on a chain share: the state is sound, and nothing but
    links changes. *)
Record relinks (f : Z -> Z) (s s' : drive D) : Prop := {
  rl_inv : fat_inv s';
  rl_links : forall x, valid x -> links s' x = f x;
  rl_known : FREE_COUNT s = FSI_UNKNOWN <-> FREE_COUNT s' = FSI_UNKNOWN;
  rl_outside : outside_same s s';
  rl_reliable : dev_reliable g s';
}.

Lemma keeps_relinks s s' : dev_reliable g s -> keeps s s' -> relinks (links s) s s'.
Proof.
  intros Hd Hk. constructor; try apply Hk; try done. by apply keeps_known.
Qed.

Lemma relinks_put f c code s s1 s2 :
  relinks f s s1 -> stores c code s1 s2 -> relinks (fun y => if y =? c then code else f y) s s2.
Proof.
  intros [I L K O R] Hst. constructor.
  - apply Hst.
  - intros x Hx. rewrite (st_links _ _ _ _ Hst) by done. by destruct (x =? c); [|apply L].
  - rewrite K. apply Hst.
  - intros x Hx. rewrite (st_outside _ _ _ _ Hst) by done. by apply O.
  - by apply (st_reliable _ _ _ _ Hst).
Qed.

Lemma relinks_keeps f s s1 s2 : relinks f s s1 -> keeps s1 s2 -> relinks f s s2.
Proof.
  intros [I L K O R] Hk. constructor.
  - apply Hk.
  - intros x Hx. rewrite (kp_links _ _ Hk) by done. by apply L.
  - rewrite K. by apply keeps_known.
  - intros x Hx. rewrite (kp_outside _ _ Hk) by done. by apply O.
  - by apply (kp_reliable _ _ Hk).
Qed.

Lemma relinks_ext f h s s' : (forall x, valid x -> f x = h x) -> relinks f s s' -> relinks h s s'.
Proof. intros Hf [I L K O R]. constructor; try done. intros x Hx. by rewrite L, Hf. Qed.

Lemma relinks_trans f h s s1 s2 : relinks f s s1 -> relinks h s1 s2 -> relinks h s s2.
Proof.
  intros [I L K O R] [I2 L2 K2 O2 R2]. constructor; try done.
  - by rewrite K.
  - intros x Hx. by rewrite O2, O.
Qed.

Lemma link_up_ext f h c new x :
  (forall y, valid y -> f y = h y) -> valid x -> link_up f c new x = link_up h c new x.
Proof.
  revert f h c. induction new as [|y new IH]; intros f h c Hf Hx; simpl; [by apply Hf|].
  apply IH; [|done]. intros z Hz. case_match; [done|by apply Hf].
Qed.

(** One turn of the loop. *)
Lemma extend_step c y s :
  fat_inv s -> dev_reliable g s -> valid c -> valid y ->
  head (filter (is_free s) (search_from (c + 1))) = Some y ->
  exists s2, relinks (fun x => if x =? c then y else links s x) s s2 /\
    forall n ext added,
      extend_loop g (S n) c ext added s
      = extend_loop g n y (ext + 1) (if ext =? 0 then Some y else added) s2.
Proof.
  intros Hi Hd Hv Hvy Hh. pose proof Hv as [H2 Hl].
  destruct (find_unused_run (c + 1) s Hi Hd ltac:(lia)) as (s1 & E & Hk). rewrite Hh in E. simpl in E.
  pose proof (relinks_put (links s) c y s s1) as Hrp.
  destruct (put_ok c y s1) as (s2 & E2 & Hst); [apply Hk|by apply (kp_reliable _ _ Hk)|done|by apply valid_code|].
  exists s2. split; [by eapply Hrp; [apply keeps_relinks|]|]. intros n ext added.
  simpl extend_loop. rewrite (bind_run _ _ _ _ _ E).
  rewrite (proj2 (Z.eqb_neq y CLUSTER_INVALID)) by (unfold CLUSTER_INVALID; destruct Hvy; lia).
  by rewrite (bind_run _ _ _ _ _ E2).
Qed.

Lemma extend_loop_run n c ext added s :
  fat_inv s -> dev_reliable g s -> valid c -> Z.of_nat n <= avail s c -> 0 <= ext ->
  exists new s', extend_loop g n c ext added s
      = Some (inr (last_from c new, ext + Z.of_nat n, 0,
                   match new with [] => added | x :: _ => if ext =? 0 then Some x else added end), s') /\
    length new = n /\ NoDup (c :: new) /\ (forall x, x ∈ new -> valid x /\ links s x = 0) /\
    relinks (link_up (links s) c new) s s' /\ avail s' (last_from c new) = avail s c - Z.of_nat n.
Proof.
  revert c ext added s. induction n as [|n IH]; intros c ext added s Hi Hd Hv Hn He.
  { exists [], s. rewrite Z.add_0_r, Z.sub_0_r. split_and!; try done.
    - apply NoDup_singleton.
    - by intros x ?%elem_of_nil. }
  destruct (search_hit s c Hv ltac:(lia)) as (y & Hh & Hvy & Hyc & Hy0).
  destruct (extend_step c y s Hi Hd Hv Hvy Hh) as (s1 & Hrl & Estep).
  assert (forall x, valid x -> links s1 x = if x =? c then y else links s x) as Hl1 by apply Hrl.
  assert (links s1 y = 0) as Hy1.
  { rewrite Hl1 by done. by rewrite (proj2 (Z.eqb_neq y c)). }
  assert (avail s1 y = avail s c - 1) as Hav.
  { unfold avail. rewrite Hy1. simpl. rewrite (free_update s s1 c y Hv Hl1).
    rewrite (proj2 (Z.eqb_neq y 0)) by (destruct Hvy; lia). lia. }
  destruct (IH y (ext + 1) (if ext =? 0 then Some y else added) s1)
    as (new & s2 & E & Hlen & Hnd & Hnew & Hrl2 & Hav2); [apply Hrl|apply Hrl|done|lia|lia|].
  exists (y :: new), s2. rewrite Estep, E.
  assert (c ∉ new) as Hcn.
  { intros Hin. destruct (Hnew c Hin) as [_ H0]. rewrite Hl1, Z.eqb_refl in H0 by done. destruct Hvy. lia. }
  split_and!.
  - simpl last_from. replace (ext + 1 + Z.of_nat n) with (ext + Z.of_nat (S n)) by lia.
    rewrite (proj2 (Z.eqb_neq (ext + 1) 0)) by lia. by destruct new.
  - simpl. lia.
  - apply NoDup_cons. split; [set_solver|done].
  - intros x Hx. apply elem_of_cons in Hx as [->|Hx]; [done|]. destruct (Hnew x Hx) as [Hvx H0].
    split; [done|]. rewrite Hl1 in H0 by done. rewrite (proj2 (Z.eqb_neq x c)) in H0; [done|]. by intros ->.
  - eapply relinks_trans; [exact Hrl|]. eapply relinks_ext; [|exact Hrl2]. intros x Hx. simpl.
    apply link_up_ext; done.
  - simpl last_from. rewrite Hav2. lia.
Qed.

Lemma extend_loop_app n m c ext added s c' ext' added' s' :
  extend_loop g n c ext added s = Some (inr (c', ext', 0, added'), s') ->
  extend_loop g (n + m) c ext added s = extend_loop g m c' ext' added' s'.
Proof.
  revert c ext added s. induction n as [|n IH]; intros c ext added s E.
  { simpl in E. by injection E as -> -> -> ->. }
  simpl plus. simpl extend_loop in E |- *. apply bind_inv in E as (y & s1 & E1 & E). rewrite (bind_run _ _ _ _ _ E1).
  destruct (y =? CLUSTER_INVALID); [by injection E|].
  apply bind_inv in E as (e & s2 & E2 & E). rewrite (bind_run _ _ _ _ _ E2).
  destruct (negb _); [by injection E|]. by apply IH.
Qed.

Lemma walk_run fuel c l0 t s :
  fat_inv s -> dev_reliable g s -> chain (links s) c (l0 ++ [t]) -> (length (l0 ++ [t]) <= fuel)%nat ->
  exists s', walk_loop g fuel c s = Some (inr t, s') /\ keeps s s'.
Proof.
  revert c l0 s. induction fuel as [|fuel IH]; intros c l0 s Hi Hd Hch Hf.
  { rewrite length_app in Hf. simpl in Hf. lia. }
  assert (valid c) as Hv.
  { destruct (path_head _ _ _ _ Hch) as [l' E]. eapply path_valid; [exact Hch|]. rewrite E. set_solver. }
  destruct (get_ok c s Hi Hd Hv) as (s1 & E & Hk & _). simpl. rewrite (bind_run _ _ _ _ _ E). simpl.
  unfold chain in Hch. destruct l0 as [|x l0]; simpl in *.
  - destruct (path_inv_one _ _ _ _ Hch) as (-> & _ & <-). rewrite bad_eof. by exists s1.
  - destruct (path_inv_cons _ _ _ _ _ Hch (app_singleton_ne l0 t)) as (-> & _ & Hv' & Hp').
    rewrite valid_not_bad by done.
    assert (links s x <> CLUSTER_EOF) as Hne by (intros He; rewrite He in Hv'; by apply eof_invalid).
    rewrite (proj2 (Z.eqb_neq _ _)) by done. simpl.
    destruct (IH (links s x) l0 s1) as (s2 & E2 & Hk2); [apply Hk|by apply (kp_reliable _ _ Hk)| |lia|].
    { eapply path_ext; [exact Hp'|]. intros y Hy. apply (kp_links _ _ Hk). by eapply path_valid. }
    exists s2. split; [done|]. by eapply keeps_trans.
Qed.

(** Following links inside a closed set never ends. *)
Lemma walk_diverges fuel c (l : list Z) s :
  fat_inv s -> dev_reliable g s -> c ∈ l -> (forall x, x ∈ l -> valid x /\ links s x ∈ l) ->
  walk_loop g fuel c s = None.
Proof.
  revert c s. induction fuel as [|fuel IH]; intros c s Hi Hd Hc Hcl; [done|].
  destruct (Hcl c Hc) as [Hv Hn].
  destruct (get_ok c s Hi Hd Hv) as (s1 & E & Hk & _). simpl. rewrite (bind_run _ _ _ _ _ E). simpl.
  destruct (Hcl _ Hn) as [Hvn _]. rewrite valid_not_bad by done.
  assert (links s c <> CLUSTER_EOF) as Hne by (intros He; rewrite He in Hvn; by apply eof_invalid).
  rewrite (proj2 (Z.eqb_neq _ _)) by done. simpl.
  apply IH; [apply Hk|by apply (kp_reliable _ _ Hk)|done|]. intros x Hx. destruct (Hcl x Hx) as [Hvx Hnx].
  split; [done|]. by rewrite (kp_links _ _ Hk).
Qed.

Lemma path_closed f c l e : path f c l e -> e ∈ l -> forall x, x ∈ l -> valid x /\ f x ∈ l.
Proof.
  intros Hp. assert (forall L : list Z, (forall x, x ∈ l -> x ∈ L) -> e ∈ L -> forall x, x ∈ l -> valid x /\ f x ∈ L) as Hgen.
  { induction Hp as [c Hv|c l e Hv Hv' Hp IH]; intros L HlL He x Hx.
    - apply list_elem_of_singleton in Hx as ->. done.
    - apply elem_of_cons in Hx as [->|Hx].
      + split; [done|]. apply HlL. destruct (path_head _ _ _ _ Hp) as [l' ->]. set_solver.
      + apply IH; [set_solver|done|done]. }
  intros He. by apply Hgen.
Qed.

Lemma link_up_out f c new y : y ∉ c :: new -> link_up f c new y = f y.
Proof.
  revert f c. induction new as [|x new IH]; intros f c Hy; [done|]. simpl. rewrite IH by set_solver.
  rewrite (proj2 (Z.eqb_neq y c)); [done|]. set_solver.
Qed.

Lemma last_from_tail {A} (x : A) l : exists l0, x :: l = l0 ++ [last_from x l].
Proof.
  revert x. induction l as [|y l IH]; intros x; [by exists []|].
  destruct (IH y) as [l0 E]. exists (x :: l0). simpl. by rewrite E.
Qed.

(** The new part of the chain. *)
Lemma link_up_path f c new :
  NoDup (c :: new) -> valid c -> (forall x, x ∈ new -> valid x) ->
  path (fun y => if y =? last_from c new then CLUSTER_EOF else link_up f c new y) c (c :: new) CLUSTER_EOF.
Proof.
  revert f c. induction new as [|x new IH]; intros f c Hnd Hv Hnew.
  - simpl. pose proof (path_one (fun y => if y =? c then CLUSTER_EOF else f y) c Hv) as Hp.
    cbn beta in Hp. by rewrite Z.eqb_refl in Hp.
  - apply NoDup_cons in Hnd as [Hc Hnd].
    set (h := fun y => if y =? last_from c (x :: new) then CLUSTER_EOF else link_up f c (x :: new) y).
    assert (h c = x) as Hhc.
    { unfold h. simpl. rewrite (proj2 (Z.eqb_neq _ _)).
      - rewrite link_up_out by done. by rewrite Z.eqb_refl.
      - intros E. apply Hc. rewrite E. apply last_from_in. }
    apply path_cons; [done|rewrite Hhc; apply Hnew; set_solver|]. rewrite Hhc.
    apply (IH (fun y => if y =? c then x else f y) x Hnd); [apply Hnew; set_solver|].
    intros y Hy. apply Hnew. set_solver.
Qed.

(** A chain with its last cluster replaced by a longer end. *)
Lemma path_splice f h c l0 t l e e' :
  path f c (l0 ++ [t]) e -> (forall x, x ∈ l0 -> h x = f x) -> path h t l e' -> path h c (l0 ++ l) e'.
Proof.
  revert c. induction l0 as [|x l0 IH]; intros c Hp Hh Hl; simpl in *.
  - by destruct (path_inv_one _ _ _ _ Hp) as (-> & _ & _).
  - destruct (path_inv_cons _ _ _ _ _ Hp (app_singleton_ne l0 t)) as (-> & Hv & Hv' & Hp').
    assert (h x = f x) as E by (apply Hh; set_solver).
    apply path_cons; [done|by rewrite E|]. rewrite E. apply IH; [done|set_solver|done].
Qed.

Lemma path_links_nonzero f c l e x : path f c l e -> e <> 0 -> x ∈ l -> f x <> 0.
Proof.
  induction 1 as [c Hv|c l e Hv Hv' Hp IH]; intros He Hx.
  - by apply list_elem_of_singleton in Hx as ->.
  - apply elem_of_cons in Hx as [->|Hx]; [destruct Hv'; lia|by apply IH].
Qed.

(** Marking the last cluster of the new part. *)
Lemma finish_run f c new s s1 :
  relinks f s s1 -> valid (last_from c new) ->
  exists s2, MFS_Put_fat g (last_from c new) CLUSTER_EOF s1 = Some (MFS_NO_ERROR, s2) /\
    relinks (fun y => if y =? last_from c new then CLUSTER_EOF else f y) s s2.
Proof.
  intros Hrl Hv. destruct (put_ok (last_from c new) CLUSTER_EOF s1) as (s2 & E & Hst);
    [apply Hrl|apply Hrl|done|by right|].
  exists s2. split; [done|]. by eapply relinks_put.
Qed.

(** What is left of the chain when clusters were linked after its end. *)
Lemma spliced_chain s s' c l0 t new :
  chain (links s) c (l0 ++ [t]) -> NoDup (t :: new) ->
  (forall x, x ∈ new -> valid x /\ links s x = 0) ->
  relinks (fun y => if y =? last_from t new then CLUSTER_EOF else link_up (links s) t new y) s s' ->
  chain (links s') c (l0 ++ t :: new) /\
  (forall x, valid x -> x ∉ t :: new -> links s' x = links s x).
Proof.
  intros Hch Hnd Hnew Hrl. pose proof (path_NoDup _ _ _ _ Hch eof_invalid) as Hnd2.
  assert (valid t) as Hvt by (eapply path_valid; [exact Hch|set_solver]).
  assert (forall x, x ∈ l0 -> x ∉ t :: new) as Hl0.
  { intros x Hx Hin. apply elem_of_cons in Hin as [->|Hin].
    - apply NoDup_app in Hnd2 as (_ & Hd & _). apply (Hd t Hx). set_solver.
    - destruct (Hnew x Hin) as [_ H0]. eapply path_links_nonzero; [exact Hch|done| |exact H0]. set_solver. }
  assert (forall x, x ∉ t :: new -> (if x =? last_from t new then CLUSTER_EOF else link_up (links s) t new x) = links s x) as Hout.
  { intros x Hx. rewrite (proj2 (Z.eqb_neq _ _)); [by apply link_up_out|]. intros ->. apply Hx, last_from_in. }
  split.
  - eapply (path_ext (fun y => if y =? last_from t new then CLUSTER_EOF else link_up (links s) t new y)).
    + eapply path_splice; [exact Hch|intros x Hx; by apply Hout, Hl0|].
      apply link_up_path; [done|done|]. intros x Hx. by apply Hnew.
    + intros x Hx. apply Hrl. apply elem_of_app in Hx as [Hx|Hx].
      * eapply path_valid; [exact Hch|set_solver].
      * apply elem_of_cons in Hx as [->|Hx]; [done|by apply Hnew].
  - intros x Hv Hx. rewrite (rl_links _ _ _ Hrl) by done. by apply Hout.
Qed.

(** ** What the FAT promises *)

(** Operations of the users of the FAT, and their codes and values. *)
Inductive fat_op := OGet (c : Z) | OPut (c code : Z) | OFind (c : Z) | OFlush.

Definition run_op (o : fat_op) : M (drive D) (Z * Z) :=
  match o with
  | OGet c => MFS_get_cluster_from_fat g c
  | OPut c code => e ← MFS_Put_fat g c code; mret (e, 0)
  | OFind c => r ← MFS_Find_unused_cluster_from g c; mret (MFS_NO_ERROR, r)
  | OFlush => e ← MFS_Flush_fat_cache g; mret (e, 0)
  end.

Fixpoint run_ops (ops : list fat_op) : M (drive D) (list (Z * Z)) :=
  match ops with
  | [] => mret []
  | o :: ops => r ← run_op o; rs ← run_ops ops; mret (r :: rs)
  end.

(** The specification: a function from clusters to links, without sectors,
    bytes or a cache. *)
Definition validb (c : Z) : bool := (2 <=? c) && (c <=? LAST_CLUSTER g).

Definition spec_op (f : Z -> Z) (o : fat_op) : (Z * Z) * (Z -> Z) :=
  match o with
  | OGet c => (if validb c then (MFS_NO_ERROR, f c) else (MFS_INVALID_CLUSTER_NUMBER, CLUSTER_EOF), f)
  | OPut c code =>
      if validb c then ((MFS_NO_ERROR, 0), fun x => if x =? c then code else f x)
      else ((MFS_INVALID_CLUSTER_NUMBER, 0), f)
  | OFind c => ((MFS_NO_ERROR, default CLUSTER_INVALID (head (filter (fun x => f x = 0) (search_from c)))), f)
  | OFlush => ((MFS_NO_ERROR, 0), f)
  end.

Fixpoint spec_ops (f : Z -> Z) (ops : list fat_op) : list (Z * Z) * (Z -> Z) :=
  match ops with
  | [] => ([], f)
  | o :: ops => let '(r, f) := spec_op f o in let '(rs, f) := spec_ops f ops in (r :: rs, f)
  end.

Definition allowed (o : fat_op) : Prop :=
  match o with
  | OPut c code => code_ok code
  | OFind c => 2 <= c <= LAST_CLUSTER g + 1
  | _ => True
  end.

Lemma validb_spec c : (validb c = true /\ valid c) \/ (validb c = false /\ (LAST_CLUSTER g < c \/ c < 2)).
Proof.
  unfold validb, valid. destruct (Z.leb_spec 2 c), (Z.leb_spec c (LAST_CLUSTER g)); simpl; auto with lia.
Qed.

Lemma invalid_get c s :
  LAST_CLUSTER g < c \/ c < 2 ->
  MFS_get_cluster_from_fat g c s = Some ((MFS_INVALID_CLUSTER_NUMBER, CLUSTER_EOF), s).
Proof.
  intros Hc. unfold MFS_get_cluster_from_fat, CLUSTER_MIN_GOOD.
  destruct (Z.ltb_spec (LAST_CLUSTER g) c); [done|]. by rewrite (proj2 (Z.ltb_lt c 2)) by lia.
Qed.

Lemma invalid_put c code s :
  LAST_CLUSTER g < c \/ c < 2 -> MFS_Put_fat g c code s = Some (MFS_INVALID_CLUSTER_NUMBER, s).
Proof.
  intros Hc. unfold MFS_Put_fat, MFS_is_read_only, CLUSTER_MIN_GOOD. rewrite (fo_writable g Hg).
  destruct (Z.ltb_spec (LAST_CLUSTER g) c); [done|]. by rewrite (proj2 (Z.ltb_lt c 2)) by lia.
Qed.

Lemma run_op_refines o f s :
  fat_inv s -> dev_reliable g s -> allowed o -> (forall c, valid c -> links s c = f c) ->
  exists s', run_op o s = Some ((spec_op f o).1, s') /\ fat_inv s' /\ dev_reliable g s' /\
    (forall c, valid c -> links s' c = (spec_op f o).2 c) /\ outside_same s s'.
Proof.
  intros Hi Hd Ha Hf. destruct o as [c|c code|c|]; simpl.
  - destruct (validb_spec c) as [[-> Hv]|[-> Hv]].
    + destruct (get_ok c s Hi Hd Hv) as (s' & E & Hk & _). exists s'. rewrite E, Hf by done.
      split_and!; try apply Hk; try done. intros x Hx. rewrite (kp_links _ _ Hk) by done. by apply Hf.
    + exists s. rewrite invalid_get by done. done.
  - destruct (validb_spec c) as [[-> Hv]|[-> Hv]].
    + destruct (put_ok c code s Hi Hd Hv Ha) as (s' & E & Hst). rewrite (bind_run _ _ _ _ _ E).
      exists s'. split_and!; try apply Hst; try done. intros x Hx. simpl. rewrite (st_links _ _ _ _ Hst) by done.
      destruct (x =? c); [done|by apply Hf].
    + rewrite (bind_run _ _ _ _ _ (invalid_put c code s Hv)). by exists s.
  - destruct (find_unused_run c s Hi Hd Ha) as (s' & E & Hk). rewrite (bind_run _ _ _ _ _ E).
    exists s'. split_and!; try apply Hk; try done.
    + unfold mret, M_ret. do 5 f_equal. apply filter_ext_in. intros x Hx.
      apply search_from_elem in Hx; [|done]. unfold is_free. by rewrite Hf.
    + intros x Hx. rewrite (kp_links _ _ Hk) by done. by apply Hf.
  - destruct (flush_run s (fi_cache s Hi) (fi_mirror s Hi)) as (e & s' & E & Hm & _ & _ & _ & Hrel).
    specialize (Hrel Hd) as ->. rewrite (bind_run _ _ _ _ _ E). exists s'.
    split_and!; try apply Hm; try done; [by eapply moves_inv|].
    intros x Hx. rewrite (moves_links _ _ _ Hm) by done. by apply Hf.
Qed.

(** C4: Over a device that works, every sequence of reads, stores, searches and
    flushes gives the codes and values that the same sequence gives on a plain
    function from clusters to links: packed entries, sectors, the cache and its
    write-backs cannot be told from that function. Nothing outside of the
    copies of the FAT changes on the device. *)
Theorem fat_trace_refines ops f s :
  fat_inv s -> dev_reliable g s -> Forall allowed ops -> (forall c, valid c -> links s c = f c) ->
  exists s', run_ops ops s = Some ((spec_ops f ops).1, s') /\ fat_inv s' /\
    (forall c, valid c -> links s' c = (spec_ops f ops).2 c) /\ outside_same s s'.
Proof.
  revert f s. induction ops as [|o ops IH]; intros f s Hi Hd Ha Hf; simpl.
  { by exists s. }
  apply Forall_cons in Ha as [Ho Ha]. destruct (run_op_refines o f s Hi Hd Ho Hf) as (s1 & E & Hi1 & Hd1 & Hf1 & Ho1).
  rewrite (bind_run _ _ _ _ _ E). destruct (spec_op f o) as [r f1]. simpl in *.
  destruct (IH f1 s1 Hi1 Hd1 Ha Hf1) as (s2 & E2 & Hi2 & Hf2 & Ho2).
  rewrite (bind_run _ _ _ _ _ E2). destruct (spec_ops f1 ops) as [rs f2]. exists s2. split_and!; try done.
  intros x Hx. by rewrite Ho2, Ho1.
Qed.

(** C17: When [MFS_Flush_fat_cache] succeeds, on any device, every copy of the FAT
    on the device holds every link: reading the entries of any copy by itself
    gives the links of the file system. *)
Theorem fat_flush_all_copies s s' fat c :
  fat_inv s -> MFS_Flush_fat_cache g s = Some (MFS_NO_ERROR, s') ->
  0 <= fat < NUMBER_OF_FAT g -> valid c ->
  norm (raw_entry c (fun x => img (DEV s') ((FAT_START_SECTOR g + fat * fat_size g) * SS + x))) = links s c.
Proof.
  intros Hi E Hfat Hv. destruct (flush_run s (fi_cache s Hi) (fi_mirror s Hi)) as (e & s1 & E1 & Hm & _ & _ & Hcl & _).
  rewrite E in E1. injection E1 as <- <-. specialize (Hcl eq_refl).
  destruct (valid_offset c Hv) as [(H0 & H1 & _) _].
  unfold links, raw. f_equal. apply raw_at_ext. intros x Hx.
  rewrite (mv_mirror _ _ Hm) by (try done; try lia; congruence).
  rewrite <- (mv_fatb _ _ Hm) by lia. unfold fatb.
  destruct (in_range_spec (FAT_CACHE_START s' * SS) (FAT_CACHE_SIZE g * SS) x) as [[Hin Hr]|[-> _]]; [|done].
  rewrite Hin. pose proof (mv_cache _ _ Hm) as Hc. destruct (co_start _ Hc) as [[Hmx _]|Hl].
  - rewrite unloaded_range in Hin by (try done; lia). done.
  - rewrite (co_clean _ Hc Hcl Hl) by lia. f_equal. lia.
Qed.

(** C31: [MFS_Release_chain] on a path of distinct clusters frees all of them when
    the path ends in the end mark or runs back into itself, and all but the
    last when it ends in a bad link; it drops the data buffer when it belongs to
    a freed cluster, leaves every other link and the rest of the device, and
    returns [MFS_NO_ERROR] each time, so a caller is not told of the damage. *)
Theorem release_chain_frees c l x e s :
  fat_inv s -> dev_reliable g s -> path (links s) c (l ++ [x]) e -> NoDup (l ++ [x]) ->
  e = CLUSTER_EOF \/ bad_link g e = true \/ e ∈ l ++ [x] ->
  exists s', MFS_Release_chain g c s = Some (MFS_NO_ERROR, s') /\
    freed (if bad_link g e then l else l ++ [x]) s s'.
Proof.
  intros Hi Hd Hp Hnd He.
  assert (valid c) as Hv.
  { destruct (path_head _ _ _ _ Hp) as [l' El]. eapply path_valid; [exact Hp|]. rewrite El. set_solver. }
  destruct (release_run c s Hi Hd Hv) as (l' & s' & E & Hfr & Hr & _). exists s'. split; [done|].
  assert (releases (links s) c (if bad_link g e then l else l ++ [x])) as Hr2.
  { destruct (bad_link g e) eqn:Eb; [by eapply broken_releases|].
    destruct He as [->|[?|He]]; [by apply chain_releases|congruence|].
    eapply loop_releases; [exact Hp|done| |by left]. by eapply path_valid. }
  by rewrite <- (releases_det _ _ _ _ Hr Hr2).
Qed.

(** [MFS_Extend_chain] once the end of the chain is found. *)
Lemma extend_run fuel c l0 t num s :
  fat_inv s -> dev_reliable g s -> chain (links s) c (l0 ++ [t]) ->
  (length (l0 ++ [t]) <= fuel)%nat -> 0 < num ->
  exists s1, keeps s s1 /\ valid t /\ links s t = CLUSTER_EOF /\
    MFS_Extend_chain g fuel c num s =
    (r ← extend_loop g (Z.to_nat num) t 0 None;
     match r with
     | inl error_code => mret (error_code, None)
     | inr (cluster_number, extended, rest, added_cluster) =>
         error_code ← (if negb (extended =? 0) then MFS_Put_fat g cluster_number CLUSTER_EOF
                       else mret MFS_NO_ERROR);
         mret (if negb (rest =? 0) && (error_code =? 0) then MFS_DISK_FULL else error_code,
               added_cluster)
     end) s1.
Proof.
  intros Hi Hd Hch Hf Hn.
  assert (valid c) as [H2 Hl].
  { destruct (path_head _ _ _ _ Hch) as [l' El]. eapply path_valid; [exact Hch|]. rewrite El. set_solver. }
  destruct (walk_run fuel c l0 t s Hi Hd Hch Hf) as (s1 & E & Hk).
  exists s1. split; [done|]. destruct (path_suffix _ _ _ _ t Hch ltac:(set_solver)) as (l1 & l2 & E2 & Hp).
  assert (l2 = [t]) as ->.
  { destruct (path_head _ _ _ _ Hp) as [l' ->]. destruct (decide (l' = [])) as [->|Hne]; [done|].
    exfalso. pose proof (path_NoDup _ _ _ _ Hch eof_invalid) as Hnd.
    destruct (exists_last Hne) as (l3 & y & ->). rewrite app_comm_cons, app_assoc in E2.
    apply app_inj_tail in E2 as [E2 <-]. rewrite E2 in Hnd. apply NoDup_app in Hnd as (_ & Hx & _).
    apply (Hx t); set_solver. }
  destruct (path_inv_one _ _ _ _ Hp) as (_ & Hvt & Het). split; [done|]. split; [done|].
  unfold MFS_Extend_chain, MFS_is_read_only, CLUSTER_MIN_GOOD. rewrite (fo_writable g Hg).
  rewrite (proj2 (Z.ltb_ge c 2)), (proj2 (Z.ltb_ge _ c)) by lia. simpl.
  rewrite (proj2 (Z.leb_gt _ _)) by lia. by rewrite (bind_run _ _ _ _ _ E).
Qed.

Lemma keeps_avail s s1 t : keeps s s1 -> valid t -> avail s1 t = avail s t.
Proof.
  intros Hk Hv. unfold avail, free_clusters. rewrite (free_list_ext s s1 (kp_links _ _ Hk)).
  by rewrite (kp_links _ _ Hk).
Qed.

(** C32: When [num] clusters are free, [MFS_Extend_chain] appends exactly [num] of
    them to the chain, distinct and free before, reports the first one, and
    leaves every link outside of the new end and the rest of the device. *)
Theorem extend_chain_appends fuel c l num s :
  fat_inv s -> dev_reliable g s -> chain (links s) c l -> (length l <= fuel)%nat ->
  0 < num <= free_clusters s ->
  exists new s', MFS_Extend_chain g fuel c num s = Some ((MFS_NO_ERROR, head new), s') /\
    zlen new = num /\ NoDup new /\ (forall x, x ∈ new -> valid x /\ links s x = 0) /\
    fat_inv s' /\ chain (links s') c (l ++ new) /\
    (forall x, valid x -> x ∉ l ++ new -> links s' x = links s x) /\ outside_same s s'.
Proof.
  intros Hi Hd Hch Hf Hn.
  destruct (exists_last (l := l)) as (l0 & t & ->); [by intros ->; inversion Hch|].
  destruct (extend_run fuel c l0 t num s Hi Hd Hch Hf ltac:(lia)) as (s1 & Hk & Hvt & Het & E).
  pose proof (keeps_avail s s1 t Hk Hvt) as Hav. unfold avail in Hav at 2. rewrite Het in Hav. simpl in Hav.
  destruct (extend_loop_run (Z.to_nat num) t 0 None s1) as (new & s2 & E2 & Hlen & Hnd & Hnew & Hrl & _);
    [apply Hk|by apply (kp_reliable _ _ Hk)|done|lia|done|].
  rewrite (bind_run _ _ _ _ _ E2) in E. rewrite (proj2 (Z.eqb_neq (0 + Z.of_nat (Z.to_nat num)) 0)) in E by lia. simpl in E.
  assert (forall x, x ∈ new -> valid x /\ links s x = 0) as Hnew0.
  { intros x Hx. destruct (Hnew x Hx) as [Hv H0]. split; [done|]. by rewrite <- (kp_links _ _ Hk). }
  assert (valid (last_from t new)) as Hvl by (destruct (last_from_elem t new) as [->|Hin]; [done|by apply Hnew]).
  assert (relinks (link_up (links s) t new) s s2) as Hrl2.
  { eapply relinks_trans; [by apply keeps_relinks|]. eapply relinks_ext; [|exact Hrl].
    intros x Hx. apply link_up_ext; [apply (kp_links _ _ Hk)|done]. }
  destruct (finish_run _ t new s s2 Hrl2 Hvl) as (s3 & E3 & Hrl3).
  rewrite (bind_run _ _ _ _ _ E3) in E. simpl in E.
  destruct (spliced_chain s s3 c l0 t new Hch Hnd Hnew0 Hrl3) as [Hch3 Hout].
  exists new, s3. rewrite E. split; [by destruct new|]. split; [lia|].
  apply NoDup_cons in Hnd as [Ht Hnd]. rewrite <- app_assoc.
  split_and!; try done; try apply Hrl3. intros x Hv Hx. apply Hout; [done|set_solver].
Qed.

(** The last cluster that was linked still reads as unused. *)
Lemma link_up_last f t new :
  NoDup (t :: new) -> new <> [] -> link_up f t new (last_from t new) = f (last_from t new).
Proof.
  revert f t. induction new as [|y new IH]; intros f t Hnd Hne; [done|]. simpl.
  apply NoDup_cons in Hnd as [Ht Hnd]. destruct (decide (new = [])) as [->|Hne2].
  - simpl in *. rewrite (proj2 (Z.eqb_neq y t)); [done|set_solver].
  - rewrite IH by done. rewrite (proj2 (Z.eqb_neq _ t)); [done|].
    intros E. apply Ht. rewrite <- E. apply last_from_in.
Qed.

(** When no other cluster is free, the search finds the last linked cluster
    itself, once; then the loop runs out of clusters. *)
Lemma extend_wrap c ext added m s :
  fat_inv s -> dev_reliable g s -> valid c -> links s c = 0 -> avail s c = 0 -> 0 < ext ->
  exists s', extend_loop g (S m) c ext added s = Some (inr (c, ext + 1, Z.of_nat m, added), s') /\
    relinks (fun x => if x =? c then c else links s x) s s'.
Proof.
  intros Hi Hd Hv H0 Ha He. pose proof (search_last s c Hv Ha) as Hsl. rewrite H0 in Hsl. simpl in Hsl.
  destruct (extend_step c c s Hi Hd Hv Hv Hsl) as (s1 & Hrl & Estep).
  rewrite Estep, (proj2 (Z.eqb_neq ext 0)) by lia.
  assert (forall x, valid x -> links s1 x = if x =? c then c else links s x) as Hl1 by apply Hrl.
  assert (links s1 c <> 0) as Hc1 by (rewrite Hl1, Z.eqb_refl by done; destruct Hv; lia).
  destruct m as [|m]; [by exists s1|].
  assert (avail s1 c = 0) as Ha1.
  { unfold avail in Ha |- *. rewrite (free_update s s1 c c Hv Hl1), H0 in *.
    rewrite (proj2 (Z.eqb_neq (links s1 c) 0)), (proj2 (Z.eqb_neq c 0)) by (done || destruct Hv; lia).
    simpl in *. lia. }
  pose proof Hv as [H2 Hl].
  destruct (find_unused_run (c + 1) s1 (rl_inv _ _ _ Hrl) (rl_reliable _ _ _ Hrl) ltac:(lia)) as (s2 & E & Hk).
  rewrite (search_last s1 c Hv Ha1), (proj2 (Z.eqb_neq _ 0)) in E by done. simpl in E.
  exists s2. split; [|by eapply relinks_keeps]. simpl extend_loop. by rewrite (bind_run _ _ _ _ _ E).
Qed.

(** When fewer clusters are free than asked for, [MFS_Extend_chain] appends
    all of them. With exactly one missing it returns [MFS_NO_ERROR] all the
    same: the search wraps around to the cluster that was linked last, whose
    entry still reads as unused, and counts it twice. With more missing it
    returns [MFS_DISK_FULL]. *)
Theorem extend_chain_overdraw fuel c l num s :
  fat_inv s -> dev_reliable g s -> chain (links s) c l -> (length l <= fuel)%nat ->
  0 < free_clusters s < num ->
  exists new s',
    MFS_Extend_chain g fuel c num s
    = Some ((if num =? free_clusters s + 1 then MFS_NO_ERROR else MFS_DISK_FULL, head new), s') /\
    zlen new = free_clusters s /\ NoDup new /\ (forall x, x ∈ new -> valid x /\ links s x = 0) /\
    fat_inv s' /\ chain (links s') c (l ++ new) /\ outside_same s s'.
Proof.
  intros Hi Hd Hch Hf Hn.
  destruct (exists_last (l := l)) as (l0 & t & ->); [by intros ->; inversion Hch|].
  destruct (extend_run fuel c l0 t num s Hi Hd Hch Hf ltac:(lia)) as (s1 & Hk & Hvt & Het & E).
  pose proof (keeps_avail s s1 t Hk Hvt) as Hav. unfold avail in Hav at 2. rewrite Het in Hav. simpl in Hav.
  set (n := Z.to_nat (free_clusters s)). set (m := Z.to_nat (num - free_clusters s - 1)).
  destruct (extend_loop_run n t 0 None s1) as (new & s2 & E2 & Hlen & Hnd & Hnew & Hrl & Hav2);
    [apply Hk|by apply (kp_reliable _ _ Hk)|done|lia|done|].
  assert (forall x, x ∈ new -> valid x /\ links s x = 0) as Hnew0.
  { intros x Hx. destruct (Hnew x Hx) as [Hv H0]. split; [done|]. by rewrite <- (kp_links _ _ Hk). }
  assert (new <> []) as Hne by (intros ->; simpl in Hlen; lia).
  assert (last_from t new ∈ new) as Hlast.
  { destruct new as [|y new]; [done|]. simpl. apply last_from_in. }
  destruct (Hnew _ Hlast) as [Hvl Hl0].
  destruct (extend_wrap (last_from t new) (0 + Z.of_nat n) (head new) m s2) as (s4 & E4 & Hrl4);
    [apply Hrl|apply Hrl|done| |lia|lia|].
  { rewrite (rl_links _ _ _ Hrl) by done. by rewrite link_up_last. }
  assert (extend_loop g (Z.to_nat num) t 0 None s1
      = Some (inr (last_from t new, 0 + Z.of_nat n + 1, Z.of_nat m, head new), s4)) as E5.
  { replace (Z.to_nat num) with (n + S m)%nat by lia. rewrite (extend_loop_app _ _ _ _ _ _ _ _ _ _ E2), <- E4.
    by destruct new. }
  rewrite (bind_run _ _ _ _ _ E5) in E. rewrite (proj2 (Z.eqb_neq (0 + Z.of_nat n + 1) 0)) in E by lia. simpl in E.
  assert (relinks (fun x => if x =? last_from t new then last_from t new else link_up (links s) t new x) s s4) as Hrl5.
  { eapply relinks_trans; [by apply keeps_relinks|]. eapply relinks_trans; [exact Hrl|].
    eapply relinks_ext; [|exact Hrl4]. intros x Hx. simpl. destruct (x =? last_from t new); [done|].
    rewrite (rl_links _ _ _ Hrl) by done. apply link_up_ext; [apply (kp_links _ _ Hk)|done]. }
  destruct (finish_run _ t new s s4 Hrl5 Hvl) as (s5 & E6 & Hrl6).
  rewrite (bind_run _ _ _ _ _ E6) in E.
  assert (relinks (fun y => if y =? last_from t new then CLUSTER_EOF else link_up (links s) t new y) s s5) as Hrl7.
  { eapply relinks_ext; [|exact Hrl6]. intros x Hx. simpl. by destruct (x =? last_from t new). }
  destruct (spliced_chain s s5 c l0 t new Hch Hnd Hnew0 Hrl7) as [Hch5 _].
  apply NoDup_cons in Hnd as [_ Hnd].
  exists new, s5. rewrite E, <- app_assoc. split_and!; try done; try lia; try apply Hrl7.
  unfold mret, M_ret. do 4 f_equal. simpl. rewrite andb_true_r.
  destruct (Z.eqb_spec num (free_clusters s + 1)), (Z.eqb_spec (Z.of_nat m) 0); simpl; try done; lia.
Qed.

(** On a chain that runs back into itself [MFS_Extend_chain] does not return:
    the walk to the end of the chain goes round for ever, whatever its fuel. *)
Theorem extend_chain_diverges fuel c l e num s :
  fat_inv s -> dev_reliable g s -> path (links s) c l e -> e ∈ l -> 0 < num ->
  MFS_Extend_chain g fuel c num s = None.
Proof.
  intros Hi Hd Hp He Hn. destruct (path_head _ _ _ _ Hp) as [l' El].
  assert (c ∈ l) as Hc by (rewrite El; set_solver).
  assert (valid c) as [H2 Hl] by (by eapply path_valid).
  unfold MFS_Extend_chain, MFS_is_read_only, CLUSTER_MIN_GOOD. rewrite (fo_writable g Hg).
  rewrite (proj2 (Z.ltb_ge c 2)), (proj2 (Z.ltb_ge _ c)) by lia. simpl.
  rewrite (proj2 (Z.leb_gt _ _)) by lia. unfold mbind, M_bind.
  by rewrite (walk_diverges fuel c l s Hi Hd Hc (path_closed _ _ _ _ Hp He)).
Qed.

(** [MFS_Get_disk_free_space_internal] gives the number of unused clusters,
    whether it has to count them or keeps the number that every store has
    adjusted since, and the number is known afterwards. *)
Theorem free_space_exact s :
  fat_inv s -> dev_reliable g s ->
  exists s', MFS_Get_disk_free_space_internal g s = Some ((MFS_NO_ERROR, free_clusters s), s') /\
    fat_inv s' /\ FREE_COUNT s' = free_clusters s /\ (forall c, valid c -> links s' c = links s c).
Proof.
  intros Hi Hd. unfold MFS_Get_disk_free_space_internal. rewrite (bind_run _ _ s s s) by done.
  destruct (Z.eqb_spec (FREE_COUNT s) FSI_UNKNOWN) as [E|E].
  2: { destruct (fi_free s Hi) as [?|Hf]; [done|]. exists s. by rewrite Hf. }
  destruct (count_loop_run (clusters g) CLUSTER_UNUSED 2 0 s Hi Hd) as (s1 & E1 & Hk & Hm);
    [lia|unfold clusters, CLUSTER_MIN_GOOD; pose proof (fo_last g Hg); lia|].
  assert (Z.of_nat (clusters g) = LAST_CLUSTER g - 1) as Hcl
    by (unfold clusters, CLUSTER_MIN_GOOD; pose proof (fo_last g Hg); lia).
  rewrite Hcl in E1.
  rewrite (filter_ext_in _ (is_free s)) in E1 by done.
  change (0 + zlen (filter (is_free s) (seqZ 2 (LAST_CLUSTER g - 1)))) with (free_clusters s) in E1.
  rewrite (bind_run _ _ _ _ _ E1). simpl. rewrite (bind_run _ _ _ _ _ eq_refl).
  exists (set_FREE (free_clusters s) s1). split; [done|]. split; [|split; [done|apply (kp_links _ _ Hk)]].
  destruct (kp_inv _ _ Hk) as [Hc Hmi Hcl' _]. constructor; try done; [by destruct Hc|].
  right. simpl. change (free_clusters (set_FREE (free_clusters s) s1)) with (free_clusters s1).
  unfold free_clusters. by rewrite (free_list_ext s s1 (kp_links _ _ Hk)).
Qed.

Lemma unlock_run s :
  fat_inv s -> DIR_SECTOR_DIRTY s = false -> DATA_SECTOR_DIRTY s = false ->
  exists e s', MFS_unlock g false s = Some (e, s').
Proof.
  intros Hi H1 H2. unfold MFS_unlock.
  assert ((if flush_policy (WRITE_CACHE_POLICY g) false then
       (error ← MFS_Flush_directory_sector_buffer g;
        if error =? MFS_NO_ERROR then MFS_Flush_data_sector_buffer g else mret error)
     else mret MFS_NO_ERROR) s = Some (MFS_NO_ERROR, s)) as E0.
  { destruct (flush_policy (WRITE_CACHE_POLICY g) false); [|done].
    unfold MFS_Flush_directory_sector_buffer, MFS_Flush_data_sector_buffer, MFS_is_read_only.
    rewrite (fo_writable g Hg). unfold mbind, M_bind, gets. cbn [id]. rewrite H1. simpl. by rewrite H2. }
  rewrite (bind_run _ _ _ _ _ E0).
  destruct (flush_policy (FAT_CACHE_POLICY g) false); simpl; [|by eexists _, _].
  destruct (flush_run s (fi_cache s Hi) (fi_mirror s Hi)) as (e & s1 & E & _). rewrite (bind_run _ _ _ _ _ E).
  destruct (e =? MFS_NO_ERROR); [|by eexists _, _].
  unfold ioctl_flush_output, mbind, M_bind, gets, modify, mret, M_ret. cbn [id].
  destruct (ioctl_flush (DEV s1)) as [e2 d2]. by eexists _, _.
Qed.

(** [MFS_Bad_clusters] finds no bad cluster on any FAT12 or FAT16 drive: it
    looks for the FAT32 mark, which no entry of these formats reads as. *)
Theorem bad_clusters_none s :
  FAT_TYPE g <> MFS_FAT32 -> DOS_DISK g = true -> fat_inv s -> dev_reliable g s ->
  DIR_SECTOR_DIRTY s = false -> DATA_SECTOR_DIRTY s = false ->
  exists s', MFS_Bad_clusters g s = Some (0, s').
Proof.
  intros Ht Hdos Hi Hd H1 H2. unfold MFS_Bad_clusters, MFS_lock_dos_disk. rewrite Hdos. simpl.
  destruct (count_loop_run (clusters g) CLUSTER_BAD CLUSTER_MIN_GOOD 0 s Hi Hd) as (s1 & E1 & Hk & Hm);
    [done|unfold clusters, CLUSTER_MIN_GOOD; pose proof (fo_last g Hg); lia|].
  assert (filter (fun c => links s c = CLUSTER_BAD) (seqZ CLUSTER_MIN_GOOD (Z.of_nat (clusters g))) = []) as Hnil.
  { apply elem_of_nil_inv. intros x Hx. apply list_elem_of_filter in Hx as [Hx _]. revert Hx.
    unfold links, norm, entry_max, CLUSTER_MAX_12, CLUSTER_MAX_16, CLUSTER_BAD, CLUSTER_EOF.
    destruct (FAT_TYPE g); [..|done]; case_if; lia. }
  rewrite (filter_ext_in _ (fun c => links s c = CLUSTER_BAD)), Hnil in E1 by done.
  rewrite (bind_run _ _ _ _ _ E1). simpl.
  destruct (mv_other _ _ Hm) as (D1 & _ & _ & D2 & _).
  destruct (unlock_run s1) as (e & s2 & E2); [apply Hk|congruence|congruence|].
  rewrite (bind_run _ _ _ _ _ E2). by exists s2.
Qed.

End Cache.

(** ** A RAM disk

    The devices of the examples: a memory of bytes, some of which may be
    unreadable. *)

Record ram := Ram { mem : Z -> Z; at_ : Z }.

Definition ram_device (bad : Z -> bool) : Device ram := {|
  fseek p d := Ram (mem d) p;
  write data n d :=
    (n, Ram (fun x => if in_range (at_ d) n x then byte data (x - at_ d) else mem d x) (at_ d + n));
  read n d :=
    if existsb (fun i => bad (at_ d + i)) (seqZ 0 n) then (IO_ERROR, [], d)
    else (n, map (fun i => mem d (at_ d + i) mod 256) (seqZ 0 n), Ram (mem d) (at_ d + n));
  ERROR d := MFS_READ_FAULT;
  ioctl_flush d := (IO_ERROR_INVALID_IOCTL_CMD, d);
|}.

#[local] Instance good_ram : Device ram := ram_device (fun _ => false).

Lemma existsb_none {A} (l : list A) : existsb (fun _ => false) l = false.
Proof. by induction l. Qed.

Lemma byte_map (f : Z -> Z) n i : 0 <= i < n -> byte (map f (seqZ 0 n)) i = f i.
Proof.
  intros Hi. unfold byte. rewrite (nth_lookup_Some _ _ _ (f i)); [done|].
  apply list_lookup_fmap_Some. exists i. split; [done|]. apply lookup_seqZ. lia.
Qed.

(** The examples use a small FAT16 drive: sectors of 16 bytes, two copies of a
    FAT of four sectors, a cache of two, and thirty clusters. *)
Definition ex_g : geometry := {|
  FAT_TYPE := MFS_FAT16; SECTOR_POWER := 4; SECTORS_PER_CLUSTER := 1; NUMBER_OF_FAT := 2;
  SECTORS_PER_FAT := 4; FAT_SIZE := 0; MEGA_SECTORS := 45; FAT_START_SECTOR := 1;
  ROOT_START_SECTOR := 9; DATA_START_SECTOR := 10; LAST_CLUSTER := 31; CLUSTER_POWER_BYTES := 4;
  FAT_CACHE_SIZE := 2; BLOCK_MODE := false; READ_ONLY := false; DOS_DISK := true;
  WRITE_CACHE_POLICY := MFS_WRITE_BACK_CACHE; FAT_CACHE_POLICY := MFS_WRITE_THROUGH_CACHE |}.

#[local] Program Instance ram_laws : DeviceLaws ram ex_g := {|
  img d x := mem d x mod 256;
  pos := at_;
|}.
Next Obligation. intros d x. simpl. apply Z.mod_pos_bound. lia. Qed.
Next Obligation. done. Qed.
Next Obligation.
  intros data n d num d' Hn Hl Hb [= <- <-]. unfold unit_size in *. simpl in *. split; [lia|]. split; [|lia].
  intros _. split; [done|]. intros x. rewrite !Z.mul_1_r. unfold in_range.
  destruct (_ && _); [|done]. pose proof (byte_is_byte data (x - at_ d) Hb). by rewrite Z.mod_small.
Qed.
Next Obligation.
  intros n d num bs d' Hn E. simpl in E. rewrite existsb_none in E. injection E as <- <- <-. unfold unit_size. simpl.
  rewrite length_map, length_seqZ. split_and!; try done; try lia.
  - apply Forall_map, Forall_forall. intros x _. simpl. apply Z.mod_pos_bound. lia.
  - intros _. split_and!; [done|lia|]. intros i Hi. rewrite byte_map by lia. by rewrite Z.mul_1_r.
Qed.

Lemma ex_fat_ok : fat_ok ex_g.
Proof. constructor; vm_compute; done. Qed.

Definition ex_bytes (entries : list Z) : list Z := flat_map (fun e => [e mod 256; e / 256]) entries.

(** A mounted drive whose FAT has the given entries, with nothing cached. *)
Definition ex_drive (entries : list Z) : drive ram :=
  Drive (Ram (fun x => if in_range 16 64 x then byte (ex_bytes entries) (x - 16)
                       else if in_range 80 64 x then byte (ex_bytes entries) (x - 80) else 0) 0)
    false 0 (replicate 16 0) MAX_UINT_32 false (replicate 32 0) false 0 (replicate 16 0)
    FSI_UNKNOWN 2 None.

Lemma ex_reliable entries : dev_reliable ex_g (ex_drive entries).
Proof.
  split; [done|]. split; [done|]. intros n d Hn _ _. simpl.
  by rewrite existsb_none.
Qed.

Lemma ex_inv entries : fat_inv ex_g (ex_drive entries).
Proof.
  assert (cache_ok ex_g (ex_drive entries)) as Hc.
  { constructor.
    + done.
    + apply Forall_replicate. lia.
    + exact I.
    + by left.
    + intros _ [_ Hl]. by vm_compute in Hl. }
  constructor; [done|..].
  - intros fat x Hfat Hx _. change (fat_size ex_g * SECTOR_SIZE ex_g) with 64 in Hx.
    change (NUMBER_OF_FAT ex_g) with 2 in Hfat. unfold img. simpl.
    change (SECTOR_SIZE ex_g) with 16. change (fat_size ex_g) with 4. change (FAT_START_SECTOR ex_g) with 1.
    rewrite (in_range_true 16 64 (1 * 16 + x)) by lia.
    assert (fat = 0 \/ fat = 1) as [->| ->] by lia.
    + by rewrite (in_range_true 16 64) by lia.
    + rewrite (in_range_false 16 64), (in_range_true 80 64) by lia. do 2 f_equal. lia.
  - intros c Hv. unfold raw, raw_entry, raw_at. simpl.
    pose proof (fatb_byte ex_g (ex_drive entries) (offset_of ex_g c) Hc) as H1.
    pose proof (fatb_byte ex_g (ex_drive entries) (offset_of ex_g c + 1) Hc) as H2. lia.
  - by left.
Qed.

Definition fafter {A} (m : M (drive ram) A) (s : drive ram) : drive ram :=
  match m s with Some (_, s') => s' | None => s end.

(** A file of two clusters: 2, then 3. *)
Definition ex_file : drive ram := ex_drive [65528; 65535; 3; 65535].

(** The same file with a last link to a cluster that does not exist, and with
    one back to its first cluster. *)
Definition ex_broken : drive ram := ex_drive [65528; 65535; 3; 99].
Definition ex_loop : drive ram := ex_drive [65528; 65535; 3; 2].

(** The file on a drive where only cluster 4 is free. *)
Definition ex_full : drive ram := ex_drive ([65528; 65535; 3; 65535; 0] ++ replicate 27 65535).

Lemma path_two g f a b e :
  valid g a -> valid g b -> f a = b -> f b = e -> path g f a [a; b] e.
Proof.
  intros Ha Hb <- <-. apply path_cons; [done|done|]. by apply path_one.
Qed.

Lemma ex_chain s : links ex_g s 2 = 3 -> links ex_g s 3 = CLUSTER_EOF -> chain ex_g (links ex_g s) 2 [2; 3].
Proof. intros H1 H2. by apply path_two. Qed.

Lemma NoDup_two (a b : Z) : a <> b -> NoDup [a; b].
Proof. intros Hab. apply NoDup_cons. split; [set_solver|apply NoDup_singleton]. Qed.

Definition ex_ops : list fat_op :=
  [OGet 2; OFind 2; OPut 4 CLUSTER_EOF; OPut 3 4; OGet 3; OFind 2; OPut 30 7; OFlush; OGet 32; OGet 30].

Lemma fat_trace_refines_witness :
  exists s', run_ops ex_g ex_ops ex_file
    = Some ([(0, 3); (0, 4); (0, 0); (0, 0); (0, 4); (0, 5); (0, 0); (0, 0);
             (MFS_INVALID_CLUSTER_NUMBER, CLUSTER_EOF); (0, 7)], s') /\
    fat_inv ex_g s' /\ links ex_g s' 3 = 4.
Proof.
  destruct (fat_trace_refines ex_g ex_fat_ok ex_ops (links ex_g ex_file) ex_file
              (ex_inv _) (ex_reliable _)) as (s' & E & Hi & Hl & _).
  - unfold ex_ops. rewrite !Forall_cons, Forall_nil.
    repeat split; first [done|by right|by left].
  - done.
  - exists s'. split; [rewrite E; vm_compute; reflexivity|]. split; [exact Hi|].
    transitivity ((spec_ops ex_g (links ex_g ex_file) ex_ops).2 3).
    + apply Hl. by split.
    + vm_compute. reflexivity.
Defined.

Definition ex_put : drive ram := fafter (MFS_Put_fat ex_g 20 CLUSTER_EOF) ex_file.

Lemma ex_put_ok : fat_inv ex_g ex_put /\ dev_reliable ex_g ex_put.
Proof.
  destruct (put_ok ex_g ex_fat_ok 20 CLUSTER_EOF ex_file (ex_inv _) (ex_reliable _)) as (s' & E & Hst);
    [done|by right|].
  unfold ex_put, fafter. rewrite E. split; [apply Hst|]. apply (st_reliable _ _ _ _ _ Hst), ex_reliable.
Qed.

Lemma fat_flush_all_copies_witness :
  FAT_CACHE_DIRTY ex_put = true /\
  exists s', MFS_Flush_fat_cache ex_g ex_put = Some (MFS_NO_ERROR, s') /\
    norm ex_g (raw_entry ex_g 20 (fun x => img (DEV s')
      ((FAT_START_SECTOR ex_g + 1 * fat_size ex_g) * SECTOR_SIZE ex_g + x))) = CLUSTER_EOF.
Proof.
  split; [vm_compute; reflexivity|].
  destruct (flush_run ex_g ex_fat_ok ex_put (fi_cache _ _ (proj1 ex_put_ok)) (fi_mirror _ _ (proj1 ex_put_ok)))
    as (e & s' & E & _ & _ & _ & _ & Hrel).
  specialize (Hrel (proj2 ex_put_ok)) as ->.
  exists s'. split; [exact E|].
  transitivity (links ex_g ex_put 20); [|vm_compute; reflexivity].
  apply (fat_flush_all_copies ex_g ex_fat_ok ex_put s' 1 20 (proj1 ex_put_ok) E); by split.
Defined.

Lemma release_chain_frees_witness :
  exists s', MFS_Release_chain ex_g 2 ex_broken = Some (MFS_NO_ERROR, s') /\ freed ex_g [2] ex_broken s'.
Proof.
  exact (release_chain_frees ex_g ex_fat_ok 2 [2] 3 99 ex_broken (ex_inv _) (ex_reliable _)
    (path_two ex_g _ 2 3 99 ltac:(done) ltac:(done) eq_refl eq_refl) (NoDup_two 2 3 ltac:(done))
    (or_intror (or_introl eq_refl))).
Defined.

Lemma extend_chain_appends_witness :
  exists new s', MFS_Extend_chain ex_g 2 2 2 ex_file = Some ((MFS_NO_ERROR, head new), s') /\
    zlen new = 2 /\ chain ex_g (links ex_g s') 2 ([2; 3] ++ new).
Proof.
  destruct (extend_chain_appends ex_g ex_fat_ok 2 2 [2; 3] 2 ex_file (ex_inv _) (ex_reliable _))
    as (new & s' & E & Hn & _ & _ & _ & Hc & _).
  - by apply ex_chain.
  - done.
  - vm_compute. done.
  - exists new, s'. split; [exact E|]. split; [exact Hn|exact Hc].
Defined.

Lemma extend_chain_overdraw_witness :
  exists new s', MFS_Extend_chain ex_g 2 2 2 ex_full = Some ((MFS_NO_ERROR, head new), s') /\
    zlen new = 1 /\ chain ex_g (links ex_g s') 2 ([2; 3] ++ new).
Proof.
  assert (free_clusters ex_g ex_full = 1) as Hf by (vm_compute; reflexivity).
  destruct (extend_chain_overdraw ex_g ex_fat_ok 2 2 [2; 3] 2 ex_full (ex_inv _) (ex_reliable _))
    as (new & s' & E & Hn & _ & _ & _ & Hc & _).
  - by apply ex_chain.
  - done.
  - rewrite Hf. done.
  - rewrite Hf in E, Hn. exists new, s'. split; [exact E|]. split; [exact Hn|exact Hc].
Defined.

Lemma extend_chain_diverges_witness : forall fuel, MFS_Extend_chain ex_g fuel 2 1 ex_loop = None.
Proof.
  intros fuel.
  apply (extend_chain_diverges ex_g ex_fat_ok fuel 2 [2; 3] 2 1 ex_loop (ex_inv _) (ex_reliable _)).
  - by apply path_two.
  - set_solver.
  - done.
Defined.

Lemma free_space_exact_witness :
  exists s', MFS_Get_disk_free_space_internal ex_g ex_file = Some ((MFS_NO_ERROR, 28), s').
Proof.
  destruct (free_space_exact ex_g ex_fat_ok ex_file (ex_inv _) (ex_reliable _)) as (s' & E & _).
  exists s'. rewrite E. vm_compute. reflexivity.
Defined.

Lemma bad_clusters_none_witness : exists s', MFS_Bad_clusters ex_g ex_full = Some (0, s').
Proof.
  apply (bad_clusters_none ex_g ex_fat_ok ex_full); try done; [apply ex_inv|apply ex_reliable].
Defined.

(** A drive on which sector 4, the last of the first copy of the FAT, cannot be
    read. *)
Definition bad_ram : Device ram := ram_device (fun x => in_range 64 16 x).

Definition bad_gets : list Z -> M (drive ram) (list (Z * Z)) :=
  mapM (fun c => @MFS_get_cluster_from_fat ram bad_ram ex_g c).

(** A sector that cannot be read spoils the cache. The first read gives the
    link of cluster 2; then the entry of cluster 30 cannot be read, but the
    cache keeps its old position over the sectors that were read meanwhile, so
    the link of cluster 2 reads as that of cluster 18, without an error. *)
Theorem read_error_spoils_cache :
  fst <$> bad_gets [2; 30; 2] (ex_drive ([65528; 65535; 3; 65535] ++ replicate 14 0 ++ [19]))
  = Some [(MFS_NO_ERROR, 3); (MFS_READ_FAULT, CLUSTER_EOF); (MFS_NO_ERROR, 19)].
Proof. vm_compute. reflexivity. Qed.
End Fat.
